(* ===== verification/_CoqProject ===== *)
-Q . S2P
Prelude.v
ErrMonad.v
CString.v
VoteQuorum.v
VoteQuorumExec.v
VoteQuorumTheory.v
VoteQuorumInv.v
VoteQuorumRun.v
VoteQuorumProps.v
SortQueue.v
SortQueueTheory.v
CsQueue.v
Endian.v
TotemMemb.v
TotemSrp.v
TotemSrpOps.v
TotemSrpHandlers.v
TotemSrpFrame.v
TotemSrpTheory.v
TotemSrpMemb.v
TotemSrpProps.v
TotemSrpOrder.v
TotemSrpOrderProps.v
TotemSrpAgree.v
TotemSrpRing.v
TotemSrpTotalOrder.v
TotemPg.v
TotemPgTheory.v
TotemPgSend.v
TotemPgProps.v
Sync.v
SyncSystem.v
SyncTheory.v
SyncProps.v
Ykd.v
YkdProps.v
VsfQuorum.v
VsfQuorumProps.v
Cpg.v
CpgTheory.v
CpgSync.v
CpgProps.v
Icmap.v
IcmapTheory.v
IcmapProps.v
Util.v
Coroparse.v
CoroparseMain.v
CoroparseTheory.v
CoroparseProps.v
CoroparseFrame.v
TotemIp.v
TotemConfig.v
TotemConfigLinks.v
TotemConfigRead.v
TotemConfigTheory.v
TotemConfigVolatile.v
TotemConfigMembers.v
TotemConfigNodes.v
TotemConfigProps.v
Cfg.v
CfgShutdown.v
CfgProps.v
CfgReload.v
CfgReloadKeys.v
CfgReloadFrame.v
CfgReloadProps.v
Stats.v
Cmap.v
StatsProps.v
CmapMessages.v
CmapTheory.v
CmapProps.v
Ipc.v
IpcProps.v
