(* ===== verification/Prelude.v ===== *)
(** * A verification development for corosync

    Corosync is a group communication daemon.  Its core is a stack: the totem
    single ring protocol (exec/totemsrp.c) forms rings of processors and orders
    their messages; totem process groups (exec/totempg.c) turns the packets of a
    ring into messages of any length between named groups; the synchronisation
    of the services (exec/sync.c, driven by confchg_fn of exec/main.c) brings the
    services of all members to a common state after every change of the ring;
    and the services run on top.  Votequorum (exec/votequorum.c) decides whether a
    partition may work and the quorum service (exec/vsf_quorum.c) tells it, with
    YKD (exec/vsf_ykd.c) as the other provider; cpg (exec/cpg.c) gives clients
    closed process groups; cfg (exec/cfg.c) shuts nodes down and reloads the
    configuration; cmap (exec/cmap.c) gives clients the configuration map and the
    statistics.  Clients reach the services through exec/ipc_glue.c.  The
    configuration map (exec/icmap.c) holds what the parser
    (exec/coroparse.c) reads; totemconfig (exec/totemconfig.c) makes the
    configuration of the ring protocol of it.  The queues of the ring protocol are
    the sort queue (include/corosync/sq.h) and a bounded queue (exec/cs_queue.h).

    ** Conventions

    A C function is a function of the same name on an explicit state: a record
    with the static variables (or the instance structure) of the source file.
    [None] is a failed [assert], an access outside an array or a call of a null
    pointer; error codes are values.  Integers that can overflow are kept at
    their width with [u8], [u16], [u32], [u64] and [s32] of this file.  What a
    component does to the world outside (messages, timers, callbacks, stores into
    the configuration map) is appended to a log in its state, and what the world
    decides is an argument.  Code outside the repository, the network, files and
    the clock are such arguments.  Logging is left out.
    Programs that stop with an error string are in the monad of [ErrMonad].

    Record updates are written [r <| field := v |>]; the setters are derived from
    the eta expansion of the record (class [Etable]).

    ** Files

    - [Prelude]: record updates, machine integers, flags, lists, tactics.
      [CString]: strtol, atoi and sscanf as the configuration code uses them.
    - [VoteQuorum], [VoteQuorumExec]: exec/votequorum.c, all handlers, timers, the
      configuration and the synchronisation callbacks.  [VoteQuorumTheory]: what
      [calculate_quorum] computes and that two disjoint parts of a cluster are
      never both quorate.  [VoteQuorumInv]: the invariant of the service and that
      every handler keeps it.  [VoteQuorumRun]: no run of the messages of a cluster,
      requests and timers fails an assertion.  [VoteQuorumProps]: tie breaking,
      expected votes, accepted configurations, and places where the code does
      not do what it sets out to do.
    - [SortQueue], [SortQueueTheory]: sq.h, and its refinement of a window of
      sequence numbers (a finite map) through roll-overs.
      [CsQueue]: cs_queue.h and its refinement of a first-in first-out list.
    - [Endian]: swab.h.  [TotemMemb]: the sets of processors of totemsrp.c.
    - [TotemSrp] (messages and the instance), [TotemSrpOps] (one definition per
      operation), [TotemSrpHandlers] (message handlers, timers, entry points and
      the state machine [srp_step]): exec/totemsrp.c.
      [TotemSrpFrame], [TotemSrpTheory], [TotemSrpMemb], [TotemSrpProps]: the
      transitions of the membership protocol, each with its cause (the agreement on
      the members, the round of the commit token, the rotations of recovery), and
      the growth of ring ids.  [TotemSrpOrder],
      [TotemSrpOrderProps]: ordering on one processor: delivery without gaps (or
      over the gaps when a ring ends), the numbers given out with the token, flow control, release of messages.
      [TotemSrpAgree], [TotemSrpRing], [TotemSrpTotalOrder]: the processors of a
      ring on a network that loses, duplicates and reorders deliver the messages
      of the ring in one order.
    - [TotemPg]: exec/totempg.c over the interface [SrpApi] of the ring protocol,
      which [TotemPgProps] instantiates with the functions of totemsrp.c.
      [TotemPgTheory] (packets, assembly, groups) and [TotemPgSend] (staging,
      fragmentation) give [TotemPgProps] the round trip of messages.
    - [Sync]: exec/sync.c, schedwrk_do and confchg_fn.  [SyncSystem]: all members
      of a configuration over an ordered channel; [SyncTheory], [SyncProps]: the
      barriers between services, completion and the absence of failures.

    - [VsfQuorum], [VsfQuorumProps]: exec/vsf_quorum.c and quorum.c, and that
      notifications only go to open connections.  [Ykd], [YkdProps]: exec/vsf_ykd.c;
      nodes with the same messages decide the same, and two ways to two primaries.
    - [Cpg], [CpgTheory], [CpgSync], [CpgProps]: exec/cpg.c; a member can follow its
      group through the notifications, and what a synchronisation adopts.
    - [Icmap], [IcmapTheory], [IcmapProps]: exec/icmap.c over an interface of the
      maps of libqb ([qb_map], with the laws [qb_map_laws]), which [IcmapProps]
      instantiates with finite maps; types of values, round trips of strings and
      numbers, and that trackers can follow the map.  [Util]: exec/util.c.
    - [Coroparse], [CoroparseMain]: exec/coroparse.c, the line parser over a callback
      and the two callbacks.  [CoroparseTheory], [CoroparseProps]: the parser ends
      on every file and reads back what is printed.  [CoroparseFrame]: it only
      changes the map that it is given.
    - [TotemIp]: exec/totemip.c.  [TotemConfig], [TotemConfigLinks],
      [TotemConfigRead]: exec/totemconfig.c (parameters; nodes, links and members;
      reading, validation and reload).  [TotemConfigTheory] (what validation
      checks), [TotemConfigVolatile] (a reference for the parameters that change at
      run time, which shares no definition of a default with the model), [TotemConfigMembers], [TotemConfigNodes] and [TotemConfigProps]:
      accepted configurations are valid, a reload calls totempg for exactly the
      members that changed, duplicate node ids.
    - [Cfg], [CfgShutdown], [CfgProps]: exec/cfg.c, and that a shutdown is a vote of
      the clients that track it.  [CfgReload]: the reload of the configuration, from
      the parser through totemconfig to totempg.  [CfgReloadKeys] (deleting what is
      gone from the file), [CfgReloadFrame] (what is not touched) and
      [CfgReloadProps]: what an accepted, a refused and an unreadable file change.
    - [Stats], [StatsProps]: exec/stats.c; the list of pauses is a history, and what
      reading a statistic of any kind does for every length of the buffer.  [Cmap]: exec/cmap.c,
      its messages as bytes.  [CmapMessages]: what is announced is read back on
      machines of both byte orders.  [CmapTheory]: trackers and handles own each
      other, callbacks never meet freed data.  [CmapProps]: the safety of clients,
      read-only keys, and the versions of the configuration in a cluster.
    - [Ipc]: exec/ipc_glue.c, and the admission of requests of exec/main.c.
      [IpcProps]: messages reach clients in order whatever libqb answers, requests reach services exactly
      when they may, and the rates of requests follow the state of the node.

    ** Bounds and fuel

    Loops over queues and packets are structural recursions or take as fuel the
    number of elements they can visit; the theorems on them state that the fuel
    is enough ([mcast_msg_terminates], and the completeness of [messages_deliver]
    in [TotemSrpOrder]).  The ordering theorems assume sequence numbers below
    [seq_limit] and fewer than [token_limit] tokens, so that no counter rolls
    over during a run; roll-over itself is covered by [SortQueueTheory].  The
    theorem on a synchronisation round bounds the steps by [round_bound].  The
    parser takes the length of the file as fuel, which [parse_section_terminates]
    shows to be enough; the walk through two lists of keys takes their lengths.
    An iteration over a map visits a snapshot of its keys.  Floating point numbers
    are those of the standard library's [SpecFloat].

    ** Not modelled

    The transports (exec/totemknet.c, totemudp.c, totemudpu.c, totemnet.c), the
    client libraries under lib/, logging, the watchdog and the monitor, the start
    of the program and its table of services (exec/main.c, service.c, but for
    confchg_fn and the admission of requests), the tools and the simulator of
    votequorum move data between the daemon and libraries or devices outside the
    repository.
    Branches for memory that cannot be allocated are left out.  The result of
    totempg that sync.c ignores is taken to be that its message was queued.  The
    counters of the ring protocol that no decision near their limit depends on
    (my_rotation_counter, my_aru_count, my_retrans_flg_count, my_seq_unchanged,
    global_seqno) are numbers without a width.  A request of cmap that sets a value
    has one of the twelve types of the interface, and the converter of the byte
    order of its messages leaves the header out.  The callbacks that
    the configuration map makes during a reload are recorded and not run, and those
    of cmap only run its own.  The theorems on the clients of cmap are about
    clients that stay with the configuration map, whose values are in their
    requests; [stats_get_exact] shows what happens on the statistics otherwise.
    Agreement across a change of the ring (extended virtual synchrony) is modelled
    by the code of totemsrp.c but only its single processor properties are
    proved. *)
From stdpp Require Export base list gmap numbers option strings.
From Stdlib Require Export ZArith Lia Bool.

(** ** Record update: [r <| field := v |>] and [r <| field ::= f |>].

    Every record that is updated field by field declares its eta expansion as
    an [Etable] instance; the setter of a projection is then found by
    rewriting that projection inside the expansion. *)
Class Etable (R : Type) := eta_expand : R -> R.

Class Setter {R T : Type} (proj : R -> T) := upd : (T -> T) -> R -> R.
Arguments upd {R T} proj {_} _ _.

(** Compare records as chains of updates before comparing them field by field. *)
Strategy 1000 [upd].

Ltac head_of t := lazymatch t with ?f _ => head_of f | _ => t end.

Ltac solve_setter :=
  lazymatch goal with
  | |- @Setter ?R ?T ?proj =>
      let inst := lazymatch constr:(@eta_expand R _) with @eta_expand _ ?i => i end in
      let h := head_of inst in
      exact (fun (setter_f : T -> T) (setter_r : R) =>
        ltac:(let e := eval cbv beta delta [h] in (inst setter_r) in
              lazymatch e with
              | context C [proj setter_r] => let e' := context C [setter_f (proj setter_r)] in exact e'
              end))
  end.

#[global] Hint Extern 0 (Setter _) => solve_setter : typeclass_instances.

Declare Scope record_scope.
Delimit Scope record_scope with record.
#[warnings="-postfix-notation-not-level-1"]
Notation "r <| p := v |>" := (upd p (fun _ => v) r)
  (at level 12, left associativity, p at next level, v at level 99) : record_scope.
#[warnings="-postfix-notation-not-level-1"]
Notation "r <| p ::= f |>" := (upd p f r)
  (at level 12, left associativity, p at next level, f at level 99) : record_scope.
#[global] Open Scope record_scope.
#[global] Open Scope Z_scope.


(** ** Fixed-width C integers

    An unsigned [w]-bit object is a [Z] in [0, 2^w); [u8], [u16], [u32], [u64]
    are the conversions to those types (reduction modulo [2^w]) and [s32] the
    conversion to a 32-bit two's complement [int]. *)
Definition u8 (z : Z) : Z := z mod 2 ^ 8.
Definition u16 (z : Z) : Z := z mod 2 ^ 16.
Definition u32 (z : Z) : Z := z mod 2 ^ 32.
Definition u64 (z : Z) : Z := z mod 2 ^ 64.
Definition s32 (z : Z) : Z :=
  let r := z mod 2 ^ 32 in if r <? 2 ^ 31 then r else r - 2 ^ 32.

(** C truth value of an integer: [if (x)]. *)
Definition c_true (z : Z) : bool := negb (z =? 0).
Definition b2z (b : bool) : Z := if b then 1 else 0.

(** Flag words: [f & b], [f |= b], [f &= ~b]. *)
Definition has_flag (f b : Z) : bool := negb (Z.land f b =? 0).
Definition set_flag (b f : Z) : Z := Z.lor f b.
Definition clr_flag (b f : Z) : Z := Z.ldiff f b.

Create HintDb wrap discriminated.
Create Rewrite HintDb wrap.

Lemma u8_range z : 0 <= u8 z < 256.
Proof. unfold u8. apply Z.mod_pos_bound. lia. Qed.

Lemma u32_range z : 0 <= u32 z < 2 ^ 32.
Proof. unfold u32. apply Z.mod_pos_bound. lia. Qed.

Lemma u8_small z : 0 <= z < 256 -> u8 z = z.
Proof. intros. unfold u8. apply Z.mod_small. lia. Qed.

Lemma u32_small z : 0 <= z < 2 ^ 32 -> u32 z = z.
Proof. intros. unfold u32. apply Z.mod_small. lia. Qed.

Lemma u64_small z : 0 <= z < 2 ^ 64 -> u64 z = z.
Proof. intros. unfold u64. apply Z.mod_small. lia. Qed.

Lemma u32_u32 z : u32 (u32 z) = u32 z.
Proof. unfold u32. now rewrite Z.mod_mod by lia. Qed.

Lemma s32_range z : - 2 ^ 31 <= s32 z < 2 ^ 31.
Proof.
  unfold s32. pose proof (Z.mod_pos_bound z (2 ^ 32) ltac:(lia)).
  destruct (Z.ltb_spec (z mod 2 ^ 32) (2 ^ 31)); lia.
Qed.

Lemma s32_small z : - 2 ^ 31 <= z < 2 ^ 31 -> s32 z = z.
Proof.
  intros H. unfold s32. destruct (Z_lt_le_dec z 0).
  - replace (z mod 2 ^ 32) with (z + 2 ^ 32)
      by (rewrite <- (Z.mod_small (z + 2 ^ 32) (2 ^ 32)) by lia;
          rewrite <- Z.add_mod_idemp_r by lia; rewrite Z.mod_same, Z.add_0_r by lia;
          reflexivity).
    destruct (Z.ltb_spec (z + 2 ^ 32) (2 ^ 31)); lia.
  - rewrite Z.mod_small by lia. destruct (Z.ltb_spec z (2 ^ 31)); lia.
Qed.

(** Converting to [int] and back to [unsigned int] changes nothing. *)
Lemma u32_s32 z : u32 (s32 z) = u32 z.
Proof.
  unfold u32, s32. destruct (Z.ltb_spec (z mod 2 ^ 32) (2 ^ 31)).
  - now rewrite Z.mod_mod by lia.
  - rewrite <- (Z.mod_mod z) at 2 by lia.
    replace (z mod 2 ^ 32 - 2 ^ 32) with (z mod 2 ^ 32 + (-1) * 2 ^ 32) by lia.
    apply Z.mod_add. lia.
Qed.

Lemma u32_add_l a b : u32 (u32 a + b) = u32 (a + b).
Proof. unfold u32. now rewrite Z.add_mod_idemp_l by lia. Qed.

Lemma u32_add_l2 a b c : u32 (u32 a + b + c) = u32 (a + b + c).
Proof. now rewrite <- Z.add_assoc, u32_add_l, Z.add_assoc. Qed.

#[export] Hint Rewrite u32_u32 u32_s32 u32_add_l u32_add_l2 : wrap.
#[export] Hint Resolve u8_range u32_range s32_range : wrap.

(** ** Flag words *)
Lemma has_flag_spec f b : has_flag f b = true <-> Z.land f b <> 0.
Proof. unfold has_flag. destruct (Z.eqb_spec (Z.land f b) 0); cbn; naive_solver. Qed.

Lemma has_set_flag b f : b <> 0 -> has_flag (set_flag b f) b = true.
Proof.
  intros Hb. apply has_flag_spec. unfold set_flag.
  rewrite Z.land_lor_distr_l, Z.land_diag. intros H.
  now apply Z.lor_eq_0_iff in H as [_ ?].
Qed.

Lemma has_clr_flag b f : has_flag (clr_flag b f) b = false.
Proof.
  unfold has_flag, clr_flag. apply negb_false_iff, Z.eqb_eq.
  apply Z.bits_inj'. intros n Hn. rewrite Z.land_spec, Z.ldiff_spec, Z.bits_0.
  destruct (Z.testbit f n), (Z.testbit b n); reflexivity.
Qed.

Lemma has_set_flag_other b c f : Z.land b c = 0 -> has_flag (set_flag b f) c = has_flag f c.
Proof.
  intros H. unfold has_flag, set_flag. rewrite Z.land_lor_distr_l, H, Z.lor_0_r. reflexivity.
Qed.

Lemma has_clr_flag_other b c f : Z.land b c = 0 -> has_flag (clr_flag b f) c = has_flag f c.
Proof.
  intros H. unfold has_flag, clr_flag. do 2 f_equal.
  apply Z.bits_inj'. intros n Hn. rewrite !Z.land_spec, Z.ldiff_spec.
  assert (Hbc : Z.testbit (Z.land b c) n = false) by (rewrite H; apply Z.bits_0).
  rewrite Z.land_spec in Hbc.
  destruct (Z.testbit f n), (Z.testbit b n), (Z.testbit c n); cbn in *; congruence.
Qed.

(** ** Buffers: [memcpy (dst, src, n)] into a fixed buffer. *)
Definition memcpy {A} (dst src : list A) (n : nat) : list A :=
  take n src ++ drop n dst.

Lemma memcpy_length {A} (dst src : list A) n :
  (n <= length src)%nat -> (n <= length dst)%nat ->
  length (memcpy dst src n) = length dst.
Proof.
  intros. unfold memcpy. rewrite length_app, length_take, length_drop. lia.
Qed.

Lemma memcpy_take {A} (dst src : list A) n :
  (n <= length src)%nat -> take n (memcpy dst src n) = take n src.
Proof.
  intros. unfold memcpy. rewrite take_app_le by (rewrite length_take; lia).
  now rewrite take_take, Nat.min_id.
Qed.

(** ** Sums of a [Z]-valued measure over a list *)
Definition sumZ {A} (f : A -> Z) (l : list A) : Z := foldr (fun x acc => f x + acc) 0 l.

Lemma filter_nodup {A} (p : A -> bool) l : NoDup l -> NoDup (List.filter p l).
Proof.
  induction 1 as [|x l Hx _ IH]; cbn; [constructor|]. destruct (p x); [|exact IH]. constructor; [|exact IH].
  rewrite list_elem_of_In, filter_In, <- list_elem_of_In. tauto.
Qed.

Lemma sumZ_app {A} (f : A -> Z) l k : sumZ f (l ++ k) = sumZ f l + sumZ f k.
Proof. induction l; cbn; unfold sumZ in *; cbn; lia. Qed.

Lemma sumZ_nonneg {A} (f : A -> Z) l : (forall x, x ∈ l -> 0 <= f x) -> 0 <= sumZ f l.
Proof.
  induction l as [|a l IH]; cbn; intros H; [lia|].
  pose proof (H a ltac:(left)). assert (0 <= sumZ f l) by (apply IH; intros; apply H; now right).
  unfold sumZ in *. lia.
Qed.

Lemma sumZ_permutation {A} (f : A -> Z) l k : l ≡ₚ k -> sumZ f l = sumZ f k.
Proof. induction 1; unfold sumZ in *; cbn; lia. Qed.

Lemma sumZ_submseteq {A} (f : A -> Z) l k :
  (forall x, x ∈ k -> 0 <= f x) -> l ⊆+ k -> sumZ f l <= sumZ f k.
Proof.
  intros Hk [m Hm]%submseteq_Permutation. rewrite (sumZ_permutation _ _ _ Hm), sumZ_app.
  assert (0 <= sumZ f m); [|lia].
  apply sumZ_nonneg. intros x Hx. apply Hk. rewrite Hm. set_solver.
Qed.

(** ** Reflexive-transitive closure of a step relation *)
Inductive star {S L : Type} (step : S -> L -> S -> Prop) : S -> list L -> S -> Prop :=
| star_nil s : star step s [] s
| star_cons s l s' ls s'' : step s l s' -> star step s' ls s'' -> star step s (l :: ls) s''.

(** An invariant of every step is an invariant of every run. *)
Lemma star_invariant {S L} (step : S -> L -> S -> Prop) (P : S -> Prop) :
  (forall s l s', P s -> step s l s' -> P s') ->
  forall s ls s', P s -> star step s ls s' -> P s'.
Proof. intros Hstep s ls s' HP Hr. induction Hr; eauto. Qed.

(** ** Proof automation *)
Ltac destruct_matches :=
  repeat match goal with
  | |- context [match ?x with _ => _ end] => let E := fresh "E" in destruct x eqn:E
  end.

(** Turn boolean tests on integers in the context into propositions. *)
Ltac zbool :=
  repeat match goal with
  | H : _ && _ = true |- _ => apply andb_true_iff in H as [? ?]
  | H : _ || _ = false |- _ => apply orb_false_iff in H as [? ?]
  | H : negb _ = true |- _ => apply negb_true_iff in H
  | H : negb _ = false |- _ => apply negb_false_iff in H
  | H : (_ =? _) = true |- _ => apply Z.eqb_eq in H
  | H : (_ =? _) = false |- _ => apply Z.eqb_neq in H
  | H : (_ <? _) = true |- _ => apply Z.ltb_lt in H
  | H : (_ <? _) = false |- _ => apply Z.ltb_ge in H
  | H : (_ <=? _) = true |- _ => apply Z.leb_le in H
  | H : (_ <=? _) = false |- _ => apply Z.leb_gt in H
  end.

(** Naming the result of a computation that succeeds. *)
Lemma some_default {A} (d : A) (o : option A) : match o with Some _ => true | None => false end = true -> o = Some (default d o).
Proof. now destruct o. Qed.
Lemma some_pair {A B} (d : A * B) (o : option (A * B)) a : fst <$> o = Some a -> o = Some (a, snd (default d o)).
Proof. destruct o as [[x y]|]; [now intros [= ->] | discriminate]. Qed.
Lemma some_is {A} (o : option A) : match o with Some _ => true | None => false end = true -> is_Some o.
Proof. destruct o; [now eexists | discriminate]. Qed.

(** A decidable proposition about closed terms, by evaluation. *)
Ltac by_compute := apply (bool_decide_unpack _); vm_compute; exact I.

(** The same under a bounded quantifier [forall x, x ∈ l -> P x]. *)
Ltac by_compute_forall := apply Forall_forall; by_compute.
