(* ===== verification/ErrMonad.v ===== *)
(** * Programs that can fail with an error string

    A program over a state runs to a result or to an error string, and keeps the
    changes made before the error; [None] stands for undefined behaviour or a failed
    assertion. *)
From S2P Require Import Prelude.

Definition prog (S A : Type) : Type := S -> option ((string + A) * S).
Definition ret {S A} (a : A) : prog S A := fun e => Some (inr a, e).
Definition fail {S A} (msg : string) : prog S A := fun e => Some (inl msg, e).
Definition act_bind {S A B} (m : prog S A) (f : A -> prog S B) : prog S B := fun e =>
  '(r, e) ← m e; match r with inl msg => Some (inl msg, e) | inr a => f a e end.

Declare Scope act_scope.
Delimit Scope act_scope with act.
Notation "x <-! m ;! f" := (act_bind m (fun x => f)) (at level 100, m at next level, f at level 200, right associativity) : act_scope.
Notation "m ;! f" := (act_bind m (fun _ => f)) (at level 100, f at level 200, right associativity) : act_scope.
Open Scope act_scope.

Definition when {S} (b : bool) (m : prog S unit) : prog S unit := if b then m else ret tt.
Definition get_state {S} : prog S S := fun e => Some (inr e, e).
Definition upd_state {S} (f : S -> S) : prog S unit := fun e => Some (inr tt, f e).
(** The value of an expression that may be undefined. *)
Definition lift {S A} (o : option A) : prog S A := fun e => a ← o; Some (inr a, e).
(** [assert] *)
Definition assert_that {S} (b : bool) : prog S unit := if b then ret tt else fun _ => None.

(** The body is run for each element of a list. *)
Fixpoint for_each {S A} (l : list A) (body : A -> prog S unit) : prog S unit :=
  match l with [] => ret tt | a :: l => body a;! for_each l body end.

(** ... with a value that the loop carries along. *)
Fixpoint for_fold {S A B} (l : list A) (b : B) (body : A -> B -> prog S B) : prog S B :=
  match l with [] => ret b | a :: l => b <-! body a b;! for_fold l b body end.

(** The outcome of a program as a value: the error is not passed on. *)
Definition catch {S A} (m : prog S A) : prog S (string + A) := fun e => '(r, e) ← m e; Some (inr r, e).

Section Rules.
Context {S : Type}.

Lemma bind_inv {A B} (m : prog S A) (f : A -> prog S B) s r s' :
  act_bind m f s = Some (r, s') ->
  (exists msg, m s = Some (inl msg, s') /\ r = inl msg) \/ (exists a s1, m s = Some (inr a, s1) /\ f a s1 = Some (r, s')).
Proof.
  unfold act_bind. intros H. apply bind_Some in H as ([[msg|a] s1] & E & H); [left | right; eauto].
  injection H as <- <-. eauto.
Qed.

Lemma bind_ok {A B} (m : prog S A) (f : A -> prog S B) s b s' :
  act_bind m f s = Some (inr b, s') -> exists a s1, m s = Some (inr a, s1) /\ f a s1 = Some (inr b, s').
Proof. intros [(msg & _ & [=])|H]%bind_inv. exact H. Qed.

Lemma bind_run {A B} (m : prog S A) (f : A -> prog S B) s a s1 : m s = Some (inr a, s1) -> act_bind m f s = f a s1.
Proof. intros E. unfold act_bind. now rewrite E. Qed.

(** What every program run in a loop keeps, the loop keeps. *)
Lemma for_each_inv {A} (P : S -> Prop) (l : list A) body s r s' :
  (forall a s r s', a ∈ l -> P s -> body a s = Some (r, s') -> P s') -> P s -> for_each l body s = Some (r, s') -> P s'.
Proof.
  revert s. induction l as [|a l IH]; intros s Hb Hs; cbn; [now intros [= <- <-]|].
  intros [(msg & E & _)|(u & s1 & E & H)]%bind_inv; [exact (Hb a s _ s' ltac:(left) Hs E)|].
  refine (IH s1 _ (Hb a s _ s1 ltac:(left) Hs E) H). intros b t q t' Hi. apply Hb. now right.
Qed.

Lemma for_fold_inv {A B} (P : S -> Prop) (l : list A) (b : B) body s r s' :
  (forall a b s r s', a ∈ l -> P s -> body a b s = Some (r, s') -> P s') -> P s -> for_fold l b body s = Some (r, s') -> P s'.
Proof.
  revert s b. induction l as [|a l IH]; intros s b Hb Hs; cbn; [now intros [= <- <-]|].
  intros [(msg & E & _)|(u & s1 & E & H)]%bind_inv; [exact (Hb a b s _ s' ltac:(left) Hs E)|].
  refine (IH s1 _ _ (Hb a b s _ s1 ltac:(left) Hs E) H). intros b' c t q t' Hi. apply Hb. now right.
Qed.

End Rules.

(** ** Programs that only look at the state *)

Definition silent {S A} (m : prog S A) : Prop := forall s r s', m s = Some (r, s') -> s' = s.

Create HintDb silent discriminated.
#[export] Hint Constants Opaque : silent.

Section Silent.
Context {S : Type}.

Lemma silent_ret {A} (a : A) : silent (S:=S) (ret a).
Proof. intros s r s' [= _ <-]. reflexivity. Qed.
Lemma silent_fail {A} msg : silent (S:=S) (A:=A) (fail msg).
Proof. intros s r s' [= _ <-]. reflexivity. Qed.
Lemma silent_get_state : silent (S:=S) get_state.
Proof. intros s r s' [= _ <-]. reflexivity. Qed.
Lemma silent_lift {A} (o : option A) : silent (S:=S) (lift o).
Proof. intros s r s' H. unfold lift in H. apply bind_Some in H as (a & _ & [= _ <-]). reflexivity. Qed.
Lemma silent_assert b : silent (S:=S) (assert_that b).
Proof. intros s r s'. unfold assert_that. destruct b; [intros [= _ <-]; reflexivity | discriminate]. Qed.
Lemma silent_bind {A B} (m : prog S A) (f : A -> prog S B) : silent m -> (forall a, silent (f a)) -> silent (act_bind m f).
Proof.
  intros Hm Hf s r s' [(msg & E & _)|(a & s1 & E & H)]%bind_inv; [exact (Hm _ _ _ E)|].
  rewrite (Hf _ _ _ _ H). exact (Hm _ _ _ E).
Qed.
Lemma silent_when b (m : prog S unit) : silent m -> silent (when b m).
Proof. intros Hm. unfold when. destruct b; [exact Hm | apply silent_ret]. Qed.
Lemma silent_for_each {A} (l : list A) (body : A -> prog S unit) : (forall a, silent (body a)) -> silent (for_each l body).
Proof. intros Hb. induction l as [|a l IH]; cbn; [apply silent_ret | apply silent_bind; auto]. Qed.

(** A loop that succeeds ran every body with success. *)
Lemma silent_for_each_ok {A} (l : list A) (body : A -> prog S unit) s u s' :
  (forall a, silent (body a)) -> for_each l body s = Some (inr u, s') -> forall a, a ∈ l -> exists v, body a s = Some (inr v, s).
Proof.
  intros Hb. induction l as [|a l IH]; cbn; [intros _ a Ha; now apply elem_of_nil in Ha|].
  intros (v & s1 & E & H)%bind_ok b Hi. pose proof (Hb _ _ _ _ E) as ->.
  apply elem_of_cons in Hi as [->|Hi]; [eauto | exact (IH H b Hi)].
Qed.

(** A test that fails the program did not. *)
Lemma when_fail_ok b (m : prog S unit) s u s' :
  (forall s v s', m s <> Some (inr v, s')) -> when b m s = Some (inr u, s') -> b = false.
Proof. intros Hm. unfold when. destruct b; [intros H; destruct (Hm _ _ _ H) | reflexivity]. Qed.

End Silent.
#[export] Hint Resolve silent_ret silent_fail silent_get_state silent_lift silent_assert silent_bind silent_when silent_for_each : silent.

(** ** Programs that keep to a relation between the states before and after *)

Definition stays {S A} (R : S -> S -> Prop) (m : prog S A) : Prop := forall s r s', m s = Some (r, s') -> R s s'.

Create HintDb stays discriminated.
#[export] Hint Constants Opaque : stays.

Section Stays.
Context {S : Type} (R : S -> S -> Prop) `{!PreOrder R}.

Lemma stays_silent {A} (m : prog S A) : silent m -> stays R m.
Proof. intros H s r s' E. rewrite (H _ _ _ E). reflexivity. Qed.
Lemma stays_undefined {A} : stays (A:=A) R (fun _ => None).
Proof. intros s r s' [=]. Qed.
Lemma stays_upd f : (forall s, R s (f s)) -> stays R (upd_state f).
Proof. intros H s r s' [= _ <-]. apply H. Qed.
Lemma stays_bind {A B} (m : prog S A) (f : A -> prog S B) : stays R m -> (forall a, stays R (f a)) -> stays R (act_bind m f).
Proof.
  intros Hm Hf s r s' [(msg & E & _)|(a & s1 & E & H)]%bind_inv; [exact (Hm _ _ _ E)|].
  transitivity s1; [exact (Hm _ _ _ E) | exact (Hf _ _ _ _ H)].
Qed.
Lemma stays_when b (m : prog S unit) : stays R m -> stays R (when b m).
Proof. intros Hm. unfold when. destruct b; [exact Hm | apply stays_silent, silent_ret]. Qed.
Lemma stays_for_each {A} (l : list A) (body : A -> prog S unit) : (forall a, stays R (body a)) -> stays R (for_each l body).
Proof. intros Hb. induction l as [|a l IH]; cbn; [apply stays_silent, silent_ret | apply stays_bind; auto]. Qed.
Lemma stays_for_fold {A B} (l : list A) (b : B) (body : A -> B -> prog S B) : (forall a b, stays R (body a b)) -> stays R (for_fold l b body).
Proof. intros Hb. revert b. induction l as [|a l IH]; intros b; cbn; [apply stays_silent, silent_ret | apply stays_bind; auto]. Qed.
Lemma stays_catch {A} (m : prog S A) : stays R m -> stays R (catch m).
Proof. intros Hm s r s' H. unfold catch in H. apply bind_Some in H as ([r1 s1] & E & [= _ <-]). exact (Hm _ _ _ E). Qed.

End Stays.
#[export] Hint Resolve stays_bind stays_when stays_for_each stays_for_fold stays_catch : stays.

(** Bodies are looked at piece by piece; what only looks at the state is silent. *)
Ltac stays_step :=
  intros;
  lazymatch goal with
  | |- stays _ (match ?x with _ => _ end) => destruct x
  | |- stays _ (fun _ => None) => apply stays_undefined
  | |- _ =>
      first [ apply stays_silent; [typeclasses eauto | solve [typeclasses eauto 10 with silent nocore]]
            | solve [typeclasses eauto 1 with stays nocore]
            | apply stays_bind; [typeclasses eauto| |]
            | apply stays_when; [typeclasses eauto|]
            | apply stays_for_each; [typeclasses eauto|]
            | apply stays_for_fold; [typeclasses eauto|]
            | apply stays_catch ]
  end.
Ltac stays_solve := repeat stays_step.

(** The first program of a sequence that succeeded; a silent one leaves the state alone. *)
Ltac run_step H x E :=
  let s1 := fresh "s1" in
  let Q := fresh "Q" in
  apply bind_ok in H as (x & s1 & E & H);
  try match type of E with
      | ?m ?s = Some (_, s1) =>
          assert (Q : silent m) by (typeclasses eauto 50 with silent nocore);
          pose proof (Q _ _ _ E); subst s1; clear Q
      end.
