(* ===== verification/CString.v ===== *)
(** * The C string functions the modelled sources use

    Strings are [string]s without NUL.  [strtol] in base 10 with its saturation
    at the bounds of a 64-bit [long], [atoi], and the [%u] conversion of [sscanf]. *)
From Stdlib Require Export Ascii.
From S2P Require Import Prelude.

Definition code (a : ascii) : Z := Z.of_N (N_of_ascii a).
Definition isspace (a : ascii) : bool := (code a =? 32) || ((9 <=? code a) && (code a <=? 13)).
Definition isdigit (a : ascii) : bool := (48 <=? code a) && (code a <=? 57).

Fixpoint chars (s : string) : list ascii :=
  match s with EmptyString => [] | String a s' => a :: chars s' end.

Fixpoint str (l : list ascii) : string :=
  match l with [] => EmptyString | a :: l => String a (str l) end.

Fixpoint skip_space (l : list ascii) : list ascii :=
  match l with a :: l' => if isspace a then skip_space l' else l | [] => [] end.

Fixpoint read_digits (acc : Z) (l : list ascii) : Z * list ascii :=
  match l with
  | a :: l' => if isdigit a then read_digits (10 * acc + (code a - 48)) l' else (acc, l)
  | [] => (acc, [])
  end.

(** Sign, digits: the value read and the rest; [None] when there is no digit. *)
Definition read_number (l : list ascii) : option (Z * list ascii) :=
  let l := skip_space l in
  let '(neg, l) :=
    match l with
    | a :: l' => if code a =? 45 then (true, l') else if code a =? 43 then (false, l') else (false, l)
    | [] => (false, [])
    end in
  match l with
  | a :: _ => if isdigit a then let '(v, rest) := read_digits 0 l in
                                Some (if neg : bool then - v else v, rest)
              else None
  | [] => None
  end.

Definition LONG_MAX : Z := 2 ^ 63 - 1.
Definition LONG_MIN : Z := - 2 ^ 63.

(** [strtol (p, &p, 10)]: the value and the new [p]. *)
Definition strtol (l : list ascii) : Z * list ascii :=
  match read_number l with
  | Some (v, rest) => (Z.max LONG_MIN (Z.min LONG_MAX v), rest)
  | None => (0, l)
  end.

Definition atoi (s : string) : Z := s32 (fst (strtol (chars s))).

(** The [%u] conversion: [strtoul] to a 64-bit value, stored in an [unsigned int]. *)
Definition scan_u (l : list ascii) : option (Z * list ascii) :=
  match read_number l with
  | Some (v, rest) =>
      Some (u32 (if Z.abs v <=? 2 ^ 64 - 1 then v else 2 ^ 64 - 1), rest)
  | None => None
  end.

Fixpoint strip_prefix (p l : list ascii) : option (list ascii) :=
  match p, l with
  | [], _ => Some l
  | a :: p', b :: l' => if Ascii.eqb a b then strip_prefix p' l' else None
  | _ :: _, [] => None
  end.

(** [strncmp (a, b, n) == 0] *)
Definition strncmp_eq (n : nat) (a b : string) : bool :=
  bool_decide (take n (chars a) = take n (chars b)).

(** [strcmp (a, b) == 0] *)
Definition strcmp_eq (a b : string) : bool := String.eqb a b.

Definition strlen (s : string) : Z := Z.of_nat (length (chars s)).

Lemma str_chars s : str (chars s) = s.
Proof. induction s as [|a s IH]; cbn; [reflexivity | now rewrite IH]. Qed.

Lemma chars_str l : chars (str l) = l.
Proof. induction l as [|a l IH]; cbn; [reflexivity | now rewrite IH]. Qed.

Lemma chars_app a b : chars (a +:+ b) = chars a ++ chars b.
Proof. induction a as [|c a IH]; [reflexivity|]. change (c :: chars (a +:+ b) = c :: chars a ++ chars b). now rewrite IH. Qed.

Lemma skip_space_length l : (length (skip_space l) <= length l)%nat.
Proof. induction l as [|a l IH]; cbn; [lia|]. destruct (isspace a); cbn; lia. Qed.

Lemma read_digits_length l acc : (length (snd (read_digits acc l)) <= length l)%nat.
Proof.
  revert acc. induction l as [|a l IH]; intros acc; cbn; [lia|].
  destruct (isdigit a); cbn; [|lia]. specialize (IH (10 * acc + (code a - 48))). lia.
Qed.

Lemma read_digits_shorter a l acc :
  isdigit a = true -> (length (snd (read_digits acc (a :: l))) <= length l)%nat.
Proof. intros Ha. cbn. rewrite Ha. apply read_digits_length. Qed.

(** A number that was read consumed at least one character. *)
Lemma read_number_shorter l v rest :
  read_number l = Some (v, rest) -> (length rest < length l)%nat.
Proof.
  unfold read_number. intros H. pose proof (skip_space_length l) as Hs.
  destruct (skip_space l) as [|a l1] eqn:E; [done|]. cbn in Hs.
  destruct (code a =? 45); [|destruct (code a =? 43)];
    (destruct l1 as [|b l2] || idtac); try done;
    match type of H with context [isdigit ?c] => destruct (isdigit c) eqn:Ec; [|done] end;
    match type of H with context [read_digits 0 (?c :: ?k)] =>
      pose proof (read_digits_shorter c k 0 Ec); destruct (read_digits 0 (c :: k)) eqn:Er
    end; simplify_eq; cbn [length snd] in *; lia.
Qed.

Lemma strtol_nonzero_shorter l :
  fst (strtol l) <> 0 -> (length (snd (strtol l)) < length l)%nat.
Proof.
  unfold strtol. destruct (read_number l) as [[v rest]|] eqn:E; cbn; [|done].
  intros _. now apply read_number_shorter in E.
Qed.

Example strtol_ex : strtol (chars " 12 7") = (12, chars " 7").
Proof. reflexivity. Qed.
