(* ===== verification/VoteQuorum.v ===== *)
(** * Votequorum: state and quorum calculation (exec/votequorum.c)

    The service keeps a table of [cluster_node] records, the list of known
    members, a pointer [us] to its own record and one [qdevice] to the record of
    the quorum device.  The C pointers are indices of slots of the static
    array [cluster_nodes], so that the aliasing between [us], [qdevice] and the
    member list is the one of the code.  Everything the service sends or sets
    outside itself is appended to the log [out]; [log_printf] is left out.  A
    failed [assert] or a corrupted list is [None]. *)
From S2P Require Import Prelude.

Definition PROCESSOR_COUNT_MAX : nat := 384.
Definition VOTEQUORUM_QDEVICE_NODEID : Z := 0.
Definition VOTEQUORUM_QDEVICE_MAX_NAME_LEN : nat := 255.
Definition VOTEQUORUM_QDEVICE_DEFAULT_TIMEOUT : Z := 10000.
Definition VOTEQUORUM_QDEVICE_DEFAULT_SYNC_TIMEOUT : Z := 30000.
Definition VOTEQUORUM_QDEVICE_EXTRA_NODEINFO_MAXSIZE : Z := 4096.
Definition DEFAULT_LMS_WIN : Z := 10000.

Definition NODE_FLAGS_QUORATE : Z := 1.
Definition NODE_FLAGS_LEAVING : Z := 2.
Definition NODE_FLAGS_WFASTATUS : Z := 4.
Definition NODE_FLAGS_FIRST : Z := 8.
Definition NODE_FLAGS_QDEVICE_REGISTERED : Z := 16.
Definition NODE_FLAGS_QDEVICE_ALIVE : Z := 32.
Definition NODE_FLAGS_QDEVICE_CAST_VOTE : Z := 64.
Definition NODE_FLAGS_QDEVICE_MASTER_WINS : Z := 128.
Definition NODE_FLAGS_QDEVICE_EXTRA_INFO_SET : Z := 256.

(** [nodestate_t]; [NODESTATE_UNSET] is the value 0 a record has after [memset]. *)
Inductive nodestate := NODESTATE_UNSET | NODESTATE_MEMBER | NODESTATE_DEAD | NODESTATE_LEAVING.

#[export] Instance nodestate_eq_dec : EqDecision nodestate.
Proof. solve_decision. Defined.

Definition nodestate_val (st : nodestate) : Z :=
  match st with
  | NODESTATE_UNSET => 0 | NODESTATE_MEMBER => 1 | NODESTATE_DEAD => 2 | NODESTATE_LEAVING => 3
  end.

Definition is_member (st : nodestate) : bool := bool_decide (st = NODESTATE_MEMBER).

(** [struct cluster_node]; [node_id] is a signed [int]. *)
Record cluster_node := mk_node {
  node_id : Z;
  node_state : nodestate;
  votes : Z;
  expected_votes : Z;
  flags : Z;
  ei_size : Z;
  extra_nodeinfo : list Z
}.
#[export] Instance cluster_node_eta : Etable cluster_node := fun n =>
  mk_node (node_id n) (node_state n) (votes n) (expected_votes n) (flags n) (ei_size n)
    (extra_nodeinfo n).

(** The record after [memset (cl, 0, sizeof (struct cluster_node))]. *)
Definition zero_node : cluster_node :=
  mk_node 0 NODESTATE_UNSET 0 0 0 0
    (replicate (Z.to_nat VOTEQUORUM_QDEVICE_EXTRA_NODEINFO_MAXSIZE) 0).

Inductive atb_type := ATB_NONE | ATB_LOWEST | ATB_HIGHEST | ATB_LIST.

#[export] Instance atb_type_eq_dec : EqDecision atb_type.
Proof. solve_decision. Defined.

Definition atb_val (a : atb_type) : Z :=
  match a with ATB_NONE => 0 | ATB_LOWEST => 1 | ATB_HIGHEST => 2 | ATB_LIST => 3 end.

Definition atb_on (a : atb_type) : bool := bool_decide (a <> ATB_NONE).

(** [struct memb_ring_id] *)
Record ring_id := mk_ring { ring_nodeid : Z; ring_seq : Z }.

#[export] Instance ring_id_eq_dec : EqDecision ring_id.
Proof. solve_decision. Defined.

(** [struct quorum_pd], the private data of a library connection. *)
Record quorum_pd := mk_pd { track_flags : Z; tracking_enabled : bool; tracking_context : Z }.

(** The messages the service multicasts through [corosync_api->totem_mcast]. *)
Inductive exec_msg :=
| NODEINFO (nodeid votes expected_votes flags : Z)
| RECONFIGURE (param nodeid value : Z)
| QDEVICE_REG (operation : Z) (name : string)
| QDEVICE_RECONFIGURE (oldname newname : string)
| QDEVICE_EXTRA_NODEINFO (nodeid ei_size : Z) (extra_info : list Z).

(** The reply of [message_handler_req_lib_votequorum_getinfo] on success. *)
Record getinfo := mk_getinfo {
  gi_state : Z; gi_votes : Z; gi_expected_votes : Z; gi_highest_expected : Z;
  gi_quorum : Z; gi_total_votes : Z; gi_flags : Z; gi_nodeid : Z;
  gi_qdevice_name : string; gi_qdevice_votes : Z
}.

Inductive timer := TIMER_QDEVICE | TIMER_LMS.

(** What the service does outside its own variables. *)
Inductive effect :=
| Mcast (m : exec_msg)
| QuorumCallback (members : list Z) (quorate : Z) (rid : ring_id)
| DispatchQuorum (conn context quorate : Z) (nodes : list (Z * Z))
| DispatchNodelist (conn context : Z) (rid : ring_id) (nodes : list Z)
| DispatchExpectedVotes (conn context expected : Z)
| DispatchExtraInfo (conn context nodeid ei_size : Z) (extra_info : list Z)
| ResponseStatus (conn error : Z)
| ResponseGetinfo (conn error : Z) (info : option getinfo)
| ResponseExtraInfo (conn error : Z) (info : option (Z * list Z))
| TimerAdd (t : timer) (ns : Z)
| TimerDelete (t : timer)
| IcmapSet (key : string) (value : Z)
| IcmapSetRo (key : string)
| IcmapTrack (key : string) (prefix : bool)
| EvTrackingWrite (value : Z)
| MemoryFailure.

(** The file descriptor [ev_tracking_fd]: [-1], a descriptor that was closed
    again, or an open one. *)
Inductive fd_state := FD_NONE | FD_CLOSED | FD_OPEN.

(** The static variables of exec/votequorum.c. *)
Record vq := mk_vq {
  qdevice_name : string;
  qdevice : nat;
  qdevice_timeout : Z;
  qdevice_sync_timeout : Z;
  qdevice_can_operate : Z;
  qdevice_reg_conn : option Z;
  qdevice_master_wins : Z;
  two_node : Z;
  wait_for_all : Z;
  wait_for_all_status : Z;
  wait_for_all_autoset : bool;
  auto_tie_breaker : atb_type;
  initial_auto_tie_breaker : atb_type;
  lowest_node_id : Z;
  highest_node_id : Z;
  last_man_standing : Z;
  last_man_standing_window : Z;
  allow_downscale : Z;
  ev_barrier : Z;
  ev_tracking : Z;
  ev_tracking_barrier : Z;
  ev_tracking_fd : fd_state;
  quorum : Z;
  cluster_is_quorate : bool;
  us : nat;
  cluster_members_list : list nat;
  quorum_members : list Z;
  previous_quorum_members : list Z;
  atb_nodelist : list Z;
  quorum_ringid : ring_id;
  cluster_nodes : list cluster_node;
  pds : gmap Z quorum_pd;
  trackers_list : list Z;
  qdevice_timer_set : bool;
  last_man_standing_timer_set : bool;
  sync_nodeinfo_sent : bool;
  sync_wait_for_poll_or_timeout : bool;
  sync_in_progress : bool;
  out : list effect
}.
#[export] Instance vq_eta : Etable vq := fun s =>
  mk_vq (qdevice_name s) (qdevice s) (qdevice_timeout s) (qdevice_sync_timeout s)
    (qdevice_can_operate s) (qdevice_reg_conn s) (qdevice_master_wins s) (two_node s)
    (wait_for_all s) (wait_for_all_status s) (wait_for_all_autoset s) (auto_tie_breaker s)
    (initial_auto_tie_breaker s) (lowest_node_id s) (highest_node_id s) (last_man_standing s)
    (last_man_standing_window s) (allow_downscale s) (ev_barrier s) (ev_tracking s)
    (ev_tracking_barrier s) (ev_tracking_fd s) (quorum s) (cluster_is_quorate s) (us s)
    (cluster_members_list s) (quorum_members s) (previous_quorum_members s) (atb_nodelist s)
    (quorum_ringid s) (cluster_nodes s) (pds s) (trackers_list s) (qdevice_timer_set s)
    (last_man_standing_timer_set s) (sync_nodeinfo_sent s) (sync_wait_for_poll_or_timeout s)
    (sync_in_progress s) (out s).

(** The values the static initialisers give; [us] and [qdevice] are set by
    [votequorum_exec_init_fn] before anything reads them. *)
Definition vq_static : vq :=
  mk_vq "" 0 VOTEQUORUM_QDEVICE_DEFAULT_TIMEOUT VOTEQUORUM_QDEVICE_DEFAULT_SYNC_TIMEOUT
    1 None 0 0 0 0 false ATB_NONE ATB_NONE (-1) (-1) 0 DEFAULT_LMS_WIN 0 0 0 0 FD_NONE
    0 false 0 [] [] [] [] (mk_ring 0 0) [] ∅ [] false false false false false [].

Definition emit (e : effect) (s : vq) : vq := s <| out ::= fun o => o ++ [e] |>.

(** Dereferencing a [struct cluster_node *]. *)
Definition node_at (s : vq) (i : nat) : cluster_node := default zero_node (cluster_nodes s !! i).
Definition upd_node (i : nat) (f : cluster_node -> cluster_node) (s : vq) : vq :=
  s <| cluster_nodes ::= alter f i |>.
Definition us_node (s : vq) : cluster_node := node_at s (us s).
Definition upd_us (f : cluster_node -> cluster_node) (s : vq) : vq := upd_node (us s) f s.
Definition qdevice_node (s : vq) : cluster_node := node_at s (qdevice s).

Strategy 900 [emit upd_node upd_us].

(** The member records in list order: what [qb_list_for_each] visits. *)
Definition member_nodes (s : vq) : list cluster_node := map (node_at s) (cluster_members_list s).

(** ** The node table *)

(** The loop of [node_add_ordered]: the record it leaves in [node]. *)
Fixpoint add_ordered_target (s : vq) (newid : Z) (l : list nat) (node : option nat) : option nat :=
  match l with
  | [] => node
  | i :: l' =>
      if newid <? node_id (node_at s i) then Some i else add_ordered_target s newid l' (Some i)
  end.

(** [qb_list_add_tail (new, &pos->list)]: insert in front of [pos]. *)
Fixpoint list_insert_before (new pos : nat) (l : list nat) : list nat :=
  match l with
  | [] => []
  | i :: l' => if Nat.eqb i pos then new :: i :: l' else i :: list_insert_before new pos l'
  end.

Definition node_add_ordered (new : nat) (s : vq) : vq :=
  match add_ordered_target s (node_id (node_at s new)) (cluster_members_list s) None with
  | None => s <| cluster_members_list ::= cons new |>
  | Some pos => s <| cluster_members_list ::= list_insert_before new pos |>
  end.

(** The loop of [allocate_node] over a full table: the record left in [cl] and
    whether the loop was left by [break] (otherwise [tmp] is the list head). *)
Fixpoint find_dead (s : vq) (l : list nat) (cl : option nat) : option nat * bool :=
  match l with
  | [] => (cl, false)
  | i :: l' =>
      if bool_decide (node_state (node_at s i) = NODESTATE_DEAD) then (Some i, true)
      else find_dead s l' (Some i)
  end.

(** [None]: [qb_list_del] was applied to the head of the member list. *)
Definition allocate_node (nodeid : Z) (s : vq) : option (option nat * vq) :=
  let init (cl : nat) (s : vq) : vq :=
    let s := upd_node cl (fun _ => zero_node <| node_id := s32 nodeid |>) s in
    if nodeid =? VOTEQUORUM_QDEVICE_NODEID then s else node_add_ordered cl s in
  if Nat.leb (length (cluster_nodes s)) (PROCESSOR_COUNT_MAX + 1) then
    let cl := length (cluster_nodes s) in
    Some (Some cl, init cl (s <| cluster_nodes ::= fun l => l ++ [zero_node] |>))
  else
    match find_dead s (cluster_members_list s) None with
    | (None, _) => Some (None, s)
    | (Some cl, true) =>
        Some (Some cl, init cl (s <| cluster_members_list ::= filter (fun i => i <> cl) |>))
    | (Some _, false) => None
    end.

Fixpoint find_in_list (s : vq) (nodeid : Z) (l : list nat) : option nat :=
  match l with
  | [] => None
  | i :: l' => if u32 (node_id (node_at s i)) =? nodeid then Some i else find_in_list s nodeid l'
  end.

Definition find_node_by_nodeid (s : vq) (nodeid : Z) : option nat :=
  if nodeid =? u32 (node_id (us_node s)) then Some (us s)
  else if nodeid =? VOTEQUORUM_QDEVICE_NODEID then Some (qdevice s)
  else find_in_list s nodeid (cluster_members_list s).

(** ** Tie breaking *)

Definition get_lowest_node_id (s : vq) : vq :=
  let low := foldl (fun low n =>
               if is_member (node_state n) && (node_id n <? low) then node_id n else low)
               (node_id (us_node s)) (member_nodes s) in
  emit (IcmapSet "runtime.votequorum.lowest_node_id" (u32 low)) (s <| lowest_node_id := low |>).

Definition get_highest_node_id (s : vq) : vq :=
  let high := foldl (fun high n =>
                if is_member (node_state n) && (high <? node_id n) then node_id n else high)
                (node_id (us_node s)) (member_nodes s) in
  emit (IcmapSet "runtime.votequorum.highest_node_id" (u32 high))
    (s <| highest_node_id := high |>).

Definition check_low_node_id_partition (s : vq) : bool :=
  existsb (fun n => is_member (node_state n) && (node_id n =? lowest_node_id s)) (member_nodes s).

Definition check_high_node_id_partition (s : vq) : bool :=
  existsb (fun n => is_member (node_state n) && (node_id n =? highest_node_id s)) (member_nodes s).

Definition is_in_nodelist (nodeid : Z) (members : list Z) : bool :=
  existsb (fun m => u32 nodeid =? m) members.

(** The loop over the tie-breaker list; [before] are the entries already passed. *)
Fixpoint check_atb_list (s : vq) (before atb : list Z) : bool :=
  match atb with
  | [] => false
  | a :: atb' =>
      if is_in_nodelist a (quorum_members s) then
        negb (existsb (fun b => is_in_nodelist b (previous_quorum_members s)) before)
      else check_atb_list s (before ++ [a]) atb'
  end.

Definition check_auto_tie_breaker (s : vq) : bool :=
  match auto_tie_breaker s with
  | ATB_LOWEST => check_low_node_id_partition s
  | ATB_HIGHEST => check_high_node_id_partition s
  | _ => check_atb_list s [] (atb_nodelist s)
  end.

Definition check_qdevice_master (s : vq) : bool :=
  existsb (fun n => is_member (node_state n)
                    && has_flag (flags n) NODE_FLAGS_QDEVICE_MASTER_WINS
                    && has_flag (flags n) NODE_FLAGS_QDEVICE_CAST_VOTE) (member_nodes s).

(** ** Small updates *)

Definition update_wait_for_all_status (wfa_status : Z) (s : vq) : vq :=
  let s := s <| wait_for_all_status := wfa_status |> in
  let s := if c_true wfa_status
           then upd_us (fun n => n <| flags ::= set_flag NODE_FLAGS_WFASTATUS |>) s
           else upd_us (fun n => n <| flags ::= clr_flag NODE_FLAGS_WFASTATUS |>) s in
  emit (IcmapSet "runtime.votequorum.wait_for_all_status" wfa_status) s.

Definition update_two_node (s : vq) : vq :=
  emit (IcmapSet "runtime.votequorum.two_node" (two_node s)) s.

Definition update_ev_barrier (v : Z) (s : vq) : vq :=
  emit (IcmapSet "runtime.votequorum.ev_barrier" v) (s <| ev_barrier := v |>).

Definition update_qdevice_can_operate (status : Z) (s : vq) : vq :=
  emit (IcmapSet "runtime.votequorum.qdevice_can_operate" status)
    (s <| qdevice_can_operate := status |>).

Definition update_qdevice_master_wins (allow : Z) (s : vq) : vq :=
  emit (IcmapSet "runtime.votequorum.qdevice_master_wins" allow)
    (s <| qdevice_master_wins := allow |>).

(** [lseek] fails on a descriptor that is not open, and the function returns. *)
Definition update_ev_tracking_barrier (v : Z) (s : vq) : vq :=
  let s := emit (IcmapSet "runtime.votequorum.ev_tracking_barrier" v)
             (s <| ev_tracking_barrier := v |>) in
  match ev_tracking_fd s with
  | FD_OPEN => emit (EvTrackingWrite v) s
  | _ => s
  end.

(** [load_ev_tracking_barrier]: [stored] is the 32-bit value an [open] and
    [read] of the file give ([None] when either fails), [can_create] whether the
    second [open] succeeds. *)
Definition load_ev_tracking_barrier (stored : option Z) (can_create : bool) (s : vq) : Z * vq :=
  match stored with
  | Some v => (0, s <| ev_tracking_barrier := v |> <| ev_tracking_fd := FD_CLOSED |>)
  | None =>
      let s := s <| ev_tracking_barrier := 0 |> in
      if can_create then (0, emit (EvTrackingWrite 0) (s <| ev_tracking_fd := FD_CLOSED |>))
      else (-1, s <| ev_tracking_fd := FD_NONE |>)
  end.

(** ** Quorum calculation *)

(** The loop of [calculate_quorum]: highest expected votes, total votes and
    number of the nodes in state MEMBER. *)
Definition member_totals (l : list cluster_node) : Z * Z * Z :=
  foldl (fun '(highest, total, nodes) n =>
           if is_member (node_state n) then
             (Z.max highest (expected_votes n), u32 (total + votes n), u32 (nodes + 1))
           else (highest, total, nodes)) (0, 0, 0) l.

(** Returns the new quorum and, through the third parameter of the C function,
    the total number of votes. *)
Definition calculate_quorum (allow_decrease : bool) (max_expected : Z) (s : vq) : Z * Z :=
  let max_expected :=
    if c_true (allow_downscale s) && allow_decrease && c_true max_expected
    then Z.max (ev_barrier s) max_expected else max_expected in
  let '(highest_expected, total_votes, total_nodes) := member_totals (member_nodes s) in
  let '(total_votes, total_nodes) :=
    if has_flag (flags (us_node s)) NODE_FLAGS_QDEVICE_CAST_VOTE
    then (u32 (total_votes + votes (qdevice_node s)), u32 (total_nodes + 1))
    else (total_votes, total_nodes) in
  let highest_expected := if 0 <? max_expected then max_expected else highest_expected in
  let q1 := u32 (highest_expected + 2) / 2 in
  let q2 := u32 (total_votes + 2) / 2 in
  let newquorum := Z.max q1 q2 in
  let newquorum := if allow_decrease then newquorum else Z.max (quorum s) newquorum in
  let newquorum := if c_true (two_node s) && (total_nodes <=? 2) then 1 else newquorum in
  (newquorum, total_votes).

Definition update_node_expected_votes (v : Z) (s : vq) : vq :=
  if c_true v then
    foldl (fun s i => if is_member (node_state (node_at s i))
                      then upd_node i (fun n => n <| expected_votes := v |>) s else s)
      s (cluster_members_list s)
  else s.

(** ** Notifications to the library clients *)

Definition quorum_node_states (s : vq) : list (Z * Z) :=
  map (fun n => (u32 (node_id n), nodestate_val (node_state n))) (member_nodes s)
  ++ (if has_flag (flags (us_node s)) NODE_FLAGS_QDEVICE_REGISTERED
      then [(VOTEQUORUM_QDEVICE_NODEID, nodestate_val (node_state (qdevice_node s)))] else []).

(** One dispatch per tracking connection, in list order. *)
Definition to_trackers (mk : Z -> Z -> effect) (s : vq) : vq :=
  foldl (fun s conn => emit (mk conn (from_option tracking_context 0 (pds s !! conn))) s)
    s (trackers_list s).

Definition votequorum_exec_send_quorum_notification (conn : option Z) (context : Z) (s : vq) : vq :=
  let nodes := quorum_node_states s in
  let quorate := b2z (cluster_is_quorate s) in
  match conn with
  | Some c => emit (DispatchQuorum c context quorate nodes) s
  | None => to_trackers (fun c ctx => DispatchQuorum c ctx quorate nodes) s
  end.

Definition votequorum_exec_send_nodelist_notification (conn : option Z) (context : Z) (s : vq) : vq :=
  match conn with
  | Some c => emit (DispatchNodelist c context (quorum_ringid s) (quorum_members s)) s
  | None => to_trackers (fun c ctx => DispatchNodelist c ctx (quorum_ringid s) (quorum_members s)) s
  end.

Definition votequorum_exec_send_expectedvotes_notification (s : vq) : vq :=
  to_trackers (fun c ctx => DispatchExpectedVotes c ctx (expected_votes (us_node s))) s.

(** ** Quorum decision *)

(** The votes part of the decision of [are_we_quorate]: quorate by the votes,
    by the tie breaker, or through the quorum device's master. *)
Definition decide_quorate (total_votes : Z) (s : vq) : bool * vq :=
  let '(quorate, s) :=
    if total_votes <? quorum s then (false, s)
    else (true, get_highest_node_id (get_lowest_node_id s)) in
  let quorate :=
    if atb_on (auto_tie_breaker s)
       && (total_votes =? expected_votes (us_node s) / 2)
       && (Z.of_nat (length (previous_quorum_members s)) - Z.of_nat (length (quorum_members s))
           <? quorum s)
       && check_auto_tie_breaker s
    then true else quorate in
  let quorate :=
    if c_true (qdevice_master_wins s) && negb quorate && check_qdevice_master s
    then true else quorate in
  (quorate, s).

(** The end of [are_we_quorate], once [quorate] is known. *)
Definition apply_quorate (quorate : bool) (s : vq) : vq :=
  let quorum_change := xorb (cluster_is_quorate s) quorate in
  let s := s <| cluster_is_quorate := quorate |> in
  let s := upd_us (fun n => n <| flags ::= if quorate then set_flag NODE_FLAGS_QUORATE
                                           else clr_flag NODE_FLAGS_QUORATE |>) s in
  let s := if c_true (wait_for_all s)
           then update_wait_for_all_status (b2z (negb quorate)) s else s in
  if quorum_change && negb (sync_in_progress s) then
    let s := emit (QuorumCallback (quorum_members s) (b2z (cluster_is_quorate s))
                     (quorum_ringid s)) s in
    votequorum_exec_send_quorum_notification None 0 s
  else s.

Definition are_we_quorate (total_votes : Z) (s : vq) : option vq :=
  if c_true (wait_for_all s) && c_true (wait_for_all_status s)
     && negb (total_votes =? expected_votes (us_node s))
  then if cluster_is_quorate s then None else Some s
  else
    let s := if c_true (wait_for_all s) && c_true (wait_for_all_status s)
             then update_wait_for_all_status 0 s else s in
    let '(quorate, s) := decide_quorate total_votes s in
    Some (apply_quorate quorate s).

Definition get_total_votes (s : vq) : Z * Z :=
  let '(total_votes, cluster_members) :=
    foldl (fun '(total, members) n =>
             if is_member (node_state n) then (u32 (total + votes n), u32 (members + 1))
             else (total, members)) (0, 0) (member_nodes s) in
  if c_true (votes (qdevice_node s))
  then (u32 (total_votes + votes (qdevice_node s)), u32 (cluster_members + 1))
  else (total_votes, cluster_members).

Definition recalculate_quorum (allow_decrease by_current_nodes : bool) (s : vq) : option vq :=
  let '(total_votes, cluster_members) := get_total_votes s in
  let cluster_members := if by_current_nodes then cluster_members else 0 in
  let s :=
    if expected_votes (us_node s) <? total_votes then
      votequorum_exec_send_expectedvotes_notification
        (upd_us (fun n => n <| expected_votes := total_votes |>) s)
    else s in
  let s :=
    if c_true (ev_tracking s) && (ev_tracking_barrier s <? expected_votes (us_node s))
    then update_ev_tracking_barrier (expected_votes (us_node s)) s else s in
  let '(newquorum, total_votes) := calculate_quorum allow_decrease cluster_members s in
  let s := s <| quorum := u8 newquorum |> in
  let s := update_node_expected_votes cluster_members s in
  are_we_quorate total_votes s.
