(* ===== verification/VoteQuorumExec.v ===== *)
(** * Votequorum: configuration, messages, synchronisation, library requests

    The rest of exec/votequorum.c on the state of [VoteQuorum]: the reading of
    the configuration, the multicast messages and their handlers, the
    synchronisation callbacks, the timers and the library request handlers. *)
From stdpp Require Import pretty.
From S2P Require Import Prelude CString VoteQuorum.

(** What the service reads of the configuration map (icmap): the typed lookups,
    [None] when they do not return [CS_OK], and the keys under a prefix in the
    order an iteration gives them. *)
Record icmap_view := mk_icmap_view {
  icmap_get_uint8 : string -> option Z;
  icmap_get_uint32 : string -> option Z;
  icmap_get_int32 : string -> option Z;
  icmap_get_string : string -> option string;
  icmap_iter : string -> list string
}.

Definition CS_OK : Z := 1.
Definition CS_ERR_TRY_AGAIN : Z := 6.
Definition CS_ERR_INVALID_PARAM : Z := 7.
Definition CS_ERR_ACCESS : Z := 11.
Definition CS_ERR_NOT_EXIST : Z := 12.
Definition CS_ERR_EXIST : Z := 14.
Definition CS_ERR_NAME_NOT_FOUND : Z := 17.
Definition CS_ERR_NO_RESOURCES : Z := 18.
Definition CS_ERR_MESSAGE_ERROR : Z := 22.

Definition VOTEQUORUM_RECONFIG_PARAM_EXPECTED_VOTES : Z := 1.
Definition VOTEQUORUM_RECONFIG_PARAM_NODE_VOTES : Z := 2.
Definition VOTEQUORUM_RECONFIG_PARAM_CANCEL_WFA : Z := 3.
Definition VOTEQUORUM_QDEVICE_OPERATION_UNREGISTER : Z := 0.
Definition VOTEQUORUM_QDEVICE_OPERATION_REGISTER : Z := 1.
Definition CS_TRACK_CURRENT : Z := 1.
Definition CS_TRACK_CHANGES : Z := 2.
Definition CS_TRACK_CHANGES_ONLY : Z := 4.

(** [(void) icmap_get_xxx (key, &var)]: [var] keeps its value on failure. *)
Definition or_keep {A} (o : option A) (old : A) : A := default old o.

(** ** Configuration *)

(** The [do ... while (num)] loop of [parse_atb_string]; every turn that goes on
    consumes a character, so the length of the string is enough fuel. *)
Fixpoint parse_atb_numbers (fuel : nat) (l : list ascii) : list Z :=
  match fuel with
  | O => []
  | S fuel' =>
      let '(num, rest) := strtol l in
      if c_true num then u32 num :: parse_atb_numbers fuel' rest else []
  end.

Definition parse_atb_string (atb_string : string) (s : vq) : vq :=
  let atb := ATB_NONE in
  let atb := if strcmp_eq atb_string "lowest" then ATB_LOWEST else atb in
  let atb := if strcmp_eq atb_string "highest" then ATB_HIGHEST else atb in
  let '(atb, s) :=
    if c_true (atoi atb_string) then
      let l := chars atb_string in
      let nodes := parse_atb_numbers (S (length l)) l in
      (if Nat.eqb (length nodes) 0 then atb else ATB_LIST, s <| atb_nodelist := nodes |>)
    else (atb, s) in
  emit (IcmapSet "runtime.votequorum.atb_type" (atb_val atb)) (s <| auto_tie_breaker := atb |>).

(** [sscanf (key, "nodelist.node.%u.%s", ...) == 2]: the node position. *)
Definition sscanf_node_pos (key : string) : option Z :=
  l ← strip_prefix (chars "nodelist.node.") (chars key);
  '(pos, l) ← scan_u l;
  l ← strip_prefix (chars ".") l;
  match skip_space l with [] => None | _ :: _ => Some pos end.

Record nodelist_conf := mk_nodelist {
  nl_votes : option Z;           (** [*votes], when our position was met *)
  nl_nodes : Z;                  (** [*nodes] *)
  nl_expected_votes : Z          (** [*expected_votes] *)
}.

Definition nodelist_step (cfg : icmap_view) (our_pos : Z)
    (st : Z * nodelist_conf) (key : string) : Z * nodelist_conf :=
  let '(last_node_pos, c) := st in
  match sscanf_node_pos key with
  | None => st
  | Some node_pos =>
      if last_node_pos =? node_pos then st
      else
        let node_votes := default 1 (icmap_get_uint32 cfg
                            ("nodelist.node." +:+ pretty node_pos +:+ ".quorum_votes")) in
        (node_pos,
         mk_nodelist (if node_pos =? our_pos then Some node_votes else nl_votes c)
           (u32 (nl_nodes c + 1)) (u32 (nl_expected_votes c + node_votes)))
  end.

(** [None]: no node list, the function returns 0. *)
Definition votequorum_read_nodelist_configuration (cfg : icmap_view) : option nodelist_conf :=
  our_pos ← icmap_get_uint32 cfg "nodelist.local_node_pos";
  Some (snd (foldl (nodelist_step cfg our_pos) (u32 (-1), mk_nodelist None 0 0)
               (icmap_iter cfg "nodelist.node."))).

(** Returns whether a device is configured and the votes of the device. *)
Definition votequorum_qdevice_is_configured (cfg : icmap_view) (s : vq) : bool * Z * vq :=
  match icmap_get_string cfg "quorum.device.model" with
  | Some model =>
      if c_true (strlen model) then
        let v := default (u32 (-1)) (icmap_get_uint32 cfg "quorum.device.votes") in
        let s := s <| qdevice_timeout := default VOTEQUORUM_QDEVICE_DEFAULT_TIMEOUT
                                           (icmap_get_uint32 cfg "quorum.device.timeout") |> in
        let s := s <| qdevice_sync_timeout := default VOTEQUORUM_QDEVICE_DEFAULT_SYNC_TIMEOUT
                                           (icmap_get_uint32 cfg "quorum.device.sync_timeout") |> in
        (true, v, update_qdevice_can_operate 1 s)
      else (false, 0, s)
  | None => (false, 0, s)
  end.

(** "Enable special features": the plain options, read at start-up only. *)
Definition readconfig_options (cfg : icmap_view) (s : vq) : vq :=
  let s := s <| allow_downscale ::= or_keep (icmap_get_uint8 cfg "quorum.allow_downscale") |> in
  let s := match icmap_get_uint8 cfg "quorum.wait_for_all" with
           | Some v => s <| wait_for_all := v |>
           | None => s <| wait_for_all_autoset := true |>
           end in
  s <| last_man_standing ::= or_keep (icmap_get_uint8 cfg "quorum.last_man_standing") |>
    <| last_man_standing_window ::=
         or_keep (icmap_get_uint32 cfg "quorum.last_man_standing_window") |>
    <| ev_tracking ::= or_keep (icmap_get_uint8 cfg "quorum.expected_votes_tracking") |>.

(** The tie breaker, read at start-up only. *)
Definition readconfig_atb (cfg : icmap_view) (s : vq) : vq :=
  let atb := or_keep (icmap_get_uint8 cfg "quorum.auto_tie_breaker") 0 in
  let s := if c_true atb
           then emit (IcmapSet "runtime.votequorum.atb_type" (atb_val ATB_LOWEST))
                  (s <| auto_tie_breaker := ATB_LOWEST |>)
           else s <| auto_tie_breaker := ATB_NONE |> in
  let s := match icmap_get_string cfg "quorum.auto_tie_breaker_node" with
           | Some str => if c_true atb then parse_atb_string str s else s
           | None => s
           end in
  s <| initial_auto_tie_breaker := auto_tie_breaker s |>.

(** Expected-votes tracking, which allow-downscale requires.  [stored] and
    [can_create] describe the tracking file.  [inl] is the error that makes the
    caller return at once. *)
Definition readconfig_ev_tracking (stored : option Z) (can_create : bool) (s : vq)
    : string * vq + vq :=
  let s := if c_true (allow_downscale s) then s <| ev_tracking := 1 |> else s in
  if c_true (ev_tracking s) then
    let '(res, s) := load_ev_tracking_barrier stored can_create s in
    if res <? 0 then inl ("Unable to load ev_tracking file!"%string, s)
    else inr (update_ev_tracking_barrier (ev_tracking_barrier s) s)
  else inr s.

Definition readconfig_features (cfg : icmap_view) (stored : option Z) (can_create : bool)
    (s : vq) : string * vq + vq :=
  readconfig_ev_tracking stored can_create (readconfig_atb cfg (readconfig_options cfg s)).

(** A configuration error found while checking the device: an error at
    start-up, device operations disabled at run time. *)
Definition qdevice_conflict (runtime : bool) (err : string) (cond : bool)
    (r : string * vq + vq) : string * vq + vq :=
  match r with
  | inl _ => r
  | inr s => if cond then if runtime then inr (update_qdevice_can_operate 0 s) else inl (err, s)
             else r
  end.

(** "set this node votes and expected_votes", "set qdevice votes". *)
Definition readconfig_set_votes (cfg : icmap_view) (nodelist : option nodelist_conf)
    (have_qdevice : bool) (qdevice_votes node_expected_votes ev : Z) (s : vq) : vq :=
  let s :=
    match nodelist with
    | Some c => upd_us (fun n => n <| votes := default 0 (nl_votes c) |>
                                   <| expected_votes := node_expected_votes |>) s
    | None => upd_us (fun n => n <| votes := or_keep (icmap_get_uint32 cfg "quorum.votes") 1 |>) s
    end in
  let s := if c_true ev then upd_us (fun n => n <| expected_votes := ev |>) s else s in
  let s := if have_qdevice then s else upd_node (qdevice s) (fun n => n <| votes := 0 |>) s in
  if qdevice_votes =? u32 (-1) then s
  else upd_node (qdevice s) (fun n => n <| votes := qdevice_votes |>) s.

(** The wait-for-all status at the end of [votequorum_readconfig]. *)
Definition readconfig_wfa_status (runtime : bool) (s : vq) : vq :=
  if c_true (wait_for_all s) then
    if runtime then s else update_wait_for_all_status 1 s
  else if wait_for_all_autoset s && c_true (wait_for_all_status s)
       then update_wait_for_all_status 0 s else s.

(** The last part of [votequorum_readconfig]: votes and expected votes of this
    node and of the device, barriers and the wait-for-all status. *)
Definition readconfig_apply (cfg : icmap_view) (runtime : bool) (nodelist : option nodelist_conf)
    (have_qdevice : bool) (qdevice_votes ev : Z) (s : vq) : vq :=
  let node_count := from_option nl_nodes 0 nodelist in
  let node_expected_votes := from_option nl_expected_votes 0 nodelist in
  let have_nodelist := bool_decide (is_Some nodelist) in
  let '(qdevice_votes, node_expected_votes) :=
    if have_qdevice && (qdevice_votes =? u32 (-1)) && (ev =? 0) && have_nodelist
       && (node_count =? node_expected_votes)
    then (u32 (node_expected_votes - 1),
          u32 (node_expected_votes + u32 (node_expected_votes - 1)))
    else (qdevice_votes, node_expected_votes) in
  let ev := if c_true (ev_tracking s) then ev_tracking_barrier s else ev in
  let s := readconfig_set_votes cfg nodelist have_qdevice qdevice_votes node_expected_votes ev s in
  readconfig_wfa_status runtime
    (update_two_node (update_ev_barrier (expected_votes (us_node s)) s)).

(** At run time the re-read values go back to their defaults first. *)
Definition readconfig_reset (s : vq) : vq :=
  let s := s <| two_node := 0 |> <| auto_tie_breaker := initial_auto_tie_breaker s |> in
  emit (IcmapSet "runtime.votequorum.atb_type" (atb_val (auto_tie_breaker s))) s.

(** Gather the basic data: whether a device is configured, its votes, and
    [two_node]. *)
Definition readconfig_gather (cfg : icmap_view) (runtime : bool) (s : vq) : bool * Z * vq :=
  let '(have_qdevice, qdevice_votes, s) :=
    votequorum_qdevice_is_configured cfg (if runtime then readconfig_reset s else s) in
  (have_qdevice, qdevice_votes,
   s <| two_node ::= or_keep (icmap_get_uint8 cfg "quorum.two_node") |>).

(** Two-node mode with a device at run time: one of the two is given up. *)
Definition readconfig_two_node_qdevice (have_qdevice : bool) (s : vq) : vq :=
  if c_true (two_node s) && have_qdevice then
    if has_flag (flags (us_node s)) NODE_FLAGS_QDEVICE_REGISTERED
    then s <| two_node := 0 |> else update_qdevice_can_operate 0 s
  else s.

(** Wait-for-all following two-node, two-node against the tie breaker, and the
    tie breaker in a cluster with an odd number of votes. *)
Definition readconfig_modes (node_expected_votes : Z) (s : vq) : string * vq + vq :=
  let s := if wait_for_all_autoset s then s <| wait_for_all := two_node s |> else s in
  let s := if c_true (two_node s) && atb_on (auto_tie_breaker s)
           then s <| two_node := 0 |> else s in
  let atb_odd := atb_on (auto_tie_breaker s) && c_true (node_expected_votes mod 2)
                 && negb (c_true (wait_for_all s)) in
  if atb_odd && c_true (last_man_standing s) then
    inl ("configuration error: auto_tie_breaker & last_man_standing not available in odd sized cluster"%string, s)
  else
    inr (if atb_odd
         then emit (IcmapSet "runtime.votequorum.atb_type" (atb_val ATB_NONE))
                (s <| auto_tie_breaker := ATB_NONE |>) else s).

(** The checks of the device against the other features and the votes. *)
Definition readconfig_conflicts (runtime have_nodelist have_qdevice : bool)
    (node_count node_expected_votes qdevice_votes ev : Z) (s : vq) : string * vq + vq :=
  let unset := qdevice_votes =? u32 (-1) in
  let r := inr s in
  let r := qdevice_conflict runtime "configuration error: quorum.device is not compatible with last_man_standing"
             (have_qdevice && c_true (last_man_standing s)) r in
  let r := qdevice_conflict runtime "configuration error: quorum.device is not compatible with auto_tie_breaker"
             (have_qdevice && atb_on (auto_tie_breaker s)) r in
  let r := qdevice_conflict runtime "configuration error: quorum.device is not compatible with allow_downscale"
             (have_qdevice && c_true (allow_downscale s)) r in
  let r := qdevice_conflict runtime "configuration error: quorum.device.votes must be specified when quorum.expected_votes is set"
             (c_true ev && have_qdevice && unset) r in
  let r := qdevice_conflict runtime "configuration error: quorum.device.votes must be specified when not all nodes votes 1"
             (have_qdevice && unset && have_nodelist && negb (node_count =? node_expected_votes)) r in
  qdevice_conflict runtime "configuration error: quorum.device.votes is too high or expected_votes is too low"
    ((0 <? qdevice_votes) && c_true ev && (s32 (ev - qdevice_votes) <? 2)) r.

(** [votequorum_readconfig]: the error string, if any, and the new state. *)
Definition votequorum_readconfig (cfg : icmap_view) (stored : option Z) (can_create : bool)
    (runtime : bool) (s : vq) : option string * vq :=
  let ev := or_keep (icmap_get_uint32 cfg "quorum.expected_votes") 0 in
  let nodelist := votequorum_read_nodelist_configuration cfg in
  let have_nodelist := bool_decide (is_Some nodelist) in
  let node_count := from_option nl_nodes 0 nodelist in
  let node_expected_votes := from_option nl_expected_votes 0 nodelist in
  let '(have_qdevice, qdevice_votes, s) := readconfig_gather cfg runtime s in
  if negb have_nodelist && negb (c_true ev) then
    (if runtime then None
     else Some "configuration error: nodelist or quorum.expected_votes must be configured!"%string, s)
  else if c_true (two_node s) && have_qdevice && negb runtime then
    (Some "configuration error: two_node and quorum device cannot be configured at the same time!"%string, s)
  else
    let s := readconfig_two_node_qdevice have_qdevice s in
    match (if runtime then inr s else readconfig_features cfg stored can_create s) with
    | inl (err, s) => (Some err, s)
    | inr s =>
        match readconfig_modes node_expected_votes s with
        | inl (err, s) => (Some err, s)
        | inr s =>
            match readconfig_conflicts runtime have_nodelist have_qdevice node_count
                    node_expected_votes qdevice_votes ev s with
            | inl (err, s) => (Some err, s)
            | inr s => (None, readconfig_apply cfg runtime nodelist have_qdevice qdevice_votes ev s)
            end
        end
    end.

(** ** Messages *)

Section Handlers.

(** [corosync_api->totem_mcast]: 0 when the message was queued. *)
Context (totem_mcast : vq -> exec_msg -> Z).

Definition mcast (m : exec_msg) (s : vq) : Z * vq := (totem_mcast s m, emit (Mcast m) s).

Definition votequorum_exec_send_reconfigure (param nodeid value : Z) (s : vq) : Z * vq :=
  mcast (RECONFIGURE param nodeid value) s.

Definition votequorum_exec_send_nodeinfo (nodeid : Z) (s : vq) : Z * vq :=
  match find_node_by_nodeid s nodeid with
  | None => (-1, s)
  | Some i =>
      let n := node_at s i in
      mcast (NODEINFO nodeid (votes n) (expected_votes n) (flags n)) s
  end.

(** [assert (strlen (name) < sizeof (name))] *)
Definition name_fits (name : string) : bool :=
  strlen name <? Z.of_nat VOTEQUORUM_QDEVICE_MAX_NAME_LEN.

Definition votequorum_exec_send_qdevice_reconfigure (oldname newname : string) (s : vq)
    : option (Z * vq) :=
  if name_fits oldname && name_fits newname
  then Some (mcast (QDEVICE_RECONFIGURE oldname newname) s) else None.

Definition votequorum_exec_send_qdevice_reg (operation : Z) (name : string) (s : vq)
    : option (Z * vq) :=
  if name_fits name then Some (mcast (QDEVICE_REG operation name) s) else None.

Definition votequorum_exec_send_set_qdevice_extra_info (nodeid : Z) (s : vq) : Z * vq :=
  match find_node_by_nodeid s nodeid with
  | None => (CS_ERR_NOT_EXIST, s)
  | Some i =>
      let n := node_at s i in
      let '(size, info) :=
        if has_flag (flags n) NODE_FLAGS_QDEVICE_EXTRA_INFO_SET
        then (ei_size n, take (Z.to_nat (ei_size n)) (extra_nodeinfo n)) else (0, []) in
      mcast (QDEVICE_EXTRA_NODEINFO nodeid size info) s
  end.

(** ** Extra node information for the library clients *)

(** [fill_extra_info_notification]: size, bytes and node of the notification. *)
Definition fill_extra_info_notification (n : cluster_node) : Z * list Z * Z :=
  if has_flag (flags n) NODE_FLAGS_QDEVICE_EXTRA_INFO_SET
  then (ei_size n, take (Z.to_nat (ei_size n)) (extra_nodeinfo n), u32 (node_id n))
  else (0, [], u32 (node_id n)).

Definition votequorum_exec_send_all_qdevice_extra_info_notification (conn context : Z) (s : vq) : vq :=
  foldl (fun s i =>
           let n := node_at s i in
           if has_flag (flags n) NODE_FLAGS_QDEVICE_EXTRA_INFO_SET then
             let '(size, info, nodeid) := fill_extra_info_notification n in
             emit (DispatchExtraInfo conn context nodeid size info) s
           else s) s (cluster_members_list s).

Definition votequorum_exec_send_qdevice_extra_info_notification (nodeid : Z) (s : vq) : Z * vq :=
  match find_node_by_nodeid s nodeid with
  | None => (CS_ERR_NOT_EXIST, s)
  | Some i =>
      let '(size, info, id) := fill_extra_info_notification (node_at s i) in
      (CS_OK, to_trackers (fun c ctx => DispatchExtraInfo c ctx id size info) s)
  end.

(** ** Handlers of the multicast messages *)

Definition message_handler_req_exec_votequorum_qdevice_reconfigure
    (oldname newname : string) (s : vq) : vq :=
  if strcmp_eq oldname (qdevice_name s) then s <| qdevice_name := newname |> else s.

Definition message_handler_req_exec_votequorum_qdevice_reg
    (operation : Z) (name : string) (nodeid : Z) (s : vq) : vq :=
  if operation =? VOTEQUORUM_QDEVICE_OPERATION_REGISTER then
    if negb (nodeid =? u32 (node_id (us_node s))) then
      if c_true (strlen (qdevice_name s)) then s else s <| qdevice_name := name |>
    else if has_flag (flags (us_node s)) NODE_FLAGS_QDEVICE_REGISTERED then s
    else
      match qdevice_reg_conn s with
      | None => s
      | Some conn =>
          let s := if c_true (strlen (qdevice_name s)) then s else s <| qdevice_name := name |> in
          let '(error, s) :=
            if strncmp_eq VOTEQUORUM_QDEVICE_MAX_NAME_LEN name (qdevice_name s) then
              let s := upd_us (fun n => n <| flags ::= set_flag NODE_FLAGS_QDEVICE_REGISTERED |>) s in
              let s := snd (votequorum_exec_send_nodeinfo VOTEQUORUM_QDEVICE_NODEID s) in
              (CS_OK, snd (votequorum_exec_send_nodeinfo (u32 (node_id (us_node s))) s))
            else (CS_ERR_EXIST, s) in
          emit (ResponseStatus conn error) s <| qdevice_reg_conn := None |>
      end
  else if operation =? VOTEQUORUM_QDEVICE_OPERATION_UNREGISTER then
    if existsb (fun n => is_member (node_state n)
                         && has_flag (flags n) NODE_FLAGS_QDEVICE_REGISTERED) (member_nodes s)
    then s else s <| qdevice_name := "" |>
  else s.

(** [Update node state]: flags, votes and state of the node the message is about. *)
Definition nodeinfo_set_state (i : nat) (m_votes m_flags : Z) (s : vq) : vq :=
  let s := upd_node i (fun n => n <| flags := m_flags |> <| votes := m_votes |>
                                  <| node_state := NODESTATE_MEMBER |>) s in
  if has_flag m_flags NODE_FLAGS_LEAVING
  then upd_node i (fun n => n <| node_state := NODESTATE_LEAVING |>) s else s.

(** The message comes from a quorate node and we are not quorate. *)
Definition from_quorate (m_flags : Z) (s : vq) : bool :=
  negb (cluster_is_quorate s) && has_flag m_flags NODE_FLAGS_QUORATE.

(** The expected votes of this node and of the node the message is about. *)
Definition nodeinfo_set_expected (i : nat) (m_expected m_flags : Z) (s : vq) : vq :=
  let s := if from_quorate m_flags s
           then upd_us (fun n => n <| expected_votes := m_expected |>) s else s in
  let ev := if has_flag m_flags NODE_FLAGS_QUORATE || c_true (ev_tracking s)
            then m_expected else expected_votes (us_node s) in
  upd_node i (fun n => n <| expected_votes := ev |>) s.

(** Last-man-standing is switched off when some node has more than one vote. *)
Definition nodeinfo_check_lms (i : nat) (s : vq) : vq :=
  if c_true (last_man_standing s) && (1 <? votes (node_at s i)) then
    let s := s <| last_man_standing := 0 |> in
    if last_man_standing_timer_set s
    then emit (TimerDelete TIMER_LMS) s <| last_man_standing_timer_set := false |> else s
  else s.

(** The update of an ordinary node by a nodeinfo message, up to the label
    [recalculate]: [allow_downgrade], [by_node] and the new state. *)
Definition nodeinfo_update (i : nat) (m_votes m_expected m_flags : Z) (s : vq) : bool * bool * vq :=
  let leaving := has_flag m_flags NODE_FLAGS_LEAVING in
  let s := nodeinfo_set_state i m_votes m_flags s in
  (leaving || from_quorate m_flags s, leaving,
   nodeinfo_check_lms i (nodeinfo_set_expected i m_expected m_flags s)).

(** The votes of the device a nodeinfo message carries. *)
Definition nodeinfo_update_qdevice (i : nat) (m_votes sender_nodeid : Z) (s : vq) : option vq :=
  sender ← find_node_by_nodeid s sender_nodeid;
  Some (if negb (cluster_is_quorate s)
           && has_flag (flags (node_at s sender)) NODE_FLAGS_QUORATE
        then upd_node i (fun n => n <| votes := m_votes |>) s
        else upd_node i (fun n => n <| votes ::= Z.max m_votes |>) s).

Definition message_handler_req_exec_votequorum_nodeinfo
    (nodeid m_votes m_expected m_flags sender_nodeid : Z) (s : vq) : option vq :=
  '(node, new_node, s) ←
    match find_node_by_nodeid s nodeid with
    | Some i => Some (Some i, false, s)
    | None => '(node, s) ← allocate_node nodeid s; Some (node, true, s)
    end;
  match node with
  | None => Some (emit MemoryFailure s)
  | Some i =>
      let old := node_at s i in
      let '(old_votes, old_expected, old_state, old_flags) :=
        if new_node : bool then (0, 0, NODESTATE_DEAD, 0)
        else (votes old, expected_votes old, node_state old, flags old) in
      '(allow_downgrade, by_node, s) ←
        (if nodeid =? VOTEQUORUM_QDEVICE_NODEID then
           s ← nodeinfo_update_qdevice i m_votes sender_nodeid s; Some (false, false, s)
         else Some (nodeinfo_update i m_votes m_expected m_flags s));
      let n := node_at s i in
      s ← (if new_node
              || (nodeid =? u32 (node_id (us_node s)))
              || has_flag (flags n) NODE_FLAGS_FIRST
              || negb (old_votes =? votes n)
              || negb (old_expected =? expected_votes n)
              || negb (old_flags =? flags n)
              || bool_decide (old_state <> node_state n)
           then recalculate_quorum allow_downgrade by_node s else Some s);
      let n := node_at s i in
      Some (if c_true (wait_for_all s)
               && negb (has_flag (flags n) NODE_FLAGS_WFASTATUS)
               && has_flag (flags n) NODE_FLAGS_QUORATE
            then update_wait_for_all_status 0 s else s)
  end.

Definition message_handler_req_exec_votequorum_reconfigure (param nodeid value : Z) (s : vq)
    : option vq :=
  if param =? VOTEQUORUM_RECONFIG_PARAM_EXPECTED_VOTES then
    let s := update_node_expected_votes value s in
    let s := votequorum_exec_send_expectedvotes_notification s in
    let s := update_ev_barrier value s in
    let s := if c_true (ev_tracking s)
             then upd_us (fun n => n <| expected_votes ::= Z.max (ev_tracking_barrier s) |>) s
             else s in
    recalculate_quorum true false s
  else if param =? VOTEQUORUM_RECONFIG_PARAM_NODE_VOTES then
    match find_node_by_nodeid s nodeid with
    | None => Some s
    | Some i => recalculate_quorum true false (upd_node i (fun n => n <| votes := value |>) s)
    end
  else if param =? VOTEQUORUM_RECONFIG_PARAM_CANCEL_WFA then
    recalculate_quorum false false (update_wait_for_all_status 0 s)
  else Some s.

Definition message_handler_req_exec_votequorum_qdevice_set_extra_info
    (m_size : Z) (info : list Z) (nodeid : Z) (s : vq) : vq :=
  if VOTEQUORUM_QDEVICE_EXTRA_NODEINFO_MAXSIZE <? m_size then s
  else
    match find_node_by_nodeid s nodeid with
    | None => s
    | Some i =>
        let s :=
          if m_size =? 0 then
            upd_node i (fun n => n <| flags ::= clr_flag NODE_FLAGS_QDEVICE_EXTRA_INFO_SET |>
                                   <| ei_size := 0 |>) s
          else
            upd_node i (fun n => n <| ei_size := m_size |>
                                   <| extra_nodeinfo ::= fun b => memcpy b info (Z.to_nat m_size) |>
                                   <| flags ::= set_flag NODE_FLAGS_QDEVICE_EXTRA_INFO_SET |>) s in
        snd (votequorum_exec_send_qdevice_extra_info_notification nodeid s)
    end.

(** [votequorum_exec_engine]: the handler of each message. *)
Definition votequorum_exec_engine (m : exec_msg) (nodeid : Z) (s : vq) : option vq :=
  match m with
  | NODEINFO id v ev fl => message_handler_req_exec_votequorum_nodeinfo id v ev fl nodeid s
  | RECONFIGURE param id v => message_handler_req_exec_votequorum_reconfigure param id v s
  | QDEVICE_REG op name => Some (message_handler_req_exec_votequorum_qdevice_reg op name nodeid s)
  | QDEVICE_RECONFIGURE old new =>
      Some (message_handler_req_exec_votequorum_qdevice_reconfigure old new s)
  | QDEVICE_EXTRA_NODEINFO _ size info =>
      Some (message_handler_req_exec_votequorum_qdevice_set_extra_info size info nodeid s)
  end.

(** ** Start, stop, configuration changes *)

Definition votequorum_exec_exit_fn (s : vq) : Z * vq :=
  let '(ret, s) :=
    if c_true (allow_downscale s) then
      let s := upd_us (fun n => n <| flags ::= set_flag NODE_FLAGS_LEAVING |>) s in
      votequorum_exec_send_nodeinfo (u32 (node_id (us_node s))) s
    else (0, s) in
  (ret, match c_true (ev_tracking s), ev_tracking_fd s with
        | true, FD_OPEN => s <| ev_tracking_fd := FD_CLOSED |>
        | _, _ => s
        end).

Definition votequorum_set_icmap_ro_keys (s : vq) : vq :=
  foldl (fun s k => emit (IcmapSetRo k) s) s
    ["quorum.allow_downscale"; "quorum.wait_for_all"; "quorum.last_man_standing";
     "quorum.last_man_standing_window"; "quorum.expected_votes_tracking";
     "quorum.auto_tie_breaker"; "quorum.auto_tie_breaker_node"]%string.

Definition votequorum_exec_add_config_notification (s : vq) : vq :=
  emit (IcmapTrack "config.totemconfig_reload_in_progress" false)
    (emit (IcmapTrack "quorum." true) (emit (IcmapTrack "nodelist." true) s)).

(** [inl]: the error string [votequorum_exec_init_fn] returns. *)
Definition votequorum_exec_init_fn (cfg : icmap_view) (stored : option Z) (can_create : bool)
    (totem_nodeid : Z) (s : vq) : option (string + vq) :=
  let s := s <| cluster_members_list := [] |> <| trackers_list := [] |>
             <| cluster_nodes := [] |> in
  '(q, s) ← allocate_node VOTEQUORUM_QDEVICE_NODEID s;
  match q with
  | None => Some (inl "Could not allocate node."%string)
  | Some q =>
  let s := s <| qdevice := q |> in
  let s := upd_node q (fun n => n <| votes := 0 |>) s <| qdevice_name := "" |> in
  '(u, s) ← allocate_node totem_nodeid s;
  match u with
  | None => Some (inl "Could not allocate node."%string)
  | Some u =>
  let s := s <| us := u |> in
  let s := emit (IcmapSet "runtime.votequorum.this_node_id" (u32 (node_id (us_node s)))) s in
  let s := upd_us (fun n => n <| node_state := NODESTATE_MEMBER |> <| votes := 1 |>
                              <| flags ::= set_flag NODE_FLAGS_FIRST |>) s in
  match votequorum_readconfig cfg stored can_create false s with
  | (Some err, _) => Some (inl err)
  | (None, s) =>
      s ← recalculate_quorum false false s;
      let s := votequorum_exec_add_config_notification (votequorum_set_icmap_ro_keys s) in
      Some (inr (snd (votequorum_exec_send_nodeinfo (u32 (node_id (us_node s))) s)))
  end end end.

(** [votequorum_refresh_config]; [cancel_wfa0] is the indeterminate initial value
    of the local variable [cancel_wfa]. *)
Definition votequorum_refresh_config (cfg : icmap_view) (cancel_wfa0 : Z) (key_name : string)
    (s : vq) : vq :=
  let reloading := "config.totemconfig_reload_in_progress"%string in
  if c_true (default 0 (icmap_get_uint8 cfg reloading)) then s
  else if strcmp_eq key_name reloading
          && match icmap_get_int32 cfg "config.reload_status" with
             | Some st => negb (st =? CS_OK) | None => false end then s
  else
    let cancel_wfa := or_keep (icmap_get_uint8 cfg "quorum.cancel_wait_for_all") cancel_wfa0 in
    if strcmp_eq key_name "quorum.cancel_wait_for_all" && (1 <=? cancel_wfa) then
      let s := emit (IcmapSet "quorum.cancel_wait_for_all" 0) s in
      snd (votequorum_exec_send_reconfigure VOTEQUORUM_RECONFIG_PARAM_CANCEL_WFA
             (u32 (node_id (us_node s))) 0 s)
    else
      let old_votes := votes (us_node s) in
      let old_expected_votes := expected_votes (us_node s) in
      let s := snd (votequorum_readconfig cfg None false true s) in
      let s := snd (votequorum_exec_send_nodeinfo (u32 (node_id (us_node s))) s) in
      let s := snd (votequorum_exec_send_nodeinfo VOTEQUORUM_QDEVICE_NODEID s) in
      let s :=
        if votes (us_node s) =? old_votes then s
        else snd (votequorum_exec_send_reconfigure VOTEQUORUM_RECONFIG_PARAM_NODE_VOTES
                    (u32 (node_id (us_node s))) (votes (us_node s)) s) in
      if expected_votes (us_node s) =? old_expected_votes then s
      else snd (votequorum_exec_send_reconfigure VOTEQUORUM_RECONFIG_PARAM_EXPECTED_VOTES
                  (u32 (node_id (us_node s))) (expected_votes (us_node s)) s).

(** ** Timers and synchronisation *)

Definition votequorum_last_man_standing_timer_fn (s : vq) : option vq :=
  let s := s <| last_man_standing_timer_set := false |> in
  if cluster_is_quorate s then recalculate_quorum true true s else Some s.

Definition qdevice_timer_fn (s : vq) : vq :=
  if negb (has_flag (flags (us_node s)) NODE_FLAGS_QDEVICE_ALIVE) || negb (qdevice_timer_set s)
  then s
  else
    let s := upd_us (fun n => n <| flags ::= clr_flag NODE_FLAGS_QDEVICE_ALIVE |>
                                <| flags ::= clr_flag NODE_FLAGS_QDEVICE_CAST_VOTE |>) s in
    let s := snd (votequorum_exec_send_nodeinfo (u32 (node_id (us_node s))) s) in
    s <| qdevice_timer_set := false |> <| sync_wait_for_poll_or_timeout := false |>.

(** The first loop of [votequorum_sync_init]: every member of the last
    configuration that is not in the new one is marked dead; the flag says
    whether there was one. *)
Definition mark_left_nodes (member_list : list Z) (s : vq) : bool * vq :=
  foldl (fun '(left_nodes, s) m =>
           if existsb (Z.eqb m) member_list then (left_nodes, s)
           else (true, match find_node_by_nodeid s m with
                       | Some i => upd_node i (fun n => n <| node_state := NODESTATE_DEAD |>) s
                       | None => s
                       end)) (false, s) (quorum_members s).

Definition votequorum_sync_init (member_list : list Z) (rid : ring_id) (s : vq) : vq :=
  let s := s <| sync_in_progress := true |> <| sync_nodeinfo_sent := false |>
             <| sync_wait_for_poll_or_timeout := false |> in
  let entries := Z.of_nat (length member_list) in
  let s := if 1 <? entries
           then upd_us (fun n => n <| flags ::= clr_flag NODE_FLAGS_FIRST |>) s else s in
  let '(left_nodes, s) := mark_left_nodes member_list s in
  let s :=
    if c_true (last_man_standing s)
       && (((quorum s <=? entries) && left_nodes)
           || ((entries <=? quorum s) && atb_on (auto_tie_breaker s)
               && check_low_node_id_partition s)) then
      let s := if last_man_standing_timer_set s
               then emit (TimerDelete TIMER_LMS) s <| last_man_standing_timer_set := false |>
               else s in
      emit (TimerAdd TIMER_LMS (u64 (last_man_standing_window s * 1000000))) s
        <| last_man_standing_timer_set := true |>
    else s in
  let s := s <| previous_quorum_members := quorum_members s |>
             <| quorum_members := member_list |> <| quorum_ringid := rid |> in
  if has_flag (flags (us_node s)) NODE_FLAGS_QDEVICE_REGISTERED
     && has_flag (flags (us_node s)) NODE_FLAGS_QDEVICE_ALIVE then
    let s := if qdevice_timer_set s then emit (TimerDelete TIMER_QDEVICE) s else s in
    emit (TimerAdd TIMER_QDEVICE (u64 (qdevice_sync_timeout s * 1000000))) s
      <| qdevice_timer_set := true |> <| sync_wait_for_poll_or_timeout := true |>
  else s.

(** What the first call of [votequorum_sync_process] sends. *)
Definition sync_send_nodeinfo (s : vq) : option vq :=
  let s := snd (votequorum_exec_send_nodeinfo (u32 (node_id (us_node s))) s) in
  let s := if has_flag (flags (us_node s)) NODE_FLAGS_QDEVICE_EXTRA_INFO_SET
           then snd (votequorum_exec_send_set_qdevice_extra_info (u32 (node_id (us_node s))) s)
           else s in
  let s := snd (votequorum_exec_send_nodeinfo VOTEQUORUM_QDEVICE_NODEID s) in
  s ← (if c_true (strlen (qdevice_name s)) then
         '(_, s) ← votequorum_exec_send_qdevice_reg VOTEQUORUM_QDEVICE_OPERATION_REGISTER
                     (qdevice_name s) s; Some s
       else Some s);
  Some (votequorum_exec_send_nodelist_notification None 0 s <| sync_nodeinfo_sent := true |>).

(** Returns 0 when the service is done, -1 to be called again. *)
Definition votequorum_sync_process (s : vq) : option (Z * vq) :=
  s ← (if sync_nodeinfo_sent s then Some s else sync_send_nodeinfo s);
  Some (if has_flag (flags (us_node s)) NODE_FLAGS_QDEVICE_REGISTERED
           && sync_wait_for_poll_or_timeout s then -1 else 0, s).

Definition votequorum_sync_activate (s : vq) : option vq :=
  s ← recalculate_quorum false false s;
  let s := emit (QuorumCallback (quorum_members s) (b2z (cluster_is_quorate s))
                   (quorum_ringid s)) s in
  let s := votequorum_exec_send_quorum_notification None 0 s in
  Some (s <| sync_in_progress := false |>).

(** ** Library requests *)

Definition quorum_lib_init_fn (conn : Z) (s : vq) : vq :=
  s <| pds ::= <[conn := mk_pd 0 false 0]> |>.

Definition quorum_lib_exit_fn (conn : Z) (s : vq) : vq :=
  if from_option tracking_enabled false (pds s !! conn)
  then s <| trackers_list ::= filter (fun c => c <> conn) |> else s.

Definition VOTEQUORUM_INFO_TWONODE : Z := 1.
Definition VOTEQUORUM_INFO_QUORATE : Z := 2.
Definition VOTEQUORUM_INFO_WAIT_FOR_ALL : Z := 4.
Definition VOTEQUORUM_INFO_LAST_MAN_STANDING : Z := 8.
Definition VOTEQUORUM_INFO_AUTO_TIE_BREAKER : Z := 16.
Definition VOTEQUORUM_INFO_ALLOW_DOWNSCALE : Z := 32.
Definition VOTEQUORUM_INFO_QDEVICE_REGISTERED : Z := 64.
Definition VOTEQUORUM_INFO_QDEVICE_ALIVE : Z := 128.
Definition VOTEQUORUM_INFO_QDEVICE_CAST_VOTE : Z := 256.
Definition VOTEQUORUM_INFO_QDEVICE_MASTER_WINS : Z := 512.
Definition VOTEQUORUM_INFO_QDEVICE_HAS_EXTRA_INFO : Z := 1024.

Definition message_handler_req_lib_votequorum_getinfo (conn nodeid : Z) (s : vq) : vq :=
  let nodeid := if nodeid =? VOTEQUORUM_QDEVICE_NODEID then u32 (node_id (us_node s)) else nodeid in
  match find_node_by_nodeid s nodeid with
  | None => emit (ResponseGetinfo conn CS_ERR_NOT_EXIST None) s
  | Some i =>
      let n := node_at s i in
      let '(highest_expected, total_votes, _) := member_totals (member_nodes s) in
      let total_votes := if has_flag (flags n) NODE_FLAGS_QDEVICE_CAST_VOTE
                         then u32 (total_votes + votes (qdevice_node s)) else total_votes in
      let bit (c : bool) (b f : Z) : Z := if c then set_flag b f else f in
      let fl := 0 in
      let fl := bit (c_true (two_node s)) VOTEQUORUM_INFO_TWONODE fl in
      let fl := bit (cluster_is_quorate s) VOTEQUORUM_INFO_QUORATE fl in
      let fl := bit (c_true (wait_for_all s)) VOTEQUORUM_INFO_WAIT_FOR_ALL fl in
      let fl := bit (c_true (last_man_standing s)) VOTEQUORUM_INFO_LAST_MAN_STANDING fl in
      let fl := bit (atb_on (auto_tie_breaker s)) VOTEQUORUM_INFO_AUTO_TIE_BREAKER fl in
      let fl := bit (c_true (allow_downscale s)) VOTEQUORUM_INFO_ALLOW_DOWNSCALE fl in
      let fl := bit (has_flag (flags n) NODE_FLAGS_QDEVICE_REGISTERED)
                  VOTEQUORUM_INFO_QDEVICE_REGISTERED fl in
      let fl := bit (has_flag (flags n) NODE_FLAGS_QDEVICE_ALIVE) VOTEQUORUM_INFO_QDEVICE_ALIVE fl in
      let fl := bit (has_flag (flags n) NODE_FLAGS_QDEVICE_CAST_VOTE)
                  VOTEQUORUM_INFO_QDEVICE_CAST_VOTE fl in
      let fl := bit (has_flag (flags n) NODE_FLAGS_QDEVICE_MASTER_WINS)
                  VOTEQUORUM_INFO_QDEVICE_MASTER_WINS fl in
      let fl := bit (has_flag (flags n) NODE_FLAGS_QDEVICE_EXTRA_INFO_SET)
                  VOTEQUORUM_INFO_QDEVICE_HAS_EXTRA_INFO fl in
      emit (ResponseGetinfo conn CS_OK
              (Some (mk_getinfo (nodestate_val (node_state n)) (votes n) (expected_votes n)
                       highest_expected (quorum s) total_votes fl (u32 (node_id n))
                       (qdevice_name s) (votes (qdevice_node s))))) s
  end.

Definition message_handler_req_lib_votequorum_setexpected (conn ev : Z) (s : vq) : vq :=
  let '(newquorum, total_votes) :=
    calculate_quorum true ev (s <| allow_downscale := 0 |>) in
  let '(error, s) :=
    if (ev <? total_votes) || (cluster_is_quorate s && (total_votes <? newquorum))
    then (CS_ERR_INVALID_PARAM, s)
    else
      let s := update_node_expected_votes ev s in
      let '(ret, s) := votequorum_exec_send_reconfigure VOTEQUORUM_RECONFIG_PARAM_EXPECTED_VOTES
                         (u32 (node_id (us_node s))) ev s in
      (if c_true ret then CS_ERR_NO_RESOURCES else CS_OK, s) in
  emit (ResponseStatus conn error) s.

Definition message_handler_req_lib_votequorum_setvotes (conn nodeid m_votes : Z) (s : vq) : vq :=
  let '(error, s) :=
    match find_node_by_nodeid s nodeid with
    | None => (CS_ERR_NAME_NOT_FOUND, s)
    | Some i =>
        let saved_votes := votes (node_at s i) in
        let s := upd_node i (fun n => n <| votes := m_votes |>) s in
        let '(newquorum, total_votes) := calculate_quorum true 0 s in
        if (newquorum <? total_votes / 2) || (total_votes <? newquorum)
        then (CS_ERR_INVALID_PARAM, upd_node i (fun n => n <| votes := saved_votes |>) s)
        else
          let '(ret, s) := votequorum_exec_send_reconfigure VOTEQUORUM_RECONFIG_PARAM_NODE_VOTES
                             nodeid m_votes s in
          (if c_true ret then CS_ERR_NO_RESOURCES else CS_OK, s)
    end in
  emit (ResponseStatus conn error) s.

Definition message_handler_req_lib_votequorum_trackstart (conn m_flags context : Z) (s : vq) : vq :=
  let s :=
    if has_flag m_flags CS_TRACK_CURRENT || has_flag m_flags CS_TRACK_CHANGES then
      let s := votequorum_exec_send_nodelist_notification (Some conn) context s in
      let s := votequorum_exec_send_quorum_notification (Some conn) context s in
      votequorum_exec_send_all_qdevice_extra_info_notification conn context s
    else s in
  if from_option tracking_enabled false (pds s !! conn)
  then emit (ResponseStatus conn CS_ERR_EXIST) s
  else
    let s :=
      if has_flag m_flags CS_TRACK_CHANGES || has_flag m_flags CS_TRACK_CHANGES_ONLY
      then s <| pds ::= <[conn := mk_pd (u8 m_flags) true context]> |>
             <| trackers_list ::= cons conn |>
      else s in
    emit (ResponseStatus conn CS_OK) s.

Definition message_handler_req_lib_votequorum_trackstop (conn : Z) (s : vq) : vq :=
  if from_option tracking_enabled false (pds s !! conn) then
    let s := s <| pds ::= alter (fun p => mk_pd (track_flags p) false (tracking_context p)) conn |>
               <| trackers_list ::= filter (fun c => c <> conn) |> in
    emit (ResponseStatus conn CS_OK) s
  else emit (ResponseStatus conn CS_ERR_NOT_EXIST) s.

Definition qdevice_registered (s : vq) : bool :=
  has_flag (flags (us_node s)) NODE_FLAGS_QDEVICE_REGISTERED.

Definition same_device (name : string) (s : vq) : bool :=
  strncmp_eq VOTEQUORUM_QDEVICE_MAX_NAME_LEN name (qdevice_name s).

Definition message_handler_req_lib_votequorum_qdevice_register (conn : Z) (name : string) (s : vq)
    : option vq :=
  if negb (c_true (qdevice_can_operate s)) then Some (emit (ResponseStatus conn CS_ERR_ACCESS) s)
  else if qdevice_registered s then
    Some (emit (ResponseStatus conn (if same_device name s then CS_OK else CS_ERR_EXIST)) s)
  else
    match qdevice_reg_conn s with
    | Some _ => Some (emit (ResponseStatus conn CS_ERR_TRY_AGAIN) s)
    | None =>
        '(ret, s) ← votequorum_exec_send_qdevice_reg VOTEQUORUM_QDEVICE_OPERATION_REGISTER name
                      (s <| qdevice_reg_conn := Some conn |>);
        Some (if c_true ret
              then emit (ResponseStatus conn CS_ERR_TRY_AGAIN) (s <| qdevice_reg_conn := None |>)
              else s)
    end.

Definition message_handler_req_lib_votequorum_qdevice_unregister (conn : Z) (name : string)
    (s : vq) : option vq :=
  if negb (qdevice_registered s) then Some (emit (ResponseStatus conn CS_ERR_NOT_EXIST) s)
  else if negb (same_device name s) then Some (emit (ResponseStatus conn CS_ERR_INVALID_PARAM) s)
  else
    let s := if qdevice_timer_set s
             then emit (TimerDelete TIMER_QDEVICE) s <| qdevice_timer_set := false |>
                    <| sync_wait_for_poll_or_timeout := false |>
             else s in
    let s := upd_us (fun n => n <| flags ::= clr_flag NODE_FLAGS_QDEVICE_REGISTERED |>
                                <| flags ::= clr_flag NODE_FLAGS_QDEVICE_ALIVE |>
                                <| flags ::= clr_flag NODE_FLAGS_QDEVICE_CAST_VOTE |>
                                <| flags ::= clr_flag NODE_FLAGS_QDEVICE_MASTER_WINS |>
                                <| flags ::= clr_flag NODE_FLAGS_QDEVICE_EXTRA_INFO_SET |>
                                <| ei_size := 0 |>) s in
    let s := snd (votequorum_exec_send_set_qdevice_extra_info (u32 (node_id (us_node s))) s) in
    let s := snd (votequorum_exec_send_nodeinfo (u32 (node_id (us_node s))) s) in
    '(_, s) ← votequorum_exec_send_qdevice_reg VOTEQUORUM_QDEVICE_OPERATION_UNREGISTER name s;
    Some (emit (ResponseStatus conn CS_OK) s).

Definition message_handler_req_lib_votequorum_qdevice_update (conn : Z) (oldname newname : string)
    (s : vq) : option vq :=
  if negb (qdevice_registered s) then Some (emit (ResponseStatus conn CS_ERR_NOT_EXIST) s)
  else if negb (same_device oldname s) then Some (emit (ResponseStatus conn CS_ERR_INVALID_PARAM) s)
  else '(_, s) ← votequorum_exec_send_qdevice_reconfigure oldname newname s;
       Some (emit (ResponseStatus conn CS_OK) s).

Definition message_handler_req_lib_votequorum_qdevice_poll (conn : Z) (name : string)
    (rid : ring_id) (cast_vote : Z) (s : vq) : vq :=
  if negb (c_true (qdevice_can_operate s)) then emit (ResponseStatus conn CS_ERR_ACCESS) s
  else if negb (qdevice_registered s) then emit (ResponseStatus conn CS_ERR_NOT_EXIST) s
  else if bool_decide (rid <> quorum_ringid s) then emit (ResponseStatus conn CS_ERR_MESSAGE_ERROR) s
  else if negb (same_device name s) then emit (ResponseStatus conn CS_ERR_INVALID_PARAM) s
  else
    let s := if qdevice_timer_set s
             then emit (TimerDelete TIMER_QDEVICE) s <| qdevice_timer_set := false |> else s in
    let oldflags := flags (us_node s) in
    let s := upd_us (fun n => n <| flags ::= set_flag NODE_FLAGS_QDEVICE_ALIVE |>
                                <| flags ::= if c_true cast_vote
                                             then set_flag NODE_FLAGS_QDEVICE_CAST_VOTE
                                             else clr_flag NODE_FLAGS_QDEVICE_CAST_VOTE |>) s in
    let s := if flags (us_node s) =? oldflags then s
             else snd (votequorum_exec_send_nodeinfo (u32 (node_id (us_node s))) s) in
    let s := emit (TimerAdd TIMER_QDEVICE (u64 (qdevice_timeout s * 1000000))) s
               <| qdevice_timer_set := true |> <| sync_wait_for_poll_or_timeout := false |> in
    emit (ResponseStatus conn CS_OK) s.

Definition message_handler_req_lib_votequorum_qdevice_master_wins (conn : Z) (name : string)
    (allow : Z) (s : vq) : vq :=
  if negb (c_true (qdevice_can_operate s)) then emit (ResponseStatus conn CS_ERR_ACCESS) s
  else if negb (qdevice_registered s) then emit (ResponseStatus conn CS_ERR_NOT_EXIST) s
  else if negb (same_device name s) then emit (ResponseStatus conn CS_ERR_INVALID_PARAM) s
  else
    let oldflags := flags (us_node s) in
    let s := upd_us (fun n => n <| flags ::= if c_true allow
                                             then set_flag NODE_FLAGS_QDEVICE_MASTER_WINS
                                             else clr_flag NODE_FLAGS_QDEVICE_MASTER_WINS |>) s in
    let s := if flags (us_node s) =? oldflags then s
             else snd (votequorum_exec_send_nodeinfo (u32 (node_id (us_node s))) s) in
    emit (ResponseStatus conn CS_OK) (update_qdevice_master_wins (u8 allow) s).

Definition message_handler_req_lib_votequorum_qdevice_set_extra_info (conn m_size : Z)
    (info : list Z) (s : vq) : vq :=
  if negb (c_true (qdevice_can_operate s)) then emit (ResponseStatus conn CS_ERR_ACCESS) s
  else if VOTEQUORUM_QDEVICE_EXTRA_NODEINFO_MAXSIZE <? m_size
       then emit (ResponseStatus conn CS_ERR_INVALID_PARAM) s
  else if negb (qdevice_registered s) then emit (ResponseStatus conn CS_ERR_NOT_EXIST) s
  else
    let s :=
      if m_size =? 0 then
        upd_us (fun n => n <| flags ::= clr_flag NODE_FLAGS_QDEVICE_EXTRA_INFO_SET |>
                           <| ei_size := 0 |>) s
      else
        upd_us (fun n => n <| ei_size := m_size |>
                           <| extra_nodeinfo ::= fun b => memcpy b info (Z.to_nat m_size) |>
                           <| flags ::= set_flag NODE_FLAGS_QDEVICE_EXTRA_INFO_SET |>) s in
    let s := snd (votequorum_exec_send_set_qdevice_extra_info (u32 (node_id (us_node s))) s) in
    emit (ResponseStatus conn CS_OK) s.

Definition message_handler_req_lib_votequorum_qdevice_get_extra_info (conn nodeid : Z) (s : vq) : vq :=
  if negb (c_true (qdevice_can_operate s)) then emit (ResponseExtraInfo conn CS_ERR_ACCESS None) s
  else
    match find_node_by_nodeid s nodeid with
    | None => emit (ResponseExtraInfo conn CS_ERR_NOT_EXIST None) s
    | Some i =>
        let n := node_at s i in
        emit (ResponseExtraInfo conn CS_OK
                (Some (if has_flag (flags n) NODE_FLAGS_QDEVICE_EXTRA_INFO_SET
                       then (ei_size n, take (Z.to_nat (ei_size n)) (extra_nodeinfo n))
                       else (0, [])))) s
    end.

(** ** The service as a state machine

    One event per entry point that corosync, the totem layer, the timers or a
    library client can call on the running service. *)
Inductive vq_event :=
| EvExec (m : exec_msg) (nodeid : Z)
| EvLmsTimer
| EvQdeviceTimer
| EvSyncInit (member_list : list Z) (rid : ring_id)
| EvSyncProcess
| EvSyncActivate
| EvSyncAbort
| EvRefreshConfig (cfg : icmap_view) (cancel_wfa0 : Z) (key : string)
| EvExit
| EvLibInit (conn : Z)
| EvLibExit (conn : Z)
| EvGetinfo (conn nodeid : Z)
| EvSetexpected (conn ev : Z)
| EvSetvotes (conn nodeid m_votes : Z)
| EvTrackstart (conn m_flags context : Z)
| EvTrackstop (conn : Z)
| EvQdeviceRegister (conn : Z) (name : string)
| EvQdeviceUnregister (conn : Z) (name : string)
| EvQdeviceUpdate (conn : Z) (oldname newname : string)
| EvQdevicePoll (conn : Z) (name : string) (rid : ring_id) (cast_vote : Z)
| EvQdeviceMasterWins (conn : Z) (name : string) (allow : Z)
| EvSetExtraInfo (conn m_size : Z) (info : list Z)
| EvGetExtraInfo (conn nodeid : Z).

Definition vq_step (e : vq_event) (s : vq) : option vq :=
  match e with
  | EvExec m nodeid => votequorum_exec_engine m nodeid s
  | EvLmsTimer => votequorum_last_man_standing_timer_fn s
  | EvQdeviceTimer => Some (qdevice_timer_fn s)
  | EvSyncInit ml rid => Some (votequorum_sync_init ml rid s)
  | EvSyncProcess => snd <$> votequorum_sync_process s
  | EvSyncActivate => votequorum_sync_activate s
  | EvSyncAbort => Some s
  | EvRefreshConfig cfg w key => Some (votequorum_refresh_config cfg w key s)
  | EvExit => Some (snd (votequorum_exec_exit_fn s))
  | EvLibInit conn => Some (quorum_lib_init_fn conn s)
  | EvLibExit conn => Some (quorum_lib_exit_fn conn s)
  | EvGetinfo conn id => Some (message_handler_req_lib_votequorum_getinfo conn id s)
  | EvSetexpected conn ev => Some (message_handler_req_lib_votequorum_setexpected conn ev s)
  | EvSetvotes conn id v => Some (message_handler_req_lib_votequorum_setvotes conn id v s)
  | EvTrackstart conn fl ctx => Some (message_handler_req_lib_votequorum_trackstart conn fl ctx s)
  | EvTrackstop conn => Some (message_handler_req_lib_votequorum_trackstop conn s)
  | EvQdeviceRegister conn name => message_handler_req_lib_votequorum_qdevice_register conn name s
  | EvQdeviceUnregister conn name =>
      message_handler_req_lib_votequorum_qdevice_unregister conn name s
  | EvQdeviceUpdate conn o n => message_handler_req_lib_votequorum_qdevice_update conn o n s
  | EvQdevicePoll conn name rid c =>
      Some (message_handler_req_lib_votequorum_qdevice_poll conn name rid c s)
  | EvQdeviceMasterWins conn name a =>
      Some (message_handler_req_lib_votequorum_qdevice_master_wins conn name a s)
  | EvSetExtraInfo conn size info =>
      Some (message_handler_req_lib_votequorum_qdevice_set_extra_info conn size info s)
  | EvGetExtraInfo conn id =>
      Some (message_handler_req_lib_votequorum_qdevice_get_extra_info conn id s)
  end.

Fixpoint vq_run (es : list vq_event) (s : vq) : option vq :=
  match es with
  | [] => Some s
  | e :: es' => s ← vq_step e s; vq_run es' s
  end.

End Handlers.
