(* ===== verification/VoteQuorumTheory.v ===== *)
(** * Votequorum: theory

    What [calculate_quorum] computes, who can be quorate at the same time, what
    the wait-for-all status guarantees, how ties are broken, what the node table
    keeps, and what configurations are accepted. *)
From S2P Require Import Prelude CString VoteQuorum VoteQuorumExec.

(** ** Frame lemmas *)

Lemma node_at_upd_same i f s :
  (i < length (cluster_nodes s))%nat -> node_at (upd_node i f s) i = f (node_at s i).
Proof.
  intros Hi. unfold node_at, upd_node. cbn. rewrite list_lookup_alter.
  rewrite decide_True by done.
  destruct (lookup_lt_is_Some_2 (cluster_nodes s) i Hi) as [n ->]. reflexivity.
Qed.

Lemma node_at_upd_other i j f s : i <> j -> node_at (upd_node i f s) j = node_at s j.
Proof. intros Hi. unfold node_at, upd_node. cbn. now rewrite list_lookup_alter_ne. Qed.

(** A projection that [f] keeps is kept by [upd_node], whatever the slot. *)
Lemma node_at_upd_proj {T} (p : cluster_node -> T) i j f s :
  (forall n, p (f n) = p n) -> p (node_at (upd_node i f s) j) = p (node_at s j).
Proof.
  intros Hp. unfold node_at, upd_node. cbn. rewrite list_lookup_alter.
  case_decide; [subst|reflexivity]. destruct (cluster_nodes s !! j); cbn; auto.
Qed.

Lemma members_upd_proj {T} (p : cluster_node -> T) i f s :
  (forall n, p (f n) = p n) ->
  map p (member_nodes (upd_node i f s)) = map p (member_nodes s).
Proof.
  intros Hp. unfold member_nodes. rewrite !map_map. apply map_ext. intros j.
  now apply node_at_upd_proj.
Qed.

(** ** Votes of the members *)

Definition voters (s : vq) : list cluster_node :=
  List.filter (fun n => is_member (node_state n)) (member_nodes s).

Definition highest (l : list cluster_node) : Z :=
  foldr (fun n acc => Z.max (expected_votes n) acc) 0 l.

Definition node_ok (n : cluster_node) : Prop := 0 <= votes n < 2 ^ 32 /\ 0 <= expected_votes n < 2 ^ 32.

Lemma highest_nonneg l : 0 <= highest l.
Proof. unfold highest. induction l; cbn; lia. Qed.

Lemma highest_ge l n : n ∈ l -> expected_votes n <= highest l.
Proof. unfold highest. induction 1; cbn; lia. Qed.

Lemma member_totals_gen l h t c :
  foldl (fun '(h, t, c) n =>
           if is_member (node_state n) then
             (Z.max h (expected_votes n), u32 (t + votes n), u32 (c + 1))
           else (h, t, c)) (h, u32 t, u32 c) l =
  let l' := List.filter (fun n => is_member (node_state n)) l in
  (foldl (fun h n => Z.max h (expected_votes n)) h l',
   u32 (t + sumZ votes l'), u32 (c + Z.of_nat (length l'))).
Proof.
  revert h t c. induction l as [|n l IH]; intros h t c; cbn.
  - unfold sumZ; cbn. now rewrite !Z.add_0_r.
  - destruct (is_member (node_state n)); cbn; [|apply IH].
    autorewrite with wrap. rewrite IH. cbn. unfold sumZ; cbn. f_equal; [|f_equal; lia].
    f_equal; f_equal; lia.
Qed.

Lemma foldl_max_highest l h : 0 <= h ->
  foldl (fun h n => Z.max h (expected_votes n)) h l = Z.max h (highest l).
Proof. revert h. induction l as [|n l IH]; intros h Hh; cbn; [lia|]. rewrite IH by lia. unfold highest. lia. Qed.

Lemma member_totals_spec s :
  member_totals (member_nodes s) =
  (highest (voters s), u32 (sumZ votes (voters s)), u32 (Z.of_nat (length (voters s)))).
Proof.
  unfold member_totals. pose proof (member_totals_gen (member_nodes s) 0 0 0) as H.
  change (u32 0) with 0 in H. rewrite H. cbn zeta. rewrite foldl_max_highest by lia.
  rewrite !Z.add_0_l. fold (voters s). pose proof (highest_nonneg (voters s)).
  now rewrite Z.max_r by lia.
Qed.

(** The votes a node counts: its members' and, while the device casts its vote,
    the device's. *)
Definition counted_votes (s : vq) : Z :=
  sumZ votes (voters s)
  + (if has_flag (flags (us_node s)) NODE_FLAGS_QDEVICE_CAST_VOTE then votes (qdevice_node s) else 0).

Definition counted_nodes (s : vq) : Z :=
  Z.of_nat (length (voters s))
  + (if has_flag (flags (us_node s)) NODE_FLAGS_QDEVICE_CAST_VOTE then 1 else 0).

(** The expected votes [calculate_quorum] works with. *)
Definition effective_expected (allow_decrease : bool) (max_expected : Z) (s : vq) : Z :=
  let m := if c_true (allow_downscale s) && allow_decrease && c_true max_expected
           then Z.max (ev_barrier s) max_expected else max_expected in
  if 0 <? m then m else highest (voters s).

Lemma calculate_quorum_total dec m s : snd (calculate_quorum dec m s) = u32 (counted_votes s).
Proof.
  unfold calculate_quorum, counted_votes. rewrite member_totals_spec.
  destruct (has_flag _ _); cbn; autorewrite with wrap; [reflexivity|now rewrite Z.add_0_r].
Qed.

(** The closed form of the quorum. *)
Lemma calculate_quorum_value dec m s :
  fst (calculate_quorum dec m s) =
  (if c_true (two_node s) && (u32 (counted_nodes s) <=? 2) then 1
   else
     let q := Z.max (u32 (effective_expected dec m s + 2) / 2) (u32 (counted_votes s + 2) / 2) in
     if dec then q else Z.max (quorum s) q).
Proof.
  unfold calculate_quorum, counted_votes, counted_nodes, effective_expected.
  rewrite member_totals_spec.
  destruct (has_flag _ _); cbn; rewrite ?Z.add_0_r; autorewrite with wrap; reflexivity.
Qed.

(** ** Well-formed node tables *)

(** [us] and [qdevice] point into the table, the member list holds [us] but not
    [qdevice], no slot twice, and only slots of the table. *)
Record table_wf (s : vq) : Prop := {
  wf_us : us s ∈ cluster_members_list s;
  wf_qdevice : (qdevice s < length (cluster_nodes s))%nat;
  wf_qdevice_out : qdevice s ∉ cluster_members_list s;
  wf_nodup : NoDup (cluster_members_list s);
  wf_slots : forall i, i ∈ cluster_members_list s -> (i < length (cluster_nodes s))%nat
}.

Lemma wf_us_slot s : table_wf s -> (us s < length (cluster_nodes s))%nat.
Proof. intros H. apply (wf_slots _ H), (wf_us _ H). Qed.

Lemma wf_us_qdevice s : table_wf s -> us s <> qdevice s.
Proof. intros H E. apply (wf_qdevice_out _ H). rewrite <- E. apply (wf_us _ H). Qed.

(** The part of the state that most operations leave alone. *)
Definition frame (s : vq) :=
  (us s, qdevice s, cluster_members_list s, node_id <$> cluster_nodes s,
   (wait_for_all s, wait_for_all_status s, wait_for_all_autoset s, cluster_is_quorate s),
   qdevice_name s).

Strategy 1000 [frame].

Definition table_shape (s : vq) := fst (fst (frame s)).

Lemma frame_wfa s a w st au q nm :
  frame s = (a, (w, st, au, q), nm) ->
  wait_for_all s = w /\ wait_for_all_status s = st /\ wait_for_all_autoset s = au
  /\ cluster_is_quorate s = q /\ qdevice_name s = nm.
Proof. unfold frame. intros H. repeat split; congruence. Qed.

Lemma table_wf_shape s s' : table_shape s' = table_shape s -> table_wf s -> table_wf s'.
Proof.
  unfold table_shape, frame. cbn. intros H [W1 W2 W3 W4 W5]. injection H as E1 E2 E3 E4.
  apply (f_equal length) in E4. rewrite !length_fmap in E4. split; rewrite ?E1, ?E2, ?E3, ?E4; done.
Qed.

Create Rewrite HintDb vq_frame.

Lemma vq_frame_emit e s : frame (emit e s) = frame s.
Proof. reflexivity. Qed.

Lemma alter_keeps {A B} (g : A -> B) (f : A -> A) (i : nat) (l : list A) : (forall n, g (f n) = g n) -> g <$> alter f i l = g <$> l.
Proof.
  intros Hf. revert i. induction l as [|n l IH]; intros [|i]; cbn; [done..| |]; f_equal; [apply Hf|apply IH].
Qed.

Lemma frame_upd_node i f s : (forall n, node_id (f n) = node_id n) -> frame (upd_node i f s) = frame s.
Proof. intros Hf. unfold frame. cbn. now rewrite alter_keeps. Qed.

Lemma frame_upd_us f s : (forall n, node_id (f n) = node_id n) -> frame (upd_us f s) = frame s.
Proof. apply frame_upd_node. Qed.

Lemma frame_foldl {A} (f : vq -> A -> vq) l s :
  (forall s a, frame (f s a) = frame s) -> frame (foldl f s l) = frame s.
Proof. intros Hf. revert s. induction l as [|a l IH]; intros s; cbn; [done|]. now rewrite IH, Hf. Qed.

Lemma frame_to_trackers mk s : frame (to_trackers mk s) = frame s.
Proof. now apply frame_foldl. Qed.

#[export] Hint Rewrite vq_frame_emit frame_to_trackers : vq_frame.
#[export] Hint Rewrite frame_upd_node frame_upd_us using (intros ?; reflexivity) : vq_frame.

(** [frame] of a state built by updates of fields outside the frame. *)
Ltac solve_frame :=
  autorewrite with vq_frame; try reflexivity;
  repeat (match goal with
          | |- context [if ?b then _ else _] => destruct b
          | |- context [match ?x with _ => _ end] => destruct x
          end; cbn; autorewrite with vq_frame; try reflexivity).

Lemma frame_update_node_expected_votes v s : frame (update_node_expected_votes v s) = frame s.
Proof.
  unfold update_node_expected_votes. destruct (c_true v); [|done].
  apply frame_foldl. intros s' i. solve_frame.
Qed.

Lemma frame_quorum_notification c ctx s :
  frame (votequorum_exec_send_quorum_notification c ctx s) = frame s.
Proof. unfold votequorum_exec_send_quorum_notification. solve_frame. Qed.

Lemma frame_nodelist_notification c ctx s :
  frame (votequorum_exec_send_nodelist_notification c ctx s) = frame s.
Proof. unfold votequorum_exec_send_nodelist_notification. solve_frame. Qed.

Lemma frame_expectedvotes_notification s :
  frame (votequorum_exec_send_expectedvotes_notification s) = frame s.
Proof. unfold votequorum_exec_send_expectedvotes_notification. solve_frame. Qed.

Lemma frame_update_ev_tracking_barrier v s : frame (update_ev_tracking_barrier v s) = frame s.
Proof. unfold update_ev_tracking_barrier. solve_frame. Qed.

Lemma frame_send_nodeinfo tm id s : frame (snd (votequorum_exec_send_nodeinfo tm id s)) = frame s.
Proof. unfold votequorum_exec_send_nodeinfo, mcast. solve_frame. Qed.

Lemma frame_send_extra_info tm id s :
  frame (snd (votequorum_exec_send_set_qdevice_extra_info tm id s)) = frame s.
Proof. unfold votequorum_exec_send_set_qdevice_extra_info, mcast. solve_frame. Qed.

#[export] Hint Rewrite frame_update_node_expected_votes frame_quorum_notification
  frame_nodelist_notification frame_expectedvotes_notification frame_update_ev_tracking_barrier
  frame_send_nodeinfo frame_send_extra_info : vq_frame.

(** ** The quorum decision *)

Lemma frame_decide_quorate t s : frame (snd (decide_quorate t s)) = frame s.
Proof. unfold decide_quorate. destruct (t <? quorum s); reflexivity. Qed.

Lemma frame_update_wfa st s :
  frame (update_wait_for_all_status st s) =
  (us s, qdevice s, cluster_members_list s, node_id <$> cluster_nodes s,
   (wait_for_all s, st, wait_for_all_autoset s, cluster_is_quorate s), qdevice_name s).
Proof.
  unfold update_wait_for_all_status. rewrite vq_frame_emit.
  destruct (c_true st); (rewrite frame_upd_us by (intros ?; reflexivity)); reflexivity.
Qed.

Lemma frame_apply_quorate q s :
  frame (apply_quorate q s) =
  (us s, qdevice s, cluster_members_list s, node_id <$> cluster_nodes s,
   (wait_for_all s, if c_true (wait_for_all s) then b2z (negb q) else wait_for_all_status s,
    wait_for_all_autoset s, q), qdevice_name s).
Proof.
  unfold apply_quorate. cbn zeta.
  match goal with |- frame (if ?b then _ else _) = _ => destruct b end;
    autorewrite with vq_frame;
    match goal with |- context [wait_for_all ?s1] => change (wait_for_all s1) with (wait_for_all s) end;
    (destruct (c_true (wait_for_all s)) eqn:E;
     [rewrite frame_update_wfa | rewrite frame_upd_us by (intros ?; reflexivity)]; cbn;
     (rewrite ?(alter_keeps node_id) by (intros ?; reflexivity)); rewrite ?E; reflexivity).
Qed.

(** A pending wait-for-all status means that the feature is on and that the
    node is not quorate: what the [assert] of [are_we_quorate] relies on. *)
Definition wfa_inv (s : vq) : Prop :=
  c_true (wait_for_all_status s) = true ->
  c_true (wait_for_all s) = true /\ cluster_is_quorate s = false.

Lemma wfa_inv_frame s s' : frame s' = frame s -> wfa_inv s -> wfa_inv s'.
Proof.
  unfold wfa_inv. intros (-> & -> & _ & -> & _)%frame_wfa. done.
Qed.

Lemma table_wf_frame s s' : frame s' = frame s -> table_wf s -> table_wf s'.
Proof. intros H. apply table_wf_shape. unfold table_shape. now rewrite H. Qed.

(** Invariant of the running service. *)
Record vq_inv (s : vq) : Prop := {
  inv_table : table_wf s;
  inv_wfa : wfa_inv s;
  inv_name : name_fits (qdevice_name s) = true
}.

Lemma vq_inv_frame s s' : frame s' = frame s -> vq_inv s -> vq_inv s'.
Proof.
  intros H [? ? ?]. split; [eapply table_wf_frame|eapply wfa_inv_frame|]; eauto.
  apply frame_wfa in H as (_ & _ & _ & _ & ->). done.
Qed.

Create HintDb vq discriminated.
#[export] Hint Resolve wf_us_slot wf_us_qdevice wf_qdevice wf_slots wf_us wf_nodup : vq.

Lemma vq_inv_update_wfa0 s : vq_inv s -> vq_inv (update_wait_for_all_status 0 s).
Proof.
  intros [Hwf _ Hn]. pose proof (frame_update_wfa 0 s) as H. split.
  - apply (table_wf_shape s); [|done]. unfold table_shape. now rewrite H.
  - apply frame_wfa in H as (_ & E & _). intros Hs. now rewrite E in Hs.
  - apply frame_wfa in H as (_ & _ & _ & _ & ->). done.
Qed.

Lemma vq_inv_apply_quorate q s :
  table_wf s -> (c_true (wait_for_all s) = false -> c_true (wait_for_all_status s) = false) ->
  name_fits (qdevice_name s) = true -> vq_inv (apply_quorate q s).
Proof.
  intros Hwf Hst Hn. pose proof (frame_apply_quorate q s) as H. split.
  - apply (table_wf_shape s); [|done]. unfold table_shape. now rewrite H.
  - apply frame_wfa in H as (Ew & Es & _ & Eq & _). intros Hs. rewrite Es in Hs.
    rewrite Ew, Eq. destruct (c_true (wait_for_all s)) eqn:E; [|rewrite Hst in Hs; done].
    destruct q; done.
  - apply frame_wfa in H as (_ & _ & _ & _ & ->). done.
Qed.

Lemma are_we_quorate_inv t s :
  vq_inv s -> exists s', are_we_quorate t s = Some s' /\ vq_inv s'.
Proof.
  intros Hinv. unfold are_we_quorate.
  destruct (c_true (wait_for_all s) && c_true (wait_for_all_status s)
            && negb (t =? expected_votes (us_node s))) eqn:E.
  - zbool. destruct (inv_wfa _ Hinv) as [_ ->]; [done|]. eauto.
  - set (s1 := if c_true (wait_for_all s) && c_true (wait_for_all_status s) then _ else _).
    assert (Hs1 : vq_inv s1)
      by (clear E; subst s1; destruct (_ && _); [apply vq_inv_update_wfa0|]; exact Hinv).
    clearbody s1. pose proof (frame_decide_quorate t s1) as Hf.
    destruct (decide_quorate t s1) as [q s2]. cbn in Hf.
    eexists. split; [reflexivity|].
    pose proof (vq_inv_frame _ _ Hf Hs1) as [Hwf Hw Hn]. apply vq_inv_apply_quorate; [done| |done].
    intros Hoff. unfold wfa_inv in Hw. destruct (c_true (wait_for_all_status s2)); [|done].
    destruct Hw as [Hon _]; congruence.
Qed.

(** The state [recalculate_quorum] hands to [are_we_quorate]. *)
Definition recalc_expected (s : vq) : vq :=
  let s :=
    if expected_votes (us_node s) <? fst (get_total_votes s) then
      votequorum_exec_send_expectedvotes_notification
        (upd_us (fun n => n <| expected_votes := fst (get_total_votes s) |>) s)
    else s in
  if c_true (ev_tracking s) && (ev_tracking_barrier s <? expected_votes (us_node s))
  then update_ev_tracking_barrier (expected_votes (us_node s)) s else s.

Lemma recalculate_quorum_eq dec by_cur s :
  recalculate_quorum dec by_cur s =
  let m := if by_cur then snd (get_total_votes s) else 0 in
  let r := calculate_quorum dec m (recalc_expected s) in
  are_we_quorate (snd r)
    (update_node_expected_votes m (recalc_expected s <| quorum := u8 (fst r) |>)).
Proof.
  unfold recalculate_quorum, recalc_expected. destruct (get_total_votes s) as [t c]. cbn [fst snd].
  destruct by_cur;
    (match goal with |- context [calculate_quorum ?d ?m ?st] => destruct (calculate_quorum d m st) end;
     reflexivity).
Qed.

Lemma frame_recalc_expected s : frame (recalc_expected s) = frame s.
Proof.
  unfold recalc_expected. cbn zeta.
  match goal with |- frame (if ?b then _ else _) = _ => destruct b end;
    autorewrite with vq_frame; destruct (_ <? _); autorewrite with vq_frame; reflexivity.
Qed.

Lemma recalculate_quorum_inv dec by_cur s :
  vq_inv s -> exists s', recalculate_quorum dec by_cur s = Some s' /\ vq_inv s'.
Proof.
  intros Hinv. rewrite recalculate_quorum_eq. cbn zeta. apply are_we_quorate_inv.
  eapply vq_inv_frame; [|exact Hinv]. rewrite frame_update_node_expected_votes.
  apply frame_recalc_expected.
Qed.

(** ** What a recalculation depends on *)

(** The state up to the log and the tracking barrier, which no decision reads. *)
Definition quiet (s : vq) : vq := s <| out := [] |> <| ev_tracking_barrier := 0 |>.

Lemma quiet_to_trackers mk s : quiet (to_trackers mk s) = quiet s.
Proof.
  unfold to_trackers. generalize (trackers_list s) as l. intros l. revert s.
  induction l as [|c l IH]; intros s; cbn; [done|]. now rewrite IH.
Qed.

Lemma quiet_update_ev_tracking_barrier v s : quiet (update_ev_tracking_barrier v s) = quiet s.
Proof. unfold update_ev_tracking_barrier. destruct (ev_tracking_fd _); reflexivity. Qed.

(** [recalc_expected] only raises the expected votes of this node. *)
Definition raise_expected (s : vq) : vq :=
  if expected_votes (us_node s) <? fst (get_total_votes s)
  then upd_us (fun n => n <| expected_votes := fst (get_total_votes s) |>) s else s.

Lemma quiet_recalc_expected s : quiet (recalc_expected s) = quiet (raise_expected s).
Proof.
  unfold recalc_expected, raise_expected. cbn zeta.
  match goal with |- quiet (if ?b then _ else _) = _ => destruct b end;
    rewrite ?quiet_update_ev_tracking_barrier; destruct (_ <? _);
    unfold votequorum_exec_send_expectedvotes_notification; rewrite ?quiet_to_trackers; done.
Qed.

Lemma calculate_quorum_quiet dec m s : calculate_quorum dec m (quiet s) = calculate_quorum dec m s.
Proof. reflexivity. Qed.

Lemma decide_quorate_plain t s :
  auto_tie_breaker s = ATB_NONE -> c_true (qdevice_master_wins s) = false ->
  fst (decide_quorate t s) = negb (t <? quorum s).
Proof.
  intros Ha Hm. unfold decide_quorate. destruct (t <? quorum s); cbn; rewrite Ha, Hm; reflexivity.
Qed.

(** Without tie breaker and master-wins, only votes make a node quorate. *)
Lemma are_we_quorate_votes t s s' :
  auto_tie_breaker s = ATB_NONE -> c_true (qdevice_master_wins s) = false ->
  are_we_quorate t s = Some s' -> cluster_is_quorate s' = true -> quorum s <= t.
Proof.
  intros Ha Hm. unfold are_we_quorate.
  destruct (_ && _ && _).
  - destruct (cluster_is_quorate s) eqn:E; intros; simplify_eq; congruence.
  - set (s1 := if _ && _ then _ else _).
    assert (Hs1 : auto_tie_breaker s1 = ATB_NONE /\ c_true (qdevice_master_wins s1) = false
                  /\ quorum s1 = quorum s).
    { subst s1. destruct (_ && _); [|done]. unfold update_wait_for_all_status. done. }
    destruct Hs1 as (Ha1 & Hm1 & <-). clearbody s1.
    pose proof (decide_quorate_plain t s1 Ha1 Hm1) as Hd.
    destruct (decide_quorate t s1) as [q s2]. cbn in Hd. intros [= <-] Hq.
    pose proof (frame_apply_quorate q s2) as (_ & _ & _ & Eq & _)%frame_wfa.
    rewrite Eq in Hq. subst q. destruct (Z.ltb_spec t (quorum s1)); done.
Qed.

Lemma quiet_update_node_expected_votes v s :
  cluster_is_quorate (update_node_expected_votes v s) = cluster_is_quorate s
  /\ quorum (update_node_expected_votes v s) = quorum s
  /\ auto_tie_breaker (update_node_expected_votes v s) = auto_tie_breaker s
  /\ qdevice_master_wins (update_node_expected_votes v s) = qdevice_master_wins s.
Proof.
  unfold update_node_expected_votes. destruct (c_true v); [|done].
  generalize (cluster_members_list s) as l. intros l. revert s.
  induction l as [|i l IH]; intros s; cbn; [done|].
  destruct (IH (if is_member (node_state (node_at s i))
                then upd_node i (fun n => n <| expected_votes := v |>) s else s)) as (-> & -> & -> & ->).
  destruct (is_member _); done.
Qed.

Lemma recalculate_quorum_votes dec by_cur s s' :
  auto_tie_breaker s = ATB_NONE -> c_true (qdevice_master_wins s) = false ->
  recalculate_quorum dec by_cur s = Some s' -> cluster_is_quorate s' = true ->
  let m := if by_cur then snd (get_total_votes s) else 0 in
  u8 (fst (calculate_quorum dec m (raise_expected s)))
  <= snd (calculate_quorum dec m (raise_expected s)).
Proof.
  intros Ha Hm. rewrite recalculate_quorum_eq. cbn zeta.
  set (m := if by_cur then _ else _). intros Hr Hq.
  rewrite <- (calculate_quorum_quiet dec m (raise_expected s)), <- quiet_recalc_expected,
    calculate_quorum_quiet.
  pose proof (quiet_recalc_expected s) as Hs. set (s1 := recalc_expected s) in *.
  assert (Ha1 : auto_tie_breaker s1 = ATB_NONE).
  { change (auto_tie_breaker (quiet s1) = ATB_NONE). rewrite Hs. unfold raise_expected.
    destruct (_ <? _); exact Ha. }
  assert (Hm1 : c_true (qdevice_master_wins s1) = false).
  { change (c_true (qdevice_master_wins (quiet s1)) = false). rewrite Hs. unfold raise_expected.
    destruct (_ <? _); exact Hm. }
  pose proof (quiet_update_node_expected_votes m
    (s1 <| quorum := u8 (fst (calculate_quorum dec m s1)) |>)) as (_ & E1 & E2 & E3).
  eapply are_we_quorate_votes in Hr; [|now rewrite E2|now rewrite E3|exact Hq].
  now rewrite E1 in Hr.
Qed.

(** [sumZ votes (voters s)] reads only the states and votes of the members. *)
Lemma voters_votes_map s :
  sumZ votes (voters s) =
  sumZ snd (List.filter (fun p => is_member (fst p))
              (map (fun n => (node_state n, votes n)) (member_nodes s))).
Proof.
  unfold voters. induction (member_nodes s) as [|n l IH]; cbn; [done|].
  destruct (is_member (node_state n)); unfold sumZ in *; cbn; lia.
Qed.

Lemma voters_count_map s :
  length (voters s) =
  length (List.filter (fun st => is_member st) (map node_state (member_nodes s))).
Proof.
  unfold voters. induction (member_nodes s) as [|n l IH]; cbn; [done|].
  destruct (is_member (node_state n)); cbn; congruence.
Qed.

(** An update that keeps state, votes and flags of the nodes keeps the count. *)
Lemma counted_upd_node i f s :
  (forall n, node_state (f n) = node_state n) -> (forall n, votes (f n) = votes n) ->
  (forall n, flags (f n) = flags n) ->
  counted_votes (upd_node i f s) = counted_votes s
  /\ counted_nodes (upd_node i f s) = counted_nodes s.
Proof.
  intros Hs Hv Hf. unfold counted_votes, counted_nodes, us_node, qdevice_node.
  rewrite !voters_votes_map, !voters_count_map, !members_upd_proj by (intros; congruence).
  change (us (upd_node i f s)) with (us s). change (qdevice (upd_node i f s)) with (qdevice s).
  rewrite (node_at_upd_proj flags) by done. rewrite (node_at_upd_proj votes) by done. done.
Qed.

Lemma counted_raise_expected s :
  counted_votes (raise_expected s) = counted_votes s
  /\ counted_nodes (raise_expected s) = counted_nodes s.
Proof.
  unfold raise_expected. destruct (_ <? _); [|done]. now apply counted_upd_node.
Qed.

Lemma voters_in s i :
  i ∈ cluster_members_list s -> node_state (node_at s i) = NODESTATE_MEMBER ->
  node_at s i ∈ voters s.
Proof.
  intros Hi Hst. unfold voters. apply list_elem_of_In, filter_In. split.
  - apply in_map. now apply list_elem_of_In.
  - unfold is_member. now rewrite Hst.
Qed.

Lemma highest_raise_ge s :
  table_wf s -> node_state (us_node s) = NODESTATE_MEMBER ->
  expected_votes (us_node s) <= highest (voters (raise_expected s)).
Proof.
  intros Hwf Hst. unfold raise_expected. destruct (Z.ltb_spec (expected_votes (us_node s)) (fst (get_total_votes s))).
  - set (s1 := upd_us _ s).
    assert (E : node_at s1 (us s) = us_node s <| expected_votes := fst (get_total_votes s) |>).
    { unfold s1, upd_us, us_node. apply node_at_upd_same. auto with vq. }
    trans (expected_votes (node_at s1 (us s))); [rewrite E; cbn; lia|].
    apply highest_ge, voters_in; [exact (wf_us _ Hwf)|]. now rewrite E.
  - apply highest_ge. apply voters_in; [exact (wf_us _ Hwf)|done].
Qed.

(** The votes of every device and member are small enough for the 8 bits in
    which the quorum is kept. *)
Record small_cluster (s : vq) : Prop := {
  sc_wf : table_wf s;
  sc_us : node_state (us_node s) = NODESTATE_MEMBER;
  sc_voters : forall n, n ∈ voters s -> 0 <= votes n /\ 0 <= expected_votes n <= 508;
  sc_qdevice : 0 <= votes (qdevice_node s);
  sc_total : sumZ votes (voters s) + votes (qdevice_node s) <= 508;
  sc_quorum : 0 <= quorum s < 256
}.

Lemma get_total_votes_gen l t c :
  foldl (fun '(t, c) n =>
           if is_member (node_state n) then (u32 (t + votes n), u32 (c + 1)) else (t, c))
    (u32 t, u32 c) l =
  let l' := List.filter (fun n => is_member (node_state n)) l in
  (u32 (t + sumZ votes l'), u32 (c + Z.of_nat (length l'))).
Proof.
  revert t c. induction l as [|n l IH]; intros t c; cbn.
  - unfold sumZ; cbn. now rewrite !Z.add_0_r.
  - destruct (is_member (node_state n)); cbn; [|apply IH].
    autorewrite with wrap. rewrite IH. cbn. unfold sumZ; cbn. f_equal; f_equal; lia.
Qed.

Lemma get_total_votes_spec s :
  fst (get_total_votes s) = u32 (sumZ votes (voters s) + votes (qdevice_node s)).
Proof.
  unfold get_total_votes. pose proof (get_total_votes_gen (member_nodes s) 0 0) as H.
  change (u32 0) with 0 in H. rewrite H. cbn zeta. rewrite !Z.add_0_l. fold (voters s).
  unfold c_true. destruct (Z.eqb_spec (votes (qdevice_node s)) 0) as [E|E]; cbn.
  - now rewrite E, Z.add_0_r.
  - now autorewrite with wrap.
Qed.

Lemma counted_votes_bound s : small_cluster s -> 0 <= counted_votes s <= 508.
Proof.
  intros H. unfold counted_votes. pose proof (sc_total _ H). pose proof (sc_qdevice _ H).
  assert (0 <= sumZ votes (voters s)) by (apply sumZ_nonneg; intros n Hn; now apply (sc_voters _ H)).
  destruct (has_flag _ _); lia.
Qed.

Lemma highest_le l b : 0 <= b -> (forall n, n ∈ l -> expected_votes n <= b) -> highest l <= b.
Proof.
  intros Hb. unfold highest. induction l as [|n l IH]; cbn; intros H; [lia|].
  pose proof (H n ltac:(left)). assert (foldr (fun n acc => Z.max (expected_votes n) acc) 0 l <= b).
  { apply IH. intros x Hx. apply H. now right. } lia.
Qed.

Lemma highest_raise_le s : small_cluster s -> highest (voters (raise_expected s)) <= 508.
Proof.
  intros H. apply highest_le; [lia|]. intros n Hn.
  unfold raise_expected in Hn. destruct (_ <? _); [|now apply (sc_voters _ H)].
  unfold voters in Hn. apply list_elem_of_In, filter_In in Hn as [Hn Hm].
  apply in_map_iff in Hn as (i & <- & Hi). apply list_elem_of_In in Hi.
  change (i ∈ cluster_members_list s) in Hi.
  destruct (decide (us s = i)) as [<-|Hne].
  - unfold upd_us. rewrite node_at_upd_same by (apply wf_us_slot, (sc_wf _ H)). cbn.
    rewrite get_total_votes_spec. pose proof (sc_total _ H). pose proof (sc_qdevice _ H).
    assert (0 <= sumZ votes (voters s))
      by (apply sumZ_nonneg; intros n Hn; now apply (sc_voters _ H)).
    rewrite u32_small; lia.
  - unfold upd_us in *. rewrite node_at_upd_other in * by done.
    apply (sc_voters _ H). apply voters_in; [done|].
    unfold is_member in Hm. now apply bool_decide_eq_true in Hm.
Qed.

(** No tie breaker, no master-wins, no two-node mode. *)
Definition plain (s : vq) : Prop :=
  auto_tie_breaker s = ATB_NONE /\ c_true (qdevice_master_wins s) = false
  /\ c_true (two_node s) = false.

(** The ballots a node counts: its members' and the device's when it votes. *)
Definition ballots (s : vq) : list (Z * Z) :=
  map (fun n => (node_id n, votes n)) (voters s)
  ++ (if has_flag (flags (us_node s)) NODE_FLAGS_QDEVICE_CAST_VOTE
      then [(VOTEQUORUM_QDEVICE_NODEID, votes (qdevice_node s))] else []).

Lemma counted_votes_ballots s : counted_votes s = sumZ snd (ballots s).
Proof.
  unfold counted_votes, ballots. rewrite sumZ_app. f_equal.
  - unfold sumZ. induction (voters s); cbn; congruence.
  - destruct (has_flag _ _); unfold sumZ; cbn; lia.
Qed.

Lemma half_up_gt x : x < 2 * ((x + 2) / 2).
Proof. pose proof (Z.div_mod (x + 2) 2 ltac:(lia)). pose proof (Z.mod_pos_bound (x + 2) 2 ltac:(lia)). lia. Qed.

Lemma half_up_le x b : x < 2 * b -> (x + 2) / 2 <= b.
Proof. intros. enough ((x + 2) / 2 < b + 1) by lia. apply Z.div_lt_upper_bound; lia. Qed.

(** A node that a recalculation makes quorate counts more than half of the
    votes it expects. *)
Lemma quorate_majority dec s s' :
  small_cluster s -> plain s ->
  recalculate_quorum dec false s = Some s' -> cluster_is_quorate s' = true ->
  expected_votes (us_node s) < 2 * counted_votes s.
Proof.
  intros Hs (Ha & Hm & Ht) Hr Hq. pose proof (recalculate_quorum_votes _ _ _ _ Ha Hm Hr Hq) as H.
  cbn zeta in H. rewrite calculate_quorum_total, calculate_quorum_value in H.
  pose proof (counted_votes_bound _ Hs). pose proof (highest_raise_le _ Hs).
  pose proof (highest_raise_ge _ (sc_wf _ Hs) (sc_us _ Hs)).
  pose proof (highest_nonneg (voters (raise_expected s))).
  rewrite (proj1 (counted_raise_expected s)) in H.
  assert (E2 : two_node (raise_expected s) = two_node s) by (unfold raise_expected; destruct (_ <? _); done).
  assert (E3 : quorum (raise_expected s) = quorum s) by (unfold raise_expected; destruct (_ <? _); done).
  rewrite E2, Ht, E3 in H. unfold effective_expected in H.
  rewrite !andb_false_r in H. cbn in H. pose proof (sc_quorum _ Hs).
  rewrite !(u32_small (_ + 2)), (u32_small (counted_votes s)) in H by lia.
  set (h := highest (voters (raise_expected s))) in *.
  pose proof (half_up_gt h). pose proof (half_up_le h 255 ltac:(lia)).
  pose proof (half_up_le (counted_votes s) 255 ltac:(lia)).
  pose proof (half_up_gt (counted_votes s)).
  rewrite u8_small in H by (destruct dec; lia). destruct dec; lia.
Qed.

(** C3: Two nodes cannot both be quorate when their members are disjoint parts
    of one cluster: if the ballots the two nodes count are together among the
    ballots of a cluster whose votes do not exceed what either node expects, then
    recalculating the quorum never makes both quorate.  This holds with and
    without wait-for-all, for any previous quorum, under these conditions: no
    feature that overrules the votes (auto tie breaker, master-wins of the device,
    two-node) is on; the votes of the whole cluster, the device included, do not
    exceed the expected votes of either node; votes and expected votes are at most
    508, so that the 8-bit quorum does not wrap; and the quorum is that of the
    expected votes, not that of the current nodes as after the last-man-standing
    timer.  With two-node both parts of a cluster of two are quorate on purpose. *)
Theorem no_split_brain (cluster : list (Z * Z)) dec1 dec2 s1 s1' s2 s2' :
  small_cluster s1 -> plain s1 -> small_cluster s2 -> plain s2 ->
  (forall b, b ∈ cluster -> 0 <= snd b) ->
  ballots s1 ++ ballots s2 ⊆+ cluster ->
  sumZ snd cluster <= expected_votes (us_node s1) ->
  sumZ snd cluster <= expected_votes (us_node s2) ->
  recalculate_quorum dec1 false s1 = Some s1' ->
  recalculate_quorum dec2 false s2 = Some s2' ->
  ~ (cluster_is_quorate s1' = true /\ cluster_is_quorate s2' = true).
Proof.
  intros H1 P1 H2 P2 Hc Hsub E1 E2 R1 R2 [Q1 Q2].
  apply (quorate_majority _ _ _ H1 P1 R1) in Q1. apply (quorate_majority _ _ _ H2 P2 R2) in Q2.
  rewrite counted_votes_ballots in Q1, Q2.
  apply (sumZ_submseteq snd) in Hsub; [|done]. rewrite sumZ_app in Hsub. lia.
Qed.

(** *** A three-node cluster to evaluate on *)

Definition demo_cfg (pos : Z) : icmap_view :=
  mk_icmap_view (fun _ => None)
    (fun k => if String.eqb k "nodelist.local_node_pos" then Some pos else None)
    (fun _ => None) (fun _ => None)
    (fun _ => ["nodelist.node.0.nodeid"; "nodelist.node.0.ring0_addr";
               "nodelist.node.1.nodeid"; "nodelist.node.2.nodeid"]%string).

Definition demo_mcast (_ : vq) (_ : exec_msg) : Z := 0.

(** Node [id] just after [votequorum_exec_init_fn]. *)
Definition demo_node (id : Z) : vq :=
  match votequorum_exec_init_fn demo_mcast (demo_cfg (id - 1)) None true id vq_static with
  | Some (inr s) => s
  | _ => vq_static
  end.

(** The same after a nodeinfo message of node [id], one vote, three expected. *)
Definition demo_join (id : Z) (s : vq) : vq :=
  default s (message_handler_req_exec_votequorum_nodeinfo id 1 3 0 id s).

Definition demo_recalc (s : vq) : vq := default s (recalculate_quorum false false s).

Ltac check_small :=
  split; [split; [by_compute|by_compute|by_compute|by_compute|by_compute_forall]
         |by_compute|by_compute_forall|by_compute|by_compute|by_compute].

Lemma no_split_brain_witness :
  (cluster_is_quorate (demo_recalc (demo_join 2 (demo_node 1))) = true)
  /\ ~ (cluster_is_quorate (demo_recalc (demo_join 2 (demo_node 1))) = true
        /\ cluster_is_quorate (demo_recalc (demo_node 3)) = true).
Proof.
  split; [vm_compute; reflexivity|].
  apply (no_split_brain [(1, 1); (2, 1); (3, 1)] false false (demo_join 2 (demo_node 1)) _ (demo_node 3) _).
  - check_small.
  - by_compute.
  - check_small.
  - by_compute.
  - by_compute_forall.
  - by_compute.
  - by_compute.
  - by_compute.
  - vm_compute. reflexivity.
  - vm_compute. reflexivity.
Defined.
