(* ===== verification/VoteQuorumInv.v ===== *)
(** * Votequorum: the invariant of the running service

    Every entry point of the service keeps the node table well formed and the
    wait-for-all status consistent, and never fails an assertion, as long as the
    environment keeps its side: names that fit their buffers, senders that are
    known, room (or a dead node) in the node table. *)
From S2P Require Import Prelude CString VoteQuorum VoteQuorumExec VoteQuorumTheory.

(** ** The node table *)

Lemma list_insert_before_perm new pos l :
  pos ∈ l -> list_insert_before new pos l ≡ₚ new :: l.
Proof.
  induction l as [|i l IH]; intros H; [set_solver|]. cbn.
  destruct (Nat.eqb_spec i pos); [done|].
  rewrite IH by set_solver. apply Permutation_swap.
Qed.

Lemma add_ordered_target_in s newid l node pos :
  add_ordered_target s newid l node = Some pos -> pos ∈ l \/ node = Some pos.
Proof.
  revert node. induction l as [|i l IH]; intros node H; cbn in H; [auto|].
  destruct (_ <? _); [simplify_eq; left; left|].
  destruct (IH _ H) as [?|?]; [left; now right|simplify_eq; left; left].
Qed.

Lemma add_ordered_target_none s newid l node :
  add_ordered_target s newid l node = None -> l = [] /\ node = None.
Proof.
  revert node. induction l as [|i l IH]; intros node H; cbn in H; [auto|].
  destruct (_ <? _); [done|]. now apply IH in H as [? ?].
Qed.

(** [node_add_ordered] adds exactly the new slot to the member list. *)
Lemma node_add_ordered_members new s :
  cluster_members_list (node_add_ordered new s) ≡ₚ new :: cluster_members_list s.
Proof.
  unfold node_add_ordered.
  destruct (add_ordered_target _ _ _ _) eqn:E; cbn; [|done].
  apply add_ordered_target_in in E as [E|E]; [|done]. now apply list_insert_before_perm.
Qed.

Lemma node_add_ordered_rest new s :
  us (node_add_ordered new s) = us s /\ qdevice (node_add_ordered new s) = qdevice s
  /\ cluster_nodes (node_add_ordered new s) = cluster_nodes s
  /\ snd (fst (frame (node_add_ordered new s))) = snd (fst (frame s))
  /\ qdevice_name (node_add_ordered new s) = qdevice_name s.
Proof. unfold node_add_ordered. destruct (add_ordered_target _ _ _ _); done. Qed.

(** What [table_wf] asks of a table to which [new] is about to be added. *)
Lemma table_wf_add new s :
  (us s = new \/ us s ∈ cluster_members_list s) ->
  (qdevice s < length (cluster_nodes s))%nat -> qdevice s <> new ->
  qdevice s ∉ cluster_members_list s ->
  NoDup (cluster_members_list s) -> new ∉ cluster_members_list s ->
  (new < length (cluster_nodes s))%nat ->
  (forall i, i ∈ cluster_members_list s -> (i < length (cluster_nodes s))%nat) ->
  table_wf (node_add_ordered new s).
Proof.
  intros Hus Hq Hqn Hqm Hnd Hnew Hlen Hsl.
  pose proof (node_add_ordered_members new s) as Hp.
  destruct (node_add_ordered_rest new s) as (Eu & Eq & En & _).
  split; rewrite ?Eu, ?Eq, ?En, ?Hp; try done.
  - rewrite elem_of_cons. naive_solver.
  - rewrite not_elem_of_cons. done.
  - now constructor.
  - intros i. rewrite Hp, elem_of_cons. naive_solver.
Qed.

Lemma find_dead_spec s l cl :
  match find_dead s l cl with
  | (Some i, true) => i ∈ l /\ node_state (node_at s i) = NODESTATE_DEAD
  | (_, false) => forall i, i ∈ l -> node_state (node_at s i) <> NODESTATE_DEAD
  | (None, true) => False
  end.
Proof.
  revert cl. induction l as [|i l IH]; intros cl; cbn.
  - destruct cl; intros; set_solver.
  - destruct (bool_decide_reflect (node_state (node_at s i) = NODESTATE_DEAD)).
    + split; [left|done].
    + specialize (IH (Some i)). destruct (find_dead s l (Some i)) as [[j|] []]; set_solver.
Qed.

Lemma find_dead_some s l i : exists j b, find_dead s l (Some i) = (Some j, b).
Proof. revert i. induction l as [|k l IH]; intros i; cbn; [eauto|]. case_bool_decide; eauto. Qed.

(** Room for one more node: a free slot, or a dead member whose slot is reused. *)
Definition table_room (s : vq) : Prop :=
  (length (cluster_nodes s) <= PROCESSOR_COUNT_MAX + 1)%nat
  \/ exists i, i ∈ cluster_members_list s /\ node_state (node_at s i) = NODESTATE_DEAD.

Lemma allocate_node_ok nodeid s :
  table_wf s -> table_room s -> nodeid <> VOTEQUORUM_QDEVICE_NODEID ->
  exists i s', allocate_node nodeid s = Some (Some i, s') /\ table_wf s'
    /\ snd (fst (frame s')) = snd (fst (frame s)) /\ qdevice_name s' = qdevice_name s
    /\ i ∈ cluster_members_list s' /\ node_at s' i = zero_node <| node_id := s32 nodeid |>
    /\ us s' = us s.
Proof.
  intros Hwf Hroom Hid. unfold allocate_node. apply Z.eqb_neq in Hid. rewrite Hid.
  assert (Hgen : forall i s1, table_wf (node_add_ordered i s1) ->
    (i < length (cluster_nodes s1))%nat -> cluster_nodes s1 !! i = Some (zero_node <| node_id := s32 nodeid |>) ->
    snd (fst (frame s1)) = snd (fst (frame s)) -> qdevice_name s1 = qdevice_name s -> us s1 = us s ->
    let s' := node_add_ordered i s1 in
    table_wf s' /\ snd (fst (frame s')) = snd (fst (frame s)) /\ qdevice_name s' = qdevice_name s
    /\ i ∈ cluster_members_list s' /\ node_at s' i = zero_node <| node_id := s32 nodeid |>
    /\ us s' = us s).
  { intros i s1 Hw Hi Hl Hf Hn Hu. destruct (node_add_ordered_rest i s1) as (Eu & Eq & En & Ef & Enm).
    cbn zeta. rewrite Ef, Enm, Eu. split_and!; try done.
    - rewrite node_add_ordered_members. left.
    - unfold node_at. now rewrite En, Hl. }
  destruct (Nat.leb_spec (length (cluster_nodes s)) (PROCESSOR_COUNT_MAX + 1)).
  - eexists _, _. split; [reflexivity|]. apply Hgen; try done.
    + destruct Hwf as [W1 W2 W3 W4 W5].
      apply table_wf_add; cbn; rewrite ?length_alter, ?length_app; cbn; try done; try lia; auto.
      * intros Hin. apply W5 in Hin. lia.
      * intros i Hi. apply W5 in Hi. lia.
    + cbn. rewrite length_alter, length_app. cbn. lia.
    + cbn. rewrite list_lookup_alter_eq, lookup_app_r, Nat.sub_diag by lia. done.
  - destruct Hroom as [?|(d & Hd & Hdead)]; [lia|].
    pose proof (find_dead_spec s (cluster_members_list s) None) as Hspec.
    destruct (find_dead s (cluster_members_list s) None) as [[i|] [|]];
      [|by destruct (Hspec d Hd)|done|by destruct (Hspec d Hd)].
    destruct Hspec as [Hi _]. eexists _, _. split; [reflexivity|].
    pose proof (wf_slots _ Hwf _ Hi). apply Hgen; try done.
    + destruct Hwf as [W1 W2 W3 W4 W5].
      apply table_wf_add; cbn; rewrite ?length_alter; try done.
      * destruct (decide (us s = i)); [by left|right]. apply list_elem_of_filter. done.
      * intros E. apply W3. cbn in E. rewrite E. done.
      * rewrite list_elem_of_filter. by intros [_ ?].
      * by apply NoDup_filter.
      * rewrite list_elem_of_filter. by intros [? _].
      * intros j. rewrite list_elem_of_filter. intros [_ Hj]. exact (W5 _ Hj).
    + cbn. now rewrite length_alter.
    + cbn. rewrite list_lookup_alter_eq.
      destruct (lookup_lt_is_Some_2 (cluster_nodes s) i) as [n ->]; done.
Qed.

(** ** Handlers that keep the frame *)

(** Peel updates of fields outside the frame off the state, splitting on the
    branches as they come up. *)
Ltac peel_frame :=
  repeat first
    [ match goal with |- ?x = ?x => reflexivity end
    | match goal with
      | |- frame (if ?b then _ else _) = _ => destruct b
      | |- frame (match ?b with _ => _ end) = _ => destruct b
      | |- frame (upd ?p ?f ?t) = ?r =>
          transitivity (frame t); [generalize t; intros ?; reflexivity|]
      end
    | progress autorewrite with vq_frame
    | progress cbn [snd] ].

Lemma frame_nodeinfo_set_state i v fl s : frame (nodeinfo_set_state i v fl s) = frame s.
Proof. unfold nodeinfo_set_state. peel_frame. Qed.

Lemma frame_nodeinfo_set_expected i ev fl s : frame (nodeinfo_set_expected i ev fl s) = frame s.
Proof. unfold nodeinfo_set_expected. peel_frame. Qed.

Lemma frame_nodeinfo_check_lms i s : frame (nodeinfo_check_lms i s) = frame s.
Proof. unfold nodeinfo_check_lms. peel_frame. Qed.

Lemma frame_nodeinfo_update i v ev fl s : frame (snd (nodeinfo_update i v ev fl s)) = frame s.
Proof.
  unfold nodeinfo_update. cbn [snd].
  now rewrite frame_nodeinfo_check_lms, frame_nodeinfo_set_expected, frame_nodeinfo_set_state.
Qed.

Lemma frame_mark_left_nodes ml s : frame (snd (mark_left_nodes ml s)) = frame s.
Proof.
  unfold mark_left_nodes. generalize (quorum_members s) as l. intros l.
  generalize false as b. revert s. induction l as [|m l IH]; intros s b; cbn; [done|].
  destruct (existsb _ _); [apply IH|]. rewrite IH.
  destruct (find_node_by_nodeid s m); now autorewrite with vq_frame.
Qed.

#[export] Hint Rewrite frame_nodeinfo_update frame_mark_left_nodes : vq_frame.

Lemma frame_sync_init ml rid s : frame (votequorum_sync_init ml rid s) = frame s.
Proof.
  unfold votequorum_sync_init. cbn zeta.
  set (s0 := if 1 <? _ then _ else _).
  assert (H0 : frame s0 = frame s) by (subst s0; peel_frame). clearbody s0.
  pose proof (frame_mark_left_nodes ml s0) as H1.
  destruct (mark_left_nodes ml s0) as [b s1]. cbn in H1. rewrite <- H0, <- H1. peel_frame.
Qed.

Lemma frame_qdevice_timer tm s : frame (qdevice_timer_fn tm s) = frame s.
Proof. unfold qdevice_timer_fn. peel_frame. Qed.

Lemma frame_exit tm s : frame (snd (votequorum_exec_exit_fn tm s)) = frame s.
Proof.
  unfold votequorum_exec_exit_fn. destruct (c_true (allow_downscale s)).
  - cbn zeta. set (s1 := upd_us _ s).
    pose proof (frame_send_nodeinfo tm (u32 (node_id (us_node s1))) s1) as H.
    destruct (votequorum_exec_send_nodeinfo _ _ _) as [r s2]. cbn in H |- *.
    rewrite <- (frame_upd_us (fun n => n <| flags ::= set_flag NODE_FLAGS_LEAVING |>) s) by (intros ?; reflexivity).
    fold s1. rewrite <- H. peel_frame.
  - cbn. peel_frame.
Qed.

Lemma frame_getinfo c id s : frame (message_handler_req_lib_votequorum_getinfo c id s) = frame s.
Proof.
  unfold message_handler_req_lib_votequorum_getinfo. cbn zeta. rewrite member_totals_spec.
  peel_frame.
Qed.

Lemma frame_setexpected tm c ev s :
  frame (message_handler_req_lib_votequorum_setexpected tm c ev s) = frame s.
Proof.
  unfold message_handler_req_lib_votequorum_setexpected, votequorum_exec_send_reconfigure, mcast.
  destruct (calculate_quorum _ _ _). destruct (_ || _); peel_frame.
Qed.

Lemma frame_setvotes tm c id v s :
  frame (message_handler_req_lib_votequorum_setvotes tm c id v s) = frame s.
Proof.
  unfold message_handler_req_lib_votequorum_setvotes, votequorum_exec_send_reconfigure, mcast.
  destruct (find_node_by_nodeid s id); [|peel_frame].
  cbn zeta. destruct (calculate_quorum _ _ _). destruct (_ || _); peel_frame.
Qed.

Lemma frame_extra_info_notifications c ctx s :
  frame (votequorum_exec_send_all_qdevice_extra_info_notification c ctx s) = frame s.
Proof.
  apply frame_foldl. intros s' i. cbn zeta.
  destruct (has_flag (flags (node_at s' i)) _); [|done].
  destruct (fill_extra_info_notification (node_at s' i)) as [[? ?] ?]. peel_frame.
Qed.

Lemma frame_extra_info_notification id s :
  frame (snd (votequorum_exec_send_qdevice_extra_info_notification id s)) = frame s.
Proof.
  unfold votequorum_exec_send_qdevice_extra_info_notification.
  destruct (find_node_by_nodeid s id) as [i|]; [|done].
  destruct (fill_extra_info_notification (node_at s i)) as [[? ?] ?]. cbn. peel_frame.
Qed.

#[export] Hint Rewrite frame_extra_info_notifications frame_extra_info_notification : vq_frame.

Lemma frame_trackstart c fl ctx s :
  frame (message_handler_req_lib_votequorum_trackstart c fl ctx s) = frame s.
Proof. unfold message_handler_req_lib_votequorum_trackstart. peel_frame. Qed.

Lemma frame_trackstop c s : frame (message_handler_req_lib_votequorum_trackstop c s) = frame s.
Proof. unfold message_handler_req_lib_votequorum_trackstop. peel_frame. Qed.

Lemma frame_poll tm c nm rid cv s :
  frame (message_handler_req_lib_votequorum_qdevice_poll tm c nm rid cv s) = frame s.
Proof. unfold message_handler_req_lib_votequorum_qdevice_poll. peel_frame. Qed.

Lemma frame_master_wins tm c nm a s :
  frame (message_handler_req_lib_votequorum_qdevice_master_wins tm c nm a s) = frame s.
Proof.
  unfold message_handler_req_lib_votequorum_qdevice_master_wins, update_qdevice_master_wins.
  peel_frame.
Qed.

Lemma frame_set_extra_info tm c sz info s :
  frame (message_handler_req_lib_votequorum_qdevice_set_extra_info tm c sz info s) = frame s.
Proof. unfold message_handler_req_lib_votequorum_qdevice_set_extra_info. peel_frame. Qed.

Lemma frame_get_extra_info c id s :
  frame (message_handler_req_lib_votequorum_qdevice_get_extra_info c id s) = frame s.
Proof. unfold message_handler_req_lib_votequorum_qdevice_get_extra_info. peel_frame. Qed.

Lemma frame_exec_extra_info sz info id s :
  frame (message_handler_req_exec_votequorum_qdevice_set_extra_info sz info id s) = frame s.
Proof. unfold message_handler_req_exec_votequorum_qdevice_set_extra_info. peel_frame. Qed.

(** ** Handlers that recalculate the quorum *)

Ltac keep_frame := eapply vq_inv_frame; [|eassumption]; peel_frame.

Lemma vq_inv_name s s' nm :
  fst (frame s') = fst (frame s) -> qdevice_name s' = nm -> name_fits nm = true ->
  vq_inv s -> vq_inv s'.
Proof.
  intros Hf Hn Hfit [Hw Ha _]. split.
  - apply (table_wf_shape s); [|done]. unfold table_shape. now rewrite Hf.
  - unfold wfa_inv, frame in *. cbn in Hf. injection Hf as ? ? ? ? E1 E2 E3 E4.
    rewrite E1, E2, E4. done.
  - now rewrite Hn.
Qed.

Lemma reconfigure_inv p id v s :
  vq_inv s -> exists s', message_handler_req_exec_votequorum_reconfigure p id v s = Some s' /\ vq_inv s'.
Proof.
  intros Hinv. unfold message_handler_req_exec_votequorum_reconfigure.
  destruct (p =? VOTEQUORUM_RECONFIG_PARAM_EXPECTED_VOTES).
  { apply recalculate_quorum_inv. unfold update_ev_barrier. keep_frame. }
  destruct (p =? VOTEQUORUM_RECONFIG_PARAM_NODE_VOTES).
  { destruct (find_node_by_nodeid s id); [|eauto]. apply recalculate_quorum_inv. keep_frame. }
  destruct (p =? VOTEQUORUM_RECONFIG_PARAM_CANCEL_WFA); [|eauto].
  apply recalculate_quorum_inv. now apply vq_inv_update_wfa0.
Qed.

(** The sender of a message about the quorum device has a record. *)
Definition known_sender (sender : Z) (s : vq) : Prop := is_Some (find_node_by_nodeid s sender).

Lemma find_qdevice s : exists i, find_node_by_nodeid s VOTEQUORUM_QDEVICE_NODEID = Some i.
Proof. unfold find_node_by_nodeid. destruct (_ =? _); cbn; eauto. Qed.

Lemma nodeinfo_inv id v ev fl sender s :
  vq_inv s -> (id = VOTEQUORUM_QDEVICE_NODEID -> known_sender sender s) ->
  (find_node_by_nodeid s id = None -> table_room s) ->
  exists s', message_handler_req_exec_votequorum_nodeinfo id v ev fl sender s = Some s' /\ vq_inv s'.
Proof.
  intros Hinv Hsender Hroom. unfold message_handler_req_exec_votequorum_nodeinfo.
  assert (Hnode : exists i new s1,
    match find_node_by_nodeid s id with
    | Some i => Some (Some i, false, s)
    | None => '(node, s) ← allocate_node id s; Some (node, true, s)
    end = Some (Some i, new, s1) /\ vq_inv s1 /\ (new = false -> s1 = s)
    /\ (new = true -> id <> VOTEQUORUM_QDEVICE_NODEID)).
  { destruct (find_node_by_nodeid s id) as [i|] eqn:E; [exists i, false, s; auto|].
    assert (Hid : id <> VOTEQUORUM_QDEVICE_NODEID).
    { intros ->. destruct (find_qdevice s) as [? ?]. congruence. }
    destruct (allocate_node_ok id s (inv_table _ Hinv) (Hroom eq_refl) Hid)
      as (i & s1 & -> & Hw & Hf & Hn & _).
    exists i, true, s1. split; [done|]. split; [|done].
    destruct Hinv as [_ Ha Hfit]. split; [done| |now rewrite Hn].
    unfold wfa_inv, frame in *. cbn in Hf. injection Hf as E1 E2 E3 E4. rewrite E1, E2, E4. done. }
  destruct Hnode as (i & new & s1 & -> & Hinv1 & Hold & Hnew). cbn [mbind option_bind].
  destruct (if new then _ else _) as [[[ov oe] ost] ofl].
  assert (Hupd : exists dn bn s2,
    (if id =? VOTEQUORUM_QDEVICE_NODEID then
       s ← nodeinfo_update_qdevice i v sender s1; Some (false, false, s)
     else Some (nodeinfo_update i v ev fl s1)) = Some (dn, bn, s2) /\ vq_inv s2).
  { destruct (Z.eqb_spec id VOTEQUORUM_QDEVICE_NODEID) as [Hid|Hid].
    - destruct new; [by destruct (Hnew eq_refl)|]. rewrite (Hold eq_refl) in *.
      unfold nodeinfo_update_qdevice. destruct (Hsender Hid) as [j ->]. cbn.
      eexists _, _, _. split; [reflexivity|]. keep_frame.
    - destruct (nodeinfo_update i v ev fl s1) as [[dn bn] s2] eqn:E.
      eexists _, _, _. split; [reflexivity|]. eapply vq_inv_frame; [|exact Hinv1].
      rewrite <- (frame_nodeinfo_update i v ev fl s1). now rewrite E. }
  destruct Hupd as (dn & bn & s2 & -> & Hinv2). cbn [mbind option_bind].
  match goal with |- context [if ?c then recalculate_quorum _ _ _ else _] => destruct c end.
  - destruct (recalculate_quorum_inv dn bn s2 Hinv2) as (s3 & -> & Hinv3). cbn [mbind option_bind].
    eexists. split; [reflexivity|]. destruct (_ && _); [now apply vq_inv_update_wfa0|done].
  - cbn [mbind option_bind]. eexists. split; [reflexivity|].
    destruct (_ && _); [now apply vq_inv_update_wfa0|done].
Qed.

Lemma qdevice_reg_inv tm op nm id s :
  vq_inv s -> name_fits nm = true ->
  vq_inv (message_handler_req_exec_votequorum_qdevice_reg tm op nm id s).
Proof.
  intros Hinv Hfit. unfold message_handler_req_exec_votequorum_qdevice_reg.
  assert (Hset : vq_inv (s <| qdevice_name := nm |>)) by (apply (vq_inv_name s _ nm); done).
  destruct (op =? VOTEQUORUM_QDEVICE_OPERATION_REGISTER).
  - destruct (negb _); [destruct (c_true _); done|]. destruct (has_flag _ _); [done|].
    destruct (qdevice_reg_conn s); [|done]. cbn zeta.
    set (s1 := if c_true _ then s else _).
    assert (Hinv1 : vq_inv s1) by (subst s1; destruct (c_true _); done). clearbody s1.
    destruct (strncmp_eq _ _ _); keep_frame.
  - destruct (op =? VOTEQUORUM_QDEVICE_OPERATION_UNREGISTER); [|done].
    destruct (existsb _ _); [done|]. apply (vq_inv_name s _ ""); done.
Qed.

Lemma sync_send_nodeinfo_inv tm s :
  vq_inv s -> exists s', sync_send_nodeinfo tm s = Some s' /\ vq_inv s'.
Proof.
  intros Hinv. unfold sync_send_nodeinfo.
  set (s1 := snd (votequorum_exec_send_nodeinfo tm (u32 (node_id (us_node s))) s)).
  assert (H1 : vq_inv s1) by (subst s1; keep_frame). clearbody s1.
  set (s2 := if has_flag (flags (us_node s1)) _ then _ else _).
  assert (H2 : vq_inv s2) by (subst s2; keep_frame). clearbody s2.
  set (s3 := snd (votequorum_exec_send_nodeinfo tm VOTEQUORUM_QDEVICE_NODEID s2)).
  assert (H3 : vq_inv s3) by (subst s3; keep_frame). clearbody s3. cbn zeta.
  unfold votequorum_exec_send_qdevice_reg. rewrite (inv_name _ H3).
  destruct (c_true (strlen (qdevice_name s3))); cbn [mbind option_bind mcast];
    (eexists; split; [reflexivity|]; keep_frame).
Qed.

Lemma sync_process_inv tm s :
  vq_inv s -> exists r s', votequorum_sync_process tm s = Some (r, s') /\ vq_inv s'.
Proof.
  intros Hinv. unfold votequorum_sync_process.
  destruct (sync_nodeinfo_sent s); [cbn; eauto|].
  destruct (sync_send_nodeinfo_inv tm s Hinv) as (s1 & -> & H1). cbn [mbind option_bind]. eauto.
Qed.

Lemma sync_activate_inv s :
  vq_inv s -> exists s', votequorum_sync_activate s = Some s' /\ vq_inv s'.
Proof.
  intros Hinv. unfold votequorum_sync_activate.
  destruct (recalculate_quorum_inv false false s Hinv) as (s1 & -> & Hinv1).
  cbn [mbind option_bind]. eexists. split; [reflexivity|]. keep_frame.
Qed.

Lemma lms_timer_inv s :
  vq_inv s -> exists s', votequorum_last_man_standing_timer_fn s = Some s' /\ vq_inv s'.
Proof.
  intros Hinv. unfold votequorum_last_man_standing_timer_fn. cbn zeta.
  assert (H : vq_inv (s <| last_man_standing_timer_set := false |>)) by keep_frame.
  destruct (cluster_is_quorate _); [now apply recalculate_quorum_inv|eauto].
Qed.

Lemma register_inv tm c nm s :
  vq_inv s -> name_fits nm = true ->
  exists s', message_handler_req_lib_votequorum_qdevice_register tm c nm s = Some s' /\ vq_inv s'.
Proof.
  intros Hinv Hfit. unfold message_handler_req_lib_votequorum_qdevice_register.
  destruct (negb _); [eexists; split; [reflexivity|keep_frame]|].
  destruct (qdevice_registered s); [eexists; split; [reflexivity|keep_frame]|].
  destruct (qdevice_reg_conn s); [eexists; split; [reflexivity|keep_frame]|].
  unfold votequorum_exec_send_qdevice_reg, mcast. rewrite Hfit. cbn [mbind option_bind].
  eexists; split; [reflexivity|]. destruct (c_true _); keep_frame.
Qed.

Lemma unregister_inv tm c nm s :
  vq_inv s -> name_fits nm = true ->
  exists s', message_handler_req_lib_votequorum_qdevice_unregister tm c nm s = Some s' /\ vq_inv s'.
Proof.
  intros Hinv Hfit. unfold message_handler_req_lib_votequorum_qdevice_unregister.
  destruct (negb _); [eexists; split; [reflexivity|keep_frame]|].
  destruct (negb _); [eexists; split; [reflexivity|keep_frame]|].
  unfold votequorum_exec_send_qdevice_reg, mcast. rewrite Hfit. cbn [mbind option_bind].
  eexists; split; [reflexivity|]. keep_frame.
Qed.

Lemma update_inv tm c o n s :
  vq_inv s -> name_fits o = true -> name_fits n = true ->
  exists s', message_handler_req_lib_votequorum_qdevice_update tm c o n s = Some s' /\ vq_inv s'.
Proof.
  intros Hinv Ho Hn. unfold message_handler_req_lib_votequorum_qdevice_update.
  destruct (negb _); [eexists; split; [reflexivity|keep_frame]|].
  destruct (negb _); [eexists; split; [reflexivity|keep_frame]|].
  unfold votequorum_exec_send_qdevice_reconfigure, mcast. rewrite Ho, Hn. cbn [andb mbind option_bind].
  eexists; split; [reflexivity|]. keep_frame.
Qed.

(** ** Configuration changes *)

Lemma frame_reset s : frame (readconfig_reset s) = frame s.
Proof. unfold readconfig_reset. peel_frame. Qed.

Lemma frame_qdevice_configured cfg s :
  frame (snd (votequorum_qdevice_is_configured cfg s)) = frame s.
Proof.
  unfold votequorum_qdevice_is_configured, update_qdevice_can_operate.
  destruct (icmap_get_string cfg "quorum.device.model") as [m|]; [|done].
  destruct (c_true (strlen m)); [|done]. cbn [snd]. peel_frame.
Qed.

Lemma frame_gather cfg rt s : frame (snd (readconfig_gather cfg rt s)) = frame s.
Proof.
  unfold readconfig_gather.
  assert (H : frame (if rt then readconfig_reset s else s) = frame s)
    by (destruct rt; [apply frame_reset|done]).
  rewrite <- H. generalize (if rt then readconfig_reset s else s). clear. intros s.
  pose proof (frame_qdevice_configured cfg s) as H.
  destruct (votequorum_qdevice_is_configured cfg s) as [[b v] s1]. cbn [snd] in *.
  rewrite <- H. peel_frame.
Qed.

Lemma frame_conflict rt e c r s s' :
  (forall s0, r = inr s0 -> frame s0 = frame s) ->
  qdevice_conflict rt e c r = inr s' -> frame s' = frame s.
Proof.
  intros Hr. unfold qdevice_conflict. destruct r as [|s0]; [done|]. specialize (Hr s0 eq_refl).
  destruct c; [destruct rt|]; intros [= <-]; [|done].
  unfold update_qdevice_can_operate. rewrite <- Hr. peel_frame.
Qed.

Lemma frame_conflicts rt hn hq nc ne qv ev s s' :
  readconfig_conflicts rt hn hq nc ne qv ev s = inr s' -> frame s' = frame s.
Proof.
  unfold readconfig_conflicts. cbn zeta.
  repeat (apply frame_conflict; intros ?). congruence.
Qed.

Lemma readconfig_modes_frame ne s s' :
  readconfig_modes ne s = inr s' ->
  exists w, frame s' = (us s, qdevice s, cluster_members_list s, node_id <$> cluster_nodes s,
    (w, wait_for_all_status s, wait_for_all_autoset s, cluster_is_quorate s), qdevice_name s)
    /\ (wait_for_all_autoset s = false -> w = wait_for_all s).
Proof.
  unfold readconfig_modes. intros H. exists (wait_for_all s').
  destruct (wait_for_all_autoset s) eqn:Ea; cbn zeta in H;
    destruct (_ && c_true _); simplify_eq; destruct (_ && _); destruct (_ && _);
    cbn; unfold frame; cbn; rewrite ?Ea; done.
Qed.

Lemma frame_set_votes cfg nl hq qv ne ev s : frame (readconfig_set_votes cfg nl hq qv ne ev s) = frame s.
Proof. unfold readconfig_set_votes. peel_frame. Qed.

Lemma readconfig_apply_eq cfg rt nl hq qv ev s :
  exists s1, frame s1 = frame s /\ readconfig_apply cfg rt nl hq qv ev s = readconfig_wfa_status rt s1.
Proof.
  unfold readconfig_apply.
  match goal with |- context [let '(_, _) := ?x in _] => destruct x as [qv' ne'] end.
  eexists. split; [|reflexivity]. unfold update_two_node, update_ev_barrier.
  now rewrite !vq_frame_emit, <- (frame_set_votes cfg nl hq qv' ne'
    (if c_true (ev_tracking s) then ev_tracking_barrier s else ev) s).
Qed.

Lemma readconfig_apply_frame cfg nl hq qv ev s :
  exists s1, frame s1 = frame s /\
    readconfig_apply cfg true nl hq qv ev s =
    if c_true (wait_for_all s1) then s1
    else if wait_for_all_autoset s1 && c_true (wait_for_all_status s1)
         then update_wait_for_all_status 0 s1 else s1.
Proof. exact (readconfig_apply_eq _ _ _ _ _ _ _). Qed.

(** The end of a reload: the status is reset when wait-for-all is switched off
    with two-node mode. *)
Lemma reload_wfa_inv w s1 s5 :
  vq_inv s1 ->
  frame s5 = (us s1, qdevice s1, cluster_members_list s1, node_id <$> cluster_nodes s1,
    (w, wait_for_all_status s1, wait_for_all_autoset s1, cluster_is_quorate s1), qdevice_name s1) ->
  (wait_for_all_autoset s1 = false -> w = wait_for_all s1) ->
  vq_inv (if c_true (wait_for_all s5) then s5
          else if wait_for_all_autoset s5 && c_true (wait_for_all_status s5)
               then update_wait_for_all_status 0 s5 else s5).
Proof.
  intros [Hw1 Ha1 Hn1] Hf Hwfa.
  assert (Hw5 : table_wf s5)
    by (apply (table_wf_shape s1); [unfold table_shape; now rewrite Hf|done]).
  apply frame_wfa in Hf as (F1 & F2 & F3 & F4 & F5). rewrite F1, F2, F3.
  unfold wfa_inv in Ha1.
  destruct (c_true w) eqn:Eon.
  - split; [done| |now rewrite F5]. intros Hs. rewrite F2 in Hs. rewrite F1, F4.
    split; [done|]. now apply Ha1.
  - destruct (wait_for_all_autoset s1 && c_true (wait_for_all_status s1)) eqn:Er.
    + pose proof (frame_update_wfa 0 s5) as Hu. split.
      * apply (table_wf_shape s5); [|done]. unfold table_shape. now rewrite Hu.
      * apply frame_wfa in Hu as (_ & E & _). intros Hs. now rewrite E in Hs.
      * apply frame_wfa in Hu as (_ & _ & _ & _ & ->). now rewrite F5.
    + split; [done| |now rewrite F5]. intros Hs. rewrite F2 in Hs. rewrite Hs, andb_true_r in Er.
      destruct (Ha1 Hs) as [Hon _]. rewrite (Hwfa Er) in Eon. congruence.
Qed.

(** A reload that reports no error keeps the invariant. *)
Lemma readconfig_runtime_inv cfg st cc s s' :
  vq_inv s -> votequorum_readconfig cfg st cc true s = (None, s') -> vq_inv s'.
Proof.
  intros Hinv. unfold votequorum_readconfig. cbn zeta.
  pose proof (frame_gather cfg true s) as Hg.
  destruct (readconfig_gather cfg true s) as [[hq qv] s0]. cbn [snd] in Hg.
  assert (Hinv0 : vq_inv s0) by (eapply vq_inv_frame; eauto). clear Hg Hinv.
  destruct (_ && _); [congruence|]. rewrite andb_false_r.
  set (s1 := readconfig_two_node_qdevice hq s0).
  assert (Hinv1 : vq_inv s1).
  { subst s1. unfold readconfig_two_node_qdevice, update_qdevice_can_operate. keep_frame. }
  clearbody s1. clear Hinv0 s0.
  destruct (readconfig_modes _ s1) as [[e s2]|s2] eqn:Em; [done|].
  destruct (readconfig_conflicts _ _ _ _ _ _ _ s2) as [[e s3]|s3] eqn:Ec; [done|].
  intros [= <-]. apply frame_conflicts in Ec. apply readconfig_modes_frame in Em as (w & Em & Hw).
  destruct (readconfig_apply_frame cfg (votequorum_read_nodelist_configuration cfg) hq qv
    (or_keep (icmap_get_uint32 cfg "quorum.expected_votes") 0) s3) as (s5 & H5 & ->).
  apply (reload_wfa_inv w s1); [done| |done]. now rewrite H5, Ec.
Qed.

(** ** Every event *)

(** What the environment must respect for each event. *)
Definition event_ok (e : vq_event) (s : vq) : Prop :=
  match e with
  | EvExec (NODEINFO id _ _ _) sender =>
      (id = VOTEQUORUM_QDEVICE_NODEID -> known_sender sender s)
      /\ (find_node_by_nodeid s id = None -> table_room s)
  | EvExec (QDEVICE_REG _ nm) _ => name_fits nm = true
  | EvExec (QDEVICE_RECONFIGURE _ nm) _ => name_fits nm = true
  | EvRefreshConfig cfg _ _ => fst (votequorum_readconfig cfg None false true s) = None
  | EvQdeviceRegister _ nm | EvQdeviceUnregister _ nm => name_fits nm = true
  | EvQdeviceUpdate _ o n => name_fits o = true /\ name_fits n = true
  | _ => True
  end.

Lemma refresh_inv tm cfg w key s :
  vq_inv s -> fst (votequorum_readconfig cfg None false true s) = None ->
  vq_inv (votequorum_refresh_config tm cfg w key s).
Proof.
  intros Hinv Hok. unfold votequorum_refresh_config. cbn zeta.
  destruct (c_true _); [done|]. destruct (_ && _); [done|].
  destruct (_ && _); [unfold votequorum_exec_send_reconfigure, mcast; keep_frame|].
  destruct (votequorum_readconfig cfg None false true s) as [e s1] eqn:E. cbn in Hok. subst e.
  apply readconfig_runtime_inv in E; [|done]. cbn [snd].
  set (s2 := snd (votequorum_exec_send_nodeinfo tm (u32 (node_id (us_node s1))) s1)).
  assert (H2 : vq_inv s2) by (subst s2; keep_frame). clearbody s2.
  set (s3 := snd (votequorum_exec_send_nodeinfo tm VOTEQUORUM_QDEVICE_NODEID s2)).
  assert (H3 : vq_inv s3) by (subst s3; keep_frame). clearbody s3.
  set (s4 := if votes (us_node s3) =? votes (us_node s) then _ else _).
  assert (H4 : vq_inv s4) by (subst s4; unfold votequorum_exec_send_reconfigure, mcast; keep_frame).
  clearbody s4. unfold votequorum_exec_send_reconfigure, mcast. keep_frame.
Qed.

Lemma exec_engine_inv tm m id s :
  vq_inv s -> event_ok (EvExec m id) s ->
  exists s', votequorum_exec_engine tm m id s = Some s' /\ vq_inv s'.
Proof.
  intros Hinv Hok. destruct m; cbn [votequorum_exec_engine event_ok] in *.
  - destruct Hok. now apply nodeinfo_inv.
  - now apply reconfigure_inv.
  - eexists. split; [reflexivity|]. now apply qdevice_reg_inv.
  - eexists. split; [reflexivity|].
    unfold message_handler_req_exec_votequorum_qdevice_reconfigure.
    destruct (strcmp_eq _ _); [|done]. now apply (vq_inv_name s _ newname).
  - eexists. split; [reflexivity|]. eapply vq_inv_frame; [apply frame_exec_extra_info|done].
Qed.

Create Rewrite HintDb vq_frame_handlers.
#[export] Hint Rewrite frame_qdevice_timer frame_sync_init frame_exit frame_getinfo
  frame_setexpected frame_setvotes frame_trackstart frame_trackstop frame_poll
  frame_master_wins frame_set_extra_info frame_get_extra_info : vq_frame_handlers.

Lemma vq_step_ok tm e s :
  vq_inv s -> event_ok e s -> exists s', vq_step tm e s = Some s' /\ vq_inv s'.
Proof.
  intros Hinv Hok. destruct e; cbn [vq_step event_ok] in *;
    try (eexists; split; [reflexivity|]; eapply vq_inv_frame; [|exact Hinv];
         autorewrite with vq_frame_handlers; reflexivity).
  - now apply exec_engine_inv.
  - now apply lms_timer_inv.
  - destruct (sync_process_inv tm s Hinv) as (r & s' & -> & ?). eexists. split; [reflexivity|done].
  - now apply sync_activate_inv.
  - eexists. split; [reflexivity|]. now apply refresh_inv.
  - eexists. split; [reflexivity|]. unfold quorum_lib_exit_fn. keep_frame.
  - now apply register_inv.
  - now apply unregister_inv.
  - destruct Hok. now apply update_inv.
Qed.

(** ** Start-up establishes the invariant *)

Definition core (s : vq) :=
  (fst (fst (frame s)), wait_for_all_status s, cluster_is_quorate s, qdevice_name s).

Strategy 1000 [core].

Lemma core_frame s s' : frame s' = frame s -> core s' = core s.
Proof. intros H. unfold core. rewrite H. apply frame_wfa in H as (_ & -> & _ & -> & ->). done. Qed.

Lemma core_fields s s' :
  core s' = core s ->
  table_shape s' = table_shape s /\ wait_for_all_status s' = wait_for_all_status s
  /\ cluster_is_quorate s' = cluster_is_quorate s /\ qdevice_name s' = qdevice_name s.
Proof.
  unfold core, table_shape. generalize (fst (fst (frame s))), (fst (fst (frame s'))).
  intros a b [= -> -> -> ->]. done.
Qed.

Ltac peel_core :=
  repeat first
    [ match goal with |- ?x = ?x => reflexivity end
    | match goal with
      | |- core (if ?b then _ else _) = _ => destruct b
      | |- core (match ?b with _ => _ end) = _ => destruct b
      | |- core (upd ?p ?f ?t) = ?r =>
          transitivity (core t); [generalize t; intros ?; reflexivity|]
      | |- core (emit ?e ?t) = ?r =>
          transitivity (core t); [generalize t; intros ?; reflexivity|]
      end ].

Lemma core_parse_atb str s : core (parse_atb_string str s) = core s.
Proof.
  unfold parse_atb_string. cbn zeta. destruct (c_true _); cbn zeta; peel_core.
Qed.

Lemma core_options cfg s : core (readconfig_options cfg s) = core s.
Proof. unfold readconfig_options. peel_core. Qed.

Lemma core_atb cfg s : core (readconfig_atb cfg s) = core s.
Proof.
  unfold readconfig_atb. repeat first [rewrite core_parse_atb | progress peel_core].
Qed.

Lemma core_ev_tracking st cc s s' : readconfig_ev_tracking st cc s = inr s' -> core s' = core s.
Proof.
  unfold readconfig_ev_tracking.
  set (s1 := if c_true (allow_downscale s) then _ else _).
  assert (H1 : core s1 = core s) by (subst s1; peel_core). clearbody s1. cbn zeta.
  destruct (c_true (ev_tracking s1)); [|congruence].
  unfold load_ev_tracking_barrier, update_ev_tracking_barrier.
  destruct st; [|destruct cc]; cbv beta iota zeta; [| |intros [=]];
    change (0 <? 0) with false; intros [= <-]; rewrite <- H1; peel_core.
Qed.

Lemma core_features cfg st cc s s' : readconfig_features cfg st cc s = inr s' -> core s' = core s.
Proof. intros H%core_ev_tracking. now rewrite H, core_atb, core_options. Qed.

Lemma core_conflicts_modes ne s s1 rt hn hq nc qv ev s2 :
  readconfig_modes ne s = inr s1 -> readconfig_conflicts rt hn hq nc ne qv ev s1 = inr s2 ->
  core s2 = core s.
Proof.
  intros Hm Hc. apply frame_conflicts, core_frame in Hc. rewrite Hc.
  apply readconfig_modes_frame in Hm as (w & Hm & _). unfold core. rewrite Hm.
  apply frame_wfa in Hm as (_ & -> & _ & -> & ->). done.
Qed.

(** The end of a start-up configuration: the status is set exactly when
    wait-for-all is on. *)
Lemma readconfig_apply_startup cfg nl hq qv ev s :
  exists s1, frame s1 = frame s /\
    readconfig_apply cfg false nl hq qv ev s =
    if c_true (wait_for_all s1) then update_wait_for_all_status 1 s1
    else if wait_for_all_autoset s1 && c_true (wait_for_all_status s1)
         then update_wait_for_all_status 0 s1 else s1.
Proof. exact (readconfig_apply_eq _ _ _ _ _ _ _). Qed.

Lemma startup_wfa_inv s s1 :
  table_wf s -> wait_for_all_status s = 0 -> cluster_is_quorate s = false ->
  name_fits (qdevice_name s) = true -> core s1 = core s ->
  vq_inv (if c_true (wait_for_all s1) then update_wait_for_all_status 1 s1
          else if wait_for_all_autoset s1 && c_true (wait_for_all_status s1)
               then update_wait_for_all_status 0 s1 else s1).
Proof.
  intros Hwf Hst Hq Hn (Hsh & Es & Eq & En)%core_fields.
  assert (Hw1 : table_wf s1) by now apply (table_wf_shape s).
  rewrite Hst in Es. rewrite Hq in Eq. rewrite <- En in Hn. rewrite Es.
  change (c_true 0) with false. rewrite andb_false_r.
  destruct (c_true (wait_for_all s1)) eqn:Ew.
  - pose proof (frame_update_wfa 1 s1) as Hu. split.
    + apply (table_wf_shape s1); [|done]. unfold table_shape. now rewrite Hu.
    + apply frame_wfa in Hu as (E1 & E2 & _ & E4 & _). intros _. now rewrite E1, E4.
    + apply frame_wfa in Hu as (_ & _ & _ & _ & ->). done.
  - split; [done| |done]. intros Hs. rewrite Es in Hs. done.
Qed.

Lemma readconfig_startup_inv cfg st cc s s' :
  table_wf s -> wait_for_all_status s = 0 -> cluster_is_quorate s = false ->
  name_fits (qdevice_name s) = true ->
  votequorum_readconfig cfg st cc false s = (None, s') -> vq_inv s'.
Proof.
  intros Hwf Hst Hq Hn. unfold votequorum_readconfig. cbn zeta.
  pose proof (core_frame _ _ (frame_gather cfg false s)) as Hg.
  destruct (readconfig_gather cfg false s) as [[hq qv] s0]. cbn [snd] in Hg.
  destruct (_ && _); [done|]. destruct (_ && _ && _); [done|].
  assert (H1 : core (readconfig_two_node_qdevice hq s0) = core s).
  { rewrite <- Hg. unfold readconfig_two_node_qdevice, update_qdevice_can_operate. peel_core. }
  destruct (readconfig_features cfg st cc _) as [[e s1]|s1] eqn:Ef; [done|].
  apply core_features in Ef. rewrite H1 in Ef.
  destruct (readconfig_modes _ s1) as [[e s2]|s2] eqn:Em; [done|].
  destruct (readconfig_conflicts _ _ _ _ _ _ _ s2) as [[e s3]|s3] eqn:Ec; [done|].
  pose proof (core_conflicts_modes _ _ _ _ _ _ _ _ _ _ Em Ec) as H3. rewrite Ef in H3.
  intros [= <-].
  destruct (readconfig_apply_startup cfg (votequorum_read_nodelist_configuration cfg) hq qv
    (or_keep (icmap_get_uint32 cfg "quorum.expected_votes") 0) s3) as (s5 & H5 & ->).
  apply (startup_wfa_inv s); try done. apply core_frame in H5. now rewrite H5.
Qed.

(** The table after the two allocations of [votequorum_exec_init_fn]. *)
Lemma init_table_wf id s :
  cluster_nodes s = [] -> cluster_members_list s = [] -> id <> VOTEQUORUM_QDEVICE_NODEID ->
  exists sq su,
    allocate_node VOTEQUORUM_QDEVICE_NODEID s = Some (Some 0%nat, sq)
    /\ length (cluster_nodes sq) = 1%nat /\ cluster_members_list sq = []
    /\ snd (fst (frame sq)) = snd (fst (frame s))
    /\ forall s1, cluster_members_list s1 = [] -> length (cluster_nodes s1) = 1%nat ->
       allocate_node id s1 = Some (Some 1%nat, su s1)
       /\ length (cluster_nodes (su s1)) = 2%nat /\ cluster_members_list (su s1) = [1%nat]
       /\ snd (fst (frame (su s1))) = snd (fst (frame s1)) /\ qdevice_name (su s1) = qdevice_name s1
       /\ qdevice (su s1) = qdevice s1.
Proof.
  intros Hn Hm Hid. unfold allocate_node. rewrite Hn. cbn [length Nat.leb].
  eexists _, (fun s1 => node_add_ordered 1 (upd_node 1 (fun _ => zero_node <| node_id := s32 id |>)
    (s1 <| cluster_nodes ::= fun l => l ++ [zero_node] |>))).
  split; [reflexivity|]. split; [cbn; now rewrite length_alter, Hn|].
  split; [exact Hm|]. split; [reflexivity|].
  intros s1 Hm1 Hl1. apply Z.eqb_neq in Hid. rewrite Hl1, Hid. cbn.
  split; [reflexivity|]. unfold node_add_ordered. cbn. rewrite Hm1. cbn.
  rewrite length_alter, length_app, Hl1, Hm1. done.
Qed.

Lemma frame_ro_keys s : frame (votequorum_set_icmap_ro_keys s) = frame s.
Proof. now apply frame_foldl. Qed.

#[export] Hint Rewrite frame_ro_keys : vq_frame.

Lemma table_wf_start s :
  us s = 1%nat -> qdevice s = 0%nat -> cluster_members_list s = [1%nat] ->
  length (cluster_nodes s) = 2%nat -> table_wf s.
Proof.
  intros Hu Hq Hm Hl. split; rewrite ?Hu, ?Hq, ?Hm, ?Hl; try set_solver by lia; try lia.
  apply NoDup_singleton.
Qed.

(** A start of the service that reports no error ends in a state with the
    invariant of [vq_run_safe], whatever the configuration, the node id and the
    content of the expected-votes file. *)
Theorem votequorum_exec_init_inv tm cfg st cc id r :
  id <> VOTEQUORUM_QDEVICE_NODEID ->
  votequorum_exec_init_fn tm cfg st cc id vq_static = Some (inr r) -> vq_inv r.
Proof.
  intros Hid. unfold votequorum_exec_init_fn. cbn zeta.
  destruct (init_table_wf id (vq_static <| cluster_members_list := [] |> <| trackers_list := [] |>
    <| cluster_nodes := [] |>)) as (sq & su & -> & Hl & Hm & Hf & Hsu); [done..|].
  cbn [mbind option_bind].
  set (s1 := (upd_node 0 _ _) <| qdevice_name := "" |>).
  destruct (Hsu s1) as (-> & Hl2 & Hm2 & Hf2 & Hn2 & Hq2);
    [exact Hm|subst s1; cbn; now rewrite length_alter|].
  cbn [mbind option_bind].
  match goal with |- context [votequorum_readconfig cfg st cc false ?t] => set (s2 := t) end.
  assert (Hw : table_wf s2).
  { apply table_wf_start; [reflexivity|exact Hq2|exact Hm2|].
    etransitivity; [exact (length_alter _ (cluster_nodes (su s1)) _)|exact Hl2]. }
  assert (Hst : wait_for_all_status s2 = 0 /\ cluster_is_quorate s2 = false /\ qdevice_name s2 = ""%string).
  { change (wait_for_all_status (su s1) = 0 /\ cluster_is_quorate (su s1) = false
            /\ qdevice_name (su s1) = ""%string).
    unfold frame in Hf2, Hf. cbn in Hf2, Hf. injection Hf2 as ? E1 ? E2. injection Hf as ? F1 ? F2.
    rewrite E1, E2, F1, F2, Hn2. done. }
  destruct Hst as (Hst & Hq & Hn). clearbody s2.
  destruct (votequorum_readconfig cfg st cc false s2) as [[e|] s3] eqn:Er; [done|].
  apply readconfig_startup_inv in Er; [|done..|now rewrite Hn].
  destruct (recalculate_quorum_inv false false s3 Er) as (s4 & -> & Hinv4).
  cbn [mbind option_bind]. intros [= <-].
  unfold votequorum_exec_add_config_notification. keep_frame.
Qed.

(** *** Evaluation on the three-node cluster *)

Ltac check_vq_inv :=
  split; [split; [by_compute|by_compute|by_compute|by_compute|by_compute_forall]
         |let H := fresh in intros H; vm_compute in H; discriminate H
         |vm_compute; reflexivity].

Lemma votequorum_exec_init_inv_witness : vq_inv (demo_node 1).
Proof.
  apply (votequorum_exec_init_inv demo_mcast (demo_cfg 0) None true 1); [discriminate|].
  vm_compute. reflexivity.
Defined.
