(* ===== verification/VoteQuorumRun.v ===== *)
(** * Votequorum: runs of the service

    The nodes a run is about, what the messages of a run must respect, and that
    no run that respects it fails an assertion.  What the node table must hold for
    that (room for a new node, a record of the sender of a message about the
    device) is not assumed but follows from the order of the messages and the
    size of the cluster. *)
From S2P Require Import Prelude CString VoteQuorum VoteQuorumExec VoteQuorumTheory VoteQuorumInv.

(** ** The table keeps its shape *)

Lemma shape_frame s s' : frame s' = frame s -> table_shape s' = table_shape s.
Proof. unfold table_shape. now intros ->. Qed.

Lemma shape_update_wfa st s : table_shape (update_wait_for_all_status st s) = table_shape s.
Proof. unfold table_shape. now rewrite frame_update_wfa. Qed.

Lemma shape_are_we_quorate t s s' : are_we_quorate t s = Some s' -> table_shape s' = table_shape s.
Proof.
  unfold are_we_quorate. destruct (_ && negb _).
  - destruct (cluster_is_quorate s); [done|]. now intros [= <-].
  - set (s1 := if _ && _ then _ else _).
    assert (H1 : table_shape s1 = table_shape s) by (subst s1; destruct (_ && _); [apply shape_update_wfa|done]).
    clearbody s1. pose proof (shape_frame _ _ (frame_decide_quorate t s1)) as H2.
    destruct (decide_quorate t s1) as [q s2]. cbn [snd] in H2. intros [= <-].
    rewrite <- H1, <- H2. unfold table_shape. now rewrite frame_apply_quorate.
Qed.

Lemma shape_recalculate dec cur s s' : recalculate_quorum dec cur s = Some s' -> table_shape s' = table_shape s.
Proof.
  rewrite recalculate_quorum_eq. cbn zeta. intros H%shape_are_we_quorate. rewrite H. apply shape_frame.
  rewrite frame_update_node_expected_votes. apply frame_recalc_expected.
Qed.

Ltac keep_shape := apply shape_frame; peel_frame.

Lemma shape_reconfigure p id v s s' :
  message_handler_req_exec_votequorum_reconfigure p id v s = Some s' -> table_shape s' = table_shape s.
Proof.
  unfold message_handler_req_exec_votequorum_reconfigure.
  destruct (p =? VOTEQUORUM_RECONFIG_PARAM_EXPECTED_VOTES).
  { intros H%shape_recalculate. rewrite H. unfold update_ev_barrier. keep_shape. }
  destruct (p =? VOTEQUORUM_RECONFIG_PARAM_NODE_VOTES).
  { destruct (find_node_by_nodeid s id); [|now intros [= <-] ]. intros H%shape_recalculate. rewrite H. keep_shape. }
  destruct (p =? VOTEQUORUM_RECONFIG_PARAM_CANCEL_WFA); [|now intros [= <-] ].
  intros H%shape_recalculate. rewrite H. apply shape_update_wfa.
Qed.

Lemma shape_qdevice_reg tm op nm id s :
  table_shape (message_handler_req_exec_votequorum_qdevice_reg tm op nm id s) = table_shape s.
Proof.
  unfold message_handler_req_exec_votequorum_qdevice_reg.
  destruct (op =? VOTEQUORUM_QDEVICE_OPERATION_REGISTER).
  - destruct (negb _); [destruct (c_true _); done|]. destruct (has_flag _ _); [done|].
    destruct (qdevice_reg_conn s); [|done]. cbn zeta.
    set (s1 := if c_true _ then s else _).
    assert (H1 : table_shape s1 = table_shape s) by (subst s1; destruct (c_true _); done). clearbody s1. rewrite <- H1.
    destruct (strncmp_eq _ _ _); keep_shape.
  - destruct (op =? VOTEQUORUM_QDEVICE_OPERATION_UNREGISTER); [|done]. destruct (existsb _ _); done.
Qed.

Lemma shape_sync_process tm s r s' : votequorum_sync_process tm s = Some (r, s') -> table_shape s' = table_shape s.
Proof.
  unfold votequorum_sync_process. destruct (sync_nodeinfo_sent s); [now intros [= _ <-]|].
  intros (s1 & H & [= _ <-])%bind_Some. revert H. unfold sync_send_nodeinfo, votequorum_exec_send_qdevice_reg, mcast. cbn zeta.
  set (s2 := snd (votequorum_exec_send_nodeinfo tm VOTEQUORUM_QDEVICE_NODEID _)).
  assert (H2 : table_shape s2 = table_shape s) by (subst s2; keep_shape). clearbody s2.
  destruct (c_true _).
  - destruct (name_fits _); cbn [mbind option_bind]; [|done]. intros [= <-]. rewrite <- H2. keep_shape.
  - cbn [mbind option_bind]. intros [= <-]. rewrite <- H2. keep_shape.
Qed.

Lemma shape_readconfig cfg st cc s s' :
  votequorum_readconfig cfg st cc true s = (None, s') -> table_shape s' = table_shape s.
Proof.
  unfold votequorum_readconfig. cbn zeta. pose proof (shape_frame _ _ (frame_gather cfg true s)) as Hg.
  destruct (readconfig_gather cfg true s) as [[hq qv] s0]. cbn [snd] in Hg. rewrite <- Hg. clear Hg.
  destruct (_ && _); [congruence|]. rewrite andb_false_r.
  set (s1 := readconfig_two_node_qdevice hq s0).
  assert (H1 : table_shape s1 = table_shape s0)
    by (subst s1; unfold readconfig_two_node_qdevice, update_qdevice_can_operate; keep_shape).
  rewrite <- H1. clearbody s1. clear H1.
  destruct (readconfig_modes _ s1) as [[e s2]|s2] eqn:Em; [done|].
  destruct (readconfig_conflicts _ _ _ _ _ _ _ s2) as [[e s3]|s3] eqn:Ec; [done|].
  intros [= <-]. apply frame_conflicts, shape_frame in Ec. apply readconfig_modes_frame in Em as (w & Em & _).
  assert (H2 : table_shape s2 = table_shape s1) by (unfold table_shape; now rewrite Em).
  destruct (readconfig_apply_frame cfg (votequorum_read_nodelist_configuration cfg) hq qv
    (or_keep (icmap_get_uint32 cfg "quorum.expected_votes") 0) s3) as (s5 & H5%shape_frame & ->).
  rewrite <- H2, <- Ec, <- H5. destruct (c_true _); [done|]. destruct (_ && _); [apply shape_update_wfa|done].
Qed.

Lemma shape_refresh tm cfg w key s :
  fst (votequorum_readconfig cfg None false true s) = None ->
  table_shape (votequorum_refresh_config tm cfg w key s) = table_shape s.
Proof.
  intros Hok. unfold votequorum_refresh_config, votequorum_exec_send_reconfigure, mcast. cbn zeta.
  destruct (c_true _); [done|]. destruct (_ && _); [done|]. destruct (_ && _); [keep_shape|].
  destruct (votequorum_readconfig cfg None false true s) as [e s1] eqn:E. cbn in Hok. subst e.
  apply shape_readconfig in E. cbn [snd]. rewrite <- E. keep_shape.
Qed.

Definition is_nodeinfo (e : vq_event) : bool :=
  match e with EvExec (NODEINFO _ _ _ _) _ => true | _ => false end.

(** Only a nodeinfo message changes the table. *)
Lemma shape_step tm e s s' :
  is_nodeinfo e = false -> event_ok e s -> vq_step tm e s = Some s' -> table_shape s' = table_shape s.
Proof.
  intros Hn Hok. destruct e; cbn [vq_step event_ok is_nodeinfo] in *;
    try (intros [= <-]; apply shape_frame; autorewrite with vq_frame_handlers; reflexivity).
  - destruct m; cbn [votequorum_exec_engine]; [done|..].
    + apply shape_reconfigure.
    + intros [= <-]. apply shape_qdevice_reg.
    + intros [= <-]. unfold message_handler_req_exec_votequorum_qdevice_reconfigure. destruct (strcmp_eq _ _); done.
    + intros [= <-]. apply shape_frame, frame_exec_extra_info.
  - unfold votequorum_last_man_standing_timer_fn. cbn zeta. destruct (cluster_is_quorate _); [|now intros [= <-] ].
    intros H%shape_recalculate. now rewrite H.
  - intros ([r x] & H%shape_sync_process & ->)%fmap_Some. exact H.
  - unfold votequorum_sync_activate. intros (s1 & H%shape_recalculate & [= <-])%bind_Some. rewrite <- H. keep_shape.
  - intros [= <-]. now apply shape_refresh.
  - intros [= <-]. unfold quorum_lib_exit_fn. keep_shape.
  - unfold message_handler_req_lib_votequorum_qdevice_register, votequorum_exec_send_qdevice_reg, mcast.
    destruct (negb _); [intros [= <-]; keep_shape|]. destruct (qdevice_registered s); [intros [= <-]; keep_shape|].
    destruct (qdevice_reg_conn s); [intros [= <-]; keep_shape|]. rewrite Hok. cbn [mbind option_bind]. intros [= <-].
    destruct (c_true _); keep_shape.
  - unfold message_handler_req_lib_votequorum_qdevice_unregister, votequorum_exec_send_qdevice_reg, mcast.
    destruct (negb _); [intros [= <-]; keep_shape|]. destruct (negb _); [intros [= <-]; keep_shape|].
    rewrite Hok. cbn [mbind option_bind]. intros [= <-]. keep_shape.
  - destruct Hok as [H1 H2].
    unfold message_handler_req_lib_votequorum_qdevice_update, votequorum_exec_send_qdevice_reconfigure, mcast.
    destruct (negb _); [intros [= <-]; keep_shape|]. destruct (negb _); [intros [= <-]; keep_shape|].
    rewrite H1, H2. cbn [andb mbind option_bind]. intros [= <-]. keep_shape.
Qed.

(** ** The nodes of a run *)

(** The node ids of the records in the list of members. *)
Definition member_ids (s : vq) : list Z := (fun i => u32 (node_id (node_at s i))) <$> cluster_members_list s.

(** The table holds the device and one record for each of some of the [nodes],
    and one for each node that was [seen]. *)
Record cluster_view (nodes seen : list Z) (s : vq) : Prop := {
  cv_slots : length (cluster_nodes s) = S (length (cluster_members_list s));
  cv_nodup : NoDup (member_ids s);
  cv_nodes : forall a, a ∈ member_ids s -> a ∈ nodes;
  cv_seen : forall a, a ∈ seen -> a ∈ member_ids s
}.

Lemma node_at_id s i : node_id (node_at s i) = default (node_id zero_node) ((node_id <$> cluster_nodes s) !! i).
Proof. unfold node_at. rewrite list_lookup_fmap. now destruct (cluster_nodes s !! i). Qed.

Lemma cluster_view_shape nodes seen s s' :
  table_shape s' = table_shape s -> cluster_view nodes seen s -> cluster_view nodes seen s'.
Proof.
  unfold table_shape, frame. cbn. intros H. injection H as E1 E2 E3 E4.
  assert (Ei : member_ids s' = member_ids s).
  { unfold member_ids. rewrite E3. apply list_fmap_ext. intros _ i _. now rewrite !node_at_id, E4. }
  apply (f_equal length) in E4. rewrite !length_fmap in E4.
  intros [V1 V2 V3 V4]. split; rewrite ?Ei, ?E3, ?E4; done.
Qed.

Lemma find_in_list_spec s id l :
  match find_in_list s id l with
  | Some i => i ∈ l
  | None => id ∉ (fun i => u32 (node_id (node_at s i))) <$> l
  end.
Proof.
  induction l as [|i l IH]; cbn; [set_solver|].
  destruct (Z.eqb_spec (u32 (node_id (node_at s i))) id) as [E|E]; [left|].
  destruct (find_in_list s id l); [now right|]. rewrite not_elem_of_cons. split; [congruence|exact IH].
Qed.

Lemma find_node_known s id : id ∈ member_ids s -> is_Some (find_node_by_nodeid s id).
Proof.
  intros H. unfold find_node_by_nodeid. destruct (_ =? _); [eauto|]. destruct (_ =? _); [eauto|].
  pose proof (find_in_list_spec s id (cluster_members_list s)) as F.
  destruct (find_in_list _ _ _); [eauto|]. contradiction.
Qed.

Lemma find_node_new s id : find_node_by_nodeid s id = None -> id ∉ member_ids s.
Proof.
  unfold find_node_by_nodeid. destruct (_ =? _); [done|]. destruct (_ =? _); [done|]. intros E.
  pose proof (find_in_list_spec s id (cluster_members_list s)) as F. now rewrite E in F.
Qed.

(** A cluster of at most [PROCESSOR_COUNT_MAX] nodes always finds a free slot. *)
Lemma cluster_view_room nodes seen s :
  (length nodes <= PROCESSOR_COUNT_MAX)%nat -> cluster_view nodes seen s ->
  (length (cluster_nodes s) <= PROCESSOR_COUNT_MAX + 1)%nat.
Proof.
  intros Hl [V1 V2 V3 _]. rewrite V1.
  assert (H : (length (member_ids s) <= length nodes)%nat) by (apply submseteq_length, NoDup_submseteq; auto).
  unfold member_ids in H. rewrite length_fmap in H. lia.
Qed.

Lemma allocate_view nodes seen id s i s' :
  (length nodes <= PROCESSOR_COUNT_MAX)%nat -> cluster_view nodes seen s -> table_wf s ->
  id ∈ nodes -> 0 <= id < 2 ^ 32 -> id <> VOTEQUORUM_QDEVICE_NODEID ->
  find_node_by_nodeid s id = None -> allocate_node id s = Some (i, s') -> cluster_view nodes (id :: seen) s'.
Proof.
  intros Hl V Hw Hin Hr Hid Hf%find_node_new. unfold allocate_node. apply Z.eqb_neq in Hid. rewrite Hid.
  pose proof (cluster_view_room _ _ _ Hl V) as Hroom. apply Nat.leb_le in Hroom. rewrite Hroom. intros [= <- <-].
  set (n := length (cluster_nodes s)). set (s1 := upd_node n _ _).
  assert (En : node_id <$> cluster_nodes s1 = (node_id <$> cluster_nodes s) ++ [s32 id]).
  { subst s1 n. cbn. rewrite alter_app_r_alt by lia. rewrite Nat.sub_diag, fmap_app. reflexivity. }
  assert (Em : cluster_members_list s1 = cluster_members_list s) by done. clearbody s1.
  pose proof (node_add_ordered_members n s1) as Hp. destruct (node_add_ordered_rest n s1) as (_ & _ & E3 & _).
  assert (Ei : member_ids (node_add_ordered n s1) ≡ₚ id :: member_ids s).
  { unfold member_ids. rewrite Hp, Em. rewrite fmap_cons. apply Permutation_cons.
    - rewrite node_at_id, E3, En, lookup_app_r by (rewrite length_fmap; lia).
      subst n. rewrite length_fmap, Nat.sub_diag. cbn. rewrite u32_s32. now apply u32_small.
    - match goal with |- ?x ≡ₚ ?y => assert (x = y) as ->; [|done] end. apply list_fmap_ext. intros k j Hj%list_elem_of_lookup_2.
      pose proof (wf_slots _ Hw _ Hj). rewrite !node_at_id, E3, En, lookup_app_l by (rewrite length_fmap; lia). done. }
  destruct V as [V1 V2 V3 V4]. split.
  - rewrite E3. apply (f_equal length) in En. rewrite length_app, !length_fmap in En. rewrite Hp, Em. cbn in *. lia.
  - rewrite Ei. now constructor.
  - intros a. rewrite Ei. intros [->|Ha]%elem_of_cons; auto.
  - intros a. rewrite Ei. intros [->|Ha]%elem_of_cons; [left|right; auto].
Qed.

Lemma find_node_some s id i :
  table_wf s -> id <> VOTEQUORUM_QDEVICE_NODEID -> find_node_by_nodeid s id = Some i -> id ∈ member_ids s.
Proof.
  intros Hw Hid. unfold find_node_by_nodeid, member_ids.
  destruct (Z.eqb_spec id (u32 (node_id (us_node s)))) as [->|_].
  - intros _. apply list_elem_of_fmap. exists (us s). split; [done|apply (wf_us _ Hw)].
  - destruct (Z.eqb_spec id VOTEQUORUM_QDEVICE_NODEID); [done|].
    generalize (cluster_members_list s) as l. induction l as [|k l IH]; cbn; [done|].
    destruct (Z.eqb_spec (u32 (node_id (node_at s k))) id) as [->|_]; [intros _; left|right; auto].
Qed.

(** What the nodeinfo message of a node has in common with the others: the
    record may be new, the rest of the table keeps its shape. *)
Lemma nodeinfo_shape id v ev fl sender s s' :
  message_handler_req_exec_votequorum_nodeinfo id v ev fl sender s = Some s' ->
  exists i s1,
    (if find_node_by_nodeid s id then s1 = s else allocate_node id s = Some (i, s1))
    /\ table_shape s' = table_shape s1.
Proof.
  unfold message_handler_req_exec_votequorum_nodeinfo. intros ([ [i new] s1] & H1 & H)%bind_Some. exists i, s1.
  split.
  { destruct (find_node_by_nodeid s id); [now simplify_eq|]. apply bind_Some in H1 as ([j s2] & H1 & [= -> _ ->]). exact H1. }
  clear H1. destruct i as [i|]; [|now simplify_eq]. destruct (if new then _ else _) as [ [ [ov oe] ost] ofl].
  apply bind_Some in H as ([ [dn bn] s2] & H2 & (s3 & H3 & [= <-])%bind_Some).
  assert (E2 : table_shape s2 = table_shape s1).
  { destruct (id =? _).
    - apply bind_Some in H2 as (s4 & H4 & [= _ _ <-]). revert H4. unfold nodeinfo_update_qdevice.
      intros (k & _ & [= <-])%bind_Some. keep_shape.
    - assert (Hu : nodeinfo_update i v ev fl s1 = (dn, bn, s2)) by congruence. pose proof (shape_frame _ _ (frame_nodeinfo_update i v ev fl s1)) as E. now rewrite Hu in E. }
  assert (E3 : table_shape s3 = table_shape s2)
    by (match type of H3 with (if ?c then _ else _) = _ => destruct c end; [now apply shape_recalculate in H3|now simplify_eq]).
  rewrite <- E2, <- E3. destruct (_ && _); [apply shape_update_wfa|done].
Qed.

(** ** Runs *)

(** The nodes that have told about themselves after an event. *)
Definition seen_after (e : vq_event) (seen : list Z) : list Z :=
  match e with
  | EvExec (NODEINFO id _ _ _) _ => if id =? VOTEQUORUM_QDEVICE_NODEID then seen else id :: seen
  | _ => seen
  end.

(** What an event must respect: the nodes are those of the cluster and tell about
    the device only after they have told about themselves; names of devices are
    terminated within their fields; a reload of the configuration reports no
    error. *)
Definition admissible (nodes seen : list Z) (e : vq_event) (s : vq) : Prop :=
  match e with
  | EvExec (NODEINFO id _ _ _) sender =>
      if id =? VOTEQUORUM_QDEVICE_NODEID then sender ∈ seen else id ∈ nodes
  | EvExec (QDEVICE_REG _ nm) _ | EvExec (QDEVICE_RECONFIGURE _ nm) _
  | EvQdeviceRegister _ nm | EvQdeviceUnregister _ nm => strlen nm < Z.of_nat VOTEQUORUM_QDEVICE_MAX_NAME_LEN
  | EvQdeviceUpdate _ o n =>
      strlen o < Z.of_nat VOTEQUORUM_QDEVICE_MAX_NAME_LEN /\ strlen n < Z.of_nat VOTEQUORUM_QDEVICE_MAX_NAME_LEN
  | EvRefreshConfig cfg _ _ => fst (votequorum_readconfig cfg None false true s) = None
  | _ => True
  end.

Fixpoint admissible_run (tm : vq -> exec_msg -> Z) (nodes seen : list Z) (es : list vq_event) (s : vq) : Prop :=
  match es with
  | [] => True
  | e :: es' =>
      admissible nodes seen e s
      /\ forall s', vq_step tm e s = Some s' -> admissible_run tm nodes (seen_after e seen) es' s'
  end.

(** A cluster corosync supports. *)
Definition cluster_of (nodes : list Z) : Prop :=
  (length nodes <= PROCESSOR_COUNT_MAX)%nat /\ forall a, a ∈ nodes -> 0 <= a < 2 ^ 32.

Lemma name_length_fits nm : strlen nm < Z.of_nat VOTEQUORUM_QDEVICE_MAX_NAME_LEN -> name_fits nm = true.
Proof. apply Z.ltb_lt. Qed.

Lemma admissible_ok nodes seen e s :
  cluster_of nodes -> cluster_view nodes seen s -> admissible nodes seen e s -> event_ok e s.
Proof.
  intros [Hl Hr] V H. destruct e; cbn [event_ok admissible] in *; try done; try now apply name_length_fits.
  - destruct m; try done; [|now apply name_length_fits..]. split.
    + intros ->. cbn in H. now apply find_node_known, (cv_seen _ _ _ V).
    + intros _. left. now apply (cluster_view_room nodes seen).
  - destruct H. split; now apply name_length_fits.
Qed.

Lemma view_step tm nodes seen e s s' :
  cluster_of nodes -> cluster_view nodes seen s -> vq_inv s -> admissible nodes seen e s ->
  vq_step tm e s = Some s' -> cluster_view nodes (seen_after e seen) s'.
Proof.
  intros [Hl Hr] V Hi Ha H. destruct (is_nodeinfo e) eqn:En.
  - destruct e as [ []| | | | | | | | | | | | | | | | | | | | | |]; try done. cbn in *.
    apply nodeinfo_shape in H as (i & s1 & H1 & E). apply (cluster_view_shape _ _ s1); [exact E|]. clear E.
    destruct (Z.eqb_spec nodeid VOTEQUORUM_QDEVICE_NODEID) as [->|Hid].
    + destruct (find_qdevice s) as [k Ek]. rewrite Ek in H1. now subst s1.
    + destruct (find_node_by_nodeid s nodeid) as [k|] eqn:Ef.
      * subst s1. apply find_node_some in Ef; [|apply Hi|done]. destruct V as [V1 V2 V3 V4]. split; try done.
        intros a [->|Hin]%elem_of_cons; auto.
      * eapply allocate_view; eauto; apply Hi.
  - assert (seen_after e seen = seen) as -> by (destruct e as [ []| | | | | | | | | | | | | | | | | | | | | |]; done).
    apply (cluster_view_shape _ _ s); [|done]. eapply shape_step; eauto. eapply admissible_ok; eauto. now split.
Qed.

(** C6: A running service never fails an assertion and never loses its
    invariant: from a state in which the node table is well formed, a pending
    wait-for-all status goes with a node that is not quorate and the device name
    fits its buffer, every run of events completes, whatever its length, and ends
    in such a state, with a record for every node that has told about itself.  The
    events may be any messages, timers, synchronisations, reloads and requests of
    clients, of a cluster of at most [PROCESSOR_COUNT_MAX] nodes, so long as a node
    tells about the device only after it has told about itself, names of devices
    are terminated within their fields, and reloads report no error. *)
Theorem vq_run_safe tm nodes seen es s :
  cluster_of nodes -> cluster_view nodes seen s -> vq_inv s -> admissible_run tm nodes seen es s ->
  exists s', vq_run tm es s = Some s' /\ vq_inv s' /\ cluster_view nodes (foldl (fun l e => seen_after e l) seen es) s'.
Proof.
  intros Hc. revert seen s. induction es as [|e es IH]; intros seen s V Hi Ha; cbn; [eauto|].
  destruct Ha as [He Hes]. destruct (vq_step_ok tm e s Hi (admissible_ok _ _ _ _ Hc V He)) as (s1 & E & Hi1).
  pose proof (view_step _ _ _ _ _ _ Hc V Hi He E) as V1. rewrite E. cbn. apply IH; auto.
Qed.

(** *** Evaluation on the three-node cluster *)

Definition demo_events : list vq_event :=
  [EvExec (NODEINFO 2 1 3 0) 2; EvExec (NODEINFO 0 0 0 0) 2; EvSyncInit [1; 2] (mk_ring 1 4); EvSyncProcess;
   EvSyncActivate; EvSyncInit [1] (mk_ring 1 8); EvSyncActivate; EvExec (RECONFIGURE 1 1 1) 1; EvLmsTimer].

Lemma vq_run_safe_witness :
  exists s', vq_run demo_mcast demo_events (demo_node 1) = Some s' /\ vq_inv s'
    /\ cluster_view [1; 2; 3] [2; 1] s'.
Proof.
  apply (vq_run_safe demo_mcast [1; 2; 3] [1] demo_events (demo_node 1)).
  - split; [by_compute|by_compute_forall].
  - split; [by_compute|by_compute|by_compute_forall|by_compute_forall].
  - check_vq_inv.
  - split; [cbn; right; left|]. intros s1 _. split; [cbn; left|]. intros. repeat (split; [exact I|intros]). exact I.
Defined.
