(* ===== verification/VoteQuorumProps.v ===== *)
(** * Votequorum: further properties

    The value of the quorum and its 8-bit variable, tie breaking, changes of the
    expected votes by a client, accepted configurations, and three places where
    the code does not do what it sets out to do. *)
From S2P Require Import Prelude CString VoteQuorum VoteQuorumExec VoteQuorumTheory VoteQuorumInv.

(** ** The quorum *)

(** [q] is a strict majority of the votes counted and of the votes expected, and
    not below the current quorum unless a decrease is allowed. *)
Definition majority (dec : bool) (m : Z) (s : vq) (q : Z) : Prop :=
  counted_votes s < 2 * q /\ effective_expected dec m s < 2 * q /\ (dec = false -> quorum s <= q).

(** C11: [calculate_quorum] counts the votes of the members and of a device that
    casts its vote, and returns: in two-node mode with at most two nodes, one; in
    every other case exactly the smallest number that exceeds half of the votes
    counted and half of the votes expected (by the members, or the maximum the
    caller passes, which downscaling never takes below the barrier) and is not
    below the current quorum unless a decrease is allowed.  Nodes and votes are
    fewer than 32 bits hold. *)
Theorem calculate_quorum_majority dec m s :
  counted_nodes s < 2 ^ 32 ->
  0 <= counted_votes s < 2 ^ 32 - 2 ->
  0 <= effective_expected dec m s < 2 ^ 32 - 2 ->
  let '(q, total) := calculate_quorum dec m s in
  total = counted_votes s
  /\ (c_true (two_node s) = true -> counted_nodes s <= 2 -> q = 1)
  /\ (c_true (two_node s) = false \/ 2 < counted_nodes s ->
      majority dec m s q /\ forall q', majority dec m s q' -> q <= q').
Proof.
  intros Hn Hc He.
  pose proof (calculate_quorum_total dec m s) as H1. pose proof (calculate_quorum_value dec m s) as H2.
  destruct (calculate_quorum dec m s) as [q total]. cbn [fst snd] in H1, H2. cbv zeta in H2.
  assert (0 <= counted_nodes s) by (unfold counted_nodes; destruct (has_flag _ _); lia).
  rewrite u32_small in H1 by lia. rewrite !u32_small in H2 by lia.
  pose proof (half_up_gt (counted_votes s)). pose proof (half_up_gt (effective_expected dec m s)).
  subst total. split; [done|]. split.
  - intros Ht Hl. rewrite Ht, (proj2 (Z.leb_le _ _) Hl) in H2. exact H2.
  - intros Hor. assert (E : c_true (two_node s) && (counted_nodes s <=? 2) = false).
    { destruct Hor as [->|Hl]; [done|]. apply andb_false_iff. right. now apply Z.leb_gt. }
    rewrite E in H2. unfold majority. split; [destruct dec; split_and!; try done; lia|].
    intros q' (Q1 & Q2 & Q3). pose proof (half_up_le _ _ Q1). pose proof (half_up_le _ _ Q2).
    destruct dec; [lia|]. specialize (Q3 eq_refl). lia.
Qed.

(** Two nodes that have seen each other need both votes; with [two_node] set
    one is enough. *)
Lemma calculate_quorum_majority_witness :
  let s := demo_join 2 (demo_node 1) in
  let s2 := s <| two_node := 1 |> in
  (let '(q, total) := calculate_quorum true 0 s in
   total = counted_votes s
   /\ (c_true (two_node s) = true -> counted_nodes s <= 2 -> q = 1)
   /\ (c_true (two_node s) = false \/ 2 < counted_nodes s ->
       majority true 0 s q /\ forall q', majority true 0 s q' -> q <= q'))
  /\ fst (calculate_quorum true 0 s) = 2 /\ fst (calculate_quorum true 0 s2) = 1.
Proof.
  split; [|split; by_compute].
  apply (calculate_quorum_majority true 0 (demo_join 2 (demo_node 1))); by_compute.
Defined.

(** The quorum is kept in 8 bits: with 510 expected votes the majority 256 is
    stored as 0, and a single node with one vote out of 510 is quorate as soon as
    it starts. *)
Theorem quorum_truncated_to_8_bits :
  exists cfg s,
    icmap_get_uint32 cfg "quorum.expected_votes" = Some 510
    /\ votequorum_exec_init_fn demo_mcast cfg None true 1 vq_static = Some (inr s)
    /\ expected_votes (us_node s) = 510 /\ counted_votes s = 1
    /\ quorum s = 0 /\ cluster_is_quorate s = true.
Proof.
  exists (mk_icmap_view (fun _ => None)
    (fun k => if String.eqb k "quorum.expected_votes" then Some 510 else None)
    (fun _ => None) (fun _ => None) (fun _ => [])).
  eexists. split; [reflexivity|]. split; [vm_compute; reflexivity|].
  split_and!; vm_compute; reflexivity.
Qed.

(** ** Tie breaking *)

Lemma is_in_nodelist_spec a l : is_in_nodelist a l = true <-> u32 a ∈ l.
Proof.
  unfold is_in_nodelist. rewrite existsb_exists. split.
  - intros (x & Hx & E). apply Z.eqb_eq in E. rewrite E. now apply list_elem_of_In.
  - intros H. exists (u32 a). split; [now apply list_elem_of_In|apply Z.eqb_refl].
Qed.

(** The node list algorithm: quorate when the first listed node of the current
    partition has no listed predecessor in the previous partition. *)
Lemma check_atb_list_spec s before atb :
  check_atb_list s before atb = true <->
  exists pre a post, atb = pre ++ a :: post
    /\ u32 a ∈ quorum_members s
    /\ (forall b, b ∈ pre -> u32 b ∉ quorum_members s)
    /\ (forall b, b ∈ before ++ pre -> u32 b ∉ previous_quorum_members s).
Proof.
  revert before. induction atb as [|a atb IH]; intros before; cbn.
  { split; [done|]. intros (pre & a & post & E & _). destruct pre; done. }
  destruct (is_in_nodelist a (quorum_members s)) eqn:E.
  - apply is_in_nodelist_spec in E. rewrite negb_true_iff, <- not_true_iff_false, existsb_exists. split.
    + intros H. exists [], a, atb. rewrite app_nil_r. split_and!; [done|done|set_solver|].
      intros b Hb Hin. apply H. exists b. split; [now apply list_elem_of_In|]. now apply is_in_nodelist_spec.
    + intros (pre & a' & post & Eq & Ha & Hpre & Hprev) (b & Hb & Hin).
      apply is_in_nodelist_spec in Hin. apply list_elem_of_In in Hb.
      apply (Hprev b); [set_solver|done].
  - rewrite IH. assert (Hna : u32 a ∉ quorum_members s).
    { intros H%is_in_nodelist_spec. congruence. }
    split.
    + intros (pre & a' & post & -> & Ha & Hpre & Hprev). exists (a :: pre), a', post.
      split_and!; [done|done| |].
      * intros b [->|Hb]%elem_of_cons; auto.
      * intros b Hb. apply Hprev. set_solver.
    + intros (pre & a' & post & Eq & Ha & Hpre & Hprev). destruct pre as [|p pre]; simplify_eq/=; [done|].
      exists pre, a', post. split_and!; [done|done|set_solver|].
      intros b Hb. apply Hprev. set_solver.
Qed.

(** Two nodes that saw the same previous partition and now are in disjoint parts
    of it. *)
Record split_views (s1 s2 : vq) : Prop := {
  sv_atb : auto_tie_breaker s1 = auto_tie_breaker s2;
  sv_list : atb_nodelist s1 = atb_nodelist s2;
  sv_low : lowest_node_id s1 = lowest_node_id s2;
  sv_high : highest_node_id s1 = highest_node_id s2;
  sv_prev1 : forall m, m ∈ quorum_members s1 -> m ∈ previous_quorum_members s2;
  sv_prev2 : forall m, m ∈ quorum_members s2 -> m ∈ previous_quorum_members s1;
  sv_disjoint : forall m, m ∈ quorum_members s1 -> m ∉ quorum_members s2;
  sv_nodes : forall n1 n2, n1 ∈ voters s1 -> n2 ∈ voters s2 -> node_id n1 <> node_id n2
}.

Lemma existsb_voter p s :
  existsb (fun n => is_member (node_state n) && p n) (member_nodes s) = true ->
  exists n, n ∈ voters s /\ p n = true.
Proof.
  rewrite existsb_exists. intros (n & Hn & Hp). zbool. exists n. split; [|done].
  unfold voters. apply list_elem_of_In, filter_In. done.
Qed.

Lemma atb_list_exclusive s1 s2 :
  split_views s1 s2 ->
  check_atb_list s1 [] (atb_nodelist s1) = true -> check_atb_list s2 [] (atb_nodelist s2) = true -> False.
Proof.
  intros Hv (p1 & a1 & r1 & E1 & In1 & N1 & P1)%check_atb_list_spec
            (p2 & a2 & r2 & E2 & In2 & N2 & P2)%check_atb_list_spec.
  rewrite <- (sv_list _ _ Hv), E1 in E2. cbn in P1, P2.
  destruct (app_eq_app _ _ _ _ E2) as (k & [[-> Hk]|[-> Hk]]).
  - destruct k as [|x k]; cbn in Hk; simplify_eq.
    + apply (sv_disjoint _ _ Hv (u32 a1)); done.
    + apply (P1 x); [set_solver|]. now apply (sv_prev2 _ _ Hv).
  - destruct k as [|x k]; cbn in Hk; simplify_eq.
    + apply (sv_disjoint _ _ Hv (u32 a2)); done.
    + apply (P2 x); [set_solver|]. now apply (sv_prev1 _ _ Hv).
Qed.

(** C12: The tie breaker picks at most one side of a split: two nodes with the same
    tie-breaker settings that are in disjoint parts of one previous partition
    never both win [check_auto_tie_breaker], whether it goes by the lowest node
    id, the highest, or the configured list. *)
Theorem auto_tie_breaker_exclusive s1 s2 :
  split_views s1 s2 ->
  ~ (check_auto_tie_breaker s1 = true /\ check_auto_tie_breaker s2 = true).
Proof.
  intros Hv [H1 H2]. unfold check_auto_tie_breaker in *. rewrite <- (sv_atb _ _ Hv) in H2.
  destruct (auto_tie_breaker s1).
  - eapply atb_list_exclusive; eauto.
  - apply existsb_voter in H1 as (n1 & M1 & E1), H2 as (n2 & M2 & E2). zbool.
    apply (sv_nodes _ _ Hv n1 n2); try done. rewrite E1, E2. apply (sv_low _ _ Hv).
  - apply existsb_voter in H1 as (n1 & M1 & E1), H2 as (n2 & M2 & E2). zbool.
    apply (sv_nodes _ _ Hv n1 n2); try done. rewrite E1, E2. apply (sv_high _ _ Hv).
  - eapply atb_list_exclusive; eauto.
Qed.

(** Node [id] of a two-node cluster after a split, with the list [2; 1]. *)
Definition demo_split (id : Z) : vq :=
  demo_node id <| auto_tie_breaker := ATB_LIST |> <| atb_nodelist := [2; 1] |>
    <| lowest_node_id := 1 |> <| highest_node_id := 2 |>
    <| previous_quorum_members := [1; 2] |> <| quorum_members := [id] |>.

Lemma auto_tie_breaker_exclusive_witness :
  check_auto_tie_breaker (demo_split 2) = true
  /\ ~ (check_auto_tie_breaker (demo_split 1) = true /\ check_auto_tie_breaker (demo_split 2) = true).
Proof.
  split; [vm_compute; reflexivity|].
  apply (auto_tie_breaker_exclusive (demo_split 1) (demo_split 2)).
  split; try (vm_compute; reflexivity); try by_compute_forall.
  intros n1 n2 H1 H2. revert n1 H1. apply Forall_forall.
  revert n2 H2. apply Forall_forall. by_compute.
Defined.

(** ** A client changes the expected votes *)

(** The members' records after [update_node_expected_votes]. *)
Lemma update_node_expected_votes_at v s j :
  (forall i, i ∈ cluster_members_list s -> (i < length (cluster_nodes s))%nat) -> c_true v = true ->
  node_at (update_node_expected_votes v s) j =
  if decide (j ∈ cluster_members_list s /\ node_state (node_at s j) = NODESTATE_MEMBER)
  then node_at s j <| expected_votes := v |> else node_at s j.
Proof.
  intros Hsl Hv. unfold update_node_expected_votes. rewrite Hv.
  revert Hsl. generalize (cluster_members_list s) as l. intros l. revert s.
  induction l as [|i l IH]; intros s Hsl; cbn.
  { rewrite decide_False; [done|set_solver]. }
  set (s1 := if is_member (node_state (node_at s i)) then _ else s).
  assert (H1 : node_at s1 j =
    if decide (j = i /\ node_state (node_at s j) = NODESTATE_MEMBER)
    then node_at s j <| expected_votes := v |> else node_at s j).
  { subst s1. unfold is_member. case_bool_decide as E.
    - destruct (decide (i = j)) as [->|Hne].
      + rewrite node_at_upd_same by (apply Hsl; left). now rewrite decide_True.
      + rewrite node_at_upd_other, decide_False by naive_solver. done.
    - rewrite decide_False by (intros [-> ?]; done). done. }
  assert (Hst : node_state (node_at s1 j) = node_state (node_at s j)).
  { rewrite H1. case_decide; done. }
  rewrite IH.
  - rewrite Hst, H1. destruct (decide (j ∈ l /\ _)) as [[? ?]|Hn1].
    + rewrite (decide_True (P := j ∈ i :: l /\ _)) by (split; [now right|done]). case_decide; done.
    + case_decide as E2.
      * rewrite decide_True; [done|]. destruct E2 as [-> ?]. split; [left|done].
      * rewrite decide_False; [done|]. intros [[->|?]%elem_of_cons ?]; naive_solver.
  - intros k Hk. assert (E : length (cluster_nodes s1) = length (cluster_nodes s)).
    { subst s1. destruct (is_member _); [|done]. cbn. apply length_alter. }
    rewrite E. apply Hsl. now right.
Qed.

Definition members_expect (v : Z) (s : vq) : Prop :=
  forall n, n ∈ voters s -> expected_votes n = v.

Lemma voters_update_expected v s n :
  table_wf s -> c_true v = true ->
  n ∈ voters (update_node_expected_votes v s) ->
  expected_votes n = v.
Proof.
  intros Hwf Hv Hn. unfold voters in Hn. apply list_elem_of_In, filter_In in Hn as [Hn Hm].
  apply in_map_iff in Hn as (i & <- & Hi%list_elem_of_In).
  pose proof (frame_update_node_expected_votes v s) as Hf. unfold frame in Hf.
  assert (Em : cluster_members_list (update_node_expected_votes v s) = cluster_members_list s) by congruence.
  rewrite Em in Hi. unfold is_member in Hm. apply bool_decide_eq_true in Hm. revert Hm.
  rewrite update_node_expected_votes_at by (auto using wf_slots).
  case_decide as E; [done|]. intros Hm. destruct E. done.
Qed.

Lemma update_expected_proj {T} (p : cluster_node -> T) v s j :
  (forall n, p (n <| expected_votes := v |>) = p n) ->
  p (node_at (update_node_expected_votes v s) j) = p (node_at s j).
Proof.
  intros Hp. unfold update_node_expected_votes. destruct (c_true v); [|done].
  generalize (cluster_members_list s) as l. intros l. revert s.
  induction l as [|i l IH]; intros s; cbn; [done|]. rewrite IH.
  destruct (is_member _); [|done]. now apply node_at_upd_proj.
Qed.

Lemma members_update_expected v s :
  cluster_members_list (update_node_expected_votes v s) = cluster_members_list s
  /\ us (update_node_expected_votes v s) = us s
  /\ qdevice (update_node_expected_votes v s) = qdevice s.
Proof.
  pose proof (frame_update_node_expected_votes v s) as H. unfold frame in H.
  split_and!; congruence.
Qed.

Lemma counted_update_expected v s :
  counted_votes (update_node_expected_votes v s) = counted_votes s
  /\ counted_nodes (update_node_expected_votes v s) = counted_nodes s
  /\ votes (qdevice_node (update_node_expected_votes v s)) = votes (qdevice_node s)
  /\ node_state (us_node (update_node_expected_votes v s)) = node_state (us_node s).
Proof.
  destruct (members_update_expected v s) as (Em & Eu & Eq).
  assert (Hm : forall T (p : cluster_node -> T), (forall n, p (n <| expected_votes := v |>) = p n) ->
    map p (member_nodes (update_node_expected_votes v s)) = map p (member_nodes s)).
  { intros T p Hp. unfold member_nodes. rewrite Em, !map_map. apply map_ext. intros j.
    now apply update_expected_proj. }
  unfold counted_votes, counted_nodes, us_node, qdevice_node.
  rewrite !voters_votes_map, !voters_count_map, !Hm by done. rewrite Eu, Eq.
  rewrite (update_expected_proj flags), (update_expected_proj votes),
    (update_expected_proj node_state) by done. done.
Qed.

Lemma decide_quorate_enough t s : quorum s <= t -> fst (decide_quorate t s) = true.
Proof.
  intros H. unfold decide_quorate. destruct (Z.ltb_spec t (quorum s)); [lia|]. cbn.
  match goal with |- context [if ?b then true else true] => destruct b end; cbn;
    now rewrite andb_false_r.
Qed.

Lemma are_we_quorate_enough t s s' :
  c_true (wait_for_all_status s) = false -> quorum s <= t ->
  are_we_quorate t s = Some s' -> cluster_is_quorate s' = true.
Proof.
  intros Hw Hq. unfold are_we_quorate. rewrite Hw, andb_false_r. cbn [andb].
  pose proof (decide_quorate_enough t s Hq) as Hd.
  destruct (decide_quorate t s) as [q s1]. cbn in Hd. subst q. intros [= <-].
  pose proof (frame_apply_quorate true s1) as (_ & _ & _ & -> & _)%frame_wfa. done.
Qed.

(** A node without a device whose votes reach the majority of [v]. *)
Record has_majority (v : Z) (s : vq) : Prop := {
  hm_wf : table_wf s;
  hm_us : node_state (us_node s) = NODESTATE_MEMBER;
  hm_range : 0 < v <= 508;
  hm_qdevice : votes (qdevice_node s) = 0;
  hm_counted : 0 <= counted_votes s <= v;
  hm_status : c_true (wait_for_all_status s) = false;
  hm_votes : (if c_true (two_node s) && (u32 (counted_nodes s) <=? 2) then 1
              else Z.max ((v + 2) / 2) ((counted_votes s + 2) / 2)) <= counted_votes s
}.

(** A recalculation by such a node whose members all expect [v] votes leaves it
    quorate. *)
Lemma recalculate_keeps_quorate v s s' :
  has_majority v s -> members_expect v s ->
  recalculate_quorum true false s = Some s' -> cluster_is_quorate s' = true.
Proof.
  intros [Hwf Hst Hv Hq Hc Hw Hmaj] Hm. rewrite recalculate_quorum_eq. cbn zeta.
  assert (Hus : us_node s ∈ voters s) by (apply voters_in; [exact (wf_us _ Hwf)|done]).
  assert (Hcv : counted_votes s = sumZ votes (voters s)).
  { unfold counted_votes. rewrite Hq. destruct (has_flag _ _); lia. }
  assert (Hraise : raise_expected s = s).
  { unfold raise_expected. rewrite get_total_votes_spec, Hq, (Hm _ Hus), Z.add_0_r, <- Hcv, u32_small by lia.
    destruct (Z.ltb_spec v (counted_votes s)); [lia|done]. }
  assert (Hh : highest (voters s) = v).
  { apply Z.le_antisymm; [apply highest_le; [lia|]; intros n Hn; now rewrite (Hm n Hn)|].
    rewrite <- (Hm _ Hus). now apply highest_ge. }
  assert (Hcq : calculate_quorum true 0 (recalc_expected s) = calculate_quorum true 0 s).
  { now rewrite <- (calculate_quorum_quiet _ _ (recalc_expected s)), quiet_recalc_expected, Hraise. }
  rewrite Hcq, calculate_quorum_total, calculate_quorum_value.
  replace (effective_expected true 0 s) with v
    by (unfold effective_expected; change (c_true 0) with false; rewrite andb_false_r; cbn; done).
  cbv zeta. rewrite (u32_small (v + 2)), (u32_small (counted_votes s + 2)), (u32_small (counted_votes s)) by lia.
  intros Hr. eapply are_we_quorate_enough; [| |exact Hr].
  - change (c_true (wait_for_all_status (recalc_expected s)) = false).
    pose proof (frame_recalc_expected s) as (_ & -> & _)%frame_wfa. done.
  - change (u8 (if c_true (two_node s) && (u32 (counted_nodes s) <=? 2) then 1
                else Z.max ((v + 2) / 2) ((counted_votes s + 2) / 2)) <= counted_votes s).
    pose proof (half_up_gt v). rewrite u8_small; [done|]. destruct (_ && _); [lia|].
    pose proof (half_up_le v 255 ltac:(lia)).
    pose proof (half_up_le (counted_votes s) 255 ltac:(lia)). lia.
Qed.

Lemma two_node_update_expected v s :
  two_node (update_node_expected_votes v s) = two_node s
  /\ ev_tracking (update_node_expected_votes v s) = ev_tracking s.
Proof.
  unfold update_node_expected_votes. destruct (c_true v); [|done].
  generalize (cluster_members_list s) as l. intros l. revert s.
  induction l as [|i l IH]; intros s; cbn; [done|].
  destruct (IH (if is_member (node_state (node_at s i))
                then upd_node i (fun n => n <| expected_votes := v |>) s else s)) as (-> & ->).
  destruct (is_member _); done.
Qed.

Lemma has_majority_update v w s : has_majority v s -> has_majority v (update_node_expected_votes w s).
Proof.
  intros [Hwf Hst Hv Hq Hc Hw Hmaj].
  destruct (counted_update_expected w s) as (C1 & C2 & C3 & C4).
  pose proof (frame_update_node_expected_votes w s) as Hf.
  split; rewrite ?C1, ?C2, ?C3, ?C4, ?(proj1 (two_node_update_expected w s)); try done.
  - now apply (table_wf_frame s).
  - apply frame_wfa in Hf as (_ & -> & _). done.
Qed.

(** Neither the log nor the barrier matters. *)
Lemma has_majority_quiet v b s s' :
  quiet s' = quiet s <| ev_barrier := b |> -> has_majority v s -> has_majority v s'.
Proof.
  intros E H.
  assert (H' : has_majority v (quiet s')).
  { rewrite E. destruct H as [[? ? ? ? ?] ? ? ? ? ? ?]. split; [split|..]; assumption. }
  destruct H' as [[? ? ? ? ?] ? ? ? ? ? ?]. split; [split|..]; assumption.
Qed.

(** What the check of [setexpected] establishes when it passes. *)
Lemma setexpected_accepted tm conn ev s :
  last (out (message_handler_req_lib_votequorum_setexpected tm conn ev s))
    = Some (ResponseStatus conn CS_OK) ->
  snd (calculate_quorum true ev (s <| allow_downscale := 0 |>)) <= ev
  /\ (cluster_is_quorate s = true ->
      fst (calculate_quorum true ev (s <| allow_downscale := 0 |>))
      <= snd (calculate_quorum true ev (s <| allow_downscale := 0 |>)))
  /\ exists e1 e2, message_handler_req_lib_votequorum_setexpected tm conn ev s
                   = emit e2 (emit e1 (update_node_expected_votes ev s)).
Proof.
  unfold message_handler_req_lib_votequorum_setexpected.
  destruct (calculate_quorum _ _ _) as [newq total]. cbn [fst snd].
  destruct (_ || _) eqn:E.
  - intros H. unfold emit in H. cbn in H. rewrite last_snoc in H. discriminate H.
  - unfold votequorum_exec_send_reconfigure, mcast. intros _. zbool.
    split; [lia|]. split; [intros Hq; rewrite Hq in *; zbool; lia|]. eauto.
Qed.

Lemma has_majority_setexpected ev s :
  vq_inv s -> small_cluster s -> 0 < ev <= 508 ->
  votes (qdevice_node s) = 0 -> cluster_is_quorate s = true ->
  snd (calculate_quorum true ev (s <| allow_downscale := 0 |>)) <= ev ->
  fst (calculate_quorum true ev (s <| allow_downscale := 0 |>))
    <= snd (calculate_quorum true ev (s <| allow_downscale := 0 |>)) ->
  has_majority ev s.
Proof.
  intros Hinv Hs Hev Hq Hqr Hle Hmaj.
  rewrite calculate_quorum_total in Hle. rewrite calculate_quorum_total, calculate_quorum_value in Hmaj.
  pose proof (counted_votes_bound _ Hs) as Hcb.
  change (counted_votes (s <| allow_downscale := 0 |>)) with (counted_votes s) in *.
  change (counted_nodes (s <| allow_downscale := 0 |>)) with (counted_nodes s) in *.
  change (two_node (s <| allow_downscale := 0 |>)) with (two_node s) in *.
  assert (Hee : effective_expected true ev (s <| allow_downscale := 0 |>) = ev).
  { unfold effective_expected. change (c_true (allow_downscale _)) with false.
    cbn [andb]. destruct (Z.ltb_spec 0 ev); [done|lia]. }
  rewrite Hee in Hmaj. clear Hee. cbv zeta in Hmaj.
  rewrite (u32_small (counted_votes s)) in Hle by lia.
  rewrite (u32_small (ev + 2)), (u32_small (counted_votes s + 2)), (u32_small (counted_votes s)) in Hmaj by lia.
  split; [apply (sc_wf _ Hs)|apply (sc_us _ Hs)|done|done|lia| |done].
  destruct (c_true (wait_for_all_status s)) eqn:E; [|done].
  destruct (inv_wfa _ Hinv E) as [_ ?]. congruence.
Qed.

(** A client cannot lose the quorum of a quorate cluster by changing the
    expected votes: when [setexpected] accepts a value (its reply is [CS_OK]) on a
    quorate node without a device, the node is still quorate after the
    reconfigure message that [setexpected] sends has been handled. *)
Theorem setexpected_keeps_quorate tm conn ev id s s' :
  vq_inv s -> small_cluster s -> 0 < ev <= 508 ->
  votes (qdevice_node s) = 0 -> c_true (ev_tracking s) = false -> cluster_is_quorate s = true ->
  last (out (message_handler_req_lib_votequorum_setexpected tm conn ev s))
    = Some (ResponseStatus conn CS_OK) ->
  message_handler_req_exec_votequorum_reconfigure VOTEQUORUM_RECONFIG_PARAM_EXPECTED_VOTES id ev
    (message_handler_req_lib_votequorum_setexpected tm conn ev s) = Some s' ->
  cluster_is_quorate s' = true.
Proof.
  intros Hinv Hs Hev Hq Htr Hqr Hacc. apply setexpected_accepted in Hacc as (Hle & Hmaj & e1 & e2 & ->).
  pose proof (has_majority_setexpected ev s Hinv Hs Hev Hq Hqr Hle (Hmaj Hqr)) as Hm. clear Hle Hmaj.
  unfold message_handler_req_exec_votequorum_reconfigure. cbn zeta. rewrite Z.eqb_refl.
  set (s1 := emit e2 (emit e1 (update_node_expected_votes ev s))).
  assert (Hm1 : has_majority ev s1).
  { apply (has_majority_update _ ev) in Hm. destruct Hm as [[? ? ? ? ?] ? ? ? ? ? ?].
    split; [split|..]; assumption. }
  set (s2 := update_node_expected_votes ev s1).
  assert (Hm2 : has_majority ev s2 /\ members_expect ev s2).
  { split; [now apply has_majority_update|]. intros n Hn. apply (voters_update_expected ev s1); [|..|done].
    - apply (hm_wf _ _ Hm1).
    - unfold c_true. destruct (Z.eqb_spec ev 0); [lia|done]. }
  set (s3 := update_ev_barrier ev (votequorum_exec_send_expectedvotes_notification s2)).
  assert (Hq3 : quiet s3 = quiet s2 <| ev_barrier := ev |>).
  { transitivity (quiet (votequorum_exec_send_expectedvotes_notification s2) <| ev_barrier := ev |>); [reflexivity|].
    unfold votequorum_exec_send_expectedvotes_notification. now rewrite quiet_to_trackers. }
  assert (Htrk : c_true (ev_tracking s3) = false).
  { change (c_true (ev_tracking (quiet s3)) = false). rewrite Hq3.
    change (c_true (ev_tracking s2) = false). subst s2 s1.
    rewrite (proj2 (two_node_update_expected _ _)).
    change (c_true (ev_tracking (update_node_expected_votes ev s)) = false).
    now rewrite (proj2 (two_node_update_expected _ _)). }
  rewrite Htrk. apply recalculate_keeps_quorate with (v := ev).
  - eapply has_majority_quiet; [exact Hq3|apply Hm2].
  - intros n Hn. change (n ∈ voters (quiet s3)) in Hn. rewrite Hq3 in Hn. now apply (proj2 Hm2).
Qed.

Lemma setexpected_keeps_quorate_witness :
  exists s', message_handler_req_exec_votequorum_reconfigure VOTEQUORUM_RECONFIG_PARAM_EXPECTED_VOTES 1 2
    (message_handler_req_lib_votequorum_setexpected demo_mcast 7 2 (demo_join 2 (demo_node 1))) = Some s'
  /\ cluster_is_quorate s' = true.
Proof.
  eexists. split; [vm_compute; reflexivity|].
  apply (setexpected_keeps_quorate demo_mcast 7 2 1 (demo_join 2 (demo_node 1))).
  - check_vq_inv.
  - check_small.
  - by_compute.
  - by_compute.
  - by_compute.
  - by_compute.
  - vm_compute. reflexivity.
  - vm_compute. reflexivity.
Defined.

(** ** Accepted configurations *)

(** The modes of a configuration, which the last part of the reading keeps. *)
Definition modes (s : vq) :=
  (two_node s, wait_for_all s, auto_tie_breaker s, last_man_standing s, allow_downscale s).

Strategy 1000 [modes].

Lemma modes_upd_node i f s : modes (upd_node i f s) = modes s.
Proof. reflexivity. Qed.

Lemma modes_set_votes cfg nl hq qv ne ev s : modes (readconfig_set_votes cfg nl hq qv ne ev s) = modes s.
Proof.
  unfold readconfig_set_votes, upd_us.
  destruct (qv =? u32 (-1)), hq, (c_true ev), nl; rewrite ?modes_upd_node; reflexivity.
Qed.

Lemma modes_wfa_status rt s : modes (readconfig_wfa_status rt s) = modes s.
Proof.
  unfold readconfig_wfa_status, update_wait_for_all_status.
  destruct (c_true (wait_for_all s)), rt, (wait_for_all_autoset s), (c_true (wait_for_all_status s)); reflexivity.
Qed.

Lemma modes_apply cfg rt nl hq qv ev s : modes (readconfig_apply cfg rt nl hq qv ev s) = modes s.
Proof.
  unfold readconfig_apply.
  match goal with |- context [let '(_, _) := ?x in _] => destruct x as [qv' ne'] end.
  rewrite modes_wfa_status. etransitivity; [|apply (modes_set_votes cfg nl hq qv' ne')]. reflexivity.
Qed.

Lemma conflict_startup e c r s :
  qdevice_conflict false e c r = inr s -> r = inr s /\ c = false.
Proof. unfold qdevice_conflict. destruct r; [done|]. destruct c; [done|]. naive_solver. Qed.

Lemma conflicts_startup hn hq nc ne qv ev s s' :
  readconfig_conflicts false hn hq nc ne qv ev s = inr s' ->
  s' = s
  /\ hq && c_true (last_man_standing s) = false /\ hq && atb_on (auto_tie_breaker s) = false
  /\ hq && c_true (allow_downscale s) = false
  /\ (0 <? qv) && c_true ev && (s32 (ev - qv) <? 2) = false.
Proof.
  unfold readconfig_conflicts. cbn zeta.
  intros [H E6]%conflict_startup. apply conflict_startup in H as [H E5].
  apply conflict_startup in H as [H E4]. apply conflict_startup in H as [H E3].
  apply conflict_startup in H as [H E2]. apply conflict_startup in H as [H E1].
  split; [congruence|done].
Qed.

Lemma two_node_features cfg st cc s s' :
  readconfig_features cfg st cc s = inr s' -> two_node s' = two_node s.
Proof.
  unfold readconfig_features, readconfig_ev_tracking.
  assert (H : two_node (readconfig_atb cfg (readconfig_options cfg s)) = two_node s).
  { unfold readconfig_atb, parse_atb_string, readconfig_options.
    destruct (icmap_get_uint8 cfg "quorum.wait_for_all"), (c_true _),
      (icmap_get_string cfg "quorum.auto_tie_breaker_node"); try reflexivity;
    destruct (c_true _); reflexivity. }
  rewrite <- H. generalize (readconfig_atb cfg (readconfig_options cfg s)). clear. intros s.
  set (s1 := if c_true (allow_downscale s) then _ else _).
  assert (H1 : two_node s1 = two_node s) by (subst s1; destruct (c_true _); done).
  clearbody s1. cbn zeta. destruct (c_true (ev_tracking s1)); [|intros [= <-]; done].
  unfold load_ev_tracking_barrier, update_ev_tracking_barrier.
  destruct st; [|destruct cc]; cbv beta iota zeta; [| |intros [=]];
    change (0 <? 0) with false; intros [= <-]; rewrite <- H1; reflexivity.
Qed.

Lemma modes_spec ne s s' :
  readconfig_modes ne s = inr s' ->
  (c_true (two_node s') = true -> two_node s' = two_node s /\ atb_on (auto_tie_breaker s') = false)
  /\ (atb_on (auto_tie_breaker s') = true -> c_true (ne mod 2) = true -> c_true (wait_for_all s') = true).
Proof.
  unfold readconfig_modes.
  set (s1 := if wait_for_all_autoset s then _ else s).
  assert (H1 : two_node s1 = two_node s) by (subst s1; destruct (wait_for_all_autoset s); done).
  clearbody s1. cbn zeta.
  set (s2 := if c_true (two_node s1) && _ then _ else s1).
  assert (H2 : c_true (two_node s2) = true -> two_node s2 = two_node s1 /\ atb_on (auto_tie_breaker s2) = false).
  { subst s2. destruct (c_true (two_node s1)) eqn:E1; destruct (atb_on (auto_tie_breaker s1)) eqn:E2;
      cbn; rewrite ?E2; try done. congruence. }
  clearbody s2. destruct (atb_on (auto_tie_breaker s2)) eqn:Ea, (c_true (ne mod 2)) eqn:En,
    (c_true (wait_for_all s2)) eqn:Ew, (c_true (last_man_standing s2)); cbn; intros H; simplify_eq;
    cbn; rewrite ?Ea, ?Ew; rewrite <- ?H1; naive_solver.
Qed.

(** A configuration the service accepts at start-up is coherent: with a quorum
    device, two-node mode, last-man-standing, the tie breaker and downscaling are
    all off, and the device's votes leave at least two of the expected votes to
    the nodes; two-node mode and the tie breaker exclude each other; and in a node
    list with an odd number of votes the tie breaker comes with wait-for-all. *)
Theorem readconfig_coherent cfg st cc s s' :
  votequorum_readconfig cfg st cc false s = (None, s') ->
  let '(have_qdevice, qdevice_votes, _) := readconfig_gather cfg false s in
  let ev := default 0 (icmap_get_uint32 cfg "quorum.expected_votes") in
  (have_qdevice = true ->
     c_true (two_node s') = false /\ c_true (last_man_standing s') = false
     /\ auto_tie_breaker s' = ATB_NONE /\ c_true (allow_downscale s') = false)
  /\ (0 < qdevice_votes -> c_true ev = true -> 2 <= s32 (ev - qdevice_votes))
  /\ (c_true (two_node s') = true -> auto_tie_breaker s' = ATB_NONE)
  /\ (atb_on (auto_tie_breaker s') = true ->
      c_true (from_option nl_expected_votes 0 (votequorum_read_nodelist_configuration cfg) mod 2) = true ->
      c_true (wait_for_all s') = true).
Proof.
  unfold votequorum_readconfig. cbn zeta.
  destruct (readconfig_gather cfg false s) as [[hq qv] s0].
  destruct (_ && _); [done|]. rewrite andb_true_r. destruct (c_true (two_node s0) && hq) eqn:Etq; [done|].
  assert (E1 : readconfig_two_node_qdevice hq s0 = s0) by (unfold readconfig_two_node_qdevice; now rewrite Etq).
  rewrite E1. destruct (readconfig_features cfg st cc s0) as [[e s1]|s1] eqn:Ef; [done|].
  apply two_node_features in Ef.
  destruct (readconfig_modes _ s1) as [[e s2]|s2] eqn:Em; [done|]. apply modes_spec in Em as [Em1 Em2].
  destruct (readconfig_conflicts _ _ _ _ _ _ _ s2) as [[e s3]|s3] eqn:Ec; [done|].
  apply conflicts_startup in Ec as (-> & C1 & C2 & C3 & C4). intros [= <-].
  match goal with |- context [readconfig_apply ?a ?b ?c ?d ?e ?f ?g] =>
    pose proof (modes_apply a b c d e f g) as Hm end.
  unfold modes in Hm. injection Hm as -> -> -> -> ->.
  assert (Hoff : forall a, atb_on a = false -> a = ATB_NONE).
  { intros a. unfold atb_on. rewrite bool_decide_eq_false. destruct a; naive_solver. }
  split_and!.
  - intros ->. rewrite andb_true_r in Etq. cbn in C1, C2, C3. split_and!; auto.
    destruct (c_true (two_node s2)) eqn:E; [|done]. destruct (Em1 eq_refl) as [E' _].
    rewrite E', Ef in E. congruence.
  - intros Hq Hev. unfold or_keep in *. apply Z.ltb_lt in Hq. rewrite Hq, Hev in C4. cbn in C4. lia.
  - intros Ht. apply Hoff. now apply Em1.
  - auto.
Qed.

Lemma readconfig_coherent_witness :
  let '(have_qdevice, qdevice_votes, _) := readconfig_gather (demo_cfg 0) false (demo_node 1) in
  let ev := default 0 (icmap_get_uint32 (demo_cfg 0) "quorum.expected_votes") in
  let s' := snd (votequorum_readconfig (demo_cfg 0) None true false (demo_node 1)) in
  (have_qdevice = true ->
     c_true (two_node s') = false /\ c_true (last_man_standing s') = false
     /\ auto_tie_breaker s' = ATB_NONE /\ c_true (allow_downscale s') = false)
  /\ (0 < qdevice_votes -> c_true ev = true -> 2 <= s32 (ev - qdevice_votes))
  /\ (c_true (two_node s') = true -> auto_tie_breaker s' = ATB_NONE)
  /\ (atb_on (auto_tie_breaker s') = true ->
      c_true (from_option nl_expected_votes 0
                (votequorum_read_nodelist_configuration (demo_cfg 0)) mod 2) = true ->
      c_true (wait_for_all s') = true).
Proof.
  apply (readconfig_coherent (demo_cfg 0) None true (demo_node 1)
           (snd (votequorum_readconfig (demo_cfg 0) None true false (demo_node 1)))).
  vm_compute. reflexivity.
Defined.

(** ** Where the code does not do what it sets out to do *)

(** [node_add_ordered] keeps every member, but does not keep the list ordered:
    a node with the highest id is put in front of the last one instead of behind
    it.  Adding node 2 to the list of node 1 gives the order 2, 1. *)
Theorem node_add_ordered_not_ordered :
  (forall new s, cluster_members_list (node_add_ordered new s) ≡ₚ new :: cluster_members_list s)
  /\ map node_id (member_nodes (demo_node 1)) = [1]
  /\ map node_id (member_nodes (demo_join 2 (demo_node 1))) = [2; 1].
Proof. split; [apply node_add_ordered_members|]. split; vm_compute; reflexivity. Qed.

Definition is_ev_write (e : effect) : bool := match e with EvTrackingWrite _ => true | _ => false end.

(** The expected-votes barrier is never saved after the start:
    [load_ev_tracking_barrier] closes the tracking file on every path, so that a
    later [update_ev_tracking_barrier] writes nothing, whatever the file held and
    whatever the new value. *)
Theorem ev_tracking_never_saved stored can_create v s :
  let s1 := snd (load_ev_tracking_barrier stored can_create s) in
  let s2 := update_ev_tracking_barrier v s1 in
  ev_tracking_barrier s2 = v
  /\ List.filter is_ev_write (out s2) = List.filter is_ev_write (out s1).
Proof.
  unfold load_ev_tracking_barrier, update_ev_tracking_barrier.
  destruct stored; [|destruct can_create]; cbn; rewrite !List.filter_app; cbn; rewrite ?app_nil_r; done.
Qed.

(** A configuration with two-node mode, the tie breaker and last-man-standing in
    a node list of three nodes; [tn] is the value of [two_node]. *)
Definition odd_cfg (tn : Z) : icmap_view :=
  mk_icmap_view
    (fun k => if String.eqb k "quorum.two_node" then Some tn
              else if String.eqb k "quorum.auto_tie_breaker" then Some 1
              else if String.eqb k "quorum.last_man_standing" then Some 1 else None)
    (icmap_get_uint32 (demo_cfg 0)) (fun _ => None) (fun _ => None) (icmap_iter (demo_cfg 0)).

(** Node 1 starts, [two_node] is taken out of the configuration, node 2 joins,
    [two_node] is put back, node 2 announces itself again. *)
Definition odd_run : option vq :=
  match votequorum_exec_init_fn demo_mcast (odd_cfg 1) None true 1 vq_static with
  | Some (inr s) =>
      vq_run demo_mcast
        [EvRefreshConfig (odd_cfg 0) 0 "quorum.two_node";
         EvExec (NODEINFO 2 1 3 0) 2;
         EvRefreshConfig (odd_cfg 1) 0 "quorum.two_node";
         EvExec (NODEINFO 2 1 3 NODE_FLAGS_FIRST) 2] s
  | _ => Some vq_static
  end.

(** The error exit of a reload can make the service abort: when the reload
    fails because of the tie breaker and last-man-standing in an odd cluster, it
    has already switched wait-for-all off but does not reset its status; after a
    second reload the stale status meets a quorate node and the assertion of
    [are_we_quorate] fails. *)
Theorem reload_error_breaks_wfa : odd_run = None.
Proof. vm_compute. reflexivity. Qed.
