(* ===== verification/SortQueue.v ===== *)
(** * The sort queue (include/corosync/sq.h)

    A ring of [size] slots that holds the messages of the window
    [head_seqid, head_seqid + size) of 32-bit sequence numbers that may roll
    over.  An item is a value of a type [A] with a value [zero] that stands for
    the zeroed bytes; [items], [items_inuse] and [items_miss_count] are the three
    arrays.  A failed [assert] or an access outside an array is [None]. *)
From S2P Require Import Prelude.

Definition ADJUST_ROLLOVER_POINT : Z := 2147483648.
Definition ADJUST_ROLLOVER_VALUE : Z := 65536.
Definition ENOENT : Z := 2.
Definition ENOMEM : Z := 12.

Definition sq_lt_compare (a b : Z) : bool :=
  if (ADJUST_ROLLOVER_POINT <? a) || (ADJUST_ROLLOVER_POINT <? b)
  then u32 (a - ADJUST_ROLLOVER_VALUE) <? u32 (b - ADJUST_ROLLOVER_VALUE)
  else a <? b.

Definition sq_lte_compare (a b : Z) : bool :=
  if (ADJUST_ROLLOVER_POINT <? a) || (ADJUST_ROLLOVER_POINT <? b)
  then u32 (a - ADJUST_ROLLOVER_VALUE) <=? u32 (b - ADJUST_ROLLOVER_VALUE)
  else a <=? b.

(** ** Arrays

    [a[i]] and [a[i] = x] with an index that must be in range, and [memset] of
    [n] elements from index [i] on. *)
Definition arr_get {T} (a : list T) (i : Z) : option T :=
  if 0 <=? i then a !! Z.to_nat i else None.
Definition arr_set {T} (a : list T) (i : Z) (x : T) : option (list T) :=
  if (0 <=? i) && (i <? Z.of_nat (length a)) then Some (<[Z.to_nat i := x]> a) else None.
Definition arr_clear {T} (x : T) (a : list T) (i n : Z) : option (list T) :=
  if (0 <=? i) && (0 <=? n) && (i + n <=? Z.of_nat (length a))
  then Some (take (Z.to_nat i) a ++ replicate (Z.to_nat n) x ++ drop (Z.to_nat (i + n)) a)
  else None.

Record sq (A : Type) := mk_sq {
  head : Z;
  size : Z;
  items : list A;
  items_inuse : list Z;
  items_miss_count : list Z;
  head_seqid : Z;
  item_count : Z;
  pos_max : Z
}.
Arguments mk_sq {A}. Arguments head {A}. Arguments size {A}. Arguments items {A}.
Arguments items_inuse {A}. Arguments items_miss_count {A}. Arguments head_seqid {A}.
Arguments item_count {A}. Arguments pos_max {A}.
#[export] Instance sq_eta {A} : Etable (sq A) := fun q =>
  mk_sq (head q) (size q) (items q) (items_inuse q) (items_miss_count q) (head_seqid q)
    (item_count q) (pos_max q).

Section SortQueue.
Context {A : Type} (zero : A).

(** [mallocs]: whether each of the three allocations succeeds; an array that
    was not allocated is empty. *)
Definition sq_init (mallocs : bool * bool * bool) (count seqid : Z) : Z * sq A :=
  let '(m1, m2, m3) := mallocs in
  let n := Z.to_nat count in
  let q := mk_sq 0 (u32 count) [] [] [] (u32 seqid) (u32 count) 0 in
  if negb m1 then (- ENOMEM, q)
  else if negb m2 then (- ENOMEM, q <| items := replicate n zero |>)
  else if negb m3 then (- ENOMEM, q <| items := replicate n zero |>)
  else (0, q <| items := replicate n zero |> <| items_inuse := replicate n 0 |>
             <| items_miss_count := replicate n 0 |>).

Definition sq_reinit (seqid : Z) (q : sq A) : option (sq A) :=
  it ← arr_clear zero (items q) 0 (item_count q);
  iu ← arr_clear 0 (items_inuse q) 0 (item_count q);
  mc ← arr_clear 0 (items_miss_count q) 0 (item_count q);
  Some (q <| head := 0 |> <| head_seqid := seqid |> <| pos_max := 0 |> <| items := it |>
          <| items_inuse := iu |> <| items_miss_count := mc |>).

(** The loop of [sq_assert] over the array elements [l], [n] turns. *)
Fixpoint sq_assert_from (l : list Z) (n : nat) {struct n} : option unit :=
  match n, l with
  | O, _ => Some tt
  | S n', v :: l' => if v =? 0 then sq_assert_from l' n' else None
  | S _, [] => None
  end.

Definition sq_assert (q : sq A) : option unit :=
  sq_assert_from (drop (Z.to_nat (pos_max q + 1)) (items_inuse q)) (Z.to_nat (size q - (pos_max q + 1))).

Definition sq_copy (dest src : sq A) : option (sq A) :=
  _ ← sq_assert src;
  let n := Z.to_nat (item_count src) in
  if Nat.leb n (length (items dest)) && Nat.leb n (length (items_inuse dest))
     && Nat.leb n (length (items_miss_count dest))
  then Some (mk_sq (head src) (item_count src) (memcpy (items dest) (items src) n)
               (memcpy (items_inuse dest) (items_inuse src) n)
               (memcpy (items_miss_count dest) (items_miss_count src) n)
               (head_seqid src) (item_count src) (pos_max src))
  else None.

Definition sq_item_add (x : A) (seqid : Z) (q : sq A) : option (sq A) :=
  let sq_position := u32 (head q + seqid - head_seqid q) mod size q in
  let q := if pos_max q <? sq_position then q <| pos_max := sq_position |> else q in
  v ← arr_get (items_inuse q) sq_position;
  if negb (v =? 0) then None
  else
    it ← arr_set (items q) sq_position x;
    iu ← arr_set (items_inuse q) sq_position (if seqid =? 0 then 1 else seqid);
    mc ← arr_set (items_miss_count q) sq_position 0;
    Some (q <| items := it |> <| items_inuse := iu |> <| items_miss_count := mc |>).

Definition sq_item_inuse (q : sq A) (seq_id : Z) : option bool :=
  v ← arr_get (items_inuse q) (u32 (head q - head_seqid q + seq_id) mod size q);
  Some (negb (v =? 0)).

(** The new count and the queue with the count incremented. *)
Definition sq_item_miss_count (seq_id : Z) (q : sq A) : option (Z * sq A) :=
  let sq_position := u32 (head q - head_seqid q + seq_id) mod size q in
  v ← arr_get (items_miss_count q) sq_position;
  mc ← arr_set (items_miss_count q) sq_position (u32 (v + 1));
  Some (u32 (v + 1), q <| items_miss_count := mc |>).

Definition sq_size_get (q : sq A) : Z := size q.

Definition sq_in_range (q : sq A) (seq_id : Z) : bool :=
  if ADJUST_ROLLOVER_POINT <? head_seqid q then
    negb (u32 (seq_id - ADJUST_ROLLOVER_VALUE) <? u32 (head_seqid q - ADJUST_ROLLOVER_VALUE))
    && negb (u32 (u32 (head_seqid q - ADJUST_ROLLOVER_VALUE) + size q)
             <=? u32 (seq_id - ADJUST_ROLLOVER_VALUE))
  else
    negb (seq_id <? head_seqid q) && negb (u32 (head_seqid q + size q) <=? seq_id).

(** [inl ENOENT] or the item. *)
Definition sq_item_get (q : sq A) (seq_id : Z) : option (Z + A) :=
  sq_position ←
    (if ADJUST_ROLLOVER_POINT <? seq_id then
       if u32 (seq_id - ADJUST_ROLLOVER_POINT)
          <? u32 (u32 (head_seqid q - ADJUST_ROLLOVER_POINT) + size q)
       then Some (u32 (u32 (head q - ADJUST_ROLLOVER_VALUE)
                       - u32 (head_seqid q - ADJUST_ROLLOVER_VALUE) + seq_id) mod size q)
       else None
     else
       if seq_id <? u32 (head_seqid q + size q)
       then Some (u32 (head q - head_seqid q + seq_id) mod size q)
       else None);
  v ← arr_get (items_inuse q) sq_position;
  if v =? 0 then Some (inl ENOENT)
  else x ← arr_get (items q) sq_position; Some (inr x).

Definition sq_items_release (seqid : Z) (q : sq A) : option (sq A) :=
  let oldhead := head q in
  let q := q <| head := u32 (head q + seqid - head_seqid q + 1) mod size q |> in
  q ←
    (if size q <? u32 (oldhead + seqid - head_seqid q + 1) then
       iu ← arr_clear 0 (items_inuse q) oldhead (size q - oldhead);
       iu ← arr_clear 0 iu 0 (head q);
       Some (q <| items_inuse := iu |>)
     else
       let n := u32 (seqid - head_seqid q + 1) in
       iu ← arr_clear 0 (items_inuse q) oldhead n;
       mc ← arr_clear 0 (items_miss_count q) oldhead n;
       Some (q <| items_inuse := iu |> <| items_miss_count := mc |>));
  Some (q <| head_seqid := u32 (seqid + 1) |>).

End SortQueue.
