(* ===== verification/SortQueueTheory.v ===== *)
(** * The sort queue implements a sliding window

    The abstract specification is a [window]: the first sequence number, the
    width and a finite map from sequence numbers to items.  [sq_repr q w] relates
    a sort queue with the window it stands for, and every operation of sq.h is
    shown to agree with the operation on windows, through any number of
    roll-overs of the 32-bit sequence numbers. *)
From S2P Require Import Prelude SortQueue.

(** Differences of 32-bit numbers. *)
Ltac u32_lia := unfold u32 in *; Z.div_mod_to_equations; lia.

(** ** Arrays *)

Lemma arr_get_lookup {T} (a : list T) i x :
  arr_get a i = Some x <-> 0 <= i /\ a !! Z.to_nat i = Some x.
Proof. unfold arr_get. destruct (Z.leb_spec 0 i); naive_solver lia. Qed.

Lemma arr_get_some {T} (a : list T) i :
  0 <= i < Z.of_nat (length a) -> exists x, arr_get a i = Some x.
Proof.
  intros H. destruct (lookup_lt_is_Some_2 a (Z.to_nat i) ltac:(lia)) as [x Hx].
  exists x. apply arr_get_lookup. split; [lia|done].
Qed.

Lemma arr_set_some {T} (a : list T) i x :
  0 <= i < Z.of_nat (length a) -> arr_set a i x = Some (<[Z.to_nat i := x]> a).
Proof.
  intros H. unfold arr_set. destruct (Z.leb_spec 0 i), (Z.ltb_spec i (Z.of_nat (length a))); cbn; lia || done.
Qed.

Lemma arr_get_set {T} (a : list T) i j x :
  0 <= i < Z.of_nat (length a) -> 0 <= j ->
  arr_get (<[Z.to_nat i := x]> a) j = if j =? i then Some x else arr_get a j.
Proof.
  intros Hi Hj. unfold arr_get. destruct (Z.leb_spec 0 j); [|lia].
  destruct (Z.eqb_spec j i) as [->|Hne].
  - apply list_lookup_insert_eq. lia.
  - apply list_lookup_insert_ne. lia.
Qed.

Lemma arr_clear_spec {T} (x : T) a i n :
  0 <= i -> 0 <= n -> i + n <= Z.of_nat (length a) ->
  exists a', arr_clear x a i n = Some a' /\ length a' = length a
    /\ forall j, 0 <= j -> arr_get a' j = if (i <=? j) && (j <? i + n) then Some x else arr_get a j.
Proof.
  intros Hi Hn Hl. unfold arr_clear.
  rewrite !(proj2 (Z.leb_le _ _)) by lia. cbn [andb].
  eexists. split; [done|]. split.
  { rewrite !length_app, length_take, length_replicate, length_drop. lia. }
  intros j Hj. unfold arr_get. rewrite (proj2 (Z.leb_le 0 j)) by lia.
  destruct (Z.leb_spec i j); cbn [andb].
  - rewrite lookup_app_r by (rewrite length_take; lia). rewrite length_take.
    destruct (Z.ltb_spec j (i + n)).
    + rewrite lookup_app_l by (rewrite length_replicate; lia).
      apply lookup_replicate. split; [done|lia].
    + rewrite lookup_app_r by (rewrite length_replicate; lia).
      rewrite length_replicate, lookup_drop. f_equal. lia.
  - rewrite lookup_app_l by (rewrite length_take; lia). apply lookup_take_lt. lia.
Qed.

(** ** Roll-over *)

(** [a] and a number [d] steps after it, for less than 65536 steps. *)
Lemma sq_lt_compare_near a d :
  0 <= a < 2 ^ 32 -> 0 <= d < ADJUST_ROLLOVER_VALUE ->
  sq_lt_compare a (u32 (a + d)) = (0 <? d) /\ sq_lt_compare (u32 (a + d)) a = false.
Proof.
  intros Ha Hd. unfold sq_lt_compare, ADJUST_ROLLOVER_VALUE, ADJUST_ROLLOVER_POINT in *.
  destruct (Z.ltb_spec 2147483648 a), (Z.ltb_spec 2147483648 (u32 (a + d))); cbn [orb];
    repeat match goal with |- context [?x <? ?y] => destruct (Z.ltb_spec x y) end;
    split; try done; exfalso; u32_lia.
Qed.

Lemma sq_lte_compare_near a d :
  0 <= a < 2 ^ 32 -> 0 <= d < ADJUST_ROLLOVER_VALUE ->
  sq_lte_compare a (u32 (a + d)) = true /\ sq_lte_compare (u32 (a + d)) a = (d =? 0).
Proof.
  intros Ha Hd. unfold sq_lte_compare, ADJUST_ROLLOVER_VALUE, ADJUST_ROLLOVER_POINT in *.
  destruct (Z.ltb_spec 2147483648 a), (Z.ltb_spec 2147483648 (u32 (a + d))); cbn [orb];
    repeat match goal with |- context [?x <=? ?y] => destruct (Z.leb_spec x y) end;
    destruct (Z.eqb_spec d 0); split; try done; exfalso; u32_lia.
Qed.

(** ** The window *)

Record window (A : Type) := mk_window { base : Z; width : Z; contents : gmap Z A }.
Arguments mk_window {A}. Arguments base {A}. Arguments width {A}. Arguments contents {A}.

Definition in_window (base width s : Z) : bool :=
  (0 <=? s) && (s <? 2 ^ 32) && (u32 (s - base) <? width).

Inductive sq_op (A : Type) :=
| OpAdd (x : A) (s : Z)
| OpMiss (s : Z)
| OpRelease (s : Z)
| OpReinit (s : Z).
Arguments OpAdd {A}. Arguments OpMiss {A}. Arguments OpRelease {A}. Arguments OpReinit {A}.

Section Window.
Context {A : Type} (zero : A).

(** The operations on windows; [None] where the operation must not be used. *)
Definition win_step (op : sq_op A) (w : window A) : option (window A) :=
  match op with
  | OpAdd x s =>
      if in_window (base w) (width w) s && bool_decide (contents w !! s = None)
      then Some (mk_window (base w) (width w) (<[s := x]> (contents w))) else None
  | OpMiss s => if in_window (base w) (width w) s then Some w else None
  | OpRelease s =>
      if in_window (base w) (width w) s
      then Some (mk_window (u32 (s + 1)) (width w)
             (filter (fun kv => in_window (u32 (s + 1)) (width w) kv.1 = true) (contents w)))
      else None
  | OpReinit s => if (0 <=? s) && (s <? 2 ^ 32) then Some (mk_window s (width w) ∅) else None
  end.

Definition sq_step (op : sq_op A) (q : sq A) : option (sq A) :=
  match op with
  | OpAdd x s => sq_item_add x s q
  | OpMiss s => snd <$> sq_item_miss_count s q
  | OpRelease s => sq_items_release s q
  | OpReinit s => sq_reinit zero s q
  end.

Fixpoint run {S} (step : sq_op A -> S -> option S) (ops : list (sq_op A)) (s : S) : option S :=
  match ops with [] => Some s | op :: ops' => s' ← step op s; run step ops' s' end.

(** The slots in use lie at or below [pos_max]; sizes stay below the roll-over
    adjustment. *)
Record sq_wf (q : sq A) : Prop := {
  wf_size : 0 < size q < ADJUST_ROLLOVER_VALUE;
  wf_count : item_count q = size q;
  wf_head : 0 <= head q < size q;
  wf_seqid : 0 <= head_seqid q < 2 ^ 32;
  wf_items : Z.of_nat (length (items q)) = size q;
  wf_inuse : Z.of_nat (length (items_inuse q)) = size q;
  wf_miss : Z.of_nat (length (items_miss_count q)) = size q;
  wf_pos : 0 <= pos_max q < size q;
  wf_above : forall i, pos_max q < i < size q -> arr_get (items_inuse q) i = Some 0
}.

Definition slot (q : sq A) (o : Z) : Z := (head q + o) mod size q.

(** The item stored for sequence number [s]. *)
Definition sq_abs (q : sq A) (s : Z) : option A :=
  if in_window (head_seqid q) (size q) s then
    v ← arr_get (items_inuse q) (slot q (u32 (s - head_seqid q)));
    if v =? 0 then None else arr_get (items q) (slot q (u32 (s - head_seqid q)))
  else None.

Record sq_repr (q : sq A) (w : window A) : Prop := {
  repr_wf : sq_wf q;
  repr_base : base w = head_seqid q;
  repr_width : width w = size q;
  repr_contents : forall s, contents w !! s = sq_abs q s
}.

Lemma in_window_true b n s :
  in_window b n s = true <-> 0 <= s < 2 ^ 32 /\ u32 (s - b) < n.
Proof. unfold in_window. rewrite !andb_true_iff, Z.leb_le, !Z.ltb_lt. tauto. Qed.

Lemma slot_cases q o : sq_wf q -> 0 <= o < size q ->
  slot q o = if head q + o <? size q then head q + o else head q + o - size q.
Proof.
  intros Hwf Ho. pose proof (wf_head q Hwf). unfold slot.
  destruct (Z.ltb_spec (head q + o) (size q)).
  - apply Z.mod_small. lia.
  - symmetry. apply Z.mod_unique with 1; lia.
Qed.

Lemma slot_range q o : sq_wf q -> 0 <= slot q o < size q.
Proof. intros Hwf. apply Z.mod_pos_bound, Hwf. Qed.

Lemma slot_inj q o o' : sq_wf q -> 0 <= o < size q -> 0 <= o' < size q ->
  slot q o = slot q o' -> o = o'.
Proof.
  intros Hwf Ho Ho'. rewrite !slot_cases by done.
  destruct (Z.ltb_spec (head q + o) (size q)), (Z.ltb_spec (head q + o') (size q)); lia.
Qed.

Lemma slot_surj q p : sq_wf q -> 0 <= p < size q -> exists o, 0 <= o < size q /\ slot q o = p.
Proof.
  intros Hwf Hp. pose proof (wf_head q Hwf). destruct (Z_lt_le_dec p (head q)).
  - exists (p - head q + size q). split; [lia|]. rewrite slot_cases by (lia || done).
    destruct (Z.ltb_spec (head q + (p - head q + size q)) (size q)); lia.
  - exists (p - head q). split; [lia|]. rewrite slot_cases by (lia || done).
    destruct (Z.ltb_spec (head q + (p - head q)) (size q)); lia.
Qed.

(** The two ways the code computes a position, on a sequence number of the window. *)
Lemma position_slot q s :
  sq_wf q -> in_window (head_seqid q) (size q) s = true ->
  u32 (head q + s - head_seqid q) mod size q = slot q (u32 (s - head_seqid q))
  /\ u32 (head q - head_seqid q + s) mod size q = slot q (u32 (s - head_seqid q)).
Proof.
  intros Hwf [Hs Ho]%in_window_true.
  pose proof (wf_head q Hwf). pose proof (wf_size q Hwf). pose proof (wf_seqid q Hwf).
  unfold ADJUST_ROLLOVER_VALUE in *. unfold slot.
  split; f_equal; u32_lia.
Qed.

Lemma window_offset q s : sq_wf q -> in_window (head_seqid q) (size q) s = true ->
  0 <= u32 (s - head_seqid q) < size q.
Proof. intros _ [_ Ho]%in_window_true. pose proof (u32_range (s - head_seqid q)). lia. Qed.

(** Two numbers of the window in one slot are the same number. *)
Lemma window_inj q s t :
  sq_wf q -> in_window (head_seqid q) (size q) s = true ->
  in_window (head_seqid q) (size q) t = true ->
  slot q (u32 (t - head_seqid q)) = slot q (u32 (s - head_seqid q)) -> t = s.
Proof.
  intros Hwf Hs Ht Heq. apply slot_inj in Heq; [|done|apply window_offset; done..].
  apply in_window_true in Hs as [Hs _], Ht as [Ht _]. pose proof (wf_seqid q Hwf). u32_lia.
Qed.

Lemma sq_abs_inuse q s :
  sq_wf q -> in_window (head_seqid q) (size q) s = true ->
  exists v, arr_get (items_inuse q) (slot q (u32 (s - head_seqid q))) = Some v
    /\ (sq_abs q s = None <-> v = 0)
    /\ (v <> 0 -> sq_abs q s = arr_get (items q) (slot q (u32 (s - head_seqid q)))).
Proof.
  intros Hwf Hs. pose proof (slot_range q (u32 (s - head_seqid q)) Hwf) as Hr.
  destruct (arr_get_some (items_inuse q) (slot q (u32 (s - head_seqid q)))) as [v Hv];
    [rewrite (wf_inuse q Hwf); done|].
  exists v. split; [done|]. unfold sq_abs. rewrite Hs, Hv. cbn [mbind option_bind].
  destruct (arr_get_some (items q) (slot q (u32 (s - head_seqid q)))) as [x Hx];
    [rewrite (wf_items q Hwf); done|].
  rewrite Hx. destruct (Z.eqb_spec v 0); (split; [split|intros ?]); congruence.
Qed.

(** ** Adding an item *)
Lemma sq_item_add_spec x s q :
  sq_wf q -> in_window (head_seqid q) (size q) s = true -> sq_abs q s = None ->
  exists q', sq_item_add x s q = Some q' /\ sq_wf q'
    /\ head_seqid q' = head_seqid q /\ size q' = size q
    /\ forall t, sq_abs q' t = if decide (t = s) then Some x else sq_abs q t.
Proof.
  intros Hwf Hs Habs. destruct (sq_abs_inuse q s Hwf Hs) as (v & Hv & Hz & _).
  apply Hz in Habs as ->. clear Hz. unfold sq_item_add.
  rewrite (proj1 (position_slot q s Hwf Hs)).
  pose proof (slot_range q (u32 (s - head_seqid q)) Hwf) as Hr.
  set (p := slot q (u32 (s - head_seqid q))) in *.
  pose proof (wf_size q Hwf). pose proof (wf_pos q Hwf).
  set (u := if s =? 0 then 1 else s).
  assert (Hu : u <> 0) by (unfold u; destruct (Z.eqb_spec s 0); lia).
  set (q1 := if pos_max q <? p then q <| pos_max := p |> else q).
  assert (Hq1 : head q1 = head q /\ size q1 = size q /\ items q1 = items q
                /\ items_inuse q1 = items_inuse q /\ items_miss_count q1 = items_miss_count q
                /\ head_seqid q1 = head_seqid q /\ item_count q1 = item_count q
                /\ pos_max q1 = Z.max (pos_max q) p).
  { unfold q1. destruct (Z.ltb_spec (pos_max q) p); cbn; split_and!; lia || done. }
  destruct Hq1 as (E1 & E2 & E3 & E4 & E5 & E6 & E7 & E8). clearbody q1 u.
  rewrite E3, E4, E5, Hv. cbn [mbind option_bind Z.eqb negb].
  rewrite !arr_set_some by (rewrite ?(wf_items q Hwf), ?(wf_inuse q Hwf), ?(wf_miss q Hwf); lia).
  eexists. split; [reflexivity|].
  set (q' := q1 <| items := _ |> <| items_inuse := _ |> <| items_miss_count := _ |>).
  assert (Hslot : forall o, slot q' o = slot q o) by (intros o; unfold slot; cbn; now rewrite E1, E2).
  assert (Hg : forall j, 0 <= j -> arr_get (items_inuse q') j
                 = if j =? p then Some u else arr_get (items_inuse q) j).
  { intros j Hj. cbn. apply arr_get_set; [rewrite (wf_inuse q Hwf)|]; lia. }
  split; [|split; [exact E6|split; [exact E2|]]].
  - split; cbn; rewrite ?E1, ?E2, ?E6, ?E7, ?E8, ?length_insert; try apply Hwf; [lia|].
    intros i Hi. rewrite arr_get_set by (rewrite ?(wf_inuse q Hwf); lia).
    destruct (Z.eqb_spec i p); [lia|]. apply Hwf. lia.
  - intros t. unfold sq_abs. rewrite Hslot. change (head_seqid q') with (head_seqid q1).
    change (size q') with (size q1). rewrite E6, E2.
    destruct (in_window (head_seqid q) (size q) t) eqn:Ht;
      [|destruct (decide (t = s)) as [->|]; congruence].
    pose proof (slot_range q (u32 (t - head_seqid q)) Hwf) as Hrt.
    rewrite Hg by lia. cbn [items q' upd].
    destruct (decide (t = s)) as [->|Hne].
    + fold p. rewrite Z.eqb_refl. cbn [mbind option_bind].
      rewrite (proj2 (Z.eqb_neq _ _) Hu). cbn.
      rewrite arr_get_set by (rewrite ?(wf_items q Hwf); lia). now rewrite Z.eqb_refl.
    + destruct (Z.eqb_spec (slot q (u32 (t - head_seqid q))) p) as [Heq|Hneq].
      * exfalso. apply Hne. eapply window_inj; eauto.
      * destruct (arr_get (items_inuse q) (slot q (u32 (t - head_seqid q)))) as [v|]; cbn [mbind option_bind]; [|done].
        destruct (v =? 0); [done|]. cbn.
        rewrite arr_get_set by (rewrite ?(wf_items q Hwf); lia).
        now rewrite (proj2 (Z.eqb_neq _ _) Hneq).
Qed.

(** ** Lookups *)
Lemma sq_item_get_spec q s :
  sq_wf q -> in_window (head_seqid q) (size q) s = true ->
  sq_item_get q s = Some (from_option inr (inl ENOENT) (sq_abs q s)).
Proof.
  intros Hwf Hs. unfold sq_item_get.
  assert (Hpos : (if ADJUST_ROLLOVER_POINT <? s then
       if u32 (s - ADJUST_ROLLOVER_POINT)
          <? u32 (u32 (head_seqid q - ADJUST_ROLLOVER_POINT) + size q)
       then Some (u32 (u32 (head q - ADJUST_ROLLOVER_VALUE)
                       - u32 (head_seqid q - ADJUST_ROLLOVER_VALUE) + s) mod size q)
       else None
     else
       if s <? u32 (head_seqid q + size q)
       then Some (u32 (head q - head_seqid q + s) mod size q)
       else None) = Some (slot q (u32 (s - head_seqid q)))).
  { rewrite (proj2 (position_slot q s Hwf Hs)).
    assert (Hp : u32 (u32 (head q - ADJUST_ROLLOVER_VALUE)
                       - u32 (head_seqid q - ADJUST_ROLLOVER_VALUE) + s)
                 = u32 (head q - head_seqid q + s))
      by (unfold ADJUST_ROLLOVER_VALUE; u32_lia).
    rewrite Hp, (proj2 (position_slot q s Hwf Hs)). clear Hp.
    apply in_window_true in Hs as [Hs Ho]. pose proof (wf_size q Hwf). pose proof (wf_seqid q Hwf).
    unfold ADJUST_ROLLOVER_VALUE, ADJUST_ROLLOVER_POINT in *.
    destruct (Z.ltb_spec 2147483648 s);
      match goal with |- context [?x <? ?y] => destruct (Z.ltb_spec x y) end;
      try done; exfalso; u32_lia. }
  rewrite Hpos. cbn [mbind option_bind].
  destruct (sq_abs_inuse q s Hwf Hs) as (v & -> & Hz & Hnz). cbn [mbind option_bind].
  destruct (Z.eqb_spec v 0) as [Hv|Hv].
  - apply Hz in Hv. now rewrite Hv.
  - rewrite (Hnz Hv). destruct (arr_get_some (items q) (slot q (u32 (s - head_seqid q)))) as [x ->];
      [rewrite (wf_items q Hwf); apply slot_range, Hwf|done].
Qed.

Lemma sq_item_inuse_spec q s :
  sq_wf q -> in_window (head_seqid q) (size q) s = true ->
  sq_item_inuse q s = Some (bool_decide (is_Some (sq_abs q s))).
Proof.
  intros Hwf Hs. unfold sq_item_inuse. rewrite (proj2 (position_slot q s Hwf Hs)).
  destruct (sq_abs_inuse q s Hwf Hs) as (v & -> & Hz & _). cbn [mbind option_bind]. f_equal.
  destruct (Z.eqb_spec v 0) as [Hv|Hv]; cbn [negb].
  - apply Hz in Hv. rewrite Hv. reflexivity.
  - symmetry. apply bool_decide_eq_true. apply not_eq_None_Some. intros E. now apply Hz in E.
Qed.

Lemma sq_in_range_spec q s :
  sq_wf q -> 0 <= s < 2 ^ 32 -> sq_in_range q s = in_window (head_seqid q) (size q) s.
Proof.
  intros Hwf Hs. unfold sq_in_range, in_window.
  pose proof (wf_size q Hwf). pose proof (wf_seqid q Hwf).
  unfold ADJUST_ROLLOVER_VALUE, ADJUST_ROLLOVER_POINT in *.
  rewrite (proj2 (Z.leb_le 0 s)), (proj2 (Z.ltb_lt s (2 ^ 32))) by lia. cbn [andb].
  destruct (Z.ltb_spec 2147483648 (head_seqid q));
    repeat match goal with
    | |- context [?x <? ?y] => destruct (Z.ltb_spec x y)
    | |- context [?x <=? ?y] => destruct (Z.leb_spec x y)
    end; try done; exfalso; u32_lia.
Qed.

Lemma sq_item_miss_count_spec s q :
  sq_wf q -> in_window (head_seqid q) (size q) s = true ->
  exists v q', sq_item_miss_count s q = Some (v, q') /\ sq_wf q'
    /\ head_seqid q' = head_seqid q /\ size q' = size q /\ forall t, sq_abs q' t = sq_abs q t.
Proof.
  intros Hwf Hs. unfold sq_item_miss_count. rewrite (proj2 (position_slot q s Hwf Hs)).
  pose proof (slot_range q (u32 (s - head_seqid q)) Hwf) as Hr.
  destruct (arr_get_some (items_miss_count q) (slot q (u32 (s - head_seqid q)))) as [v Hv];
    [rewrite (wf_miss q Hwf); done|].
  rewrite Hv. cbn [mbind option_bind]. rewrite arr_set_some by (rewrite (wf_miss q Hwf); lia).
  do 2 eexists. split; [reflexivity|]. split; [|split_and!; done].
  split; cbn; rewrite ?length_insert; apply Hwf.
Qed.

(** ** Releasing the head of the window *)

(** The in-use array after [sq_items_release]: the slots of the first [n]
    numbers are free, the others unchanged. *)
Lemma release_inuse q n :
  sq_wf q -> 0 < n <= size q ->
  exists iu, (if size q <? head q + n then
                iu ← arr_clear 0 (items_inuse q) (head q) (size q - head q);
                arr_clear 0 iu 0 ((head q + n) mod size q)
              else arr_clear 0 (items_inuse q) (head q) n) = Some iu
    /\ length iu = length (items_inuse q)
    /\ forall o, 0 <= o < size q ->
         arr_get iu (slot q o) = if o <? n then Some 0 else arr_get (items_inuse q) (slot q o).
Proof.
  intros Hwf Hn. pose proof (wf_head q Hwf). pose proof (wf_inuse q Hwf) as Hl.
  destruct (Z.ltb_spec (size q) (head q + n)).
  - assert (Hm : (head q + n) mod size q = head q + n - size q)
      by (symmetry; apply Z.mod_unique with 1; lia).
    destruct (arr_clear_spec 0 (items_inuse q) (head q) (size q - head q)) as (i1 & -> & L1 & G1);
      [lia..|]. cbn [mbind option_bind]. rewrite Hm.
    destruct (arr_clear_spec 0 i1 0 (head q + n - size q)) as (i2 & -> & L2 & G2); [lia..|].
    exists i2. split; [done|]. split; [lia|]. intros o Ho.
    pose proof (slot_range q o Hwf). rewrite G2, G1 by lia. rewrite slot_cases by done.
    destruct (Z.ltb_spec o n), (Z.ltb_spec (head q + o) (size q));
      repeat match goal with
      | |- context [?x <? ?y] => destruct (Z.ltb_spec x y)
      | |- context [?x <=? ?y] => destruct (Z.leb_spec x y)
      end; cbn [andb]; done || lia.
  - destruct (arr_clear_spec 0 (items_inuse q) (head q) n) as (i1 & -> & L1 & G1); [lia..|].
    exists i1. split; [done|]. split; [lia|]. intros o Ho.
    pose proof (slot_range q o Hwf). rewrite G1 by lia. rewrite slot_cases by done.
    destruct (Z.ltb_spec o n), (Z.ltb_spec (head q + o) (size q));
      repeat match goal with
      | |- context [?x <? ?y] => destruct (Z.ltb_spec x y)
      | |- context [?x <=? ?y] => destruct (Z.leb_spec x y)
      end; cbn [andb]; done || lia.
Qed.

(** The shape of the queue [sq_items_release] returns. *)
Lemma sq_items_release_shape s q :
  sq_wf q -> in_window (head_seqid q) (size q) s = true ->
  let n := u32 (s - head_seqid q) + 1 in
  exists iu mc, length iu = length (items_inuse q) /\ length mc = length (items_miss_count q)
    /\ (forall o, 0 <= o < size q ->
         arr_get iu (slot q o) = if o <? n then Some 0 else arr_get (items_inuse q) (slot q o))
    /\ sq_items_release s q
       = Some (q <| head := (head q + n) mod size q |> <| items_inuse := iu |>
                 <| items_miss_count := mc |> <| head_seqid := u32 (s + 1) |>).
Proof.
  intros Hwf Hs n. pose proof (window_offset q s Hwf Hs) as Ho.
  pose proof (wf_head q Hwf). pose proof (wf_size q Hwf). pose proof (wf_miss q Hwf).
  unfold ADJUST_ROLLOVER_VALUE in *.
  apply in_window_true in Hs as [Hs _].
  destruct (release_inuse q n Hwf) as (iu & Hiu & Hlen & Hget); [unfold n; lia|].
  assert (Hsum : u32 (head q + s - head_seqid q + 1) = head q + n).
  { replace (head q + s - head_seqid q + 1) with (s - head_seqid q + (head q + 1)) by lia.
    rewrite <- u32_add_l, u32_small by lia. unfold n. lia. }
  assert (Hn : u32 (s - head_seqid q + 1) = n) by (rewrite <- u32_add_l, u32_small by lia; done).
  unfold sq_items_release. cbn zeta. cbn [head size head_seqid items_inuse items_miss_count upd].
  rewrite Hsum, Hn. destruct (Z.ltb_spec (size q) (head q + n)).
  - destruct (arr_clear 0 (items_inuse q) (head q) (size q - head q)) as [i1|]; [|done].
    cbn [mbind option_bind] in *. cbn. rewrite Hiu. cbn.
    exists iu, (items_miss_count q). split_and!; done.
  - rewrite Hiu. cbn [mbind option_bind].
    destruct (arr_clear_spec 0 (items_miss_count q) (head q) n) as (mc & -> & L & _); [unfold n in *; lia..|].
    cbn. exists iu, mc. split_and!; done.
Qed.

Lemma sq_items_release_spec s q :
  sq_wf q -> in_window (head_seqid q) (size q) s = true ->
  exists q', sq_items_release s q = Some q' /\ sq_wf q'
    /\ head_seqid q' = u32 (s + 1) /\ size q' = size q
    /\ forall t, sq_abs q' t = if in_window (u32 (s + 1)) (size q) t then sq_abs q t else None.
Proof.
  intros Hwf Hs. destruct (sq_items_release_shape s q Hwf Hs) as (iu & mc & L1 & L2 & Hget & ->).
  eexists. split; [reflexivity|]. set (n := u32 (s - head_seqid q) + 1) in *.
  pose proof (window_offset q s Hwf Hs) as Ho. pose proof (wf_size q Hwf). pose proof (wf_seqid q Hwf).
  set (q' := q <| head := _ |> <| items_inuse := _ |> <| items_miss_count := _ |>
               <| head_seqid := _ |>).
  split; [|split; [done|split; [done|]]].
  - split; cbn; rewrite ?L1, ?L2; try apply Hwf.
    + apply Z.mod_pos_bound. lia.
    + apply u32_range.
    + intros i Hi. pose proof (wf_pos q Hwf).
      destruct (slot_surj q i Hwf) as (o & Hr & <-); [lia|].
      rewrite Hget by done. destruct (o <? n); [done|]. now apply Hwf.
  - intros t. unfold sq_abs at 1.
    change (head_seqid q') with (u32 (s + 1)). change (size q') with (size q).
    destruct (in_window (u32 (s + 1)) (size q) t) eqn:Ht; [|done].
    apply in_window_true in Ht as [Ht Hot]. apply in_window_true in Hs as [Hs _].
    set (o' := u32 (t - u32 (s + 1))) in *. pose proof (u32_range (t - u32 (s + 1))) as Ho'.
    fold o' in Ho'.
    assert (Hslot : slot q' o' = slot q ((n + o') mod size q)).
    { unfold slot. cbn. rewrite Z.add_mod_idemp_l, Z.add_mod_idemp_r by lia. f_equal. lia. }
    rewrite Hslot. cbn [items_inuse items q' upd]. cbn.
    rewrite Hget by (apply Z.mod_pos_bound; lia). unfold ADJUST_ROLLOVER_VALUE in *.
    assert (Hrel : u32 (t - head_seqid q) = n + o' \/ size q <= u32 (t - head_seqid q) /\ size q <= n + o').
    { unfold n, o' in *. clear -Ho Hot Hs Ht H H0. u32_lia. }
    destruct (Z_lt_le_dec (n + o') (size q)) as [Hlt|Hge].
    + destruct Hrel as [Hrel|[_ ?]]; [|lia].
      rewrite Z.mod_small by (unfold n in *; lia). rewrite (proj2 (Z.ltb_ge _ _)) by lia.
      unfold sq_abs. rewrite (proj2 (in_window_true _ _ _)) by lia. now rewrite Hrel.
    + assert (Hmod : (n + o') mod size q = n + o' - size q)
        by (symmetry; apply Z.mod_unique with 1; unfold n in *; lia).
      rewrite Hmod, (proj2 (Z.ltb_lt _ _)) by lia. cbn.
      unfold sq_abs. destruct (in_window (head_seqid q) (size q) t) eqn:E; [|done].
      apply in_window_true in E as [_ E]. lia.
Qed.

Lemma sq_reinit_spec s q :
  sq_wf q -> 0 <= s < 2 ^ 32 ->
  exists q', sq_reinit zero s q = Some q' /\ sq_wf q' /\ head_seqid q' = s /\ size q' = size q
    /\ forall t, sq_abs q' t = None.
Proof.
  intros Hwf Hs. unfold sq_reinit. rewrite (wf_count q Hwf). pose proof (wf_size q Hwf).
  destruct (arr_clear_spec zero (items q) 0 (size q)) as (it & -> & L1 & _);
    [lia..|rewrite (wf_items q Hwf); lia|].
  cbn [mbind option_bind].
  destruct (arr_clear_spec 0 (items_inuse q) 0 (size q)) as (iu & -> & L2 & G);
    [lia..|rewrite (wf_inuse q Hwf); lia|].
  cbn [mbind option_bind].
  destruct (arr_clear_spec 0 (items_miss_count q) 0 (size q)) as (mc & -> & L3 & _);
    [lia..|rewrite (wf_miss q Hwf); lia|].
  cbn [mbind option_bind]. eexists. split; [reflexivity|].
  assert (Hz : forall i, 0 <= i < size q -> arr_get iu i = Some 0).
  { intros i Hi. rewrite G by lia.
    rewrite (proj2 (Z.leb_le _ _)), (proj2 (Z.ltb_lt _ _)) by lia. done. }
  split; [|split; [done|split; [done|]]].
  - split; cbn; rewrite ?L1, ?L2, ?L3; try apply Hwf; try lia.
    intros i Hi. apply Hz. lia.
  - intros t. unfold sq_abs. cbn. destruct (in_window s (size q) t); [|done].
    unfold slot. cbn. rewrite Hz by (apply Z.mod_pos_bound; lia). done.
Qed.

Lemma sq_init_repr n s :
  0 < n < ADJUST_ROLLOVER_VALUE -> 0 <= s < 2 ^ 32 ->
  exists q, sq_init zero (true, true, true) n s = (0, q) /\ sq_repr q (mk_window s n ∅).
Proof.
  intros Hn Hs. unfold ADJUST_ROLLOVER_VALUE in Hn. cbn. eexists. split; [reflexivity|].
  assert (Hz : forall i, 0 <= i < n -> arr_get (replicate (Z.to_nat n) 0) i = Some 0).
  { intros i Hi. apply arr_get_lookup. split; [lia|]. apply lookup_replicate. split; [done|lia]. }
  rewrite (u32_small n), (u32_small s) by lia.
  split; [split|done|done|]; cbn; rewrite ?length_replicate; try (unfold ADJUST_ROLLOVER_VALUE; lia).
  - intros i Hi. apply Hz. lia.
  - intros t. unfold sq_abs. cbn. rewrite lookup_empty.
    destruct (in_window s n t); [|done]. unfold slot. cbn.
    rewrite Hz by (apply Z.mod_pos_bound; lia). done.
Qed.

(** ** Simulation *)
Lemma sq_step_refines op q w w' :
  sq_repr q w -> win_step op w = Some w' -> exists q', sq_step op q = Some q' /\ sq_repr q' w'.
Proof.
  intros [Hwf Hb Hw Hc]. destruct op as [x s|s|s|s]; cbn; rewrite ?Hb, ?Hw.
  - destruct (in_window _ _ s && _) eqn:E; [|done]. intros [= <-].
    apply andb_true_iff in E as [Hs Hn]. apply bool_decide_eq_true in Hn. rewrite Hc in Hn.
    destruct (sq_item_add_spec x s q Hwf Hs Hn) as (q' & -> & Hwf' & E1 & E2 & Habs).
    exists q'. split; [done|]. split; cbn; [done|congruence..|].
    intros t. rewrite Habs. destruct (decide (t = s)) as [->|Hne].
    + now rewrite lookup_insert_eq.
    + now rewrite lookup_insert_ne by congruence.
  - destruct (in_window _ _ s) eqn:Hs; [|done]. intros [= <-].
    destruct (sq_item_miss_count_spec s q Hwf Hs) as (v & q' & -> & Hwf' & E1 & E2 & Habs).
    exists q'. split; [done|]. split; [done|congruence..|]. intros t. now rewrite Habs.
  - destruct (in_window _ _ s) eqn:Hs; [|done]. intros [= <-].
    destruct (sq_items_release_spec s q Hwf Hs) as (q' & -> & Hwf' & E1 & E2 & Habs).
    exists q'. split; [done|]. split; cbn; [done|congruence..|]. intros t. rewrite Habs, <- Hc.
    destruct (in_window (u32 (s + 1)) (size q) t) eqn:Ht.
    + destruct (contents w !! t) as [x|] eqn:Ex.
      * apply map_lookup_filter_Some. split; [done|exact Ht].
      * apply map_lookup_filter_None. now left.
    + apply map_lookup_filter_None. right. cbn. intros x _. congruence.
  - destruct (_ && _) eqn:E; [|done]. intros [= <-]. zbool.
    destruct (sq_reinit_spec s q Hwf) as (q' & -> & Hwf' & E1 & E2 & Habs); [lia|].
    exists q'. split; [done|]. split; cbn; [done|congruence..|].
    intros t. now rewrite Habs, lookup_empty.
Qed.

Lemma sq_run_refines ops q w w' :
  sq_repr q w -> run win_step ops w = Some w' ->
  exists q', run sq_step ops q = Some q' /\ sq_repr q' w'.
Proof.
  revert q w. induction ops as [|op ops IH]; cbn; intros q w Hr Hrun.
  - simplify_eq. eauto.
  - destruct (win_step op w) as [w1|] eqn:E; [|done].
    destruct (sq_step_refines op q w w1 Hr E) as (q1 & -> & Hr1). cbn. eauto.
Qed.

(** The window a queue stands for has the lookups of the queue. *)
Lemma sq_repr_lookups q w :
  sq_repr q w ->
  (forall t, in_window (base w) (width w) t = true ->
     sq_item_get q t = Some (from_option inr (inl ENOENT) (contents w !! t))
     /\ sq_item_inuse q t = Some (bool_decide (is_Some (contents w !! t))))
  /\ (forall t, 0 <= t < 2 ^ 32 -> sq_in_range q t = in_window (base w) (width w) t).
Proof.
  intros [Hwf -> -> Hc]. split; intros t Ht.
  - rewrite Hc. auto using sq_item_get_spec, sq_item_inuse_spec.
  - now apply sq_in_range_spec.
Qed.

Lemma sq_assert_from_ok l n : (forall j, (j < n)%nat -> l !! j = Some 0) -> sq_assert_from l n = Some tt.
Proof.
  revert l. induction n as [|n IH]; intros l H; cbn; [done|].
  pose proof (H O ltac:(lia)) as H0. destruct l as [|v l]; [done|]. cbn in H0. simplify_eq. cbn.
  apply IH. intros j Hj. apply (H (S j)). lia.
Qed.

Lemma memcpy_all {T} (dst src : list T) : length dst = length src -> memcpy dst src (length src) = src.
Proof. intros H. unfold memcpy. rewrite firstn_all, <- H, drop_all. apply app_nil_r. Qed.

Lemma sq_copy_spec (dest src : sq A) :
  sq_wf src -> length (items dest) = length (items src) ->
  length (items_inuse dest) = length (items_inuse src) ->
  length (items_miss_count dest) = length (items_miss_count src) ->
  sq_copy dest src = Some src.
Proof.
  intros Hwf L1 L2 L3. unfold sq_copy, sq_assert.
  pose proof (wf_items src Hwf). pose proof (wf_inuse src Hwf). pose proof (wf_miss src Hwf).
  pose proof (wf_pos src Hwf).
  rewrite sq_assert_from_ok; cycle 1.
  { intros j Hj. rewrite lookup_drop.
    pose proof (wf_above src Hwf (pos_max src + 1 + Z.of_nat j) ltac:(lia)) as Hz.
    unfold arr_get in Hz. rewrite (proj2 (Z.leb_le 0 _)) in Hz by lia.
    replace (Z.to_nat (pos_max src + 1) + j)%nat with (Z.to_nat (pos_max src + 1 + Z.of_nat j)) by lia. done. }
  cbn [mbind option_bind].
  rewrite (wf_count src Hwf). rewrite !(proj2 (Nat.leb_le _ _)) by lia. cbn [andb].
  replace (Z.to_nat (size src)) with (length (items src)) at 1 by lia. rewrite memcpy_all by done.
  replace (Z.to_nat (size src)) with (length (items_inuse src)) at 1 by lia. rewrite memcpy_all by done.
  replace (Z.to_nat (size src)) with (length (items_miss_count src)) by lia. rewrite memcpy_all by done.
  pose proof (wf_count src Hwf) as Hc. clear -Hc. destruct src; cbn in *. congruence.
Qed.

Lemma win_run_width ops (w w' : window A) : run win_step ops w = Some w' -> width w' = width w.
Proof.
  revert w. induction ops as [|op ops IH]; cbn; intros w Hrun; [now simplify_eq|].
  destruct (win_step op w) as [w1|] eqn:E1; [|done]. rewrite (IH _ Hrun).
  clear -E1. revert E1. destruct op; cbn; destruct_matches; intros; now simplify_eq.
Qed.

(** C7: The sort queue is a sliding window: after [sq_init] and any sequence of
    additions, miss counts, releases and re-initialisations that the window
    allows, no assertion has failed and no array was left, the queue gives back
    exactly the items of the window ([ENOENT] for the others), says of every
    32-bit sequence number whether it is in the window, and [sq_copy] to a queue
    of the same size reproduces it. *)
Theorem sq_refines_window n s ops w :
  0 < n < ADJUST_ROLLOVER_VALUE -> 0 <= s < 2 ^ 32 ->
  run win_step ops (mk_window s n ∅) = Some w ->
  exists q0 q, sq_init zero (true, true, true) n s = (0, q0)
    /\ run sq_step ops q0 = Some q
    /\ (forall t, in_window (base w) (width w) t = true ->
          sq_item_get q t = Some (from_option inr (inl ENOENT) (contents w !! t))
          /\ sq_item_inuse q t = Some (bool_decide (is_Some (contents w !! t))))
    /\ (forall t, 0 <= t < 2 ^ 32 -> sq_in_range q t = in_window (base w) (width w) t)
    /\ (forall q1 s1, sq_init zero (true, true, true) n s1 = (0, q1) -> sq_copy q1 q = Some q).
Proof.
  intros Hn Hs Hrun. destruct (sq_init_repr n s Hn Hs) as (q0 & E & Hr).
  destruct (sq_run_refines _ _ _ _ Hr Hrun) as (q & Eq & Hq).
  exists q0, q. split; [done|]. split; [done|].
  destruct (sq_repr_lookups q w Hq) as [H1 H2]. split; [done|]. split; [done|].
  intros q1 s1 E1. destruct Hq as [Hwf _ Hw _].
  assert (Hsz : size q = n) by (rewrite <- Hw; exact (win_run_width _ _ _ Hrun)).
  destruct (sq_init_repr n s Hn Hs) as (q2 & E2 & _).
  pose proof (wf_items q Hwf). pose proof (wf_inuse q Hwf). pose proof (wf_miss q Hwf).
  cbn in E1. simplify_eq. apply sq_copy_spec; cbn; rewrite ?length_replicate; lia || done.
Qed.

End Window.

Lemma sq_refines_window_witness :
  exists w : window Z,
    run win_step [OpAdd 7 4294967295; OpMiss 0; OpAdd 8 0; OpRelease 4294967295] (mk_window 4294967294 4 ∅)
      = Some w
    /\ exists q0 q, sq_init 0 (true, true, true) 4 4294967294 = (0, q0)
    /\ run (sq_step 0) [OpAdd 7 4294967295; OpMiss 0; OpAdd 8 0; OpRelease 4294967295] q0 = Some q
    /\ sq_item_get q 0 = Some (inr 8) /\ sq_item_get q 1 = Some (inl ENOENT).
Proof.
  eexists. split; [vm_compute; reflexivity|].
  destruct (sq_refines_window 0 4 4294967294
    [OpAdd 7 4294967295; OpMiss 0; OpAdd 8 0; OpRelease 4294967295]
    _ ltac:(unfold ADJUST_ROLLOVER_VALUE; lia) ltac:(lia) ltac:(vm_compute; reflexivity))
    as (q0 & q & E0 & E & Hget & _).
  exists q0, q. split; [exact E0|]. split; [exact E|].
  split; [rewrite (proj1 (Hget 0 ltac:(vm_compute; reflexivity)))
         |rewrite (proj1 (Hget 1 ltac:(vm_compute; reflexivity)))]; vm_compute; reflexivity.
Defined.

(** The roll-over comparisons order any window of up to 65536 sequence
    numbers: for two numbers at distances [d1] and [d2] from a common start,
    [sq_lt_compare] and [sq_lte_compare] compare the distances, wherever the
    window lies with respect to the wrap-around of the 32-bit numbers. *)
Theorem sq_compare_orders_window a d1 d2 :
  0 <= a < 2 ^ 32 -> 0 <= d1 < ADJUST_ROLLOVER_VALUE -> 0 <= d2 < ADJUST_ROLLOVER_VALUE ->
  sq_lt_compare (u32 (a + d1)) (u32 (a + d2)) = (d1 <? d2)
  /\ sq_lte_compare (u32 (a + d1)) (u32 (a + d2)) = (d1 <=? d2).
Proof.
  intros Ha H1 H2. unfold ADJUST_ROLLOVER_VALUE in *.
  pose proof (u32_range (a + d1)) as R1. pose proof (u32_range (a + d2)) as R2.
  destruct (Z_lt_le_dec d1 d2) as [H|H].
  - replace (u32 (a + d2)) with (u32 (u32 (a + d1) + (d2 - d1))) by (rewrite u32_add_l; f_equal; lia).
    destruct (sq_lt_compare_near (u32 (a + d1)) (d2 - d1)) as [-> _]; [lia|unfold ADJUST_ROLLOVER_VALUE; lia|].
    destruct (sq_lte_compare_near (u32 (a + d1)) (d2 - d1)) as [-> _]; [lia|unfold ADJUST_ROLLOVER_VALUE; lia|].
    destruct (Z.ltb_spec d1 d2), (Z.ltb_spec 0 (d2 - d1)), (Z.leb_spec d1 d2); lia || done.
  - replace (u32 (a + d1)) with (u32 (u32 (a + d2) + (d1 - d2))) by (rewrite u32_add_l; f_equal; lia).
    destruct (sq_lt_compare_near (u32 (a + d2)) (d1 - d2)) as [_ ->]; [lia|unfold ADJUST_ROLLOVER_VALUE; lia|].
    destruct (sq_lte_compare_near (u32 (a + d2)) (d1 - d2)) as [_ ->]; [lia|unfold ADJUST_ROLLOVER_VALUE; lia|].
    destruct (Z.ltb_spec d1 d2), (Z.eqb_spec (d1 - d2) 0), (Z.leb_spec d1 d2); lia || done.
Qed.

Lemma sq_compare_orders_window_witness :
  sq_lt_compare (u32 (4294967290 + 2)) (u32 (4294967290 + 9)) = true
  /\ u32 (4294967290 + 9) = 3.
Proof.
  split; [|reflexivity].
  rewrite (proj1 (sq_compare_orders_window 4294967290 2 9 ltac:(lia)
    ltac:(unfold ADJUST_ROLLOVER_VALUE; lia) ltac:(unfold ADJUST_ROLLOVER_VALUE; lia))).
  reflexivity.
Defined.

(** A release that wraps around the end of the ring forgets the miss
    counts: in a queue of four slots whose head is at slot 3, one miss of number
    4 (slot 0) is counted, and after a release of numbers 3 and 4 the number 8,
    which takes over slot 0, starts with that count instead of zero.  Without the
    wrap-around the count is reset. *)
Theorem release_wrap_keeps_miss_count :
  let after s ops := (q ← run (sq_step 0) ops (snd (sq_init 0 (true, true, true) 4 0));
                      fst <$> sq_item_miss_count s q) in
  after 8 [OpRelease 2; OpMiss 4; OpRelease 4] = Some 2
  /\ after 8 [OpRelease 3; OpMiss 4; OpRelease 4] = Some 1.
Proof. split; vm_compute; reflexivity. Qed.
