(* ===== verification/CsQueue.v ===== *)
(** * The bounded queue (exec/cs_queue.h)

    A ring of [cq_size] slots with [cq_head] the next slot to write and [cq_tail] the
    slot before the oldest item.  Every function runs under the mutex of the
    queue when threads are used, so that each one is a step of its own here.  A
    failed [assert] is [None].  The queue is shown to be a first-in first-out
    list of at most [cq_size - 1] items. *)
From S2P Require Import Prelude SortQueue SortQueueTheory.

Record cs_queue (A : Type) := mk_cs_queue {
  cq_head : Z;
  cq_tail : Z;
  cq_used : Z;
  cq_usedhw : Z;
  cq_size : Z;
  cq_items : list A;
  cq_iterator : Z
}.
Arguments mk_cs_queue {A}. Arguments cq_head {A}. Arguments cq_tail {A}. Arguments cq_used {A}.
Arguments cq_usedhw {A}. Arguments cq_size {A}. Arguments cq_items {A}. Arguments cq_iterator {A}.
#[export] Instance cs_queue_eta {A} : Etable (cs_queue A) := fun q =>
  mk_cs_queue (cq_head q) (cq_tail q) (cq_used q) (cq_usedhw q) (cq_size q) (cq_items q)
    (cq_iterator q).

#[local] Arguments s32 : simpl never.

Section CsQueue.
Context {A : Type} (zero : A).

Definition cs_queue_init (malloc_ok : bool) (n : Z) : Z * cs_queue A :=
  let q := mk_cs_queue 0 (s32 (n - 1)) 0 0 n [] 0 in
  if malloc_ok then (0, q <| cq_items := replicate (Z.to_nat n) zero |>) else (- ENOMEM, q).

Definition cs_queue_reinit (q : cs_queue A) : cs_queue A :=
  q <| cq_head := 0 |> <| cq_tail := s32 (cq_size q - 1) |> <| cq_used := 0 |>
    <| cq_usedhw := 0 |> <| cq_items := replicate (Z.to_nat (cq_size q)) zero |>.

Definition cs_queue_is_full (q : cs_queue A) : bool := cq_size q - 1 =? cq_used q.
Definition cs_queue_is_empty (q : cs_queue A) : bool := cq_used q =? 0.

Definition cs_queue_item_add (x : A) (q : cs_queue A) : option (cs_queue A) :=
  it ← arr_set (cq_items q) (cq_head q) x;
  if cq_tail q =? cq_head q then None
  else
    let q := q <| cq_items := it |> <| cq_head := (cq_head q + 1) mod cq_size q |>
               <| cq_used ::= Z.add 1 |> in
    Some (if cq_usedhw q <? cq_used q then q <| cq_usedhw := cq_used q |> else q).

Definition cs_queue_item_get (q : cs_queue A) : option A :=
  arr_get (cq_items q) ((cq_tail q + 1) mod cq_size q).

Definition cs_queue_item_remove (q : cs_queue A) : option (cs_queue A) :=
  let q := q <| cq_tail := (cq_tail q + 1) mod cq_size q |> in
  if cq_tail q =? cq_head q then None
  else
    let q := q <| cq_used ::= fun u => u - 1 |> in
    if 0 <=? cq_used q then Some q else None.

Definition cs_queue_items_remove (rel_count : Z) (q : cs_queue A) : option (cs_queue A) :=
  let q := q <| cq_tail := (cq_tail q + rel_count) mod cq_size q |> in
  if cq_tail q =? cq_head q then None else Some (q <| cq_used ::= fun u => u - rel_count |>).

Definition cs_queue_item_iterator_init (q : cs_queue A) : cs_queue A :=
  q <| cq_iterator := (cq_tail q + 1) mod cq_size q |>.

(** [Some None] is the null pointer at the end of the queue. *)
Definition cs_queue_item_iterator_get (q : cs_queue A) : option (option A) :=
  if cq_iterator q =? cq_head q then Some None
  else x ← arr_get (cq_items q) (cq_iterator q mod cq_size q); Some (Some x).

(** Whether the iterator reached the end, and the queue. *)
Definition cs_queue_item_iterator_next (q : cs_queue A) : bool * cs_queue A :=
  let q := q <| cq_iterator := (cq_iterator q + 1) mod cq_size q |> in
  (cq_iterator q =? cq_head q, q).

Definition cs_queue_avail (q : cs_queue A) : option Z :=
  let avail := s32 (cq_size q - cq_used q - 2) in
  if 0 <=? avail then Some avail else None.

Definition cs_queue_used (q : cs_queue A) : Z := cq_used q.
Definition cs_queue_usedhw (q : cs_queue A) : Z := cq_usedhw q.

(** ** The queue is a bounded list *)

Definition cq_pos (q : cs_queue A) (k : Z) : Z := (cq_tail q + 1 + k) mod cq_size q.

(** [cs_repr q l]: the queue [q] holds the items [l], oldest first. *)
Record cs_repr (q : cs_queue A) (l : list A) : Prop := {
  cq_wf_size : 2 <= cq_size q < 2 ^ 31;
  cq_wf_tail : 0 <= cq_tail q < cq_size q;
  cq_wf_items : Z.of_nat (length (cq_items q)) = cq_size q;
  cq_wf_used : cq_used q = Z.of_nat (length l);
  cq_wf_hw : cq_used q <= cq_usedhw q;
  cq_wf_cap : Z.of_nat (length l) < cq_size q;
  cq_wf_head : cq_head q = cq_pos q (Z.of_nat (length l));
  cq_wf_get : forall k : nat, (k < length l)%nat -> arr_get (cq_items q) (cq_pos q (Z.of_nat k)) = l !! k
}.

Lemma cq_pos_cases q l k : cs_repr q l -> 0 <= k < cq_size q ->
  cq_pos q k = if cq_tail q + 1 + k <? cq_size q then cq_tail q + 1 + k
               else cq_tail q + 1 + k - cq_size q.
Proof.
  intros H Hk. pose proof (cq_wf_tail q l H). unfold cq_pos.
  destruct (Z.ltb_spec (cq_tail q + 1 + k) (cq_size q)).
  - apply Z.mod_small. lia.
  - symmetry. apply Z.mod_unique with 1; lia.
Qed.

Lemma cq_pos_inj q l i j : cs_repr q l -> 0 <= i < cq_size q -> 0 <= j < cq_size q ->
  cq_pos q i = cq_pos q j -> i = j.
Proof.
  intros H Hi Hj. rewrite !(cq_pos_cases q l) by done.
  destruct (Z.ltb_spec (cq_tail q + 1 + i) (cq_size q)), (Z.ltb_spec (cq_tail q + 1 + j) (cq_size q)); lia.
Qed.

Lemma cq_pos_range q l i : cs_repr q l -> 0 <= cq_pos q i < cq_size q.
Proof. intros H. pose proof (cq_wf_size q l H). apply Z.mod_pos_bound. lia. Qed.

Lemma cs_queue_init_repr n : 2 <= n < 2 ^ 31 ->
  exists q, cs_queue_init true n = (0, q) /\ cs_repr q [] /\ cq_size q = n.
Proof.
  intros Hn. eexists. split; [reflexivity|]. split; [|done].
  split; cbn; rewrite ?s32_small, ?length_replicate by lia; try lia.
  unfold cq_pos. cbn. rewrite ?s32_small by lia.
  replace (n - 1 + 1 + Z.of_nat 0) with n by lia. now rewrite Z.mod_same by lia.
Qed.

Lemma cs_queue_reinit_repr q l : cs_repr q l -> cs_repr (cs_queue_reinit q) [].
Proof.
  intros H. pose proof (cq_wf_size q l H).
  split; cbn; rewrite ?s32_small, ?length_replicate by lia; try lia.
  unfold cq_pos. cbn. rewrite s32_small by lia.
  replace (cq_size q - 1 + 1 + Z.of_nat 0) with (cq_size q) by lia. now rewrite Z.mod_same by lia.
Qed.

Lemma cs_queue_item_add_repr x q l :
  cs_repr q l -> Z.of_nat (length l) < cq_size q - 1 ->
  exists q', cs_queue_item_add x q = Some q' /\ cs_repr q' (l ++ [x]) /\ cq_size q' = cq_size q.
Proof.
  intros H Hl. pose proof (cq_pos_range q l (Z.of_nat (length l)) H) as Hr.
  pose proof (cq_wf_size q l H) as Hs. pose proof (cq_wf_tail q l H) as Ht.
  unfold cs_queue_item_add. rewrite (cq_wf_head q l H).
  rewrite arr_set_some by (rewrite (cq_wf_items q l H); lia). cbn [mbind option_bind].
  assert (Htail : cq_tail q = cq_pos q (cq_size q - 1)).
  { unfold cq_pos. symmetry. replace (cq_tail q + 1 + (cq_size q - 1)) with (cq_tail q + 1 * cq_size q) by lia.
    rewrite Z.mod_add by lia. apply Z.mod_small. lia. }
  destruct (Z.eqb_spec (cq_tail q) (cq_pos q (Z.of_nat (length l)))) as [E|_].
  { rewrite Htail in E at 1. eapply cq_pos_inj in E; [|exact H|lia..]. lia. }
  eexists. split; [reflexivity|].
  match goal with |- cs_repr (if _ then ?a <| _ := _ |> else _) _ /\ _ => set (q1 := a) end.
  assert (Hq : cs_repr (q1 <| cq_usedhw := Z.max (cq_usedhw q1) (cq_used q1) |>) (l ++ [x])).
  { split; cbn; rewrite ?length_app, ?length_insert; cbn; try apply H; try lia.
    - rewrite (cq_wf_used q l H). lia.
    - unfold cq_pos. cbn. rewrite Z.add_mod_idemp_l by lia. f_equal. lia.
    - intros k Hk. change (cq_pos _ (Z.of_nat k)) with (cq_pos q (Z.of_nat k)).
      pose proof (cq_pos_range q l (Z.of_nat k) H).
      rewrite arr_get_set by (rewrite ?(cq_wf_items q l H); lia).
      destruct (Z.eqb_spec (cq_pos q (Z.of_nat k)) (cq_pos q (Z.of_nat (length l)))) as [E|E].
      + eapply cq_pos_inj in E; [|exact H|lia..]. rewrite lookup_app_r by lia.
        replace (k - length l)%nat with O by lia. done.
      + assert (k <> length l) by congruence. rewrite lookup_app_l by lia. apply H. lia. }
  split; [|destruct (_ <? _); done].
  destruct (Z.ltb_spec (cq_usedhw q1) (cq_used q1)) as [E|E].
  - now rewrite Z.max_r in Hq by lia.
  - rewrite Z.max_l in Hq by lia. exact Hq.
Qed.

Lemma cs_queue_items_remove_repr n q l :
  cs_repr q l -> (0 < n <= length l)%nat ->
  exists q', cs_queue_items_remove (Z.of_nat n) q = Some q' /\ cs_repr q' (drop n l)
    /\ cq_size q' = cq_size q.
Proof.
  intros H Hn. unfold cs_queue_items_remove. cbn.
  pose proof (cq_wf_size q l H) as Hs. pose proof (cq_wf_tail q l H) as Ht.
  pose proof (cq_wf_cap q l H) as Hc.
  assert (Htail : (cq_tail q + Z.of_nat n) mod cq_size q = cq_pos q (Z.of_nat n - 1))
    by (unfold cq_pos; f_equal; lia).
  assert (Hpos : forall k, ((cq_tail q + Z.of_nat n) mod cq_size q + 1 + k) mod cq_size q
                           = cq_pos q (Z.of_nat n + k)).
  { intros k. unfold cq_pos. rewrite <- Z.add_assoc, Z.add_mod_idemp_l by lia. f_equal. lia. }
  rewrite Htail, (cq_wf_head q l H).
  destruct (Z.eqb_spec (cq_pos q (Z.of_nat n - 1)) (cq_pos q (Z.of_nat (length l)))) as [E|_].
  { eapply cq_pos_inj in E; [|exact H|lia..]. lia. }
  rewrite <- Htail. eexists. split; [reflexivity|]. split; [|done].
  split; cbn; rewrite ?length_drop; try apply H; try lia.
  - apply Z.mod_pos_bound. lia.
  - rewrite (cq_wf_used q l H). lia.
  - pose proof (cq_wf_hw q l H). lia.
  - unfold cq_pos at 1. cbn. rewrite Hpos, (cq_wf_head q l H). f_equal. lia.
  - intros k Hk. unfold cq_pos at 1. cbn. rewrite Hpos, lookup_drop.
    rewrite <- (cq_wf_get q l H) by lia. do 2 f_equal. lia.
Qed.

Lemma cs_queue_item_remove_repr q x l :
  cs_repr q (x :: l) ->
  exists q', cs_queue_item_remove q = Some q' /\ cs_repr q' l /\ cq_size q' = cq_size q.
Proof.
  intros H. destruct (cs_queue_items_remove_repr 1 q (x :: l) H) as (q' & E & Hr & Hs); [cbn; lia|].
  exists q'. split; [|done]. revert E. unfold cs_queue_items_remove, cs_queue_item_remove. cbn.
  destruct (_ =? cq_head q); [done|]. rewrite (cq_wf_used q _ H). cbn [length].
  rewrite (proj2 (Z.leb_le _ _)) by lia. done.
Qed.

Lemma cs_queue_item_get_repr q x l : cs_repr q (x :: l) -> cs_queue_item_get q = Some x.
Proof.
  intros H. pose proof (cq_wf_get q _ H O ltac:(cbn; lia)) as Hg. cbn in Hg. rewrite <- Hg.
  unfold cs_queue_item_get, cq_pos. do 2 f_equal. lia.
Qed.

(** ** Iteration *)

(** The loop of the users of the iterator: take the item, move on, until [next]
    says that the end was reached. *)
Fixpoint iterate (fuel : nat) (q : cs_queue A) : option (list A) :=
  match fuel with
  | O => None
  | S fuel' =>
      x ← cs_queue_item_iterator_get q;
      match x with
      | None => Some []
      | Some x =>
          match cs_queue_item_iterator_next q with
          | (true, _) => Some [x]
          | (false, q) => l ← iterate fuel' q; Some (x :: l)
          end
      end
  end.

Definition cs_queue_iterate (q : cs_queue A) : option (list A) :=
  iterate (Z.to_nat (cq_size q)) (cs_queue_item_iterator_init q).

Lemma cs_repr_iterator q l i : cs_repr q l -> cs_repr (q <| cq_iterator := i |>) l.
Proof. intros H. split; apply H. Qed.

Lemma iterate_repr k fuel q l :
  cs_repr q l -> cq_iterator q = cq_pos q (Z.of_nat k) -> (k <= length l)%nat ->
  (length l - k < fuel)%nat -> iterate fuel q = Some (drop k l).
Proof.
  revert k q. induction fuel as [|fuel IH]; intros k q H Hi Hk Hf; [lia|]. cbn.
  pose proof (cq_wf_cap q l H). unfold cs_queue_item_iterator_get.
  rewrite Hi, (cq_wf_head q l H).
  destruct (Z.eqb_spec (cq_pos q (Z.of_nat k)) (cq_pos q (Z.of_nat (length l)))) as [E|E].
  { eapply cq_pos_inj in E; [|exact H|lia..]. cbn. rewrite drop_ge by lia. done. }
  assert (k < length l)%nat by (destruct (decide (k = length l)) as [->|]; [done|lia]).
  rewrite (Z.mod_small (cq_pos q (Z.of_nat k))) by (eapply cq_pos_range; eauto).
  rewrite (cq_wf_get q l H k) by lia.
  destruct (lookup_lt_is_Some_2 l k) as [x Hx]; [lia|]. rewrite Hx. cbn.
  assert (Hnext : (cq_pos q (Z.of_nat k) + 1) mod cq_size q = cq_pos q (Z.of_nat (S k))).
  { unfold cq_pos. rewrite Z.add_mod_idemp_l by (pose proof (cq_wf_size q l H); lia). f_equal. lia. }
  rewrite Hnext. rewrite (drop_S l x k Hx).
  destruct (Z.eqb_spec (cq_pos q (Z.of_nat (S k))) (cq_pos q (Z.of_nat (length l)))) as [E2|E2].
  - eapply cq_pos_inj in E2; [|exact H|lia..]. rewrite drop_ge by lia. done.
  - rewrite (IH (S k)); [done|apply cs_repr_iterator, H|done|lia|lia].
Qed.

Lemma cs_queue_iterate_repr q l : cs_repr q l -> cs_queue_iterate q = Some l.
Proof.
  intros H. unfold cs_queue_iterate. pose proof (cq_wf_cap q l H).
  rewrite (iterate_repr 0 _ _ l); [now rewrite drop_0|apply cs_repr_iterator, H| |lia|lia].
  unfold cq_pos. cbn. f_equal. lia.
Qed.

(** ** Refinement *)
Inductive fifo_op := QAdd (x : A) | QRemove | QRemoveN (n : nat) | QReinit.

Definition fifo_step (cap : Z) (op : fifo_op) (l : list A) : option (list A) :=
  match op with
  | QAdd x => if Z.of_nat (length l) <? cap then Some (l ++ [x]) else None
  | QRemove => match l with [] => None | _ :: l' => Some l' end
  | QRemoveN n => if Nat.ltb 0 n && Nat.leb n (length l) then Some (drop n l) else None
  | QReinit => Some []
  end.

Definition cs_queue_step (op : fifo_op) (q : cs_queue A) : option (cs_queue A) :=
  match op with
  | QAdd x => cs_queue_item_add x q
  | QRemove => cs_queue_item_remove q
  | QRemoveN n => cs_queue_items_remove (Z.of_nat n) q
  | QReinit => Some (cs_queue_reinit q)
  end.

Definition run_fifo {S} (step : fifo_op -> S -> option S) (ops : list fifo_op) (s : S) : option S :=
  foldl (fun acc op => acc ≫= step op) (Some s) ops.

Lemma cs_queue_step_refines op q l l' :
  cs_repr q l -> fifo_step (cq_size q - 1) op l = Some l' ->
  exists q', cs_queue_step op q = Some q' /\ cs_repr q' l' /\ cq_size q' = cq_size q.
Proof.
  intros H. destruct op as [x| |n|]; cbn [fifo_step cs_queue_step].
  - destruct (Z.ltb_spec (Z.of_nat (length l)) (cq_size q - 1)); [|done]. intros [= <-].
    now apply cs_queue_item_add_repr.
  - destruct l as [|x l]; [done|]. intros [= <-]. eapply cs_queue_item_remove_repr; eauto.
  - destruct (Nat.ltb_spec 0 n), (Nat.leb_spec n (length l)); cbn [andb]; try done. intros [= <-].
    apply cs_queue_items_remove_repr; [done|lia].
  - intros [= <-]. eexists. split; [done|]. split; [|done]. eapply cs_queue_reinit_repr; eauto.
Qed.

Lemma run_fifo_app {S} (step : fifo_op -> S -> option S) ops op s :
  run_fifo step (ops ++ [op]) s = run_fifo step ops s ≫= step op.
Proof. unfold run_fifo. now rewrite foldl_snoc. Qed.

(** C13: The queue is a bounded first-in first-out list: after any sequence of
    operations that a list of capacity [n - 1] allows, no assertion has failed,
    and the queue reports the length, emptiness and fullness of the list, gives
    its oldest item, iterates over exactly its items in order, and [avail] is the
    room that is left less one, an assertion failure when the queue is full. *)
Theorem cs_queue_refines_fifo n ops l :
  2 <= n < 2 ^ 31 -> run_fifo (fifo_step (n - 1)) ops [] = Some l ->
  exists q0 q, cs_queue_init true n = (0, q0) /\ run_fifo cs_queue_step ops q0 = Some q
    /\ cs_queue_used q = Z.of_nat (length l)
    /\ cs_queue_is_empty q = bool_decide (l = [])
    /\ cs_queue_is_full q = (Z.of_nat (length l) =? n - 1)
    /\ (forall x, hd_error l = Some x -> cs_queue_item_get q = Some x)
    /\ cs_queue_iterate q = Some l
    /\ cs_queue_avail q = (if Z.of_nat (length l) <? n - 1 then Some (n - 2 - Z.of_nat (length l)) else None).
Proof.
  intros Hn Hrun. destruct (cs_queue_init_repr n Hn) as (q0 & E0 & H0 & Hs0).
  assert (exists q, run_fifo cs_queue_step ops q0 = Some q /\ cs_repr q l /\ cq_size q = n)
    as (q & E & H & Hs).
  { revert l Hrun. induction ops as [|op ops IH] using rev_ind; intros l Hrun.
    - cbn in Hrun. simplify_eq. eauto.
    - rewrite run_fifo_app in Hrun. apply bind_Some in Hrun as (l1 & Hrun & Hst).
      destruct (IH _ Hrun) as (q1 & E1 & H1 & Hs1). rewrite <- Hs1 in Hst.
      destruct (cs_queue_step_refines op q1 l1 l H1 Hst) as (q & E & H & Hs).
      exists q. rewrite run_fifo_app, E1. cbn. split_and!; congruence. }
  exists q0, q. split; [done|]. split; [done|].
  pose proof (cq_wf_used q l H) as Hu. pose proof (cq_wf_cap q l H) as Hc.
  split; [done|]. split; [|split; [|split; [|split]]].
  - unfold cs_queue_is_empty. rewrite Hu. destruct l; cbn; [done|]. now apply Z.eqb_neq.
  - unfold cs_queue_is_full. now rewrite Hu, Hs, Z.eqb_sym.
  - intros x Hx. destruct l as [|y l]; cbn in Hx; simplify_eq. eapply cs_queue_item_get_repr; eauto.
  - now apply cs_queue_iterate_repr.
  - unfold cs_queue_avail. rewrite Hu, Hs, s32_small by lia.
    destruct (Z.leb_spec 0 (n - Z.of_nat (length l) - 2)), (Z.ltb_spec (Z.of_nat (length l)) (n - 1));
      try lia; f_equal; lia.
Qed.

End CsQueue.

Lemma cs_queue_refines_fifo_witness :
  exists q0 q : cs_queue Z, cs_queue_init 0 true 3 = (0, q0)
    /\ run_fifo (cs_queue_step 0) [QAdd 5; QAdd 6; QRemove; QAdd 7] q0 = Some q
    /\ cs_queue_iterate q = Some [6; 7].
Proof.
  destruct (cs_queue_refines_fifo 0 3 [QAdd 5; QAdd 6; QRemove; QAdd 7] [6; 7]
    ltac:(lia) ltac:(vm_compute; reflexivity)) as (q0 & q & H0 & H1 & _ & _ & _ & _ & H2 & _).
  exists q0, q. split; [exact H0|]. split; [exact H1|exact H2].
Defined.
