(* ===== verification/Endian.v ===== *)
(** * Byte swapping (include/corosync/swab.h)

    Messages between machines of different byte order are converted field by
    field.  Swapping twice gives the value back. *)
From S2P Require Import Prelude.

Definition swab16 (x : Z) : Z :=
  Z.lor (Z.shiftl (Z.land x 0x00ff) 8) (Z.shiftr (Z.land x 0xff00) 8).

Definition swab32 (x : Z) : Z :=
  Z.lor (Z.lor (Z.lor (Z.shiftl (Z.land x 0x000000ff) 24) (Z.shiftl (Z.land x 0x0000ff00) 8))
    (Z.shiftr (Z.land x 0x00ff0000) 8)) (Z.shiftr (Z.land x 0xff000000) 24).

Definition swab64 (x : Z) : Z :=
  Z.lor (Z.lor (Z.lor (Z.lor (Z.lor (Z.lor (Z.lor
    (Z.shiftl (Z.land x 0x00000000000000ff) 56)
    (Z.shiftl (Z.land x 0x000000000000ff00) 40))
    (Z.shiftl (Z.land x 0x0000000000ff0000) 24))
    (Z.shiftl (Z.land x 0x00000000ff000000) 8))
    (Z.shiftr (Z.land x 0x000000ff00000000) 8))
    (Z.shiftr (Z.land x 0x0000ff0000000000) 24))
    (Z.shiftr (Z.land x 0x00ff000000000000) 40))
    (Z.shiftr (Z.land x 0xff00000000000000) 56).

(** ** Swapping as a permutation of bits

    Bit [n] of the result is bit [8 * (w - 1 - n / 8) + n mod 8] of the argument,
    for a value of [w] bytes. *)

Ltac bits_of_swab :=
  repeat first [ rewrite Z.lor_spec | rewrite Z.land_spec | (rewrite Z.shiftr_spec by lia)
               | (rewrite Z.shiftl_spec by lia) ].


Definition swab_index (w n : Z) : Z := 8 * (w - 1 - n / 8) + n mod 8.

Lemma below_cases (P : Z -> Prop) (w : nat) :
  Forall P (seqZ 0 (Z.of_nat w)) -> forall n, 0 <= n < Z.of_nat w -> P n.
Proof. intros H n Hn. rewrite Forall_forall in H. apply H, elem_of_seqZ. lia. Qed.

(** One bit of a swapped value with a concrete index. *)
Ltac swab_bit :=
  bits_of_swab;
  repeat match goal with
  | |- context [Z.testbit (Zpos ?m) ?k] =>
      let b := eval vm_compute in (Z.testbit (Zpos m) k) in
      change (Z.testbit (Zpos m) k) with b
  end;
  rewrite ?andb_true_r, ?andb_false_r, ?orb_false_r, ?orb_false_l; reflexivity.

Ltac swab_bits :=
  match goal with
  | |- Forall _ ?l => let l' := eval vm_compute in l in change l with l'
  end;
  repeat (constructor; [cbv beta; swab_bit|]); constructor.

Lemma swab16_testbit x n : 0 <= n < 16 -> Z.testbit (swab16 x) n = Z.testbit x (swab_index 2 n).
Proof. revert n. apply (below_cases _ 16). unfold swab16. swab_bits. Qed.

Lemma swab32_testbit x n : 0 <= n < 32 -> Z.testbit (swab32 x) n = Z.testbit x (swab_index 4 n).
Proof. revert n. apply (below_cases _ 32). unfold swab32. swab_bits. Qed.

Lemma swab64_testbit x n : 0 <= n < 64 -> Z.testbit (swab64 x) n = Z.testbit x (swab_index 8 n).
Proof. revert n. apply (below_cases _ 64). unfold swab64. swab_bits. Qed.

(** Bits beyond the width are clear. *)
Lemma testbit_high x w n : 0 <= x < 2 ^ w -> 0 <= w <= n -> Z.testbit x n = false.
Proof.
  intros Hx Hn. destruct (Z.eq_dec x 0) as [->|]; [apply Z.bits_0|].
  apply Z.bits_above_log2; [lia|].
  assert (Z.log2 x < w) by (apply Z.log2_lt_pow2; lia). lia.
Qed.

Ltac swab_high :=
  bits_of_swab;
  repeat match goal with
  | |- context [Z.testbit (Zpos ?m) ?k] =>
      rewrite (testbit_high (Zpos m) (Z.log2 (Zpos m) + 1) k) by (cbn; lia)
  end;
  rewrite ?andb_false_r; reflexivity.

Lemma swab16_high x n : 16 <= n -> Z.testbit (swab16 x) n = false.
Proof. intros Hn. unfold swab16. swab_high. Qed.

Lemma swab32_high x n : 32 <= n -> Z.testbit (swab32 x) n = false.
Proof. intros Hn. unfold swab32. swab_high. Qed.

Lemma swab64_high x n : 64 <= n -> Z.testbit (swab64 x) n = false.
Proof. intros Hn. unfold swab64. swab_high. Qed.

Lemma swab_index_range w n : 0 <= n < 8 * w -> 0 <= swab_index w n < 8 * w.
Proof. intros Hn. unfold swab_index. Z.div_mod_to_equations. lia. Qed.

Lemma swab_index_involutive w n : 0 <= n < 8 * w -> swab_index w (swab_index w n) = n.
Proof. intros Hn. unfold swab_index. Z.div_mod_to_equations. lia. Qed.

(** A function that permutes the bits below [8 * w] by [swab_index] and clears
    the others is its own inverse on values of [w] bytes. *)
Lemma swab_involutive_gen (f : Z -> Z) w x :
  0 < w ->
  (forall x n, 0 <= n < 8 * w -> Z.testbit (f x) n = Z.testbit x (swab_index w n)) ->
  (forall x n, 8 * w <= n -> Z.testbit (f x) n = false) ->
  0 <= x < 2 ^ (8 * w) -> f (f x) = x.
Proof.
  intros Hw Hlow Hhigh Hx. apply Z.bits_inj'. intros n Hn.
  destruct (Z_lt_le_dec n (8 * w)).
  - rewrite !Hlow, swab_index_involutive by (try apply swab_index_range; lia). done.
  - rewrite Hhigh by lia. symmetry. apply testbit_high with (8 * w); lia.
Qed.

Lemma swab16_involutive x : 0 <= x < 2 ^ 16 -> swab16 (swab16 x) = x.
Proof.
  apply (swab_involutive_gen swab16 2); [lia|intros; now apply swab16_testbit|intros; now apply swab16_high].
Qed.

Lemma swab32_involutive x : 0 <= x < 2 ^ 32 -> swab32 (swab32 x) = x.
Proof.
  apply (swab_involutive_gen swab32 4); [lia|intros; now apply swab32_testbit|intros; now apply swab32_high].
Qed.

Lemma swab64_involutive x : 0 <= x < 2 ^ 64 -> swab64 (swab64 x) = x.
Proof.
  apply (swab_involutive_gen swab64 8); [lia|intros; now apply swab64_testbit|intros; now apply swab64_high].
Qed.

Lemma swab_nonzero (f : Z -> Z) x : f 0 = 0 -> f (f x) = x -> x <> 0 -> f x <> 0.
Proof. congruence. Qed.

#[export] Hint Rewrite swab16_involutive swab32_involutive swab64_involutive using lia : wrap.
