(* ===== verification/TotemMemb.v ===== *)
(** * Sets of processors (exec/totemsrp.c, the set operations of the membership algorithm)

    A [struct srp_addr] is its node id.  The C arrays with their entry counts are
    lists; an operation that would write past the [PROCESSOR_COUNT_MAX] elements
    of an array is [None].  The operations are shown to compute union,
    difference, inclusion and equality of sets. *)
From S2P Require Import Prelude VoteQuorum.

Definition srp_addr_equal (a b : Z) : bool := a =? b.

Definition memb_set_subtract (one_list two_list : list Z) : list Z :=
  List.filter (fun a => negb (existsb (srp_addr_equal a) two_list)) one_list.

(** [struct consensus_list_item] *)
Record consensus_list_item := mk_consensus { c_addr : Z; c_set : bool }.

Fixpoint memb_consensus_set_at (addr : Z) (l : list consensus_list_item) : list consensus_list_item :=
  match l with
  | [] => [mk_consensus addr true]
  | c :: l' => if srp_addr_equal addr (c_addr c) then mk_consensus addr true :: l'
               else c :: memb_consensus_set_at addr l'
  end.

Fixpoint consensus_isset (addr : Z) (l : list consensus_list_item) : bool :=
  match l with
  | [] => false
  | c :: l' => if srp_addr_equal addr (c_addr c) then c_set c else consensus_isset addr l'
  end.

Definition memb_set_equal (set1 set2 : list Z) : bool :=
  Nat.eqb (length set1) (length set2)
  && forallb (fun b => existsb (fun a => srp_addr_equal a b) set1) set2.

Definition memb_set_subset (subset fullset : list Z) : bool :=
  Nat.leb (length subset) (length fullset)
  && forallb (fun a => existsb (srp_addr_equal a) fullset) subset.

(** One processor merged into a set. *)
Definition memb_set_merge1 (fullset : list Z) (a : Z) : option (list Z) :=
  if existsb (fun b => srp_addr_equal b a) fullset then Some fullset
  else if Nat.ltb (length fullset) PROCESSOR_COUNT_MAX then Some (fullset ++ [a]) else None.

Definition memb_set_merge (subset fullset : list Z) : option (list Z) :=
  foldl (fun acc a => full ← acc; memb_set_merge1 full a) (Some fullset) subset.

(** The ring id of the first entry of [set1] with address [a]. *)
Fixpoint ring_id_of (a : Z) (set1 : list Z) (ids : list ring_id) : option ring_id :=
  match set1, ids with
  | b :: set1', r :: ids' => if srp_addr_equal b a then Some r else ring_id_of a set1' ids'
  | _, _ => None
  end.

Definition memb_set_and_with_ring_id (set1 : list Z) (set1_ring_ids : list ring_id)
    (set2 : list Z) (old_ring_id : ring_id) : list Z :=
  List.filter (fun a => bool_decide (ring_id_of a set1 set1_ring_ids = Some old_ring_id)) set2.

(** ** What the operations compute *)

Lemma existsb_equal a l : existsb (srp_addr_equal a) l = true <-> a ∈ l.
Proof.
  unfold srp_addr_equal. rewrite existsb_exists, list_elem_of_In. setoid_rewrite Z.eqb_eq.
  naive_solver.
Qed.

Lemma existsb_equal_r a l : existsb (fun b => srp_addr_equal b a) l = true <-> a ∈ l.
Proof.
  unfold srp_addr_equal. rewrite existsb_exists, list_elem_of_In. setoid_rewrite Z.eqb_eq.
  naive_solver.
Qed.

Lemma elem_of_subtract a one two : a ∈ memb_set_subtract one two <-> a ∈ one /\ a ∉ two.
Proof.
  unfold memb_set_subtract. rewrite !list_elem_of_In, filter_In, negb_true_iff,
    <- not_true_iff_false, existsb_equal, !list_elem_of_In. done.
Qed.

Lemma subtract_NoDup one two : NoDup one -> NoDup (memb_set_subtract one two).
Proof. intros H. apply NoDup_ListNoDup, List.NoDup_filter, NoDup_ListNoDup, H. Qed.

Lemma memb_set_subset_elem subset full :
  memb_set_subset subset full = true -> forall a, a ∈ subset -> a ∈ full.
Proof.
  unfold memb_set_subset. rewrite andb_true_iff, forallb_forall. intros [_ H] a Ha.
  apply existsb_equal, H, list_elem_of_In, Ha.
Qed.

Lemma memb_set_subset_spec subset full :
  NoDup subset -> memb_set_subset subset full = true <-> forall a, a ∈ subset -> a ∈ full.
Proof.
  intros Hnd. split; [apply memb_set_subset_elem|]. intros H.
  unfold memb_set_subset. rewrite andb_true_iff, forallb_forall. split.
  - apply Nat.leb_le, submseteq_length, NoDup_submseteq; done.
  - intros a Ha. apply existsb_equal, H, list_elem_of_In, Ha.
Qed.

Lemma memb_set_subset1 a full : memb_set_subset [a] full = true <-> a ∈ full.
Proof.
  rewrite memb_set_subset_spec by (apply NoDup_singleton). set_solver.
Qed.

Lemma memb_set_equal_spec set1 set2 :
  NoDup set2 -> memb_set_equal set1 set2 = true -> set1 ≡ₚ set2.
Proof.
  intros Hnd. unfold memb_set_equal. rewrite andb_true_iff, forallb_forall, Nat.eqb_eq.
  intros [Hl H]. symmetry. apply submseteq_length_Permutation; [|lia].
  apply NoDup_submseteq; [done|]. intros a Ha. apply existsb_equal_r, H, list_elem_of_In, Ha.
Qed.

Lemma memb_set_equal_perm set1 set2 : set1 ≡ₚ set2 -> memb_set_equal set1 set2 = true.
Proof.
  intros H. unfold memb_set_equal. rewrite andb_true_iff, forallb_forall, Nat.eqb_eq.
  split; [now rewrite H|]. intros a Ha. apply existsb_equal_r. rewrite H. now apply list_elem_of_In.
Qed.

Lemma memb_set_merge1_spec full a full' :
  memb_set_merge1 full a = Some full' ->
  (forall b, b ∈ full' <-> b ∈ full \/ b = a) /\ (NoDup full -> NoDup full')
  /\ (length full' <= Nat.max (length full) PROCESSOR_COUNT_MAX)%nat
  /\ exists l, full' = full ++ l.
Proof.
  unfold memb_set_merge1. destruct (existsb _ full) eqn:E.
  - intros [= <-]. apply existsb_equal_r in E.
    split_and!; [set_solver|done|lia|exists []; now rewrite app_nil_r].
  - assert (Hn : a ∉ full) by (intros Ha%existsb_equal_r; congruence).
    destruct (Nat.ltb_spec (length full) PROCESSOR_COUNT_MAX); [|done]. intros [= <-].
    split_and!; [set_solver| |rewrite length_app; cbn; lia|eauto].
    intros Hnd. apply NoDup_app. split_and!; [done|set_solver|apply NoDup_singleton].
Qed.

Lemma memb_set_merge_nil full : memb_set_merge [] full = Some full.
Proof. done. Qed.

Lemma memb_set_merge_cons a sub full :
  memb_set_merge (a :: sub) full = memb_set_merge1 full a ≫= memb_set_merge sub.
Proof.
  unfold memb_set_merge at 1. cbn. destruct (memb_set_merge1 full a) as [f|]; [done|].
  induction sub; cbn; [done|]. done.
Qed.

(** Merging is union: it keeps the old elements in place and adds no duplicates. *)
Lemma memb_set_merge_spec sub full full' :
  memb_set_merge sub full = Some full' ->
  (forall b, b ∈ full' <-> b ∈ full \/ b ∈ sub) /\ (NoDup full -> NoDup full')
  /\ (length full' <= Nat.max (length full) PROCESSOR_COUNT_MAX)%nat
  /\ exists l, full' = full ++ l.
Proof.
  revert full. induction sub as [|a sub IH]; intros full.
  - rewrite memb_set_merge_nil. intros [= <-].
    split_and!; [set_solver|done|lia|exists []; now rewrite app_nil_r].
  - rewrite memb_set_merge_cons. intros (f & E1%memb_set_merge1_spec & E2%IH)%bind_Some.
    destruct E1 as (H1 & N1 & L1 & l1 & ->), E2 as (H2 & N2 & L2 & l2 & ->).
    split_and!; [|auto|lia|exists (l1 ++ l2); now rewrite app_assoc].
    intros b. rewrite H2, H1, elem_of_cons. tauto.
Qed.

(** Merging succeeds as long as all the processors come from a universe that
    fits the arrays. *)
Lemma memb_set_merge_fits (U : list Z) sub full :
  (length U <= PROCESSOR_COUNT_MAX)%nat -> NoDup full ->
  (forall a, a ∈ full -> a ∈ U) -> (forall a, a ∈ sub -> a ∈ U) ->
  exists full', memb_set_merge sub full = Some full' /\ NoDup full' /\ forall a, a ∈ full' -> a ∈ U.
Proof.
  intros HU. revert full. induction sub as [|a sub IH]; intros full Hnd Hf Hs.
  - eauto.
  - rewrite memb_set_merge_cons. destruct (memb_set_merge1 full a) as [f|] eqn:E.
    + apply memb_set_merge1_spec in E as (H1 & N1 & _). cbn.
      apply IH; [auto|intros b Hb%H1; set_solver|set_solver].
    + exfalso. revert E. unfold memb_set_merge1. destruct (existsb _ full) eqn:Ex; [done|].
      assert (Hn : a ∉ full) by (intros Ha%existsb_equal_r; congruence).
      destruct (Nat.ltb_spec (length full) PROCESSOR_COUNT_MAX) as [|Hge]; [done|]. intros _.
      assert (length (a :: full) <= length U)%nat; [|cbn in *; lia].
      apply submseteq_length, NoDup_submseteq; [now constructor|set_solver].
Qed.

Lemma elem_of_and_with_ring_id a set1 ids set2 old :
  a ∈ memb_set_and_with_ring_id set1 ids set2 old
  <-> a ∈ set2 /\ ring_id_of a set1 ids = Some old.
Proof.
  unfold memb_set_and_with_ring_id. rewrite !list_elem_of_In, filter_In, bool_decide_eq_true. done.
Qed.

Lemma consensus_isset_set a b l :
  consensus_isset b (memb_consensus_set_at a l) = (b =? a) || consensus_isset b l.
Proof.
  unfold srp_addr_equal in *. induction l as [|c l IH]; cbn; unfold srp_addr_equal.
  - destruct (Z.eqb_spec b a); done.
  - destruct (Z.eqb_spec a (c_addr c)) as [->|Hne]; cbn; unfold srp_addr_equal.
    + destruct (Z.eqb_spec b (c_addr c)); done.
    + destruct (Z.eqb_spec b (c_addr c)) as [->|]; [|apply IH].
      destruct (Z.eqb_spec (c_addr c) a); [congruence|done].
Qed.

(** The set operations of the membership algorithm compute what their names
    say, on the duplicate-free lists the algorithm keeps: difference, inclusion,
    equality up to order, union (without duplicates, the old members keeping
    their places, and never more than an array holds), and the intersection with
    the processors that come from a given old ring. *)
Theorem memb_set_operations_correct (l k : list Z) :
  NoDup l -> NoDup k ->
  (forall a, a ∈ memb_set_subtract l k <-> a ∈ l /\ a ∉ k)
  /\ (memb_set_subset l k = true <-> forall a, a ∈ l -> a ∈ k)
  /\ (memb_set_equal l k = true <-> l ≡ₚ k)
  /\ (forall m, memb_set_merge l k = Some m ->
        NoDup m /\ (forall a, a ∈ m <-> a ∈ k \/ a ∈ l) /\ (exists r, m = k ++ r)
        /\ (length m <= Nat.max (length k) PROCESSOR_COUNT_MAX)%nat)
  /\ (memb_set_merge l k = None ->
        (PROCESSOR_COUNT_MAX < length k + length (memb_set_subtract l k))%nat)
  /\ (forall ids old a, a ∈ memb_set_and_with_ring_id l ids k old
                        <-> a ∈ k /\ ring_id_of a l ids = Some old).
Proof.
  intros Hl Hk. split_and!.
  - intros a. apply elem_of_subtract.
  - now apply memb_set_subset_spec.
  - split; [now apply memb_set_equal_spec|apply memb_set_equal_perm].
  - intros m (H & Hn & Hlen & Hr)%memb_set_merge_spec. auto.
  - intros Hm. destruct (Nat.lt_ge_cases PROCESSOR_COUNT_MAX (length k + length (memb_set_subtract l k)))
      as [|Hle]; [done|].
    destruct (memb_set_merge_fits (k ++ memb_set_subtract l k) l k) as (m & E & _);
      [rewrite length_app; lia|done|set_solver| |congruence].
    intros a Ha. destruct (decide (a ∈ k)); [set_solver|].
    apply elem_of_app. right. now apply elem_of_subtract.
  - intros ids old a. apply elem_of_and_with_ring_id.
Qed.

Lemma memb_set_operations_correct_witness :
  memb_set_equal [1; 2; 3] [3; 1; 2] = true
  /\ (memb_set_equal [1; 2; 3] [3; 1; 2] = true <-> [1; 2; 3] ≡ₚ [3; 1; 2]).
Proof.
  split; [reflexivity|].
  refine (proj1 (proj2 (proj2 (memb_set_operations_correct [1; 2; 3] [3; 1; 2] _ _)))); by_compute.
Defined.
