(* ===== verification/TotemSrp.v ===== *)
(** * Totem single ring protocol: messages and state (exec/totemsrp.c)

    The messages of the protocol, their conversion between byte orders, the
    checks a received message must pass, and the instance record.  Pointers to
    buffers are the values in the buffers; statistics and logging are left out.
    Everything an instance does outside itself is appended to [srp_out]. *)
From S2P Require Import Prelude VoteQuorum Endian SortQueue CsQueue TotemMemb.

Definition QUEUE_RTR_ITEMS_SIZE_MAX : Z := 16384.
Definition RETRANS_MESSAGE_QUEUE_SIZE_MAX : Z := 16384.
Definition RETRANSMIT_ENTRIES_MAX : Z := 30.
Definition LEAVE_DUMMY_NODEID : Z := 0.
Definition SEQNO_START_MSG : Z := 0.
Definition SEQNO_START_TOKEN : Z := 0.

(** ** Messages *)

(** The header of a [struct mcast]; [m_foreign] says that the magic number is
    not the one of this machine, so that the other fields are in the other byte
    order. *)
Record mcast_hdr := mk_mcast_hdr {
  m_foreign : bool;
  m_nodeid : Z;
  m_system_from : Z;
  m_seq : Z;
  m_this_seqno : Z;
  m_ring_id : ring_id;
  m_node_id : Z;
  m_guarantee : Z
}.
#[export] Instance mcast_hdr_eta : Etable mcast_hdr := fun h =>
  mk_mcast_hdr (m_foreign h) (m_nodeid h) (m_system_from h) (m_seq h) (m_this_seqno h)
    (m_ring_id h) (m_node_id h) (m_guarantee h).

(** [header.encapsulated]: a message that carries another one ([MESSAGE_ENCAPSULATED])
    or the bytes of the client ([MESSAGE_NOT_ENCAPSULATED]). *)
Inductive mcast_msg :=
| NotEncapsulated (h : mcast_hdr) (bytes : list Z)
| Encapsulated (h : mcast_hdr) (inner : mcast_msg).

Definition hdr (m : mcast_msg) : mcast_hdr :=
  match m with NotEncapsulated h _ | Encapsulated h _ => h end.
Definition upd_hdr (f : mcast_hdr -> mcast_hdr) (m : mcast_msg) : mcast_msg :=
  match m with
  | NotEncapsulated h b => NotEncapsulated (f h) b
  | Encapsulated h i => Encapsulated (f h) i
  end.
Definition is_encapsulated (m : mcast_msg) : bool :=
  match m with Encapsulated _ _ => true | _ => false end.

Definition sizeof_mcast : Z := 45.
Fixpoint msg_len (m : mcast_msg) : Z :=
  match m with
  | NotEncapsulated _ b => sizeof_mcast + Z.of_nat (length b)
  | Encapsulated _ i => sizeof_mcast + msg_len i
  end.

Record rtr_item := mk_rtr { rtr_ring_id : ring_id; rtr_seq : Z }.

(** [rtr_list] are the items behind the header, [rtr_list_entries] the count the
    header claims. *)
Record orf_token := mk_token {
  t_nodeid : Z;
  t_seq : Z;
  t_token_seq : Z;
  t_aru : Z;
  t_aru_addr : Z;
  t_ring_id : ring_id;
  t_backlog : Z;
  t_fcc : Z;
  t_retrans_flg : Z;
  t_rtr_list_entries : Z;
  t_rtr_list : list rtr_item
}.
#[export] Instance orf_token_eta : Etable orf_token := fun t =>
  mk_token (t_nodeid t) (t_seq t) (t_token_seq t) (t_aru t) (t_aru_addr t) (t_ring_id t)
    (t_backlog t) (t_fcc t) (t_retrans_flg t) (t_rtr_list_entries t) (t_rtr_list t).

Record memb_join := mk_join {
  j_nodeid : Z;
  j_system_from : Z;
  j_ring_seq : Z;
  j_proc_list : list Z;
  j_failed_list : list Z
}.

Record memb_merge_detect := mk_merge_detect {
  d_nodeid : Z; d_system_from : Z; d_ring_id : ring_id
}.

Record memb_entry := mk_memb_entry {
  e_ring_id : ring_id; e_aru : Z; e_high_delivered : Z; e_received_flg : Z
}.
#[export] Instance memb_entry_eta : Etable memb_entry := fun e =>
  mk_memb_entry (e_ring_id e) (e_aru e) (e_high_delivered e) (e_received_flg e).

Record memb_commit_token := mk_commit {
  ct_nodeid : Z;
  ct_token_seq : Z;
  ct_ring_id : ring_id;
  ct_retrans_flg : Z;
  ct_memb_index : Z;
  ct_addr : list Z;
  ct_memb_list : list memb_entry
}.
#[export] Instance memb_commit_token_eta : Etable memb_commit_token := fun c =>
  mk_commit (ct_nodeid c) (ct_token_seq c) (ct_ring_id c) (ct_retrans_flg c) (ct_memb_index c)
    (ct_addr c) (ct_memb_list c).

Definition ct_addr_entries (c : memb_commit_token) : Z := Z.of_nat (length (ct_addr c)).

Definition zero_ring : ring_id := mk_ring 0 0.
Definition zero_entry : memb_entry := mk_memb_entry zero_ring 0 0 0.

(** ** Byte order *)

Definition ring_id_endian_convert (r : ring_id) : ring_id :=
  mk_ring (swab32 (ring_nodeid r)) (swab64 (ring_seq r)).

Definition srp_addr_endian_convert (a : Z) : Z := swab32 a.

Definition mcast_endian_convert (h : mcast_hdr) : mcast_hdr :=
  mk_mcast_hdr false (swab32 (m_nodeid h)) (srp_addr_endian_convert (m_system_from h))
    (swab32 (m_seq h)) (swab32 (m_this_seqno h)) (ring_id_endian_convert (m_ring_id h))
    (swab32 (m_node_id h)) (swab32 (m_guarantee h)).

Definition rtr_item_endian_convert (r : rtr_item) : rtr_item :=
  mk_rtr (ring_id_endian_convert (rtr_ring_id r)) (swab32 (rtr_seq r)).

(** [swab32] of an [int] that is stored back in an [int]. *)
Definition swab32_int (z : Z) : Z := s32 (swab32 (u32 z)).

Definition orf_token_endian_convert (t : orf_token) : orf_token :=
  let entries := swab32_int (t_rtr_list_entries t) in
  mk_token (swab32 (t_nodeid t)) (swab32 (t_seq t)) (swab32 (t_token_seq t)) (swab32 (t_aru t))
    (swab32 (t_aru_addr t)) (ring_id_endian_convert (t_ring_id t)) (swab32 (t_backlog t))
    (swab32 (t_fcc t)) (swab32_int (t_retrans_flg t)) entries
    (map rtr_item_endian_convert (take (Z.to_nat entries) (t_rtr_list t))
     ++ drop (Z.to_nat entries) (t_rtr_list t)).

Definition memb_join_endian_convert (j : memb_join) : memb_join :=
  mk_join (swab32 (j_nodeid j)) (srp_addr_endian_convert (j_system_from j)) (swab64 (j_ring_seq j))
    (map srp_addr_endian_convert (j_proc_list j)) (map srp_addr_endian_convert (j_failed_list j)).

Definition memb_merge_detect_endian_convert (d : memb_merge_detect) : memb_merge_detect :=
  mk_merge_detect (swab32 (d_nodeid d)) (srp_addr_endian_convert (d_system_from d))
    (ring_id_endian_convert (d_ring_id d)).

(** An entry that no processor has filled in yet stays zero. *)
Definition memb_entry_endian_convert (e : memb_entry) : memb_entry :=
  if ring_nodeid (e_ring_id e) =? 0 then zero_entry
  else mk_memb_entry (ring_id_endian_convert (e_ring_id e)) (swab32 (e_aru e))
         (swab32 (e_high_delivered e)) (swab32 (e_received_flg e)).

Definition memb_commit_token_endian_convert (c : memb_commit_token) : memb_commit_token :=
  mk_commit (swab32 (ct_nodeid c)) (swab32 (ct_token_seq c)) (ring_id_endian_convert (ct_ring_id c))
    (swab32 (ct_retrans_flg c)) (swab32_int (ct_memb_index c))
    (map srp_addr_endian_convert (ct_addr c)) (map memb_entry_endian_convert (ct_memb_list c)).

(** The header in this machine's byte order. *)
Definition local_hdr (m : mcast_msg) : mcast_hdr :=
  if m_foreign (hdr m) then mcast_endian_convert (hdr m) else hdr m.

(** ** Checks on received messages

    Each takes the length of the datagram and the counts in its header. *)
Definition sizeof_orf_token : Z := 57.
Definition sizeof_rtr_item : Z := 16.
Definition sizeof_memb_join : Z := 33.
Definition sizeof_srp_addr : Z := 4.
Definition sizeof_memb_commit_token : Z := 41.
Definition sizeof_memb_entry : Z := 24.
Definition sizeof_memb_merge_detect : Z := 29.
Definition sizeof_token_hold_cancel : Z := 25.

(** [rtr_list_entries] is an [int]; the product is computed in [size_t]. *)
Definition check_orf_token_sanity (len max_len rtr_list_entries : Z) (convert : bool) : bool :=
  if max_len <? len then false
  else if len <? sizeof_orf_token then false
  else
    let rtr_entries := if convert then swab32_int rtr_list_entries else rtr_list_entries in
    if RETRANSMIT_ENTRIES_MAX <? rtr_entries then false
    else negb (len <? u64 (sizeof_orf_token + u64 (rtr_entries * sizeof_rtr_item))).

Definition check_mcast_sanity (len : Z) : bool := negb (len <? sizeof_mcast).

Definition check_memb_merge_detect_sanity (len : Z) : bool := negb (len <? sizeof_memb_merge_detect).

Definition check_memb_join_sanity (len proc_list_entries failed_list_entries : Z) (convert : bool) : bool :=
  if len <? sizeof_memb_join then false
  else
    let p := if convert then swab32 proc_list_entries else proc_list_entries in
    let f := if convert then swab32 failed_list_entries else failed_list_entries in
    if (Z.of_nat PROCESSOR_COUNT_MAX <? p) || (Z.of_nat PROCESSOR_COUNT_MAX <? f) then false
    else negb (len <? u64 (sizeof_memb_join + u64 ((p + f) * sizeof_srp_addr))).

Definition check_memb_commit_token_sanity (len addr_entries : Z) (convert : bool) : bool :=
  if len <? sizeof_memb_commit_token then false
  else
    let n := if convert then swab32 addr_entries else addr_entries in
    negb (len <? u64 (sizeof_memb_commit_token + u64 (n * (sizeof_srp_addr + sizeof_memb_entry)))).

Definition check_token_hold_cancel_sanity (len : Z) : bool := negb (len <? sizeof_token_hold_cancel).

(** ** The instance *)

Inductive memb_state_t :=
| MEMB_STATE_OPERATIONAL | MEMB_STATE_GATHER | MEMB_STATE_COMMIT | MEMB_STATE_RECOVERY.

#[export] Instance memb_state_eq_dec : EqDecision memb_state_t.
Proof. solve_decision. Defined.

Inductive gather_state_from :=
| GSFROM_CONSENSUS_TIMEOUT
| GSFROM_THE_TOKEN_WAS_LOST_IN_THE_OPERATIONAL_STATE
| GSFROM_THE_CONSENSUS_TIMEOUT_EXPIRED
| GSFROM_THE_TOKEN_WAS_LOST_IN_THE_COMMIT_STATE
| GSFROM_THE_TOKEN_WAS_LOST_IN_THE_RECOVERY_STATE
| GSFROM_FAILED_TO_RECEIVE
| GSFROM_FOREIGN_MESSAGE_IN_OPERATIONAL_STATE
| GSFROM_FOREIGN_MESSAGE_IN_GATHER_STATE
| GSFROM_MERGE_DURING_OPERATIONAL_STATE
| GSFROM_MERGE_DURING_GATHER_STATE
| GSFROM_MERGE_DURING_JOIN
| GSFROM_JOIN_DURING_OPERATIONAL_STATE
| GSFROM_JOIN_DURING_COMMIT_STATE
| GSFROM_JOIN_DURING_RECOVERY
| GSFROM_INTERFACE_CHANGE.

Inductive srp_timer :=
| T_PAUSE | T_TOKEN | T_TOKEN_WARNING | T_TOKEN_RETRANSMIT | T_TOKEN_HOLD | T_MERGE_DETECT
| T_JOIN | T_CONSENSUS | T_HEARTBEAT.

Inductive confchg_type := TOTEM_CONFIGURATION_REGULAR | TOTEM_CONFIGURATION_TRANSITIONAL.

Inductive sent_token := SentOrf (t : orf_token) | SentCommit (c : memb_commit_token).

(** What an instance asks of the network, the timers, the storage and its user. *)
Inductive srp_effect :=
| NetMcast (m : mcast_msg)
| NetJoin (j : memb_join)
| NetMergeDetect (d : memb_merge_detect)
| NetHoldCancel (nodeid : Z) (r : ring_id)
| NetToken (t : sent_token)
| NetTokenTarget (nodeid : Z)
| NetProcessorCount (n : Z)
| NetIfaceCheck
| NetSendFlush
| DeliverFn (nodeid : Z) (m : mcast_msg) (endian_conversion_required : bool)
| ConfchgFn (t : confchg_type) (members left joined : list Z) (r : ring_id)
| WaitingTransAckFn (waiting : Z)
| RingIdStore (r : ring_id) (nodeid : Z)
| ServiceReadyFn
| TimerStart (t : srp_timer) (ms : Z)
| TimerStop (t : srp_timer).

Record token_callback := mk_callback { cb_id : Z; cb_delete : bool }.

(** [struct totem_config], the parameters the protocol uses. *)
Record totem_config := mk_totem_config {
  token_timeout : Z;
  token_warning : Z;
  token_retransmit_timeout : Z;
  token_hold_timeout : Z;
  join_timeout : Z;
  consensus_timeout : Z;
  merge_timeout : Z;
  fail_to_recv_const : Z;
  seqno_unchanged_const : Z;
  window_size : Z;
  max_messages : Z;
  miss_count_const : Z;
  cancel_token_hold_on_retransmit : Z;
  heartbeat_failures_allowed : Z;
  max_network_delay : Z;
  net_mtu : Z
}.

(** [struct totemsrp_instance] *)
Record srp := mk_srp {
  failed_to_recv : bool;
  fcc_remcast_current : Z;
  consensus_list : list consensus_list_item;
  my_id : Z;
  my_proc_list : list Z;
  my_failed_list : list Z;
  my_new_memb_list : list Z;
  my_trans_memb_list : list Z;
  my_memb_list : list Z;
  my_deliver_memb_list : list Z;
  my_left_memb_list : list Z;
  my_leave_memb_list : list Z;
  my_ring_id : ring_id;
  my_old_ring_id : ring_id;
  my_aru_count : Z;
  my_merge_detect_timeout_outstanding : bool;
  my_last_aru : Z;
  my_seq_unchanged : Z;
  my_received_flg : bool;
  my_high_seq_received : Z;
  my_install_seq : Z;
  my_rotation_counter : Z;
  my_set_retrans_flg : bool;
  my_retrans_flg_count : Z;
  my_high_ring_delivered : Z;
  new_message_queue : cs_queue mcast_msg;
  new_message_queue_trans : cs_queue mcast_msg;
  retrans_message_queue : cs_queue mcast_msg;
  regular_sort_queue : sq mcast_msg;
  recovery_sort_queue : sq mcast_msg;
  my_aru : Z;
  my_high_delivered : Z;
  token_callback_received : list token_callback;
  token_callback_sent : list token_callback;
  orf_token_retransmit : option sent_token;
  my_token_seq : Z;
  memb_state : memb_state_t;
  global_seqno : Z;
  my_token_held : bool;
  token_ring_id_seq : Z;
  last_released : Z;
  old_ring_state_saved : bool;
  old_ring_state_aru : Z;
  old_ring_state_high_seq_received : Z;
  my_last_seq : Z;
  use_heartbeat : bool;
  heartbeat_timeout : Z;
  my_trc : Z;
  my_pbl : Z;
  my_cbl : Z;
  pause_timestamp : Z;
  commit_token : memb_commit_token;
  orf_token_discard : bool;
  originated_orf_token : bool;
  waiting_trans_ack : bool;
  flushing : bool;
  iface_changes : Z;
  srp_out : list srp_effect
}.
#[export] Instance srp_eta : Etable srp := fun s =>
  mk_srp (failed_to_recv s) (fcc_remcast_current s) (consensus_list s) (my_id s) (my_proc_list s)
    (my_failed_list s) (my_new_memb_list s) (my_trans_memb_list s) (my_memb_list s)
    (my_deliver_memb_list s) (my_left_memb_list s) (my_leave_memb_list s) (my_ring_id s)
    (my_old_ring_id s) (my_aru_count s) (my_merge_detect_timeout_outstanding s) (my_last_aru s)
    (my_seq_unchanged s) (my_received_flg s) (my_high_seq_received s) (my_install_seq s)
    (my_rotation_counter s) (my_set_retrans_flg s) (my_retrans_flg_count s)
    (my_high_ring_delivered s) (new_message_queue s) (new_message_queue_trans s)
    (retrans_message_queue s) (regular_sort_queue s) (recovery_sort_queue s) (my_aru s)
    (my_high_delivered s) (token_callback_received s) (token_callback_sent s)
    (orf_token_retransmit s) (my_token_seq s) (memb_state s) (global_seqno s) (my_token_held s)
    (token_ring_id_seq s) (last_released s) (old_ring_state_saved s) (old_ring_state_aru s)
    (old_ring_state_high_seq_received s) (my_last_seq s) (use_heartbeat s) (heartbeat_timeout s)
    (my_trc s) (my_pbl s) (my_cbl s) (pause_timestamp s) (commit_token s) (orf_token_discard s)
    (originated_orf_token s) (waiting_trans_ack s) (flushing s) (iface_changes s) (srp_out s).

Definition srp_emit (e : srp_effect) (s : srp) : srp := s <| srp_out ::= fun o => o ++ [e] |>.
Strategy 900 [srp_emit].

Definition in_recovery (s : srp) : bool := bool_decide (memb_state s = MEMB_STATE_RECOVERY).
Definition is_operational (s : srp) : bool := bool_decide (memb_state s = MEMB_STATE_OPERATIONAL).
