(* ===== verification/TotemSrpOps.v ===== *)
(** * Totem single ring protocol: the operations (exec/totemsrp.c)

    One definition per function of the source.  [None] is a failed [assert], an
    access outside an array or a division by zero.  The network, the timers and
    the user are reached through [srp_out]; what they decide is an argument: the
    messages [totemnet_recv_flush] hands over, the time, the result of a buffer
    allocation, and what the registered token callbacks multicast. *)
From S2P Require Import Prelude VoteQuorum Endian SortQueue CsQueue TotemMemb TotemSrp.

Definition zero_hdr : mcast_hdr := mk_mcast_hdr false 0 0 0 0 zero_ring 0 0.
Definition zero_msg : mcast_msg := NotEncapsulated zero_hdr [].

(** [for (i = 1; i <= n; i++)] with a body that may stop the loop ([inl]). *)
Fixpoint loop_from {S} (body : Z -> S -> option (S + S)) (i : Z) (n : nat) (s : S) : option S :=
  match n with
  | O => Some s
  | S n' =>
      r ← body i s;
      match r with
      | inl s => Some s
      | inr s => loop_from body (i + 1) n' s
      end
  end.
Definition loop {S} (body : Z -> S -> option (S + S)) (n : Z) (s : S) : option S :=
  loop_from body 1 (Z.to_nat n) s.

Section Srp.
Context (cfg : totem_config).

(** ** Timers *)

Definition reset_timer (t : srp_timer) (ms : Z) (s : srp) : srp :=
  srp_emit (TimerStart t ms) (srp_emit (TimerStop t) s).

Definition reset_token_retransmit_timeout (s : srp) : srp :=
  reset_timer T_TOKEN_RETRANSMIT (token_retransmit_timeout cfg) s.

Definition start_merge_detect_timeout (s : srp) : srp :=
  if my_merge_detect_timeout_outstanding s then s
  else srp_emit (TimerStart T_MERGE_DETECT (merge_timeout cfg)) s
         <| my_merge_detect_timeout_outstanding := true |>.

Definition cancel_merge_detect_timeout (s : srp) : srp :=
  srp_emit (TimerStop T_MERGE_DETECT) s <| my_merge_detect_timeout_outstanding := false |>.

Definition reset_pause_timeout (s : srp) : srp := reset_timer T_PAUSE (token_timeout cfg / 5) s.

Definition reset_token_warning (s : srp) : srp :=
  reset_timer T_TOKEN_WARNING (u32 (token_warning cfg * token_timeout cfg) / 100) s.

Definition reset_token_timeout (s : srp) : srp :=
  let s := reset_timer T_TOKEN (token_timeout cfg) s in
  if c_true (token_warning cfg) then reset_token_warning s else s.

Definition reset_heartbeat_timeout (s : srp) : srp := reset_timer T_HEARTBEAT (heartbeat_timeout s) s.

Definition cancel_token_warning (s : srp) : srp := srp_emit (TimerStop T_TOKEN_WARNING) s.

Definition cancel_token_timeout (s : srp) : srp :=
  let s := srp_emit (TimerStop T_TOKEN) s in
  if c_true (token_warning cfg) then cancel_token_warning s else s.

Definition cancel_heartbeat_timeout (s : srp) : srp := srp_emit (TimerStop T_HEARTBEAT) s.

Definition cancel_token_retransmit_timeout (s : srp) : srp := srp_emit (TimerStop T_TOKEN_RETRANSMIT) s.

Definition start_token_hold_retransmit_timeout (s : srp) : srp :=
  srp_emit (TimerStart T_TOKEN_HOLD (token_hold_timeout cfg)) s.

Definition cancel_token_hold_retransmit_timeout (s : srp) : srp := srp_emit (TimerStop T_TOKEN_HOLD) s.

(** ** Saved state of the old ring *)

Definition old_ring_state_save (s : srp) : srp :=
  if old_ring_state_saved s then s
  else s <| old_ring_state_saved := true |> <| my_old_ring_id := my_ring_id s |>
         <| old_ring_state_aru := s32 (my_aru s) |>
         <| old_ring_state_high_seq_received := my_high_seq_received s |>.

Definition old_ring_state_restore (s : srp) : srp :=
  s <| my_aru := u32 (old_ring_state_aru s) |>
    <| my_high_seq_received := old_ring_state_high_seq_received s |>.

Definition old_ring_state_reset (s : srp) : srp := s <| old_ring_state_saved := false |>.

(** ** Consensus and leaving processors *)

Definition memb_consensus_reset (s : srp) : srp := s <| consensus_list := [] |>.

Definition memb_consensus_set (addr : Z) (s : srp) : option srp :=
  let l := memb_consensus_set_at addr (consensus_list s) in
  if Nat.leb (length l) PROCESSOR_COUNT_MAX then Some (s <| consensus_list := l |>) else None.

Definition memb_consensus_isset (s : srp) (addr : Z) : bool := consensus_isset addr (consensus_list s).

Definition memb_consensus_agreed (s : srp) : option bool :=
  let token_memb := memb_set_subtract (my_proc_list s) (my_failed_list s) in
  let agreed := forallb (memb_consensus_isset s) token_memb in
  if agreed && failed_to_recv s then Some agreed
  else if Nat.leb 1 (length token_memb) then Some agreed else None.

Definition memb_consensus_notset (s : srp) : list Z :=
  List.filter (fun a => negb (memb_consensus_isset s a)) (my_proc_list s).

Definition my_leave_memb_clear (s : srp) : srp := s <| my_leave_memb_list := [] |>.

Definition my_leave_memb_match (s : srp) (nodeid : Z) : Z :=
  if existsb (Z.eqb nodeid) (my_leave_memb_list s) then nodeid else 0.

Definition my_leave_memb_set (nodeid : Z) (s : srp) : srp :=
  if existsb (Z.eqb nodeid) (my_leave_memb_list s) then s
  else if Nat.ltb (length (my_leave_memb_list s)) (PROCESSOR_COUNT_MAX - 1)
       then s <| my_leave_memb_list ::= fun l => l ++ [nodeid] |> else s.

Definition merge_proc_list (l : list Z) (s : srp) : option srp :=
  l ← memb_set_merge l (my_proc_list s); Some (s <| my_proc_list := l |>).
Definition merge_failed_list (l : list Z) (s : srp) : option srp :=
  l ← memb_set_merge l (my_failed_list s); Some (s <| my_failed_list := l |>).

(** [assert (header.nodeid)] *)
Definition assert_nodeid (s : srp) : option unit := if c_true (my_id s) then Some tt else None.

(** ** Join, leave and merge-detect messages *)

Definition memb_join_data_size : Z := 40000.

Definition memb_join_message_send (s : srp) : option srp :=
  _ ← assert_nodeid s;
  let entries := Z.of_nat (length (my_proc_list s)) + Z.of_nat (length (my_failed_list s)) in
  if memb_join_data_size <? sizeof_memb_join + entries * sizeof_srp_addr then Some s
  else Some (srp_emit (NetJoin (mk_join (my_id s) (my_id s) (ring_seq (my_ring_id s))
                                  (my_proc_list s) (my_failed_list s))) s).

Definition memb_leave_message_send (s : srp) : option srp :=
  s ← merge_failed_list [my_id s] s;
  let active_memb := memb_set_subtract (my_proc_list s) [my_id s] in
  let entries := Z.of_nat (length active_memb) + Z.of_nat (length (my_failed_list s)) in
  if memb_join_data_size <? sizeof_memb_join + entries * sizeof_srp_addr then Some s
  else Some (srp_emit (NetJoin (mk_join LEAVE_DUMMY_NODEID (my_id s) (ring_seq (my_ring_id s))
                                  active_memb (my_failed_list s))) s).

Definition memb_merge_detect_transmit (s : srp) : option srp :=
  _ ← assert_nodeid s;
  Some (srp_emit (NetMergeDetect (mk_merge_detect (my_id s) (my_id s) (my_ring_id s))) s).

Definition memb_ring_id_set (r : ring_id) (s : srp) : srp := s <| my_ring_id := r |>.

(** ** Entering the GATHER state *)

Definition gather_timers (s : srp) : srp :=
  let s := reset_timer T_JOIN (join_timeout cfg) s in
  let s := reset_timer T_CONSENSUS (consensus_timeout cfg) s in
  cancel_merge_detect_timeout (cancel_token_timeout (cancel_token_retransmit_timeout s)).

Definition memb_state_gather_enter (gather_from : gather_state_from) (s : srp) : option srp :=
  let s := s <| orf_token_discard := true |> <| originated_orf_token := false |> in
  s ← merge_proc_list [my_id s] s;
  s ← memb_join_message_send s;
  s ← memb_consensus_set (my_id s) (memb_consensus_reset (gather_timers s));
  Some (s <| memb_state := MEMB_STATE_GATHER |>).

Definition memb_state_consensus_timeout_expired (s : srp) : option srp :=
  agreed ← memb_consensus_agreed s;
  if agreed : bool then
    s ← memb_consensus_set (my_id s) (memb_consensus_reset s);
    Some (reset_token_timeout s)
  else
    s ← merge_failed_list (memb_consensus_notset s) s;
    memb_state_gather_enter GSFROM_CONSENSUS_TIMEOUT s.

Definition memb_recovery_state_token_loss (s : srp) : option srp :=
  memb_state_gather_enter GSFROM_THE_TOKEN_WAS_LOST_IN_THE_RECOVERY_STATE (old_ring_state_restore s).

(** ** Message queues *)

Definition queue_use (s : srp) : cs_queue mcast_msg :=
  if waiting_trans_ack s then new_message_queue_trans s else new_message_queue s.
Definition set_queue_use (q : cs_queue mcast_msg) (s : srp) : srp :=
  if waiting_trans_ack s then s <| new_message_queue_trans := q |> else s <| new_message_queue := q |>.

(** [totemsrp_mcast]: [bytes] are the concatenated vectors, [alloc] whether a
    buffer is available. *)
Definition totemsrp_mcast (alloc : bool) (bytes : list Z) (guarantee : Z) (s : srp) : option (Z * srp) :=
  if cs_queue_is_full (queue_use s) then Some (-1, s)
  else if negb alloc then Some (-1, s)
  else
    _ ← assert_nodeid s;
    let m := NotEncapsulated
               (zero_hdr <| m_nodeid := my_id s |> <| m_guarantee := guarantee |>
                         <| m_system_from := my_id s |>) bytes in
    q ← cs_queue_item_add m (queue_use s);
    Some (0, set_queue_use q s).

Definition totemsrp_avail (s : srp) : option Z := cs_queue_avail (queue_use s).

(** ** Ordering and delivery *)

(** The sort queue of the current state and its update. *)
Definition sort_queue (s : srp) : sq mcast_msg :=
  if in_recovery s then recovery_sort_queue s else regular_sort_queue s.
Definition set_sort_queue (q : sq mcast_msg) (s : srp) : srp :=
  if in_recovery s then s <| recovery_sort_queue := q |> else s <| regular_sort_queue := q |>.

Definition orf_token_remcast (seq : Z) (s : srp) : option (Z * srp) :=
  if negb (sq_in_range (sort_queue s) seq) then Some (-1, s)
  else
    r ← sq_item_get (sort_queue s) seq;
    match r with
    | inl _ => Some (-1, s)
    | inr m => Some (0, srp_emit (NetMcast m) s)
    end.

(** One turn of the loop of [messages_free] at [last_released + i]. *)
Definition messages_free_step (i : Z) (s : srp) : option (srp + srp) :=
  let seq := u32 (last_released s + i) in
  _ ← sq_item_get (regular_sort_queue s) seq;
  q ← sq_items_release seq (regular_sort_queue s);
  Some (inr (s <| regular_sort_queue := q |>)).

Definition messages_free (token_aru : Z) (s : srp) : option srp :=
  let release_to := token_aru in
  let release_to := if sq_lt_compare (my_last_aru s) release_to then my_last_aru s else release_to in
  let release_to :=
    if sq_lt_compare (my_high_delivered s) release_to then my_high_delivered s else release_to in
  if sq_lt_compare release_to (last_released s) then Some s
  else
    let range := u32 (release_to - last_released s) in
    if negb (range <? QUEUE_RTR_ITEMS_SIZE_MAX) then None
    else
      s ← loop messages_free_step range s;
      Some (s <| last_released ::= fun r => u32 (r + range) |>).

(** The loop of [update_aru]: how many messages follow [aru] without a hole. *)
Fixpoint contiguous (q : sq mcast_msg) (aru : Z) (i : Z) (n : nat) : option Z :=
  match n with
  | O => Some (i - 1)
  | S n' =>
      r ← sq_item_get q (u32 (aru + i));
      match r with
      | inl _ => Some (i - 1)
      | inr _ => contiguous q aru (i + 1) n'
      end
  end.

Definition update_aru (s : srp) : option srp :=
  let range := u32 (my_high_seq_received s - my_aru s) in
  n ← contiguous (sort_queue s) (my_aru s) 1 (Z.to_nat range);
  Some (s <| my_aru ::= fun a => u32 (a + n) |>).

(** One turn of the loop of [messages_deliver_to_app]; [stored] is the value of
    [my_high_delivered] before the loop. *)
Definition messages_deliver_step (skip : bool) (stored i : Z) (s : srp) : option (srp + srp) :=
  let seq := u32 (stored + i) in
  if negb (sq_in_range (regular_sort_queue s) seq) then Some (inl s)
  else
    r ← sq_item_get (regular_sort_queue s) seq;
    match r with
    | inl _ => if skip then Some (inr (s <| my_high_delivered := seq |>)) else Some (inl s)
    | inr m =>
        let s := s <| my_high_delivered := seq |> in
        let h := local_hdr m in
        if skip && negb (memb_set_subset [m_system_from h] (my_deliver_memb_list s))
        then Some (inr s)
        else Some (inr (srp_emit (DeliverFn (m_nodeid h) m (m_foreign (hdr m))) s))
    end.

Definition messages_deliver_to_app (skip : bool) (end_point : Z) (s : srp) : option srp :=
  let range := u32 (end_point - my_high_delivered s) in
  if negb (range <? QUEUE_RTR_ITEMS_SIZE_MAX) then None
  else loop (messages_deliver_step skip (my_high_delivered s)) range s.

(** ** Multicasting with the token *)

Definition mcast_queue (s : srp) : cs_queue mcast_msg :=
  if in_recovery s then retrans_message_queue s else queue_use s.
Definition set_mcast_queue (q : cs_queue mcast_msg) (s : srp) : srp :=
  if in_recovery s then s <| retrans_message_queue := q |> else set_queue_use q s.

(** One message of the pending queue is put on the ring. *)
Definition orf_token_mcast1 (token : orf_token) (s : srp) : option (orf_token * srp) :=
  item ← cs_queue_item_get (mcast_queue s);
  let token := token <| t_seq ::= fun q => u32 (q + 1) |> in
  let m := upd_hdr (fun h => h <| m_seq := t_seq token |> <| m_this_seqno := global_seqno s |>
                               <| m_ring_id := my_ring_id s |>) item in
  let s := s <| global_seqno ::= Z.add 1 |> in
  sortq ← sq_item_add m (t_seq token) (sort_queue s);
  let s := srp_emit (NetMcast m) (set_sort_queue sortq s) in
  q ← cs_queue_item_remove (mcast_queue s);
  Some (token, set_mcast_queue q s <| my_high_seq_received := t_seq token |>).

(** The loop, [n] messages at most; the count of the messages sent. *)
Fixpoint orf_token_mcast_loop (n : nat) (sent : Z) (token : orf_token) (s : srp)
    : option (Z * orf_token * srp) :=
  match n with
  | O => Some (sent, token, s)
  | S n' =>
      if cs_queue_is_empty (mcast_queue s) then Some (sent, token, s)
      else '(token, s) ← orf_token_mcast1 token s; orf_token_mcast_loop n' (sent + 1) token s
  end.

Definition orf_token_mcast (fcc_mcasts_allowed : Z) (token : orf_token) (s : srp)
    : option (Z * orf_token * srp) :=
  let s := if in_recovery s then reset_token_retransmit_timeout s else s in
  '(sent, token, s) ← orf_token_mcast_loop (Z.to_nat fcc_mcasts_allowed) 0 token s;
  s ← update_aru s;
  Some (sent, token, s).

(** ** Retransmission *)

(** The first loop of [orf_token_rtr] over the entries of the retransmit list:
    the entries that stay. *)
Fixpoint rtr_remcast (fcc_allowed : Z) (l : list rtr_item) (s : srp) : option (list rtr_item * srp) :=
  match l with
  | [] => Some ([], s)
  | r :: l' =>
      if negb (fcc_remcast_current s <? fcc_allowed) then Some (r :: l', s)
      else if bool_decide (rtr_ring_id r <> my_ring_id s) then
        '(rest, s) ← rtr_remcast fcc_allowed l' s; Some (r :: rest, s)
      else
        '(res, s) ← orf_token_remcast (rtr_seq r) s;
        if res =? 0 then rtr_remcast fcc_allowed l' (s <| fcc_remcast_current ::= Z.add 1 |>)
        else '(rest, s) ← rtr_remcast fcc_allowed l' s; Some (r :: rest, s)
  end.

(** One turn of the second loop: request the message [my_aru + i] if it is missing. *)
Definition rtr_request_step (i : Z) (p : list rtr_item * srp) : option (list rtr_item * srp + list rtr_item * srp) :=
  let '(l, s) := p in
  if negb (Z.of_nat (length l) <? RETRANSMIT_ENTRIES_MAX) then Some (inl (l, s))
  else
    let seq := u32 (my_aru s + i) in
    if negb (sq_in_range (sort_queue s) seq) then Some (inl (l, s))
    else
      inuse ← sq_item_inuse (sort_queue s) seq;
      if inuse : bool then Some (inr (l, s))
      else
        '(count, q) ← sq_item_miss_count seq (sort_queue s);
        let s := set_sort_queue q s in
        if count <? miss_count_const cfg then Some (inr (l, s))
        else if existsb (fun r => rtr_seq r =? seq) l then Some (inr (l, s))
        else Some (inr (l ++ [mk_rtr (my_ring_id s) seq], s)).

(** The messages retransmitted, the transmits left, the token and the instance. *)
Definition orf_token_rtr (fcc_allowed : Z) (token : orf_token) (s : srp)
    : option (Z * Z * orf_token * srp) :=
  if (t_rtr_list_entries token <? 0)
     || (Z.of_nat (length (t_rtr_list token)) <? t_rtr_list_entries token) then None
  else
    let l := take (Z.to_nat (t_rtr_list_entries token)) (t_rtr_list token) in
    '(l, s) ← rtr_remcast fcc_allowed l (s <| fcc_remcast_current := 0 |>);
    let allowed := u32 (fcc_allowed - fcc_remcast_current s) in
    let range := u32 (t_seq token - my_aru s) in
    if negb (range <? QUEUE_RTR_ITEMS_SIZE_MAX) then None
    else
      '(l, s) ← loop rtr_request_step range (l, s);
      Some (fcc_remcast_current s, allowed,
            token <| t_rtr_list := l |> <| t_rtr_list_entries := Z.of_nat (length l) |>, s).

(** ** Sending tokens *)

Definition token_retransmit (s : srp) : srp :=
  match orf_token_retransmit s with Some t => srp_emit (NetToken t) s | None => s end.

Definition token_send (token : orf_token) (forward_token : bool) (s : srp) : option srp :=
  let token := token <| t_nodeid := my_id s |> in
  let s := s <| orf_token_retransmit := Some (SentOrf token) |> in
  _ ← assert_nodeid s;
  Some (if forward_token then srp_emit (NetToken (SentOrf token)) s else s).

Definition token_hold_cancel_send (s : srp) : option srp :=
  if negb (my_token_held s) then Some s
  else
    _ ← assert_nodeid s;
    Some (srp_emit (NetHoldCancel (my_id s) (my_ring_id s)) (s <| my_token_held := false |>)).

Definition orf_token_send_initial (s : srp) : option srp :=
  _ ← assert_nodeid s;
  let empty := cs_queue_is_empty (retrans_message_queue s) in
  let s := s <| my_set_retrans_flg := negb empty |> in
  token_send (mk_token (my_id s) SEQNO_START_MSG SEQNO_START_TOKEN (u32 (SEQNO_START_MSG - 1)) (my_id s)
                (my_ring_id s) 0 0 (if empty then 0 else 1) 0 []) true s.

(** ** Flow control *)

Definition backlog_get (s : srp) : Z :=
  match memb_state s with
  | MEMB_STATE_OPERATIONAL => cs_queue_used (queue_use s)
  | MEMB_STATE_RECOVERY => cs_queue_used (retrans_message_queue s)
  | _ => 0
  end.

Definition fcc_calculate (token : orf_token) (s : srp) : Z * srp :=
  let transmits_allowed := max_messages cfg in
  let room := u32 (window_size cfg - t_fcc token) in
  let transmits_allowed := if room <? transmits_allowed then room else transmits_allowed in
  let s := s <| my_cbl := backlog_get s |> in
  let total := u32 (t_backlog token + my_cbl s - my_pbl s) in
  let transmits_allowed :=
    if c_true total then
      let backlog_calc := u32 (window_size cfg * my_pbl s) / total in
      if (0 <? backlog_calc) && (backlog_calc <? transmits_allowed) then backlog_calc
      else transmits_allowed
    else transmits_allowed in
  (transmits_allowed, s).

Definition fcc_rtr_limit (token : orf_token) (transmits_allowed : Z) (s : srp) : option Z :=
  let check := s32 (QUEUE_RTR_ITEMS_SIZE_MAX - u32 (transmits_allowed + window_size cfg)) in
  if negb (0 <=? check) then None
  else if sq_lt_compare (u32 (last_released s + QUEUE_RTR_ITEMS_SIZE_MAX - transmits_allowed
                              - window_size cfg)) (t_seq token)
       then Some 0 else Some transmits_allowed.

Definition fcc_token_update (token : orf_token) (msgs_transmitted : Z) (s : srp) : orf_token * srp :=
  (token <| t_fcc ::= fun f => u32 (f + msgs_transmitted - my_trc s) |>
         <| t_backlog ::= fun b => u32 (b + my_cbl s - my_pbl s) |>,
   s <| my_trc := msgs_transmitted |> <| my_pbl := my_cbl s |>).

End Srp.
