(* ===== verification/TotemSrpHandlers.v ===== *)
(** * Totem single ring protocol: membership changes and message handlers (exec/totemsrp.c)

    The states COMMIT, RECOVERY and OPERATIONAL, the handler of every message,
    the timer functions and the entry points for the user, and the protocol
    instance as a state machine over the events of its environment. *)
From S2P Require Import Prelude VoteQuorum Endian SortQueue CsQueue TotemMemb TotemSrp TotemSrpOps.

Section Handlers.
Context (cfg : totem_config).

(** ** The commit token *)

(** [qsort] with [srp_addr_compare]. *)
Fixpoint srp_addr_insert (a : Z) (l : list Z) : list Z :=
  match l with
  | [] => [a]
  | b :: l' => if a <=? b then a :: l else b :: srp_addr_insert a l'
  end.
Definition srp_addr_sort (l : list Z) : list Z := foldr srp_addr_insert [] l.

Definition memb_lowest_in_config (s : srp) : option bool :=
  match memb_set_subtract (my_proc_list s) (my_failed_list s) with
  | [] => None
  | a :: l => Some (foldl Z.min a l =? my_id s)
  end.

Definition memb_state_commit_token_create (s : srp) : option srp :=
  let token_memb := srp_addr_sort (memb_set_subtract (my_proc_list s) (my_failed_list s)) in
  _ ← assert_nodeid s;
  Some (s <| commit_token :=
          mk_commit (my_id s) 0 (mk_ring (my_id s) (u64 (token_ring_id_seq s + 4))) 0 0 token_memb
            (replicate (length token_memb) zero_entry) |>).

(** The highest [aru] among the entries of the ring [r], starting from [high_aru]. *)
Definition commit_high_aru (r : ring_id) (high_aru : Z) (l : list memb_entry) : Z :=
  foldl (fun high e => if bool_decide (e_ring_id e = r) && sq_lt_compare high (e_aru e)
                       then e_aru e else high) high_aru l.

(** An entry of the ring [r] that lags behind [high_aru] has not received all. *)
Definition commit_clear_received (r : ring_id) (high_aru : Z) (e : memb_entry) : memb_entry :=
  if bool_decide (e_ring_id e = r) && sq_lt_compare (e_aru e) high_aru
  then e <| e_received_flg := 0 |> else e.

Definition memb_state_commit_token_update (s : srp) : option srp :=
  let c := commit_token s in
  let i := ct_memb_index c in
  if (i <? 0) || (ct_addr_entries c <=? i) || negb (Nat.leb (length (ct_addr c)) PROCESSOR_COUNT_MAX)
     || negb (Nat.eqb (length (ct_memb_list c)) (length (ct_addr c)))
  then None
  else
    let n := Z.to_nat i in
    let received := my_aru s =? my_high_seq_received s in
    let own := mk_memb_entry (my_old_ring_id s) (u32 (old_ring_state_aru s)) (my_high_delivered s)
                 (b2z received) in
    let l := <[n := own]> (ct_memb_list c) in
    let high_aru := commit_high_aru (my_old_ring_id s) (e_aru own) (take (S n) l) in
    let l := map (commit_clear_received (my_old_ring_id s) high_aru) (take (S n) l) ++ drop (S n) l in
    let lagging := sq_lt_compare (e_aru own) high_aru in
    _ ← assert_nodeid s;
    Some (s <| my_new_memb_list := ct_addr c |>
            <| my_received_flg := received && negb lagging |>
            <| commit_token := c <| ct_memb_list := l |> <| ct_nodeid := my_id s |>
                                 <| ct_memb_index := i + 1 |> |>).

Definition memb_state_commit_token_target_set (s : srp) : option srp :=
  let c := commit_token s in
  if ct_addr_entries c =? 0 then None
  else
    target ← ct_addr c !! Z.to_nat (ct_memb_index c mod ct_addr_entries c);
    Some (srp_emit (NetTokenTarget target) s).

(** The token sent, which the callers keep. *)
Definition commit_token_sent (c : memb_commit_token) (s : srp) : memb_commit_token :=
  c <| ct_token_seq ::= fun q => u32 (q + 1) |> <| ct_nodeid := my_id s |>.

Definition commit_token_transmit (c : memb_commit_token) (s : srp) : srp :=
  reset_token_retransmit_timeout cfg
    (srp_emit (NetToken (SentCommit c)) (s <| orf_token_retransmit := Some (SentCommit c) |>)).

Definition memb_state_commit_token_send_recovery (c : memb_commit_token) (s : srp) : srp :=
  commit_token_transmit (commit_token_sent c s) s.

Definition memb_state_commit_token_send (s : srp) : srp :=
  let c := commit_token_sent (commit_token s) s in
  commit_token_transmit c (s <| commit_token := c |>).

Definition target_set_completed (s : srp) : srp := memb_state_commit_token_send s.

(** ** Entering the COMMIT state *)

Definition commit_ring (s : srp) : srp :=
  let s := memb_ring_id_set (ct_ring_id (commit_token s)) s in
  let s := srp_emit (RingIdStore (my_ring_id s) (my_id s)) s in
  s <| token_ring_id_seq := ring_seq (my_ring_id s) |>.

Definition memb_state_commit_enter (s : srp) : option srp :=
  s ← memb_state_commit_token_update (old_ring_state_save s);
  s ← memb_state_commit_token_target_set s;
  let s := srp_emit (TimerStop T_CONSENSUS) (srp_emit (TimerStop T_JOIN) s) in
  let s := commit_ring s <| memb_state := MEMB_STATE_COMMIT |> in
  let s := reset_token_timeout cfg (reset_token_retransmit_timeout cfg s) in
  Some (s <| my_trc := 0 |> <| my_pbl := 0 |> <| my_cbl := 0 |>).

(** ** Entering the RECOVERY state *)

(** Some member of the transitional configuration has not received everything. *)
Definition recovery_missing (c : memb_commit_token) (s : srp) : bool :=
  existsb (fun '(a, e) => memb_set_subset [a] (my_trans_memb_list s) && (e_received_flg e =? 0))
    (zip (my_new_memb_list s) (ct_memb_list c)).

(** The lowest [aru] and the highest delivered message among the members that
    come from our old ring. *)
Definition recovery_bounds (c : memb_commit_token) (s : srp) : Z * Z :=
  foldl (fun '(low, high) '(a, e) =>
           if memb_set_subset [a] (my_deliver_memb_list s) && bool_decide (e_ring_id e = my_old_ring_id s)
           then (if sq_lt_compare (e_aru e) low then e_aru e else low,
                 if sq_lt_compare high (e_high_delivered e) then e_high_delivered e else high)
           else (low, high))
    (old_ring_state_high_seq_received s, my_high_ring_delivered s)
    (zip (my_new_memb_list s) (ct_memb_list c)).

(** A message of the old ring, wrapped for the new one. *)
Definition encapsulate (m : mcast_msg) (s : srp) : mcast_msg :=
  Encapsulated (zero_hdr <| m_system_from := my_id s |> <| m_nodeid := my_id s |>
                         <| m_ring_id := my_ring_id s |>) m.

Definition recovery_originate_step (low i : Z) (s : srp) : option (srp + srp) :=
  r ← sq_item_get (regular_sort_queue s) (u32 (low + i));
  match r with
  | inl _ => Some (inr s)
  | inr m =>
      _ ← assert_nodeid s;
      q ← cs_queue_item_add (encapsulate m s) (retrans_message_queue s);
      Some (inr (s <| retrans_message_queue := q |>))
  end.

(** Copy the messages of the old ring that some member may miss. *)
Definition recovery_originate (c : memb_commit_token) (s : srp) : option srp :=
  if negb (recovery_missing c s) then Some s
  else
    let s := s <| my_deliver_memb_list := my_trans_memb_list s |> in
    let '(low, high) := recovery_bounds c s in
    let s := s <| my_high_ring_delivered := high |> in
    let range := u32 (old_ring_state_high_seq_received s - low) in
    if range =? 0 then Some s
    else if negb (range <? QUEUE_RTR_ITEMS_SIZE_MAX) then None
    else loop (recovery_originate_step low) range s.

Definition recovery_reset_queues (s : srp) : option srp :=
  rq ← sq_reinit zero_msg SEQNO_START_MSG (recovery_sort_queue s);
  Some (s <| orf_token_discard := false |> <| my_high_ring_delivered := 0 |>
          <| recovery_sort_queue := rq |> <| retrans_message_queue ::= cs_queue_reinit zero_msg |>).

(** The commit token goes round again; the transitional configuration are the
    members that come from our old ring. *)
Definition recovery_announce (c : memb_commit_token) (s : srp) : srp :=
  srp_emit (NetProcessorCount (ct_addr_entries c))
    (commit_token_transmit c s <| my_token_seq := u32 (SEQNO_START_TOKEN - 1) |>)
    <| my_trans_memb_list :=
         memb_set_and_with_ring_id (my_new_memb_list s) (map e_ring_id (ct_memb_list c))
           (my_memb_list s) (my_old_ring_id s) |>.

Definition recovery_reset_seqs (s : srp) : srp :=
  s <| my_aru := SEQNO_START_MSG |> <| my_aru_count := 0 |> <| my_seq_unchanged := 0 |>
    <| my_high_seq_received := SEQNO_START_MSG |> <| my_install_seq := SEQNO_START_MSG |>
    <| last_released := SEQNO_START_MSG |>.

(** The commit token has as many entries as the new membership it was made for;
    otherwise the code would read stale array elements. *)
Definition memb_state_recovery_enter (c : memb_commit_token) (s : srp) : option srp :=
  if negb (Nat.eqb (length (ct_addr c)) (length (my_new_memb_list s)))
     || negb (Nat.eqb (length (ct_memb_list c)) (length (my_new_memb_list s))) then None
  else
    s ← recovery_reset_queues s;
    s ← recovery_originate (commit_token_sent c s) (recovery_announce (commit_token_sent c s) s);
    Some (reset_token_retransmit_timeout cfg (reset_token_timeout cfg (recovery_reset_seqs s))
            <| memb_state := MEMB_STATE_RECOVERY |>).

(** ** Entering the OPERATIONAL state *)

Definition deliver_recovered_step (i : Z) (s : srp) : option (srp + srp) :=
  r ← sq_item_get (recovery_sort_queue s) (u32 (i + SEQNO_START_MSG));
  match r with
  | inr (Encapsulated _ m) =>
      let seq := m_seq (hdr m) in
      if bool_decide (my_old_ring_id s <> m_ring_id (hdr m)) then Some (inr s)
      else
        inuse ← sq_item_inuse (regular_sort_queue s) seq;
        if inuse : bool then Some (inr s)
        else
          q ← sq_item_add m seq (regular_sort_queue s);
          let s := s <| regular_sort_queue := q |> in
          Some (inr (if sq_lt_compare (old_ring_state_high_seq_received s) seq
                     then s <| old_ring_state_high_seq_received := seq |> else s))
  | _ => Some (inr s)
  end.

Definition deliver_messages_from_recovery_to_regular (s : srp) : option srp :=
  loop deliver_recovered_step (u32 (my_aru s - SEQNO_START_MSG)) s.

(** The [do ... while] loop: the highest number at or below [n] that is in the queue, or 0. *)
Fixpoint highest_received (q : sq mcast_msg) (n : nat) : option Z :=
  r ← sq_item_get q (Z.of_nat n);
  match r, n with
  | inr _, _ => Some (Z.of_nat n)
  | inl _, O => Some 0
  | inl _, S n' => highest_received q n'
  end.

(** The messages of the old ring are delivered up to the first hole. *)
Definition operational_deliver_old (s : srp) : option srp :=
  s ← deliver_messages_from_recovery_to_regular
        (old_ring_state_reset (memb_consensus_reset (s <| originated_orf_token := false |>)));
  messages_deliver_to_app false (old_ring_state_high_seq_received s)
    (s <| my_aru := u32 (old_ring_state_aru s) |>).

(** The transitional configuration is announced and the new membership installed. *)
Definition operational_transitional (s : srp) : srp :=
  let left := memb_set_subtract (my_memb_list s) (my_trans_memb_list s) in
  srp_emit (ConfchgFn TOTEM_CONFIGURATION_TRANSITIONAL (my_trans_memb_list s) left [] (my_ring_id s))
    (s <| my_left_memb_list := left |> <| my_memb_list := my_new_memb_list s |>
       <| last_released := 0 |> <| my_set_retrans_flg := false |>)
    <| waiting_trans_ack := true |>.

Definition operational_deliver (s : srp) : option srp :=
  let aru_save := my_aru s in
  s ← operational_deliver_old s;
  let s := operational_transitional s in
  s ← messages_deliver_to_app true (old_ring_state_high_seq_received s) s;
  Some (srp_emit (WaitingTransAckFn 1) s <| my_aru := aru_save |>).

(** The recovery queue becomes the regular one and is released up to the
    highest message received; the loop that frees the buffers of the released
    messages has no other effect. *)
Definition operational_install (s : srp) : option srp :=
  q ← sq_copy (regular_sort_queue s) (recovery_sort_queue s);
  let s := s <| regular_sort_queue := q |> <| my_last_aru := SEQNO_START_MSG |>
             <| my_proc_list := my_new_memb_list s |> <| my_failed_list := [] |> in
  high ← highest_received (regular_sort_queue s) (Z.to_nat (my_high_seq_received s));
  q ← sq_items_release high (regular_sort_queue s);
  Some (s <| regular_sort_queue := q |> <| my_high_delivered := high |> <| last_released := high |>).

Definition memb_state_operational_enter (s : srp) : option srp :=
  let joined := memb_set_subtract (my_new_memb_list s) (my_trans_memb_list s) in
  s ← operational_deliver s;
  let s := srp_emit (ConfchgFn TOTEM_CONFIGURATION_REGULAR (my_new_memb_list s) [] joined
                       (my_ring_id s)) s in
  s ← operational_install s;
  let s := my_leave_memb_clear s <| memb_state := MEMB_STATE_OPERATIONAL |>
             <| my_received_flg := true |> in
  Some (reset_pause_timeout cfg s <| my_old_ring_id := my_ring_id s |>).

(** ** Token callbacks

    [callback_fn id s] is what the registered callback [id] returns and the
    messages it multicasts; [alloc] whether buffers are available. *)
Context (alloc : bool).
Context (callback_fn : Z -> srp -> Z * list (list Z * Z)).

Inductive callback_type := TOTEM_CALLBACK_TOKEN_RECEIVED | TOTEM_CALLBACK_TOKEN_SENT.

Definition callbacks (t : callback_type) (s : srp) : list token_callback :=
  match t with
  | TOTEM_CALLBACK_TOKEN_RECEIVED => token_callback_received s
  | TOTEM_CALLBACK_TOKEN_SENT => token_callback_sent s
  end.
Definition upd_callbacks (t : callback_type) (f : list token_callback -> list token_callback) (s : srp) : srp :=
  match t with
  | TOTEM_CALLBACK_TOKEN_RECEIVED => s <| token_callback_received ::= f |>
  | TOTEM_CALLBACK_TOKEN_SENT => s <| token_callback_sent ::= f |>
  end.

Definition totemsrp_callback_token_create (id : Z) (t : callback_type) (delete : bool) (malloc_ok : bool)
    (s : srp) : option (Z * srp) :=
  s ← token_hold_cancel_send s;
  if negb malloc_ok then Some (-1, s) else Some (0, upd_callbacks t (cons (mk_callback id delete)) s).

Definition totemsrp_callback_token_destroy (id : Z) (t : callback_type) (s : srp) : srp :=
  upd_callbacks t (List.filter (fun c => negb (cb_id c =? id))) s.

Definition callback_run (c : token_callback) (s : srp) : option (Z * srp) :=
  let '(res, sends) := callback_fn (cb_id c) s in
  s ← foldl (fun acc '(bytes, g) => s ← acc; r ← totemsrp_mcast alloc bytes g s; Some (snd r))
        (Some s) sends;
  Some (res, s).

Definition token_callback_execute (t : callback_type) (c : token_callback) (s : srp) : option srp :=
  let s := if cb_delete c
           then upd_callbacks t (List.filter (fun c' => negb (cb_id c' =? cb_id c))) s else s in
  '(res, s) ← callback_run c s;
  Some (if (res =? -1) && cb_delete c then upd_callbacks t (cons c) s else s).

Definition token_callbacks_execute (t : callback_type) (s : srp) : option srp :=
  foldl (fun acc c => acc ≫= token_callback_execute t c) (Some s) (callbacks t s).

(** ** Timer functions *)

Definition timer_function_pause_timeout (now : Z) (s : srp) : srp :=
  reset_pause_timeout cfg (s <| pause_timestamp := now |>).

Definition timer_function_orf_token_warning (s : srp) : srp :=
  if c_true (token_warning cfg) then reset_token_warning cfg s else cancel_token_warning s.

Definition timer_function_orf_token_timeout (s : srp) : option srp :=
  match memb_state s with
  | MEMB_STATE_OPERATIONAL =>
      memb_state_gather_enter cfg GSFROM_THE_TOKEN_WAS_LOST_IN_THE_OPERATIONAL_STATE
        (srp_emit NetIfaceCheck s)
  | MEMB_STATE_GATHER =>
      s ← memb_state_consensus_timeout_expired cfg s;
      memb_state_gather_enter cfg GSFROM_THE_CONSENSUS_TIMEOUT_EXPIRED s
  | MEMB_STATE_COMMIT =>
      memb_state_gather_enter cfg GSFROM_THE_TOKEN_WAS_LOST_IN_THE_COMMIT_STATE s
  | MEMB_STATE_RECOVERY =>
      s ← memb_recovery_state_token_loss cfg s;
      Some (s <| orf_token_discard := true |>)
  end.

Definition timer_function_heartbeat_timeout (s : srp) : option srp := timer_function_orf_token_timeout s.

Definition totemsrp_force_gather (s : srp) : option srp := timer_function_orf_token_timeout s.

Definition memb_timer_function_state_gather (s : srp) : option srp :=
  match memb_state s with
  | MEMB_STATE_OPERATIONAL | MEMB_STATE_RECOVERY => None
  | MEMB_STATE_GATHER | MEMB_STATE_COMMIT =>
      s ← memb_join_message_send s; Some (reset_timer T_JOIN (join_timeout cfg) s)
  end.

Definition memb_timer_function_gather_consensus_timeout (s : srp) : option srp :=
  memb_state_consensus_timeout_expired cfg s.

Definition timer_function_token_retransmit_timeout (s : srp) : srp :=
  match memb_state s with
  | MEMB_STATE_GATHER => s
  | _ => reset_token_retransmit_timeout cfg (token_retransmit s)
  end.

Definition timer_function_token_hold_retransmit_timeout (s : srp) : srp :=
  match memb_state s with
  | MEMB_STATE_OPERATIONAL | MEMB_STATE_RECOVERY => token_retransmit s
  | _ => s
  end.

Definition timer_function_merge_detect_timeout (s : srp) : option srp :=
  let s := s <| my_merge_detect_timeout_outstanding := false |> in
  if is_operational s && (ring_nodeid (my_ring_id s) =? my_id s)
  then memb_merge_detect_transmit s else Some s.

(** ** Multicast messages *)

(** A message of another ring. *)
Definition foreign_message (from : Z) (op gather : gather_state_from) (s : srp) : option srp :=
  match memb_state s with
  | MEMB_STATE_OPERATIONAL =>
      s ← merge_proc_list [from] s; memb_state_gather_enter cfg op s
  | MEMB_STATE_GATHER =>
      if memb_set_subset [from] (my_proc_list s) then Some s
      else s ← merge_proc_list [from] s; memb_state_gather_enter cfg gather s
  | MEMB_STATE_COMMIT | MEMB_STATE_RECOVERY => Some s
  end.

(** A message of this ring is put into the sort queue it belongs to, if it is
    in its range and new. *)
Definition mcast_store (m : mcast_msg) (s : srp) : option (option srp) :=
  let seq := m_seq (local_hdr m) in
  let q := if is_encapsulated m then recovery_sort_queue s else regular_sort_queue s in
  if negb (sq_in_range q seq) then Some (Some s)
  else
    inuse ← sq_item_inuse q seq;
    if inuse : bool then Some (Some s)
    else if negb alloc then Some None
    else
      let s := if sq_lt_compare (my_high_seq_received s) seq
               then s <| my_high_seq_received := seq |> else s in
      q ← sq_item_add m seq q;
      Some (Some (if is_encapsulated m then s <| recovery_sort_queue := q |>
                  else s <| regular_sort_queue := q |>)).

Context (FRAME_SIZE_MAX : Z).

(** The return value and the instance. *)
Definition message_handler_mcast (m : mcast_msg) (s : srp) : option (Z * srp) :=
  if negb (check_mcast_sanity (msg_len m)) then Some (0, s)
  else if FRAME_SIZE_MAX <? msg_len m then None
  else
    let h := local_hdr m in
    if bool_decide (my_ring_id s <> m_ring_id h) then
      s ← foreign_message (m_system_from h) GSFROM_FOREIGN_MESSAGE_IN_OPERATIONAL_STATE
            GSFROM_FOREIGN_MESSAGE_IN_GATHER_STATE s;
      Some (0, s)
    else
      r ← mcast_store m s;
      match r with
      | None => Some (-1, s)
      | Some s =>
          s ← update_aru s;
          s ← (if is_operational s then messages_deliver_to_app false (my_high_seq_received s) s
               else Some s);
          Some (0, s)
      end.

Definition message_handler_memb_merge_detect (len : Z) (convert : bool) (d : memb_merge_detect) (s : srp)
    : option srp :=
  if negb (check_memb_merge_detect_sanity len) then Some s
  else
    let d := if convert then memb_merge_detect_endian_convert d else d in
    if bool_decide (my_ring_id s = d_ring_id d) then Some s
    else foreign_message (d_system_from d) GSFROM_MERGE_DURING_OPERATIONAL_STATE
           GSFROM_MERGE_DURING_GATHER_STATE s.

(** The ring id of the message is compared as it came, in either byte order. *)
Definition message_handler_token_hold_cancel (len : Z) (r : ring_id) (s : srp) : srp :=
  if negb (check_token_hold_cancel_sanity len) then s
  else if bool_decide (r <> my_ring_id s) then s
  else
    let s := s <| my_seq_unchanged := 0 |> in
    if ring_nodeid (my_ring_id s) =? my_id s then timer_function_token_retransmit_timeout s else s.

(** ** Join messages *)

Definition join_leaver (j : memb_join) : option Z := last (j_failed_list j).

Definition note_leaver (j : memb_join) (s : srp) : srp :=
  match join_leaver j with
  | Some a => if j_nodeid j =? LEAVE_DUMMY_NODEID then my_leave_memb_set a s else s
  | None => s
  end.

(** Everybody agrees on the membership the join message describes. *)
Definition join_agreed (j : memb_join) (s : srp) : option (bool * srp) :=
  s ← (if j_nodeid j =? LEAVE_DUMMY_NODEID then Some s else memb_consensus_set (j_system_from j) s);
  agreed ← memb_consensus_agreed s;
  if agreed && failed_to_recv s then
    let s := s <| failed_to_recv := false |> <| my_proc_list := [my_id s] |> <| my_failed_list := [] |> in
    s ← memb_state_commit_token_create s;
    s ← memb_state_commit_enter s;
    Some (true, s)
  else
    lowest ← (if agreed : bool then memb_lowest_in_config s else Some false);
    if lowest : bool then
      s ← memb_state_commit_token_create s;
      s ← memb_state_commit_enter s;
      Some (false, s)
    else Some (false, s).

(** The sets of the join message are merged into ours. *)
Definition join_merge (j : memb_join) (s : srp) : option srp :=
  s ← merge_proc_list (j_proc_list j) s;
  s ← (if memb_set_subset [my_id s] (j_failed_list j) then merge_failed_list [j_system_from j] s
       else if memb_set_subset [j_system_from j] (my_memb_list s) then
         if negb (memb_set_subset [j_system_from j] (my_failed_list s))
         then merge_failed_list (j_failed_list j) s
         else merge_failed_list (memb_set_subtract (j_failed_list j) (my_memb_list s)) s
       else Some s);
  memb_state_gather_enter cfg GSFROM_MERGE_DURING_JOIN s.

Definition join_out (s : srp) : option srp :=
  if is_operational s then memb_state_gather_enter cfg GSFROM_JOIN_DURING_OPERATIONAL_STATE s else Some s.

Definition memb_join_process (j : memb_join) (s : srp) : option srp :=
  let s := note_leaver j s in
  if flushing s then Some s
  else if memb_set_equal (j_proc_list j) (my_proc_list s)
          && memb_set_equal (j_failed_list j) (my_failed_list s) then
    '(done, s) ← join_agreed j s;
    if done : bool then Some s else join_out s
  else if memb_set_subset (j_proc_list j) (my_proc_list s)
          && memb_set_subset (j_failed_list j) (my_failed_list s) then join_out s
  else if memb_set_subset [j_system_from j] (my_failed_list s) then join_out s
  else join_merge j s.

Definition ignore_join_under_operational (j : memb_join) (s : srp) : bool :=
  memb_set_subset [my_id s] (j_failed_list j)
  || (memb_set_subset [j_system_from j] (my_memb_list s) && (j_ring_seq j <? ring_seq (my_ring_id s))).

(** [now] is the clock, [mcast_empty] what [totemnet_recv_mcast_empty] returns. *)
Definition pause_flush (now mcast_empty : Z) (s : srp) : Z :=
  if token_timeout cfg / 2 <? u64 (now / 1000000 - pause_timestamp s / 1000000) then mcast_empty else 0.

(** The count of a header in the byte order of the message. *)
Definition raw_count (convert : bool) (n : nat) : Z :=
  if convert then swab32 (Z.of_nat n) else Z.of_nat n.

Definition join_from_new_ring (j : memb_join) (s : srp) : bool :=
  memb_set_subset [j_system_from j] (my_new_memb_list s) && (ring_seq (my_ring_id s) <=? j_ring_seq j).

Definition message_handler_memb_join (len : Z) (convert : bool) (now mcast_empty : Z) (j : memb_join) (s : srp)
    : option srp :=
  if negb (check_memb_join_sanity len (raw_count convert (length (j_proc_list j)))
             (raw_count convert (length (j_failed_list j))) convert) then Some s
  else
    let j := if convert then memb_join_endian_convert j else j in
    if c_true (pause_flush now mcast_empty s) then Some s
    else
      let s := if token_ring_id_seq s <? j_ring_seq j then s <| token_ring_id_seq := j_ring_seq j |> else s in
      match memb_state s with
      | MEMB_STATE_OPERATIONAL =>
          if ignore_join_under_operational j s then Some s else memb_join_process j s
      | MEMB_STATE_GATHER => memb_join_process j s
      | MEMB_STATE_COMMIT =>
          if join_from_new_ring j s then
            s ← memb_join_process j s;
            memb_state_gather_enter cfg GSFROM_JOIN_DURING_COMMIT_STATE s
          else Some s
      | MEMB_STATE_RECOVERY =>
          if join_from_new_ring j s then
            s ← memb_join_process j s;
            s ← memb_recovery_state_token_loss cfg s;
            memb_state_gather_enter cfg GSFROM_JOIN_DURING_RECOVERY s
          else Some s
      end.

(** ** Commit tokens *)

Definition message_handler_memb_commit_token (len : Z) (convert : bool) (c : memb_commit_token) (s : srp)
    : option srp :=
  if negb (check_memb_commit_token_sanity len (raw_count convert (length (ct_addr c))) convert) then Some s
  else
    let c := if convert then memb_commit_token_endian_convert c else c in
    match memb_state s with
    | MEMB_STATE_OPERATIONAL => Some s
    | MEMB_STATE_GATHER =>
        if memb_set_equal (ct_addr c) (memb_set_subtract (my_proc_list s) (my_failed_list s))
           && (ring_seq (my_ring_id s) <? ring_seq (ct_ring_id c))
        then memb_state_commit_enter (s <| commit_token := c |>) else Some s
    | MEMB_STATE_COMMIT =>
        if (ring_seq (ct_ring_id c) =? ring_seq (my_ring_id s)) && (ct_memb_index c =? ct_addr_entries c)
        then memb_state_recovery_enter c s else Some s
    | MEMB_STATE_RECOVERY =>
        if (my_id s =? ring_nodeid (my_ring_id s)) && negb (originated_orf_token s) then
          s ← orf_token_send_initial (s <| originated_orf_token := true |>);
          Some (reset_token_retransmit_timeout cfg (reset_token_timeout cfg s))
        else Some s
    end.

(** ** The token *)

(** The messages [totemnet_recv_flush] may hand to [main_deliver_fn] before the
    token is processed: those of the multicast socket. *)
Inductive flushed_msg :=
| FlushMcast (m : mcast_msg)
| FlushMergeDetect (len : Z) (convert : bool) (d : memb_merge_detect)
| FlushJoin (len : Z) (convert : bool) (now mcast_empty : Z) (j : memb_join)
| FlushHoldCancel (len : Z) (r : ring_id).

Definition flush_deliver (f : flushed_msg) (s : srp) : option srp :=
  match f with
  | FlushMcast m => snd <$> message_handler_mcast m s
  | FlushMergeDetect len conv d => message_handler_memb_merge_detect len conv d s
  | FlushJoin len conv now e j => message_handler_memb_join len conv now e j s
  | FlushHoldCancel len r => Some (message_handler_token_hold_cancel len r s)
  end.

Definition totemnet_recv_flush (l : list flushed_msg) (s : srp) : option srp :=
  s ← foldl (fun acc f => acc ≫= flush_deliver f) (Some (s <| flushing := true |>)) l;
  Some (s <| flushing := false |>).

(** The merge-detection timer follows the activity on the ring. *)
Definition token_activity (token : orf_token) (s : srp) : srp :=
  let s := if t_seq token =? my_last_seq s
           then start_merge_detect_timeout cfg s <| my_seq_unchanged ::= Z.add 1 |>
           else cancel_token_hold_retransmit_timeout (cancel_merge_detect_timeout s)
                  <| my_seq_unchanged := 0 |> in
  s <| my_last_seq := t_seq token |>.

(** Whether the token is to be held on an idle ring. *)
Definition token_hold (s : srp) : srp :=
  let rep := ring_nodeid (my_ring_id s) =? my_id s in
  s <| my_token_held := if rep then seqno_unchanged_const cfg <? my_seq_unchanged s
                        else seqno_unchanged_const cfg <=? my_seq_unchanged s |>.

Definition token_forward (s : srp) : bool :=
  negb ((ring_nodeid (my_ring_id s) =? my_id s) && my_token_held s).

Definition heartbeat (forward_token : bool) (s : srp) : srp :=
  if forward_token && use_heartbeat s then reset_heartbeat_timeout s else cancel_heartbeat_timeout s.

(** The token's [aru] is lowered to ours, or raised when we lowered it. *)
Definition token_update_aru (last_aru : Z) (token : orf_token) (s : srp) : orf_token * srp :=
  let token :=
    if sq_lt_compare (my_aru s) (t_aru token) || (my_id s =? t_aru_addr token) || (t_aru_addr token =? 0)
    then token <| t_aru := my_aru s |>
               <| t_aru_addr := if my_aru s =? t_seq token then 0 else my_id s |>
    else token in
  (token,
   if (t_aru token =? last_aru) && negb (t_aru_addr token =? 0)
   then s <| my_aru_count ::= Z.add 1 |> else s <| my_aru_count := 0 |>).

(** The retransmit flag of the token in the RECOVERY state. *)
Definition recovery_retrans_flag (token : orf_token) (s : srp) : orf_token * srp :=
  if negb (cs_queue_is_empty (retrans_message_queue s)) then
    if t_retrans_flg token =? 0
    then (token <| t_retrans_flg := 1 |>, s <| my_set_retrans_flg := true |>) else (token, s)
  else if (t_retrans_flg token =? 1) && my_set_retrans_flg s
       then (token <| t_retrans_flg := 0 |>, s <| my_set_retrans_flg := false |>) else (token, s).

Definition recovery_count (token : orf_token) (s : srp) : srp :=
  let s := if t_retrans_flg token =? 0 then s <| my_retrans_flg_count ::= Z.add 1 |>
           else s <| my_retrans_flg_count := 0 |> in
  let s := if my_retrans_flg_count s =? 2 then s <| my_install_seq := t_seq token |> else s in
  let s := if (2 <=? my_retrans_flg_count s) && negb (my_received_flg s)
              && sq_lte_compare (my_install_seq s) (my_aru s)
           then s <| my_received_flg := true |> <| my_deliver_memb_list := my_trans_memb_list s |>
           else s in
  if (3 <=? my_retrans_flg_count s) && sq_lte_compare (my_install_seq s) (t_aru token)
  then s <| my_rotation_counter ::= Z.add 1 |> else s <| my_rotation_counter := 0 |>.

(** A token in the RECOVERY state; the new ring is installed after two
    rotations in which everybody has everything. *)
Definition recovery_token (token : orf_token) (s : srp) : option (orf_token * srp) :=
  let '(token, s) := recovery_retrans_flag token s in
  let s := recovery_count token s in
  if my_rotation_counter s =? 2 then
    s ← memb_state_operational_enter s;
    Some (token, s <| my_rotation_counter := 0 |> <| my_retrans_flg_count := 0 |>)
  else Some (token, s).

(** The token is passed on and the messages that became contiguous are delivered. *)
Definition token_pass (forward_token : bool) (token : orf_token) (s : srp) : option srp :=
  let s := s <| my_token_seq := t_token_seq token |> in
  let token := token <| t_token_seq ::= fun q => u32 (q + 1) |> in
  '(token, s) ← (if in_recovery s then recovery_token token s else Some (token, s));
  s ← token_send token forward_token (srp_emit NetSendFlush s);
  s ← (if is_operational s then messages_deliver_to_app false (my_high_seq_received s) s else Some s);
  let s := reset_token_retransmit_timeout cfg (reset_token_timeout cfg s) in
  let s := if (my_id s =? ring_nodeid (my_ring_id s)) && my_token_held s
           then start_token_hold_retransmit_timeout cfg s else s in
  token_callbacks_execute TOTEM_CALLBACK_TOKEN_SENT s.

(** This processor did not receive for too long and leaves the ring. *)
Definition token_failed_to_receive (token : orf_token) (s : srp) : bool :=
  (fail_to_recv_const cfg <? my_aru_count s) && (t_aru_addr token =? my_id s).

(** Retransmission, flow control and multicast with a valid token. *)
Definition token_use (forward_token : bool) (token : orf_token) (s : srp)
    : option (bool * orf_token * srp) :=
  let '(transmits_allowed, s) := fcc_calculate cfg token s in
  '(mcasted_retransmit, transmits_allowed, token, s) ← orf_token_rtr cfg transmits_allowed token s;
  let cancel := c_true (cancel_token_hold_on_retransmit cfg) && my_token_held s
                && ((0 <? t_rtr_list_entries token) || (0 <? mcasted_retransmit)) in
  let s := if cancel then s <| my_token_held := false |> else s in
  transmits_allowed ← fcc_rtr_limit cfg token transmits_allowed s;
  '(mcasted_regular, token, s) ← orf_token_mcast cfg transmits_allowed token s;
  let '(token, s) := fcc_token_update token (mcasted_retransmit + mcasted_regular) s in
  Some (forward_token || cancel, token, s).

(** A token of this ring that was not seen before. *)
Definition token_process (forward_token : bool) (token : orf_token) (s : srp) : option srp :=
  s ← token_callbacks_execute TOTEM_CALLBACK_TOKEN_RECEIVED s;
  let last_aru := my_last_aru s in
  '(forward_token, token, s) ← token_use forward_token token (s <| my_last_aru := t_aru token |>);
  let '(token, s) := token_update_aru last_aru token s in
  s ← (if token_failed_to_receive token s then
         s ← merge_failed_list [my_id s] (s <| failed_to_recv := true |>);
         memb_state_gather_enter cfg GSFROM_FAILED_TO_RECEIVE s
       else token_pass forward_token token s);
  Some (heartbeat forward_token s).

Definition token_storage_size : Z := 1500.

Definition message_handler_orf_token (len : Z) (convert : bool) (flush : list flushed_msg)
    (token : orf_token) (s : srp) : option srp :=
  if negb (check_orf_token_sanity len token_storage_size (t_rtr_list_entries token) convert) then Some s
  else if orf_token_discard s then Some s
  else
    let token := if convert then orf_token_endian_convert token else token in
    s ← totemnet_recv_flush flush (token_activity token s);
    let s := token_hold s in
    let forward_token := token_forward s in
    match memb_state s with
    | MEMB_STATE_COMMIT => Some (heartbeat forward_token s)
    | _ =>
        s ← (if is_operational s then messages_free (t_aru token) s else Some s);
        if bool_decide (t_ring_id token <> my_ring_id s) then Some (heartbeat forward_token s)
        else if sq_lte_compare (t_token_seq token) (my_token_seq s) then Some s
        else token_process forward_token token s
    end.

(** ** Entry points for the user and the network *)

Definition totemsrp_event_signal (s : srp) : option srp := token_hold_cancel_send s.

Definition totemsrp_trans_ack (s : srp) : srp :=
  srp_emit (WaitingTransAckFn 0) (s <| waiting_trans_ack := false |>).

(** The first interface that comes up loads the ring id ([loaded]); when all
    [num_interfaces] are up the ring is formed. *)
Definition main_iface_change_fn (nodeid : Z) (loaded : ring_id) (service_ready : bool) (num_interfaces : Z)
    (s : srp) : option srp :=
  let s := if c_true (my_id s) then s else s <| my_id := nodeid |> in
  let first := iface_changes s =? 0 in
  let s := s <| iface_changes ::= Z.add 1 |> in
  let s := if first then
             let r := mk_ring (ring_nodeid loaded) (u64 (ring_seq loaded + 1)) in
             let s := s <| my_ring_id := r |> <| token_ring_id_seq := ring_seq r |> in
             if service_ready then srp_emit ServiceReadyFn s else s
           else s in
  if num_interfaces <=? iface_changes s then memb_state_gather_enter cfg GSFROM_INTERFACE_CHANGE s
  else Some s.

(** ** Datagrams *)

Definition TOTEM_MH_MAGIC : Z := 0xC070.
Definition TOTEM_MH_VERSION : Z := 3.
Definition sizeof_totem_message_header : Z := 13.

(** A datagram by the [type] of its header, in the byte order of its sender,
    with what the handler learns from the network and the clock. *)
Inductive totem_message :=
| MESSAGE_TYPE_ORF_TOKEN (token : orf_token) (flush : list flushed_msg)
| MESSAGE_TYPE_MCAST (m : mcast_msg)
| MESSAGE_TYPE_MEMB_MERGE_DETECT (d : memb_merge_detect)
| MESSAGE_TYPE_MEMB_JOIN (j : memb_join) (now mcast_empty : Z)
| MESSAGE_TYPE_MEMB_COMMIT_TOKEN (c : memb_commit_token)
| MESSAGE_TYPE_TOKEN_HOLD_CANCEL (r : ring_id)
| WRONG_TYPE.

Definition check_message_header_validity (msg_len magic version : Z) : bool :=
  if msg_len <? sizeof_totem_message_header then false
  else if negb (magic =? TOTEM_MH_MAGIC) && negb (magic =? swab16 TOTEM_MH_MAGIC) then false
  else version =? TOTEM_MH_VERSION.

(** The return value and the instance. *)
Definition main_deliver_fn (msg_len magic version : Z) (msg : totem_message) (s : srp) : option (Z * srp) :=
  if negb (check_message_header_validity msg_len magic version) then Some (-1, s)
  else
    let convert := negb (magic =? TOTEM_MH_MAGIC) in
    match msg with
    | MESSAGE_TYPE_ORF_TOKEN token flush =>
        pair 0 <$> message_handler_orf_token msg_len convert flush token s
    | MESSAGE_TYPE_MCAST m =>
        message_handler_mcast (upd_hdr (fun h => h <| m_foreign := convert |>) m) s
    | MESSAGE_TYPE_MEMB_MERGE_DETECT d => pair 0 <$> message_handler_memb_merge_detect msg_len convert d s
    | MESSAGE_TYPE_MEMB_JOIN j now empty => pair 0 <$> message_handler_memb_join msg_len convert now empty j s
    | MESSAGE_TYPE_MEMB_COMMIT_TOKEN c => pair 0 <$> message_handler_memb_commit_token msg_len convert c s
    | MESSAGE_TYPE_TOKEN_HOLD_CANCEL r => Some (0, message_handler_token_hold_cancel msg_len r s)
    | WRONG_TYPE => Some (0, s)
    end.

(** ** The instance as a state machine *)

Inductive srp_event :=
| EvToken (len : Z) (convert : bool) (flush : list flushed_msg) (token : orf_token)
| EvMcast (m : mcast_msg)
| EvMergeDetect (len : Z) (convert : bool) (d : memb_merge_detect)
| EvJoin (len : Z) (convert : bool) (now mcast_empty : Z) (j : memb_join)
| EvCommitToken (len : Z) (convert : bool) (c : memb_commit_token)
| EvHoldCancel (len : Z) (r : ring_id)
| EvTargetSetCompleted
| EvPauseTimer (now : Z)
| EvTokenTimer
| EvTokenWarningTimer
| EvTokenRetransmitTimer
| EvTokenHoldTimer
| EvMergeDetectTimer
| EvJoinTimer
| EvConsensusTimer
| EvHeartbeatTimer
| EvSend (bytes : list Z) (guarantee : Z)
| EvSignal
| EvTransAck
| EvForceGather
| EvCallbackCreate (id : Z) (t : callback_type) (delete malloc_ok : bool)
| EvCallbackDestroy (id : Z) (t : callback_type)
| EvIfaceChange (nodeid : Z) (loaded : ring_id) (service_ready : bool) (num_interfaces : Z)
| EvFinalize.

Definition srp_step (e : srp_event) (s : srp) : option srp :=
  match e with
  | EvToken len conv flush token => message_handler_orf_token len conv flush token s
  | EvMcast m => snd <$> message_handler_mcast m s
  | EvMergeDetect len conv d => message_handler_memb_merge_detect len conv d s
  | EvJoin len conv now e j => message_handler_memb_join len conv now e j s
  | EvCommitToken len conv c => message_handler_memb_commit_token len conv c s
  | EvHoldCancel len r => Some (message_handler_token_hold_cancel len r s)
  | EvTargetSetCompleted => Some (target_set_completed s)
  | EvPauseTimer now => Some (timer_function_pause_timeout now s)
  | EvTokenTimer => timer_function_orf_token_timeout s
  | EvTokenWarningTimer => Some (timer_function_orf_token_warning s)
  | EvTokenRetransmitTimer => Some (timer_function_token_retransmit_timeout s)
  | EvTokenHoldTimer => Some (timer_function_token_hold_retransmit_timeout s)
  | EvMergeDetectTimer => timer_function_merge_detect_timeout s
  | EvJoinTimer => memb_timer_function_state_gather s
  | EvConsensusTimer => memb_timer_function_gather_consensus_timeout s
  | EvHeartbeatTimer => timer_function_heartbeat_timeout s
  | EvSend bytes g => snd <$> totemsrp_mcast alloc bytes g s
  | EvSignal => totemsrp_event_signal s
  | EvTransAck => Some (totemsrp_trans_ack s)
  | EvForceGather => totemsrp_force_gather s
  | EvCallbackCreate id t d m => snd <$> totemsrp_callback_token_create id t d m s
  | EvCallbackDestroy id t => Some (totemsrp_callback_token_destroy id t s)
  | EvIfaceChange id r ready n => main_iface_change_fn id r ready n s
  | EvFinalize => memb_leave_message_send s
  end.

Fixpoint srp_run (es : list srp_event) (s : srp) : option srp :=
  match es with
  | [] => Some s
  | e :: es' => s ← srp_step e s; srp_run es' s
  end.

End Handlers.

(** ** A new instance *)

Definition zero_commit : memb_commit_token := mk_commit 0 0 zero_ring 0 0 [] [].
Definition zero_cs_queue : cs_queue mcast_msg := mk_cs_queue 0 0 0 0 0 [] 0.
Definition zero_sq : sq mcast_msg := mk_sq 0 0 [] [] [] 0 0 0.

(** [memset (instance, 0, sizeof (struct totemsrp_instance))] *)
Definition zero_srp : srp :=
  mk_srp false 0 [] 0 [] [] [] [] [] [] [] [] zero_ring zero_ring 0 false 0 0 false 0 0 0 false 0 0
    zero_cs_queue zero_cs_queue zero_cs_queue zero_sq zero_sq 0 0 [] [] None 0 MEMB_STATE_OPERATIONAL
    0 false 0 0 false 0 0 0 false 0 0 0 0 0 zero_commit false false false false 0 [].

Definition totemsrp_instance_initialize : srp :=
  zero_srp <| my_received_flg := true |> <| my_token_seq := u32 (SEQNO_START_TOKEN - 1) |>
    <| memb_state := MEMB_STATE_OPERATIONAL |> <| my_aru := SEQNO_START_MSG |>
    <| my_high_seq_received := SEQNO_START_MSG |> <| my_high_delivered := SEQNO_START_MSG |>
    <| orf_token_discard := false |> <| originated_orf_token := false |> <| waiting_trans_ack := true |>.

Definition MESSAGE_QUEUE_MAX (cfg : totem_config) : Z := 4 * 1024 * 1024 / net_mtu cfg.

(** The handle of [token_event_stats_collector], registered for both callback types. *)
Definition stats_collector : Z := 0.

(** The heartbeat is used if it is configured and shorter than the token timeout. *)
Definition heartbeat_setup (cfg : totem_config) (s : srp) : srp :=
  if heartbeat_failures_allowed cfg =? 0 then s <| use_heartbeat := false |>
  else
    let t := u32 (heartbeat_failures_allowed cfg * token_retransmit_timeout cfg + max_network_delay cfg) in
    s <| heartbeat_timeout := s32 t |> <| use_heartbeat := negb (token_timeout cfg <=? t) |>.

Definition queues_setup (s : srp) : srp :=
  s <| retrans_message_queue := snd (cs_queue_init zero_msg true RETRANS_MESSAGE_QUEUE_SIZE_MAX) |>
    <| regular_sort_queue := snd (sq_init zero_msg (true, true, true) QUEUE_RTR_ITEMS_SIZE_MAX 0) |>
    <| recovery_sort_queue := snd (sq_init zero_msg (true, true, true) QUEUE_RTR_ITEMS_SIZE_MAX 0) |>.

(** [malloc_ok], [net_ok]: whether the instance is allocated and
    [totemnet_initialize] succeeds; [now] the clock; [nodeid] the node id of the
    bound interface.  The allocations of the queues succeed. *)
Definition totemsrp_initialize (cfg : totem_config) (malloc_ok net_ok : bool) (now nodeid : Z) : option (Z * srp) :=
  if negb malloc_ok then Some (-1, zero_srp)
  else
    let s := srp_emit (WaitingTransAckFn 1) totemsrp_instance_initialize in
    let s := timer_function_pause_timeout cfg now (queues_setup s) in
    let s := heartbeat_setup cfg s in
    if negb net_ok then Some (-1, s)
    else
      let q := snd (cs_queue_init zero_msg true (MESSAGE_QUEUE_MAX cfg)) in
      let s := s <| my_id := nodeid |> <| new_message_queue := q |> <| new_message_queue_trans := q |> in
      '(_, s) ← totemsrp_callback_token_create stats_collector TOTEM_CALLBACK_TOKEN_RECEIVED false true s;
      '(_, s) ← totemsrp_callback_token_create stats_collector TOTEM_CALLBACK_TOKEN_SENT false true s;
      Some (0, s).
