(* ===== verification/TotemSrpFrame.v ===== *)
(** * Totem single ring protocol: what the minor operations leave alone

    A projection [K] of the instance is [Minor] when it does not depend on the
    fields that timers, membership sets, message queues, callbacks and counters
    live in, nor on the outputs other than messages and tokens of the ring.  The
    operations that only touch those are shown once, for every such projection,
    to leave it alone. *)
From S2P Require Import Prelude VoteQuorum Endian SortQueue CsQueue TotemMemb TotemSrp TotemSrpOps TotemSrpHandlers.

(** [K] does not depend on the field [proj]. *)
Class Free {T U} (K : srp -> T) (proj : srp -> U) {S : Setter proj} : Prop :=
  free_upd : forall g s, K (upd proj g s) = K s.
#[export] Hint Extern 1 (Free _ _) => (intros ? ?; reflexivity) : typeclass_instances.

(** Messages and tokens of the ring, and deliveries. *)
Definition is_traffic (e : srp_effect) : bool :=
  match e with
  | DeliverFn _ _ _ | NetMcast _ | NetToken (SentOrf _) => true
  | _ => false
  end.

Class Minor {T} (K : srp -> T) : Prop := {
  minor_emit : forall e s, is_traffic e = false -> K (srp_emit e s) = K s;
  minor_state : forall st s s', K s = K s' -> K (s <| memb_state := st |>) = K (s' <| memb_state := st |>);
  minor_failed_to_recv :: Free K failed_to_recv;
  minor_fcc_remcast_current :: Free K fcc_remcast_current;
  minor_consensus_list :: Free K consensus_list;
  minor_my_proc_list :: Free K my_proc_list;
  minor_my_failed_list :: Free K my_failed_list;
  minor_my_new_memb_list :: Free K my_new_memb_list;
  minor_my_leave_memb_list :: Free K my_leave_memb_list;
  minor_my_old_ring_id :: Free K my_old_ring_id;
  minor_my_merge_detect_timeout_outstanding :: Free K my_merge_detect_timeout_outstanding;
  minor_my_seq_unchanged :: Free K my_seq_unchanged;
  minor_my_received_flg :: Free K my_received_flg;
  minor_my_high_seq_received :: Free K my_high_seq_received;
  minor_new_message_queue :: Free K new_message_queue;
  minor_new_message_queue_trans :: Free K new_message_queue_trans;
  minor_retrans_message_queue :: Free K retrans_message_queue;
  minor_recovery_sort_queue :: Free K recovery_sort_queue;
  minor_my_aru :: Free K my_aru;
  minor_token_callback_received :: Free K token_callback_received;
  minor_token_callback_sent :: Free K token_callback_sent;
  minor_global_seqno :: Free K global_seqno;
  minor_my_token_held :: Free K my_token_held;
  minor_old_ring_state_saved :: Free K old_ring_state_saved;
  minor_old_ring_state_aru :: Free K old_ring_state_aru;
  minor_old_ring_state_high_seq_received :: Free K old_ring_state_high_seq_received;
  minor_my_last_seq :: Free K my_last_seq;
  minor_my_trc :: Free K my_trc;
  minor_my_pbl :: Free K my_pbl;
  minor_my_cbl :: Free K my_cbl;
  minor_pause_timestamp :: Free K pause_timestamp;
  minor_commit_token :: Free K commit_token;
  minor_originated_orf_token :: Free K originated_orf_token;
  minor_waiting_trans_ack :: Free K waiting_trans_ack
}.

Section Frame.
Context {T : Type} (K : srp -> T) {HK : Minor K} (cfg : totem_config).

Lemma frame_emit e s : is_traffic e = false -> K (srp_emit e s) = K s.
Proof. apply minor_emit. Qed.

Ltac rw_upd :=
  match goal with |- context [K (@upd _ _ ?p ?S ?g ?t)] => rewrite (@free_upd _ _ K p S _ g t) end.
Ltac peel := repeat first [rewrite frame_emit by done | rw_upd]; try reflexivity.

Lemma frame_reset_timer t ms s : K (reset_timer t ms s) = K s.
Proof. unfold reset_timer. now rewrite !frame_emit by done. Qed.

Lemma frame_reset_token_retransmit s : K (reset_token_retransmit_timeout cfg s) = K s.
Proof. apply frame_reset_timer. Qed.

Lemma frame_reset_token_timeout s : K (reset_token_timeout cfg s) = K s.
Proof.
  unfold reset_token_timeout. destruct (c_true _); unfold reset_token_warning; now rewrite !frame_reset_timer.
Qed.

Lemma frame_cancel_token_timeout s : K (cancel_token_timeout cfg s) = K s.
Proof.
  unfold cancel_token_timeout. destruct (c_true _); unfold cancel_token_warning; now rewrite !frame_emit by done.
Qed.

Lemma frame_start_merge_detect s : K (start_merge_detect_timeout cfg s) = K s.
Proof. unfold start_merge_detect_timeout. destruct (my_merge_detect_timeout_outstanding s); peel. Qed.

Lemma frame_cancel_merge_detect s : K (cancel_merge_detect_timeout s) = K s.
Proof. unfold cancel_merge_detect_timeout. peel. Qed.

Lemma frame_gather_timers s : K (gather_timers cfg s) = K s.
Proof.
  unfold gather_timers, cancel_token_retransmit_timeout.
  now rewrite frame_cancel_merge_detect, frame_cancel_token_timeout, frame_emit, !frame_reset_timer by done.
Qed.

Lemma frame_consensus_set a s s' : memb_consensus_set a s = Some s' -> K s' = K s.
Proof. unfold memb_consensus_set. destruct (Nat.leb _ _); [|done]. intros [= <-]. peel. Qed.

Lemma frame_merge_proc l s s' : merge_proc_list l s = Some s' -> K s' = K s.
Proof. unfold merge_proc_list. destruct (memb_set_merge _ _); cbn; [|done]. intros [= <-]. peel. Qed.

Lemma frame_merge_failed l s s' : merge_failed_list l s = Some s' -> K s' = K s.
Proof. unfold merge_failed_list. destruct (memb_set_merge _ _); cbn; [|done]. intros [= <-]. peel. Qed.

Lemma frame_join_send s s' : memb_join_message_send s = Some s' -> K s' = K s.
Proof.
  unfold memb_join_message_send, assert_nodeid. destruct (c_true _); cbn [mbind option_bind]; [|done].
  destruct (_ <? _); intros [= <-]; [done|peel].
Qed.

Lemma frame_leave_memb_set a s : K (my_leave_memb_set a s) = K s.
Proof. unfold my_leave_memb_set. destruct (existsb _ _); [done|]. destruct (Nat.ltb _ _); [peel|done]. Qed.

Lemma frame_gather_enter g s s' :
  memb_state_gather_enter cfg g s = Some s' ->
  K s' = K (s <| orf_token_discard := true |> <| memb_state := MEMB_STATE_GATHER |>).
Proof.
  unfold memb_state_gather_enter. cbn zeta.
  set (s0 := s <| orf_token_discard := true |>).
  set (s0' := s0 <| originated_orf_token := false |>).
  assert (H0 : K s0' = K s0) by (subst s0'; peel). clearbody s0 s0'.
  intros (s1 & H1%frame_merge_proc & (s2 & H2%frame_join_send & (s3 & H3%frame_consensus_set & [= <-])%bind_Some)%bind_Some)%bind_Some.
  apply minor_state. rewrite H3. unfold memb_consensus_reset. rw_upd. rewrite frame_gather_timers. congruence.
Qed.

Lemma frame_set_queue_use q s : K (set_queue_use q s) = K s.
Proof. unfold set_queue_use. destruct (waiting_trans_ack s); peel. Qed.

Lemma frame_totemsrp_mcast a b g s r s' : totemsrp_mcast a b g s = Some (r, s') -> K s' = K s.
Proof.
  unfold totemsrp_mcast. destruct (cs_queue_is_full _); [now intros [= _ <-]|].
  destruct (negb a); [now intros [= _ <-]|].
  intros ([] & _ & (q & _ & [= _ <-])%bind_Some)%bind_Some. apply frame_set_queue_use.
Qed.

Lemma frame_update_aru s s' : update_aru s = Some s' -> K s' = K s.
Proof. unfold update_aru. intros (n & _ & [= <-])%bind_Some. peel. Qed.

Lemma frame_hold_cancel s s' : token_hold_cancel_send s = Some s' -> K s' = K s.
Proof.
  unfold token_hold_cancel_send. destruct (negb _); [now intros [= <-]|].
  intros ([] & _ & [= <-])%bind_Some. peel.
Qed.

Lemma frame_fcc_calculate token s : K (snd (fcc_calculate cfg token s)) = K s.
Proof. unfold fcc_calculate. cbn zeta. cbn [snd]. peel. Qed.

Lemma frame_fcc_token_update token n s : K (snd (fcc_token_update token n s)) = K s.
Proof. unfold fcc_token_update. cbn [snd]. peel. Qed.

Lemma frame_upd_callbacks t f s : K (upd_callbacks t f s) = K s.
Proof. destruct t; cbn [upd_callbacks]; peel. Qed.

Context (alloc : bool) (callback_fn : Z -> srp -> Z * list (list Z * Z)).

Lemma frame_sends l (acc : option srp) s k :
  (forall s0, acc = Some s0 -> K s0 = k) ->
  foldl (fun acc '(bytes, g) => s ← acc; r ← totemsrp_mcast alloc bytes g s; Some (snd r)) acc l = Some s ->
  K s = k.
Proof.
  revert acc. induction l as [|[b g] l IH]; intros acc Ha; cbn; [auto|].
  apply IH. intros s0 (s1 & E & ([r s2] & H2%frame_totemsrp_mcast & [= <-])%bind_Some)%bind_Some.
  cbn [snd]. rewrite H2. auto.
Qed.

Lemma frame_callback t c s s' : token_callback_execute alloc callback_fn t c s = Some s' -> K s' = K s.
Proof.
  unfold token_callback_execute, callback_run. cbn zeta.
  intros ([res s1] & H & [= <-])%bind_Some.
  assert (H1 : K s1 = K s).
  { destruct (callback_fn _ _) as [res0 sends]. apply bind_Some in H as (s2 & H & [= _ <-]).
    eapply frame_sends; [|exact H]. intros s0 [= <-]. destruct (cb_delete c); [apply frame_upd_callbacks|done]. }
  destruct (_ && _); [|done]. now rewrite frame_upd_callbacks.
Qed.

Lemma frame_callbacks t s s' : token_callbacks_execute alloc callback_fn t s = Some s' -> K s' = K s.
Proof.
  unfold token_callbacks_execute. generalize (callbacks t s) as l. intros l.
  assert (H : forall acc, (forall s0, acc = Some s0 -> K s0 = K s) ->
    foldl (fun acc c => acc ≫= token_callback_execute alloc callback_fn t c) acc l = Some s' -> K s' = K s).
  { induction l as [|c l IH]; intros acc Ha; cbn; [auto|]. apply IH.
    intros s0 (s1 & E & H%frame_callback)%bind_Some. rewrite H. auto. }
  apply H. now intros s0 [= <-].
Qed.

Lemma frame_old_ring_state_save s : K (old_ring_state_save s) = K s.
Proof. unfold old_ring_state_save. destruct (old_ring_state_saved s); [done|peel]. Qed.

Lemma frame_commit_token_update s s' :
  memb_state_commit_token_update s = Some s' ->
  K s' = K s /\ ct_ring_id (commit_token s') = ct_ring_id (commit_token s).
Proof.
  unfold memb_state_commit_token_update. cbn zeta. destruct (_ || _); [done|].
  intros ([] & _ & [= <-])%bind_Some. split; [peel|reflexivity].
Qed.

Lemma frame_target_set s s' :
  memb_state_commit_token_target_set s = Some s' ->
  K s' = K s /\ commit_token s' = commit_token s.
Proof.
  unfold memb_state_commit_token_target_set. cbn zeta. destruct (_ =? 0); [done|].
  intros (a & _ & [= <-])%bind_Some. split; [now apply frame_emit|reflexivity].
Qed.

Lemma frame_token_activity token s : K (token_activity cfg token s) = K s.
Proof.
  unfold token_activity. cbn zeta. rw_upd. destruct (_ =? _); rw_upd.
  - apply frame_start_merge_detect.
  - unfold cancel_token_hold_retransmit_timeout. rewrite frame_emit by done. apply frame_cancel_merge_detect.
Qed.

Lemma frame_heartbeat f s : K (heartbeat f s) = K s.
Proof.
  unfold heartbeat, reset_heartbeat_timeout, cancel_heartbeat_timeout.
  destruct (_ && _); [apply frame_reset_timer|now apply frame_emit].
Qed.

Lemma frame_token_update_aru `{!Free K my_aru_count} last token s : K (snd (token_update_aru last token s)) = K s.
Proof. unfold token_update_aru. cbn zeta. cbn [snd]. destruct (_ && _); peel. Qed.

Lemma frame_note_leaver j s : K (note_leaver j s) = K s.
Proof.
  unfold note_leaver. destruct (join_leaver j); [|done]. destruct (_ =? _); [apply frame_leave_memb_set|done].
Qed.

Lemma frame_token_hold s : K (token_hold cfg s) = K s.
Proof. unfold token_hold. cbn zeta. peel. Qed.

End Frame.

(** ** The steady projections

    A [Steady] projection moreover does not depend on the stored messages, on
    what has been delivered and released, on the token kept, nor on any output:
    a processor that receives messages and uses the token leaves it alone. *)
Class Steady {T} (K : srp -> T) : Prop := {
  steady_minor :: Minor K;
  steady_outputs : forall e s, K (srp_emit e s) = K s;
  steady_regular_sort_queue :: Free K regular_sort_queue;
  steady_my_high_delivered :: Free K my_high_delivered;
  steady_last_released :: Free K last_released;
  steady_orf_token_retransmit :: Free K orf_token_retransmit;
  steady_my_last_aru :: Free K my_last_aru
}.

(** Loops. *)
Definition loop_result {S} (r : S + S) : S := match r with inl s | inr s => s end.

Lemma loop_inv {S} (R : S -> Prop) body n s s' :
  (forall i s r, R s -> body i s = Some r -> R (loop_result r)) ->
  R s -> loop body n s = Some s' -> R s'.
Proof.
  intros Hb. unfold loop. generalize 1 as i. generalize (Z.to_nat n) as k. clear n.
  intros k. revert s. induction k as [|k IH]; intros s i Hs; cbn; [now intros [= <-]|].
  destruct (body i s) as [r|] eqn:E; [|done]. cbn.
  pose proof (Hb _ _ _ Hs E) as Hr. destruct r as [x|x]; cbn in Hr.
  - now intros [= <-].
  - now apply IH.
Qed.

Section Steady.
Context {T : Type} (K : srp -> T) {HK : Steady K} (cfg : totem_config).

Lemma steady_emit e s : K (srp_emit e s) = K s.
Proof. apply steady_outputs. Qed.

Ltac rw_upd :=
  match goal with |- context [K (@upd _ _ ?p ?S ?g ?t)] => rewrite (@free_upd _ _ K p S _ g t) end.
Ltac peel := repeat first [rewrite steady_emit | rw_upd]; try reflexivity.

(** ** Queues and sort queues *)
Lemma steady_set_sort_queue q s : K (set_sort_queue q s) = K s.
Proof. unfold set_sort_queue. destruct (in_recovery s); peel. Qed.

Lemma steady_set_mcast_queue q s : K (set_mcast_queue q s) = K s.
Proof. unfold set_mcast_queue. destruct (in_recovery s); [peel|apply (frame_set_queue_use K)]. Qed.

Lemma steady_remcast q s r s' : orf_token_remcast q s = Some (r, s') -> K s' = K s.
Proof.
  unfold orf_token_remcast. destruct (negb _); [now intros [= _ <-]|].
  intros ([e|m] & _ & [= _ <-])%bind_Some; [done|apply steady_emit].
Qed.

Lemma steady_messages_free a s s' : messages_free a s = Some s' -> K s' = K s.
Proof.
  unfold messages_free. cbn zeta. destruct (sq_lt_compare _ (last_released s)); [now intros [= <-]|].
  destruct (negb _); [done|]. intros (s1 & H & [= <-])%bind_Some.
  transitivity (K s1); [now rw_upd|]. revert H.
  apply (loop_inv (fun x => K x = K s)); [|done].
  intros i s2 r H2. unfold messages_free_step. intros (? & _ & (q & _ & [= <-])%bind_Some)%bind_Some.
  cbn [loop_result]. rewrite <- H2. peel.
Qed.

Lemma steady_deliver skip e s s' : messages_deliver_to_app skip e s = Some s' -> K s' = K s.
Proof.
  unfold messages_deliver_to_app. cbn zeta. destruct (negb _); [done|].
  apply (loop_inv (fun x => K x = K s)); [|done].
  intros i s2 r H2. unfold messages_deliver_step. cbn zeta. rewrite <- H2. clear H2.
  destruct (negb _); [now intros [= <-]|]. intros ([e2|m] & _ & H)%bind_Some.
  - destruct skip; revert H; intros [= <-]; cbn [loop_result]; [peel|done].
  - destruct (skip && _); revert H; intros [= <-]; cbn [loop_result]; peel.
Qed.

Lemma steady_mcast1 token s token' s' : orf_token_mcast1 token s = Some (token', s') -> K s' = K s.
Proof.
  unfold orf_token_mcast1. cbn zeta. intros (m & _ & H)%bind_Some.
  set (s0 := s <| global_seqno ::= Z.add 1 |>) in H.
  apply bind_Some in H as (sortq & _ & (q & _ & [= _ <-])%bind_Some).
  rw_upd.
  rewrite steady_set_mcast_queue, steady_emit, steady_set_sort_queue. subst s0. peel.
Qed.

Lemma steady_mcast_loop n sent token s sent' token' s' :
  orf_token_mcast_loop n sent token s = Some (sent', token', s') -> K s' = K s.
Proof.
  revert sent token s. induction n as [|n IH]; intros sent token s; cbn; [now intros [= _ _ <-]|].
  destruct (cs_queue_is_empty _); [now intros [= _ _ <-]|].
  intros ([t1 s1] & H1%steady_mcast1 & H2%IH)%bind_Some. congruence.
Qed.

Lemma steady_orf_token_mcast n token s sent token' s' :
  orf_token_mcast cfg n token s = Some (sent, token', s') -> K s' = K s.
Proof.
  unfold orf_token_mcast. cbn zeta.
  intros ([[n1 t1] s1] & H1%steady_mcast_loop & (s2 & H2%(frame_update_aru K) & [= _ _ <-])%bind_Some)%bind_Some.
  rewrite H2, H1. destruct (in_recovery s); [apply (frame_reset_token_retransmit K)|done].
Qed.

Lemma steady_rtr_remcast n l s l' s' : rtr_remcast n l s = Some (l', s') -> K s' = K s.
Proof.
  revert s l' s'. induction l as [|r l IH]; intros s l' s'; cbn; [now intros [= _ <-]|].
  destruct (negb _); [now intros [= _ <-]|]. destruct (bool_decide _).
  - intros ([l1 s1] & H1%IH & [= _ <-])%bind_Some. done.
  - intros ([res s1] & H1%steady_remcast & H)%bind_Some. rewrite <- H1. clear H1.
    destruct (res =? 0).
    + apply IH in H. rewrite H. peel.
    + apply bind_Some in H as ([l2 s2] & H2%IH & [= _ <-]). done.
Qed.

Lemma steady_orf_token_rtr n token s a b token' s' :
  orf_token_rtr cfg n token s = Some (a, b, token', s') -> K s' = K s.
Proof.
  unfold orf_token_rtr. cbn zeta. destruct (_ || _); [done|].
  intros ([l1 s1] & H1%steady_rtr_remcast & H)%bind_Some.
  destruct (negb _); [done|]. apply bind_Some in H as ([l2 s2] & H2 & [= _ _ _ <-]).
  transitivity (K s1); [|rewrite H1; peel]. revert H2. clear H1.
  apply (loop_inv (fun p => K (snd p) = K s1)); [|done].
  intros i [l s0] r Hk. cbn [snd] in Hk. unfold rtr_request_step. rewrite <- Hk. clear Hk.
  destruct (negb _); [now intros [= <-]|]. cbn zeta. destruct (negb _); [now intros [= <-]|].
  intros (inuse & _ & H)%bind_Some. destruct inuse; [now revert H; intros [= <-]|].
  apply bind_Some in H as ([c q] & _ & H). cbn zeta in H.
  destruct (c <? _); [revert H; intros [= <-]; apply steady_set_sort_queue|].
  destruct (existsb _ _); revert H; intros [= <-]; apply steady_set_sort_queue.
Qed.

Lemma steady_token_send token f s s' : token_send token f s = Some s' -> K s' = K s.
Proof.
  unfold token_send. cbn zeta. intros ([] & _ & [= <-])%bind_Some. destruct f; peel.
Qed.

Context (alloc : bool).

Lemma steady_mcast_store m s s' : mcast_store alloc m s = Some (Some s') -> K s' = K s.
Proof.
  unfold mcast_store. cbn zeta. destruct (negb _); [now intros [= <-]|].
  intros (inuse & _ & H)%bind_Some. destruct inuse; [now revert H; intros [= <-]|].
  destruct (negb alloc); [done|].
  apply bind_Some in H as (q & _ & H). revert H. intros [= <-].
  destruct (sq_lt_compare _ _), (is_encapsulated m); peel.
Qed.

Lemma steady_token_retransmit s : K (token_retransmit s) = K s.
Proof. unfold token_retransmit. destruct (orf_token_retransmit s); [apply steady_emit|done]. Qed.

Lemma steady_retransmit_timer s : K (timer_function_token_retransmit_timeout cfg s) = K s.
Proof.
  unfold timer_function_token_retransmit_timeout.
  destruct (memb_state s); rewrite ?(frame_reset_token_retransmit K), ?steady_token_retransmit; done.
Qed.

Lemma steady_hold_cancel_handler len r s : K (message_handler_token_hold_cancel cfg len r s) = K s.
Proof.
  unfold message_handler_token_hold_cancel. destruct (negb _); [done|]. destruct (bool_decide _); [done|].
  cbn zeta. destruct (_ =? _); rewrite ?steady_retransmit_timer; peel.
Qed.

Lemma steady_token_use f token s f' token' s' :
  token_use cfg f token s = Some (f', token', s') -> K s' = K s.
Proof.
  unfold token_use. pose proof ( (frame_fcc_calculate K) cfg token s) as H0.
  destruct (fcc_calculate cfg token s) as [ta s0]. cbn [snd] in H0.
  intros ([[[a b] t1] s1] & H1%steady_orf_token_rtr & H)%bind_Some. cbn zeta in H.
  match type of H with context [if ?c then s1 <| my_token_held := false |> else s1] => set (cn := c) in H end.
  set (s2 := if cn then s1 <| my_token_held := false |> else s1) in H.
  assert (H2 : K s2 = K s1) by (subst s2; destruct cn; peel). clearbody s2.
  apply bind_Some in H as (ta2 & _ & ([[c t3] s3] & H3%steady_orf_token_mcast & H)%bind_Some).
  pose proof ( (frame_fcc_token_update K) t3 (a + c) s3) as H4.
  destruct (fcc_token_update t3 (a + c) s3) as [t4 s4]. cbn [snd] in H4. revert H. intros [= _ _ <-]. congruence.
Qed.

End Steady.
