(* ===== verification/TotemSrpTheory.v ===== *)
(** * Totem single ring protocol: membership states and ring ids

    Which parts of the instance each operation leaves alone, the transitions of
    the membership state machine, and the growth of the ring ids. *)
From S2P Require Import Prelude VoteQuorum Endian SortQueue CsQueue TotemMemb TotemSrp TotemSrpOps TotemSrpHandlers TotemSrpFrame.

(** The identity of the processor, its ring and its state; most operations
    leave them alone. *)
Definition key (s : srp) : Z * ring_id * Z * memb_state_t * Z * bool :=
  (my_id s, my_ring_id s, token_ring_id_seq s, memb_state s, iface_changes s, flushing s).

Strategy 1000 [key].

#[export] Instance key_minor : Minor key.
Proof. split; try apply _; [reflexivity|]. unfold key. cbn. congruence. Qed.

#[export] Instance key_steady : Steady key.
Proof. split; try apply _. reflexivity. Qed.

Lemma key_emit e s : key (srp_emit e s) = key s.
Proof. reflexivity. Qed.

Ltac rw_key_upd :=
  match goal with |- context [key (@upd _ _ ?p ?S ?g ?t)] => rewrite (@free_upd _ _ key p S _ g t) end.
Ltac peel_key := repeat first [rewrite key_emit | rw_key_upd]; try reflexivity.

Section Keys.
Context (cfg : totem_config).

(** Entering GATHER changes nothing but the state. *)
Lemma key_gather_enter g s s' :
  memb_state_gather_enter cfg g s = Some s' -> key s' = key (s <| memb_state := MEMB_STATE_GATHER |>).
Proof. intros H%(frame_gather_enter key). rewrite H. reflexivity. Qed.

Lemma key_send_initial s s' : orf_token_send_initial s = Some s' -> key s' = key s.
Proof.
  unfold orf_token_send_initial. intros ([] & _ & H%(steady_token_send key))%bind_Some. rewrite H. peel_key.
Qed.

(** ** The other states *)

Lemma key_with_state st s s' :
  key s' = key s -> key (s' <| memb_state := st |>) = key (s <| memb_state := st |>).
Proof. unfold key. cbn. congruence. Qed.

Lemma commit_token_save s : commit_token (old_ring_state_save s) = commit_token s.
Proof. unfold old_ring_state_save. destruct (old_ring_state_saved s); reflexivity. Qed.

Lemma key_commit_ring s :
  key (commit_ring s)
  = (my_id s, ct_ring_id (commit_token s), ring_seq (ct_ring_id (commit_token s)), memb_state s,
     iface_changes s, flushing s).
Proof. reflexivity. Qed.

Lemma key_commit_enter s s' :
  memb_state_commit_enter cfg s = Some s' ->
  key s' = (my_id s, ct_ring_id (commit_token s), ring_seq (ct_ring_id (commit_token s)),
            MEMB_STATE_COMMIT, iface_changes s, flushing s).
Proof.
  unfold memb_state_commit_enter.
  intros (s1 & [H1 C1]%(frame_commit_token_update key) & (s2 & [H2 C2]%(frame_target_set key) & H)%bind_Some)%bind_Some.
  cbn zeta in H. revert H. intros [= <-].
  rewrite (frame_old_ring_state_save key) in H1. rewrite commit_token_save in C1.
  match goal with |- key (?t <| my_trc := _ |> <| my_pbl := _ |> <| my_cbl := _ |>) = _ =>
    transitivity (key t); [generalize t; intros; reflexivity|] end.
  rewrite (frame_reset_token_timeout key), (frame_reset_token_retransmit key).
  set (s3 := srp_emit _ (srp_emit _ s2)).
  assert (H3 : key s3 = key s2) by (subst s3; now rewrite !key_emit).
  assert (C3 : commit_token s3 = commit_token s2) by reflexivity. clearbody s3.
  transitivity (my_id s3, ct_ring_id (commit_token s3), ring_seq (ct_ring_id (commit_token s3)),
                MEMB_STATE_COMMIT, iface_changes s3, flushing s3); [reflexivity|].
  rewrite C3, C2, C1. rewrite H2, H1 in H3. unfold key in H3. clear -H3. congruence.
Qed.

Lemma key_commit_transmit c s : key (commit_token_transmit cfg c s) = key s.
Proof.
  unfold commit_token_transmit. rewrite (frame_reset_token_retransmit key), key_emit. peel_key.
Qed.

Lemma key_recovery_originate c s s' : recovery_originate c s = Some s' -> key s' = key s.
Proof.
  unfold recovery_originate. destruct (negb _); [now intros [= <-]|]. cbn zeta.
  set (s1 := s <| my_deliver_memb_list := _ |>).
  assert (H1 : key s1 = key s) by (subst s1; peel_key). rewrite <- H1. clearbody s1. clear H1.
  destruct (recovery_bounds c s1) as [low high].
  set (s2 := s1 <| my_high_ring_delivered := _ |>).
  assert (H2 : key s2 = key s1) by (subst s2; peel_key). rewrite <- H2. clearbody s2. clear H2.
  destruct (_ =? 0); [now intros [= <-]|]. destruct (negb _); [done|].
  apply (loop_inv (fun x => key x = key s2)); [|done].
  intros i s3 r H3. unfold recovery_originate_step. intros ([e|m] & _ & H)%bind_Some.
  - now revert H; intros [= <-].
  - apply bind_Some in H as ([] & _ & (q & _ & [= <-])%bind_Some). cbn [loop_result].
    rewrite <- H3. peel_key.
Qed.

Lemma key_recovery_reset_queues s s' : recovery_reset_queues s = Some s' -> key s' = key s.
Proof. unfold recovery_reset_queues. intros (q & _ & [= <-])%bind_Some. peel_key. Qed.

Lemma key_recovery_announce c s : key (recovery_announce cfg c s) = key s.
Proof.
  unfold recovery_announce.
  rw_key_upd. rewrite key_emit. rw_key_upd. apply key_commit_transmit.
Qed.

Lemma key_recovery_enter c s s' :
  memb_state_recovery_enter cfg c s = Some s' -> key s' = key (s <| memb_state := MEMB_STATE_RECOVERY |>).
Proof.
  unfold memb_state_recovery_enter. destruct (_ || _); [done|].
  intros (s1 & H1%key_recovery_reset_queues & (s2 & H2%key_recovery_originate & [= <-])%bind_Some)%bind_Some.
  apply key_with_state. rewrite (frame_reset_token_retransmit key), (frame_reset_token_timeout key).
  rewrite key_recovery_announce in H2. unfold recovery_reset_seqs.
  transitivity (key s2); [peel_key|congruence].
Qed.

Lemma key_from_recovery s s' :
  deliver_messages_from_recovery_to_regular s = Some s' -> key s' = key s.
Proof.
  unfold deliver_messages_from_recovery_to_regular.
  apply (loop_inv (fun x => key x = key s)); [|done].
  intros i s2 r <-. unfold deliver_recovered_step. intros (x & _ & H)%bind_Some.
  destruct x as [e|[h b|h m]]; try (now revert H; intros [= <-]).
  cbn zeta in H. destruct (bool_decide _); [now revert H; intros [= <-]|].
  apply bind_Some in H as (inuse & _ & H). destruct inuse; [now revert H; intros [= <-]|].
  apply bind_Some in H as (q & _ & [= <-]). cbn [loop_result]. destruct (sq_lt_compare _ _); peel_key.
Qed.

Lemma key_operational_deliver_old s s' : operational_deliver_old s = Some s' -> key s' = key s.
Proof.
  unfold operational_deliver_old. intros (s1 & H1%key_from_recovery & H2%(steady_deliver key))%bind_Some.
  rewrite H2. transitivity (key s1); [peel_key|]. rewrite H1.
  unfold old_ring_state_reset, memb_consensus_reset. peel_key.
Qed.

Lemma key_operational_transitional s : key (operational_transitional s) = key s.
Proof. unfold operational_transitional. cbn zeta. peel_key. Qed.

Lemma key_operational_deliver s s' : operational_deliver s = Some s' -> key s' = key s.
Proof.
  unfold operational_deliver. cbn zeta.
  intros (s1 & H1%key_operational_deliver_old & (s2 & H2%(steady_deliver key) & [= <-])%bind_Some)%bind_Some.
  rewrite key_operational_transitional in H2. transitivity (key s2); [peel_key|congruence].
Qed.

Lemma key_operational_install s s' : operational_install s = Some s' -> key s' = key s.
Proof.
  unfold operational_install. cbn zeta.
  intros (q & _ & (h & _ & (q2 & _ & [= <-])%bind_Some)%bind_Some)%bind_Some. peel_key.
Qed.

Lemma key_operational_enter s s' :
  memb_state_operational_enter cfg s = Some s' -> key s' = key (s <| memb_state := MEMB_STATE_OPERATIONAL |>).
Proof.
  unfold memb_state_operational_enter. cbn zeta.
  intros (s1 & H1%key_operational_deliver & (s2 & H2%key_operational_install & [= <-])%bind_Some)%bind_Some.
  rewrite key_emit in H2.
  rw_key_upd.
  unfold reset_pause_timeout. rewrite (frame_reset_timer key). unfold my_leave_memb_clear.
  transitivity (key (s2 <| memb_state := MEMB_STATE_OPERATIONAL |>)); [generalize s2; intros; reflexivity|].
  apply key_with_state. congruence.
Qed.

End Keys.

(** ** The ring id and the membership state over an event *)

(** Either the ring stays and the highest sequence number known grows, or the
    processor moves to a ring with a higher sequence number. *)
Inductive ring_change (s s' : srp) : Prop :=
| ring_same : my_ring_id s' = my_ring_id s -> token_ring_id_seq s <= token_ring_id_seq s' -> ring_change s s'
| ring_new : ring_seq (my_ring_id s) < ring_seq (my_ring_id s') ->
    ring_seq (my_ring_id s') <= token_ring_id_seq s' -> ring_change s s'.

Record moved (s s' : srp) : Prop := {
  mv_id : my_id s' = my_id s;
  mv_iface : iface_changes s <= iface_changes s';
  mv_flushing : flushing s' = flushing s;
  mv_ring : ring_change s s'
}.

(** The highest sequence number known is at least the one of the ring. *)
Definition ring_inv (s : srp) : Prop := ring_seq (my_ring_id s) <= token_ring_id_seq s.

(** The ring may change, the state stays or becomes GATHER. *)
Definition stays (s s' : srp) : Prop :=
  moved s s' /\ (memb_state s' = memb_state s \/ memb_state s' = MEMB_STATE_GATHER).

Definition commits (s s' : srp) : Prop := moved s s' /\ memb_state s' = MEMB_STATE_COMMIT.

#[export] Instance moved_trans : Transitive moved.
Proof.
  intros a b c [I1 F1 L1 R1] [I2 F2 L2 R2]. split; [congruence|lia|congruence|].
  destruct R1 as [E1 H1|H1 H1'], R2 as [E2 H2|H2 H2'].
  - apply ring_same; [congruence|lia].
  - apply ring_new; [congruence|done].
  - apply ring_new; rewrite E2; [done|lia].
  - apply ring_new; [lia|done].
Qed.

Lemma moved_inv s s' : ring_inv s -> moved s s' -> ring_inv s'.
Proof. unfold ring_inv. intros H [_ _ _ [E1 E2|E1 E2] ]; [rewrite E1; lia|done]. Qed.

Lemma stays_trans s1 s2 s3 : stays s1 s2 -> stays s2 s3 -> stays s1 s3.
Proof.
  intros [M1 S1] [M2 S2]. split; [now transitivity s2|]. destruct S2 as [-> | ->]; auto.
Qed.

(** The fields of [key]. *)
Lemma key_fields s s' :
  key s' = key s ->
  my_id s' = my_id s /\ my_ring_id s' = my_ring_id s /\ token_ring_id_seq s' = token_ring_id_seq s
  /\ memb_state s' = memb_state s /\ iface_changes s' = iface_changes s /\ flushing s' = flushing s.
Proof. unfold key. intros H. injection H. auto 10. Qed.

Lemma stays_key s s' : key s' = key s -> stays s s'.
Proof.
  intros (E1 & E2 & E3 & E4 & E5 & E6)%key_fields. split; [|now left].
  split; [done|lia|done|]. apply ring_same; [done|lia].
Qed.

Lemma moved_state st s s' : key s' = key (s <| memb_state := st |>) -> moved s s' /\ memb_state s' = st.
Proof.
  intros H. apply key_fields in H. cbn in H. destruct H as (E1 & E2 & E3 & E4 & E5 & E6).
  split; [|done]. split; [done|lia|done|]. apply ring_same; [done|lia].
Qed.

Lemma stays_gather s s' : key s' = key (s <| memb_state := MEMB_STATE_GATHER |>) -> stays s s'.
Proof. intros [M E]%moved_state. split; auto. Qed.

Lemma stays_key_l s s1 s' : key s1 = key s -> stays s1 s' -> stays s s'.
Proof. intros H. apply stays_trans, stays_key, H. Qed.

Lemma stays_refl s : stays s s.
Proof. now apply stays_key. Qed.

Lemma foldl_bind_inv {A S} (R : S -> Prop) (f : A -> S -> option S) l acc s' :
  (forall a s s1, R s -> f a s = Some s1 -> R s1) ->
  (forall s, acc = Some s -> R s) ->
  foldl (fun acc a => acc ≫= f a) acc l = Some s' -> R s'.
Proof.
  intros Hf. revert acc. induction l as [|a l IH]; intros acc Ha; cbn; [auto|].
  apply IH. intros s (s1 & E1 & E2)%bind_Some. eauto.
Qed.

Section Moves.
Context (cfg : totem_config) (alloc : bool) (callback_fn : Z -> srp -> Z * list (list Z * Z))
  (FRAME_SIZE_MAX : Z).

Lemma stays_gather_enter g s s' : memb_state_gather_enter cfg g s = Some s' -> stays s s'.
Proof. intros H%key_gather_enter. now apply stays_gather. Qed.

Lemma stays_consensus_timeout s s' : memb_state_consensus_timeout_expired cfg s = Some s' -> stays s s'.
Proof.
  unfold memb_state_consensus_timeout_expired. intros (agreed & _ & H)%bind_Some. destruct agreed.
  - apply bind_Some in H as (s1 & H1%(frame_consensus_set key) & [= <-]). apply stays_key.
    rewrite (frame_reset_token_timeout key), H1. reflexivity.
  - apply bind_Some in H as (s1 & H1%(frame_merge_failed key) & H2%stays_gather_enter).
    eapply stays_key_l; eauto.
Qed.

Lemma stays_recovery_token_loss s s' : memb_recovery_state_token_loss cfg s = Some s' -> stays s s'.
Proof.
  unfold memb_recovery_state_token_loss. intros H%stays_gather_enter.
  eapply stays_key_l; [|exact H]. unfold old_ring_state_restore. peel_key.
Qed.

Lemma stays_foreign a g1 g2 s s' : foreign_message cfg a g1 g2 s = Some s' -> stays s s'.
Proof.
  unfold foreign_message. destruct (memb_state s).
  - intros (s1 & H1%(frame_merge_proc key) & H2%stays_gather_enter)%bind_Some. eapply stays_key_l; eauto.
  - destruct (memb_set_subset _ _); [intros [= <-]; apply stays_refl|].
    intros (s1 & H1%(frame_merge_proc key) & H2%stays_gather_enter)%bind_Some. eapply stays_key_l; eauto.
  - intros [= <-]. apply stays_refl.
  - intros [= <-]. apply stays_refl.
Qed.

Lemma stays_mcast m s r s' : message_handler_mcast cfg alloc FRAME_SIZE_MAX m s = Some (r, s') -> stays s s'.
Proof.
  unfold message_handler_mcast. destruct (negb _); [intros [= _ <-]; apply stays_refl|].
  destruct (FRAME_SIZE_MAX <? _); [done|]. cbn zeta. destruct (bool_decide _).
  - intros (s1 & H1%stays_foreign & [= _ <-])%bind_Some. done.
  - intros ([s1|] & H1 & H)%bind_Some; [|revert H; intros [= _ <-]; apply stays_refl].
    apply (steady_mcast_store key) in H1. apply bind_Some in H as (s2 & H2%(frame_update_aru key) & (s3 & H3 & [= _ <-])%bind_Some).
    apply stays_key. rewrite <- H1, <- H2. destruct (is_operational s2).
    + now apply (steady_deliver key) in H3.
    + now simplify_eq.
Qed.

Lemma stays_merge_detect len conv d s s' :
  message_handler_memb_merge_detect cfg len conv d s = Some s' -> stays s s'.
Proof.
  unfold message_handler_memb_merge_detect. destruct (negb _); [intros [= <-]; apply stays_refl|].
  cbn zeta. destruct (bool_decide _); [intros [= <-]; apply stays_refl|apply stays_foreign].
Qed.

(** ** Committing *)

Lemma commits_commit_enter s s' :
  ring_seq (my_ring_id s) < ring_seq (ct_ring_id (commit_token s)) ->
  memb_state_commit_enter cfg s = Some s' -> commits s s'.
Proof.
  intros Hr H%key_commit_enter.
  unfold key in H. injection H as E1 E2 E3 E4 E5 E6. split; [|done].
  split; [done|lia|done|]. apply ring_new; rewrite ?E2, ?E3; lia.
Qed.

Lemma commits_create s s1 s' :
  ring_inv s -> 0 <= token_ring_id_seq s < 2 ^ 64 - 4 ->
  memb_state_commit_token_create s = Some s1 -> memb_state_commit_enter cfg s1 = Some s' -> commits s s'.
Proof.
  unfold memb_state_commit_token_create. cbn zeta. intros Hi Hs.
  intros ([] & _ & [= <-])%bind_Some. intros H.
  apply commits_commit_enter in H.
  - destruct H as [M S]. split; [|done]. revert M. intros [I F L R]. split; [exact I|exact F|exact L|].
    destruct R as [R1 R2|R1 R2]; [apply ring_same|apply ring_new]; assumption.
  - cbn. unfold ring_inv in Hi. rewrite u64_small by lia. lia.
Qed.

Lemma commits_key_l s s1 s' : key s1 = key s -> commits s1 s' -> commits s s'.
Proof. intros [H _]%stays_key [M S]. split; [now transitivity s1|done]. Qed.

Lemma join_agreed_moves j s b s' :
  ring_inv s -> 0 <= token_ring_id_seq s < 2 ^ 64 - 4 ->
  join_agreed cfg j s = Some (b, s') -> key s' = key s \/ commits s s'.
Proof.
  intros Hi Hs. unfold join_agreed. intros (s1 & H1 & (agreed & _ & H)%bind_Some)%bind_Some.
  assert (K1 : key s1 = key s)
    by (destruct (_ =? _); [now simplify_eq|now apply (frame_consensus_set key) in H1]).
  clear H1. pose proof (key_fields _ _ K1) as (_ & E2 & E3 & _).
  destruct (agreed && failed_to_recv s1).
  - cbn zeta in H. set (s2 := s1 <| failed_to_recv := _ |> <| my_proc_list := _ |> <| my_failed_list := _ |>) in H.
    assert (K2 : key s2 = key s1) by (subst s2; peel_key). clearbody s2.
    pose proof (key_fields _ _ K2) as (_ & F2 & F3 & _).
    apply bind_Some in H as (s3 & H3 & (s4 & H4 & [= _ <-])%bind_Some). right.
    apply (commits_key_l s s2); [congruence|]. eapply commits_create; eauto; unfold ring_inv in *; rewrite ?F2, ?F3, ?E2, ?E3; done.
  - apply bind_Some in H as (lowest & _ & H). destruct lowest.
    + apply bind_Some in H as (s3 & H3 & (s4 & H4 & [= _ <-])%bind_Some). right.
      apply (commits_key_l s s1); [done|]. eapply commits_create; eauto; unfold ring_inv in *; rewrite ?E2, ?E3; done.
    + revert H. intros [= _ <-]. now left.
Qed.

Lemma stays_join_out s s' : join_out cfg s = Some s' -> stays s s'.
Proof. unfold join_out. destruct (is_operational s); [apply stays_gather_enter|intros [= <-]; apply stays_refl]. Qed.

Lemma stays_join_merge j s s' : join_merge cfg j s = Some s' -> stays s s'.
Proof.
  unfold join_merge. intros (s1 & H1%(frame_merge_proc key) & (s2 & H2 & H3%stays_gather_enter)%bind_Some)%bind_Some.
  eapply stays_key_l; [|exact H3]. rewrite <- H1. clear H1 H3.
  destruct (memb_set_subset [my_id s1] _); [now apply (frame_merge_failed key) in H2|].
  destruct (memb_set_subset [j_system_from j] (my_memb_list s1)); [|now simplify_eq].
  destruct (negb _); now apply (frame_merge_failed key) in H2.
Qed.

Lemma join_process_moves j s s' :
  ring_inv s -> 0 <= token_ring_id_seq s < 2 ^ 64 - 4 ->
  memb_join_process cfg j s = Some s' -> stays s s' \/ commits s s'.
Proof.
  intros Hi Hs. unfold memb_join_process. cbn zeta.
  pose proof ( (frame_note_leaver key) j s) as K. pose proof (key_fields _ _ K) as (_ & E2 & E3 & _).
  set (s0 := note_leaver j s) in *. clearbody s0.
  assert (Hl : forall x, stays s0 x -> stays s x) by (intros; eapply stays_key_l; eauto).
  destruct (flushing s0); [intros [= <-]; left; now apply stays_key|].
  destruct (memb_set_equal _ _ && _).
  - intros ([done s1] & H1 & H)%bind_Some.
    apply join_agreed_moves in H1; [|unfold ring_inv in *; rewrite ?E2, ?E3; done..].
    destruct H1 as [H1|H1].
    + left. apply Hl. destruct done; [revert H; intros [= <-]; now apply stays_key|].
      apply stays_join_out in H. eapply stays_key_l; eauto.
    + right. apply (commits_key_l s s0); [done|]. destruct done; [now revert H; intros [= <-]|].
      destruct H1 as [M S]. unfold join_out, is_operational in H.
      rewrite bool_decide_eq_false_2 in H by congruence. revert H. intros [= <-]. split; done.
  - destruct (memb_set_subset _ _ && _); [intros H%stays_join_out; auto|].
    destruct (memb_set_subset _ _); [intros H%stays_join_out; auto|]. intros H%stays_join_merge. auto.
Qed.

(** While messages are flushed, join messages are not processed. *)
Lemma join_process_flushing {T} (K : srp -> T) `{!Minor K} j s s' :
  flushing s = true -> memb_join_process cfg j s = Some s' -> K s' = K s.
Proof.
  unfold memb_join_process. cbn zeta. intros Hf.
  assert (flushing (note_leaver j s) = true) as ->.
  { unfold note_leaver, my_leave_memb_set. destruct_matches; exact Hf. }
  intros [= <-]. apply (frame_note_leaver K).
Qed.

(** ** Handlers *)

Lemma stays_raise_token_seq v s :
  stays s (if token_ring_id_seq s <? v then s <| token_ring_id_seq := v |> else s).
Proof.
  destruct (Z.ltb_spec (token_ring_id_seq s) v); [|apply stays_refl].
  split; [|now left]. split; cbn; [done|lia|done|]. apply ring_same; cbn; [done|lia].
Qed.

(** The sequence number of a join message, in this machine's byte order. *)
Definition join_seq (convert : bool) (j : memb_join) : Z :=
  if convert then swab64 (j_ring_seq j) else j_ring_seq j.

Lemma join_handler_moves len conv now e j s s' :
  ring_inv s -> 0 <= token_ring_id_seq s -> Z.max (token_ring_id_seq s) (join_seq conv j) < 2 ^ 64 - 4 ->
  message_handler_memb_join cfg len conv now e j s = Some s' ->
  stays s s' \/ (commits s s' /\ memb_state s <> MEMB_STATE_COMMIT /\ memb_state s <> MEMB_STATE_RECOVERY).
Proof.
  intros Hi H0 Hm. unfold message_handler_memb_join.
  destruct (negb _); [intros [= <-]; left; apply stays_refl|]. cbn zeta.
  set (j1 := if conv then memb_join_endian_convert j else j).
  assert (Hj : j_ring_seq j1 = join_seq conv j) by (subst j1; now destruct conv).
  rewrite <- Hj in Hm. clearbody j1. clear Hj.
  destruct (c_true _); [intros [= <-]; left; apply stays_refl|].
  pose proof (stays_raise_token_seq (j_ring_seq j1) s) as Hs.
  set (s1 := if token_ring_id_seq s <? j_ring_seq j1 then _ else s) in *.
  assert (Hst : memb_state s1 = memb_state s) by (subst s1; destruct (_ <? _); reflexivity).
  assert (Hi1 : ring_inv s1) by (eapply moved_inv; [exact Hi|apply Hs]).
  assert (Hb : 0 <= token_ring_id_seq s1 < 2 ^ 64 - 4).
  { subst s1. destruct (Z.ltb_spec (token_ring_id_seq s) (j_ring_seq j1)); cbn; lia. }
  clearbody s1.
  assert (Hp : forall x, memb_join_process cfg j1 s1 = Some x -> stays s x \/ commits s x).
  { intros x H. apply join_process_moves in H as [H|[M S]]; [left; eapply stays_trans; eauto|right|done..].
    split; [|done]. transitivity s1; [apply Hs|done]. }
  assert (Hg : forall x y, memb_join_process cfg j1 s1 = Some x -> stays x y ->
             memb_state y = MEMB_STATE_GATHER -> stays s y).
  { intros x y Hx [My Sy] Ey. destruct (Hp x Hx) as [[Mx _]|[Mx _]]; (split; [now transitivity x|now right]). }
  rewrite Hst. destruct (memb_state s) eqn:Est.
  - destruct (ignore_join_under_operational _ _); [intros [= <-]; now left|].
    intros H. destruct (Hp _ H); [now left|right; split; [done|split; congruence]].
  - intros H. destruct (Hp _ H); [now left|right; split; [done|split; congruence]].
  - destruct (join_from_new_ring _ _); [|intros [= <-]; now left].
    intros (x & Hx & H)%bind_Some. left. eapply (Hg x); [done|eapply stays_gather_enter, H|].
    apply key_gather_enter, moved_state in H. apply H.
  - destruct (join_from_new_ring _ _); [|intros [= <-]; now left].
    intros (x & Hx & (y & Hy & H)%bind_Some)%bind_Some. left.
    eapply (Hg x); [done|eapply stays_trans; [eapply stays_recovery_token_loss, Hy|eapply stays_gather_enter, H]|].
    apply key_gather_enter, moved_state in H. apply H.
Qed.

(** While flushing, a join message can at most lead to GATHER. *)
Lemma join_handler_flushing len conv now e j s s' :
  flushing s = true -> message_handler_memb_join cfg len conv now e j s = Some s' -> stays s s'.
Proof.
  intros Hf. unfold message_handler_memb_join.
  destruct (negb _); [intros [= <-]; apply stays_refl|]. cbn zeta.
  set (j1 := if conv then memb_join_endian_convert j else j). clearbody j1.
  destruct (c_true _); [intros [= <-]; apply stays_refl|].
  pose proof (stays_raise_token_seq (j_ring_seq j1) s) as Hs.
  set (s1 := if token_ring_id_seq s <? j_ring_seq j1 then _ else s) in *.
  assert (Hf1 : flushing s1 = true) by (subst s1; destruct (_ <? _); exact Hf). clearbody s1.
  assert (Hp : forall x, memb_join_process cfg j1 s1 = Some x -> stays s x).
  { intros x H. apply (join_process_flushing key) in H; [|done]. eapply stays_trans; [exact Hs|now apply stays_key]. }
  destruct (memb_state s1).
  - destruct (ignore_join_under_operational _ _); [intros [= <-]; done|auto].
  - auto.
  - destruct (join_from_new_ring _ _); [|intros [= <-]; done].
    intros (x & Hx & H)%bind_Some. eapply stays_trans; [apply Hp, Hx|eapply stays_gather_enter, H].
  - destruct (join_from_new_ring _ _); [|intros [= <-]; done].
    intros (x & Hx & (y & Hy & H)%bind_Some)%bind_Some.
    eapply stays_trans; [apply Hp, Hx|].
    eapply stays_trans; [eapply stays_recovery_token_loss, Hy|eapply stays_gather_enter, H].
Qed.

Lemma stays_flush l s s' :
  flushing s = false -> totemnet_recv_flush cfg alloc FRAME_SIZE_MAX l s = Some s' -> stays s s'.
Proof.
  intros Hf. unfold totemnet_recv_flush. intros (s1 & H & [= <-])%bind_Some.
  set (s0 := s <| flushing := true |>) in H.
  assert (H1 : flushing s1 = true /\ stays s0 s1).
  { revert H. apply (foldl_bind_inv (fun x => flushing x = true /\ stays s0 x)).
    - intros f x y [Hx Hs] Hy.
      assert (Hxy : stays x y).
      { destruct f as [m|len conv d|len conv now e j|len r]; cbn in Hy.
        - destruct (message_handler_mcast _ _ _ m x) as [[r y']|] eqn:E; [|done]. cbn in Hy. simplify_eq.
          eapply stays_mcast, E.
        - eapply stays_merge_detect, Hy.
        - eapply join_handler_flushing, Hy. done.
        - simplify_eq. apply stays_key, (steady_hold_cancel_handler key). }
      split; [destruct Hxy as [ [_ _ L _] _]; congruence|]. eapply stays_trans; [exact Hs|exact Hxy].
    - intros x [= <-]. split; [reflexivity|apply stays_refl]. }
  destruct H1 as [_ [[I F L R] S]]. split; [|exact S].
  split; [exact I|exact F|exact (eq_sym Hf)|]. destruct R as [R1 R2|R1 R2]; [now apply ring_same|now apply ring_new].
Qed.

Lemma key_recovery_retrans token s : key (snd (recovery_retrans_flag token s)) = key s.
Proof.
  unfold recovery_retrans_flag. destruct (negb _).
  - destruct (_ =? 0); cbn [snd]; peel_key.
  - destruct (_ && _); cbn [snd]; peel_key.
Qed.

Lemma key_recovery_count token s : key (recovery_count token s) = key s.
Proof.
  unfold recovery_count. cbn zeta.
  set (s1 := if t_retrans_flg token =? 0 then _ else _).
  assert (H1 : key s1 = key s) by (subst s1; destruct (_ =? 0); peel_key). clearbody s1.
  set (s2 := if my_retrans_flg_count s1 =? 2 then _ else _).
  assert (H2 : key s2 = key s1) by (subst s2; destruct (_ =? 2); peel_key). clearbody s2.
  set (s3 := if _ && _ then s2 <| my_received_flg := true |> <| my_deliver_memb_list := _ |> else s2).
  assert (H3 : key s3 = key s2) by (subst s3; destruct (_ && _); peel_key). clearbody s3.
  rewrite <- H1, <- H2, <- H3. destruct (_ && _); peel_key.
Qed.

(** In the RECOVERY state a token keeps the state or installs the new ring. *)
Lemma recovery_token_moves token s token' s' :
  recovery_token cfg token s = Some (token', s') ->
  key s' = key s \/ key s' = key (s <| memb_state := MEMB_STATE_OPERATIONAL |>).
Proof.
  unfold recovery_token. pose proof (key_recovery_retrans token s) as H.
  destruct (recovery_retrans_flag token s) as [t1 s1]. cbn [snd] in H. cbn zeta.
  pose proof (key_recovery_count t1 s1) as H1. set (s2 := recovery_count t1 s1) in *. clearbody s2.
  destruct (_ =? 2).
  - intros (s3 & H3%key_operational_enter & [= _ <-])%bind_Some. right. peel_key. rewrite H3.
    apply key_with_state. congruence.
  - intros [= _ <-]. left. congruence.
Qed.

Lemma token_pass_moves f token s s' :
  token_pass cfg alloc callback_fn f token s = Some s' ->
  key s' = key s
  \/ (memb_state s = MEMB_STATE_RECOVERY /\ key s' = key (s <| memb_state := MEMB_STATE_OPERATIONAL |>)).
Proof.
  unfold token_pass. cbn zeta.
  set (s1 := s <| my_token_seq := _ |>). assert (H1 : key s1 = key s) by (subst s1; peel_key).
  assert (E1 : memb_state s1 = memb_state s) by reflexivity. clearbody s1.
  intros ([t2 s2] & H2 & (s3 & H3%(steady_token_send key) & (s4 & H4 & H5%(frame_callbacks key))%bind_Some)%bind_Some)%bind_Some.
  assert (K : key s' = key s2).
  { rewrite H5. rewrite key_emit in H3. rewrite <- H3.
    assert (K4 : key s4 = key s3) by (destruct (is_operational s3); [now apply (steady_deliver key) in H4|now simplify_eq]).
    destruct (_ && _); unfold start_token_hold_retransmit_timeout;
      rewrite ?key_emit, (frame_reset_token_retransmit key), (frame_reset_token_timeout key); done. }
  unfold in_recovery in H2. destruct (bool_decide_reflect (memb_state s1 = MEMB_STATE_RECOVERY)) as [Hr|Hr].
  - apply recovery_token_moves in H2 as [H2|H2]; [left; congruence|right]. split; [congruence|].
    rewrite K, H2. now apply key_with_state.
  - left. revert H2. intros [= _ E2]. rewrite K, <- E2. exact H1.
Qed.

Lemma token_process_moves f token s s' :
  token_process cfg alloc callback_fn f token s = Some s' ->
  stays s s'
  \/ (memb_state s = MEMB_STATE_RECOVERY /\ moved s s' /\ memb_state s' = MEMB_STATE_OPERATIONAL).
Proof.
  unfold token_process. intros (s1 & H1%(frame_callbacks key) & H)%bind_Some. cbn zeta in H.
  apply bind_Some in H as ([[f2 t2] s2] & H2%(steady_token_use key) & H).
  assert (K2 : key s2 = key s) by (rewrite H2, <- H1; peel_key). clear H1 H2.
  pose proof ( (frame_token_update_aru key) (my_last_aru s1) t2 s2) as H3.
  destruct (token_update_aru (my_last_aru s1) t2 s2) as [t3 s3]. cbn [snd] in H3.
  assert (K3 : key s3 = key s) by congruence. clear H3 K2.
  apply bind_Some in H as (s4 & H & [= <-]).
  assert (Kh : key (heartbeat f2 s4) = key s4) by apply (frame_heartbeat key).
  destruct (token_failed_to_receive cfg t3 s3).
  - apply bind_Some in H as (s5 & H5%(frame_merge_failed key) & H6%stays_gather_enter). left.
    apply (stays_key_l s s5); [rewrite H5, <- K3; peel_key|].
    eapply stays_trans; [exact H6|now apply stays_key].
  - apply token_pass_moves in H as [H|[Hr H]].
    + left. apply stays_key. congruence.
    + right. split; [apply key_fields in K3 as (_ & _ & _ & K3 & _); congruence|].
      apply moved_state. rewrite Kh, H. now apply key_with_state.
Qed.

Lemma token_handler_moves len conv fl token s s' :
  flushing s = false ->
  message_handler_orf_token cfg alloc callback_fn FRAME_SIZE_MAX len conv fl token s = Some s' ->
  stays s s'
  \/ (memb_state s = MEMB_STATE_RECOVERY /\ moved s s' /\ memb_state s' = MEMB_STATE_OPERATIONAL).
Proof.
  intros Hf. unfold message_handler_orf_token.
  destruct (negb _); [intros [= <-]; left; apply stays_refl|].
  destruct (orf_token_discard s); [intros [= <-]; left; apply stays_refl|]. cbn zeta.
  set (t := if conv then _ else token). clearbody t.
  pose proof ( (frame_token_activity key) cfg t s) as Ka. set (sa := token_activity cfg t s) in *. clearbody sa.
  intros (s1 & H1 & H)%bind_Some.
  apply stays_flush in H1; [|apply key_fields in Ka as (_ & _ & _ & _ & _ & Ka); congruence].
  apply (stays_key_l s) in H1; [|exact Ka]. clear Ka Hf.
  pose proof ( (frame_token_hold key) cfg s1) as K2. set (s2 := token_hold cfg s1) in *. clearbody s2.
  assert (Hs2 : stays s s2) by (eapply stays_trans; [exact H1|now apply stays_key]). clear H1 K2.
  assert (Hh : forall f x, stays s x -> stays s (heartbeat f x)).
  { intros f x Hx. eapply stays_trans; [exact Hx|apply stays_key, (frame_heartbeat key)]. }
  assert (Ht : forall x f, key x = key s2 -> token_process cfg alloc callback_fn f t x = Some s' ->
    stays s s' \/ (memb_state s = MEMB_STATE_RECOVERY /\ moved s s' /\ memb_state s' = MEMB_STATE_OPERATIONAL)).
  { intros x f Kx Hx%token_process_moves.
    assert (Hsx : stays s x) by (eapply stays_trans; [exact Hs2|now apply stays_key]).
    destruct Hx as [Hx|(Ex & Mx & Sx)]; [left; eapply stays_trans; [exact Hsx|exact Hx]|].
    destruct Hsx as [Msx [Esx|Esx] ]; [|congruence].
    right. split; [congruence|]. split; [now transitivity x|done]. }
  destruct (memb_state s2) eqn:Es2; try (revert H; intros [= <-]; left; apply Hh; assumption).
  all: apply bind_Some in H as (s3 & H3 & H).
  all: assert (K3 : key s3 = key s2) by (revert H3; destruct (is_operational s2);
                                         [apply (steady_messages_free key)|now intros [= <-] ]).
  all: destruct (bool_decide _);
    [revert H; intros [= <-]; left; apply Hh; eapply stays_trans; [exact Hs2|now apply stays_key]|].
  all: destruct (sq_lte_compare _ _);
    [revert H; intros [= <-]; left; eapply stays_trans; [exact Hs2|now apply stays_key]|].
  all: eapply Ht; [exact K3|exact H].
Qed.

(** The commit token in this machine's byte order. *)
Definition local_commit (convert : bool) (c : memb_commit_token) : memb_commit_token :=
  if convert then memb_commit_token_endian_convert c else c.

Lemma commit_handler_moves len conv c s s' :
  message_handler_memb_commit_token cfg len conv c s = Some s' ->
  let c := local_commit conv c in
  key s' = key s
  \/ (memb_state s = MEMB_STATE_GATHER /\ commits s s' /\ my_ring_id s' = ct_ring_id c
      /\ ring_seq (my_ring_id s) < ring_seq (ct_ring_id c)
      /\ memb_set_equal (ct_addr c) (memb_set_subtract (my_proc_list s) (my_failed_list s)) = true)
  \/ (memb_state s = MEMB_STATE_COMMIT /\ moved s s' /\ memb_state s' = MEMB_STATE_RECOVERY
      /\ ring_seq (ct_ring_id c) = ring_seq (my_ring_id s) /\ ct_memb_index c = ct_addr_entries c).
Proof.
  unfold message_handler_memb_commit_token. destruct (negb _); [intros [= <-]; now left|].
  cbn zeta. fold (local_commit conv c). set (lc := local_commit conv c). clearbody lc.
  destruct (memb_state s) eqn:Es.
  - intros [= <-]. now left.
  - destruct (memb_set_equal _ _ && _) eqn:Eg; [|intros [= <-]; now left].
    apply andb_prop in Eg as [Eg1 Eg2%Z.ltb_lt]. intros H. right. left. split; [done|].
    pose proof (key_commit_enter _ _ _ H) as K. apply commits_commit_enter in H; [|exact Eg2].
    destruct H as [ [I F L R] S]. unfold key in K. injection K as _ K _ _ _ _. cbn in K.
    repeat split; try done. destruct R as [R1 R2|R1 R2]; [now apply ring_same|now apply ring_new].
  - destruct ((_ =? _) && _) eqn:Eg; [|intros [= <-]; now left].
    apply andb_prop in Eg as [Eg1%Z.eqb_eq Eg2%Z.eqb_eq].
    intros H%key_recovery_enter%moved_state. right. right. tauto.
  - destruct (_ && _); [|intros [= <-]; now left].
    intros (s1 & H1%key_send_initial & [= <-])%bind_Some. left.
    rewrite (frame_reset_token_retransmit key), (frame_reset_token_timeout key), H1. peel_key.
Qed.

End Moves.
