(* ===== verification/TotemSrpMemb.v ===== *)
(** * Totem single ring protocol: the causes of the membership transitions

    Which events may take a processor to GATHER, when a join message ends the
    gathering with a commit token, and when a token installs the new ring; in
    terms of the lists, counters and messages, not of the code's tests. *)
From S2P Require Import Prelude VoteQuorum Endian SortQueue CsQueue TotemMemb TotemSrp TotemSrpOps TotemSrpHandlers TotemSrpFrame TotemSrpTheory.

(** ** Vocabulary *)

(** Messages in this machine's byte order. *)
Definition local_join (convert : bool) (j : memb_join) : memb_join :=
  if convert then memb_join_endian_convert j else j.
Definition local_token (convert : bool) (t : orf_token) : orf_token :=
  if convert then orf_token_endian_convert t else t.
Definition local_detect (convert : bool) (d : memb_merge_detect) : memb_merge_detect :=
  if convert then memb_merge_detect_endian_convert d else d.

(** [a] is to be a member of the next ring. *)
Definition prospect (s : srp) (a : Z) : Prop := a ∈ my_proc_list s /\ a ∉ my_failed_list s.

(** [a] is noted to agree with the lists of this processor. *)
Definition noted (s : srp) (a : Z) : Prop := mk_consensus a true ∈ consensus_list s.

(** The two lists have the same length and the members of the second are in the first. *)
Definition same_members (l1 l2 : list Z) : Prop := length l1 = length l2 /\ forall a, a ∈ l2 -> a ∈ l1.

(** The join message [j] completes the agreement: it names the lists of this
    processor, everybody who is to be a member has been noted or is the sender
    (who is not just announcing that it leaves), and this processor is the
    lowest of them, or has failed to receive and forms a ring of its own. *)
Record agreement (j : memb_join) (s : srp) : Prop := {
  ag_proc : same_members (j_proc_list j) (my_proc_list s);
  ag_failed : same_members (j_failed_list j) (my_failed_list s);
  ag_everyone : forall a, prospect s a ->
    noted s a \/ (a = j_system_from j /\ j_nodeid j <> LEAVE_DUMMY_NODEID);
  ag_representative :
    failed_to_recv s = true \/ (prospect s (my_id s) /\ forall a, prospect s a -> my_id s <= a)
}.

(** A join message a processor outside of GATHER listens to. *)
Definition join_heeded (j : memb_join) (s : srp) : Prop :=
  match memb_state s with
  | MEMB_STATE_OPERATIONAL =>
      my_id s ∉ j_failed_list j
      /\ (j_system_from j ∈ my_memb_list s -> ring_seq (my_ring_id s) <= j_ring_seq j)
  | MEMB_STATE_GATHER => True
  | MEMB_STATE_COMMIT | MEMB_STATE_RECOVERY =>
      j_system_from j ∈ my_new_memb_list s /\ ring_seq (my_ring_id s) <= j_ring_seq j
  end.

(** A message flushed before the token that takes the processor out of its ring. *)
Definition flush_cause (s : srp) (f : flushed_msg) : Prop :=
  match f with
  | FlushMcast m => memb_state s = MEMB_STATE_OPERATIONAL /\ m_ring_id (local_hdr m) <> my_ring_id s
  | FlushMergeDetect _ conv d =>
      memb_state s = MEMB_STATE_OPERATIONAL /\ d_ring_id (local_detect conv d) <> my_ring_id s
  | FlushJoin _ _ _ _ _ => memb_state s = MEMB_STATE_COMMIT \/ memb_state s = MEMB_STATE_RECOVERY
  | FlushHoldCancel _ _ => False
  end.

(** The token is one of this ring and was not seen before. *)
Definition fresh_token (t : orf_token) (s : srp) : Prop :=
  t_ring_id t = my_ring_id s /\ sq_lte_compare (t_token_seq t) (my_token_seq s) = false.

(** The token has come as often as is tolerated without this processor getting
    further (the constant is unsigned). *)
Definition not_receiving (cfg : totem_config) (s : srp) : Prop :=
  0 <= fail_to_recv_const cfg -> fail_to_recv_const cfg <= my_aru_count s.

(** What may take a processor to GATHER from another state. *)
Definition gather_cause (cfg : totem_config) (e : srp_event) (s : srp) : Prop :=
  match e with
  | EvTokenTimer | EvHeartbeatTimer | EvForceGather => True
  | EvConsensusTimer => exists a, prospect s a /\ consensus_isset a (consensus_list s) = false
  | EvIfaceChange _ _ _ n => n <= iface_changes s + 1
  | EvMcast m => memb_state s = MEMB_STATE_OPERATIONAL /\ m_ring_id (local_hdr m) <> my_ring_id s
  | EvMergeDetect _ conv d =>
      memb_state s = MEMB_STATE_OPERATIONAL /\ d_ring_id (local_detect conv d) <> my_ring_id s
  | EvJoin _ conv _ _ j => join_heeded (local_join conv j) s
  | EvToken _ conv fl t =>
      Exists (flush_cause s) fl
      \/ (fresh_token (local_token conv t) s /\ not_receiving cfg s)
  | _ => False
  end.

(** A token ends the recovery: the processor has counted a rotation of the token
    in which nobody had anything to retransmit, two before that without
    retransmission, and the token it passes on says that everybody has received
    all up to the sequence number at which the retransmission ended. *)
Record recovered (t : orf_token) (s s' : srp) : Prop := {
  rc_fresh : fresh_token t s;
  rc_rotation : my_rotation_counter s = 1;
  rc_retrans : 2 <= my_retrans_flg_count s;
  rc_passed : exists t', orf_token_retransmit s' = Some (SentOrf t')
    /\ t_retrans_flg t' = 0 /\ sq_lte_compare (my_install_seq s) (t_aru t') = true
}.

(** ** Agreement *)

Lemma consensus_isset_noted a l : consensus_isset a l = true -> mk_consensus a true ∈ l.
Proof.
  induction l as [|[b f] l IH]; cbn; [done|]. unfold srp_addr_equal.
  destruct (Z.eqb_spec a b) as [->|]; [intros ->; left|right; auto].
Qed.

Lemma memb_set_equal_same l1 l2 : memb_set_equal l1 l2 = true <-> same_members l1 l2.
Proof.
  unfold memb_set_equal, same_members. rewrite andb_true_iff, Nat.eqb_eq, forallb_forall.
  setoid_rewrite existsb_equal_r. setoid_rewrite list_elem_of_In. done.
Qed.

Lemma prospect_subtract s a : a ∈ memb_set_subtract (my_proc_list s) (my_failed_list s) <-> prospect s a.
Proof. apply elem_of_subtract. Qed.

Lemma foldl_min_le l x : foldl Z.min x l <= x /\ forall a, a ∈ l -> foldl Z.min x l <= a.
Proof.
  revert x. induction l as [|b l IH]; intros x; cbn; [split; [lia|intros a Ha; now apply elem_of_nil in Ha]|].
  destruct (IH (Z.min x b)) as [H1 H2]. split; [lia|]. intros a [->|Ha]%elem_of_cons; [lia|auto].
Qed.

Lemma foldl_min_in l x : foldl Z.min x l ∈ x :: l.
Proof.
  revert x. induction l as [|b l IH]; intros x; cbn; [left|]. specialize (IH (Z.min x b)).
  apply elem_of_cons in IH as [->|IH]; [|set_solver]. destruct (Z.min_spec x b) as [ [_ ->]|[_ ->] ]; set_solver.
Qed.

Lemma lowest_spec s :
  memb_lowest_in_config s = Some true -> prospect s (my_id s) /\ forall a, prospect s a -> my_id s <= a.
Proof.
  unfold memb_lowest_in_config. setoid_rewrite <- prospect_subtract.
  destruct (memb_set_subtract _ _) as [|x l]; [done|]. intros [= E%Z.eqb_eq]. rewrite <- E.
  split; [apply foldl_min_in|]. destruct (foldl_min_le l x) as [H1 H2]. intros a [->|Ha]%elem_of_cons; auto.
Qed.

Lemma consensus_agreed_spec s : memb_consensus_agreed s = Some true -> forall a, prospect s a -> noted s a.
Proof.
  unfold memb_consensus_agreed. setoid_rewrite <- prospect_subtract.
  destruct (forallb _ _) eqn:E; [|cbn [andb]; destruct (Nat.leb _ _); done].
  intros _ a Ha. rewrite forallb_forall in E. apply consensus_isset_noted, E, list_elem_of_In, Ha.
Qed.

Lemma consensus_not_agreed s :
  memb_consensus_agreed s = Some false ->
  exists a, prospect s a /\ consensus_isset a (consensus_list s) = false.
Proof.
  unfold memb_consensus_agreed. setoid_rewrite <- prospect_subtract.
  destruct (forallb _ _) eqn:E; [destruct (true && _); [done|destruct (Nat.leb _ _); done]|]. intros _.
  apply not_true_iff_false in E. rewrite forallb_forall in E.
  destruct (List.existsb (fun a => negb (memb_consensus_isset s a)) (memb_set_subtract (my_proc_list s) (my_failed_list s))) eqn:F.
  - apply existsb_exists in F as (a & Ha & F%negb_true_iff). exists a. split; [now apply list_elem_of_In|exact F].
  - destruct E. intros a Ha. destruct (memb_consensus_isset s a) eqn:G; [done|]. exfalso.
    apply not_true_iff_false in F. apply F, existsb_exists. exists a. now rewrite G.
Qed.

Section Agreement.
Context (cfg : totem_config).

Lemma consensus_set_fields a s s' :
  memb_consensus_set a s = Some s' ->
  (forall b, noted s' b -> noted s b \/ b = a) /\ my_proc_list s' = my_proc_list s
  /\ my_failed_list s' = my_failed_list s /\ failed_to_recv s' = failed_to_recv s /\ my_id s' = my_id s.
Proof.
  unfold memb_consensus_set. destruct (Nat.leb _ _); [|done]. intros [= <-]. split_and!; [|done..].
  unfold noted. cbn. generalize (consensus_list s) as l. intros l b.
  induction l as [|c l IH]; cbn.
  - intros [= ->]%list_elem_of_singleton. now right.
  - destruct (srp_addr_equal a (c_addr c)); intros [E|H]%elem_of_cons.
    + injection E as ->. now right.
    + left. now right.
    + subst c. left. left.
    + destruct (IH H); [left; now right|now right].
Qed.

(** The ring a processor commits to is its own, four beyond the highest it knows. *)
Lemma create_commit_ring s s1 s' :
  0 <= token_ring_id_seq s < 2 ^ 64 - 4 ->
  memb_state_commit_token_create s = Some s1 -> memb_state_commit_enter cfg s1 = Some s' ->
  my_ring_id s' = mk_ring (my_id s) (token_ring_id_seq s + 4).
Proof.
  unfold memb_state_commit_token_create. cbn zeta. intros Hs ([] & _ & [= <-])%bind_Some H%key_commit_enter.
  unfold key in H. injection H as _ E _ _ _ _. rewrite E. cbn. now rewrite u64_small by lia.
Qed.

Lemma join_agreed_cause j s b s' :
  memb_state s <> MEMB_STATE_COMMIT -> 0 <= token_ring_id_seq s < 2 ^ 64 - 4 ->
  join_agreed cfg j s = Some (b, s') -> memb_state s' = MEMB_STATE_COMMIT ->
  my_ring_id s' = mk_ring (my_id s) (token_ring_id_seq s + 4)
  /\ (forall a, prospect s a -> noted s a \/ (a = j_system_from j /\ j_nodeid j <> LEAVE_DUMMY_NODEID))
  /\ (failed_to_recv s = true \/ (prospect s (my_id s) /\ forall a, prospect s a -> my_id s <= a)).
Proof.
  intros Hn Hs. unfold join_agreed. intros (s1 & H1 & (agreed & Ha & H)%bind_Some)%bind_Some Hc.
  assert (F : key s1 = key s /\ (forall a, noted s1 a -> noted s a \/ (a = j_system_from j /\ j_nodeid j <> LEAVE_DUMMY_NODEID))
    /\ my_proc_list s1 = my_proc_list s /\ my_failed_list s1 = my_failed_list s /\ failed_to_recv s1 = failed_to_recv s
    /\ my_id s1 = my_id s).
  { destruct (Z.eqb_spec (j_nodeid j) LEAVE_DUMMY_NODEID) as [E|E]; [simplify_eq; auto 10|].
    split; [now apply (frame_consensus_set key) in H1|]. apply consensus_set_fields in H1 as (N & F).
    split; [|exact F]. intros a [Hb| ->]%N; auto. }
  clear H1. destruct F as (K & N & F1 & F2 & F3 & F4).
  assert (P : forall a, prospect s a <-> prospect s1 a) by (intros a; unfold prospect; now rewrite F1, F2).
  pose proof (key_fields _ _ K) as (_ & _ & E3 & E4 & _). setoid_rewrite P. rewrite <- F3, <- F4, <- E3 in *.
  destruct agreed.
  - pose proof (consensus_agreed_spec _ Ha) as Hall.
    destruct (failed_to_recv s1) eqn:Ef; cbn [andb] in H.
    + cbn zeta in H. apply bind_Some in H as (s3 & H3 & (s4 & H4 & [= _ <-])%bind_Some).
      split; [|auto]. pose proof (fun h => create_commit_ring _ _ _ h H3 H4) as H. apply H. exact Hs.
    + apply bind_Some in H as (lowest & Hl & H). destruct lowest; [|revert H; intros [= _ <-]; congruence].
      apply bind_Some in H as (s3 & H3 & (s4 & H4 & [= _ <-])%bind_Some).
      split; [apply (create_commit_ring _ _ _ Hs H3 H4)|]. split; [auto|right; now apply lowest_spec].
  - cbn in H. revert H. intros [= _ <-]. congruence.
Qed.

Lemma join_process_cause j s s' :
  memb_state s <> MEMB_STATE_COMMIT -> 0 <= token_ring_id_seq s < 2 ^ 64 - 4 ->
  memb_join_process cfg j s = Some s' -> memb_state s' = MEMB_STATE_COMMIT ->
  my_ring_id s' = mk_ring (my_id s) (token_ring_id_seq s + 4) /\ agreement j s.
Proof.
  intros Hn Hs. unfold memb_join_process. cbn zeta.
  assert (F : key (note_leaver j s) = key s /\ my_proc_list (note_leaver j s) = my_proc_list s
    /\ my_failed_list (note_leaver j s) = my_failed_list s /\ failed_to_recv (note_leaver j s) = failed_to_recv s
    /\ consensus_list (note_leaver j s) = consensus_list s).
  { split; [apply (frame_note_leaver key)|]. unfold note_leaver, my_leave_memb_set. destruct_matches; done. }
  set (s0 := note_leaver j s) in *. clearbody s0. destruct F as (K & F1 & F2 & F3 & F4).
  pose proof (key_fields _ _ K) as (E1 & _ & E3 & E4 & _).
  assert (Ho : forall x y, join_out cfg x = Some y -> memb_state y = MEMB_STATE_COMMIT -> y = x).
  { intros x y. unfold join_out. destruct (is_operational x); [|now intros [= <-] ].
    intros [_ E]%key_gather_enter%moved_state. congruence. }
  destruct (flushing s0); [intros [= <-]; congruence|].
  destruct (memb_set_equal _ _ && _) eqn:El.
  - apply andb_prop in El as [L1%memb_set_equal_same L2%memb_set_equal_same]. rewrite F1 in L1. rewrite F2 in L2.
    intros ([done s1] & H1 & H)%bind_Some Hc.
    assert (s' = s1) as -> by (destruct done; [now simplify_eq|now apply Ho]).
    apply join_agreed_cause in H1 as (R & A & B); [|congruence..|done].
    rewrite E1, E3, F3 in *. unfold prospect, noted in *. rewrite F1, F2, F4 in *. done.
  - destruct (memb_set_subset _ _ && _); [intros H Hc; apply Ho in H; congruence|].
    destruct (memb_set_subset _ _); [intros H Hc; apply Ho in H; congruence|].
    unfold join_merge. intros (s1 & _ & (s2 & _ & [_ E]%key_gather_enter%moved_state)%bind_Some)%bind_Some. congruence.
Qed.

End Agreement.

(** ** Messages *)
Section Causes.
Context (cfg : totem_config) (alloc : bool) (callback_fn : Z -> srp -> Z * list (list Z * Z))
  (FRAME_SIZE_MAX : Z).

Lemma state_key s s' : key s' = key s -> memb_state s' = memb_state s.
Proof. intros K. now apply key_fields in K. Qed.

Lemma foreign_cause a g1 g2 s s' :
  foreign_message cfg a g1 g2 s = Some s' ->
  s' = s \/ memb_state s = MEMB_STATE_OPERATIONAL \/ (memb_state s = MEMB_STATE_GATHER /\ memb_state s' = MEMB_STATE_GATHER).
Proof.
  unfold foreign_message. destruct (memb_state s) eqn:E; [auto|..].
  - destruct (memb_set_subset _ _); [intros [= <-]; auto|].
    intros (s1 & _ & [_ H]%key_gather_enter%moved_state)%bind_Some. auto.
  - intros [= <-]. auto.
  - intros [= <-]. auto.
Qed.

(** What a join message sent to this processor may do to its state. *)
Lemma join_handler_cause len conv now e j s s' :
  message_handler_memb_join cfg len conv now e j s = Some s' ->
  memb_state s' <> memb_state s -> join_heeded (local_join conv j) s.
Proof.
  unfold message_handler_memb_join. destruct (negb _); [now intros [= <-]|]. cbn zeta. fold (local_join conv j).
  set (j1 := local_join conv j). clearbody j1. destruct (c_true _); [now intros [= <-]|].
  set (s1 := if token_ring_id_seq s <? j_ring_seq j1 then _ else s).
  assert (F : memb_state s1 = memb_state s /\ my_id s1 = my_id s /\ my_memb_list s1 = my_memb_list s
    /\ my_new_memb_list s1 = my_new_memb_list s /\ my_ring_id s1 = my_ring_id s)
    by (subst s1; destruct (_ <? _); done).
  clearbody s1. destruct F as (E1 & E2 & E3 & E4 & E5). rewrite E1.
  unfold join_heeded, ignore_join_under_operational, join_from_new_ring. rewrite E2, E3, E4, E5.
  destruct (memb_state s) eqn:Es; intros H Hn.
  - destruct (_ || _) eqn:Ei; [simplify_eq; congruence|]. apply orb_false_iff in Ei as [I1 I2].
    split; [intros Hin%memb_set_subset1; congruence|]. intros Hin%memb_set_subset1. rewrite Hin in I2. cbn in I2. lia.
  - done.
  - destruct (_ && _) eqn:Ei; [|simplify_eq; congruence]. apply andb_prop in Ei as [I1%memb_set_subset1 I2]. split; [done|lia].
  - destruct (_ && _) eqn:Ei; [|simplify_eq; congruence]. apply andb_prop in Ei as [I1%memb_set_subset1 I2]. split; [done|lia].
Qed.

(** A join message leads to COMMIT only when it completes the agreement. *)
Lemma join_handler_agreement len conv now e j s s' :
  0 <= token_ring_id_seq s -> Z.max (token_ring_id_seq s) (join_seq conv j) < 2 ^ 64 - 4 ->
  message_handler_memb_join cfg len conv now e j s = Some s' ->
  memb_state s <> MEMB_STATE_COMMIT -> memb_state s' = MEMB_STATE_COMMIT ->
  my_ring_id s' = mk_ring (my_id s) (Z.max (token_ring_id_seq s) (join_seq conv j) + 4)
  /\ agreement (local_join conv j) s.
Proof.
  intros H0 Hm. unfold message_handler_memb_join. destruct (negb _); [intros [= <-]; congruence|]. cbn zeta. fold (local_join conv j).
  assert (Hj : j_ring_seq (local_join conv j) = join_seq conv j) by now destruct conv.
  rewrite <- Hj in *. set (j1 := local_join conv j) in *. clearbody j1. clear Hj.
  destruct (c_true _); [intros [= <-]; congruence|].
  set (s1 := if token_ring_id_seq s <? j_ring_seq j1 then _ else s).
  assert (F : token_ring_id_seq s1 = Z.max (token_ring_id_seq s) (j_ring_seq j1) /\ memb_state s1 = memb_state s
              /\ my_id s1 = my_id s /\ (agreement j1 s1 -> agreement j1 s)).
  { subst s1. destruct (Z.ltb_spec (token_ring_id_seq s) (j_ring_seq j1)); cbn; (split; [lia|]);
      (split_and!; [done..|]); [|done]. intros [A B C D]. now split. }
  clearbody s1. destruct F as (E1 & E2 & E3 & F). rewrite <- E1, <- E3, <- E2 in *.
  assert (Hp : memb_join_process cfg j1 s1 = Some s' -> memb_state s1 <> MEMB_STATE_COMMIT ->
    memb_state s' = MEMB_STATE_COMMIT ->
    my_ring_id s' = mk_ring (my_id s1) (token_ring_id_seq s1 + 4) /\ agreement j1 s).
  { intros H Hn Hc. apply join_process_cause in H as [R A]; [|done|lia|done]. auto. }
  destruct (memb_state s1) eqn:Es.
  - destruct (ignore_join_under_operational _ _); [intros [= <-]; congruence|auto].
  - auto.
  - destruct (join_from_new_ring _ _); [|intros [= <-]; congruence].
    intros (x & _ & [_ E]%key_gather_enter%moved_state)%bind_Some. congruence.
  - destruct (join_from_new_ring _ _); [|intros [= <-]; congruence].
    intros (x & _ & (y & _ & [_ E]%key_gather_enter%moved_state)%bind_Some)%bind_Some. congruence.
Qed.

Lemma mcast_cause m s r s' :
  message_handler_mcast cfg alloc FRAME_SIZE_MAX m s = Some (r, s') -> memb_state s' <> memb_state s ->
  memb_state s = MEMB_STATE_OPERATIONAL /\ m_ring_id (local_hdr m) <> my_ring_id s.
Proof.
  unfold message_handler_mcast. destruct (negb _); [now intros [= _ <-]|].
  destruct (FRAME_SIZE_MAX <? _); [done|]. cbn zeta. destruct (bool_decide_reflect (my_ring_id s <> m_ring_id (local_hdr m))).
  - intros (s1 & H1%foreign_cause & [= _ <-])%bind_Some Hn. split; [|congruence].
    destruct H1 as [->|[H|[H1 H2] ] ]; congruence.
  - intros ([s1|] & H1 & H)%bind_Some Hn; [|revert H; intros [= _ <-]; congruence]. destruct Hn.
    apply (steady_mcast_store key) in H1.
    apply bind_Some in H as (s2 & H2%(frame_update_aru key) & (s3 & H3 & [= _ <-])%bind_Some).
    apply state_key. rewrite <- H1, <- H2. destruct (is_operational s2); [now apply (steady_deliver key) in H3|now simplify_eq].
Qed.

Lemma detect_cause len conv d s s' :
  message_handler_memb_merge_detect cfg len conv d s = Some s' -> memb_state s' <> memb_state s ->
  memb_state s = MEMB_STATE_OPERATIONAL /\ d_ring_id (local_detect conv d) <> my_ring_id s.
Proof.
  unfold message_handler_memb_merge_detect. destruct (negb _); [now intros [= <-]|]. cbn zeta. fold (local_detect conv d).
  destruct (bool_decide_reflect (my_ring_id s = d_ring_id (local_detect conv d))); [now intros [= <-]|].
  intros H%foreign_cause Hn. split; [|congruence]. destruct H as [->|[H|[H1 H2] ] ]; congruence.
Qed.

(** ** The token *)

(** What the token handler decides by, apart from the token itself. *)
Definition rkey (s : srp) : memb_state_t * ring_id * Z * Z * Z * Z * Z :=
  (memb_state s, my_ring_id s, my_retrans_flg_count s, my_rotation_counter s, my_install_seq s,
   my_token_seq s, my_aru_count s).

#[local] Instance rkey_minor : Minor rkey.
Proof. split; try apply _; [reflexivity|]. unfold rkey. cbn. congruence. Qed.

#[local] Instance rkey_steady : Steady rkey.
Proof. split; try apply _. reflexivity. Qed.

Lemma rkey_fields s s' :
  rkey s' = rkey s ->
  memb_state s' = memb_state s /\ my_ring_id s' = my_ring_id s
  /\ my_retrans_flg_count s' = my_retrans_flg_count s /\ my_rotation_counter s' = my_rotation_counter s
  /\ my_install_seq s' = my_install_seq s /\ my_token_seq s' = my_token_seq s /\ my_aru_count s' = my_aru_count s.
Proof. unfold rkey. intros H. injection H. auto 10. Qed.

(** Nothing the token handler looks at has changed, or the processor gathers. *)
Definition quiet (s s' : srp) : Prop := rkey s' = rkey s \/ memb_state s' = MEMB_STATE_GATHER.

#[local] Instance quiet_trans : Transitive quiet.
Proof.
  intros a b c [H1|H1] [H2|H2]; unfold quiet; [left; congruence|now right| |now right].
  right. apply rkey_fields in H2 as [-> _]. done.
Qed.

Lemma quiet_foreign a g1 g2 s s' : foreign_message cfg a g1 g2 s = Some s' -> quiet s s'.
Proof.
  unfold foreign_message.
  assert (H : forall g, (s ← merge_proc_list [a] s; memb_state_gather_enter cfg g s) = Some s' -> quiet s s').
  { intros g (s1 & _ & [_ H]%key_gather_enter%moved_state)%bind_Some. now right. }
  destruct (memb_state s); [apply H|destruct (memb_set_subset _ _); [|apply H]|..]; (intros [= <-]; now left).
Qed.

Lemma quiet_mcast m s r s' : message_handler_mcast cfg alloc FRAME_SIZE_MAX m s = Some (r, s') -> quiet s s'.
Proof.
  unfold message_handler_mcast. destruct (negb _); [intros [= _ <-]; now left|].
  destruct (FRAME_SIZE_MAX <? _); [done|]. cbn zeta. destruct (bool_decide _).
  - intros (s1 & H1%quiet_foreign & [= _ <-])%bind_Some. exact H1.
  - intros ([s1|] & H1 & H)%bind_Some; [|revert H; intros [= _ <-]; now left]. left.
    apply (steady_mcast_store rkey) in H1.
    apply bind_Some in H as (s2 & H2%(frame_update_aru rkey) & (s3 & H3 & [= _ <-])%bind_Some).
    rewrite <- H1, <- H2. destruct (is_operational s2); [now apply (steady_deliver rkey) in H3|now simplify_eq].
Qed.

Lemma quiet_join len conv now e j s s' :
  flushing s = true -> message_handler_memb_join cfg len conv now e j s = Some s' -> quiet s s'.
Proof.
  intros Hf. unfold message_handler_memb_join. destruct (negb _); [intros [= <-]; now left|]. cbn zeta.
  set (j1 := if conv then memb_join_endian_convert j else j). clearbody j1.
  destruct (c_true _); [intros [= <-]; now left|].
  set (s1 := if token_ring_id_seq s <? j_ring_seq j1 then _ else s).
  assert (H1 : flushing s1 = true /\ rkey s1 = rkey s) by (subst s1; destruct (_ <? _); done).
  clearbody s1. destruct H1 as [F1 K1]. intros H. transitivity s1; [now left|]. clear K1.
  assert (Hp : memb_join_process cfg j1 s1 = Some s' -> quiet s1 s')
    by (intros Hp; left; now apply (join_process_flushing cfg rkey) in Hp).
  destruct (memb_state s1).
  - destruct (ignore_join_under_operational _ _); [simplify_eq; now left|auto].
  - auto.
  - destruct (join_from_new_ring _ _); [|simplify_eq; now left].
    apply bind_Some in H as (x & _ & [_ E]%key_gather_enter%moved_state). now right.
  - destruct (join_from_new_ring _ _); [|simplify_eq; now left].
    apply bind_Some in H as (x & _ & (y & _ & [_ E]%key_gather_enter%moved_state)%bind_Some). now right.
Qed.

Lemma flush_deliver_cause f s s' :
  flushing s = true -> flush_deliver cfg alloc FRAME_SIZE_MAX f s = Some s' ->
  quiet s s' /\ flushing s' = true /\ (memb_state s' <> memb_state s -> flush_cause s f).
Proof.
  intros Hf H. destruct f as [m|len conv d|len conv now e j|len x]; cbn in H.
  - destruct (message_handler_mcast _ _ _ m s) as [ [y s1]|] eqn:E; [|done]. cbn in H. simplify_eq.
    split; [eapply quiet_mcast, E|]. split; [|eapply mcast_cause, E].
    apply stays_mcast in E as [ [_ _ -> _] _]. done.
  - split; [|split; [|eapply detect_cause, H] ].
    + revert H. unfold message_handler_memb_merge_detect. destruct (negb _); [intros [= <-]; now left|].
      cbn zeta. destruct (bool_decide _); [intros [= <-]; now left|apply quiet_foreign].
    + apply stays_merge_detect in H as [ [_ _ -> _] _]. done.
  - split; [eapply quiet_join, H; done|]. split; [apply join_handler_flushing in H as [ [_ _ -> _] _]; done|].
    intros Hn. cbn. pose proof (join_handler_flushing _ _ _ _ _ _ _ _ Hf H) as [_ [S|S] ]; [done|].
    destruct (memb_state s) eqn:Es; [|congruence|auto..]. destruct Hn. revert H.
    unfold message_handler_memb_join. destruct (negb _); [intros [= <-]; congruence|]. cbn zeta.
    destruct (c_true _); [intros [= <-]; congruence|].
    set (s1 := if token_ring_id_seq s <? _ then _ else s).
    assert (E1 : flushing s1 = true /\ memb_state s1 = memb_state s) by (subst s1; destruct (_ <? _); done).
    clearbody s1. destruct E1 as [F1 E1]. rewrite E1, Es. destruct (ignore_join_under_operational _ _); [intros [= <-]; congruence|].
    intros H%(join_process_flushing cfg key)%state_key; [|done]. congruence.
  - simplify_eq. split; [left; apply (steady_hold_cancel_handler rkey)|].
    pose proof (steady_hold_cancel_handler key cfg len x s) as K. split; [apply key_fields in K as (_ & _ & _ & _ & _ & K); congruence|].
    intros Hn. destruct Hn. now apply state_key.
Qed.

Lemma flush_cause_key s s1 f : rkey s1 = rkey s -> flush_cause s1 f -> flush_cause s f.
Proof. intros (E1 & E2 & _)%rkey_fields. destruct f; cbn; rewrite ?E1, ?E2; done. Qed.

Lemma foldl_bind_None {A S} (f : A -> S -> option S) l : foldl (fun acc a => acc ≫= f a) None l = None.
Proof. now induction l. Qed.

Lemma flush_cause_all fl s s' :
  totemnet_recv_flush cfg alloc FRAME_SIZE_MAX fl s = Some s' ->
  quiet s s' /\ (memb_state s' <> memb_state s -> Exists (flush_cause s) fl).
Proof.
  unfold totemnet_recv_flush. intros (s2 & H & [= <-])%bind_Some.
  cut (quiet s s2 /\ (memb_state s2 <> memb_state s -> Exists (flush_cause s) fl)); [done|].
  set (s1 := s <| flushing := true |>) in H. change (quiet s1 s2 /\ (memb_state s2 <> memb_state s1 -> Exists (flush_cause s1) fl)).
  assert (Hf : flushing s1 = true) by done. clearbody s1. clear s. revert s1 Hf H.
  induction fl as [|f fl IH]; intros s Hf H; cbn in H; [simplify_eq; split; [now left|done]|].
  destruct (flush_deliver cfg alloc FRAME_SIZE_MAX f s) as [s1|] eqn:E1; [|now rewrite foldl_bind_None in H].
  destruct (flush_deliver_cause f s s1 Hf E1) as (Q1 & F1 & C1). destruct (IH s1 F1 H) as [Q2 C2]. clear IH H E1.
  split; [now transitivity s1|]. intros Hn.
  destruct (decide (memb_state s1 = memb_state s)) as [E|E]; [|left; auto].
  destruct Q1 as [K1|G1].
  - right. rewrite <- E in Hn. apply C2 in Hn. eapply Exists_impl; [exact Hn|]. intros f0. now apply flush_cause_key.
  - exfalso. destruct Q2 as [ [K2 _]%rkey_fields|G2]; congruence.
Qed.

(** The rotation counter comes to two only from one, in the third rotation
    without retransmission or a later one, when everybody has everything. *)
Lemma recovery_count_two t s :
  my_rotation_counter (recovery_count t s) = 2 ->
  my_rotation_counter s = 1 /\ 2 <= my_retrans_flg_count s /\ t_retrans_flg t = 0
  /\ sq_lte_compare (my_install_seq s) (t_aru t) = true.
Proof.
  unfold recovery_count. cbn zeta.
  set (s1 := if t_retrans_flg t =? 0 then s <| my_retrans_flg_count ::= Z.add 1 |> else s <| my_retrans_flg_count := 0 |>).
  assert (H1 : my_retrans_flg_count s1 = (if t_retrans_flg t =? 0 then 1 + my_retrans_flg_count s else 0)
    /\ my_install_seq s1 = my_install_seq s /\ my_rotation_counter s1 = my_rotation_counter s)
    by (subst s1; destruct (_ =? 0); done). clearbody s1. destruct H1 as (C1 & I1 & R1).
  set (s2 := if my_retrans_flg_count s1 =? 2 then s1 <| my_install_seq := t_seq t |> else s1).
  assert (H2 : my_retrans_flg_count s2 = my_retrans_flg_count s1
    /\ (my_retrans_flg_count s1 <> 2 -> my_install_seq s2 = my_install_seq s1) /\ my_rotation_counter s2 = my_rotation_counter s1)
    by (subst s2; destruct (Z.eqb_spec (my_retrans_flg_count s1) 2); done). clearbody s2. destruct H2 as (C2 & I2 & R2).
  set (s3 := if _ && _ then s2 <| my_received_flg := true |> <| my_deliver_memb_list := _ |> else s2).
  assert (H3 : my_retrans_flg_count s3 = my_retrans_flg_count s2 /\ my_install_seq s3 = my_install_seq s2
    /\ my_rotation_counter s3 = my_rotation_counter s2) by (subst s3; destruct (_ && _); done).
  clearbody s3. destruct H3 as (C3 & I3 & R3).
  destruct (3 <=? my_retrans_flg_count s3) eqn:E3; cbn [andb]; [|cbn; lia].
  destruct (sq_lte_compare _ _) eqn:E4; cbn; [|lia]. intros E5.
  destruct (Z.eqb_spec (t_retrans_flg t) 0) as [Ht|Ht]; [|lia].
  split_and!; [lia|lia|done|]. rewrite <- E4, I3, I2, I1 by lia. reflexivity.
Qed.

Lemma recovery_retrans_rkey t s :
  rkey (snd (recovery_retrans_flag t s)) = rkey s /\ t_aru (fst (recovery_retrans_flag t s)) = t_aru t.
Proof.
  unfold recovery_retrans_flag. destruct (negb _); [destruct (_ =? 0)|destruct (_ && _)]; (split; [|done]); cbn [snd]; done.
Qed.

Lemma deliver_keeps_token skip e s s' :
  messages_deliver_to_app skip e s = Some s' -> orf_token_retransmit s' = orf_token_retransmit s.
Proof.
  unfold messages_deliver_to_app. cbn zeta. destruct (negb _); [done|].
  apply (loop_inv (fun x => orf_token_retransmit x = orf_token_retransmit s)); [|done].
  intros i s2 r H2. unfold messages_deliver_step. cbn zeta. rewrite <- H2. clear H2.
  destruct (negb _); [now intros [= <-]|]. intros ([e2|m] & _ & H)%bind_Some.
  - destruct skip; revert H; intros [= <-]; done.
  - destruct (skip && _); revert H; intros [= <-]; done.
Qed.

#[local] Instance token_kept_minor : Minor orf_token_retransmit.
Proof. split; try apply _; [reflexivity|]. intros. assumption. Qed.

(** The token that is passed on is kept. *)
Lemma token_pass_sent f t s s' :
  token_pass cfg alloc callback_fn f t s = Some s' ->
  exists t1 s1,
    (if in_recovery s then recovery_token cfg (t <| t_token_seq ::= fun q => u32 (q + 1) |>) (s <| my_token_seq := t_token_seq t |>)
     else Some (t <| t_token_seq ::= fun q => u32 (q + 1) |>, s <| my_token_seq := t_token_seq t |>)) = Some (t1, s1)
    /\ memb_state s' = memb_state s1
    /\ orf_token_retransmit s' = Some (SentOrf (t1 <| t_nodeid := my_id s1 |>)).
Proof.
  unfold token_pass. cbn zeta. set (s0 := s <| my_token_seq := _ |>). change (in_recovery s0) with (in_recovery s). clearbody s0.
  intros ([t1 s1] & H1 & (s2 & H2 & (s3 & H3 & H4)%bind_Some)%bind_Some)%bind_Some. exists t1, s1. split; [exact H1|]. clear H1.
  assert (F : memb_state s2 = memb_state s1 /\ orf_token_retransmit s2 = Some (SentOrf (t1 <| t_nodeid := my_id s1 |>))).
  { pose proof H2 as K2. apply (steady_token_send key), state_key in K2. split; [exact K2|].
    unfold token_send in H2. cbn zeta in H2. apply bind_Some in H2 as ([] & _ & [= <-]). destruct f; reflexivity. }
  clear H2. destruct F as [<- <-].
  assert (F : key s3 = key s2 /\ orf_token_retransmit s3 = orf_token_retransmit s2).
  { destruct (is_operational s2); [|now simplify_eq]. split; [now apply (steady_deliver key) in H3|eapply deliver_keeps_token, H3]. }
  clear H3. destruct F as [K3 <-]. apply state_key in K3. rewrite <- K3. clear K3.
  pose proof H4 as H5. apply (frame_callbacks key), state_key in H4. apply (frame_callbacks orf_token_retransmit) in H5.
  rewrite H4, H5. clear H4 H5. unfold start_token_hold_retransmit_timeout.
  split; [apply state_key|]; destruct (_ && _);
    rewrite ?(frame_emit key), ?(frame_reset_token_retransmit key), ?(frame_reset_token_timeout key),
            ?(frame_emit orf_token_retransmit), ?(frame_reset_token_retransmit orf_token_retransmit),
            ?(frame_reset_token_timeout orf_token_retransmit) by done; done.
Qed.

(** The conditions on the counters and on the token passed on. *)
Definition install_ready (s s' : srp) : Prop :=
  memb_state s = MEMB_STATE_RECOVERY /\ memb_state s' = MEMB_STATE_OPERATIONAL
  /\ my_rotation_counter s = 1 /\ 2 <= my_retrans_flg_count s
  /\ exists t', orf_token_retransmit s' = Some (SentOrf t')
       /\ t_retrans_flg t' = 0 /\ sq_lte_compare (my_install_seq s) (t_aru t') = true.

Lemma install_ready_key s0 s s' x :
  rkey s = rkey s0 -> memb_state x = memb_state s' -> orf_token_retransmit x = orf_token_retransmit s' ->
  install_ready s s' -> install_ready s0 x.
Proof.
  intros (E1 & _ & E3 & E4 & E5 & _)%rkey_fields F1 F2. unfold install_ready. rewrite F1, F2, E1, E3, E4, E5. done.
Qed.

Lemma token_pass_cause f t s s' :
  token_pass cfg alloc callback_fn f t s = Some s' -> memb_state s' <> memb_state s -> install_ready s s'.
Proof.
  intros (t1 & s1 & H & E & S)%token_pass_sent Hn. rewrite E in Hn. unfold install_ready. rewrite E, S. clear E S.
  unfold in_recovery in H. destruct (bool_decide_reflect (memb_state s = MEMB_STATE_RECOVERY)) as [Hr|Hr];
    [|revert H; intros [= _ <-]; cbn in Hn; congruence].
  split; [done|]. revert H. unfold recovery_token.
  set (s2 := s <| my_token_seq := _ |>). set (t2 := t <| t_token_seq ::= _ |>).
  assert (E2 : memb_state s2 = memb_state s /\ my_rotation_counter s2 = my_rotation_counter s
    /\ my_retrans_flg_count s2 = my_retrans_flg_count s /\ my_install_seq s2 = my_install_seq s) by done.
  clearbody s2. destruct E2 as (E1 & E2 & E3 & E4). rewrite <- E1, <- E2, <- E3, <- E4 in *. clear E1 E2 E3 E4.
  pose proof (recovery_retrans_rkey t2 s2) as [K A]. pose proof (key_recovery_retrans t2 s2) as K'.
  destruct (recovery_retrans_flag t2 s2) as [t3 s3]. cbn [fst snd] in K, A, K'. cbn zeta. clearbody t2.
  apply rkey_fields in K as (E1 & _ & E2 & E3 & E4 & _). rewrite <- E1, <- E2, <- E3, <- E4 in *.
  destruct (Z.eqb_spec (my_rotation_counter (recovery_count t3 s3)) 2) as [R|R].
  - apply recovery_count_two in R as (R1 & R2 & R3 & R4).
    intros (s4 & [_ H4]%key_operational_enter%moved_state & [= <- <-])%bind_Some.
    split_and!; [exact H4|done|done|]. eexists. split; [reflexivity|]. split; [exact R3|exact R4].
  - intros [= _ <-]. destruct Hn. apply state_key, key_recovery_count.
Qed.

Lemma token_update_aru_fields last t s :
  let s' := snd (token_update_aru last t s) in
  my_aru_count s' <= Z.max 0 (my_aru_count s + 1) /\ rkey (s' <| my_aru_count := my_aru_count s |>) = rkey s.
Proof. unfold token_update_aru. cbn zeta. cbn [snd]. destruct (_ && _); (split; [cbn; lia|done]). Qed.

Lemma token_process_cause f t s s' :
  token_process cfg alloc callback_fn f t s = Some s' -> memb_state s' <> memb_state s ->
  (memb_state s' = MEMB_STATE_GATHER /\ not_receiving cfg s) \/ install_ready s s'.
Proof.
  unfold token_process. intros (s1 & H1%(frame_callbacks rkey) & H)%bind_Some Hn. cbn zeta in H.
  apply bind_Some in H as ([ [f2 t2] s2] & H2%(steady_token_use rkey) & H).
  assert (K2 : rkey s2 = rkey s) by (rewrite H2, <- H1; reflexivity). clear H1 H2.
  pose proof (token_update_aru_fields (my_last_aru s1) t2 s2) as F. cbn zeta in F.
  destruct (token_update_aru (my_last_aru s1) t2 s2) as [t3 s3]. cbn [snd] in F. destruct F as [Fc Fk].
  apply bind_Some in H as (s4 & H & [= <-]).
  pose proof (frame_heartbeat key f2 s4) as Kh%state_key.
  pose proof (frame_heartbeat orf_token_retransmit f2 s4) as Kt. rewrite Kh in *.
  rewrite K2 in Fk. apply rkey_fields in K2 as (_ & _ & _ & _ & _ & _ & Ea). rewrite Ea in Fc. clear Ea.
  destruct (token_failed_to_receive cfg t3 s3) eqn:Ef.
  - left. apply bind_Some in H as (s5 & _ & [_ H6]%key_gather_enter%moved_state). split; [exact H6|].
    unfold token_failed_to_receive in Ef. unfold not_receiving. lia.
  - right. apply token_pass_cause in H.
    + apply (install_ready_key _ (s3 <| my_aru_count := my_aru_count s2 |>) s4); done.
    + intros E. destruct Hn. rewrite E. now apply rkey_fields in Fk as [Fk _].
Qed.

(** Once the processor gathers, the rest of the handler leaves it there. *)
Lemma token_rest_gather t s s' :
  memb_state s = MEMB_STATE_GATHER ->
  match memb_state s with
  | MEMB_STATE_COMMIT => Some (heartbeat (token_forward s) s)
  | _ =>
      s1 ← (if is_operational s then messages_free (t_aru t) s else Some s);
      if bool_decide (t_ring_id t <> my_ring_id s1) then Some (heartbeat (token_forward s) s1)
      else if sq_lte_compare (t_token_seq t) (my_token_seq s1) then Some s1
      else token_process cfg alloc callback_fn (token_forward s) t s1
  end = Some s' -> memb_state s' = MEMB_STATE_GATHER.
Proof.
  intros E. assert (is_operational s = false) as -> by (unfold is_operational; now rewrite E).
  rewrite E. cbn [mbind option_bind]. destruct (bool_decide _); [intros [= <-]; rewrite <- E; apply state_key, (frame_heartbeat key)|].
  destruct (sq_lte_compare _ _); [now intros [= <-]|]. intros H.
  destruct (decide (memb_state s' = memb_state s)) as [Eq|Eq]; [congruence|].
  apply token_process_cause in H as [ [H _]|(H & _)]; congruence.
Qed.

Lemma token_handler_cause len conv fl t s s' :
  message_handler_orf_token cfg alloc callback_fn FRAME_SIZE_MAX len conv fl t s = Some s' ->
  memb_state s' <> memb_state s ->
  (memb_state s' = MEMB_STATE_GATHER /\ Exists (flush_cause s) fl)
  \/ (fresh_token (local_token conv t) s
      /\ ((memb_state s' = MEMB_STATE_GATHER /\ not_receiving cfg s) \/ install_ready s s')).
Proof.
  unfold message_handler_orf_token. destruct (negb _); [now intros [= <-]|].
  destruct (orf_token_discard s); [now intros [= <-]|]. cbn zeta. fold (local_token conv t).
  set (tl := local_token conv t). clearbody tl. intros (s1 & H1%flush_cause_all & H)%bind_Some Hn.
  pose proof (frame_token_activity rkey cfg tl s) as Ka. set (sa := token_activity cfg tl s) in *. clearbody sa.
  assert (H1' : quiet s s1 /\ (memb_state s1 <> memb_state s -> Exists (flush_cause s) fl)).
  { destruct H1 as [Q C]. split; [transitivity sa; [now left|done]|].
    intros N. eapply Exists_impl; [apply C|intros f; now apply flush_cause_key].
    apply rkey_fields in Ka as [-> _]. done. }
  clear H1 Ka sa. destruct H1' as [Q C].
  pose proof (frame_token_hold rkey cfg s1) as K2. set (s2 := token_hold cfg s1) in *. clearbody s2.
  destruct (decide (memb_state s1 = memb_state s)) as [E|E].
  2:{ left. split; [|auto]. destruct Q as [ [Q _]%rkey_fields|Q]; [done|]. apply rkey_fields in K2 as [K2 _].
      apply (token_rest_gather tl s2); [congruence|exact H]. }
  clear C. assert (Hh : forall f x, memb_state x = memb_state s2 -> memb_state (heartbeat f x) = memb_state s).
  { intros f x Hx. rewrite (state_key x) by apply (frame_heartbeat key). rewrite Hx.
    apply rkey_fields in K2 as [-> _]. done. }
  destruct (memb_state s2) eqn:Es2; try (revert H; intros [= <-]; exfalso; apply Hn, Hh; assumption).
  all: apply bind_Some in H as (s3 & H3 & H).
  all: assert (K3 : rkey s3 = rkey s2) by (revert H3; destruct (is_operational s2);
                                         [apply (steady_messages_free rkey)|now intros [= <-] ]).
  all: assert (E3 : memb_state s3 = memb_state s2) by now apply rkey_fields in K3.
  all: destruct (bool_decide_reflect (t_ring_id tl <> my_ring_id s3)) as [B|B];
    [revert H; intros [= <-]; exfalso; apply Hn, Hh; congruence|].
  all: destruct (sq_lte_compare _ _) eqn:Eq;
    [revert H; intros [= <-]; exfalso; apply Hn; rewrite E3; apply rkey_fields in K2 as [-> _]; done|].
  all: apply token_process_cause in H; [|rewrite E3; apply rkey_fields in K2 as [-> _]; congruence].
  all: destruct Q as [Q|Q]; [|exfalso; apply rkey_fields in K2 as [K2 _];
    destruct H as [ [H _]|(H & _)]; congruence].
  all: right; assert (K : rkey s3 = rkey s) by congruence; pose proof (rkey_fields _ _ K) as (_ & F2 & _ & _ & _ & F6 & F7).
  all: unfold fresh_token; rewrite <- F2, <- F6; (split; [split; [now apply dec_stable|exact Eq]|]).
  all: destruct H as [ [H1 H2]|H]; [left; split; [exact H1|unfold not_receiving in *; now rewrite <- F7]|].
  all: right; now apply (install_ready_key _ s3 s').
Qed.

(** ** Events a processor cannot ignore *)

(** When an event may leave the membership state as it is: the loss of the token
    always leads to GATHER, and so do a missing consensus, the last interface and,
    in the OPERATIONAL state, messages of another ring; a commit token that fits
    is always taken. *)
Definition may_stay (e : srp_event) (s : srp) : Prop :=
  match e with
  | EvTokenTimer | EvHeartbeatTimer | EvForceGather => memb_state s = MEMB_STATE_GATHER
  | EvConsensusTimer => memb_state s <> MEMB_STATE_GATHER -> forall a, prospect s a -> noted s a
  | EvIfaceChange _ _ _ n => memb_state s <> MEMB_STATE_GATHER -> iface_changes s + 1 < n
  | EvMcast m =>
      check_mcast_sanity (msg_len m) = true -> memb_state s = MEMB_STATE_OPERATIONAL ->
      m_ring_id (local_hdr m) = my_ring_id s
  | EvMergeDetect len conv d =>
      check_memb_merge_detect_sanity len = true -> memb_state s = MEMB_STATE_OPERATIONAL ->
      d_ring_id (local_detect conv d) = my_ring_id s
  | EvCommitToken len conv c =>
      check_memb_commit_token_sanity len (raw_count conv (length (ct_addr c))) conv = true ->
      let c := local_commit conv c in
      match memb_state s with
      | MEMB_STATE_GATHER =>
          same_members (ct_addr c) (memb_set_subtract (my_proc_list s) (my_failed_list s)) ->
          ring_seq (ct_ring_id c) <= ring_seq (my_ring_id s)
      | MEMB_STATE_COMMIT =>
          ring_seq (ct_ring_id c) = ring_seq (my_ring_id s) -> ct_memb_index c <> ct_addr_entries c
      | _ => True
      end
  | _ => True
  end.

Lemma gather_enter_state g s s' : memb_state_gather_enter cfg g s = Some s' -> memb_state s' = MEMB_STATE_GATHER.
Proof. intros H%key_gather_enter%moved_state. apply H. Qed.

Lemma foreign_operational a g1 g2 s s' :
  memb_state s = MEMB_STATE_OPERATIONAL -> foreign_message cfg a g1 g2 s = Some s' ->
  memb_state s' = MEMB_STATE_GATHER.
Proof. unfold foreign_message. intros ->. now intros (s1 & _ & H%gather_enter_state)%bind_Some. Qed.

Lemma token_timeout_gathers s s' :
  timer_function_orf_token_timeout cfg s = Some s' -> memb_state s' = MEMB_STATE_GATHER.
Proof.
  unfold timer_function_orf_token_timeout. destruct (memb_state s).
  - apply gather_enter_state.
  - now intros (s1 & _ & H%gather_enter_state)%bind_Some.
  - apply gather_enter_state.
  - unfold memb_recovery_state_token_loss. now intros (s1 & H%gather_enter_state & [= <-])%bind_Some.
Qed.

Lemma consensus_timeout_spec s s' :
  memb_state_consensus_timeout_expired cfg s = Some s' ->
  (memb_state s' = memb_state s /\ forall a, prospect s a -> noted s a)
  \/ (memb_state s' = MEMB_STATE_GATHER /\ exists a, prospect s a /\ consensus_isset a (consensus_list s) = false).
Proof.
  unfold memb_state_consensus_timeout_expired. intros (agreed & Ha & H)%bind_Some. destruct agreed.
  - left. split; [|now apply consensus_agreed_spec]. apply bind_Some in H as (s1 & H1%(frame_consensus_set key) & [= <-]).
    apply state_key. rewrite (frame_reset_token_timeout key), H1. reflexivity.
  - right. split; [|now apply consensus_not_agreed]. now apply bind_Some in H as (s1 & _ & H%gather_enter_state).
Qed.

Lemma iface_change_spec id r ready n s s' :
  main_iface_change_fn cfg id r ready n s = Some s' ->
  (memb_state s' = memb_state s /\ iface_changes s + 1 < n) \/ (memb_state s' = MEMB_STATE_GATHER /\ n <= iface_changes s + 1).
Proof.
  unfold main_iface_change_fn. cbn zeta. set (s1 := if c_true (my_id s) then s else _).
  assert (E1 : memb_state s1 = memb_state s /\ iface_changes s1 = iface_changes s) by (subst s1; destruct (c_true _); done).
  clearbody s1. destruct E1 as [<- <-]. set (s2 := if iface_changes s1 =? 0 then _ else _).
  assert (E2 : memb_state s2 = memb_state s1 /\ iface_changes s2 = 1 + iface_changes s1)
    by (subst s2; destruct (_ =? 0), ready; done).
  clearbody s2. destruct E2 as [<- E2]. destruct (Z.leb_spec n (iface_changes s2)).
  - intros H1%gather_enter_state. right. split; [done|lia].
  - intros [= <-]. left. split; [done|lia].
Qed.

Lemma step_may_stay e s s' :
  srp_step cfg alloc callback_fn FRAME_SIZE_MAX e s = Some s' -> memb_state s' = memb_state s -> may_stay e s.
Proof.
  destruct e; cbn [srp_step may_stay]; try done; intros H Hs.
  - intros Hc Ho. destruct (message_handler_mcast _ _ _ m s) as [ [r x]|] eqn:E; [|done]. cbn in H. simplify_eq.
    revert E. unfold message_handler_mcast. rewrite Hc. cbn [negb]. destruct (FRAME_SIZE_MAX <? _); [done|]. cbn zeta.
    destruct (bool_decide_reflect (my_ring_id s <> m_ring_id (local_hdr m))) as [B|B]; [|intros _; symmetry; now apply dec_stable].
    intros (s1 & H1%foreign_operational & [= _ <-])%bind_Some; [congruence|done].
  - intros Hc Ho. revert H. unfold message_handler_memb_merge_detect. rewrite Hc. cbn [negb]. cbn zeta. fold (local_detect convert d).
    destruct (bool_decide_reflect (my_ring_id s = d_ring_id (local_detect convert d))) as [B|B]; [done|].
    intros H%foreign_operational; [congruence|done].
  - intros Hc. revert H. unfold message_handler_memb_commit_token. rewrite Hc. cbn [negb]. cbn zeta. fold (local_commit convert c).
    generalize (local_commit convert c). intros lc. destruct (memb_state s) eqn:Es; [done|..|done].
    + intros H L%memb_set_equal_same. rewrite L in H. cbn [andb] in H.
      destruct (Z.ltb_spec (ring_seq (my_ring_id s)) (ring_seq (ct_ring_id lc))); [|lia].
      apply key_commit_enter in H. unfold key in H. injection H as _ _ _ H _ _. congruence.
    + intros H L1 L2. rewrite L1, L2, !Z.eqb_refl in H. cbn [andb] in H.
      apply key_recovery_enter, moved_state in H as [_ H]. congruence.
  - apply token_timeout_gathers in H. congruence.
  - intros Hn. apply consensus_timeout_spec in H as [ [_ H]|[H _] ]; [done|congruence].
  - apply token_timeout_gathers in H. congruence.
  - apply token_timeout_gathers in H. congruence.
  - intros Hn. apply iface_change_spec in H as [ [_ H]|[H _] ]; [done|congruence].
Qed.

End Causes.
