(* ===== verification/TotemSrpProps.v ===== *)
(** * Totem single ring protocol: membership theorems

    The transitions of the membership state machine, labelled with the events
    that cause them, and the growth of the ring ids over a run. *)
From S2P Require Import Prelude VoteQuorum Endian SortQueue CsQueue TotemMemb TotemSrp TotemSrpOps TotemSrpHandlers TotemSrpFrame TotemSrpTheory TotemSrpMemb.

(** The transitions of the membership state an event may cause. *)
Inductive memb_edge (cfg : totem_config) (e : srp_event) (s s' : srp) : Prop :=
| edge_stay :
    memb_state s' = memb_state s -> may_stay e s -> memb_edge cfg e s s'
| edge_gather :
    memb_state s <> MEMB_STATE_GATHER -> memb_state s' = MEMB_STATE_GATHER -> gather_cause cfg e s ->
    memb_edge cfg e s s'
| edge_commit_join len conv now empty j :
    e = EvJoin len conv now empty j ->
    memb_state s = MEMB_STATE_OPERATIONAL \/ memb_state s = MEMB_STATE_GATHER ->
    memb_state s' = MEMB_STATE_COMMIT ->
    join_heeded (local_join conv j) s -> agreement (local_join conv j) s ->
    my_ring_id s' = mk_ring (my_id s) (Z.max (token_ring_id_seq s) (join_seq conv j) + 4) ->
    memb_edge cfg e s s'
| edge_commit_token len conv c :
    e = EvCommitToken len conv c ->
    memb_state s = MEMB_STATE_GATHER -> memb_state s' = MEMB_STATE_COMMIT ->
    my_ring_id s' = ct_ring_id (local_commit conv c) ->
    ring_seq (my_ring_id s) < ring_seq (my_ring_id s') ->
    same_members (ct_addr (local_commit conv c)) (memb_set_subtract (my_proc_list s) (my_failed_list s)) ->
    memb_edge cfg e s s'
| edge_recovery len conv c :
    e = EvCommitToken len conv c ->
    memb_state s = MEMB_STATE_COMMIT -> memb_state s' = MEMB_STATE_RECOVERY ->
    ring_seq (ct_ring_id (local_commit conv c)) = ring_seq (my_ring_id s) ->
    ct_memb_index (local_commit conv c) = ct_addr_entries (local_commit conv c) ->
    memb_edge cfg e s s'
| edge_operational len conv fl token :
    e = EvToken len conv fl token ->
    memb_state s = MEMB_STATE_RECOVERY -> memb_state s' = MEMB_STATE_OPERATIONAL ->
    recovered (local_token conv token) s s' ->
    memb_edge cfg e s s'.

(** A running instance: its node id is set, the first interface has come up and
    no messages are being flushed; the highest ring sequence number it knows is
    at least the one of its ring. *)
Record running (s : srp) : Prop := {
  run_id : my_id s <> 0;
  run_iface : 0 < iface_changes s;
  run_flushing : flushing s = false;
  run_ring : ring_inv s;
  run_seq : 0 <= ring_seq (my_ring_id s)
}.

(** The 64-bit ring sequence number does not wrap when a ring is formed. *)
Definition headroom (e : srp_event) (s : srp) : bool :=
  match e with
  | EvJoin _ conv _ _ j => Z.max (token_ring_id_seq s) (join_seq conv j) <? 2 ^ 64 - 4
  | _ => true
  end.

Lemma moved_running s s' : running s -> moved s s' -> running s'.
Proof.
  intros [I F L R Q] M. pose proof (moved_inv _ _ R M) as R'. destruct M as [I' F' L' M].
  split; [congruence|lia|congruence|done|].
  unfold ring_inv in *. destruct M as [E ?|? ?]; [rewrite E|]; lia.
Qed.

Section Props.
Context (cfg : totem_config) (alloc : bool) (callback_fn : Z -> srp -> Z * list (list Z * Z))
  (FRAME_SIZE_MAX : Z).

Abbreviation step := (srp_step cfg alloc callback_fn FRAME_SIZE_MAX).

Definition edge (e : srp_event) (s s' : srp) : Prop := moved s s' /\ memb_edge cfg e s s'.

(** An event that keeps the state or leads to GATHER. *)
Lemma edge_stays e s s' :
  step e s = Some s' -> stays s s' -> (memb_state s' <> memb_state s -> gather_cause cfg e s) -> edge e s s'.
Proof.
  intros H [M S] C. split; [done|]. destruct (decide (memb_state s' = memb_state s)) as [E|E].
  - apply edge_stay; [done|]. eapply step_may_stay; eauto.
  - destruct S as [S|S]; [done|]. apply edge_gather; [congruence|done|auto].
Qed.

Lemma edge_key e s s' : step e s = Some s' -> key s' = key s -> edge e s s'.
Proof. intros H K. apply edge_stays; [done|now apply stays_key|]. intros []. now apply state_key. Qed.

Lemma stays_token_timeout s s' : timer_function_orf_token_timeout cfg s = Some s' -> stays s s'.
Proof.
  unfold timer_function_orf_token_timeout. destruct (memb_state s).
  - intros H%stays_gather_enter. eapply stays_key_l; [|exact H]. apply key_emit.
  - intros (s1 & H1%stays_consensus_timeout & H%stays_gather_enter)%bind_Some.
    eapply stays_trans; [exact H1|exact H].
  - apply stays_gather_enter.
  - intros (s1 & H1%stays_recovery_token_loss & [= <-])%bind_Some.
    eapply stays_trans; [exact H1|]. apply stays_key. peel_key.
Qed.

Lemma stays_iface_change id r ready n s s' :
  running s -> main_iface_change_fn cfg id r ready n s = Some s' -> stays s s'.
Proof.
  intros [I F _ _ _]. unfold main_iface_change_fn, c_true. cbn zeta.
  rewrite (proj2 (Z.eqb_neq (my_id s) 0) I). cbn [negb].
  rewrite (proj2 (Z.eqb_neq (iface_changes s) 0)) by lia.
  set (s1 := s <| iface_changes ::= Z.add 1 |>).
  assert (H1 : stays s s1).
  { subst s1. split; [|now left]. split; cbn; [done|lia|done|]. apply ring_same; cbn; [done|lia]. }
  clearbody s1. destruct (n <=? _).
  - intros H%stays_gather_enter. eapply stays_trans; [exact H1|exact H].
  - now intros [= <-].
Qed.

(** The events that send or arm timers only. *)
Lemma key_leave_send s s' : memb_leave_message_send s = Some s' -> key s' = key s.
Proof.
  unfold memb_leave_message_send. cbn zeta. intros (s1 & H1%(frame_merge_failed key) & H)%bind_Some.
  rewrite <- H1. destruct (_ <? _); revert H; intros [= <-]; [done|apply key_emit].
Qed.

Lemma key_merge_transmit s s' : memb_merge_detect_transmit s = Some s' -> key s' = key s.
Proof. unfold memb_merge_detect_transmit. intros ([] & _ & [= <-])%bind_Some. peel_key. Qed.

(** The state changes the handlers make, with their causes. *)
Lemma token_edge len conv fl token s s' :
  running s -> step (EvToken len conv fl token) s = Some s' -> edge (EvToken len conv fl token) s s'.
Proof.
  intros Hr H. pose proof H as Hm. cbn [srp_step] in Hm. pose proof Hm as Hc.
  apply token_handler_moves in Hm as [S|(E & M & S)]; [..|apply Hr].
  - apply edge_stays; [done|done|]. intros Hn. destruct (token_handler_cause _ _ _ _ _ _ _ _ _ _ Hc Hn) as [ [_ C]|(F & C)]; [now left|right].
    split; [done|]. destruct C as [C|(C1 & C2 & _)]; [apply C|]. destruct S as [_ [S|S] ]; congruence.
  - split; [done|]. assert (Hn : memb_state s' <> memb_state s) by congruence.
    destruct (token_handler_cause _ _ _ _ _ _ _ _ _ _ Hc Hn) as [ [C _]|(F & [ [C _]|(_ & _ & R & Q & P)])].
    + congruence.
    + congruence.
    + eapply edge_operational; eauto. now split.
Qed.

Lemma join_edge len conv now empty j s s' :
  running s -> headroom (EvJoin len conv now empty j) s = true ->
  step (EvJoin len conv now empty j) s = Some s' -> edge (EvJoin len conv now empty j) s s'.
Proof.
  intros Hr Hh H. pose proof H as Hm. cbn [srp_step] in Hm. pose proof Hm as Hc.
  cbn in Hh. apply Z.ltb_lt in Hh. pose proof Hr as [_ _ _ R Q]. unfold ring_inv in R.
  apply join_handler_moves in Hm; [|exact R|lia|exact Hh].
  destruct Hm as [S|([M S] & N1 & N2)].
  - apply edge_stays; [done|done|]. eapply join_handler_cause, Hc.
  - split; [done|]. assert (H0 : 0 <= token_ring_id_seq s) by lia.
    destruct (join_handler_agreement _ _ _ _ _ _ _ _ H0 Hh Hc N1 S) as [A B].
    eapply edge_commit_join; eauto; [destruct (memb_state s); tauto|]. eapply join_handler_cause; [exact Hc|congruence].
Qed.

Lemma commit_edge len conv c s s' :
  step (EvCommitToken len conv c) s = Some s' -> edge (EvCommitToken len conv c) s s'.
Proof.
  intros H. pose proof H as Hm. cbn [srp_step] in Hm. pose proof Hm as Hc.
  apply (commit_handler_moves cfg callback_fn FRAME_SIZE_MAX) in Hm.
  destruct Hm as [S|[(E & [M S] & R & L & Q)|(E & M & S & R & Q)] ].
  - now apply edge_key.
  - split; [done|]. eapply edge_commit_token; eauto; [congruence|now apply memb_set_equal_same].
  - split; [done|]. eapply edge_recovery; eauto.
Qed.

Lemma srp_step_edge e s s' :
  running s -> headroom e s = true -> step e s = Some s' -> edge e s s'.
Proof.
  intros Hr Hh H0. pose proof H0 as H. destruct e; cbn [srp_step] in H.
  - now apply token_edge.
  - destruct (message_handler_mcast _ _ _ m s) as [ [r x]|] eqn:E; [|done]. cbn in H. simplify_eq.
    apply edge_stays; [done|eapply stays_mcast, E|eapply mcast_cause, E].
  - apply edge_stays; [done|eapply stays_merge_detect, H|eapply detect_cause, H].
  - now apply join_edge.
  - now apply commit_edge.
  - simplify_eq. apply edge_key; [done|]. apply (steady_hold_cancel_handler key).
  - simplify_eq. apply edge_key; [done|]. unfold target_set_completed, memb_state_commit_token_send.
    cbn zeta. rewrite key_commit_transmit. peel_key.
  - simplify_eq. apply edge_key; [done|]. unfold timer_function_pause_timeout, reset_pause_timeout.
    rewrite (frame_reset_timer key). peel_key.
  - apply edge_stays; [done|now apply stays_token_timeout|done].
  - simplify_eq. apply edge_key; [done|]. unfold timer_function_orf_token_warning, reset_token_warning, cancel_token_warning.
    destruct (c_true _); [apply (frame_reset_timer key)|apply key_emit].
  - simplify_eq. apply edge_key; [done|]. apply (steady_retransmit_timer key).
  - simplify_eq. apply edge_key; [done|]. unfold timer_function_token_hold_retransmit_timeout.
    destruct (memb_state s); try done; apply (steady_token_retransmit key).
  - apply edge_key; [done|]. unfold timer_function_merge_detect_timeout in H. cbn zeta in H.
    revert H. destruct (_ && _); [intros H%key_merge_transmit; rewrite H; peel_key|intros [= <-]; peel_key].
  - apply edge_key; [done|]. unfold memb_timer_function_state_gather in H.
    destruct (memb_state s); try done; apply bind_Some in H as (s1 & H1%(frame_join_send key) & [= <-]);
      now rewrite (frame_reset_timer key).
  - apply edge_stays; [done|eapply stays_consensus_timeout, H|]. intros Hn.
    apply consensus_timeout_spec in H as [ [H _]|[_ H] ]; done.
  - apply edge_stays; [done|now apply stays_token_timeout|done].
  - apply edge_key; [done|]. destruct (totemsrp_mcast _ _ _ s) as [ [r x]|] eqn:E; [|done]. cbn in H. simplify_eq.
    now apply (frame_totemsrp_mcast key) in E.
  - apply edge_key; [done|]. now apply (frame_hold_cancel key) in H.
  - simplify_eq. apply edge_key; [done|]. unfold totemsrp_trans_ack. peel_key.
  - apply edge_stays; [done|now apply stays_token_timeout|done].
  - apply edge_key; [done|]. apply fmap_Some in H as ([r x] & H & ->). cbn [snd].
    unfold totemsrp_callback_token_create in H. apply bind_Some in H as (s1 & H1%(frame_hold_cancel key) & H).
    rewrite <- H1. destruct (negb malloc_ok); revert H; intros [= _ <-]; [done|apply (frame_upd_callbacks key)].
  - simplify_eq. apply edge_key; [done|]. apply (frame_upd_callbacks key).
  - apply edge_stays; [done|eapply stays_iface_change, H; done|]. intros Hn.
    apply iface_change_spec in H as [ [H _]|[_ H] ]; done.
  - apply edge_key; [done|]. now apply key_leave_send in H.
Qed.

End Props.

(** ** Runs *)
Section Runs.
Context (cfg : totem_config) (alloc : bool) (callback_fn : Z -> srp -> Z * list (list Z * Z))
  (FRAME_SIZE_MAX : Z).

Fixpoint run_headroom (es : list srp_event) (s : srp) : bool :=
  match es with
  | [] => true
  | e :: es' =>
      headroom e s
      && match srp_step cfg alloc callback_fn FRAME_SIZE_MAX e s with
         | Some s' => run_headroom es' s'
         | None => true
         end
  end.

Lemma srp_run_moved es s s' :
  running s -> run_headroom es s = true ->
  srp_run cfg alloc callback_fn FRAME_SIZE_MAX es s = Some s' -> s' = s \/ moved s s'.
Proof.
  revert s. induction es as [|e es IH]; intros s Hr Hh; cbn; [intros [= ->]; now left|].
  cbn in Hh. apply andb_prop in Hh as [Hh Hh'].
  destruct (srp_step _ _ _ _ e s) as [s1|] eqn:E; [|done]. cbn. intros H.
  pose proof (srp_step_edge _ _ _ _ _ _ _ Hr Hh E) as [M _].
  apply IH in H as [->|H]; [now right| |eapply moved_running; eauto|done].
  right. now transitivity s1.
Qed.

Lemma srp_run_running es s s' :
  running s -> run_headroom es s = true ->
  srp_run cfg alloc callback_fn FRAME_SIZE_MAX es s = Some s' -> running s'.
Proof.
  intros Hr Hh H. destruct (srp_run_moved es s s' Hr Hh H) as [->|M]; [done|]. eapply moved_running; eauto.
Qed.
End Runs.

(** ** A ring of one processor

    The configuration of corosync.conf(5)'s defaults, and the events that form
    a ring of the single node 1: its own join message comes back, then its own
    commit token and token. *)
Definition lone_cfg : totem_config := mk_totem_config 3000 75 238 180 50 3600 200 2500 30 50 17 5 0 0 50 1410.
Definition no_callbacks (id : Z) (s : srp) : Z * list (list Z * Z) := (0, []).

Definition lone_step : srp_event -> srp -> option srp := srp_step lone_cfg true no_callbacks 10000.

(** The token last sent comes back. *)
Definition next_token (s : srp) : srp_event :=
  match orf_token_retransmit s with
  | Some (SentCommit c) => EvCommitToken 40000 false c
  | Some (SentOrf t) => EvToken 1500 false [] t
  | None => EvTokenTimer
  end.

Fixpoint lone_tokens (n : nat) (s : srp) : option (list srp_event * srp) :=
  match n with
  | O => Some ([], s)
  | S n' => s1 ← lone_step (next_token s) s; '(es, s') ← lone_tokens n' s1; Some (next_token s :: es, s')
  end.

Definition lone_init : srp := default zero_srp (snd <$> totemsrp_initialize lone_cfg true true 0 1).
Definition lone_up : srp := default lone_init (lone_step (EvIfaceChange 1 (mk_ring 1 0) true 1) lone_init).
Definition lone_join : srp_event := EvJoin 1000 false 0 0 (mk_join 1 1 0 [1] []).
Definition lone_commit : srp :=
  default lone_init (srp_run lone_cfg true no_callbacks 10000 [lone_join; EvTargetSetCompleted] lone_up).
Definition lone_events : list srp_event := default [] (fst <$> lone_tokens 6 lone_commit).
Definition lone_operational : srp :=
  default lone_init (srp_run lone_cfg true no_callbacks 10000 lone_events lone_commit).

Lemma is_Some_default {A} (d : A) (o : option A) : bool_decide (is_Some o) = true -> o = Some (default d o).
Proof. intros H%bool_decide_eq_true. now destruct o, H. Qed.

Lemma lone_up_running : running lone_up.
Proof. split; [by_compute..| | ]; unfold ring_inv; by_compute. Qed.

(** The single processor reaches the OPERATIONAL state in a ring of its own. *)
Example lone_ring_forms :
  (memb_state lone_operational, my_ring_id lone_operational, my_memb_list lone_operational)
  = (MEMB_STATE_OPERATIONAL, mk_ring 1 5, [1]).
Proof. vm_compute. reflexivity. Qed.

(** ** The theorems *)

(** C8: A processor never goes back to a ring it has left, nor to an older
    one: over a run of the protocol, if the ring id differs after some of the
    events, its sequence number has grown, and it never falls again afterwards,
    so long as the 64-bit sequence number has room for a new ring. *)
Theorem ring_ids_never_reused cfg alloc callback_fn frame es1 es2 s s1 s2 :
  running s ->
  run_headroom cfg alloc callback_fn frame es1 s = true ->
  srp_run cfg alloc callback_fn frame es1 s = Some s1 ->
  run_headroom cfg alloc callback_fn frame es2 s1 = true ->
  srp_run cfg alloc callback_fn frame es2 s1 = Some s2 ->
  my_ring_id s1 <> my_ring_id s ->
  ring_seq (my_ring_id s) < ring_seq (my_ring_id s1)
  /\ ring_seq (my_ring_id s1) <= ring_seq (my_ring_id s2)
  /\ my_ring_id s2 <> my_ring_id s.
Proof.
  intros Hr Hh1 H1 Hh2 H2 Hn.
  pose proof (srp_run_running _ _ _ _ _ _ _ Hr Hh1 H1) as Hr1.
  apply srp_run_moved in H1 as [->|[_ _ _ M1] ]; [done| |done..].
  assert (L1 : ring_seq (my_ring_id s) < ring_seq (my_ring_id s1)) by (destruct M1; done).
  assert (L2 : ring_seq (my_ring_id s1) <= ring_seq (my_ring_id s2)).
  { apply srp_run_moved in H2 as [->|[_ _ _ M2] ]; [lia| |done..]. destruct M2 as [->|]; lia. }
  repeat split; [done..|]. intros E. rewrite E in L2. lia.
Qed.

(** The single processor leaves ring 1 for ring 5 and stays there. *)
Lemma ring_ids_never_reused_witness :
  running lone_up
  /\ ring_seq (my_ring_id lone_up) < ring_seq (my_ring_id lone_commit)
  /\ ring_seq (my_ring_id lone_commit) <= ring_seq (my_ring_id lone_operational)
  /\ my_ring_id lone_operational <> my_ring_id lone_up.
Proof.
  split; [exact lone_up_running|].
  apply (ring_ids_never_reused lone_cfg true no_callbacks 10000 [lone_join; EvTargetSetCompleted] lone_events
           lone_up lone_commit lone_operational).
  - exact lone_up_running.
  - vm_compute. reflexivity.
  - apply is_Some_default. vm_compute. reflexivity.
  - vm_compute. reflexivity.
  - apply is_Some_default. vm_compute. reflexivity.
  - by_compute.
Defined.


