(* ===== verification/TotemSrpOrder.v ===== *)
(** * Totem single ring protocol: ordering and delivery on one processor

    What the operations on the sort queues and message queues do to the messages
    they order: delivery without gaps, the "all received up to" number, sequence
    numbers given out with the token, and the release of messages.  Sequence
    numbers are below [seq_limit], so that they do not roll over; roll-over is
    the subject of the theorems on the sort queue. *)
From S2P Require Import Prelude VoteQuorum Endian SortQueue SortQueueTheory CsQueue TotemMemb TotemSrp TotemSrpOps TotemSrpHandlers TotemSrpFrame TotemSrpTheory.

Definition seq_limit : Z := 2 ^ 31 - 2 ^ 17.

(** ** Sequence numbers without roll-over *)

Lemma sq_lt_compare_plain a b :
  0 <= a < 2 ^ 31 -> 0 <= b < 2 ^ 31 -> sq_lt_compare a b = (a <? b).
Proof.
  intros Ha Hb. unfold sq_lt_compare, ADJUST_ROLLOVER_POINT.
  destruct (Z.ltb_spec 2147483648 a), (Z.ltb_spec 2147483648 b); cbn [orb]; lia || done.
Qed.

Lemma in_window_plain b n s :
  0 <= b -> 0 < n -> b + n < 2 ^ 32 -> 0 <= s < 2 ^ 32 ->
  in_window b n s = true <-> b <= s < b + n.
Proof.
  intros Hb Hn Hbn Hs. rewrite in_window_true. split.
  - intros [_ H]. u32_lia.
  - intros H. split; [done|]. rewrite u32_small; lia.
Qed.

(** The regular sort queue of a processor: a window of
    [QUEUE_RTR_ITEMS_SIZE_MAX] numbers that follow the last released one. *)
Record ordered (s : srp) : Prop := {
  od_wf : sq_wf (regular_sort_queue s);
  od_size : size (regular_sort_queue s) = QUEUE_RTR_ITEMS_SIZE_MAX;
  od_head : head_seqid (regular_sort_queue s) = last_released s + 1;
  od_released : 0 <= last_released s <= seq_limit;
  od_delivered : last_released s <= my_high_delivered s <= last_released s + QUEUE_RTR_ITEMS_SIZE_MAX
}.

(** The message with sequence number [n], if it was received and not released. *)
Definition received (s : srp) (n : Z) : option mcast_msg := sq_abs (regular_sort_queue s) n.

Lemma ordered_window s n :
  ordered s -> 0 <= n < 2 ^ 32 ->
  in_window (head_seqid (regular_sort_queue s)) (size (regular_sort_queue s)) n = true
  <-> last_released s < n <= last_released s + QUEUE_RTR_ITEMS_SIZE_MAX.
Proof.
  intros [W S H R L] Hn. rewrite H, S. unfold QUEUE_RTR_ITEMS_SIZE_MAX, seq_limit in *.
  rewrite in_window_plain by lia. lia.
Qed.

Lemma received_window s n m :
  ordered s -> received s n = Some m -> last_released s < n <= last_released s + QUEUE_RTR_ITEMS_SIZE_MAX.
Proof.
  intros O H. unfold received, sq_abs in H. destruct (in_window _ _ n) eqn:E; [|done].
  pose proof E as [Hn _]%in_window_true. now apply ordered_window in E.
Qed.

Lemma received_get s n :
  ordered s -> last_released s < n <= last_released s + QUEUE_RTR_ITEMS_SIZE_MAX ->
  sq_item_get (regular_sort_queue s) n = Some (from_option inr (inl ENOENT) (received s n)).
Proof.
  intros O Hn. pose proof (od_released s O).
  unfold seq_limit, QUEUE_RTR_ITEMS_SIZE_MAX in *.
  apply sq_item_get_spec; [apply O|]. apply ordered_window; unfold QUEUE_RTR_ITEMS_SIZE_MAX; [done|lia..].
Qed.

Lemma ordered_in_range s n :
  ordered s -> 0 <= n < 2 ^ 32 ->
  sq_in_range (regular_sort_queue s) n
  = (last_released s <? n) && (n <=? last_released s + QUEUE_RTR_ITEMS_SIZE_MAX).
Proof.
  intros O Hn. rewrite sq_in_range_spec by (apply O || done). apply eq_true_iff_eq.
  rewrite ordered_window by done. rewrite andb_true_iff, Z.ltb_lt, Z.leb_le. done.
Qed.

(** ** Delivery *)

Definition deliver_effect (m : mcast_msg) : srp_effect :=
  DeliverFn (m_nodeid (local_hdr m)) m (m_foreign (hdr m)).

(** The messages [n], [n + 1], ... that were received, [k] at most. *)
Fixpoint run_from (get : Z -> option mcast_msg) (n : Z) (k : nat) : list mcast_msg :=
  match k with
  | O => []
  | S k' => match get n with Some m => m :: run_from get (n + 1) k' | None => [] end
  end.

(** The effect of the delivery of [m] and of [l] on the instance. *)
Definition delivered (m : mcast_msg) (s : srp) : srp :=
  srp_emit (deliver_effect m) (s <| my_high_delivered := my_high_delivered s + 1 |>).
Definition delivered_run (l : list mcast_msg) (s : srp) : srp := foldl (fun s m => delivered m s) s l.

Lemma received_delivered m s n : received (delivered m s) n = received s n.
Proof. reflexivity. Qed.

Lemma ordered_delivered m s :
  ordered s -> received s (my_high_delivered s + 1) = Some m -> ordered (delivered m s).
Proof.
  intros O H. apply received_window in H; [|done]. pose proof (od_delivered s O).
  split; try apply O. unfold delivered. cbn. lia.
Qed.

Lemma deliver_step s0 i s :
  ordered s -> u32 (s0 + i) = my_high_delivered s + 1 ->
  messages_deliver_step false s0 i s
  = Some (match received s (my_high_delivered s + 1) with Some m => inr (delivered m s) | None => inl s end).
Proof.
  intros O Hi. pose proof (od_released s O). pose proof (od_delivered s O). unfold seq_limit in *.
  unfold messages_deliver_step. cbn zeta. rewrite Hi.
  rewrite ordered_in_range by (done || unfold QUEUE_RTR_ITEMS_SIZE_MAX in *; lia).
  destruct (received s _) as [m|] eqn:En.
  - pose proof (received_window s _ m O En) as Hw.
    rewrite (proj2 (Z.ltb_lt _ _)), (proj2 (Z.leb_le _ _)) by lia. cbn [negb andb].
    rewrite received_get by done. rewrite En. reflexivity.
  - destruct (_ && _) eqn:Er; [|done]. apply andb_prop in Er as [Er1%Z.ltb_lt Er2%Z.leb_le].
    cbn [negb]. rewrite received_get by done. now rewrite En.
Qed.

Lemma deliver_loop s0 k i s :
  ordered s -> 0 <= s0 -> my_high_delivered s = s0 + (i - 1) ->
  loop_from (messages_deliver_step false s0) i k s
  = Some (delivered_run (run_from (received s) (my_high_delivered s + 1) k) s).
Proof.
  intros O Hs. revert s i O. induction k as [|k IH]; intros s i O Hi; [done|].
  pose proof (od_released s O). pose proof (od_delivered s O). unfold seq_limit, QUEUE_RTR_ITEMS_SIZE_MAX in *.
  cbn [loop_from run_from]. rewrite deliver_step; [|done|rewrite u32_small; lia]. cbn [mbind option_bind].
  destruct (received s _) as [m|] eqn:En; [|done].
  rewrite IH; [reflexivity|now apply ordered_delivered|cbn; lia].
Qed.

Lemma deliver_to_app_spec e s :
  ordered s -> u32 (e - my_high_delivered s) < QUEUE_RTR_ITEMS_SIZE_MAX ->
  messages_deliver_to_app false e s
  = Some (delivered_run (run_from (received s) (my_high_delivered s + 1)
                           (Z.to_nat (u32 (e - my_high_delivered s)))) s).
Proof.
  intros O He. pose proof (od_released s O). pose proof (od_delivered s O).
  unfold messages_deliver_to_app, loop. cbn zeta.
  rewrite (proj2 (Z.ltb_lt _ _)) by done. cbn [negb]. apply deliver_loop; [done|lia|lia].
Qed.

Lemma run_from_lookup get n k (j : nat) m :
  run_from get n k !! j = Some m -> (j < k)%nat /\ get (n + Z.of_nat j) = Some m.
Proof.
  revert n j. induction k as [|k IH]; intros n j; cbn; [done|].
  destruct (get n) as [m0|] eqn:En; [|done]. destruct j as [|j]; cbn.
  - intros [= <-]. split; [lia|]. now rewrite Z.add_0_r.
  - intros [Hj H]%IH. split; [lia|]. rewrite <- H. f_equal. lia.
Qed.

Lemma run_from_maximal get n k :
  length (run_from get n k) = k
  \/ ((length (run_from get n k) < k)%nat /\ get (n + Z.of_nat (length (run_from get n k))) = None).
Proof.
  revert n. induction k as [|k IH]; intros n; cbn; [now left|].
  destruct (get n) as [m|] eqn:En; cbn.
  - destruct (IH (n + 1)) as [H|[H1 H2] ]; [left; lia|right]. split; [lia|]. rewrite <- H2. f_equal. lia.
  - right. split; [lia|]. now rewrite Z.add_0_r.
Qed.

Lemma run_from_ext get get' n k :
  (forall x, n <= x < n + Z.of_nat k -> get x = get' x) -> run_from get n k = run_from get' n k.
Proof.
  revert n. induction k as [|k IH]; intros n H; cbn; [done|]. rewrite H by lia.
  destruct (get' n); [|done]. f_equal. apply IH. intros x Hx. apply H. lia.
Qed.

Lemma delivered_run_fields l s :
  let s' := delivered_run l s in
  my_high_delivered s' = my_high_delivered s + Z.of_nat (length l)
  /\ srp_out s' = srp_out s ++ map deliver_effect l
  /\ regular_sort_queue s' = regular_sort_queue s /\ last_released s' = last_released s
  /\ orf_token_retransmit s' = orf_token_retransmit s.
Proof.
  cbn zeta. revert s. induction l as [|m l IH]; intros s; cbn [delivered_run foldl length map].
  - rewrite app_nil_r. repeat split; lia.
  - destruct (IH (delivered m s)) as (H1 & H2 & H3 & H4 & H5). unfold delivered_run in *.
    rewrite H1, H2, H3, H4, H5. cbn. rewrite <- app_assoc. repeat split; lia.
Qed.

Lemma ordered_run_from k s :
  ordered s -> ordered (delivered_run (run_from (received s) (my_high_delivered s + 1) k) s).
Proof.
  revert s. induction k as [|k IH]; intros s O; cbn; [done|].
  destruct (received s _) as [m|] eqn:En; cbn; [|done].
  apply (IH (delivered m s)). now apply ordered_delivered.
Qed.

(** *** Delivery at the end of a ring

    Holes are passed over, and so are messages of processors that did not come
    along to the new ring. *)

(** The message with sequence number [n], if it was received from one of the
    processors whose messages are still delivered. *)
Definition received_along (s : srp) (n : Z) : option mcast_msg :=
  m ← received s n;
  if bool_decide (m_system_from (local_hdr m) ∈ my_deliver_memb_list s) then Some m else None.

(** The effect of passing the next sequence number. *)
Definition passed (s : srp) : srp :=
  match received_along s (my_high_delivered s + 1) with
  | Some m => delivered m s
  | None => s <| my_high_delivered := my_high_delivered s + 1 |>
  end.

Lemma passed_fields s :
  my_high_delivered (passed s) = my_high_delivered s + 1
  /\ srp_out (passed s) = srp_out s ++ map deliver_effect (option_list (received_along s (my_high_delivered s + 1)))
  /\ (forall n, received_along (passed s) n = received_along s n)
  /\ last_released (passed s) = last_released s
  /\ (ordered s -> my_high_delivered s < last_released s + QUEUE_RTR_ITEMS_SIZE_MAX -> ordered (passed s)).
Proof.
  unfold passed. destruct (received_along s _) as [m|]; cbn; rewrite ?app_nil_r; split_and!; try done;
    (intros [W S H R D] Hd; split; cbn; try done; lia).
Qed.

Lemma deliver_skip_step s0 i s :
  ordered s -> u32 (s0 + i) = my_high_delivered s + 1 ->
  messages_deliver_step true s0 i s
  = Some (if my_high_delivered s <? last_released s + QUEUE_RTR_ITEMS_SIZE_MAX then inr (passed s) else inl s).
Proof.
  intros O Hi. pose proof (od_released s O). pose proof (od_delivered s O). unfold seq_limit in *.
  unfold messages_deliver_step. cbn zeta. rewrite Hi.
  rewrite ordered_in_range by (done || unfold QUEUE_RTR_ITEMS_SIZE_MAX in *; lia).
  rewrite (proj2 (Z.ltb_lt (last_released s) _)) by lia. cbn [andb].
  destruct (Z.leb_spec (my_high_delivered s + 1) (last_released s + QUEUE_RTR_ITEMS_SIZE_MAX)),
    (Z.ltb_spec (my_high_delivered s) (last_released s + QUEUE_RTR_ITEMS_SIZE_MAX)); try lia; cbn [negb]; [|done].
  rewrite received_get by (done || lia). unfold passed, received_along.
  destruct (received s _) as [m|]; cbn [from_option mbind option_bind]; [|done]. f_equal.
  case_bool_decide as E.
  - apply memb_set_subset1 in E. cbn. now rewrite E.
  - assert (E' : memb_set_subset [m_system_from (local_hdr m)] (my_deliver_memb_list s) = false)
      by (apply not_true_iff_false; now intros ?%memb_set_subset1).
    cbn. now rewrite E'.
Qed.

Lemma deliver_skip_loop s0 k i s :
  ordered s -> 0 <= s0 -> my_high_delivered s = s0 + (i - 1) ->
  let n := Z.min (Z.of_nat k) (last_released s + QUEUE_RTR_ITEMS_SIZE_MAX - my_high_delivered s) in
  exists s', loop_from (messages_deliver_step true s0) i k s = Some s'
    /\ my_high_delivered s' = my_high_delivered s + n
    /\ srp_out s' = srp_out s ++ map deliver_effect (omap (received_along s) (seqZ (my_high_delivered s + 1) n))
    /\ ordered s'.
Proof.
  intros O Hs. revert s i O. induction k as [|k IH]; intros s i O Hi; cbn zeta.
  - pose proof (od_delivered s O). exists s. rewrite Z.min_l by lia. cbn. rewrite app_nil_r. split_and!; [done|lia|done|done].
  - pose proof (od_released s O). pose proof (od_delivered s O).
    cbn [loop_from]. rewrite deliver_skip_step; [|done|unfold seq_limit, QUEUE_RTR_ITEMS_SIZE_MAX in *; rewrite u32_small; lia].
    cbn [mbind option_bind]. destruct (Z.ltb_spec (my_high_delivered s) (last_released s + QUEUE_RTR_ITEMS_SIZE_MAX)) as [Hd|Hd].
    + destruct (passed_fields s) as (F1 & F2 & F3 & F4 & F5).
      destruct (IH (passed s) (i + 1)) as (s' & E & H1 & H2 & H3); [auto|lia|]. exists s'.
      rewrite F1, F4 in H1, H2. rewrite F2 in H2.
      set (n := Z.min (Z.of_nat (S k)) _). set (n1 := Z.min (Z.of_nat k) _) in *.
      assert (En : n = Z.succ n1) by (subst n n1; lia). assert (0 <= n1) by (subst n1; lia). clearbody n n1. subst n.
      split_and!; [exact E|lia| |exact H3]. rewrite H2, <- app_assoc. f_equal.
      rewrite (seqZ_cons (my_high_delivered s + 1)) by lia. rewrite Z.pred_succ. cbn [omap list_omap].
      rewrite (list_omap_ext (received_along (passed s)) (received_along s) (seqZ (my_high_delivered s + 1 + 1) n1)
                 (seqZ (Z.succ (my_high_delivered s + 1)) n1)).
      * destruct (received_along s (my_high_delivered s + 1)); cbn; done.
      * apply Forall2_same_length_lookup. split; [done|]. intros j x y Hx Hy.
        assert (x = y) as -> by (replace (Z.succ (my_high_delivered s + 1)) with (my_high_delivered s + 1 + 1) in Hy by lia; congruence).
        apply F3.
    + exists s. rewrite Z.min_r by lia. rewrite (proj2 (Z.sub_move_0_r _ _)) by lia. cbn. rewrite app_nil_r.
      split_and!; [done|lia|done|done].
Qed.

(** ** The "all received up to" number *)

Lemma contiguous_spec s aru i k :
  ordered s -> 0 <= aru -> last_released s < aru + i -> aru + i + Z.of_nat k <= last_released s + QUEUE_RTR_ITEMS_SIZE_MAX + 1 ->
  contiguous (regular_sort_queue s) aru i k
  = Some (i - 1 + Z.of_nat (length (run_from (received s) (aru + i) k))).
Proof.
  intros O Ha. pose proof (od_released s O) as Hl. revert i.
  induction k as [|k IH]; intros i H1 H2; cbn [contiguous run_from]; [f_equal; cbn; lia|].
  unfold seq_limit, QUEUE_RTR_ITEMS_SIZE_MAX in *.
  rewrite u32_small by lia. rewrite received_get by (done || unfold QUEUE_RTR_ITEMS_SIZE_MAX; lia).
  cbn [mbind option_bind]. destruct (received s (aru + i)) as [m|]; cbn [from_option]; [|f_equal; cbn; lia].
  rewrite IH by lia. replace (aru + (i + 1)) with (aru + i + 1) by lia. f_equal. cbn [length]. lia.
Qed.

Lemma update_aru_spec s :
  ordered s -> in_recovery s = false ->
  last_released s <= my_aru s <= my_high_seq_received s ->
  my_high_seq_received s <= last_released s + QUEUE_RTR_ITEMS_SIZE_MAX ->
  let l := run_from (received s) (my_aru s + 1) (Z.to_nat (my_high_seq_received s - my_aru s)) in
  update_aru s = Some (s <| my_aru := my_aru s + Z.of_nat (length l) |>).
Proof.
  intros O Hr Ha Hh l. pose proof (od_released s O) as Hl.
  pose proof (run_from_maximal (received s) (my_aru s + 1) (Z.to_nat (my_high_seq_received s - my_aru s))) as Hm.
  fold l in Hm. unfold seq_limit, QUEUE_RTR_ITEMS_SIZE_MAX in *.
  unfold update_aru, sort_queue. cbn zeta. rewrite Hr, u32_small by lia.
  rewrite contiguous_spec by (done || unfold QUEUE_RTR_ITEMS_SIZE_MAX; lia). fold l.
  cbn [mbind option_bind]. f_equal.
  replace (my_aru s + Z.of_nat (length l)) with (u32 (my_aru s + (1 - 1 + Z.of_nat (length l))))
    by (rewrite u32_small; lia).
  reflexivity.
Qed.

(** ** Release of messages *)

Lemma sq_abs_range {A} (q : sq A) n x : sq_abs q n = Some x -> 0 <= n < 2 ^ 32.
Proof.
  unfold sq_abs. destruct (in_window _ _ n) eqn:E; [|done]. now apply in_window_true in E as [E _].
Qed.

Lemma release_plain n (q : sq mcast_msg) :
  sq_wf q -> size q = QUEUE_RTR_ITEMS_SIZE_MAX -> head_seqid q = n -> n < 2 ^ 31 ->
  exists q', sq_items_release n q = Some q' /\ sq_wf q' /\ size q' = QUEUE_RTR_ITEMS_SIZE_MAX
    /\ head_seqid q' = n + 1 /\ forall t, sq_abs q' t = if n <? t then sq_abs q t else None.
Proof.
  intros W S H Hn. pose proof (wf_seqid q W) as Hh. unfold QUEUE_RTR_ITEMS_SIZE_MAX in *.
  assert (Hw : forall b t, 0 <= b -> b < 2 ^ 31 + 1 -> 0 <= t < 2 ^ 32 -> in_window b 16384 t = true <-> b <= t < b + 16384)
    by (intros; apply in_window_plain; lia).
  destruct (sq_items_release_spec n q W) as (q' & E & W' & H' & S' & A'); [rewrite S, H; apply Hw; lia|].
  rewrite u32_small in H', A' by lia. exists q'. split_and!; [done..|congruence|done|].
  intros t. rewrite A', S. destruct (sq_abs q t) as [x|] eqn:Et; [|now destruct (in_window _ _ _), (n <? t)].
  pose proof (sq_abs_range _ _ _ Et) as Ht.
  assert (Hq : in_window n 16384 t = true).
  { unfold sq_abs in Et. rewrite S, H in Et. now destruct (in_window n 16384 t). }
  apply Hw in Hq; [|lia..]. destruct (Z.ltb_spec n t).
  - now rewrite (proj2 (Hw (n + 1) t ltac:(lia) ltac:(lia) Ht)) by lia.
  - destruct (in_window (n + 1) 16384 t) eqn:Ew; [|done]. apply Hw in Ew; lia.
Qed.

Lemma set_same_queue s : s <| regular_sort_queue := regular_sort_queue s |> = s.
Proof. destruct s. reflexivity. Qed.

Lemma free_loop k i s :
  let q := regular_sort_queue s in
  sq_wf q -> size q = QUEUE_RTR_ITEMS_SIZE_MAX -> head_seqid q = last_released s + i ->
  last_released s + i + Z.of_nat k <= 2 ^ 31 ->
  exists q', loop_from messages_free_step i k s = Some (s <| regular_sort_queue := q' |>)
    /\ sq_wf q' /\ size q' = QUEUE_RTR_ITEMS_SIZE_MAX /\ head_seqid q' = last_released s + i + Z.of_nat k
    /\ forall t, sq_abs q' t = if last_released s + i + Z.of_nat k <=? t then sq_abs q t else None.
Proof.
  cbn zeta. revert i s. induction k as [|k IH]; intros i s W S H Hk; cbn [loop_from].
  - exists (regular_sort_queue s). rewrite set_same_queue. split_and!; [done..|lia|]. intros t.
    destruct (Z.leb_spec (last_released s + i + Z.of_nat 0) t) as [|Hlt]; [done|].
    unfold sq_abs. destruct (in_window _ _ t) eqn:E; [|done]. apply in_window_true in E as [E1 E2].
    pose proof (wf_seqid _ W). rewrite S, H in *. unfold QUEUE_RTR_ITEMS_SIZE_MAX in *. exfalso. u32_lia.
  - pose proof (wf_seqid _ W) as Hh.
    destruct (release_plain (last_released s + i) (regular_sort_queue s)) as (q1 & E1 & W1 & S1 & H1 & A1);
      [done..|lia|].
    assert (Es : messages_free_step i s = Some (inr (s <| regular_sort_queue := q1 |>))).
    { unfold messages_free_step. cbn zeta. rewrite u32_small by lia.
      rewrite sq_item_get_spec; [|done|rewrite S, H; unfold QUEUE_RTR_ITEMS_SIZE_MAX; apply in_window_plain; lia].
      cbn [mbind option_bind]. now rewrite E1. }
    rewrite Es. cbn [mbind option_bind].
    destruct (IH (i + 1) (s <| regular_sort_queue := q1 |>)) as (q' & E & W' & S' & H' & A'); cbn; [done|done|lia|lia|].
    exists q'. rewrite E. split_and!; [reflexivity|done..|rewrite H'; cbn; lia|].
    intros t. rewrite A'. cbn. rewrite A1.
    destruct (Z.leb_spec (last_released s + (i + 1) + Z.of_nat k) t), (Z.leb_spec (last_released s + i + Z.of_nat (Datatypes.S k)) t),
      (Z.ltb_spec (last_released s + i) t); lia || done.
Qed.

(** Where [messages_free] stops. *)
Definition release_to (token_aru : Z) (s : srp) : Z :=
  let r := if sq_lt_compare (my_last_aru s) token_aru then my_last_aru s else token_aru in
  if sq_lt_compare (my_high_delivered s) r then my_high_delivered s else r.

Lemma messages_free_eq a s :
  messages_free a s
  = if sq_lt_compare (release_to a s) (last_released s) then Some s
    else if negb (u32 (release_to a s - last_released s) <? QUEUE_RTR_ITEMS_SIZE_MAX) then None
    else s' ← loop messages_free_step (u32 (release_to a s - last_released s)) s;
         Some (s' <| last_released ::= fun r => u32 (r + u32 (release_to a s - last_released s)) |>).
Proof. reflexivity. Qed.

(** What is released was delivered, whatever the token says. *)
Lemma release_to_delivered a s :
  ordered s -> my_high_delivered s <= seq_limit -> 0 <= a < 2 ^ 32 -> 0 <= my_last_aru s < 2 ^ 32 ->
  sq_lt_compare (release_to a s) (last_released s) = true
  \/ last_released s <= release_to a s <= my_high_delivered s.
Proof.
  intros O Hd Ha Hl. pose proof (od_released s O). pose proof (od_delivered s O).
  unfold release_to. cbn zeta.
  set (r := if sq_lt_compare (my_last_aru s) a then my_last_aru s else a).
  assert (Hr : 0 <= r < 2 ^ 32) by (subst r; destruct (sq_lt_compare _ _); lia). clearbody r.
  unfold seq_limit in *. unfold sq_lt_compare, ADJUST_ROLLOVER_POINT, ADJUST_ROLLOVER_VALUE.
  rewrite (proj2 (Z.ltb_ge 2147483648 (my_high_delivered s))) by lia.
  rewrite (proj2 (Z.ltb_ge 2147483648 (last_released s))) by lia.
  cbn [orb]. destruct (Z.ltb_spec 2147483648 r) as [Hbig|Hsmall].
  - destruct (Z.ltb_spec (u32 (my_high_delivered s - 65536)) (u32 (r - 65536))) as [Hx|Hx].
    + right. lia.
    + left. rewrite (proj2 (Z.ltb_lt 2147483648 r)) by lia. cbn [orb]. apply Z.ltb_lt. u32_lia.
  - destruct (Z.ltb_spec (my_high_delivered s) r); [right; lia|].
    rewrite (proj2 (Z.ltb_ge 2147483648 r)) by lia. cbn [orb].
    destruct (Z.ltb_spec r (last_released s)); [left; done|right; lia].
Qed.

(** A release keeps what was not delivered. *)
Record released (s s' : srp) : Prop := {
  rl_ordered : ordered s';
  rl_last : last_released s <= last_released s' <= my_high_delivered s;
  rl_received : forall n, received s' n = if last_released s' <? n then received s n else None;
  rl_rest : s' = s <| regular_sort_queue := regular_sort_queue s' |> <| last_released := last_released s' |>
}.

Lemma released_refl s : ordered s -> released s s.
Proof.
  intros O. split; [done|pose proof (od_delivered s O); lia| |destruct s; reflexivity].
  intros n. destruct (Z.ltb_spec (last_released s) n); [done|].
  destruct (received s n) eqn:E; [|done]. apply received_window in E; [lia|done].
Qed.

Lemma release_range s r :
  ordered s -> my_high_delivered s <= seq_limit -> last_released s <= r <= my_high_delivered s ->
  exists s', (s1 ← loop messages_free_step (u32 (r - last_released s)) s;
              Some (s1 <| last_released ::= fun x => u32 (x + u32 (r - last_released s)) |>)) = Some s'
    /\ released s s' /\ last_released s' = r.
Proof.
  intros O Hd Hr. pose proof (od_released s O) as Hl. pose proof (od_delivered s O) as Hdl. unfold seq_limit in *.
  rewrite (u32_small (r - last_released s)) by lia.
  destruct (free_loop (Z.to_nat (r - last_released s)) 1 s) as (q' & E & W & S & H & A);
    [apply O..|lia|].
  unfold loop. rewrite E. cbn [mbind option_bind]. eexists. split; [reflexivity|].
  set (s' := _ <| last_released ::= _ |>).
  assert (El : last_released s' = r) by (subst s'; cbn; rewrite u32_small; lia).
  assert (Eq : regular_sort_queue s' = q') by reflexivity.
  split; [|done]. split.
  - split; rewrite ?El, ?Eq; [done|done|lia|unfold seq_limit; lia|].
    change (my_high_delivered s') with (my_high_delivered s). unfold QUEUE_RTR_ITEMS_SIZE_MAX in *. lia.
  - lia.
  - intros n. unfold received. rewrite Eq, El, A.
    destruct (Z.leb_spec (last_released s + 1 + Z.of_nat (Z.to_nat (r - last_released s))) n), (Z.ltb_spec r n); lia || done.
  - rewrite Eq, El. subst s'.
    transitivity (s <| regular_sort_queue := q' |> <| last_released := u32 (last_released s + (r - last_released s)) |>);
      [reflexivity|]. rewrite u32_small by lia. now replace (last_released s + (r - last_released s)) with r by lia.
Qed.

Lemma messages_free_released a s s' :
  ordered s -> my_high_delivered s <= seq_limit -> 0 <= a < 2 ^ 32 -> 0 <= my_last_aru s < 2 ^ 32 ->
  messages_free a s = Some s' -> released s s'.
Proof.
  intros O Hd Ha Hl. rewrite messages_free_eq.
  destruct (release_to_delivered a s O Hd Ha Hl) as [E|Hr]; [rewrite E; intros [= <-]; now apply released_refl|].
  destruct (sq_lt_compare _ _); [intros [= <-]; now apply released_refl|]. destruct (negb _); [done|].
  destruct (release_range s (release_to a s) O Hd Hr) as (s1 & -> & R & _). now intros [= <-].
Qed.

Lemma messages_free_spec a s :
  ordered s -> my_high_delivered s <= seq_limit -> 0 <= a < 2 ^ 31 -> 0 <= my_last_aru s < 2 ^ 31 ->
  my_high_delivered s < last_released s + QUEUE_RTR_ITEMS_SIZE_MAX ->
  exists s', messages_free a s = Some s' /\ released s s'
    /\ last_released s' = Z.max (last_released s) (Z.min a (Z.min (my_last_aru s) (my_high_delivered s))).
Proof.
  intros O Hd Ha Hl Hq. pose proof (od_released s O) as Hr. pose proof (od_delivered s O) as Hdl.
  unfold seq_limit in *.
  assert (Et : release_to a s = Z.min a (Z.min (my_last_aru s) (my_high_delivered s))).
  { unfold release_to. cbn zeta. rewrite (sq_lt_compare_plain (my_last_aru s) a) by lia.
    destruct (Z.ltb_spec (my_last_aru s) a); rewrite sq_lt_compare_plain by lia;
      destruct (Z.ltb_spec (my_high_delivered s) a), (Z.ltb_spec (my_high_delivered s) (my_last_aru s)); lia. }
  rewrite messages_free_eq, Et. rewrite sq_lt_compare_plain by lia.
  destruct (Z.ltb_spec (Z.min a (Z.min (my_last_aru s) (my_high_delivered s))) (last_released s)) as [Hlt|Hge].
  - exists s. split_and!; [done|now apply released_refl|lia].
  - rewrite (proj2 (Z.ltb_lt _ _)) by (rewrite u32_small; lia). cbn [negb].
    destruct (release_range s (Z.min a (Z.min (my_last_aru s) (my_high_delivered s)))) as (s1 & E & R & El);
      [done|unfold seq_limit; lia|lia|].
    rewrite E. exists s1. split_and!; [done..|lia].
Qed.

(** ** Multicasting with the token *)

(** The message as it goes on the ring. *)
Definition stamp (r : ring_id) (seq this_seqno : Z) (m : mcast_msg) : mcast_msg :=
  upd_hdr (fun h => h <| m_seq := seq |> <| m_this_seqno := this_seqno |> <| m_ring_id := r |>) m.

(** The messages [l] with consecutive sequence numbers. *)
Fixpoint stamp_from (r : ring_id) (seq this_seqno : Z) (l : list mcast_msg) : list mcast_msg :=
  match l with
  | [] => []
  | m :: l' => stamp r seq this_seqno m :: stamp_from r (seq + 1) (1 + this_seqno) l'
  end.

(** The messages [l] were put on the ring after the sequence number [seq]. *)
Record multicast (seq : Z) (l : list mcast_msg) (s s' : srp) : Prop := {
  mc_ordered : ordered s';
  mc_received : forall n, received s' n =
    if (seq <? n) && (n <=? seq + Z.of_nat (length l)) then l !! Z.to_nat (n - seq - 1) else received s n;
  mc_out : srp_out s' = srp_out s ++ map NetMcast l;
  mc_released : last_released s' = last_released s;
  mc_delivered : my_high_delivered s' = my_high_delivered s;
  mc_retransmit : orf_token_retransmit s' = orf_token_retransmit s;
  mc_last_aru : my_last_aru s' = my_last_aru s;
  mc_token_seq : my_token_seq s' = my_token_seq s;
  mc_discard : orf_token_discard s' = orf_token_discard s;
  mc_aru : my_aru s' = my_aru s;
  mc_high : my_high_seq_received s' =
    match l with [] => my_high_seq_received s | _ => seq + Z.of_nat (length l) end
}.

Lemma multicast_refl seq s : ordered s -> multicast seq [] s s.
Proof.
  intros O. split; [done| |cbn; now rewrite app_nil_r|done..]. intros n. cbn [length].
  destruct (Z.ltb_spec seq n), (Z.leb_spec n (seq + Z.of_nat 0)); lia || done.
Qed.

Lemma multicast_cons seq m l s s1 s2 :
  multicast seq [m] s s1 -> multicast (seq + 1) l s1 s2 -> multicast seq (m :: l) s s2.
Proof.
  intros [O1 R1 U1 L1 D1 T1 A1 Q1 C1 B1 H1] [O2 R2 U2 L2 D2 T2 A2 Q2 C2 B2 H2].
  split; [done| |rewrite U2, U1, <- app_assoc; done|congruence..|rewrite H2, H1; destruct l; cbn [length]; lia].
  intros n. rewrite R2, R1. cbn [length].
  destruct (Z.ltb_spec (seq + 1) n), (Z.leb_spec n (seq + 1 + Z.of_nat (length l))), (Z.ltb_spec seq n),
    (Z.leb_spec n (seq + Z.of_nat (Datatypes.S (length l)))), (Z.leb_spec n (seq + Z.of_nat 1));
    cbn [andb]; try lia; try done.
  - replace (Z.to_nat (n - seq - 1)) with (Datatypes.S (Z.to_nat (n - (seq + 1) - 1))) by lia. done.
  - replace (Z.to_nat (n - seq - 1)) with O by lia. done.
Qed.

Lemma mcast1_gen token s item q2 :
  ordered s -> in_recovery s = false ->
  cs_queue_item_get (queue_use s) = Some item -> cs_queue_item_remove (queue_use s) = Some q2 ->
  last_released s <= t_seq token < last_released s + QUEUE_RTR_ITEMS_SIZE_MAX ->
  received s (t_seq token + 1) = None ->
  let m := stamp (my_ring_id s) (t_seq token + 1) (global_seqno s) item in
  exists s', orf_token_mcast1 token s = Some (token <| t_seq := t_seq token + 1 |>, s')
    /\ multicast (t_seq token) [m] s s' /\ queue_use s' = q2
    /\ global_seqno s' = 1 + global_seqno s /\ my_high_seq_received s' = t_seq token + 1.
Proof.
  intros O Hr Hget Hrem Ht Hn m. pose proof (od_released s O) as Hl. unfold seq_limit, QUEUE_RTR_ITEMS_SIZE_MAX in *.
  unfold orf_token_mcast1, mcast_queue, sort_queue. cbn zeta.
  assert (Ht1 : t_seq (token <| t_seq ::= fun q => u32 (q + 1) |>) = t_seq token + 1)
    by (cbn; rewrite u32_small; lia).
  assert (Et : token <| t_seq ::= fun q => u32 (q + 1) |> = token <| t_seq := t_seq token + 1 |>).
  { rewrite <- Ht1. reflexivity. }
  rewrite Ht1, Et, Hr, Hget. cbn [mbind option_bind].
  change (in_recovery (s <| global_seqno ::= Z.add 1 |>)) with (in_recovery s). rewrite Hr.
  fold (stamp (my_ring_id s) (t_seq token + 1) (global_seqno s) item). fold m.
  change (regular_sort_queue (s <| global_seqno ::= Z.add 1 |>)) with (regular_sort_queue s).
  destruct (sq_item_add_spec m (t_seq token + 1) (regular_sort_queue s)) as (q & E & W & Hh & Hs & Ha);
    [apply O|apply ordered_window; unfold QUEUE_RTR_ITEMS_SIZE_MAX; lia || done|exact Hn|].
  rewrite E. cbn [mbind option_bind]. unfold set_sort_queue.
  change (in_recovery (s <| global_seqno ::= Z.add 1 |>)) with (in_recovery s). rewrite Hr.
  set (s1 := srp_emit (NetMcast m) _).
  change (in_recovery s1) with (in_recovery s). rewrite Hr.
  change (queue_use s1) with (queue_use s). rewrite Hrem. cbn [mbind option_bind].
  unfold set_mcast_queue. change (in_recovery s1) with (in_recovery s). rewrite Hr.
  eexists. split; [reflexivity|].
  assert (Eq : forall x, queue_use (set_queue_use q2 s1 <| my_high_seq_received := x |>) = q2).
  { intros x. unfold set_queue_use, queue_use. change (waiting_trans_ack s1) with (waiting_trans_ack s).
    destruct (waiting_trans_ack s) eqn:Ew; cbn; now rewrite Ew. }
  rewrite Eq. split; [|split; [done|]; unfold set_queue_use; destruct (waiting_trans_ack s1); done].
  set (s2 := set_queue_use q2 s1 <| my_high_seq_received := _ |>).
  assert (F : regular_sort_queue s2 = q /\ last_released s2 = last_released s
              /\ my_high_delivered s2 = my_high_delivered s /\ srp_out s2 = srp_out s ++ [NetMcast m]
              /\ orf_token_retransmit s2 = orf_token_retransmit s /\ my_last_aru s2 = my_last_aru s
              /\ my_token_seq s2 = my_token_seq s /\ orf_token_discard s2 = orf_token_discard s
              /\ my_aru s2 = my_aru s /\ my_high_seq_received s2 = t_seq token + 1)
    by (subst s2; unfold set_queue_use; destruct (waiting_trans_ack s1); done).
  destruct F as (F1 & F2 & F3 & F4 & F5 & F6 & F7 & F8 & F9 & F10). clearbody s2. split; [|intros n|done..].
  - destruct O as [OW OS OH OR OD]. split; rewrite ?F1, ?F2, ?F3; [done|congruence|congruence|done|done].
  - unfold received. rewrite F1, Ha. cbn [length]. destruct (decide (n = t_seq token + 1)) as [->|Hne].
    + rewrite (proj2 (Z.ltb_lt _ _)), (proj2 (Z.leb_le _ _)) by lia.
      replace (Z.to_nat (t_seq token + 1 - t_seq token - 1)) with 0%nat by lia. done.
    + destruct (Z.ltb_spec (t_seq token) n), (Z.leb_spec n (t_seq token + Z.of_nat 1)); lia || done.
Qed.

Lemma mcast1_spec token s item pend :
  ordered s -> in_recovery s = false -> cs_repr (queue_use s) (item :: pend) ->
  last_released s <= t_seq token < last_released s + QUEUE_RTR_ITEMS_SIZE_MAX ->
  received s (t_seq token + 1) = None ->
  let m := stamp (my_ring_id s) (t_seq token + 1) (global_seqno s) item in
  exists s', orf_token_mcast1 token s = Some (token <| t_seq := t_seq token + 1 |>, s')
    /\ multicast (t_seq token) [m] s s' /\ cs_repr (queue_use s') pend
    /\ global_seqno s' = 1 + global_seqno s /\ my_high_seq_received s' = t_seq token + 1.
Proof.
  intros O Hr Hq Ht Hn m. destruct (cs_queue_item_remove_repr _ _ _ Hq) as (q2 & E2 & Hq2 & _).
  destruct (mcast1_gen token s item q2 O Hr (cs_queue_item_get_repr _ _ _ Hq) E2 Ht Hn) as (s' & E & M & <- & H).
  eauto 10.
Qed.

Lemma in_recovery_key s s' : key s' = key s -> in_recovery s' = in_recovery s.
Proof. intros (_ & _ & _ & E & _)%key_fields. unfold in_recovery. now rewrite E. Qed.

Lemma ring_id_key s s' : key s' = key s -> my_ring_id s' = my_ring_id s.
Proof. now intros (_ & E & _)%key_fields. Qed.

Lemma stamp_from_length r seq g l : length (stamp_from r seq g l) = length l.
Proof. revert seq g. induction l as [|m l IH]; intros seq g; cbn; [done|]. now rewrite IH. Qed.

Lemma set_seq_same token : token <| t_seq := t_seq token + Z.of_nat 0 |> = token.
Proof. destruct token. unfold upd. cbn. now rewrite Z.add_0_r. Qed.

Lemma mcast_loop_spec n sent token s pend :
  ordered s -> in_recovery s = false -> cs_repr (queue_use s) pend ->
  last_released s <= t_seq token ->
  t_seq token + Z.of_nat n <= last_released s + QUEUE_RTR_ITEMS_SIZE_MAX ->
  (forall x, t_seq token < x -> received s x = None) ->
  let l := stamp_from (my_ring_id s) (t_seq token + 1) (global_seqno s) (take n pend) in
  exists s', orf_token_mcast_loop n sent token s
      = Some (sent + Z.of_nat (length l), token <| t_seq := t_seq token + Z.of_nat (length l) |>, s')
    /\ multicast (t_seq token) l s s' /\ cs_repr (queue_use s') (drop n pend).
Proof.
  cbn zeta. revert sent token s pend. induction n as [|n IH]; intros sent token s pend O Hr Hq Hl Hn Hf.
  - exists s. cbn [orf_token_mcast_loop take stamp_from length]. rewrite set_seq_same, Z.add_0_r.
    split_and!; [done|now apply multicast_refl|now rewrite drop_0].
  - assert (Ee : cs_queue_is_empty (mcast_queue s) = bool_decide (pend = [])).
    { unfold mcast_queue. rewrite Hr. unfold cs_queue_is_empty. rewrite (cq_wf_used _ _ Hq).
      destruct pend; cbn; [done|]. apply Z.eqb_neq. lia. }
    cbn [orf_token_mcast_loop]. rewrite Ee. destruct pend as [|item pend].
    + exists s. cbn [take stamp_from length]. rewrite set_seq_same, Z.add_0_r.
      split_and!; [done|now apply multicast_refl|exact Hq].
    + rewrite bool_decide_eq_false_2 by done.
      destruct (mcast1_spec token s item pend O Hr Hq ltac:(lia)) as (s1 & E1 & M1 & Q1 & G1 & _); [apply Hf; lia|].
      rewrite E1. cbn [mbind option_bind]. pose proof (steady_mcast1 key _ _ _ _ E1) as K1.
      destruct (IH (sent + 1) (token <| t_seq := t_seq token + 1 |>) s1 pend) as (s' & E & M & Q);
        [apply M1|now rewrite (in_recovery_key _ _ K1)|done|cbn; rewrite (mc_released _ _ _ _ M1); lia
        |cbn; rewrite (mc_released _ _ _ _ M1); lia| |].
      { cbn. intros x Hx. rewrite (mc_received _ _ _ _ M1). cbn [length].
        rewrite (proj2 (Z.leb_gt _ _)), andb_false_r by lia. apply Hf. lia. }
      exists s'. rewrite E. cbn [t_seq take stamp_from] in *. rewrite (ring_id_key _ _ K1), G1 in *.
      split_and!; [|eapply multicast_cons; [exact M1|exact M]|exact Q].
      cbn [length]. rewrite !stamp_from_length.
      set (k := length (take n pend)).
      replace (sent + Z.of_nat (Datatypes.S k)) with (sent + 1 + Z.of_nat k) by lia.
      replace (t_seq token + Z.of_nat (Datatypes.S k)) with (t_seq token + 1 + Z.of_nat k) by lia. reflexivity.
Qed.

(** Whatever the queue of pending messages holds. *)
Lemma mcast_loop_partial n sent token s sent' token' s' :
  ordered s -> in_recovery s = false -> last_released s <= t_seq token ->
  t_seq token + Z.of_nat n <= last_released s + QUEUE_RTR_ITEMS_SIZE_MAX ->
  (forall x, t_seq token < x -> received s x = None) ->
  orf_token_mcast_loop n sent token s = Some (sent', token', s') ->
  exists l, multicast (t_seq token) l s s' /\ (length l <= n)%nat
    /\ token' = token <| t_seq := t_seq token + Z.of_nat (length l) |>
    /\ forall k m, l !! k = Some m ->
         m_seq (hdr m) = t_seq token + 1 + Z.of_nat k /\ m_ring_id (hdr m) = my_ring_id s.
Proof.
  revert sent token s. induction n as [|n IH]; intros sent token s O Hr Hl Hn Hf; cbn [orf_token_mcast_loop].
  - intros [= _ <- <-]. exists []. cbn [length]. rewrite set_seq_same. split_and!; [now apply multicast_refl|lia|done..].
  - destruct (cs_queue_is_empty _).
    + intros [= _ <- <-]. exists []. cbn [length]. rewrite set_seq_same. split_and!; [now apply multicast_refl|lia|done..].
    + intros ([t1 s1] & E1 & H)%bind_Some. pose proof (steady_mcast1 key _ _ _ _ E1) as K1.
      assert (Hx : exists item q2, cs_queue_item_get (queue_use s) = Some item
                                   /\ cs_queue_item_remove (queue_use s) = Some q2).
      { unfold orf_token_mcast1, mcast_queue, set_sort_queue in E1. rewrite Hr in E1. cbn zeta in E1.
        apply bind_Some in E1 as (item & Ei & (q & _ & (q2 & Eq & _)%bind_Some)%bind_Some).
        change (in_recovery (s <| global_seqno ::= Z.add 1 |>)) with (in_recovery s) in Eq. rewrite Hr in Eq.
        match type of Eq with context [in_recovery ?x] => change (in_recovery x) with (in_recovery s) in Eq end.
        rewrite Hr in Eq. exists item, q2. split; [done|exact Eq]. }
      destruct Hx as (item & q2 & Hg & Hq).
      destruct (mcast1_gen token s item q2 O Hr Hg Hq ltac:(lia)) as (s1' & E1' & M1 & _); [apply Hf; lia|].
      rewrite E1' in E1. revert E1. intros [= <- <-].
      apply IH in H; [|apply M1|now rewrite (in_recovery_key _ _ K1)|cbn; rewrite (mc_released _ _ _ _ M1); lia
                      |cbn; rewrite (mc_released _ _ _ _ M1); lia|].
      * destruct H as (l & M & Hlen & -> & Hl2). eexists. split; [eapply multicast_cons; [exact M1|exact M]|].
        split; [cbn; lia|]. split.
        -- cbn [t_seq length].
           replace (t_seq token + Z.of_nat (Datatypes.S (length l))) with (t_seq token + 1 + Z.of_nat (length l)) by lia.
           reflexivity.
        -- intros [|k] m; cbn.
           ++ intros [= <-]. unfold stamp. destruct item; cbn; split; lia || done.
           ++ intros [Ha Hb]%Hl2. cbn in Ha. rewrite (ring_id_key _ _ K1) in Hb. split; [lia|done].
      * cbn. intros x Hx. rewrite (mc_received _ _ _ _ M1). cbn [length].
        rewrite (proj2 (Z.leb_gt _ _)), andb_false_r by lia. apply Hf. lia.
Qed.

(** ** Flow control *)

Definition sane_flow (cfg : totem_config) : Prop :=
  0 <= window_size cfg /\ 0 <= max_messages cfg /\ window_size cfg + max_messages cfg <= QUEUE_RTR_ITEMS_SIZE_MAX.

Lemma fcc_calculate_range cfg token s :
  0 <= max_messages cfg ->
  0 <= fst (fcc_calculate cfg token s) <= max_messages cfg.
Proof.
  intros Hm. unfold fcc_calculate. cbn zeta. cbn [fst].
  pose proof (u32_range (window_size cfg - t_fcc token)) as Hr.
  set (a := if _ <? max_messages cfg then _ else max_messages cfg).
  assert (Ha : 0 <= a <= max_messages cfg) by (subst a; destruct (Z.ltb_spec (u32 (window_size cfg - t_fcc token)) (max_messages cfg)); lia).
  clearbody a. destruct (c_true _); [|done].
  destruct (_ && _) eqn:E; [|done]. apply andb_prop in E as [E1%Z.ltb_lt E2%Z.ltb_lt]. lia.
Qed.

Lemma fcc_rtr_limit_plain cfg token ta s :
  0 <= ta -> 0 <= window_size cfg -> ta + window_size cfg <= QUEUE_RTR_ITEMS_SIZE_MAX ->
  0 <= last_released s <= seq_limit -> 0 <= t_seq token < 2 ^ 31 ->
  fcc_rtr_limit cfg token ta s
  = Some (if last_released s + QUEUE_RTR_ITEMS_SIZE_MAX - ta - window_size cfg <? t_seq token then 0 else ta).
Proof.
  intros Ht Hw Hs Hl Hq. unfold fcc_rtr_limit, QUEUE_RTR_ITEMS_SIZE_MAX, seq_limit in *. cbn zeta.
  rewrite (u32_small (ta + _)) by lia. rewrite s32_small by lia.
  rewrite (proj2 (Z.leb_le 0 _)) by lia. cbn [negb].
  rewrite u32_small by lia. rewrite sq_lt_compare_plain by lia.
  destruct (Z.ltb_spec (last_released s + 16384 - ta - window_size cfg) (t_seq token)); done.
Qed.
