(* ===== verification/TotemSrpOrderProps.v ===== *)
(** * Totem single ring protocol: ordering theorems

    Delivery in order and without gaps, the "all received up to" number, the
    sequence numbers given out with the token, flow control and the release of
    messages, on one processor. *)
From S2P Require Import Prelude VoteQuorum Endian SortQueue SortQueueTheory CsQueue TotemMemb TotemSrp TotemSrpOps TotemSrpHandlers TotemSrpFrame TotemSrpTheory TotemSrpOrder.

(** ** A processor with some messages *)

Definition demo_msg (b : Z) : mcast_msg := NotEncapsulated (zero_hdr <| m_nodeid := 1 |>) [b].

Definition add_msg (x : mcast_msg) (n : Z) (q : sq mcast_msg) : sq mcast_msg := default q (sq_item_add x n q).

Lemma add_msg_wf x n (q : sq mcast_msg) :
  sq_wf q -> in_window (head_seqid q) (size q) n = true -> sq_abs q n = None ->
  let q' := add_msg x n q in
  sq_wf q' /\ head_seqid q' = head_seqid q /\ size q' = size q
  /\ forall t, sq_abs q' t = if decide (t = n) then Some x else sq_abs q t.
Proof. intros W H A. unfold add_msg. destruct (sq_item_add_spec x n q W H A) as (q' & -> & ?). done. Qed.

Lemma default_add_repr {A} (x : A) q l :
  cs_repr q l -> Z.of_nat (length l) < cq_size q - 1 ->
  let q' := default q (cs_queue_item_add x q) in cs_repr q' (l ++ [x]) /\ cq_size q' = cq_size q.
Proof. intros R H. destruct (cs_queue_item_add_repr x q l R H) as (q' & -> & ?). done. Qed.

Definition demo_sq0 : sq mcast_msg := snd (sq_init zero_msg (true, true, true) QUEUE_RTR_ITEMS_SIZE_MAX 1).
Definition demo_sq1 : sq mcast_msg := add_msg (demo_msg 7) 1 demo_sq0.
(** Message 1 is there, message 2 is missing, message 3 is there. *)
Definition demo_sq2 : sq mcast_msg := add_msg (demo_msg 9) 3 demo_sq1.

Opaque demo_sq0 add_msg.

Definition demo_cq0 : cs_queue mcast_msg := snd (cs_queue_init zero_msg true 4).
Definition demo_cq1 : cs_queue mcast_msg := default demo_cq0 (cs_queue_item_add (demo_msg 11) demo_cq0).
Definition demo_cq2 : cs_queue mcast_msg := default demo_cq1 (cs_queue_item_add (demo_msg 12) demo_cq1).

Definition demo_idle : srp :=
  zero_srp <| my_id := 1 |> <| my_ring_id := mk_ring 1 4 |> <| regular_sort_queue := demo_sq0 |>
           <| new_message_queue := demo_cq2 |>.
Definition demo_gap : srp :=
  zero_srp <| my_id := 1 |> <| my_ring_id := mk_ring 1 4 |> <| regular_sort_queue := demo_sq2 |>
           <| my_high_seq_received := 3 |>.

Lemma demo_sq0_facts :
  sq_wf demo_sq0 /\ head_seqid demo_sq0 = 1 /\ size demo_sq0 = QUEUE_RTR_ITEMS_SIZE_MAX
  /\ forall t, sq_abs demo_sq0 t = None.
Proof.
  destruct (sq_init_repr zero_msg QUEUE_RTR_ITEMS_SIZE_MAX 1) as (q & E & [W H S C]); [by_compute..|].
  assert (Eq : demo_sq0 = q) by (with_strategy transparent [demo_sq0] unfold demo_sq0; now rewrite E).
  rewrite Eq. clear E. split_and!; [exact W|exact (eq_sym H)|exact (eq_sym S)|].
  intros t. rewrite <- C. apply lookup_empty.
Qed.

Lemma demo_sq2_facts :
  sq_wf demo_sq2 /\ head_seqid demo_sq2 = 1 /\ size demo_sq2 = QUEUE_RTR_ITEMS_SIZE_MAX
  /\ forall t, sq_abs demo_sq2 t
       = if decide (t = 3) then Some (demo_msg 9) else if decide (t = 1) then Some (demo_msg 7) else None.
Proof.
  destruct demo_sq0_facts as (W & H & S & A). unfold demo_sq2, demo_sq1.
  destruct (add_msg_wf (demo_msg 7) 1 demo_sq0) as (W1 & H1 & S1 & A1); [done|rewrite H, S; reflexivity|apply A|].
  destruct (add_msg_wf (demo_msg 9) 3 (add_msg (demo_msg 7) 1 demo_sq0)) as (W2 & H2 & S2 & A2);
    [done|rewrite H1, S1, H, S; reflexivity|rewrite A1, A; reflexivity|].
  split_and!; [done|congruence|congruence|]. intros t. rewrite A2, A1, A. done.
Qed.

Lemma demo_idle_ordered : ordered demo_idle.
Proof.
  destruct demo_sq0_facts as (W & H & S & A).
  split; change (regular_sort_queue demo_idle) with demo_sq0; [done..|by_compute|by_compute].
Qed.

Lemma demo_gap_ordered : ordered demo_gap.
Proof.
  destruct demo_sq2_facts as (W & H & S & A).
  split; change (regular_sort_queue demo_gap) with demo_sq2; [done..|by_compute|by_compute].
Qed.

Lemma demo_pending : cs_repr (queue_use demo_idle) [demo_msg 11; demo_msg 12].
Proof.
  destruct (cs_queue_init_repr zero_msg 4) as (q & E & R & S); [lia|].
  assert (Eq : demo_cq0 = q) by (unfold demo_cq0; now rewrite E). rewrite <- Eq in *. clear E Eq.
  destruct (default_add_repr (demo_msg 11) demo_cq0 []) as [R1 S1]; [done|rewrite S; cbn; lia|]. fold demo_cq1 in *.
  destruct (default_add_repr (demo_msg 12) demo_cq1 [demo_msg 11]) as [R2 _]; [exact R1|rewrite S1, S; cbn; lia|].
  exact R2.
Qed.

(** ** The theorems *)



(** [update_aru] computes the highest number up to which everything was
    received: all messages up to it are there, and the next one is missing
    unless it is the highest received. *)
Theorem update_aru_contiguous s :
  ordered s -> in_recovery s = false ->
  last_released s <= my_aru s <= my_high_seq_received s ->
  my_high_seq_received s <= last_released s + QUEUE_RTR_ITEMS_SIZE_MAX ->
  exists aru, update_aru s = Some (s <| my_aru := aru |>)
    /\ my_aru s <= aru <= my_high_seq_received s
    /\ (forall n, my_aru s < n <= aru -> is_Some (received s n))
    /\ (aru = my_high_seq_received s \/ received s (aru + 1) = None).
Proof.
  intros O Hr Ha Hh. rewrite update_aru_spec by done.
  set (k := Z.to_nat (my_high_seq_received s - my_aru s)). set (l := run_from (received s) (my_aru s + 1) k).
  exists (my_aru s + Z.of_nat (length l)). split; [done|].
  pose proof (run_from_maximal (received s) (my_aru s + 1) k) as Hm. fold l in Hm.
  split; [lia|]. split.
  - intros n Hn. destruct (lookup_lt_is_Some_2 l (Z.to_nat (n - my_aru s - 1)) ltac:(lia)) as [m Hm'].
    apply run_from_lookup in Hm' as [_ Hm']. exists m. rewrite <- Hm'. f_equal. lia.
  - destruct Hm as [Hm|[_ Hm] ]; [left; lia|right]. rewrite <- Hm. f_equal. lia.
Qed.

Lemma update_aru_contiguous_witness :
  exists aru, update_aru demo_gap = Some (demo_gap <| my_aru := aru |>) /\ 0 <= aru <= 3.
Proof.
  destruct (update_aru_contiguous demo_gap demo_gap_ordered) as (aru & H1 & H2 & _);
    [reflexivity|by_compute|by_compute|].
  exists aru. split; [exact H1|exact H2].
Defined.

(** With the token a processor puts its pending messages on the ring, in
    the order in which they were queued, with the sequence numbers that follow
    the token's; what flow control allows always fits the window of the sort
    queue, so that no message overwrites another one. *)
Theorem token_multicasts_in_order cfg allowed token s pend :
  ordered s -> in_recovery s = false -> cs_repr (queue_use s) pend ->
  sane_flow cfg -> 0 <= allowed <= max_messages cfg ->
  last_released s <= t_seq token <= seq_limit ->
  (forall x, t_seq token < x -> received s x = None) ->
  last_released s <= my_aru s <= my_high_seq_received s -> my_high_seq_received s <= t_seq token ->
  t_seq token <= last_released s + QUEUE_RTR_ITEMS_SIZE_MAX ->
  exists n s1 aru, fcc_rtr_limit cfg token allowed s = Some n /\ (n = allowed \/ n = 0)
    /\ let l := stamp_from (my_ring_id s) (t_seq token + 1) (global_seqno s) (take (Z.to_nat n) pend) in
       orf_token_mcast cfg n token s
       = Some (Z.of_nat (length l), token <| t_seq := t_seq token + Z.of_nat (length l) |>, s1 <| my_aru := aru |>)
       /\ multicast (t_seq token) l s s1 /\ cs_repr (queue_use s1) (drop (Z.to_nat n) pend).
Proof.
  intros O Hr Hq (Hw & Hm & Hwm) Ha Ht Hf Haru Hhigh Hwin. pose proof (od_released s O) as Hl.
  rewrite fcc_rtr_limit_plain by (unfold seq_limit in *; lia).
  set (n := if _ <? t_seq token then 0 else allowed).
  assert (Hn : 0 <= n /\ t_seq token + n <= last_released s + QUEUE_RTR_ITEMS_SIZE_MAX /\ (n = allowed \/ n = 0)).
  { subst n. destruct (Z.ltb_spec (last_released s + QUEUE_RTR_ITEMS_SIZE_MAX - allowed - window_size cfg) (t_seq token)); lia. }
  clearbody n. destruct Hn as (Hn & Hn' & Hn'').
  destruct (mcast_loop_spec (Z.to_nat n) 0 token s pend) as (s1 & E & M & Q); [done|done|done|lia|lia|done|].
  pose proof (steady_mcast_loop key _ _ _ _ _ _ _ E) as K.
  set (l := stamp_from _ _ _ _) in *.
  pose proof (mc_aru _ _ _ _ M) as A1. pose proof (mc_high _ _ _ _ M) as H1. pose proof (mc_released _ _ _ _ M) as L1.
  assert (Hlen : Z.of_nat (length l) <= n).
  { subst l. rewrite stamp_from_length, length_take. lia. }
  assert (Hh1 : my_high_seq_received s <= my_high_seq_received s1 <= last_released s + QUEUE_RTR_ITEMS_SIZE_MAX)
    by (rewrite H1; destruct l; lia).
  pose proof (update_aru_spec s1 (mc_ordered _ _ _ _ M)) as U. cbn zeta in U.
  rewrite (in_recovery_key _ _ K) in U. rewrite A1, L1 in U. specialize (U Hr ltac:(lia) ltac:(lia)).
  eexists n, s1, _. split; [done|]. split; [done|]. cbn zeta. fold l.
  split; [|split; [exact M|exact Q]].
  unfold orf_token_mcast. cbn zeta. rewrite Hr, E. cbn [mbind option_bind]. rewrite U. cbn [mbind option_bind].
  reflexivity.
Qed.

(** Two pending messages get the numbers 1 and 2. *)
Lemma token_multicasts_in_order_witness :
  exists n s1 aru, fcc_rtr_limit (mk_totem_config 3000 75 238 180 50 3600 200 2500 30 50 17 5 0 0 50 1410)
      (mk_token 1 0 0 0 0 (mk_ring 1 4) 0 0 0 0 []) 17 demo_idle = Some n /\ (n = 17 \/ n = 0)
    /\ orf_token_mcast (mk_totem_config 3000 75 238 180 50 3600 200 2500 30 50 17 5 0 0 50 1410) n
         (mk_token 1 0 0 0 0 (mk_ring 1 4) 0 0 0 0 []) demo_idle
       = Some (Z.of_nat (length (take (Z.to_nat n) [demo_msg 11; demo_msg 12])),
               mk_token 1 (Z.of_nat (length (take (Z.to_nat n) [demo_msg 11; demo_msg 12]))) 0 0 0 (mk_ring 1 4) 0 0 0 0 [],
               s1 <| my_aru := aru |>).
Proof.
  destruct (token_multicasts_in_order (mk_totem_config 3000 75 238 180 50 3600 200 2500 30 50 17 5 0 0 50 1410) 17
     (mk_token 1 0 0 0 0 (mk_ring 1 4) 0 0 0 0 []) demo_idle [demo_msg 11; demo_msg 12])
    as (n & s1 & aru & H1 & H2 & H3 & _ & _);
    [exact demo_idle_ordered|reflexivity|exact demo_pending|by_compute|by_compute|by_compute
    |intros x _; apply demo_sq0_facts|by_compute|by_compute|by_compute|].
  exists n, s1, aru. rewrite stamp_from_length in H3. auto.
Defined.

(** What a processor frees was acknowledged and delivered: messages are
    released up to the least of the token's aru, the aru of its previous visit
    and the last delivered message, and never backwards; all later messages stay
    in the sort queue. *)
Theorem messages_freed_are_stable a s :
  ordered s -> my_high_delivered s <= seq_limit -> 0 <= a < 2 ^ 31 -> 0 <= my_last_aru s < 2 ^ 31 ->
  my_high_delivered s < last_released s + QUEUE_RTR_ITEMS_SIZE_MAX ->
  exists s', messages_free a s = Some s' /\ ordered s'
    /\ last_released s' = Z.max (last_released s) (Z.min a (Z.min (my_last_aru s) (my_high_delivered s)))
    /\ (forall n, received s' n = if last_released s' <? n then received s n else None)
    /\ s' = s <| regular_sort_queue := regular_sort_queue s' |> <| last_released := last_released s' |>.
Proof.
  intros O Hd Ha Hl Hq. destruct (messages_free_spec a s O Hd Ha Hl Hq) as (s' & E & [R1 R2 R3 R4] & L). eauto 10.
Qed.

Lemma messages_freed_are_stable_witness :
  exists s', messages_free 3 (demo_gap <| my_high_delivered := 1 |> <| my_last_aru := 2 |>) = Some s'
    /\ last_released s' = 1.
Proof.
  destruct (messages_freed_are_stable 3 (demo_gap <| my_high_delivered := 1 |> <| my_last_aru := 2 |>))
    as (s' & E & _ & L & _); [|by_compute..|exists s'; split; [exact E|exact L] ].
  destruct demo_gap_ordered as [W S H R D]. split; [exact W|exact S|exact H|by_compute|by_compute].
Defined.


