(* ===== verification/TotemSrpAgree.v ===== *)
(** * Totem single ring protocol: agreement on the order of messages

    The processors of one ring, connected by a network that may lose, duplicate
    and reorder: every processor delivers the messages of the ring in the same
    order.  A processor takes part as long as the ring is its own and it is in
    the states OPERATIONAL or GATHER; what it does after it has left for another
    ring is the subject of the recovery protocol. *)
From S2P Require Import Prelude VoteQuorum Endian SortQueue SortQueueTheory CsQueue TotemMemb TotemSrp TotemSrpOps TotemSrpHandlers TotemSrpFrame TotemSrpTheory TotemSrpProps TotemSrpOrder.

(** ** The part of the instance that matters *)

(** The token of the ring kept for retransmission. *)
Definition orf_tok (s : srp) : option orf_token :=
  match orf_token_retransmit s with Some (SentOrf t) => Some t | _ => None end.

Definition outs (s : srp) : list srp_effect := List.filter is_traffic (srp_out s).

Definition okey (s : srp) :=
  (regular_sort_queue s, last_released s, my_high_delivered s, my_last_aru s,
   (my_token_seq s, orf_tok s, orf_token_discard s, outs s)).

Strategy 1000 [okey].

Lemma outs_emit e s : outs (srp_emit e s) = outs s ++ (if is_traffic e then [e] else []).
Proof. unfold outs, srp_emit. cbn. rewrite List.filter_app. cbn. now destruct (is_traffic e). Qed.

#[export] Instance okey_minor : Minor okey.
Proof.
  split; try apply _.
  - intros e s He. unfold okey. rewrite outs_emit, He, app_nil_r. reflexivity.
  - unfold okey, outs, orf_tok. cbn. congruence.
Qed.

Lemma okey_fields s s' :
  okey s' = okey s ->
  regular_sort_queue s' = regular_sort_queue s /\ last_released s' = last_released s
  /\ my_high_delivered s' = my_high_delivered s /\ my_last_aru s' = my_last_aru s
  /\ my_token_seq s' = my_token_seq s /\ orf_tok s' = orf_tok s
  /\ orf_token_discard s' = orf_token_discard s /\ outs s' = outs s.
Proof. unfold okey. intros H. injection H. auto 10. Qed.

(** ** The invariant of a processor

    [log] are the messages put on the ring, by sequence number, [top] the
    highest number; [base] is where the ring became operational and [d0] what
    the processor had delivered until then. *)

Definition deliveries (s : srp) : list mcast_msg :=
  omap (fun e => match e with DeliverFn _ m _ => Some m | _ => None end) (outs s).

Section Agree.
Context (r : ring_id) (base : Z).

Record log_ok (log : gmap Z mcast_msg) (top : Z) : Prop := {
  lg_range : forall n m, log !! n = Some m -> base < n <= top;
  lg_stamp : forall n m, log !! n = Some m -> m_seq (hdr m) = n;
  lg_base : 0 <= base <= top;
  lg_top : top <= seq_limit
}.

Record agrees (log : gmap Z mcast_msg) (top : Z) (d0 : list mcast_msg) (s : srp) : Prop := {
  ag_ordered : ordered s;
  ag_received : forall n m, received s n = Some m -> log !! n = Some m;
  ag_delivered : base <= my_high_delivered s <= top;
  ag_last_aru : 0 <= my_last_aru s < 2 ^ 32;
  ag_sent : forall m, NetMcast m ∈ outs s -> is_encapsulated m = false -> m_ring_id (hdr m) = r ->
    log !! m_seq (hdr m) = Some m;
  ag_run : exists l, deliveries s = d0 ++ l /\ Z.of_nat (length l) = my_high_delivered s - base
    /\ forall k m, l !! k = Some m -> log !! (base + 1 + Z.of_nat k) = Some m
}.

(** What [agrees] looks at. *)
Definition akey (s : srp) :=
  (regular_sort_queue s, last_released s, my_high_delivered s, my_last_aru s,
   deliveries s, List.filter (fun e => match e with NetMcast _ => true | _ => false end) (outs s)).

Lemma elem_of_mcasts m s :
  NetMcast m ∈ outs s
  <-> NetMcast m ∈ List.filter (fun e => match e with NetMcast _ => true | _ => false end) (outs s).
Proof. rewrite !list_elem_of_In, filter_In. tauto. Qed.

Lemma agrees_akey log top d0 s s' : akey s' = akey s -> agrees log top d0 s -> agrees log top d0 s'.
Proof.
  intros H. unfold akey in H. injection H as E1 E2 E3 E4 E5 E6.
  intros [[W S Hh R D] B C L G Q]. split.
  - split; rewrite ?E1, ?E2, ?E3; assumption.
  - intros n m. unfold received. rewrite E1. apply B.
  - now rewrite E3.
  - now rewrite E4.
  - intros m. rewrite elem_of_mcasts, E6, <- elem_of_mcasts. apply G.
  - rewrite E3, E5. exact Q.
Qed.

Lemma akey_okey s s' : okey s' = okey s -> akey s' = akey s.
Proof.
  intros (E1 & E2 & E3 & E4 & _ & _ & _ & E8)%okey_fields. unfold akey, deliveries. congruence.
Qed.

Lemma agrees_okey log top d0 s s' : okey s' = okey s -> agrees log top d0 s -> agrees log top d0 s'.
Proof. intros H%akey_okey. now apply agrees_akey. Qed.

(** A longer log. *)
Lemma agrees_mono log log' top top' d0 s :
  log ⊆ log' -> top <= top' -> agrees log top d0 s -> agrees log' top' d0 s.
Proof.
  intros Hl Ht [A B C L G Q]. assert (Hk : forall n m, log !! n = Some m -> log' !! n = Some m)
    by (intros n m Hm; eapply lookup_weaken; eauto).
  split; [done|auto|lia|done|auto|]. destruct Q as (l & E1 & E2 & E3). exists l. auto.
Qed.

(** ** Operations on the messages of the ring *)

Lemma deliveries_app s s' l :
  outs s' = outs s ++ l ->
  deliveries s' = deliveries s ++ omap (fun e => match e with DeliverFn _ m _ => Some m | _ => None end) l.
Proof. intros H. unfold deliveries. rewrite H. apply omap_app. Qed.

Lemma outs_out s s' l : srp_out s' = srp_out s ++ l -> outs s' = outs s ++ List.filter is_traffic l.
Proof. intros H. unfold outs. rewrite H. apply List.filter_app. Qed.

Lemma omap_deliver l :
  omap (fun e => match e with DeliverFn _ m _ => Some m | _ => None end)
    (List.filter is_traffic (map deliver_effect l)) = l.
Proof. induction l as [|m l IH]; cbn; [done|]. now rewrite IH. Qed.

Lemma filter_mcast l : List.filter is_traffic (map NetMcast l) = map NetMcast l.
Proof. induction l as [|m l IH]; cbn; [done|]. now rewrite IH. Qed.

Lemma omap_mcast l :
  omap (fun e => match e with DeliverFn _ m _ => Some m | _ => None end) (map NetMcast l) = [].
Proof. induction l as [|m l IH]; cbn; [done|exact IH]. Qed.

(** The part of the instance the token protocol looks at. *)
Definition tkey (s : srp) :=
  (my_token_seq s, orf_tok s, orf_token_discard s,
   List.filter (fun e => match e with NetToken _ => true | _ => false end) (outs s)).

Lemma tkey_okey s s' : okey s' = okey s -> tkey s' = tkey s.
Proof. intros (_ & _ & _ & _ & E5 & E6 & E7 & E8)%okey_fields. unfold tkey. congruence. Qed.

Definition no_token (l : list srp_effect) : Prop := forall t, NetToken t ∉ l.

Lemma tkey_out s s' l :
  my_token_seq s' = my_token_seq s -> orf_token_retransmit s' = orf_token_retransmit s ->
  orf_token_discard s' = orf_token_discard s -> srp_out s' = srp_out s ++ l -> no_token l ->
  tkey s' = tkey s.
Proof.
  intros E1 E2 E3 E4 Hn. unfold tkey, orf_tok. rewrite E1, E2, E3, (outs_out _ _ _ E4), List.filter_app.
  replace (List.filter _ (List.filter is_traffic l)) with (@nil srp_effect); [now rewrite app_nil_r|].
  symmetry. clear -Hn. induction l as [|e l IH]; [done|]. cbn.
  assert (Hl : no_token l) by (intros t Ht; apply (Hn t); now right).
  destruct e; cbn; try apply IH, Hl. exfalso. apply (Hn t). now left.
Qed.

Lemma no_token_deliver l : no_token (map deliver_effect l).
Proof. intros t (m & E & _)%list_elem_of_In%in_map_iff. discriminate. Qed.

Lemma no_token_mcast l : no_token (map NetMcast l).
Proof. intros t (m & E & _)%list_elem_of_In%in_map_iff. discriminate. Qed.

Lemma elem_of_outs_app s s' l m :
  outs s' = outs s ++ l -> NetMcast m ∈ outs s' <-> NetMcast m ∈ outs s \/ NetMcast m ∈ l.
Proof. intros ->. apply elem_of_app. Qed.

Lemma agrees_deliver log top d0 e s s' :
  log_ok log top -> agrees log top d0 s -> messages_deliver_to_app false e s = Some s' ->
  agrees log top d0 s' /\ tkey s' = tkey s.
Proof.
  intros LG A H.
  destruct (Z.lt_ge_cases (u32 (e - my_high_delivered s)) QUEUE_RTR_ITEMS_SIZE_MAX) as [He|He];
    [|unfold messages_deliver_to_app in H; cbn zeta in H; rewrite (proj2 (Z.ltb_ge _ _)) in H by done; done].
  rewrite (deliver_to_app_spec e s (ag_ordered _ _ _ _ A) He) in H.
  set (k := Z.to_nat (u32 (e - my_high_delivered s))) in H.
  pose proof (ordered_run_from k s (ag_ordered _ _ _ _ A)) as O'.
  set (l := run_from (received s) (my_high_delivered s + 1) k) in *.
  assert (Hl : forall j m, l !! j = Some m -> log !! (my_high_delivered s + 1 + Z.of_nat j) = Some m).
  { intros j m [_ Hj]%run_from_lookup. now apply (ag_received _ _ _ _ A). }
  clearbody l. revert H. intros [= <-].
  destruct (delivered_run_fields l s) as (F1 & F2 & F3 & F4 & F5).
  assert (F6 : my_token_seq (delivered_run l s) = my_token_seq s
               /\ orf_token_discard (delivered_run l s) = orf_token_discard s
               /\ my_last_aru (delivered_run l s) = my_last_aru s).
  { clear. unfold delivered_run. revert s. induction l as [|m l IH]; intros s; cbn; [done|]. rewrite !(proj1 (IH _)).
    destruct (IH (delivered m s)) as (_ & E2 & E3). now rewrite E2, E3. }
  destruct F6 as (F6 & F7 & F8). set (s' := delivered_run l s) in *. clearbody s'.
  split; [|eapply tkey_out; [exact F6|exact F5|exact F7|exact F2|apply no_token_deliver] ].
  destruct A as [O B C L G (l0 & E1 & E2 & E3)]. pose proof (outs_out _ _ _ F2) as Fo. split.
  - exact O'.
  - intros n m. unfold received. rewrite F3. apply B.
  - rewrite F1. destruct l as [|m l]; [cbn; lia|].
    destruct (lookup_lt_is_Some_2 (m :: l) (length l) ltac:(cbn; lia)) as [x Hx]. apply Hl in Hx.
    apply (lg_range _ _ LG) in Hx. cbn [length]. lia.
  - now rewrite F8.
  - intros m Hm. apply (elem_of_outs_app _ _ _ _ Fo) in Hm as [Hm|Hm]; [now apply G|].
    apply list_elem_of_In, filter_In in Hm as [(x & Hx & _)%in_map_iff _]. discriminate.
  - exists (l0 ++ l). rewrite (deliveries_app _ _ _ Fo), omap_deliver, E1, app_assoc. split; [done|].
    rewrite length_app, F1. split; [lia|]. intros j m [Hj|[Hj1 Hj2] ]%lookup_app_Some; [auto|].
    apply Hl in Hj2. rewrite <- Hj2. f_equal. lia.
Qed.

Lemma agrees_free log top d0 a s s' :
  log_ok log top -> agrees log top d0 s -> 0 <= a < 2 ^ 32 -> messages_free a s = Some s' ->
  agrees log top d0 s' /\ tkey s' = tkey s.
Proof.
  intros LG A Ha H. pose proof (lg_top _ _ LG) as Ht. pose proof (ag_delivered _ _ _ _ A) as Hd.
  apply messages_free_released in H; [|apply A|lia|done|apply A].
  destruct H as [O R1 R2 R3].
  assert (F : my_high_delivered s' = my_high_delivered s /\ my_last_aru s' = my_last_aru s
              /\ outs s' = outs s /\ tkey s' = tkey s)
    by (rewrite R3; unfold tkey, outs, orf_tok; cbn; done).
  destruct F as (F1 & F2 & F3 & F4). split; [|done].
  destruct A as [O0 B C L G (l & E1 & E2 & E3)]. split.
  - exact O.
  - intros n m. rewrite R2. destruct (_ <? n); [apply B|done].
  - now rewrite F1.
  - now rewrite F2.
  - intros m. rewrite F3. apply G.
  - exists l. unfold deliveries. rewrite F3, F1. auto.
Qed.

(** A change of the contents of the sort queue only. *)
Lemma agrees_queue log top d0 s s' :
  agrees log top d0 s -> sq_wf (regular_sort_queue s') ->
  size (regular_sort_queue s') = size (regular_sort_queue s) ->
  head_seqid (regular_sort_queue s') = head_seqid (regular_sort_queue s) ->
  (forall n m, received s' n = Some m -> log !! n = Some m) ->
  last_released s' = last_released s -> my_high_delivered s' = my_high_delivered s ->
  my_last_aru s' = my_last_aru s -> outs s' = outs s ->
  agrees log top d0 s'.
Proof.
  intros [[W S Hh R D] B C L G (l & E1 & E2 & E3)] W' S' H' B' F1 F2 F3 F4. split.
  - split; rewrite ?F1, ?F2; [done|congruence|congruence|done..].
  - done.
  - now rewrite F2.
  - now rewrite F3.
  - intros m. rewrite F4. apply G.
  - exists l. unfold deliveries. rewrite F4, F2. auto.
Qed.

Lemma agrees_store log top d0 alloc m s s' :
  log_ok log top -> agrees log top d0 s ->
  (is_encapsulated m = false -> log !! m_seq (local_hdr m) = Some m) ->
  mcast_store alloc m s = Some (Some s') ->
  agrees log top d0 s' /\ tkey s' = tkey s.
Proof.
  intros LG A Hm. unfold mcast_store. cbn zeta. set (seq := m_seq (local_hdr m)) in *.
  destruct (is_encapsulated m) eqn:Em.
  - destruct (negb _); [intros [= <-]; done|].
    intros (inuse & _ & H)%bind_Some. destruct inuse; [revert H; intros [= <-]; done|].
    destruct (negb alloc); [done|]. apply bind_Some in H as (q & _ & [= <-]).
    match goal with |- agrees _ _ _ ?x /\ _ => assert (K : okey x = okey s) by (destruct (sq_lt_compare _ _); reflexivity) end.
    split; [eapply agrees_okey; eauto|now apply tkey_okey].
  - specialize (Hm eq_refl). pose proof (lg_range _ _ LG _ _ Hm) as Hr. pose proof (lg_base _ _ LG). pose proof (lg_top _ _ LG).
    unfold seq_limit in *. pose proof (ag_ordered _ _ _ _ A) as O.
    rewrite sq_in_range_spec by (apply O || lia).
    destruct (in_window _ _ seq) eqn:Ew; cbn [negb]; [|intros [= <-]; done].
    rewrite sq_item_inuse_spec by (apply O || done). cbn [mbind option_bind].
    destruct (bool_decide_reflect (is_Some (sq_abs (regular_sort_queue s) seq))) as [Hs|Hs]; [intros [= <-]; done|].
    destruct (negb alloc); [done|]. rewrite <- eq_None_not_Some in Hs.
    destruct (sq_item_add_spec m seq (regular_sort_queue s) (od_wf _ O) Ew Hs) as (q & E & W & H1 & H2 & H3).
    rewrite E. cbn [mbind option_bind]. intros [= <-].
    set (s' := _ <| regular_sort_queue := q |>).
    assert (F : regular_sort_queue s' = q /\ last_released s' = last_released s
                /\ my_high_delivered s' = my_high_delivered s /\ my_last_aru s' = my_last_aru s
                /\ outs s' = outs s /\ tkey s' = tkey s)
      by (subst s'; destruct (sq_lt_compare _ _); done).
    destruct F as (F1 & F2 & F3 & F4 & F5 & F6). clearbody s'. split; [|done].
    apply (agrees_queue log top d0 s); rewrite ?F1; try done.
    intros n x. unfold received. rewrite F1, H3. destruct (decide (n = seq)) as [->|]; [congruence|].
    apply (ag_received _ _ _ _ A).
Qed.

Lemma agrees_remcast log top d0 seq s res s' :
  agrees log top d0 s -> in_recovery s = false -> 0 <= seq < 2 ^ 32 ->
  log_ok log top -> orf_token_remcast seq s = Some (res, s') ->
  agrees log top d0 s' /\ tkey s' = tkey s.
Proof.
  intros A Hr Hq LG. unfold orf_token_remcast, sort_queue. rewrite Hr.
  pose proof (ag_ordered _ _ _ _ A) as O. rewrite sq_in_range_spec by (apply O || done).
  destruct (in_window _ _ seq) eqn:Ew; cbn [negb]; [|intros [= _ <-]; done].
  rewrite sq_item_get_spec by (apply O || done). cbn [mbind option_bind].
  destruct (sq_abs _ seq) as [m|] eqn:Em; cbn [from_option]; [|intros [= _ <-]; done]. intros [= _ <-].
  split; [|eapply (tkey_out _ _ [NetMcast m]); [reflexivity..|]; intros t Ht; apply list_elem_of_singleton in Ht; discriminate].
  pose proof (ag_received _ _ _ _ A seq m Em) as Hlog. destruct A as [O' B C L G (l & E1 & E2 & E3)].
  split; [split; apply O'|exact B|exact C|exact L| |].
  - intros x. rewrite outs_emit. cbn [is_traffic]. rewrite elem_of_app, list_elem_of_singleton.
    intros [Hx|[= ->] ]; [now apply G|]. intros _ _. now rewrite (lg_stamp _ _ LG _ _ Hlog).
  - exists l. unfold deliveries in *. rewrite outs_emit. cbn [is_traffic]. rewrite omap_app. cbn. rewrite app_nil_r. auto.
Qed.

(** Tokens as they come from the wire. *)
Definition wire_token (t : orf_token) : Prop :=
  0 <= t_aru t < 2 ^ 32 /\ forall x, x ∈ t_rtr_list t -> 0 <= rtr_seq x < 2 ^ 32.

Lemma in_recovery_tk s s' : key s' = key s -> in_recovery s = false -> in_recovery s' = false.
Proof. intros H. now rewrite (in_recovery_key _ _ H). Qed.

Lemma agrees_rtr_remcast log top d0 n l s l' s' :
  log_ok log top -> agrees log top d0 s -> in_recovery s = false ->
  (forall x, x ∈ l -> 0 <= rtr_seq x < 2 ^ 32) -> 0 <= fcc_remcast_current s <= n ->
  rtr_remcast n l s = Some (l', s') ->
  agrees log top d0 s' /\ tkey s' = tkey s /\ 0 <= fcc_remcast_current s' <= n.
Proof.
  intros LG. revert s l' s'. induction l as [|x l IH]; intros s l' s' A Hr Hx Hn; cbn; [now intros [= _ <-]|].
  destruct (Z.ltb_spec (fcc_remcast_current s) n); cbn [negb]; [|now intros [= _ <-] ].
  assert (Hl : forall y, y ∈ l -> 0 <= rtr_seq y < 2 ^ 32) by (intros y Hy; apply Hx; now right).
  destruct (bool_decide _).
  - intros ([l1 s1] & H1 & [= _ <-])%bind_Some. eapply IH; eauto.
  - intros ([res s1] & H1 & H2)%bind_Some.
    pose proof (steady_remcast key _ _ _ _ H1) as K1.
    assert (Hc : fcc_remcast_current s1 = fcc_remcast_current s).
    { revert H1. unfold orf_token_remcast. destruct (negb _); [now intros [= _ <-]|].
      intros ([e|m] & _ & [= _ <-])%bind_Some; done. }
    destruct (agrees_remcast log top d0 (rtr_seq x) s res s1) as [A1 T1]; [done|done|apply Hx; now left|done|done|].
    destruct (res =? 0).
    + apply IH in H2; [|eapply agrees_okey; [|exact A1]; reflexivity|now apply (in_recovery_tk _ _ K1)|done|cbn; lia].
      destruct H2 as (A2 & T2 & C2). split; [done|]. split; [|done]. rewrite T2. etransitivity; [|exact T1]. reflexivity.
    + apply bind_Some in H2 as ([l2 s2] & H2 & [= _ <-]).
      apply IH in H2; [|done|now apply (in_recovery_tk _ _ K1)|done|lia].
      destruct H2 as (A2 & T2 & C2). split; [done|]. split; [congruence|done].
Qed.

Lemma agrees_miss_count log top d0 seq s c q :
  agrees log top d0 s -> in_recovery s = false ->
  in_window (head_seqid (regular_sort_queue s)) (size (regular_sort_queue s)) seq = true ->
  sq_item_miss_count seq (sort_queue s) = Some (c, q) ->
  agrees log top d0 (set_sort_queue q s) /\ tkey (set_sort_queue q s) = tkey s.
Proof.
  intros A Hr Hw. unfold sort_queue, set_sort_queue. rewrite Hr. intros H.
  destruct (sq_item_miss_count_spec seq (regular_sort_queue s)) as (v & q' & E & W & H1 & H2 & H3); [apply A|done|].
  rewrite E in H. revert H. intros [= <- <-]. split; [|reflexivity].
  apply (agrees_queue log top d0 s); try done. intros n m. unfold received. cbn. rewrite H3. apply (ag_received _ _ _ _ A).
Qed.

Lemma agrees_rtr log top d0 cfg n token s a b token' s' :
  log_ok log top -> agrees log top d0 s -> in_recovery s = false -> wire_token token -> 0 <= n < 2 ^ 32 ->
  orf_token_rtr cfg n token s = Some (a, b, token', s') ->
  agrees log top d0 s' /\ tkey s' = tkey s /\ 0 <= b <= n
  /\ t_seq token' = t_seq token /\ t_token_seq token' = t_token_seq token /\ t_ring_id token' = t_ring_id token.
Proof.
  intros LG A Hr [Ha Hw] Hn. unfold orf_token_rtr. cbn zeta. destruct (_ || _); [done|].
  intros ([l1 s1] & H1 & H)%bind_Some.
  set (s0 := s <| fcc_remcast_current := 0 |>) in H1.
  assert (A0 : agrees log top d0 s0) by (eapply agrees_okey; [|exact A]; reflexivity).
  pose proof (steady_rtr_remcast key _ _ _ _ _ H1) as K1.
  apply (agrees_rtr_remcast log top d0) in H1; [|done|done|exact Hr| |cbn; lia].
  2:{ intros x Hx. apply Hw. now apply elem_of_take in Hx as (i & Hx%list_elem_of_lookup_2 & _). }
  destruct H1 as (A1 & T1 & C1). destruct (negb _); [done|].
  apply bind_Some in H as ([l2 s2] & H2 & [= <- <- <- <-]).
  assert (R : agrees log top d0 s2 /\ tkey s2 = tkey s1 /\ key s2 = key s1).
  { revert H2. change s2 with (snd (l2, s2)).
    apply (loop_inv (fun p => agrees log top d0 (snd p) /\ tkey (snd p) = tkey s1 /\ key (snd p) = key s1)); [|done].
    clear - Hr K1. intros i [l x] res (Ax & Tx & Kx) Hx. cbn [snd] in *.
    assert (Hrx : in_recovery x = false) by (apply (in_recovery_tk s); [rewrite Kx, K1; reflexivity|done]).
    unfold rtr_request_step in Hx. destruct (negb _); [now revert Hx; intros [= <-]|]. cbn zeta in Hx.
    set (seq := u32 (my_aru x + i)) in *. assert (Hs : 0 <= seq < 2 ^ 32) by apply u32_range.
    assert (Hq : sort_queue x = regular_sort_queue x) by (unfold sort_queue; now rewrite Hrx).
    rewrite Hq, sq_in_range_spec in Hx by (apply Ax || done).
    destruct (in_window _ _ seq) eqn:Ew; cbn [negb] in Hx; [|now revert Hx; intros [= <-] ].
    apply bind_Some in Hx as (inuse & _ & Hx). destruct inuse; [now revert Hx; intros [= <-]|].
    apply bind_Some in Hx as ([c q] & Hc & Hx). rewrite <- Hq in Hc.
    destruct (agrees_miss_count log top d0 seq x c q Ax Hrx Ew Hc) as [Aq Tq].
    assert (Kq : key (set_sort_queue q x) = key s1) by (rewrite (steady_set_sort_queue key); done).
    cbn zeta in Hx. destruct (c <? _); [revert Hx; intros [= <-]; cbn; split_and!; congruence || done|].
    destruct (existsb _ _); revert Hx; intros [= <-]; cbn; split_and!; congruence || done. }
  destruct R as (A2 & T2 & _). split; [done|]. split; [rewrite T2, T1; reflexivity|].
  rewrite u32_small by lia. split; [lia|done].
Qed.

(** ** New messages on the ring *)

(** The log after the messages [l] got the numbers after [n]. *)
Fixpoint log_app (log : gmap Z mcast_msg) (n : Z) (l : list mcast_msg) : gmap Z mcast_msg :=
  match l with [] => log | m :: l' => log_app (<[n + 1 := m]> log) (n + 1) l' end.

Lemma lookup_log_app log n l x :
  log_app log n l !! x
  = if (n <? x) && (x <=? n + Z.of_nat (length l)) then l !! Z.to_nat (x - n - 1) else log !! x.
Proof.
  revert log n. induction l as [|m l IH]; intros log n; cbn [log_app length].
  - destruct (Z.ltb_spec n x), (Z.leb_spec x (n + Z.of_nat 0)); lia || done.
  - rewrite IH. destruct (Z.ltb_spec (n + 1) x), (Z.leb_spec x (n + 1 + Z.of_nat (length l))), (Z.ltb_spec n x),
      (Z.leb_spec x (n + Z.of_nat (Datatypes.S (length l)))); cbn [andb]; try lia.
    + replace (Z.to_nat (x - n - 1)) with (Datatypes.S (Z.to_nat (x - (n + 1) - 1))) by lia. done.
    + rewrite lookup_insert_ne by lia. done.
    + replace x with (n + 1) by lia. rewrite lookup_insert_eq. now replace (Z.to_nat (n + 1 - n - 1)) with O by lia.
    + rewrite lookup_insert_ne by lia. done.
Qed.

Lemma log_app_sub log top l : log_ok log top -> log ⊆ log_app log top l.
Proof.
  intros LG. apply map_subseteq_spec. intros n m Hm. rewrite lookup_log_app.
  pose proof (lg_range _ _ LG _ _ Hm). destruct (Z.ltb_spec top n); [lia|done].
Qed.

Lemma log_app_ok log top l :
  log_ok log top -> top + Z.of_nat (length l) <= seq_limit ->
  (forall k m, l !! k = Some m -> m_seq (hdr m) = top + 1 + Z.of_nat k) ->
  log_ok (log_app log top l) (top + Z.of_nat (length l)).
Proof.
  intros LG Hl Hs. pose proof (lg_base _ _ LG). split; [| |lia|done].
  - intros n m. rewrite lookup_log_app. destruct (_ && _) eqn:E.
    + apply andb_prop in E as [E1%Z.ltb_lt E2%Z.leb_le]. intros _. lia.
    + intros Hm%(lg_range _ _ LG). lia.
  - intros n m. rewrite lookup_log_app. destruct (_ && _) eqn:E.
    + apply andb_prop in E as [E1%Z.ltb_lt E2%Z.leb_le]. intros Hm%Hs. lia.
    + apply (lg_stamp _ _ LG).
Qed.

Lemma agrees_multicast log top d0 l s s' :
  log_ok log top -> agrees log top d0 s -> multicast top l s s' ->
  (forall k m, l !! k = Some m -> m_seq (hdr m) = top + 1 + Z.of_nat k) ->
  top + Z.of_nat (length l) <= seq_limit ->
  agrees (log_app log top l) (top + Z.of_nat (length l)) d0 s' /\ tkey s' = tkey s.
Proof.
  intros LG A M Hs Hl. pose proof (log_app_sub _ _ l LG) as Hsub.
  pose proof M as [MO MR MU ML MD MT MA MQ MC _ _].
  split; [|eapply tkey_out; [exact MQ|exact MT|exact MC|exact MU|apply no_token_mcast] ].
  apply (agrees_mono log (log_app log top l) top (top + Z.of_nat (length l))) in A; [|done|lia].
  pose proof (outs_out _ _ _ MU) as Fo. rewrite filter_mcast in Fo.
  destruct A as [O B C L G (k & E1 & E2 & E3)]. split.
  - exact MO.
  - intros n m. rewrite MR. destruct (_ && _) eqn:E; [|apply B].
    intros Hm. rewrite lookup_log_app, E. done.
  - now rewrite MD.
  - now rewrite MA.
  - intros m Hm. apply (elem_of_outs_app _ _ _ _ Fo) in Hm as [Hm|Hm]; [now apply G|]. intros _ _.
    apply list_elem_of_In, in_map_iff in Hm as (x & [= ->] & Hx%list_elem_of_In).
    apply list_elem_of_lookup in Hx as [j Hj]. pose proof (lookup_lt_Some _ _ _ Hj). rewrite (Hs _ _ Hj), lookup_log_app.
    rewrite (proj2 (Z.ltb_lt _ _)), (proj2 (Z.leb_le _ _)) by lia. cbn [andb].
    now replace (Z.to_nat (top + 1 + Z.of_nat j - top - 1)) with j by lia.
  - exists k. rewrite (deliveries_app _ _ _ Fo), omap_mcast, app_nil_r, MD. auto.
Qed.

(** What a visit of the token does to the log, the processor and the token. *)
Record visited (log : gmap Z mcast_msg) (top : Z) (d0 : list mcast_msg) (bound : Z)
    (token token' : orf_token) (s' : srp) (log' : gmap Z mcast_msg) (top' : Z) : Prop := {
  vs_log : log_ok log' top';
  vs_sub : log ⊆ log';
  vs_top : top <= top' <= bound;
  vs_agrees : agrees log' top' d0 s';
  vs_seq : t_seq token' = top';
  vs_token_seq : t_token_seq token' = t_token_seq token;
  vs_ring : t_ring_id token' = t_ring_id token
}.

Lemma agrees_token_use cfg log top d0 f token s f' token' s' :
  sane_flow cfg -> log_ok log top -> agrees log top d0 s -> in_recovery s = false -> wire_token token ->
  t_seq token = top -> top + max_messages cfg <= seq_limit ->
  token_use cfg f token s = Some (f', token', s') ->
  tkey s' = tkey s
  /\ exists log' top', visited log top d0 (top + max_messages cfg) token token' s' log' top'.
Proof.
  intros (Hw & Hm & Hwm) LG A Hr Hwt Ht Hb. unfold token_use.
  pose proof (frame_fcc_calculate okey cfg token s) as K0. pose proof (frame_fcc_calculate key cfg token s) as K0'.
  pose proof (fcc_calculate_range cfg token s Hm) as R0.
  destruct (fcc_calculate cfg token s) as [ta s0]. cbn [fst snd] in *.
  intros ([[[a b] t1] s1] & H1 & H)%bind_Some. cbn zeta in H.
  pose proof (steady_orf_token_rtr key _ _ _ _ _ _ _ _ H1) as K1.
  apply (agrees_okey _ _ _ _ s0 K0) in A. apply tkey_okey in K0.
  assert (Hr0 : in_recovery s0 = false) by now apply (in_recovery_tk s).
  unfold QUEUE_RTR_ITEMS_SIZE_MAX in Hwm.
  apply (agrees_rtr log top d0) in H1; [|done|done|done|done|lia].
  destruct H1 as (A1 & T1 & B1 & S1 & Q1 & G1).
  match type of H with context [if ?c then s1 <| my_token_held := false |> else s1] => set (cn := c) in H end.
  set (s2 := if cn then s1 <| my_token_held := false |> else s1) in H.
  assert (K2 : okey s2 = okey s1) by (subst s2; destruct cn; reflexivity).
  assert (K2' : key s2 = key s1) by (subst s2; destruct cn; reflexivity). clearbody s2.
  apply (agrees_okey _ _ _ _ s2 K2) in A1. apply tkey_okey in K2.
  assert (Hr2 : in_recovery s2 = false) by (apply (in_recovery_tk s0); [congruence|done]).
  pose proof (ag_ordered _ _ _ _ A1) as O2. pose proof (od_released _ O2) as L2. pose proof (od_delivered _ O2).
  pose proof (ag_delivered _ _ _ _ A1) as D2. pose proof (lg_base _ _ LG).
  apply bind_Some in H as (ta2 & H2 & ([[c t3] s3] & H3 & H)%bind_Some).
  rewrite fcc_rtr_limit_plain in H2 by (unfold seq_limit, QUEUE_RTR_ITEMS_SIZE_MAX in *; lia).
  assert (Hta : 0 <= ta2 <= b /\ top + ta2 <= last_released s2 + QUEUE_RTR_ITEMS_SIZE_MAX \/ ta2 = 0).
  { revert H2. intros [= <-]. rewrite S1, Ht.
    destruct (Z.ltb_spec (last_released s2 + QUEUE_RTR_ITEMS_SIZE_MAX - b - window_size cfg) top); lia. }
  clear H2. unfold orf_token_mcast in H3. rewrite Hr2 in H3. cbn zeta in H3.
  apply bind_Some in H3 as ([[c1 t4] s4] & H4 & (s5 & H5 & [= _ <- <-])%bind_Some).
  assert (L : exists l, multicast top l s2 s4 /\ Z.of_nat (length l) <= max_messages cfg
                /\ t4 = t1 <| t_seq := top + Z.of_nat (length l) |>
                /\ forall k m, l !! k = Some m -> m_seq (hdr m) = top + 1 + Z.of_nat k).
  { assert (Hnone : forall x, t_seq t1 < x -> received s2 x = None).
    { intros x Hx. destruct (received s2 x) as [m|] eqn:E; [|done].
      apply (ag_received _ _ _ _ A1), (lg_range _ _ LG) in E. lia. }
    destruct Hta as [Hta| ->].
    - destruct (mcast_loop_partial (Z.to_nat ta2) 0 t1 s2 c1 t4 s4 O2 Hr2 ltac:(lia) ltac:(lia) Hnone H4) as (l & M & Hlen & -> & Hl).
      exists l. rewrite S1, Ht in *. split_and!; [done|lia|done|]. intros k m Hk. now apply Hl.
    - revert H4. cbn [Z.to_nat orf_token_mcast_loop]. intros [= _ <- <-]. exists []. cbn [length].
      split_and!; [now apply multicast_refl|lia| |done].
      replace top with (t_seq t1) by lia. now rewrite set_seq_same. }
  destruct L as (l & M & Hlen & -> & Hl).
  destruct (agrees_multicast log top d0 l s2 s4 LG A1 M Hl ltac:(lia)) as [A4 T4].
  pose proof (frame_update_aru okey _ _ H5) as K5.
  match type of H with context [fcc_token_update ?t ?n s5] => pose proof (frame_fcc_token_update okey t n s5) as K6;
    destruct (fcc_token_update t n s5) as [t6 s6] eqn:E6 end.
  cbn [snd] in K6. revert H. intros [= <- <- <-].
  rewrite K5 in K6. pose proof (tkey_okey _ _ K6) as T6.
  split; [congruence|].
  exists (log_app log top l), (top + Z.of_nat (length l)).
  unfold fcc_token_update in E6. revert E6. intros [= <- _].
  split; [now apply log_app_ok; try lia|now apply log_app_sub|lia|now apply (agrees_okey _ _ _ s4)|cbn..]; done.
Qed.

End Agree.
