(* ===== verification/TotemSrpRing.v ===== *)
(** * Totem single ring protocol: the steps of a processor of a ring

    Every event either is calm, leaving the log and the token alone, or uses the
    token of the ring: it consumes one token and sends at most one. *)
From S2P Require Import Prelude VoteQuorum Endian SortQueue SortQueueTheory CsQueue TotemMemb TotemSrp TotemSrpOps TotemSrpHandlers TotemSrpFrame TotemSrpTheory TotemSrpProps TotemSrpOrder TotemSrpAgree.

(** A token of a ring the processor has sent, or keeps to send again. *)
Definition sent (t : orf_token) (s : srp) : Prop := NetToken (SentOrf t) ∈ outs s \/ orf_tok s = Some t.

Lemma sent_tkey t s s' : tkey s' = tkey s -> sent t s' -> sent t s.
Proof.
  unfold tkey. intros E. injection E as _ E2 _ E4. unfold sent. rewrite E2. intros [H|H]; [left|now right].
  apply list_elem_of_In in H. apply list_elem_of_In.
  assert (F : In (NetToken (SentOrf t)) (List.filter (fun e => match e with NetToken _ => true | _ => false end) (outs s')))
    by now apply filter_In.
  rewrite E4 in F. now apply filter_In in F.
Qed.

(** ** What is flushed before the token keeps the ring *)

#[export] Instance ring_id_minor : Minor my_ring_id.
Proof. split; try apply _; [done|]. intros. assumption. Qed.

Lemma ring_gather_enter cfg g s s' : memb_state_gather_enter cfg g s = Some s' -> my_ring_id s' = my_ring_id s.
Proof. intros H%(frame_gather_enter my_ring_id). exact H. Qed.

Lemma ring_foreign cfg a g1 g2 s s' : foreign_message cfg a g1 g2 s = Some s' -> my_ring_id s' = my_ring_id s.
Proof.
  unfold foreign_message.
  assert (H : forall g, (s ← merge_proc_list [a] s; memb_state_gather_enter cfg g s) = Some s' -> my_ring_id s' = my_ring_id s).
  { intros g (s1 & H1%(frame_merge_proc my_ring_id) & H2%ring_gather_enter)%bind_Some. congruence. }
  destruct (memb_state s); [apply H|destruct (memb_set_subset _ _); [|apply H]|..]; now intros [= <-].
Qed.

Lemma ring_mcast cfg alloc frame m s x s' :
  message_handler_mcast cfg alloc frame m s = Some (x, s') -> my_ring_id s' = my_ring_id s.
Proof.
  unfold message_handler_mcast. destruct (negb _); [now intros [= _ <-]|].
  destruct (frame <? _); [done|]. cbn zeta. destruct (bool_decide _).
  - intros (s1 & H1%ring_foreign & [= _ <-])%bind_Some. done.
  - intros ([s1|] & H1 & H)%bind_Some; [|now revert H; intros [= _ <-] ].
    apply (steady_mcast_store key), ring_id_key in H1. rewrite <- H1.
    apply bind_Some in H as (s2 & H2%(frame_update_aru my_ring_id) & (s3 & H3 & [= _ <-])%bind_Some). rewrite <- H2.
    destruct (is_operational s2); [now apply (steady_deliver key), ring_id_key in H3|now simplify_eq].
Qed.

Lemma ring_join_flushing cfg len conv now e j s s' :
  flushing s = true -> message_handler_memb_join cfg len conv now e j s = Some s' ->
  memb_state s = MEMB_STATE_OPERATIONAL \/ memb_state s = MEMB_STATE_GATHER -> my_ring_id s' = my_ring_id s.
Proof.
  intros Hf. unfold message_handler_memb_join. destruct (negb _); [now intros [= <-]|]. cbn zeta.
  set (j1 := if conv then memb_join_endian_convert j else j). clearbody j1.
  destruct (c_true _); [now intros [= <-]|].
  set (s1 := if token_ring_id_seq s <? j_ring_seq j1 then _ else s).
  assert (H1 : flushing s1 = true /\ memb_state s1 = memb_state s /\ my_ring_id s1 = my_ring_id s)
    by (subst s1; destruct (_ <? _); done).
  destruct H1 as (F1 & -> & <-). clearbody s1. clear Hf.
  assert (Hp : memb_join_process cfg j1 s1 = Some s' -> my_ring_id s' = my_ring_id s1)
    by (intros H%(join_process_flushing cfg key); [now apply ring_id_key|done]).
  intros H [E|E]; rewrite E in H; [|auto]. destruct (ignore_join_under_operational _ _); [now simplify_eq|auto].
Qed.

(** On the ring [r], before the next one is committed. *)
Definition on_ring (r : ring_id) (s : srp) : Prop :=
  my_ring_id s = r /\ (memb_state s = MEMB_STATE_OPERATIONAL \/ memb_state s = MEMB_STATE_GATHER).

Lemma on_ring_stays r s s' : my_ring_id s' = my_ring_id s -> stays s s' -> on_ring r s -> on_ring r s'.
Proof. intros E [_ S] [Hr Hs]. split; [congruence|]. destruct S as [-> | ->]; auto. Qed.

Lemma on_ring_key r s s' : key s' = key s -> on_ring r s -> on_ring r s'.
Proof. intros K. apply on_ring_stays; [now apply ring_id_key|now apply stays_key]. Qed.

Lemma on_ring_recovery r s : on_ring r s -> in_recovery s = false.
Proof. intros [_ [H|H] ]; unfold in_recovery; now rewrite H. Qed.

Lemma on_ring_flush r cfg alloc frame f s s' :
  flushing s = true -> on_ring r s -> flush_deliver cfg alloc frame f s = Some s' ->
  on_ring r s' /\ flushing s' = true.
Proof.
  intros Hf Hr H. assert (E : my_ring_id s' = my_ring_id s /\ stays s s').
  { destruct f as [m|len conv d|len conv now e j|len x]; cbn in H.
    - destruct (message_handler_mcast _ _ _ m s) as [ [y s1]|] eqn:E; [|done]. cbn in H. simplify_eq.
      split; [eapply ring_mcast, E|eapply stays_mcast, E].
    - split; [|eapply stays_merge_detect, H]. revert H. unfold message_handler_memb_merge_detect.
      destruct (negb _); [now intros [= <-]|]. cbn zeta. destruct (bool_decide _); [now intros [= <-]|apply ring_foreign].
    - split; [eapply ring_join_flushing; [exact Hf|exact H|apply Hr]|eapply join_handler_flushing; eauto].
    - simplify_eq. split; [apply ring_id_key, (steady_hold_cancel_handler key)|apply stays_key, (steady_hold_cancel_handler key)]. }
  destruct E as [E S]. split; [now apply (on_ring_stays r s)|]. destruct S as [ [_ _ F _] _]. congruence.
Qed.

Section Steps.
Context (r : ring_id) (base : Z) (log : gmap Z mcast_msg) (top : Z) (d0 : list mcast_msg).
Context (LG : log_ok base log top).

Abbreviation agr := (agrees r base log top d0).

Record calmed (s s' : srp) : Prop := {
  cm_agrees : agr s';
  cm_token_seq : my_token_seq s' = my_token_seq s;
  cm_discard : orf_token_discard s = true -> orf_token_discard s' = true;
  cm_sent : forall t, sent t s' -> sent t s
}.

Definition calm (s s' : srp) : Prop := agr s -> calmed s s'.

#[local] Instance calm_refl : Reflexive calm.
Proof. now split. Qed.

#[local] Instance calm_trans : Transitive calm.
Proof.
  intros s1 s2 s3 H1 H2 A. destruct (H1 A) as [A1 B1 C1 D1]. destruct (H2 A1) as [A2 B2 C2 D2].
  split; [auto|congruence|auto..].
Qed.

Lemma calm_tkey s s' : (agr s -> agr s' /\ tkey s' = tkey s) -> calm s s'.
Proof.
  intros H A. destruct (H A) as [A' T].
  split; [done| | |intros t; now apply sent_tkey]; unfold tkey in T; injection T as E1 _ E3 _; congruence.
Qed.

Lemma calm_okey s s' : okey s' = okey s -> calm s s'.
Proof. intros K. apply calm_tkey. intros A. split; [now apply (agrees_okey _ _ _ _ _ s)|now apply tkey_okey]. Qed.

(** ** Membership *)

Lemma calm_discard st s : calm s (s <| orf_token_discard := true |> <| memb_state := st |>).
Proof. intros A. split; [apply (agrees_akey _ _ _ _ _ s); done|done..]. Qed.

Lemma calm_gather_enter cfg g s s' : memb_state_gather_enter cfg g s = Some s' -> calm s s'.
Proof. intros H%(frame_gather_enter okey). etransitivity; [apply (calm_discard MEMB_STATE_GATHER)|now apply calm_okey]. Qed.

Lemma calm_okey_gather cfg g s s1 s' :
  okey s1 = okey s -> memb_state_gather_enter cfg g s1 = Some s' -> calm s s'.
Proof. intros K H. transitivity s1; [now apply calm_okey|eapply calm_gather_enter, H]. Qed.

Lemma calm_foreign cfg a g1 g2 s s' : foreign_message cfg a g1 g2 s = Some s' -> calm s s'.
Proof.
  unfold foreign_message.
  assert (H : forall g, (s ← merge_proc_list [a] s; memb_state_gather_enter cfg g s) = Some s' -> calm s s').
  { intros g (s1 & H1%(frame_merge_proc okey) & H2)%bind_Some. eapply calm_okey_gather; eauto. }
  destruct (memb_state s); [apply H|destruct (memb_set_subset _ _); [|apply H]|..]; intros [= <-]; reflexivity.
Qed.

Lemma calm_consensus_timeout cfg s s' : memb_state_consensus_timeout_expired cfg s = Some s' -> calm s s'.
Proof.
  unfold memb_state_consensus_timeout_expired. intros (agreed & _ & H)%bind_Some. destruct agreed.
  - apply bind_Some in H as (s1 & H1%(frame_consensus_set okey) & [= <-]). apply calm_okey.
    rewrite (frame_reset_token_timeout okey), H1. reflexivity.
  - apply bind_Some in H as (s1 & H1%(frame_merge_failed okey) & H2). eapply calm_okey_gather; eauto.
Qed.

Lemma okey_commit_enter cfg s s' : memb_state_commit_enter cfg s = Some s' -> okey s' = okey s.
Proof.
  unfold memb_state_commit_enter. pose proof (frame_old_ring_state_save okey s) as K0.
  intros (s1 & [H1 _]%(frame_commit_token_update okey) & (s2 & [H2 _]%(frame_target_set okey) & [= <-])%bind_Some)%bind_Some.
  match goal with |- okey (?x <| my_trc := 0 |> <| my_pbl := 0 |> <| my_cbl := 0 |>) = _ => change (okey x = okey s) end.
  rewrite (frame_reset_token_timeout okey), (frame_reset_token_retransmit okey), <- K0, <- H1, <- H2. unfold commit_ring.
  match goal with |- okey ((srp_emit ?e (memb_ring_id_set ?i ?x) <| token_ring_id_seq := ?q |>) <| memb_state := ?st |>) = _ =>
    change (okey (srp_emit e x) = okey s2) end.
  rewrite !(frame_emit okey) by done. reflexivity.
Qed.

Lemma calm_token_timeout cfg s s' :
  in_recovery s = false -> timer_function_orf_token_timeout cfg s = Some s' -> calm s s'.
Proof.
  unfold timer_function_orf_token_timeout, in_recovery. destruct (memb_state s); [..|done]; intros _.
  - apply calm_okey_gather. now rewrite (frame_emit okey).
  - intros (s1 & H1%calm_consensus_timeout & H2%calm_gather_enter)%bind_Some. now transitivity s1.
  - apply calm_gather_enter.
Qed.

(** ** Join messages *)

Lemma okey_create s s' : memb_state_commit_token_create s = Some s' -> okey s' = okey s.
Proof. unfold memb_state_commit_token_create. cbn zeta. now intros ([] & _ & [= <-])%bind_Some. Qed.

Lemma okey_join_agreed cfg j s b s' : join_agreed cfg j s = Some (b, s') -> okey s' = okey s.
Proof.
  unfold join_agreed. intros (s1 & H1 & (agreed & _ & H)%bind_Some)%bind_Some.
  assert (K1 : okey s1 = okey s)
    by (destruct (_ =? _); [now simplify_eq|now apply (frame_consensus_set okey) in H1]).
  clear H1. rewrite <- K1. destruct (agreed && failed_to_recv s1).
  - cbn zeta in H. apply bind_Some in H as (s3 & H3%okey_create & (s4 & H4%okey_commit_enter & [= _ <-])%bind_Some).
    rewrite H4, H3. reflexivity.
  - apply bind_Some in H as ([] & _ & H); [|now simplify_eq].
    apply bind_Some in H as (s3 & H3%okey_create & (s4 & H4%okey_commit_enter & [= _ <-])%bind_Some). congruence.
Qed.

Lemma calm_join_out cfg s s' : join_out cfg s = Some s' -> calm s s'.
Proof. unfold join_out. destruct (is_operational s); [apply calm_gather_enter|intros [= <-]; reflexivity]. Qed.

Lemma calm_join_merge cfg j s s' : join_merge cfg j s = Some s' -> calm s s'.
Proof.
  unfold join_merge. intros (s1 & H1%(frame_merge_proc okey) & (s2 & H2 & H3)%bind_Some)%bind_Some.
  eapply calm_okey_gather; [|exact H3]. rewrite <- H1. clear H1 H3.
  destruct (memb_set_subset [my_id s1] _); [now apply (frame_merge_failed okey) in H2|].
  destruct (memb_set_subset [j_system_from j] (my_memb_list s1)); [|now simplify_eq].
  destruct (negb _); now apply (frame_merge_failed okey) in H2.
Qed.

Lemma calm_join_process cfg j s s' : memb_join_process cfg j s = Some s' -> calm s s'.
Proof.
  unfold memb_join_process. cbn zeta. pose proof (frame_note_leaver okey j s) as K.
  set (s0 := note_leaver j s) in *. clearbody s0. apply calm_okey in K. intros H. transitivity s0; [done|]. clear K.
  destruct (flushing s0); [revert H; intros [= <-]; reflexivity|].
  destruct (memb_set_equal _ _ && _).
  - apply bind_Some in H as ([done s1] & H1%okey_join_agreed%calm_okey & H). transitivity s1; [exact H1|].
    destruct done; [revert H; intros [= <-]; reflexivity|eapply calm_join_out, H].
  - destruct (memb_set_subset _ _ && _); [eapply calm_join_out, H|].
    destruct (memb_set_subset _ _); [eapply calm_join_out, H|eapply calm_join_merge, H].
Qed.

Lemma calm_join cfg len conv now e j s s' :
  in_recovery s = false -> message_handler_memb_join cfg len conv now e j s = Some s' -> calm s s'.
Proof.
  intros Hr. unfold message_handler_memb_join. destruct (negb _); [intros [= <-]; reflexivity|]. cbn zeta.
  set (j1 := if conv then memb_join_endian_convert j else j). clearbody j1.
  destruct (c_true _); [intros [= <-]; reflexivity|].
  set (s1 := if token_ring_id_seq s <? j_ring_seq j1 then _ else s).
  assert (K1 : okey s1 = okey s) by (subst s1; destruct (_ <? _); reflexivity).
  assert (Hr1 : in_recovery s1 = false) by (subst s1; destruct (_ <? _); exact Hr).
  apply calm_okey in K1. clearbody s1. intros H. transitivity s1; [exact K1|]. clear K1.
  unfold in_recovery in Hr1. destruct (memb_state s1); [..|done].
  - destruct (ignore_join_under_operational _ _); [revert H; intros [= <-]; reflexivity|eapply calm_join_process, H].
  - eapply calm_join_process, H.
  - destruct (join_from_new_ring _ _); [|revert H; intros [= <-]; reflexivity].
    apply bind_Some in H as (x & Hx%calm_join_process & H%calm_gather_enter). now transitivity x.
Qed.

Lemma calm_commit_token cfg len conv c s s' :
  memb_state s = MEMB_STATE_OPERATIONAL \/ memb_state s = MEMB_STATE_GATHER ->
  message_handler_memb_commit_token cfg len conv c s = Some s' -> calm s s'.
Proof.
  intros Hs. unfold message_handler_memb_commit_token. destruct (negb _); [intros [= <-]; reflexivity|]. cbn zeta.
  destruct Hs as [-> | ->]; [intros [= <-]; reflexivity|].
  destruct (_ && _); [|intros [= <-]; reflexivity]. intros H%okey_commit_enter. apply calm_okey. now rewrite H.
Qed.

(** ** Retransmission of the token *)

Lemma calm_retransmit s : calm s (token_retransmit s).
Proof.
  unfold token_retransmit. destruct (orf_token_retransmit s) as [[t|c]|] eqn:E; [..|reflexivity].
  - intros A. split; [|done|done|].
    + apply (agrees_akey _ _ _ _ _ s); [|done]. unfold akey, deliveries. rewrite outs_emit. cbn [is_traffic].
      rewrite omap_app, List.filter_app. cbn. rewrite !app_nil_r. reflexivity.
    + intros x. unfold sent at 1. rewrite outs_emit. cbn [is_traffic]. rewrite elem_of_app, list_elem_of_singleton.
      intros [ [H|[= ->] ]|H]; [now left|right; unfold orf_tok; now rewrite E|now right].
  - apply calm_okey. now rewrite (frame_emit okey).
Qed.

Lemma calm_retransmit_timer cfg s : calm s (timer_function_token_retransmit_timeout cfg s).
Proof.
  unfold timer_function_token_retransmit_timeout.
  assert (H : calm s (reset_token_retransmit_timeout cfg (token_retransmit s)))
    by (etransitivity; [apply calm_retransmit|apply calm_okey, (frame_reset_token_retransmit okey)]).
  destruct (memb_state s); (exact H || reflexivity).
Qed.

Lemma calm_hold_cancel cfg len r' s : calm s (message_handler_token_hold_cancel cfg len r' s).
Proof.
  unfold message_handler_token_hold_cancel. destruct (negb _); [reflexivity|]. destruct (bool_decide _); [reflexivity|].
  cbn zeta. destruct (_ =? _); [|now apply calm_okey].
  etransitivity; [|apply calm_retransmit_timer]. now apply calm_okey.
Qed.

Lemma calm_commit_transmit cfg c s : calm s (commit_token_transmit cfg c s).
Proof.
  unfold commit_token_transmit. transitivity (s <| orf_token_retransmit := Some (SentCommit c) |>).
  - intros A. split; [now apply (agrees_akey _ _ _ _ _ s)|done..|]. intros t [H|H]; [now left|done].
  - apply calm_okey. rewrite (frame_reset_token_retransmit okey). now rewrite (frame_emit okey).
Qed.

(** ** Messages of the ring *)

(** A message that claims to be of the ring is in the log. *)
Definition known (m : mcast_msg) : Prop :=
  m_ring_id (local_hdr m) = r -> is_encapsulated m = false -> log !! m_seq (local_hdr m) = Some m.

Definition known_flush (f : flushed_msg) : Prop := match f with FlushMcast m => known m | _ => True end.

Lemma calm_deliver e s s' : messages_deliver_to_app false e s = Some s' -> calm s s'.
Proof. intros H. apply calm_tkey. intros A. eapply agrees_deliver; eauto. Qed.

Lemma calm_deliver_if e s s' :
  (if is_operational s then messages_deliver_to_app false e s else Some s) = Some s' -> calm s s'.
Proof. destruct (is_operational s); [apply calm_deliver|intros [= <-]; reflexivity]. Qed.

Lemma calm_mcast cfg alloc frame m s x s' :
  my_ring_id s = r -> known m ->
  message_handler_mcast cfg alloc frame m s = Some (x, s') -> calm s s'.
Proof.
  intros Hr Hk. unfold message_handler_mcast. destruct (negb _); [intros [= _ <-]; reflexivity|].
  destruct (frame <? _); [done|]. cbn zeta. case_bool_decide as Hm.
  - intros (s1 & H1%calm_foreign & [= _ <-])%bind_Some. done.
  - intros ([s1|] & H1 & H)%bind_Some; [|revert H; intros [= _ <-]; reflexivity].
    apply bind_Some in H as (s2 & H2%(frame_update_aru okey)%calm_okey & (s3 & H3%calm_deliver_if & [= _ <-])%bind_Some).
    transitivity s1; [|transitivity s2; done]. apply calm_tkey. intros A. eapply agrees_store; eauto.
    intros He. apply Hk; [|done]. destruct (decide (my_ring_id s = m_ring_id (local_hdr m))); [congruence|done].
Qed.

Lemma calm_merge_detect cfg len conv d s s' : message_handler_memb_merge_detect cfg len conv d s = Some s' -> calm s s'.
Proof.
  unfold message_handler_memb_merge_detect. destruct (negb _); [intros [= <-]; reflexivity|].
  cbn zeta. destruct (bool_decide _); [intros [= <-]; reflexivity|apply calm_foreign].
Qed.

Lemma calm_flush_deliver cfg alloc frame f s s' :
  on_ring r s -> known_flush f -> flush_deliver cfg alloc frame f s = Some s' -> calm s s'.
Proof.
  intros Hr Hk H. destruct f as [m|len conv d|len conv now e j|len x]; cbn in H.
  - destruct (message_handler_mcast _ _ _ m s) as [ [y s1]|] eqn:E; [|done]. cbn in H. simplify_eq.
    eapply calm_mcast; [apply Hr|exact Hk|exact E].
  - eapply calm_merge_detect, H.
  - eapply calm_join, H. eapply on_ring_recovery, Hr.
  - simplify_eq. apply calm_hold_cancel.
Qed.

Lemma calm_flush cfg alloc frame l s s' :
  on_ring r s -> Forall known_flush l -> totemnet_recv_flush cfg alloc frame l s = Some s' ->
  calm s s' /\ on_ring r s'.
Proof.
  intros Hr Hk. unfold totemnet_recv_flush. intros (s1 & H & [= <-])%bind_Some.
  assert (G : forall l acc, Forall known_flush l ->
    (forall x, acc = Some x -> calm s x /\ on_ring r x /\ flushing x = true) ->
    foldl (fun acc f => acc ≫= flush_deliver cfg alloc frame f) acc l = Some s1 ->
    calm s s1 /\ on_ring r s1 /\ flushing s1 = true).
  { clear l Hk H. induction l as [|f l IH]; intros acc Hk Ha; cbn; [auto|]. apply Forall_cons in Hk as [Hf Hk].
    apply IH; [done|]. intros y (x & Hx & Hy)%bind_Some. destruct (Ha x Hx) as (C & O & F).
    destruct (on_ring_flush r _ _ _ _ _ _ F O Hy) as [O' F']. split; [|done]. transitivity x; [done|].
    eapply calm_flush_deliver; eauto. }
  apply G in H; [|done|]; last first.
  { intros x [= <-]. split; [now apply calm_okey|]. split; [exact Hr|done]. }
  destruct H as (C & O & _). split; [|exact O]. transitivity s1; [done|now apply calm_okey].
Qed.

(** ** Events other than the token *)

(** The messages an event hands to the processor are known. *)
Definition known_event (e : srp_event) : Prop :=
  match e with EvMcast m => known m | EvToken _ _ fl _ => Forall known_flush fl | _ => True end.

Lemma calm_event cfg alloc callback_fn frame e s s' :
  on_ring r s -> known_event e ->
  match e with EvToken _ _ _ _ => False | _ => True end ->
  srp_step cfg alloc callback_fn frame e s = Some s' -> calm s s'.
Proof.
  intros Hr Hk He. pose proof (on_ring_recovery _ _ Hr) as Hn. destruct e; cbn [srp_step]; [done|..]; clear He.
  - intros ([x y] & H & ->)%fmap_Some. eapply calm_mcast; [apply Hr|exact Hk|exact H].
  - apply calm_merge_detect.
  - now apply calm_join.
  - apply calm_commit_token, Hr.
  - intros [= <-]. apply calm_hold_cancel.
  - intros [= <-]. unfold target_set_completed, memb_state_commit_token_send. cbn zeta.
    etransitivity; [|apply calm_commit_transmit]. now apply calm_okey.
  - intros [= <-]. apply calm_okey. unfold timer_function_pause_timeout, reset_pause_timeout.
    now rewrite (frame_reset_timer okey).
  - now apply calm_token_timeout.
  - intros [= <-]. apply calm_okey. unfold timer_function_orf_token_warning, reset_token_warning, cancel_token_warning.
    destruct (c_true _); [apply (frame_reset_timer okey)|now apply (frame_emit okey)].
  - intros [= <-]. apply calm_retransmit_timer.
  - intros [= <-]. unfold timer_function_token_hold_retransmit_timeout.
    destruct (memb_state s); (apply calm_retransmit || reflexivity).
  - unfold timer_function_merge_detect_timeout. cbn zeta. intros H. apply calm_okey. revert H.
    destruct (_ && _); [|now intros [= <-] ].
    unfold memb_merge_detect_transmit. intros ([] & _ & [= <-])%bind_Some. now rewrite (frame_emit okey).
  - unfold memb_timer_function_state_gather. intros H. apply calm_okey.
    destruct (memb_state s); try done; apply bind_Some in H as (s1 & H1%(frame_join_send okey) & [= <-]);
      now rewrite (frame_reset_timer okey).
  - apply calm_consensus_timeout.
  - now apply calm_token_timeout.
  - intros ([x y] & H%(frame_totemsrp_mcast okey) & ->)%fmap_Some. now apply calm_okey.
  - intros H%(frame_hold_cancel okey). now apply calm_okey.
  - intros [= <-]. apply calm_okey. unfold totemsrp_trans_ack. now rewrite (frame_emit okey).
  - now apply calm_token_timeout.
  - intros ([x y] & H & ->)%fmap_Some. apply calm_okey. cbn [snd].
    unfold totemsrp_callback_token_create in H. apply bind_Some in H as (s1 & H1%(frame_hold_cancel okey) & H).
    rewrite <- H1. destruct (negb malloc_ok); revert H; intros [= _ <-]; [done|apply (frame_upd_callbacks okey)].
  - intros [= <-]. apply calm_okey, (frame_upd_callbacks okey).
  - unfold main_iface_change_fn. cbn zeta.
    match goal with |- context [num_interfaces <=? iface_changes ?x] => set (s1 := x) end.
    assert (K : okey s1 = okey s).
    { subst s1. destruct (_ =? 0), (c_true _); try destruct service_ready; rewrite ?(frame_emit okey) by done; done. }
    clearbody s1. destruct (_ <=? _); [now apply calm_okey_gather|]. intros [= <-]. now apply calm_okey.
  - unfold memb_leave_message_send. cbn zeta. intros (s1 & H1%(frame_merge_failed okey) & H)%bind_Some.
    apply calm_okey. rewrite <- H1. destruct (_ <? _); revert H; intros [= <-]; [done|now apply (frame_emit okey)].
Qed.

End Steps.

(** ** The token *)

(** A processor with the token [token] puts messages on the ring and passes one
    token on, or leaves the token behind and stops accepting tokens. *)
Record used (r : ring_id) (base : Z) (log : gmap Z mcast_msg) (top : Z) (d0 : list mcast_msg) (bound : Z)
    (token : orf_token) (s s' : srp) (log' : gmap Z mcast_msg) (top' : Z) : Prop := {
  us_log : log_ok base log' top';
  us_sub : log ⊆ log';
  us_top : top <= top' <= bound;
  us_agrees : agrees r base log' top' d0 s';
  us_discard : orf_token_discard s = true -> orf_token_discard s' = true;
  us_token :
    (orf_token_discard s' = true /\ my_token_seq s' = my_token_seq s /\ forall t, sent t s' -> sent t s)
    \/ (my_token_seq s' = t_token_seq token
        /\ exists t', t_seq t' = top' /\ t_token_seq t' = u32 (t_token_seq token + 1)
             /\ forall t, sent t s' -> sent t s \/ t = t')
}.

Section Token.
Context (r : ring_id) (base : Z) (log : gmap Z mcast_msg) (top : Z) (d0 : list mcast_msg).

Lemma used_calm bound token s1 s2 s3 s4 log' top' :
  agrees r base log top d0 s1 ->
  calm r base log top d0 s1 s2 -> used r base log top d0 bound token s2 s3 log' top' ->
  calm r base log' top' d0 s3 s4 -> used r base log top d0 bound token s1 s4 log' top'.
Proof.
  intros A C1 [U1 U2 U3 U4 U5 U6] C2. destruct (C1 A) as [A1 Q1 D1 S1]. destruct (C2 U4) as [A2 Q2 D2 S2].
  split; [done..|auto|]. destruct U6 as [(E1 & E2 & E3)|(E1 & t' & E2 & E2' & E3)].
  - left. split_and!; [auto|congruence|auto].
  - right. split; [congruence|]. exists t'. split; [done|]. split; [done|]. intros t Ht. destruct (E3 t) as [H| ->]; [auto|left; auto|now right].
Qed.

Lemma token_send_used token forward s s' :
  agrees r base log top d0 s -> token_send token forward s = Some s' ->
  agrees r base log top d0 s' /\ my_token_seq s' = my_token_seq s
  /\ orf_token_discard s' = orf_token_discard s
  /\ exists t', t_seq t' = t_seq token /\ t_token_seq t' = t_token_seq token /\ forall t, sent t s' -> sent t s \/ t = t'.
Proof.
  intros A. unfold token_send. cbn zeta. set (t' := token <| t_nodeid := my_id s |>).
  intros ([] & _ & [= <-])%bind_Some. destruct forward.
  - split; [|split_and!; [done..|exists t'; split; [done|]; split; [done|] ] ].
    + apply (agrees_akey _ _ _ _ _ s); [|done]. unfold akey, deliveries. rewrite outs_emit. cbn [is_traffic].
      rewrite omap_app, List.filter_app. cbn. rewrite !app_nil_r. reflexivity.
    + intros x. unfold sent at 1. rewrite outs_emit. cbn [is_traffic]. rewrite elem_of_app, list_elem_of_singleton.
      intros [ [H|[= ->] ]|[= <-] ]; [left; now left|now right..].
  - split; [now apply (agrees_akey _ _ _ _ _ s)|split_and!; [done..|exists t'; split; [done|]; split; [done|] ] ].
    intros x [H|[= <-] ]; [left; now left|now right].
Qed.

End Token.

Section Visit.
Context (cfg : totem_config) (alloc : bool) (callback_fn : Z -> srp -> Z * list (list Z * Z)) (frame : Z).
Context (r : ring_id) (base : Z) (d0 : list mcast_msg).

Lemma token_pass_used log top forward token s s' :
  log_ok base log top -> agrees r base log top d0 s -> in_recovery s = false -> t_seq token = top ->
  token_pass cfg alloc callback_fn forward token s = Some s' ->
  used r base log top d0 top token s s' log top.
Proof.
  intros LG A Hr Ht. unfold token_pass. cbn zeta.
  set (s1 := s <| my_token_seq := _ |>). set (t1 := token <| t_token_seq ::= _ |>).
  assert (A1 : agrees r base log top d0 (srp_emit NetSendFlush s1))
    by (apply (agrees_akey _ _ _ _ _ s); [unfold akey, deliveries; rewrite outs_emit; cbn [is_traffic]; now rewrite app_nil_r|done]).
  assert (Hr1 : in_recovery s1 = false) by exact Hr. rewrite Hr1. cbn [mbind option_bind].
  intros (s2 & H2 & (s3 & H3 & H4)%bind_Some)%bind_Some.
  apply (token_send_used r base log top d0) in H2; [|done].
  destruct H2 as (A2 & Q2 & D2 & t' & E & E' & S2).
  apply (calm_deliver_if r base log top d0 LG) in H3.
  apply (frame_callbacks okey), (calm_okey r base log top d0) in H4.
  assert (C : calm r base log top d0 s2 s').
  { intros _. assert (C3 : calm r base log top d0 s2 s'); [|now apply C3].
    eapply (calm_trans r base log top d0); [exact H3|]. eapply (calm_trans r base log top d0); [|exact H4].
    apply calm_okey. destruct (_ && _); unfold start_token_hold_retransmit_timeout;
      rewrite ?(frame_emit okey), (frame_reset_token_retransmit okey), (frame_reset_token_timeout okey) by done; done. }
  destruct (C A2) as [A' Q' D' S']. split; [done|done|lia|done| |].
  - intros Hd. apply D'. rewrite D2. exact Hd.
  - right. split; [rewrite Q', Q2; reflexivity|]. exists t'. split; [now rewrite E|]. split; [now rewrite E'|].
    intros t Hx%S'%S2. destruct Hx as [Hx|Hx]; [left|now right]. revert Hx. unfold sent. rewrite outs_emit. cbn [is_traffic].
    rewrite app_nil_r. exact id.
Qed.

Lemma token_process_used log top forward token s s' :
  sane_flow cfg -> log_ok base log top -> agrees r base log top d0 s -> in_recovery s = false -> wire_token token ->
  t_seq token = top -> top + max_messages cfg <= seq_limit ->
  token_process cfg alloc callback_fn forward token s = Some s' ->
  exists log' top', used r base log top d0 (top + max_messages cfg) token s s' log' top'.
Proof.
  intros Hf LG A Hr Hw Ht Hb. unfold token_process. intros (s1 & H1 & H)%bind_Some. cbn zeta in H.
  pose proof (in_recovery_tk _ _ (frame_callbacks key _ _ _ _ _ H1) Hr) as Hr1.
  apply (frame_callbacks okey), (calm_okey r base log top d0) in H1. pose proof (H1 A) as [A1 Q1 D1 S1].
  apply bind_Some in H as ([ [f2 t2] s2] & H2 & H).
  pose proof (steady_token_use key _ _ _ _ _ _ _ H2) as K2.
  set (sa := s1 <| my_last_aru := t_aru token |>) in *.
  assert (Aa : agrees r base log top d0 sa).
  { destruct A1 as [O B C L G Q]. split; [destruct O; now split|exact B|exact C|apply Hw|exact G|exact Q]. }
  destruct (agrees_token_use r base cfg log top d0 _ _ _ _ _ _ Hf LG Aa Hr1 Hw Ht Hb H2)
    as (T2 & log' & top' & [V1 V2 V3 V4 V5 V6 V7]).
  pose proof (frame_token_update_aru okey (my_last_aru s1) t2 s2) as K3.
  pose proof (frame_token_update_aru key (my_last_aru s1) t2 s2) as K3'.
  assert (E3 : t_seq (fst (token_update_aru (my_last_aru s1) t2 s2)) = top'
               /\ t_token_seq (fst (token_update_aru (my_last_aru s1) t2 s2)) = t_token_seq token)
    by (unfold token_update_aru; cbn zeta; cbn [fst]; destruct (_ || _); done).
  destruct (token_update_aru (my_last_aru s1) t2 s2) as [t3 s3]. cbn [fst snd] in *. destruct E3 as [E3 E3'].
  assert (Hr3 : in_recovery s3 = false) by (apply (in_recovery_tk sa); [congruence|done]).
  apply (agrees_okey _ _ _ _ _ s2 s3 K3) in V4. apply tkey_okey in K3.
  apply bind_Some in H as (s4 & H & [= <-]).
  assert (Ta : tkey s3 = tkey s1) by (rewrite K3, T2; reflexivity). clear K3 T2.
  assert (Ca : calm r base log' top' d0 s1 s3) by (apply calm_tkey; auto).
  assert (B : used r base log top d0 (top + max_messages cfg) token s1 s4 log' top').
  { destruct (token_failed_to_receive cfg t3 s3).
    - apply bind_Some in H as (s5 & H5 & H6).
      assert (C : calm r base log' top' d0 s3 s4)
        by (eapply calm_okey_gather; [|exact H6]; apply (frame_merge_failed okey) in H5; exact H5).
      destruct (C V4) as [C1 C2 C3 C4]. unfold tkey in Ta. injection Ta as G1 G2 G3 G4.
      split; [done..| |]; [intros Hd; apply C3; congruence|].
      left. apply (frame_gather_enter okey), okey_fields in H6.
      split; [destruct H6 as (_ & _ & _ & _ & _ & _ & H6 & _); exact H6|]. split; [congruence|].
      intros t Hx%C4. eapply sent_tkey; [|exact Hx]. unfold tkey. congruence.
    - apply (token_pass_used log' top') in H; [|done..].
      destruct H as [U1 U2 U3 U4 U5 U6]. pose proof (sent_tkey) as ST. split; [done|done|lia|done| |].
      + intros Hd. apply U5. unfold tkey in Ta. injection Ta as _ _ G3 _. congruence.
      + destruct U6 as [(W1 & W2 & W3)|(W1 & t' & W2 & W2' & W3)]; [left|right].
        * split; [done|]. split; [unfold tkey in Ta; injection Ta as G1 _ _ _; congruence|]. intros t Hx%W3. eauto.
        * split; [congruence|]. exists t'. split; [done|]. split; [congruence|]. intros t Hx%W3. destruct Hx as [Hx|Hx]; eauto. }
  exists log', top'. eapply used_calm; [exact A|exact H1|exact B|]. apply calm_okey, (frame_heartbeat okey).
Qed.

(** A token of another ring, or one the processor has seen, changes nothing. *)
Lemma token_handler_used log top len fl token s s' :
  sane_flow cfg -> log_ok base log top -> agrees r base log top d0 s -> on_ring r s -> wire_token token ->
  Forall (known_flush r log) fl ->
  (t_ring_id token = r -> orf_token_discard s = false ->
   sq_lte_compare (t_token_seq token) (my_token_seq s) = false ->
   t_seq token = top /\ top + max_messages cfg <= seq_limit) ->
  message_handler_orf_token cfg alloc callback_fn frame len false fl token s = Some s' ->
  calm r base log top d0 s s'
  \/ (t_ring_id token = r /\ orf_token_discard s = false
      /\ sq_lte_compare (t_token_seq token) (my_token_seq s) = false
      /\ exists log' top', used r base log top d0 (top + max_messages cfg) token s s' log' top').
Proof.
  intros Hf LG A Hr Hw Hk Hv. unfold message_handler_orf_token. cbn zeta.
  destruct (negb _); [intros [= <-]; left; apply calm_refl|].
  destruct (orf_token_discard s) eqn:Hd; [intros [= <-]; left; apply calm_refl|].
  pose proof (frame_token_activity okey cfg token s) as Ka%(calm_okey r base log top d0).
  pose proof (frame_token_activity key cfg token s) as Ka'%(on_ring_key r); [|done].
  set (sa := token_activity cfg token s) in *. clearbody sa.
  intros (s1 & H1 & H)%bind_Some.
  destruct (calm_flush r base log top d0 LG _ _ _ _ _ _ Ka' Hk H1) as [C1 R1].
  pose proof (frame_token_hold okey cfg s1) as K2%(calm_okey r base log top d0).
  pose proof (frame_token_hold key cfg s1) as K2'%(on_ring_key r); [|done].
  set (s2 := token_hold cfg s1) in *. clearbody s2.
  assert (C2 : calm r base log top d0 s s2) by (eapply calm_trans; [exact Ka|eapply calm_trans; [exact C1|exact K2] ]).
  clear Ka Ka' C1 R1 K2 H1 s1 sa.
  assert (Hh : forall f x, calm r base log top d0 s x -> calm r base log top d0 s (heartbeat f x)).
  { intros f x Hx. eapply calm_trans; [exact Hx|apply calm_okey, (frame_heartbeat okey)]. }
  assert (Hc : memb_state s2 <> MEMB_STATE_COMMIT) by (destruct K2' as [_ [E|E] ]; congruence).
  match type of H with _ = Some s' => assert (H' : (s ← (if is_operational s2 then messages_free (t_aru token) s2 else Some s2);
    if bool_decide (t_ring_id token <> my_ring_id s) then Some (heartbeat (token_forward s2) s)
    else if sq_lte_compare (t_token_seq token) (my_token_seq s) then Some s
    else token_process cfg alloc callback_fn (token_forward s2) token s) = Some s')
    by (destruct (memb_state s2); done) end.
  clear H. apply bind_Some in H' as (s3 & H3 & H).
  assert (C3 : calm r base log top d0 s2 s3 /\ key s3 = key s2).
  { destruct (is_operational s2); [|revert H3; intros [= <-]; split; [apply calm_refl|done] ].
    split; [|eapply (steady_messages_free key), H3]. apply calm_tkey. intros A2. eapply agrees_free; eauto. apply Hw. }
  destruct C3 as [C3 K3]. apply (calm_trans r base log top d0 _ _ _ C2) in C3.
  apply (on_ring_key r) in K3; [|done]. destruct (C3 A) as [A3 Q3 D3 S3].
  case_bool_decide as Hid; [revert H; intros [= <-]; left; now apply Hh|].
  rewrite (proj1 K3) in Hid. rewrite Q3 in H.
  destruct (sq_lte_compare _ _) eqn:El; [revert H; intros [= <-]; now left|]. right. split_and!; [done..|].
  destruct (Hv Hid eq_refl eq_refl) as [Ht Hb].
  apply (token_process_used log top) in H; [|done|done|done|eapply on_ring_recovery, K3|done|done|done].
  destruct H as (log' & top' & U). exists log', top'. eapply used_calm; [exact A|exact C3|exact U|apply calm_refl].
Qed.

End Visit.
