(* ===== verification/TotemSrpTotalOrder.v ===== *)
(** * Totem single ring protocol: total order

    The processors of a ring, each the state machine of [srp_step], connected by
    a network that loses, duplicates, delays and reorders what they send.  All
    processors deliver the messages of the ring in one order. *)
From S2P Require Import Prelude VoteQuorum Endian SortQueue SortQueueTheory CsQueue TotemMemb TotemSrp TotemSrpOps TotemSrpHandlers TotemSrpFrame TotemSrpTheory TotemSrpProps TotemSrpOrder TotemSrpOrderProps TotemSrpAgree TotemSrpRing.

(** Token sequence numbers up to this one do not roll over. *)
Definition token_limit : Z := 2 ^ 31 - 2.

Lemma sq_lte_compare_plain a b :
  0 <= a < 2 ^ 31 -> 0 <= b < 2 ^ 31 -> sq_lte_compare a b = (a <=? b).
Proof.
  intros Ha Hb. unfold sq_lte_compare, ADJUST_ROLLOVER_POINT.
  destruct (Z.ltb_spec 2147483648 a), (Z.ltb_spec 2147483648 b); cbn [orb]; lia || done.
Qed.

Section Ring.
Context (cfg : nat -> totem_config) (callback_fn : nat -> Z -> srp -> Z * list (list Z * Z)) (frame : Z).
Context (r : ring_id).

(** ** The system *)

(** The processors in the order of the ring. *)
Definition next (sys : list srp) (i : nat) : nat := if Nat.eqb (S i) (length sys) then 0%nat else S i.

(** A message of the ring was multicast by one of its processors; it comes with
    the byte order it was sent with. *)
Definition multicast_by (sys : list srp) (m : mcast_msg) : Prop :=
  m_ring_id (local_hdr m) = r -> is_encapsulated m = false ->
  m_foreign (hdr m) = false /\ exists j s, sys !! j = Some s /\ NetMcast m ∈ srp_out s.

(** A token of the ring was sent by the predecessor; the numbers it carries have
    not rolled over. *)
Definition token_from (sys : list srp) (i : nat) (t : orf_token) : Prop :=
  t_ring_id t = r ->
  t_seq t + max_messages (cfg i) <= seq_limit /\ 0 <= t_token_seq t < token_limit
  /\ exists j s, sys !! j = Some s /\ NetToken (SentOrf t) ∈ srp_out s /\ i = next sys j.

(** What the environment may hand to processor [i]: messages and tokens of the
    ring only as they were sent; everything else - other rings, membership
    messages, timers, the user - without restriction. *)
Definition from_network (sys : list srp) (i : nat) (e : srp_event) : Prop :=
  match e with
  | EvMcast m => multicast_by sys m
  | EvToken _ conv fl t =>
      conv = false /\ wire_token t /\ token_from sys i t
      /\ Forall (fun f => match f with FlushMcast m => multicast_by sys m | _ => True end) fl
  | _ => True
  end.

(** A processor takes a step and stays on the ring. *)
Inductive ring_step (sys : list srp) : list srp -> Prop :=
| ring_step_intro i e alloc s s' :
    sys !! i = Some s -> on_ring r s -> from_network sys i e ->
    srp_step (cfg i) alloc (callback_fn i) frame e s = Some s' -> on_ring r s' ->
    ring_step sys (<[i := s']> sys).

Definition ring_run : relation (list srp) := rtc ring_step.

(** ** The start *)

(** A token of the ring processor [j] may send to its successor. *)
Definition in_flight (sys : list srp) (j : nat) (t : orf_token) : Prop :=
  t_ring_id t = r /\ exists s, sys !! j = Some s /\ sent t s.

(** The successor of [j] will not use the token. *)
Definition spent (sys : list srp) (j : nat) (t : orf_token) : Prop :=
  exists s, sys !! next sys j = Some s
    /\ (orf_token_discard s = true \/ sq_lte_compare (t_token_seq t) (my_token_seq s) = true).

Definition live (sys : list srp) (j : nat) (t : orf_token) : Prop := in_flight sys j t /\ ~ spent sys j t.

(** A processor that has just become operational: nothing received and nothing
    sent on the ring, delivery starts after [base]. *)
Record fresh (base : Z) (s : srp) : Prop := {
  fr_ordered : ordered s;
  fr_received : forall n, received s n = None;
  fr_delivered : my_high_delivered s = base;
  fr_last_aru : 0 <= my_last_aru s < 2 ^ 32;
  fr_token_seq : 0 <= my_token_seq s < 2 ^ 31;
  fr_sent : forall m, NetMcast m ∈ outs s -> is_encapsulated m = false -> m_ring_id (hdr m) <> r
}.

Record ring_start (base : Z) (sys : list srp) : Prop := {
  rs_base : 0 <= base <= seq_limit;
  rs_fresh : forall i s, sys !! i = Some s -> fresh base s;
  rs_tokens : forall j t, in_flight sys j t -> 0 <= t_token_seq t < 2 ^ 31;
  rs_seq : forall j t, live sys j t -> t_seq t = base;
  rs_one : forall j t j' t', live sys j t -> live sys j' t' -> j = j' /\ t = t'
}.

(** ** The invariant *)

(** [sys0] is where the run started. *)
Record ring_ok (base : Z) (sys0 sys : list srp) (log : gmap Z mcast_msg) (top : Z) : Prop := {
  ro_length : length sys = length sys0;
  ro_log : log_ok base log top;
  ro_agrees : forall i s0 s, sys0 !! i = Some s0 -> sys !! i = Some s ->
    agrees r base log top (deliveries s0) s;
  ro_token_seq : forall i s, sys !! i = Some s -> 0 <= my_token_seq s < 2 ^ 31;
  ro_tokens : forall j t, in_flight sys j t -> 0 <= t_token_seq t < 2 ^ 31;
  ro_seq : forall j t, live sys j t -> t_seq t = top;
  ro_one : forall j t j' t', live sys j t -> live sys j' t' -> j = j' /\ t = t'
}.

Lemma ring_ok_start base sys : ring_start base sys -> ring_ok base sys sys ∅ base.
Proof.
  intros [B F T Q O]. split; try done.
  - split; [now intros n m|now intros n m|lia|lia].
  - intros i s0 s H0 H. assert (s0 = s) as -> by congruence. destruct (F i s H) as [F1 F2 F3 F4 F5 F6]. split; [done| |lia|done| |].
    + intros n m. now rewrite F2.
    + intros m H1 H2 H3. now destruct (F6 m H1 H2).
    + exists []. rewrite app_nil_r. cbn [length]. split; [done|]. split; [lia|done].
  - intros i s H. now destruct (F i s H).
Qed.

Section Step.
Context (base : Z) (sys0 sys : list srp) (log : gmap Z mcast_msg) (top : Z).
Context (RO : ring_ok base sys0 sys log top).

Lemma in_outs e s : is_traffic e = true -> e ∈ srp_out s -> e ∈ outs s.
Proof. intros He H. apply list_elem_of_In, filter_In. split; [now apply list_elem_of_In|done]. Qed.

Lemma multicast_known m : multicast_by sys m -> known r log m.
Proof.
  intros H Hr He. destruct (H Hr He) as (Hf & j & s & Hj & Hs).
  unfold local_hdr in *. rewrite Hf in *.
  destruct (lookup_lt_is_Some_2 sys0 j) as [s0 H0]; [rewrite <- (ro_length _ _ _ _ _ RO); eapply lookup_lt_Some, Hj|].
  apply (ag_sent _ _ _ _ _ _ (ro_agrees _ _ _ _ _ RO j s0 s H0 Hj)); [|done..]. now apply in_outs.
Qed.

Lemma next_insert i s' j : next (<[i := s']> sys) j = next sys j.
Proof. unfold next. now rewrite length_insert. Qed.

(** What was in flight or spent before a step of processor [i]. *)
Lemma in_flight_step i s s' (new : orf_token -> Prop) j t :
  sys !! i = Some s -> (forall t, sent t s' -> sent t s \/ new t) ->
  in_flight (<[i := s']> sys) j t -> in_flight sys j t \/ (j = i /\ new t /\ sent t s').
Proof.
  intros Hi Hn (Hr & x & Hx & Hs). destruct (decide (j = i)) as [->|Hj].
  - rewrite list_lookup_insert_eq in Hx by (eapply lookup_lt_Some; eauto). simplify_eq.
    destruct (Hn t Hs) as [H|H]; [left|now right]. split; [done|eauto].
  - rewrite list_lookup_insert_ne in Hx by done. left. split; [done|eauto].
Qed.

Lemma spent_step i s s' j t :
  sys !! i = Some s ->
  (next sys j = i -> orf_token_discard s = true \/ sq_lte_compare (t_token_seq t) (my_token_seq s) = true ->
   orf_token_discard s' = true \/ sq_lte_compare (t_token_seq t) (my_token_seq s') = true) ->
  spent sys j t -> spent (<[i := s']> sys) j t.
Proof.
  intros Hi Hn (x & Hx & Hs). unfold spent. rewrite next_insert.
  destruct (decide (next sys j = i)) as [E|E].
  - rewrite E in *. simplify_eq. exists s'. split; [|auto]. apply list_lookup_insert_eq. eapply lookup_lt_Some; eauto.
  - exists x. now rewrite list_lookup_insert_ne.
Qed.

Lemma ring_ok_calm i s0 s s' :
  sys0 !! i = Some s0 -> sys !! i = Some s -> calm r base log top (deliveries s0) s s' ->
  ring_ok base sys0 (<[i := s']> sys) log top.
Proof.
  intros H0 Hi C. destruct RO as [RL RG RA RQ RT RS R1].
  destruct (C (RA i s0 s H0 Hi)) as [A' Q' D' S'].
  assert (Hi' : (i < length sys)%nat) by (eapply lookup_lt_Some; eauto).
  assert (Hf : forall j t, in_flight (<[i := s']> sys) j t -> in_flight sys j t).
  { intros j t H. destruct (in_flight_step i s s' (fun _ => False) j t Hi) as [?|(_ & [] & _)]; [|done..]. auto. }
  assert (Hl : forall j t, live (<[i := s']> sys) j t -> live sys j t).
  { intros j t [H1 H2]. split; [auto|]. contradict H2. eapply spent_step; eauto. rewrite Q'. intros _ [H|H]; auto. }
  split; [now rewrite length_insert|done| | |eauto|eauto|eauto].
  - intros j x y Hx Hy. destruct (decide (j = i)) as [->|Hj].
    + rewrite list_lookup_insert_eq in Hy by done. now simplify_eq.
    + rewrite list_lookup_insert_ne in Hy by done. eauto.
  - intros j x Hx. destruct (decide (j = i)) as [->|Hj].
    + rewrite list_lookup_insert_eq in Hx by done. simplify_eq. rewrite Q'. eauto.
    + rewrite list_lookup_insert_ne in Hx by done. eauto.
Qed.

Lemma ring_ok_used i s0 s s' j0 t0 bound log' top' :
  sys0 !! i = Some s0 -> sys !! i = Some s -> next sys j0 = i -> live sys j0 t0 -> t_token_seq t0 < token_limit ->
  orf_token_discard s = false -> sq_lte_compare (t_token_seq t0) (my_token_seq s) = false ->
  used r base log top (deliveries s0) bound t0 s s' log' top' ->
  ring_ok base sys0 (<[i := s']> sys) log' top'.
Proof.
  intros H0 Hi Hnext L0 Hlim Hd Hq [U1 U2 U3 U4 U5 U6]. destruct RO as [RL RG RA RQ RT RS R1].
  assert (Hi' : (i < length sys)%nat) by (eapply lookup_lt_Some; eauto).
  pose proof (RQ i s Hi) as Qs. pose proof (RT _ _ (proj1 L0)) as Q0.
  rewrite sq_lte_compare_plain in Hq by done. apply Z.leb_gt in Hq.
  set (new := fun t => t_seq t = top' /\ t_token_seq t = u32 (t_token_seq t0 + 1)).
  assert (Hs : forall t, sent t s' -> sent t s \/ new t).
  { destruct U6 as [(_ & _ & W)|(_ & t' & W1 & W1' & W2)]; [auto|]. intros t Ht. destruct (W2 t Ht) as [?| ->]; [auto|]. now right. }
  assert (Hone : forall t t', (sent t s' -> ~ sent t s -> sent t' s' -> ~ sent t' s -> t = t')).
  { destruct U6 as [(_ & _ & W)|(_ & t' & _ & _ & W2)].
    - intros t t' Ht Ht'. now destruct Ht'; apply W.
    - intros t u Ht Ht' Hu Hu'. destruct (W2 t Ht), (W2 u Hu); tauto || congruence. }
  assert (Hseq : my_token_seq s' = my_token_seq s /\ orf_token_discard s' = true \/ my_token_seq s' = t_token_seq t0)
    by (destruct U6 as [(W1 & W2 & _)|(W1 & _)]; auto).
  clear U6.
  assert (Hsp : forall j t, in_flight sys j t -> spent sys j t -> spent (<[i := s']> sys) j t).
  { intros j t Hf. apply (spent_step i s); [done|]. intros _ [H|H]; [auto|].
    pose proof (RT _ _ Hf) as Qt. rewrite sq_lte_compare_plain in H by done. apply Z.leb_le in H.
    destruct Hseq as [ [_ E]|E]; [auto|right]. rewrite E, sq_lte_compare_plain by done. apply Z.leb_le. lia. }
  assert (Hnew : forall j t, live (<[i := s']> sys) j t -> j = i /\ new t /\ sent t s' /\ ~ in_flight sys j t).
  { intros j t [H1 H2]. assert (Hnf : ~ in_flight sys j t).
    { intros Hf. assert (Hl : live sys j t) by (split; [done|contradict H2; now apply Hsp]).
      destruct (R1 _ _ _ _ Hl L0) as [-> ->]. apply H2. exists s'. rewrite next_insert, Hnext.
      split; [now apply list_lookup_insert_eq|]. destruct Hseq as [ [_ E]|E]; [auto|right].
      rewrite E, sq_lte_compare_plain by done. apply Z.leb_refl. }
    destruct (in_flight_step i s s' new j t Hi Hs H1) as [?|(-> & Hn & Ht)]; [done|]. auto. }
  split; [now rewrite length_insert|done| | | | |].
  - intros j x y Hx Hy. destruct (decide (j = i)) as [->|Hj].
    + rewrite list_lookup_insert_eq in Hy by done. now simplify_eq.
    + rewrite list_lookup_insert_ne in Hy by done. apply (agrees_mono _ _ log log' top); [exact U2|lia|eauto].
  - intros j x Hx. destruct (decide (j = i)) as [->|Hj].
    + rewrite list_lookup_insert_eq in Hx by done. simplify_eq. destruct Hseq as [ [-> _]| ->]; done.
    + rewrite list_lookup_insert_ne in Hx by done. eauto.
  - intros j t H. destruct (in_flight_step i s s' new j t Hi Hs H) as [?|(_ & [_ E] & _)]; [eauto|].
    rewrite E. unfold token_limit in Hlim. rewrite u32_small by lia. lia.
  - intros j t H. now destruct (Hnew j t H) as (_ & [? _] & _).
  - intros j t j' t' H H'. destruct (Hnew j t H) as (-> & _ & H1 & H2), (Hnew j' t' H') as (-> & _ & H1' & H2').
    split; [done|]. destruct H as [(Ht & _) _], H' as [(Ht' & _) _].
    apply Hone; [done| |done|]; [contradict H2|contradict H2']; split; eauto.
Qed.

End Step.

Lemma ring_ok_step base sys0 sys sys' log top :
  (forall i, sane_flow (cfg i)) -> ring_ok base sys0 sys log top -> ring_step sys sys' ->
  exists log' top', ring_ok base sys0 sys' log' top'.
Proof.
  intros Hf RO [i e alloc s s' Hi Hr Hn H Hr'].
  destruct (lookup_lt_is_Some_2 sys0 i) as [s0 H0]; [rewrite <- (ro_length _ _ _ _ _ RO); eapply lookup_lt_Some, Hi|].
  pose proof (ro_agrees _ _ _ _ _ RO i s0 s H0 Hi) as A. pose proof (ro_log _ _ _ _ _ RO) as LG.
  destruct (match e with EvToken _ _ _ _ => true | _ => false end) eqn:Ee.
  - destruct e as [len conv fl t| | | | | | | | | | | | | | | | | | | | | | |]; try done. cbn in Hn, H.
    destruct Hn as (-> & Hw & Ht & Hfl).
    assert (Hk : Forall (known_flush r log) fl).
    { eapply Forall_impl; [exact Hfl|]. intros [m| | |]; cbn; [|done..]. eapply multicast_known, RO. }
    assert (Hl : t_ring_id t = r -> orf_token_discard s = false ->
      sq_lte_compare (t_token_seq t) (my_token_seq s) = false ->
      exists j0, live sys j0 t /\ next sys j0 = i /\ t_token_seq t < token_limit /\ t_seq t + max_messages (cfg i) <= seq_limit).
    { intros E Hd Hq. destruct (Ht E) as (B1 & B2 & j & x & Hj & Hx & ->). exists j. split; [|split_and!; lia || done].
      split; [split; [done|exists x; split; [done|left; now apply in_outs] ]|].
      intros (y & Hy & [H1|H1]); simplify_eq; congruence. }
    eapply (token_handler_used _ _ _ _ r base (deliveries s0) log top) in H; [|done..|].
    + destruct H as [C|(E & Hd & Hq & log' & top' & U)].
      * exists log, top. eapply ring_ok_calm; eauto.
      * destruct (Hl E Hd Hq) as (j0 & L & Hnx & Hlim & _). exists log', top'. eapply ring_ok_used; eauto.
    + intros E Hd Hq. destruct (Hl E Hd Hq) as (j0 & L & _ & _ & Hb). pose proof (ro_seq _ _ _ _ _ RO _ _ L). split; lia.
  - exists log, top. eapply ring_ok_calm; [exact RO|exact H0|exact Hi|]. eapply calm_event; [exact LG|exact Hr| | |exact H].
    + destruct e; try done. cbn in Hn |- *. eapply multicast_known; [exact RO|exact Hn].
    + now destruct e.
Qed.

Lemma ring_ok_run base sys0 sys :
  (forall i, sane_flow (cfg i)) -> ring_start base sys0 -> ring_run sys0 sys ->
  exists log top, ring_ok base sys0 sys log top.
Proof.
  intros Hf Hs Hrun.
  assert (R0 : exists log top, ring_ok base sys0 sys0 log top) by (eexists _, _; now apply ring_ok_start).
  enough (G : forall a b, ring_run a b -> (exists log top, ring_ok base sys0 a log top) ->
    exists log top, ring_ok base sys0 b log top) by eauto.
  induction 1 as [a|a b c Hab Hbc IH]; [done|]. intros (log & top & RO). apply IH. eapply ring_ok_step; eauto.
Qed.

(** ** Total order *)

(** C1: Total order: in every run of the processors of a ring over a network
    that loses, duplicates, delays and reorders messages and tokens, whatever
    else their environment does, any two processors have delivered the same
    messages in the same order, one of them possibly fewer; and each has
    delivered the consecutive sequence numbers of the ring without a gap. *)
Theorem ring_total_order base sys0 sys i j si0 sj0 si sj :
  (forall k, sane_flow (cfg k)) -> ring_start base sys0 -> ring_run sys0 sys ->
  sys0 !! i = Some si0 -> sys0 !! j = Some sj0 -> sys !! i = Some si -> sys !! j = Some sj ->
  exists li lj, deliveries si = deliveries si0 ++ li /\ deliveries sj = deliveries sj0 ++ lj
    /\ (li `prefix_of` lj \/ lj `prefix_of` li)
    /\ forall k m, li !! k = Some m -> m_seq (hdr m) = base + 1 + Z.of_nat k.
Proof.
  intros Hf Hs Hrun Hi0 Hj0 Hi Hj. destruct (ring_ok_run base sys0 sys Hf Hs Hrun) as (log & top & RO).
  destruct (ag_run _ _ _ _ _ _ (ro_agrees _ _ _ _ _ RO i si0 si Hi0 Hi)) as (li & Ei & _ & Li).
  destruct (ag_run _ _ _ _ _ _ (ro_agrees _ _ _ _ _ RO j sj0 sj Hj0 Hj)) as (lj & Ej & _ & Lj).
  exists li, lj. split_and!; [done..| |intros k m Hk%Li; now apply (lg_stamp _ _ _ (ro_log _ _ _ _ _ RO))].
  assert (Hp : forall a b, (forall k m, a !! k = Some m -> log !! (base + 1 + Z.of_nat k) = Some m) ->
    (forall k m, b !! k = Some m -> log !! (base + 1 + Z.of_nat k) = Some m) ->
    (length a <= length b)%nat -> a `prefix_of` b).
  { intros a b Ha Hb Hl. exists (drop (length a) b). rewrite <- (take_drop (length a) b) at 1. f_equal.
    apply list_eq. intros k. destruct (decide (k < length a)%nat) as [Hk|Hk].
    - rewrite lookup_take_lt by done. destruct (lookup_lt_is_Some_2 a k Hk) as [x Hx].
      destruct (lookup_lt_is_Some_2 b k) as [y Hy]; [lia|]. rewrite Hx, Hy. apply Ha in Hx. apply Hb in Hy. congruence.
    - rewrite lookup_take_ge, lookup_ge_None_2 by lia. done. }
  destruct (Nat.le_ge_cases (length li) (length lj)); [left|right]; auto.
Qed.

End Ring.

(** ** A ring of two processors *)

Definition pair_ring : ring_id := mk_ring 1 4.
Definition pair_token : orf_token := mk_token 1 0 6 0 0 pair_ring 0 0 0 0 [].

(** The first has sent the token, the second has two messages to multicast. *)
Definition pair_first : srp :=
  demo_idle <| new_message_queue := demo_cq0 |> <| my_token_seq := 5 |>
            <| orf_token_retransmit := Some (SentOrf pair_token) |> <| srp_out := [NetToken (SentOrf pair_token)] |>.
Definition pair_second : srp := demo_idle <| my_id := 2 |> <| my_token_seq := 4 |>.
Definition pair_start : list srp := [pair_first; pair_second].

Definition pair_step (e : srp_event) (s : srp) : srp := default s (lone_step e s).

Definition pair_visit : srp_event := EvToken 100 false [] pair_token.
Definition pair_visited : srp := pair_step pair_visit pair_second.
Definition multicasts (s : srp) : list mcast_msg :=
  omap (fun e => match e with NetMcast m => Some m | _ => None end) (srp_out s).
Definition pair_msg : mcast_msg := default zero_msg (hd_error (multicasts pair_visited)).
Definition pair_received : srp := pair_step (EvMcast pair_msg) pair_first.

Lemma pair_step_some e s :
  bool_decide (is_Some (lone_step e s)) = true -> lone_step e s = Some (pair_step e s).
Proof. apply is_Some_default. Qed.

Lemma elem_of_multicasts m s : m ∈ multicasts s -> NetMcast m ∈ srp_out s.
Proof.
  unfold multicasts. intros (e & He & Hm)%list_elem_of_omap. destruct e; try done. now injection Hm as ->.
Qed.

Lemma pair_msg_sent : NetMcast pair_msg ∈ srp_out pair_visited.
Proof.
  apply elem_of_multicasts. unfold pair_msg.
  assert (H : bool_decide (is_Some (hd_error (multicasts pair_visited))) = true) by (vm_compute; reflexivity).
  apply bool_decide_eq_true in H as [m H]. rewrite H. destruct (multicasts pair_visited); [done|].
  injection H as ->. now left.
Qed.

Lemma pair_fresh s :
  regular_sort_queue s = demo_sq0 -> last_released s = 0 -> my_high_delivered s = 0 -> my_last_aru s = 0 ->
  0 <= my_token_seq s < 2 ^ 31 -> (forall m, NetMcast m ∉ outs s) -> fresh pair_ring 0 s.
Proof.
  intros E1 E2 E3 E4 E5 E6. destruct demo_sq0_facts as (W & H & S & A). split; [|..|done|].
  - split; rewrite ?E1, ?E2, ?E3; [done..|by_compute|by_compute].
  - intros n. unfold received. rewrite E1. apply A.
  - done.
  - rewrite E4. by_compute.
  - intros m Hm. now destruct (E6 m).
Qed.

Lemma pair_in_flight j t : in_flight pair_ring pair_start j t -> j = 0%nat /\ t = pair_token.
Proof.
  intros (_ & s & Hj & Hs). destruct j as [|[|j] ]; [|..|done].
  - split; [done|]. revert Hj. intros [= <-]. destruct Hs as [Hs|Hs]; [|now injection Hs as <-].
    assert (E : outs pair_first = [NetToken (SentOrf pair_token)]) by reflexivity.
    rewrite E in Hs. apply list_elem_of_singleton in Hs. now injection Hs as ->.
  - revert Hj. intros [= <-]. destruct Hs as [Hs|Hs]; [|done].
    assert (E : outs pair_second = []) by reflexivity. rewrite E in Hs. now apply elem_of_nil in Hs.
Qed.

Lemma pair_start_ok : ring_start pair_ring 0 pair_start.
Proof.
  split.
  - by_compute.
  - intros [|[|i] ] s; [..|done]; intros [= <-]; apply pair_fresh; try reflexivity; try by_compute; intros m Hm.
    + assert (E : outs pair_first = [NetToken (SentOrf pair_token)]) by reflexivity.
      rewrite E in Hm. now apply list_elem_of_singleton in Hm.
    + assert (E : outs pair_second = []) by reflexivity. rewrite E in Hm. now apply elem_of_nil in Hm.
  - intros j t [-> ->]%pair_in_flight. by_compute.
  - intros j t [ [-> ->]%pair_in_flight _]. reflexivity.
  - intros j t j' t' [ [-> ->]%pair_in_flight _] [ [-> ->]%pair_in_flight _]. done.
Qed.

(** The second takes the token, the first receives the first of its messages. *)
Lemma pair_run :
  ring_run (fun _ => lone_cfg) (fun _ => no_callbacks) 10000 pair_ring pair_start [pair_received; pair_visited].
Proof.
  apply (rtc_l _ _ [pair_first; pair_visited]); [|apply (rtc_l _ _ [pair_received; pair_visited]); [|apply rtc_refl] ].
  - change [pair_first; pair_visited] with (<[1%nat := pair_visited]> pair_start).
    apply (ring_step_intro _ _ _ _ _ 1 pair_visit true pair_second pair_visited); [done|split; [done|now left]|..].
    + split_and!; [done| | |done]. 1: split; [by_compute|intros x Hx; now apply elem_of_nil in Hx].
      intros _. split; [by_compute|]. split; [by_compute|]. exists 0%nat, pair_first. split; [done|]. split; [|done].
      apply list_elem_of_singleton. reflexivity.
    + apply pair_step_some. vm_compute. reflexivity.
    + split; [vm_compute; reflexivity|left; vm_compute; reflexivity].
  - change [pair_received; pair_visited] with (<[0%nat := pair_received]> [pair_first; pair_visited]).
    apply (ring_step_intro _ _ _ _ _ 0 (EvMcast pair_msg) true pair_first pair_received); [done|split; [done|now left]|..].
    + intros _ _. split; [vm_compute; reflexivity|]. exists 1%nat, pair_visited. split; [done|apply pair_msg_sent].
    + apply pair_step_some. vm_compute. reflexivity.
    + split; [vm_compute; reflexivity|left; vm_compute; reflexivity].
Qed.

(** The first has delivered one message, the second two. *)
Lemma pair_delivers : length (deliveries pair_received) = 1%nat /\ length (deliveries pair_visited) = 2%nat.
Proof. split; vm_compute; reflexivity. Qed.

Lemma ring_total_order_witness : deliveries pair_received `prefix_of` deliveries pair_visited.
Proof.
  destruct (ring_total_order (fun _ => lone_cfg) (fun _ => no_callbacks) 10000 pair_ring 0 pair_start
    [pair_received; pair_visited] 0 1 pair_first pair_second pair_received pair_visited)
    as (li & lj & Ei & Ej & Hp & _); [intros k; split_and!; by_compute|exact pair_start_ok|exact pair_run|reflexivity..|].
  destruct pair_delivers as [L1 L2].
  assert (E : deliveries pair_first = [] /\ deliveries pair_second = []) by (split; reflexivity).
  destruct E as [E1 E2]. rewrite E1 in Ei. rewrite E2 in Ej. cbn [app] in Ei, Ej. rewrite Ei, Ej in *.
  destruct Hp as [Hp|Hp%prefix_length]; [exact Hp|lia].
Defined.
