(* ===== verification/TotemPg.v ===== *)
(** * Totem process groups (exec/totempg.c)

    Messages of any length on top of the packets of the ring: messages are
    packed into packets or cut into fragments, assembled again by the receivers
    and handed to the process groups they are addressed to.  Bytes are integers
    below 256; 16-bit numbers in packets are little endian on this machine.  The
    mutexes make every operation atomic. *)
From S2P Require Import Prelude VoteQuorum Endian TotemMemb TotemSrp.

(** ** What this layer uses of the ring protocol *)

(** [srp_avail] is [totemsrp_avail], [srp_mcast] [totemsrp_mcast] on the
    concatenated vectors and [srp_event_signal] [totemsrp_event_signal]; [None]
    is a failed assertion. *)
Class SrpApi (Srp : Type) := {
  srp_avail : Srp -> option Z;
  srp_mcast : list Z -> Z -> Srp -> option (Z * Srp);
  srp_event_signal : Srp -> option Srp
}.

(** What it relies on: as long as the instance is good and there is room in its
    queue, a message is accepted and takes one place. *)
Class SrpLaws (Srp : Type) {api : SrpApi Srp} := {
  srp_good : Srp -> Prop;
  srp_avail_good : forall s, srp_good s -> exists n, srp_avail s = Some n /\ 0 <= n;
  srp_signal_good : forall s, srp_good s ->
    exists s', srp_event_signal s = Some s' /\ srp_good s' /\ srp_avail s' = srp_avail s;
  srp_mcast_good : forall m g s n, srp_good s -> srp_avail s = Some n -> 0 < n ->
    exists s', srp_mcast m g s = Some (0, s') /\ srp_good s' /\ srp_avail s' = Some (n - 1)
}.

(** ** Bytes *)

Definition u16_bytes (n : Z) : list Z := [n mod 256; n / 256 mod 256].
Definition u16_at (l : list Z) (i : nat) : option Z :=
  a ← l !! i; b ← l !! S i; Some (a + 256 * b).

(** [memcpy (&dst[off], src, length src)] into a buffer written up to [length dst]. *)
Definition write_at {A} (off : nat) (src dst : list A) : list A :=
  take off dst ++ src ++ drop (off + length src) dst.

(** Reading past what was written is undefined. *)
Definition slice {A} (off len : nat) (l : list A) : option (list A) :=
  if Nat.leb (off + len) (length l) then Some (take len (drop off l)) else None.

(** [n] 16-bit numbers from offset [i] on. *)
Fixpoint u16s_at (l : list Z) (i n : nat) : option (list Z) :=
  match n with
  | O => Some []
  | S n' => x ← u16_at l i; r ← u16s_at l (i + 2) n'; Some (x :: r)
  end.

(** ** State *)

Definition sizeof_totempg_mcast : Z := 8.
Definition MESSAGE_SIZE_MAX : Z := 1024 * 1024.

Record assembly := mk_assembly {
  as_nodeid : Z;
  as_data : list Z;
  as_index : Z;
  as_last_frag_num : Z;
  as_throw_away : bool
}.
#[export] Instance assembly_eta : Etable assembly := fun a =>
  mk_assembly (as_nodeid a) (as_data a) (as_index a) (as_last_frag_num a) (as_throw_away a).

Definition TOTEM_Q_LEVEL_LOW : Z := 0.
Definition TOTEM_Q_LEVEL_GOOD : Z := 1.
Definition TOTEM_Q_LEVEL_HIGH : Z := 2.
Definition TOTEM_Q_LEVEL_CRITICAL : Z := 3.

(** An instance is known by its number; a group is its name. *)
Record totempg_group_instance := mk_group_instance {
  gi_id : Z;
  gi_has_confchg_fn : bool;
  gi_groups : list (list Z);
  gi_q_level : Z
}.
#[export] Instance group_instance_eta : Etable totempg_group_instance := fun g =>
  mk_group_instance (gi_id g) (gi_has_confchg_fn g) (gi_groups g) (gi_q_level g).

(** What the layer hands to the ring protocol and to its users. *)
Inductive pg_effect :=
| PgMcast (packet : list Z) (guarantee : Z)
| PgDeliver (instance nodeid : Z) (msg : list Z) (endian_conversion_required : bool)
| PgConfchg (instance : Z) (t : confchg_type) (members left joined : list Z) (r : ring_id)
| PgQueueLevelChanged (level : Z).

Record totempg {Srp : Type} := mk_totempg {
  pg_net_mtu : Z;
  mcast_packed_msg_lens : list Z;
  mcast_packed_msg_count : Z;
  totempg_reserved : Z;
  totempg_size_limit : Z;
  queue_level_callback : bool;
  assembly_list_inuse : list assembly;
  assembly_list_free : list assembly;
  assembly_list_inuse_trans : list assembly;
  totempg_groups_list : list totempg_group_instance;
  fragmentation_data : list Z;
  fragmentation_alloc : Z;
  fragment_size : Z;
  fragment_continuation : Z;
  totempg_waiting_transack : Z;
  next_fragment : Z;
  stat_msg_reserved : Z;
  stat_msg_queue_avail : Z;
  pg_srp : Srp;
  pg_out : list pg_effect
}.
Arguments totempg : clear implicits.
Arguments mk_totempg {Srp}.
#[export] Instance totempg_eta {Srp} : Etable (totempg Srp) := fun p =>
  mk_totempg (pg_net_mtu p) (mcast_packed_msg_lens p) (mcast_packed_msg_count p) (totempg_reserved p)
    (totempg_size_limit p) (queue_level_callback p) (assembly_list_inuse p) (assembly_list_free p)
    (assembly_list_inuse_trans p) (totempg_groups_list p) (fragmentation_data p) (fragmentation_alloc p)
    (fragment_size p) (fragment_continuation p) (totempg_waiting_transack p) (next_fragment p)
    (stat_msg_reserved p) (stat_msg_queue_avail p) (pg_srp p) (pg_out p).

Section TotemPg.
Context {Srp : Type} {api : SrpApi Srp}.
(** [KNET_MAX_PACKET_SIZE] of libknet. *)
Context (KNET_MAX_PACKET_SIZE : Z).

Definition pg_emit (e : pg_effect) (p : totempg Srp) : totempg Srp := p <| pg_out ::= fun o => o ++ [e] |>.

Definition TOTEMPG_PACKET_SIZE (p : totempg Srp) : Z := pg_net_mtu p - sizeof_totempg_mcast.

Definition totempg_waiting_trans_ack_cb (waiting_trans_ack : Z) (p : totempg Srp) : totempg Srp :=
  p <| totempg_waiting_transack := waiting_trans_ack |>.

(** ** Assembly buffers *)

(** The list in use for received messages ([assembly_list_inuse_trans] while the
    transitional configuration is not acknowledged). *)
Definition active_inuse (trans : bool) (p : totempg Srp) : list assembly :=
  if trans then assembly_list_inuse_trans p else assembly_list_inuse p.
Definition set_active_inuse (trans : bool) (l : list assembly) (p : totempg Srp) : totempg Srp :=
  if trans then p <| assembly_list_inuse_trans := l |> else p <| assembly_list_inuse := l |>.

Definition assembly_ref (nodeid : Z) (p : totempg Srp) : assembly * totempg Srp :=
  let trans := c_true (totempg_waiting_transack p) in
  let inuse := active_inuse trans p in
  match List.find (fun a => nodeid =? as_nodeid a) inuse with
  | Some a => (a, p)
  | None =>
      match assembly_list_free p with
      | a :: free =>
          let a := a <| as_nodeid := nodeid |> <| as_index := 0 |> <| as_last_frag_num := 0 |>
                     <| as_throw_away := false |> in
          (a, set_active_inuse trans (a :: inuse) (p <| assembly_list_free := free |>))
      | [] =>
          let a := mk_assembly nodeid [0] 0 0 false in
          (a, set_active_inuse trans (a :: inuse) p)
      end
  end.

(** The buffer of [nodeid] in a list, replaced or taken out. *)
Fixpoint assembly_replace (a : assembly) (l : list assembly) : list assembly :=
  match l with
  | [] => []
  | b :: l' => if as_nodeid a =? as_nodeid b then a :: l' else b :: assembly_replace a l'
  end.
Fixpoint assembly_remove (nodeid : Z) (l : list assembly) : list assembly :=
  match l with
  | [] => []
  | b :: l' => if nodeid =? as_nodeid b then l' else b :: assembly_remove nodeid l'
  end.

Definition assembly_store (trans : bool) (a : assembly) (p : totempg Srp) : totempg Srp :=
  set_active_inuse trans (assembly_replace a (active_inuse trans p)) p.

Definition assembly_deref (trans : bool) (a : assembly) (p : totempg Srp) : totempg Srp :=
  set_active_inuse trans (assembly_remove (as_nodeid a) (active_inuse trans p)) p
    <| assembly_list_free ::= cons a |>.

(** One pass of the outer loop. *)
Definition assembly_deref_list (trans : bool) (nodeid : Z) (p : totempg Srp) : totempg Srp :=
  let inuse := active_inuse trans p in
  set_active_inuse trans (List.filter (fun a => negb (nodeid =? as_nodeid a)) inuse) p
    <| assembly_list_free ::= fun free => rev (List.filter (fun a => nodeid =? as_nodeid a) inuse) ++ free |>.

Definition assembly_deref_from_normal_and_trans (nodeid : Z) (p : totempg Srp) : totempg Srp :=
  assembly_deref_list true nodeid (assembly_deref_list false nodeid p).

Definition app_confchg_fn (t : confchg_type) (member_list left_list joined_list : list Z) (r : ring_id)
    (p : totempg Srp) : totempg Srp :=
  let p := foldl (fun p n => assembly_deref_from_normal_and_trans n p) p left_list in
  foldl (fun p g => if gi_has_confchg_fn g
                    then pg_emit (PgConfchg (gi_id g) t member_list left_list joined_list r) p else p)
    p (totempg_groups_list p).

Definition totempg_confchg_fn := app_confchg_fn.

(** ** Delivery to the groups *)

(** The numbers in front of a message of the other byte order, swapped in place
    at offset [base] of the assembly buffer. *)
Definition swab16_at (i : nat) (data : list Z) : option (list Z) :=
  x ← u16_at data i; Some (write_at i (u16_bytes (swab16 x)) data).
Fixpoint swab16s_at (i n : nat) (data : list Z) : option (list Z) :=
  match n with
  | O => Some data
  | S n' => data ← swab16_at i data; swab16s_at (i + 2) n' data
  end.
Definition group_endian_convert (base : nat) (data : list Z) : option (list Z) :=
  data ← swab16_at base data;
  cnt ← u16_at data base;
  swab16s_at (base + 2) (Z.to_nat cnt) data.

(** The group names of the message one by one: is one of them in [groups_b]? *)
Fixpoint group_names_match (msg : list Z) (off : nat) (lens : list Z) (groups_b : list (list Z)) : option bool :=
  match lens with
  | [] => Some false
  | l :: lens' =>
      if existsb (fun g => l =? Z.of_nat (length g)) groups_b then
        name ← slice off (Z.to_nat l) msg;
        if existsb (fun g => (l =? Z.of_nat (length g)) && bool_decide (g = name)) groups_b then Some true
        else group_names_match msg (off + Z.to_nat l) lens' groups_b
      else group_names_match msg (off + Z.to_nat l) lens' groups_b
  end.

(** Whether the message is for one of the groups, and where its contents start. *)
Definition group_matches (msg : list Z) (groups_b : list (list Z)) : option (bool * Z) :=
  cnt ← u16_at msg 0;
  lens ← u16s_at msg 2 (Z.to_nat cnt);
  let names := 2 * (cnt + 1) in
  m ← group_names_match msg (Z.to_nat names) lens groups_b;
  Some (m, names + sumZ id lens).

(** The loop over the instances. *)
Fixpoint app_deliver_instances (nodeid : Z) (endian_conversion_required : bool) (msg : list Z)
    (l : list totempg_group_instance) (p : totempg Srp) : option (totempg Srp) :=
  match l with
  | [] => Some p
  | g :: l' =>
      '(m, adjust_iovec) ← group_matches msg (gi_groups g);
      if m : bool then
        if Z.of_nat (length msg) <? adjust_iovec then None
        else app_deliver_instances nodeid endian_conversion_required msg l'
               (pg_emit (PgDeliver (gi_id g) nodeid (drop (Z.to_nat adjust_iovec) msg)
                           endian_conversion_required) p)
      else app_deliver_instances nodeid endian_conversion_required msg l' p
  end.

(** The message of length [len] at offset [base] of the buffer [data]. *)
Definition app_deliver_fn (nodeid : Z) (base len : Z) (endian_conversion_required : bool) (data : list Z)
    (p : totempg Srp) : option (list Z * totempg Srp) :=
  data ← (if endian_conversion_required then group_endian_convert (Z.to_nat base) data else Some data);
  msg ← slice (Z.to_nat base) (Z.to_nat len) data;
  p ← app_deliver_instances nodeid endian_conversion_required msg (totempg_groups_list p) p;
  Some (data, p).

(** ** Assembly *)

(** The loop over the complete messages of a packet: [ls] are the lengths that
    are left, [base] and [len] describe the next message. *)
Fixpoint deliver_packed (nodeid : Z) (conv : bool) (ls : list Z) (base len : Z) (data : list Z) (index : Z)
    (p : totempg Srp) : option (list Z * Z * totempg Srp) :=
  match ls with
  | [] => Some (data, index, p)
  | l :: ls' =>
      '(data, p) ← app_deliver_fn nodeid base len conv data p;
      let index := index + l in
      deliver_packed nodeid conv ls' index (match ls' with l' :: _ => l' | [] => len end) data index p
  end.

(** [msg_lens[i]]; in front of the lengths is the count itself. *)
Definition msg_len_at (lens : list Z) (i : Z) : option Z :=
  if i =? -1 then Some (Z.of_nat (length lens)) else lens !! Z.to_nat i.

(** What happens to the messages of a packet: thrown away with the end of the
    incomplete message, or delivered.  After a packet with [fragmented] 0 the
    index is reset. *)
Definition deliver_msgs (nodeid : Z) (conv : bool) (fragmented continuation : Z) (lens : list Z) (a : assembly)
    (p : totempg Srp) : option (assembly * totempg Srp) :=
  let msg_count := if c_true fragmented then Z.of_nat (length lens) - 1 else Z.of_nat (length lens) in
  if as_throw_away a then
    if fragmented =? 0 then Some (a <| as_throw_away := false |>, p)
    else if fragmented =? 1 then
      l ← lens !! 0%nat; Some (a <| as_throw_away := false |> <| as_index ::= Z.add l |>, p)
    else Some (a, p)
  else if continuation =? as_last_frag_num a then
    '(data, index, p) ← deliver_packed nodeid conv (take (Z.to_nat msg_count) lens) 0
                          (as_index a + default 0 (lens !! 0%nat)) (as_data a) (as_index a) p;
    Some (a <| as_last_frag_num := fragmented |> <| as_data := data |> <| as_index := index |>, p)
  else Some (a <| as_throw_away := true |>, p).

(** The rest of an incomplete message is kept at the front of the buffer. *)
Definition assembly_keep (fragmented : Z) (lens : list Z) (a : assembly) : option assembly :=
  let count := Z.of_nat (length lens) in
  l ← msg_len_at lens (count - 1);
  a ← (if 1 <? count then
         rest ← slice (Z.to_nat (as_index a)) (Z.to_nat l) (as_data a);
         Some (a <| as_data ::= write_at 0 rest |> <| as_index := 0 |>)
       else Some a);
  Some (a <| as_index ::= Z.add l |>).

Definition totempg_deliver_fn (nodeid : Z) (msg : list Z) (endian_conversion_required : bool) (p : totempg Srp)
    : option (totempg Srp) :=
  let trans := c_true (totempg_waiting_transack p) in
  let '(a, p) := assembly_ref nodeid p in
  let msg_len := Z.of_nat (length msg) in
  if msg_len <? sizeof_totempg_mcast then Some p
  else
    fragmented ← msg !! 4%nat;
    continuation ← msg !! 5%nat;
    raw_count ← u16_at msg 6;
    let conv x := if endian_conversion_required then swab16 x else x in
    let msg_count := conv raw_count in
    let datasize := sizeof_totempg_mcast + msg_count * 2 in
    if msg_len <? datasize then Some p
    else
      raw_lens ← u16s_at msg 8 (Z.to_nat msg_count);
      let msg_lens := map conv raw_lens in
      if negb (msg_len =? datasize + sumZ id msg_lens) then Some p
      else if negb (as_index a + msg_len <? MESSAGE_SIZE_MAX + KNET_MAX_PACKET_SIZE) then None
      else
        let a := a <| as_data ::= write_at (Z.to_nat (as_index a)) (drop (Z.to_nat datasize) msg) |> in
        '(a, p) ← deliver_msgs nodeid endian_conversion_required fragmented continuation msg_lens a p;
        if fragmented =? 0 then
          Some (assembly_deref trans (a <| as_last_frag_num := 0 |> <| as_index := 0 |>) p)
        else
          a ← assembly_keep fragmented msg_lens a;
          Some (assembly_store trans a p).

(** ** Packing and fragmentation *)

Definition packet_bytes (fragmented continuation : Z) (lens data : list Z) : list Z :=
  [0; 0; 0; 0; fragmented; continuation] ++ u16_bytes (Z.of_nat (length lens))
  ++ concat (map u16_bytes lens) ++ data.

(** What is staged goes out when the token comes. *)
Definition callback_token_received_fn (p : totempg Srp) : option (totempg Srp) :=
  if mcast_packed_msg_count p =? 0 then Some p
  else
    avail ← srp_avail (pg_srp p);
    if avail =? 0 then Some p
    else
      let lens := take (Z.to_nat (mcast_packed_msg_count p)) (mcast_packed_msg_lens p) in
      let packet := packet_bytes 0 (fragment_continuation p) lens
                      (take (Z.to_nat (fragment_size p)) (fragmentation_data p)) in
      '(res, srp) ← srp_mcast packet 0 (pg_srp p);
      let p := p <| fragment_continuation := 0 |> <| pg_srp := srp |> in
      let p := if res =? 0 then pg_emit (PgMcast packet 0) p else p in
      Some (p <| mcast_packed_msg_count := 0 |> <| fragment_size := 0 |>).

Definition byte_count_send_ok (byte_count : Z) (p : totempg Srp) : option bool :=
  avail ← srp_avail (pg_srp p);
  Some (u32 (byte_count / (pg_net_mtu p - sizeof_totempg_mcast - 16) + 1) <=? avail).

Definition msg_count_send_ok (msg_count : Z) (p : totempg Srp) : option (bool * totempg Srp) :=
  avail ← srp_avail (pg_srp p);
  Some (msg_count <? avail - totempg_reserved p, p <| stat_msg_queue_avail := avail |>).

(** [mcast_packed_msg_lens[mcast_packed_msg_count]] *)
Definition packed_len (p : totempg Srp) : Z :=
  default 0 (mcast_packed_msg_lens p !! Z.to_nat (mcast_packed_msg_count p)).
Definition set_packed_len (v : Z) (p : totempg Srp) : totempg Srp :=
  p <| mcast_packed_msg_lens ::= write_at (Z.to_nat (mcast_packed_msg_count p)) [u16 v] |>.

(** [memcpy] to the end of the staged data; it must fit the buffer. *)
Definition stage (src : list Z) (p : totempg Srp) : option (totempg Srp) :=
  if fragmentation_alloc p <? fragment_size p + Z.of_nat (length src) then None
  else Some (set_packed_len (packed_len p + Z.of_nat (length src))
               (p <| fragmentation_data ::= write_at (Z.to_nat (fragment_size p)) src |>)).

(** The number of the next fragment, which is never 0. *)
Definition fragment_number (p : totempg Srp) : Z :=
  if next_fragment p =? 0 then 1 else next_fragment p.

(** The staged data and the message ending with it go out; [more] when the
    message continues in the next packet. *)
Definition mcast_packet (guarantee : Z) (more : bool) (size : Z) (p : totempg Srp) : option (Z * totempg Srp) :=
  let continuation := fragment_continuation p in
  let fragmented := if more then fragment_number p else 0 in
  let p := p <| fragment_continuation := fragmented |>
             <| next_fragment := if more then u8 (fragment_number p + 1) else next_fragment p |>
             <| mcast_packed_msg_count ::= Z.add 1 |> in
  let packet := packet_bytes fragmented continuation
                  (take (Z.to_nat (mcast_packed_msg_count p)) (mcast_packed_msg_lens p))
                  (take (Z.to_nat size) (fragmentation_data p)) in
  avail ← srp_avail (pg_srp p);
  if negb (0 <? avail) then None
  else
    '(res, srp) ← srp_mcast packet guarantee (pg_srp p);
    let p := p <| pg_srp := srp |> in
    if res =? -1 then Some (-1, p)
    else
      let p := pg_emit (PgMcast packet guarantee) p in
      Some (res, p <| mcast_packed_msg_lens ::= write_at 0 [0] |> <| mcast_packed_msg_count := 0 |>
                   <| fragment_size := 0 |>).

(** The loop over the vectors: [iov] is the current one, of which [copy_base]
    bytes are done, [res] the result so far.  Sending straight from the vector when it fills the packet
    sends the same bytes as sending from the staging buffer. *)
Fixpoint mcast_loop (fuel : nat) (guarantee res : Z) (iovs : list (list Z)) (copy_base max_packet_size : Z)
    (p : totempg Srp) : option (Z * totempg Srp) :=
  match iovs with
  | [] => Some (res, if c_true (packed_len p) then p <| mcast_packed_msg_count ::= Z.add 1 |> else p)
  | iov :: iovs' =>
      match fuel with
      | O => None
      | S fuel' =>
          let iov_len := Z.of_nat (length iov) in
          let rest := drop (Z.to_nat copy_base) iov in
          if iov_len + fragment_size p <? u64 (max_packet_size - 2) then
            p ← stage rest p;
            mcast_loop fuel' guarantee res iovs' 0 max_packet_size
              (p <| fragment_size ::= Z.add (iov_len - copy_base) |> <| next_fragment := 1 |>)
          else
            let copy_len := Z.min (iov_len - copy_base) (max_packet_size - fragment_size p) in
            if copy_len <? 0 then None
            else
              p ← stage (take (Z.to_nat copy_len) rest) p;
              let complete := copy_base + copy_len =? iov_len in
              let more := negb (match iovs' with [] => true | _ => false end) || negb complete in
              '(res, p) ← mcast_packet guarantee more (fragment_size p + copy_len) p;
              if res =? -1 then Some (-1, p)
              else
                let max_packet_size := TOTEMPG_PACKET_SIZE p - 2 in
                if complete then mcast_loop fuel' guarantee res iovs' 0 max_packet_size p
                else mcast_loop fuel' guarantee res iovs (copy_base + copy_len) max_packet_size p
      end
  end.

(** The result and the state. *)
Definition mcast_msg (iovec_in : list (list Z)) (guarantee : Z) (p : totempg Srp) : option (Z * totempg Srp) :=
  srp ← srp_event_signal (pg_srp p);
  let p := p <| pg_srp := srp |> in
  if negb (Z.of_nat (length iovec_in) <? 64) then None
  else
    let iovec := List.filter (fun v => negb (Nat.eqb (length v) 0)) iovec_in in
    let max_packet_size := TOTEMPG_PACKET_SIZE p - 2 * (mcast_packed_msg_count p + 1) in
    let p := set_packed_len 0 p in
    let total_size := sumZ (fun v => Z.of_nat (length v)) iovec in
    ok ← byte_count_send_ok (total_size + 2 * mcast_packed_msg_count p) p;
    if negb ok then Some (-1, p)
    else mcast_loop (Z.to_nat total_size) guarantee 0 iovec 0 max_packet_size p.

(** ** Flow control *)

Definition send_reserve (msg_size : Z) (p : totempg Srp) : Z * totempg Srp :=
  let msg_count := u32 (msg_size / (pg_net_mtu p - sizeof_totempg_mcast - 16) + 1) in
  let r := s32 (totempg_reserved p + msg_count) in
  (msg_count, p <| totempg_reserved := r |> <| stat_msg_reserved := r |>).

Definition send_release (msg_count : Z) (p : totempg Srp) : totempg Srp :=
  let r := s32 (totempg_reserved p - msg_count) in
  p <| totempg_reserved := r |> <| stat_msg_reserved := r |>.

(** [MESSAGE_QUEUE_MAX] is unsigned, and so is the quotient. *)
Definition q_level_precent_used (p : totempg Srp) : option Z :=
  avail ← srp_avail (pg_srp p);
  Some (u32 (100 - u32 ((avail - totempg_reserved p) * 100) / (4 * MESSAGE_SIZE_MAX / pg_net_mtu p))).

Definition q_level_next (percent_used q_level : Z) : Z :=
  if (75 <=? percent_used) && negb (q_level =? TOTEM_Q_LEVEL_CRITICAL) then TOTEM_Q_LEVEL_CRITICAL
  else if (percent_used <? 30) && negb (q_level =? TOTEM_Q_LEVEL_LOW) then TOTEM_Q_LEVEL_LOW
  else if (40 <? percent_used) && (percent_used <? 50) && negb (q_level =? TOTEM_Q_LEVEL_GOOD) then TOTEM_Q_LEVEL_GOOD
  else if (60 <? percent_used) && (percent_used <? 70) && negb (q_level =? TOTEM_Q_LEVEL_HIGH) then TOTEM_Q_LEVEL_HIGH
  else q_level.

(** The group instance [id], and its update. *)
Definition group_instance (id : Z) (p : totempg Srp) : option totempg_group_instance :=
  List.find (fun g => gi_id g =? id) (totempg_groups_list p).
Definition upd_group_instance (id : Z) (f : totempg_group_instance -> totempg_group_instance) (p : totempg Srp)
    : totempg Srp :=
  p <| totempg_groups_list ::= map (fun g => if gi_id g =? id then f g else g) |>.

Definition check_q_level (id : Z) (p : totempg Srp) : option (totempg Srp) :=
  g ← group_instance id p;
  percent ← q_level_precent_used p;
  let new := q_level_next (s32 percent) (gi_q_level g) in
  let p := upd_group_instance id (fun g => g <| gi_q_level := new |>) p in
  Some (if queue_level_callback p && negb (gi_q_level g =? new) then pg_emit (PgQueueLevelChanged new) p else p).

Definition totempg_check_q_level := check_q_level.

(** ** Groups *)

(** [QB_LOOP_MED] of libqb is the first level of an instance. *)
Definition totempg_groups_initialize (QB_LOOP_MED id : Z) (has_confchg_fn malloc_ok : bool) (p : totempg Srp)
    : Z * totempg Srp :=
  if negb malloc_ok then (-1, p)
  else (0, p <| totempg_groups_list ::= cons (mk_group_instance id has_confchg_fn [] QB_LOOP_MED) |>).

Definition totempg_groups_join (id : Z) (groups : list (list Z)) (realloc_ok : bool) (p : totempg Srp)
    : Z * totempg Srp :=
  if negb realloc_ok then (-1, p)
  else (0, upd_group_instance id (fun g => g <| gi_groups ::= fun l => l ++ groups |>) p).

(** Does nothing. *)
Definition totempg_groups_leave (id : Z) (groups : list (list Z)) (p : totempg Srp) : Z * totempg Srp := (0, p).

Definition MAX_IOVECS_FROM_APP : nat := 32.
Definition MAX_GROUPS_PER_MSG : nat := 32.

(** The group lengths in front of the message, the names and the message; the
    arrays on the stack must be large enough. *)
Definition group_iovec (groups : list (list Z)) (iovec : list (list Z)) : option (list (list Z)) :=
  if Nat.ltb MAX_GROUPS_PER_MSG (length groups)
     || Nat.ltb (MAX_GROUPS_PER_MSG + MAX_IOVECS_FROM_APP) (length groups + length iovec) then None
  else Some (concat (map u16_bytes (u16 (Z.of_nat (length groups))
                                    :: map (fun g => u16 (Z.of_nat (length g))) groups)) :: groups ++ iovec).

Definition totempg_groups_mcast_groups (guarantee : Z) (groups : list (list Z)) (iovec : list (list Z))
    (p : totempg Srp) : option (Z * totempg Srp) :=
  iov ← group_iovec groups iovec; mcast_msg iov guarantee p.

Definition totempg_groups_mcast_joined (id : Z) (iovec : list (list Z)) (guarantee : Z) (p : totempg Srp)
    : option (Z * totempg Srp) :=
  g ← group_instance id p;
  iov ← group_iovec (gi_groups g) iovec; mcast_msg iov guarantee p.

Definition iovec_size (l : list (list Z)) : Z := sumZ (fun v => Z.of_nat (length v)) l.

(** -1 when the message can never be sent, 0 when it cannot be sent now. *)
Definition totempg_groups_joined_reserve (id : Z) (iovec : list (list Z)) (p : totempg Srp) : option (Z * totempg Srp) :=
  g ← group_instance id p;
  let size := u32 (iovec_size (gi_groups g) + iovec_size iovec) in
  if totempg_size_limit p <=? size then
    p ← check_q_level id p; Some (-1, p)
  else
    ok ← byte_count_send_ok size p;
    let '(reserved, p) := if ok : bool then send_reserve size p else (0, p) in
    p ← check_q_level id p; Some (reserved, p).

Definition totempg_groups_joined_release (msg_count : Z) (p : totempg Srp) : Z * totempg Srp :=
  (0, send_release msg_count p).

Definition totempg_groups_send_ok_groups (groups : list (list Z)) (iovec : list (list Z)) (p : totempg Srp)
    : option (bool * totempg Srp) :=
  msg_count_send_ok (s32 (u32 (iovec_size groups + iovec_size iovec))) p.

Definition totempg_queue_level_register_callback (fn : bool) (p : totempg Srp) : totempg Srp :=
  p <| queue_level_callback := fn |>.

(** [initialize_srp] is the ring protocol instance, [net_mtu] the configured
    mtu; the callback of the token is registered with that instance. *)
Definition totempg_initialize (net_mtu sizeof_mcast : Z) (malloc_ok : bool) (initialize_srp : Z -> Z * Srp)
    (zero : Srp) : option (Z * totempg Srp) :=
  let p := mk_totempg net_mtu [] 0 1 0 false [] [] [] [] [] 0 0 0 0 1 0 0 zero [] in
  if negb malloc_ok then Some (-1, p)
  else
    let p := p <| fragmentation_alloc := TOTEMPG_PACKET_SIZE p |>
               <| pg_net_mtu := u32 (net_mtu - 2 * sizeof_mcast) |> in
    let '(res, srp) := initialize_srp (pg_net_mtu p) in
    let p := p <| pg_srp := srp |> in
    if res =? -1 then Some (-1, p)
    else
      avail ← srp_avail srp;
      Some (res, p <| totempg_size_limit := u32 ((avail - 1) * (pg_net_mtu p - sizeof_totempg_mcast - 16)) |>
                   <| totempg_groups_list := [] |>).

End TotemPg.
