(* ===== verification/TotemPgTheory.v ===== *)
(** * Totem process groups: packets and messages

    Packets as lists of pieces of messages: what the packing of a sender puts on
    the ring, what the assembly of a receiver makes of it, and the encoding of
    the groups a message is addressed to. *)
From S2P Require Import Prelude VoteQuorum Endian TotemMemb TotemSrp TotemPg.

Abbreviation len := (fun l : list Z => Z.of_nat (length l)).
Abbreviation cnt l := (Z.of_nat (length l)).

(** ** Bytes *)

Lemma u16_bytes_at n l r : 0 <= n < 2 ^ 16 -> u16_at (l ++ u16_bytes n ++ r) (length l) = Some n.
Proof.
  intros Hn. unfold u16_at. rewrite (lookup_app_r l _ (length l)), (lookup_app_r l _ (S (length l))) by lia.
  replace (length l - length l)%nat with 0%nat by lia. replace (S (length l) - length l)%nat with 1%nat by lia.
  cbn [u16_bytes app lookup list_lookup mbind option_bind]. f_equal.
  rewrite (Z.mod_small (n / 256)) by (split; [apply Z.div_pos|apply Z.div_lt_upper_bound]; lia).
  rewrite Z.add_comm. symmetry. apply Z.div_mod. lia.
Qed.

Lemma length_u16s lens : length (concat (map u16_bytes lens)) = (2 * length lens)%nat.
Proof. induction lens as [|n l IH]; cbn; [done|]. lia. Qed.

Lemma u16s_bytes_at lens l r :
  (forall n, n ∈ lens -> 0 <= n < 2 ^ 16) ->
  u16s_at (l ++ concat (map u16_bytes lens) ++ r) (length l) (length lens) = Some lens.
Proof.
  revert l. induction lens as [|n lens IH]; intros l H; [done|]. cbn [map concat u16s_at length].
  rewrite <- app_assoc, u16_bytes_at by (apply H; now left). cbn [mbind option_bind].
  replace (length l + 2)%nat with (length (l ++ u16_bytes n)) by (rewrite length_app; cbn; lia).
  rewrite app_assoc, IH; [done|]. intros m Hm. apply H. now right.
Qed.

Lemma slice_app {A} (l m r : list A) : slice (length l) (length m) (l ++ m ++ r) = Some m.
Proof.
  unfold slice. rewrite (proj2 (Nat.leb_le _ _)) by (rewrite !length_app; lia).
  now rewrite drop_app_length, take_app_length.
Qed.

Lemma write_at_take {A} off (src dst : list A) :
  (off <= length dst)%nat -> take (off + length src) (write_at off src dst) = take off dst ++ src.
Proof.
  intros H. unfold write_at. rewrite app_assoc.
  rewrite take_app_length'; [done|]. rewrite length_app, length_take. lia.
Qed.

Lemma write_at_length {A} off (src dst : list A) :
  (off <= length dst)%nat -> (off + length src <= length (write_at off src dst))%nat.
Proof. intros H. unfold write_at. rewrite !length_app, length_take, length_drop. lia. Qed.

Lemma write_at_split {A} off (src dst : list A) :
  write_at off src dst = take off dst ++ src ++ drop (off + length src) dst.
Proof. done. Qed.

Lemma sum_len_cons l m ms : cnt (l ++ m) + sumZ len ms = cnt l + sumZ len (m :: ms).
Proof. unfold sumZ. cbn. rewrite length_app. lia. Qed.

Lemma sum_len_concat ms : sumZ len ms = cnt (concat ms).
Proof. induction ms as [|m ms IH]; cbn; [done|]. unfold sumZ in *. cbn. rewrite IH, length_app. lia. Qed.

Lemma sum_id_map ms : sumZ id (map len ms) = sumZ len ms.
Proof. induction ms as [|m ms IH]; [done|]. unfold sumZ, id in *. cbn in *. now rewrite IH. Qed.

(** ** Packets as lists of pieces *)

(** The pieces of a packet continue the message [part] of which the first part
    was received before. *)
Definition attach (part : list Z) (ps : list (list Z)) : list (list Z) :=
  match ps with
  | [] => match part with [] => [] | _ => [part] end
  | x :: r => (part ++ x) :: r
  end.

Record packet := mk_packet { pk_fragmented : Z; pk_continuation : Z; pk_pieces : list (list Z) }.

Definition packet_enc (k : packet) : list Z :=
  packet_bytes (pk_fragmented k) (pk_continuation k) (map len (pk_pieces k)) (concat (pk_pieces k)).

(** What a receiver that has [part] of a message and expects the continuation
    [lf] makes of a packet: complete messages, and what is left. *)
Definition abs_recv (st : list Z * Z) (k : packet) : option (list (list Z) * (list Z * Z)) :=
  if pk_continuation k =? snd st then
    let ms := attach (fst st) (pk_pieces k) in
    if pk_fragmented k =? 0 then Some (ms, ([], 0))
    else Some (removelast ms, (List.last ms [], pk_fragmented k))
  else None.

Fixpoint abs_recv_all (st : list Z * Z) (ks : list packet) : option (list (list Z) * (list Z * Z)) :=
  match ks with
  | [] => Some ([], st)
  | k :: ks' =>
      '(ms, st) ← abs_recv st k;
      '(ms', st) ← abs_recv_all st ks';
      Some (ms ++ ms', st)
  end.

Lemma attach_snoc part ps x y :
  attach part (ps ++ [x ++ y])
  = removelast (attach part (ps ++ [x])) ++ [List.last (attach part (ps ++ [x])) [] ++ y].
Proof.
  destruct ps as [|p ps]; cbn [app attach].
  - cbn. now rewrite app_assoc.
  - rewrite !app_comm_cons, removelast_app, !List.last_last by done. cbn [removelast]. now rewrite app_nil_r.
Qed.

(** ** The receiver *)
Section Receiver.
Context {Srp : Type} {api : SrpApi Srp} (KNET_MAX_PACKET_SIZE : Z) (nodeid : Z).

(** The receiver has [part] of a message of [nodeid], which goes on with the
    continuation number [lf]. *)
Definition recv_ok (part : list Z) (lf : Z) (q : totempg Srp) : Prop :=
  let l := List.filter (fun a => nodeid =? as_nodeid a) (active_inuse (c_true (totempg_waiting_transack q)) q) in
  (l = [] /\ part = [] /\ lf = 0)
  \/ (exists a, l = [a] /\ as_index a = cnt part /\ take (length part) (as_data a) = part
        /\ as_last_frag_num a = lf /\ as_throw_away a = false).

(** A message that the groups of the receiver can look at, and its effects. *)
Definition accepts (insts : list totempg_group_instance) (m : list Z) (es : list pg_effect) : Prop :=
  forall q : totempg Srp, app_deliver_instances nodeid false m insts q = Some (q <| pg_out ::= fun o => o ++ es |>).

Lemma emits_app (es es' : list pg_effect) (q : totempg Srp) :
  q <| pg_out ::= fun o => o ++ es |> <| pg_out ::= fun o => o ++ es' |> = q <| pg_out ::= fun o => o ++ (es ++ es') |>.
Proof. destruct q. unfold upd. cbn. now rewrite app_assoc. Qed.

Lemma emits_nil (q : totempg Srp) : q <| pg_out ::= fun o => o ++ [] |> = q.
Proof. destruct q. unfold upd. cbn. now rewrite app_nil_r. Qed.

(** The messages behind the first one: each starts where the last one ended. *)
Lemma deliver_packed_tail ms ess pre post x (q : totempg Srp) :
  Forall2 (accepts (totempg_groups_list q)) ms ess ->
  deliver_packed nodeid false (map len ms) (cnt pre)
    (match map len ms with n :: _ => n | [] => x end) (pre ++ concat ms ++ post) (cnt pre) q
  = Some (pre ++ concat ms ++ post, cnt pre + sumZ len ms, q <| pg_out ::= fun o => o ++ concat ess |>).
Proof.
  revert ess pre x q. induction ms as [|m ms IH]; intros ess pre x q H.
  - apply Forall2_nil_inv_l in H as ->. cbn. now rewrite emits_nil, Z.add_0_r.
  - apply Forall2_cons_inv_l in H as (es & ess' & H1 & H2 & ->). cbn [map concat deliver_packed].
    unfold app_deliver_fn at 1. cbn [mbind option_bind]. rewrite !Nat2Z.id, <- app_assoc, slice_app. cbn [mbind option_bind].
    rewrite H1. cbn [mbind option_bind].
    replace (cnt pre + cnt m) with (cnt (pre ++ m)) by (cbn; rewrite length_app; lia).
    rewrite (app_assoc pre m), (IH ess') by done. rewrite emits_app, <- !app_assoc. cbn [concat].
    now rewrite sum_len_cons.
Qed.

Lemma deliver_packed_spec part ps ess post x (q : totempg Srp) :
  Forall2 (accepts (totempg_groups_list q)) (attach part ps) ess -> ps <> [] ->
  deliver_packed nodeid false (map len ps) 0 (cnt part + default x (map len ps !! 0%nat))
    (part ++ concat ps ++ post) (cnt part) q
  = Some (part ++ concat ps ++ post, cnt part + sumZ len ps, q <| pg_out ::= fun o => o ++ concat ess |>).
Proof.
  intros H Hp. destruct ps as [|p ps]; [done|]. cbn [attach] in H.
  apply Forall2_cons_inv_l in H as (es & ess' & H1 & H2 & ->). cbn [map concat deliver_packed lookup list_lookup default from_option id].
  unfold id.
  unfold app_deliver_fn at 1. cbn [mbind option_bind].
  replace (cnt part + cnt p) with (cnt (part ++ p)) by (cbn; rewrite length_app; lia).
  rewrite Nat2Z.id. pose proof (slice_app [] (part ++ p) (concat ps ++ post)) as Hs. cbn [length app] in Hs.
  rewrite <- app_assoc in Hs. rewrite <- app_assoc. change (Z.to_nat 0) with 0%nat. rewrite Hs. cbn [mbind option_bind].
  rewrite H1. cbn [mbind option_bind].
  set (q1 := q <| pg_out ::= fun o => o ++ es |>).
  pose proof (deliver_packed_tail ps ess' (part ++ p) post (cnt (part ++ p)) q1 H2) as T.
  rewrite <- app_assoc in T. rewrite T. subst q1. now rewrite emits_app, sum_len_cons.
Qed.
(** ** A packet arrives *)

Lemma packet_header k : packet_enc k !! 4%nat = Some (pk_fragmented k) /\ packet_enc k !! 5%nat = Some (pk_continuation k).
Proof. done. Qed.

Lemma packet_count k : cnt (pk_pieces k) < 2 ^ 16 -> u16_at (packet_enc k) 6 = Some (cnt (pk_pieces k)).
Proof.
  intros H. unfold packet_enc, packet_bytes. rewrite length_map.
  apply (u16_bytes_at (cnt (pk_pieces k)) [0; 0; 0; 0; pk_fragmented k; pk_continuation k]). cbn in *. lia.
Qed.

Lemma packet_lens k :
  (forall x, x ∈ pk_pieces k -> cnt x < 2 ^ 16) ->
  u16s_at (packet_enc k) 8 (length (pk_pieces k)) = Some (map len (pk_pieces k)).
Proof.
  intros H. unfold packet_enc, packet_bytes. rewrite length_map.
  pose proof (u16s_bytes_at (map len (pk_pieces k))
    ([0; 0; 0; 0; pk_fragmented k; pk_continuation k] ++ u16_bytes (cnt (pk_pieces k))) (concat (pk_pieces k))) as E.
  rewrite length_map, <- app_assoc in E. apply E.
  intros n (x & -> & Hx)%list_elem_of_fmap. specialize (H x Hx). cbn in *. lia.
Qed.

Lemma packet_length k : cnt (packet_enc k) = 8 + 2 * cnt (pk_pieces k) + sumZ len (pk_pieces k).
Proof.
  unfold packet_enc, packet_bytes. cbn [app]. rewrite sum_len_concat. cbn -[Z.mul concat].
  rewrite !length_app, length_u16s, length_map. cbn. lia.
Qed.

Lemma packet_data k :
  drop (Z.to_nat (8 + 2 * cnt (pk_pieces k))) (packet_enc k) = concat (pk_pieces k).
Proof.
  unfold packet_enc, packet_bytes. rewrite !app_assoc. apply drop_app_length'.
  rewrite !length_app, length_u16s, length_map. cbn. lia.
Qed.

(** ** The buffers of the assembly lists *)

Abbreviation is_node := (fun a => nodeid =? as_nodeid a).

Lemma find_filter {A} (f : A -> bool) l : List.find f l = hd_error (List.filter f l).
Proof. induction l as [|a l IH]; cbn; [done|]. now destruct (f a). Qed.

Lemma filter_remove_one l a :
  List.filter is_node l = [a] -> List.filter is_node (assembly_remove nodeid l) = [].
Proof.
  induction l as [|b l IH]; cbn; [done|]. destruct (nodeid =? as_nodeid b) eqn:E; [now intros [= _ ?]|].
  intros H. cbn. rewrite E. auto.
Qed.

Lemma filter_replace_one l a b :
  List.filter is_node l = [a] -> as_nodeid b = nodeid -> List.filter is_node (assembly_replace b l) = [b].
Proof.
  intros H E. revert H. induction l as [|c l IH]; cbn; [done|]. rewrite E.
  destruct (nodeid =? as_nodeid c) eqn:Ec.
  - intros [= _ H]. cbn. rewrite E, Z.eqb_refl. now rewrite H.
  - intros H. cbn. rewrite Ec. auto.
Qed.

Lemma filter_id l a : List.filter is_node l = [a] -> as_nodeid a = nodeid.
Proof.
  intros H. assert (Ha : In a (List.filter is_node l)) by (rewrite H; now left).
  apply filter_In in Ha as [_ Ha%Z.eqb_eq]. done.
Qed.

Lemma active_set trans l (q : totempg Srp) : active_inuse trans (set_active_inuse trans l q) = l.
Proof. now destruct trans. Qed.

(** What the receiving side keeps: groups and mode. *)
Definition same_view (q q' : totempg Srp) : Prop :=
  totempg_groups_list q' = totempg_groups_list q /\ totempg_waiting_transack q' = totempg_waiting_transack q.

Lemma set_active_view trans l (q : totempg Srp) :
  same_view q (set_active_inuse trans l q) /\ pg_out (set_active_inuse trans l q) = pg_out q.
Proof. now destruct trans. Qed.

(** [assembly_ref] finds the buffer with [part], or prepares an empty one. *)
Lemma assembly_ref_spec part lf (q : totempg Srp) :
  recv_ok part lf q ->
  exists a q1, assembly_ref nodeid q = (a, q1) /\ same_view q q1 /\ pg_out q1 = pg_out q
    /\ List.filter is_node (active_inuse (c_true (totempg_waiting_transack q)) q1) = [a]
    /\ as_index a = cnt part /\ take (length part) (as_data a) = part
    /\ as_last_frag_num a = lf /\ as_throw_away a = false.
Proof.
  unfold recv_ok, assembly_ref. set (tr := c_true (totempg_waiting_transack q)). rewrite find_filter.
  intros [(El & -> & ->)|(a & El & H1 & H2 & H3 & H4)]; rewrite El; cbn [hd_error].
  - destruct (assembly_list_free q) as [|b free].
    + eexists _, _. split; [reflexivity|]. destruct (set_active_view tr (mk_assembly nodeid [0] 0 0 false :: active_inuse tr q) q).
      rewrite active_set. cbn [List.filter as_nodeid]. rewrite Z.eqb_refl, El. split_and!; done.
    + eexists _, _. split; [reflexivity|]. set (b' := b <| as_nodeid := nodeid |> <| as_index := 0 |> <| as_last_frag_num := 0 |> <| as_throw_away := false |>).
      set (q0 := q <| assembly_list_free := free |>).
      destruct (set_active_view tr (b' :: active_inuse tr q) q0) as [V1 V2].
      rewrite active_set. cbn [List.filter]. change (as_nodeid b') with nodeid. rewrite Z.eqb_refl, El. split_and!; done.
  - exists a, q. split_and!; done.
Qed.

Lemma assembly_deref_spec tr x a (q : totempg Srp) :
  List.filter is_node (active_inuse tr q) = [x] -> as_nodeid a = nodeid ->
  List.filter is_node (active_inuse tr (assembly_deref tr a q)) = [] /\ same_view q (assembly_deref tr a q)
  /\ pg_out (assembly_deref tr a q) = pg_out q.
Proof.
  intros H E. unfold assembly_deref. rewrite E.
  split; [|now destruct tr]. apply filter_remove_one in H. now destruct tr.
Qed.

Lemma assembly_store_spec tr x a (q : totempg Srp) :
  List.filter is_node (active_inuse tr q) = [x] -> as_nodeid a = nodeid ->
  List.filter is_node (active_inuse tr (assembly_store tr a q)) = [a] /\ same_view q (assembly_store tr a q)
  /\ pg_out (assembly_store tr a q) = pg_out q.
Proof.
  intros H E. unfold assembly_store.
  split; [|now destruct tr]. rewrite active_set. now apply (filter_replace_one _ x).
Qed.

(** The complete messages of a packet. *)
Lemma deliver_msgs_spec k part a ess (q : totempg Srp) rest :
  as_index a = cnt part -> as_data a = part ++ concat (pk_pieces k) ++ rest ->
  as_last_frag_num a = pk_continuation k -> as_throw_away a = false -> pk_pieces k <> [] ->
  let n := if pk_fragmented k =? 0 then length (pk_pieces k) else (length (pk_pieces k) - 1)%nat in
  Forall2 (accepts (totempg_groups_list q))
    (match n with O => [] | _ => attach part (take n (pk_pieces k)) end) ess ->
  deliver_msgs nodeid false (pk_fragmented k) (pk_continuation k) (map len (pk_pieces k)) a q
  = Some (a <| as_last_frag_num := pk_fragmented k |> <| as_data := as_data a |>
            <| as_index := cnt part + sumZ len (take n (pk_pieces k)) |>,
          q <| pg_out ::= fun o => o ++ concat ess |>).
Proof.
  intros H1 H2 H3 H4 H5 n H6. unfold deliver_msgs. rewrite H4, H3, Z.eqb_refl, length_map.
  set (ps := pk_pieces k) in *.
  assert (En : (if c_true (pk_fragmented k) then cnt ps - 1 else cnt ps) = Z.of_nat n).
  { subst n. unfold c_true. destruct (pk_fragmented k =? 0); cbn [negb]; [done|]. destruct ps; [done|]. cbn. lia. }
  rewrite En, Nat2Z.id, H1, H2. clear En.
  destruct (decide (n = 0%nat)) as [E0|E0].
  - rewrite E0 in *. apply Forall2_nil_inv_l in H6 as ->. cbn. rewrite emits_nil, Z.add_0_r. reflexivity.
  - rewrite firstn_map.
    assert (Hd : concat ps = concat (take n ps) ++ concat (drop n ps)) by (rewrite <- concat_app, take_drop; done).
    assert (Hp : take n ps <> []) by (destruct ps, n; done).
    replace (map len ps !! 0%nat) with (map len (take n ps) !! 0%nat) by (destruct ps, n; done).
    rewrite Hd, <- (app_assoc _ _ rest).
    rewrite (deliver_packed_spec part (take n ps) ess); [reflexivity| |done]. destruct n; [done|]. exact H6.
Qed.

Lemma attach_take_last part ps x :
  ps <> [] -> attach part (ps ++ [x]) = attach part ps ++ [x].
Proof. destruct ps; [done|]. reflexivity. Qed.

(** What is kept of a packet that ends with an incomplete message. *)
Lemma assembly_keep_spec part ps x a rest :
  as_index a = cnt part + sumZ len ps -> as_data a = part ++ concat ps ++ x ++ rest ->
  exists a', assembly_keep 1 (map len (ps ++ [x])) a = Some a'
    /\ as_index a' = cnt (List.last (attach part (ps ++ [x])) [])
    /\ take (length (List.last (attach part (ps ++ [x])) [])) (as_data a') = List.last (attach part (ps ++ [x])) []
    /\ as_nodeid a' = as_nodeid a /\ as_last_frag_num a' = as_last_frag_num a /\ as_throw_away a' = as_throw_away a.
Proof.
  intros Hi Hd. unfold assembly_keep. rewrite length_map, length_app. cbn [length].
  assert (Hl : msg_len_at (map len (ps ++ [x])) (Z.of_nat (length ps + 1) - 1) = Some (cnt x)).
  { unfold msg_len_at. destruct (Z.eqb_spec (Z.of_nat (length ps + 1) - 1) (-1)); [lia|].
    replace (Z.to_nat _) with (length ps) by lia.
    rewrite map_app, lookup_app_r by now rewrite length_map. now rewrite length_map, Nat.sub_diag. }
  rewrite Hl. cbn [mbind option_bind]. destruct ps as [|p ps].
  - cbn [length]. rewrite (proj2 (Z.ltb_ge _ _)) by lia. cbn [mbind option_bind]. eexists. split; [reflexivity|].
    cbn [attach app List.last concat] in *. cbn -[Z.add]. rewrite Hi, Hd. unfold sumZ. cbn [foldr].
    split_and!; [rewrite length_app; lia| |done..].
    rewrite app_assoc. apply take_app_length.
  - rewrite attach_take_last, List.last_last by done.
    rewrite (proj2 (Z.ltb_lt _ _)) by (cbn [length]; lia).
    assert (Hs : slice (Z.to_nat (as_index a)) (Z.to_nat (cnt x)) (as_data a) = Some x).
    { rewrite Hi, Hd, sum_len_concat, app_assoc, Nat2Z.id.
      replace (Z.to_nat _) with (length (part ++ concat (p :: ps))) by (rewrite length_app; lia). apply slice_app. }
    rewrite Hs. cbn [mbind option_bind]. eexists. split; [reflexivity|].
    cbn -[Z.add]. split_and!; [lia| |done..]. unfold write_at. rewrite take_0. apply (take_app_length x).
Qed.

Lemma assembly_keep_any f lens a : assembly_keep f lens a = assembly_keep 1 lens a.
Proof. done. Qed.

(** A packet arrives in time. *)
Lemma totempg_deliver_spec k part lf ms part' lf' ess (q : totempg Srp) :
  recv_ok part lf q -> pk_pieces k <> [] -> cnt (pk_pieces k) < 2 ^ 16 ->
  (forall x, x ∈ pk_pieces k -> cnt x < 2 ^ 16) ->
  cnt part + cnt (packet_enc k) < MESSAGE_SIZE_MAX + KNET_MAX_PACKET_SIZE ->
  abs_recv (part, lf) k = Some (ms, (part', lf')) ->
  Forall2 (accepts (totempg_groups_list q)) ms ess ->
  exists q', totempg_deliver_fn KNET_MAX_PACKET_SIZE nodeid (packet_enc k) false q = Some q'
    /\ recv_ok part' lf' q' /\ same_view q q' /\ pg_out q' = pg_out q ++ concat ess.
Proof.
  intros R Hp Hc Hl Hb Ha Hess. unfold totempg_deliver_fn. cbn zeta.
  destruct (assembly_ref_spec part lf q R) as (a & q1 & E1 & [V1 V1'] & O1 & F1 & I1 & D1 & L1 & T1). rewrite E1.
  destruct (packet_header k) as [-> ->]. rewrite packet_count by done.
  pose proof (packet_length k) as PL. rewrite PL in *.
  assert (Hpos : 0 <= sumZ len (pk_pieces k)) by (rewrite sum_len_concat; cbn; lia).
  unfold sizeof_totempg_mcast. rewrite (proj2 (Z.ltb_ge _ _)) by lia. cbn [mbind option_bind].
  rewrite (proj2 (Z.ltb_ge _ _)) by lia. rewrite Nat2Z.id, packet_lens by done. cbn [mbind option_bind].
  rewrite map_id, sum_id_map.
  rewrite (proj2 (Z.eqb_eq _ _)) by lia. cbn [negb]. rewrite I1, (proj2 (Z.ltb_lt _ _)) by lia. cbn [negb].
  rewrite (Z.mul_comm (cnt (pk_pieces k)) 2), packet_data. set (ps := pk_pieces k) in *.
  match goal with |- context [deliver_msgs _ _ _ _ _ ?x _] => set (a1 := x) end.
  set (rest := drop (length part + length (concat ps)) (as_data a)).
  assert (Da : as_data a1 = part ++ concat ps ++ rest).
  { subst a1 rest. cbn. unfold write_at. rewrite Nat2Z.id, D1. done. }
  assert (Fa : as_index a1 = cnt part /\ as_last_frag_num a1 = lf /\ as_throw_away a1 = false /\ as_nodeid a1 = nodeid)
    by (split_and!; [exact I1|exact L1|exact T1|apply (filter_id _ _ F1)]).
  clearbody a1 rest. destruct Fa as (Ia & La & Ta & Na).
  unfold abs_recv in Ha. cbn [fst snd] in Ha. fold ps in Ha.
  destruct (Z.eqb_spec (pk_continuation k) lf) as [Ec|]; [|done].
  rewrite <- V1 in Hess.
  pose proof (deliver_msgs_spec k part a1 ess q1 rest Ia Da (eq_trans La (eq_sym Ec)) Ta Hp) as DM. cbn zeta in DM.
  fold ps in DM. destruct (Z.eqb_spec (pk_fragmented k) 0) as [Ef|Ef].
  - revert Ha. intros [= <- <- <-].
    rewrite DM by (rewrite firstn_all; destruct ps; [done|exact Hess]). cbn [mbind option_bind].
    match goal with |- context [assembly_deref _ ?x ?y] => set (a2 := x); set (q2 := y) end.
    destruct (assembly_deref_spec (c_true (totempg_waiting_transack q)) a a2 q2) as (F3 & [V3 V3'] & O3); [exact F1|exact Na|].
    eexists. split; [reflexivity|]. rewrite O3. split_and!; [|split|].
    + left. rewrite V3'. change (totempg_waiting_transack q2) with (totempg_waiting_transack q1). rewrite V1', F3. done.
    + rewrite V3. exact V1.
    + rewrite V3'. exact V1'.
    + subst q2. cbn. now rewrite O1.
  - revert Ha. intros [= <- <- <-].
    destruct (exists_last Hp) as (ps0 & x & Eps).
    assert (En : (length ps - 1)%nat = length ps0) by (rewrite Eps, length_app; cbn; lia).
    assert (Et : take (length ps0) ps = ps0) by (rewrite Eps; apply take_app_length).
    rewrite En, Et in DM. rewrite DM; clear DM.
    2:{ destruct ps0 as [|p0 ps0]; cbn [length].
        - rewrite Eps in Hess. exact Hess.
        - rewrite Eps, attach_take_last, removelast_last in Hess by done. exact Hess. }
    cbn [mbind option_bind].
    match goal with |- context [assembly_keep _ _ ?x] => set (a2 := x) end.
    set (q2 := q1 <| pg_out ::= fun o => o ++ concat ess |>).
    destruct (assembly_keep_spec part ps0 x a2 rest) as (a3 & E3 & I3 & D3 & N3 & L3 & T3);
      [done|change (as_data a2) with (as_data a1); rewrite Da, Eps, concat_app; cbn [concat]; now rewrite app_nil_r, <- app_assoc|].
    rewrite assembly_keep_any, Eps, E3. cbn [mbind option_bind]. rewrite <- Eps in *.
    destruct (assembly_store_spec (c_true (totempg_waiting_transack q)) a a3 q2) as (F3 & [V3 V3'] & O3);
      [exact F1|rewrite N3; exact Na|].
    eexists. split; [reflexivity|]. rewrite O3. split_and!; [|split|].
    + right. rewrite V3'. change (totempg_waiting_transack q2) with (totempg_waiting_transack q1). rewrite V1'.
      exists a3. split_and!; [exact F3|exact I3|exact D3|rewrite L3; done|rewrite T3; exact Ta].
    + rewrite V3. exact V1.
    + rewrite V3'. exact V1'.
    + subst q2. cbn. now rewrite O1.
Qed.
(** Packets arrive one after the other. *)
Definition deliver_all (packets : list (list Z)) (q : totempg Srp) : option (totempg Srp) :=
  foldl (fun acc m => acc ≫= totempg_deliver_fn KNET_MAX_PACKET_SIZE nodeid m false) (Some q) packets.

Lemma deliver_all_cons m l (q : totempg Srp) :
  deliver_all (m :: l) q = totempg_deliver_fn KNET_MAX_PACKET_SIZE nodeid m false q ≫= deliver_all l.
Proof.
  unfold deliver_all. cbn [foldl mbind option_bind].
  destruct (totempg_deliver_fn _ _ _ _ _); [done|]. cbn. induction l; [done|]. cbn. done.
Qed.

Record packet_ok (k : packet) : Prop := {
  pk_some : pk_pieces k <> [];
  pk_count : cnt (pk_pieces k) < 2 ^ 16;
  pk_lens : forall x, x ∈ pk_pieces k -> cnt x < 2 ^ 16;
  pk_size : cnt (packet_enc k) <= KNET_MAX_PACKET_SIZE
}.

(** What is kept of an incomplete message is the beginning of a message. *)
Lemma abs_recv_prefix part lf ks ms part' lf' :
  Forall packet_ok ks -> abs_recv_all (part, lf) ks = Some (ms, (part', lf')) ->
  exists m, m ∈ ms ++ [part'] /\ part `prefix_of` m.
Proof.
  revert part lf ms. induction ks as [|k ks IH]; intros part lf ms Hk; cbn [abs_recv_all].
  - intros [= <- <- _]. exists part. split; [now left|done].
  - apply Forall_cons in Hk as [Hk Hks].
    intros ([ms1 [part1 lf1] ] & H1 & ([ms2 [part2 lf2] ] & H2 & [= <- <- <-])%bind_Some)%bind_Some.
    apply IH in H2; [|done]. destruct H2 as (m & Hm & Hp). revert H1. unfold abs_recv. cbn [fst snd].
    destruct (_ =? lf); [|done]. pose proof (pk_some _ Hk) as Hne. destruct (pk_pieces k) as [|x ps]; [done|].
    cbn [attach]. destruct (_ =? 0).
    + intros [= <- <- <-]. exists (part ++ x). split; [now left|now exists x].
    + intros [= <- <- <-]. destruct ps as [|y ps].
      * cbn [removelast List.last app] in *. exists m. split; [done|]. etransitivity; [|exact Hp]. now exists x.
      * exists (part ++ x). cbn [removelast app]. split; [now left|now exists x].
Qed.

Lemma deliver_all_spec ks part lf ms part' lf' ess (q : totempg Srp) :
  recv_ok part lf q -> Forall packet_ok ks ->
  abs_recv_all (part, lf) ks = Some (ms, (part', lf')) ->
  (forall m, m ∈ ms ++ [part'] -> cnt m < MESSAGE_SIZE_MAX) ->
  Forall2 (accepts (totempg_groups_list q)) ms ess ->
  exists q', deliver_all (map packet_enc ks) q = Some q'
    /\ recv_ok part' lf' q' /\ same_view q q' /\ pg_out q' = pg_out q ++ concat ess.
Proof.
  revert part lf ms ess q. induction ks as [|k ks IH]; intros part lf ms ess q R Hk Ha Hm He.
  - cbn in Ha. revert Ha. intros [= <- <- <-]. apply Forall2_nil_inv_l in He as ->. cbn. rewrite app_nil_r. exists q. done.
  - destruct (abs_recv_prefix _ _ _ _ _ _ Hk Ha) as (m & Hin & Hpre%prefix_length). specialize (Hm m Hin) as Hlen.
    apply Forall_cons in Hk as [Hk Hks]. cbn [abs_recv_all] in Ha.
    apply bind_Some in Ha as ([ms1 [part1 lf1] ] & H1 & ([ms2 [part2 lf2] ] & H2 & [= <- <- <-])%bind_Some).
    apply Forall2_app_inv_l in He as (es1 & es2 & E1 & E2 & ->). destruct Hk as [K1 K2 K3 K4].
    destruct (totempg_deliver_spec k part lf ms1 part1 lf1 es1 q) as (q1 & D1 & R1 & [V1 V1'] & O1); [done..|lia|done|done|].
    rewrite <- V1 in E2. apply (IH part1 lf1 ms2 es2 q1) in H2; [|done|done| |done].
    + destruct H2 as (q2 & D2 & R2 & [V2 V2'] & O2). exists q2. cbn [map]. rewrite deliver_all_cons, D1. split_and!; [done|done|split; congruence|].
      now rewrite O2, O1, concat_app, app_assoc.
    + intros x Hx. apply Hm. rewrite <- app_assoc. apply elem_of_app. now right.
Qed.

End Receiver.

(** ** The groups of a message *)

(** The bytes in front of a message for [groups]. *)
Definition group_header (groups : list (list Z)) : list Z :=
  concat (map u16_bytes (u16 (cnt groups) :: map (fun g => u16 (cnt g)) groups)) ++ concat groups.

Definition addressed (groups : list (list Z)) (g : totempg_group_instance) : bool :=
  existsb (fun x => existsb (fun y => bool_decide (y = x)) (gi_groups g)) groups.

(** What the users of a node get of a message. *)
Definition message_effects (nodeid : Z) (conv : bool) (groups : list (list Z)) (payload : list Z)
    (insts : list totempg_group_instance) : list pg_effect :=
  concat (map (fun g => if addressed groups g then [PgDeliver (gi_id g) nodeid payload conv] else []) insts).

Lemma existsb_same_length (name : list Z) groups_b :
  existsb (fun g => (cnt name =? cnt g) && bool_decide (g = name)) groups_b
  = existsb (fun y => bool_decide (y = name)) groups_b.
Proof.
  induction groups_b as [|g l IH]; cbn; [done|]. rewrite IH. f_equal.
  case_bool_decide as E; [subst; now rewrite Z.eqb_refl|apply andb_false_r].
Qed.

Lemma group_names_match_spec groups pre rest groups_b :
  group_names_match (pre ++ concat groups ++ rest) (length pre) (map len groups) groups_b
  = Some (existsb (fun x => existsb (fun y => bool_decide (y = x)) groups_b) groups).
Proof.
  revert pre. induction groups as [|g groups IH]; intros pre; [done|]. cbn [map concat group_names_match existsb].
  rewrite Nat2Z.id, <- app_assoc.
  assert (Hn : group_names_match (pre ++ g ++ concat groups ++ rest) (length pre + length g) (map len groups) groups_b
    = Some (existsb (fun x => existsb (fun y => bool_decide (y = x)) groups_b) groups)).
  { rewrite <- length_app, (app_assoc pre g). apply IH. }
  destruct (existsb (fun g0 => cnt g =? cnt g0) groups_b) eqn:El.
  - rewrite slice_app. cbn [mbind option_bind]. rewrite existsb_same_length.
    destruct (existsb (fun y => bool_decide (y = g)) groups_b); [done|exact Hn].
  - replace (existsb (fun y => bool_decide (y = g)) groups_b) with false; [exact Hn|].
    symmetry. rewrite <- existsb_same_length. apply not_true_iff_false. intros (y & Hy & [H1 _]%andb_prop)%existsb_exists.
    rewrite <- not_true_iff_false in El. apply El, existsb_exists. exists y. auto.
Qed.

Section Groups.
Context {Srp : Type} {api : SrpApi Srp}.

Lemma u16_small_lens groups :
  (forall g, g ∈ groups -> cnt g < 2 ^ 16) -> map (fun g : list Z => u16 (cnt g)) groups = map len groups.
Proof.
  intros H. apply map_ext_in. intros g Hg%list_elem_of_In. specialize (H g Hg). unfold u16. apply Z.mod_small. lia.
Qed.

Lemma group_matches_spec groups payload groups_b :
  cnt groups < 2 ^ 16 -> (forall g, g ∈ groups -> cnt g < 2 ^ 16) ->
  group_matches (group_header groups ++ payload) groups_b
  = Some (existsb (fun x => existsb (fun y => bool_decide (y = x)) groups_b) groups, cnt (group_header groups)).
Proof.
  intros Hc Hg. unfold group_matches, group_header. rewrite u16_small_lens by done.
  assert (Eu : u16 (cnt groups) = cnt groups) by (unfold u16; apply Z.mod_small; lia). rewrite Eu.
  cbn [map concat]. rewrite <- !app_assoc.
  pose proof (u16_bytes_at (cnt groups) [] (concat (map u16_bytes (map len groups)) ++ concat groups ++ payload)) as E0.
  cbn [length] in E0. rewrite app_nil_l in E0. rewrite E0 by lia. cbn [mbind option_bind]. rewrite Nat2Z.id.
  pose proof (u16s_bytes_at (map len groups) (u16_bytes (cnt groups)) (concat groups ++ payload)) as E1.
  rewrite length_map in E1. change (length (u16_bytes (cnt groups))) with 2%nat in E1. rewrite E1; clear E1.
  2:{ intros n (x & -> & Hx)%list_elem_of_fmap. specialize (Hg x Hx). lia. }
  cbn [mbind option_bind]. rewrite sum_id_map, sum_len_concat.
  pose proof (group_names_match_spec groups (u16_bytes (cnt groups) ++ concat (map u16_bytes (map len groups)))
    payload groups_b) as E2.
  rewrite <- app_assoc in E2. rewrite length_app, length_u16s, length_map in E2.
  replace (Z.to_nat (2 * (cnt groups + 1))) with (length (u16_bytes (cnt groups)) + 2 * length groups)%nat
    by (change (length (u16_bytes (cnt groups))) with 2%nat; lia).
  rewrite E2. cbn [mbind option_bind]. do 2 f_equal.
  rewrite !length_app, length_u16s, length_map. change (length (u16_bytes (cnt groups))) with 2%nat. lia.
Qed.

(** Exactly the instances that joined one of the groups get the message. *)
Lemma group_accepts nodeid groups payload insts :
  cnt groups < 2 ^ 16 -> (forall g, g ∈ groups -> cnt g < 2 ^ 16) ->
  accepts (Srp := Srp) nodeid insts (group_header groups ++ payload) (message_effects nodeid false groups payload insts).
Proof.
  intros Hc Hg. unfold accepts. induction insts as [|g insts IH]; intros q; cbn [app_deliver_instances].
  - unfold message_effects. cbn. now rewrite emits_nil.
  - rewrite group_matches_spec by done. cbn [mbind option_bind]. unfold message_effects. cbn [map concat].
    fold (message_effects nodeid false groups payload insts). unfold addressed at 1.
    destruct (existsb _ groups).
    + rewrite length_app, (proj2 (Z.ltb_ge _ _)) by lia. rewrite Nat2Z.id, drop_app_length, IH.
      unfold pg_emit. now rewrite emits_app.
    + cbn [app]. apply IH.
Qed.

End Groups.
