(* ===== verification/TotemPgSend.v ===== *)
(** * Totem process groups: the sender

    What the staging buffer holds between and during calls of [mcast_msg], and
    the packets that go out: the pieces a receiver assembles are the messages. *)
From S2P Require Import Prelude VoteQuorum Endian TotemMemb TotemSrp TotemPg TotemPgTheory.

Section Sender.
Context {Srp : Type} {api : SrpApi Srp} (KNET_MAX_PACKET_SIZE : Z).

(** The packet size allows some data and lengths fit 16 bits. *)
Definition mtu_ok (p : totempg Srp) : Prop :=
  16 <= TOTEMPG_PACKET_SIZE p < 2 ^ 16 /\ TOTEMPG_PACKET_SIZE p <= fragmentation_alloc p
  /\ pg_net_mtu p <= KNET_MAX_PACKET_SIZE.

(** The buffer holds the pieces [ps], and the beginning [c] of one more. *)
Record staging (ps : list (list Z)) (c : list Z) (p : totempg Srp) : Prop := {
  sg_count : mcast_packed_msg_count p = cnt ps;
  sg_lens : take (S (length ps)) (mcast_packed_msg_lens p) = map len ps ++ [cnt c];
  sg_size : fragment_size p = cnt (concat ps ++ c);
  sg_data : take (length (concat ps ++ c)) (fragmentation_data p) = concat ps ++ c;
  sg_pieces : forall x, x ∈ ps -> x <> [];
  sg_room : cnt (concat ps ++ c) < TOTEMPG_PACKET_SIZE p - 2 * (cnt ps + 1);
  sg_room_more : c <> [] -> cnt (concat ps ++ c) < TOTEMPG_PACKET_SIZE p - 2 * (cnt ps + 2);
  sg_mtu : mtu_ok p;
  sg_next : 0 <= next_fragment p < 256;
  sg_continuation : 0 <= fragment_continuation p < 256
}.

(** Between calls. *)
Record staged (ps : list (list Z)) (p : totempg Srp) : Prop := {
  st_count : mcast_packed_msg_count p = cnt ps;
  st_lens : take (length ps) (mcast_packed_msg_lens p) = map len ps;
  st_size : fragment_size p = cnt (concat ps);
  st_data : take (length (concat ps)) (fragmentation_data p) = concat ps;
  st_pieces : forall x, x ∈ ps -> x <> [];
  st_room : cnt (concat ps) < TOTEMPG_PACKET_SIZE p - 2 * (cnt ps + 1);
  st_mtu : mtu_ok p;
  st_next : 0 <= next_fragment p < 256;
  st_continuation : 0 <= fragment_continuation p < 256
}.

Lemma take_full {A} n (l m : list A) : take n l = m -> length m = n -> (n <= length l)%nat.
Proof. intros <- H. rewrite length_take in H. lia. Qed.

Lemma cnt_concat_ge ps : (forall x : list Z, x ∈ ps -> x <> []) -> cnt ps <= cnt (concat ps).
Proof.
  induction ps as [|x ps IH]; cbn; [done|]. intros H. rewrite length_app.
  assert (x <> []) by (apply H; now left). assert (cnt ps <= cnt (concat ps)) by (apply IH; intros; apply H; now right).
  destruct x; [done|]. cbn. lia.
Qed.

Lemma packed_len_staging ps c p : staging ps c p -> packed_len p = cnt c.
Proof.
  intros G. unfold packed_len. rewrite (sg_count _ _ _ G), Nat2Z.id.
  rewrite <- (lookup_take_lt _ (S (length ps))) by lia. rewrite (sg_lens _ _ _ G).
  rewrite lookup_app_r by (rewrite length_map; lia). now rewrite length_map, Nat.sub_diag.
Qed.

(** Adding to the piece that is being staged. *)
Lemma stage_spec ps c p src :
  staging ps c p -> cnt (concat ps ++ c ++ src) <= TOTEMPG_PACKET_SIZE p - 2 * (cnt ps + 1) ->
  exists lens data, stage src p = Some (p <| fragmentation_data := data |> <| mcast_packed_msg_lens := lens |>)
    /\ take (S (length ps)) lens = map len ps ++ [cnt (c ++ src)]
    /\ take (length (concat ps ++ c ++ src)) data = concat ps ++ c ++ src.
Proof.
  intros G Hr. pose proof (sg_mtu _ _ _ G) as (M1 & M2 & M3). unfold stage.
  rewrite (sg_size _ _ _ G), (packed_len_staging _ _ _ G).
  rewrite !length_app in *. rewrite (proj2 (Z.ltb_ge _ _)) by lia.
  pose proof (take_full _ _ _ (sg_lens _ _ _ G) ltac:(rewrite length_app, length_map; cbn; lia)) as Hl.
  pose proof (take_full _ _ _ (sg_data _ _ _ G) eq_refl) as Hd. rewrite length_app in Hd.
  exists (write_at (length ps) [u16 (cnt c + cnt src)] (mcast_packed_msg_lens p)),
    (write_at (length (concat ps ++ c)) src (fragmentation_data p)). split.
  - unfold set_packed_len.
    replace (Z.to_nat (mcast_packed_msg_count _)) with (length ps) by (cbn; rewrite (sg_count _ _ _ G); lia).
    replace (Z.to_nat _) with (length (concat ps ++ c)) by (rewrite length_app; lia). reflexivity.
  - split.
    + replace (S (length ps)) with (length ps + length [u16 (cnt c + cnt src)])%nat by (cbn; lia).
      rewrite write_at_take by lia.
      assert (E : take (length ps) (mcast_packed_msg_lens p) = map len ps).
      { transitivity (take (length ps) (take (S (length ps)) (mcast_packed_msg_lens p))); [rewrite take_take; f_equal; lia|].
        rewrite (sg_lens _ _ _ G). apply take_app_length'. now rewrite length_map. }
      rewrite E. unfold u16. rewrite Z.mod_small by lia. do 2 f_equal. lia.
    + replace (length (concat ps) + (length c + length src))%nat with (length (concat ps ++ c) + length src)%nat
        by (rewrite length_app; lia).
      rewrite write_at_take by (rewrite length_app; lia). now rewrite (sg_data _ _ _ G), <- app_assoc.
Qed.

(** A vector that fits with room left over. *)
Lemma stage_copy ps c p src k :
  staging ps c p -> cnt (concat ps ++ c ++ src) < TOTEMPG_PACKET_SIZE p - 2 * (cnt ps + 2) -> cnt src = k ->
  exists lens data, stage src p = Some (p <| fragmentation_data := data |> <| mcast_packed_msg_lens := lens |>)
    /\ staging ps (c ++ src) (p <| fragmentation_data := data |> <| mcast_packed_msg_lens := lens |>
                               <| fragment_size ::= Z.add k |> <| next_fragment := 1 |>).
Proof.
  intros G Hr Hk. destruct (stage_spec ps c p src G) as (lens & data & E & El & Ed); [lia|].
  exists lens, data. split; [done|]. pose proof (sg_size _ _ _ G) as Hs.
  destruct G as [A B C D F R R' M N K]. split; try done.
  - cbn -[Z.add]. rewrite Hs, !length_app. lia.
  - change (TOTEMPG_PACKET_SIZE _) with (TOTEMPG_PACKET_SIZE p). lia.
Qed.

(** A packet goes out with the piece that was staged last. *)
Lemma mcast_packet_spec ps x guarantee more size p res p' :
  mcast_packed_msg_count p = cnt ps -> take (S (length ps)) (mcast_packed_msg_lens p) = map len (ps ++ [x]) ->
  size = cnt (concat (ps ++ [x])) -> take (length (concat (ps ++ [x]))) (fragmentation_data p) = concat (ps ++ [x]) ->
  mtu_ok p -> 0 <= next_fragment p < 256 -> 0 <= fragment_continuation p < 256 ->
  mcast_packet guarantee more size p = Some (res, p') -> res <> -1 ->
  exists f, (if more then f <> 0 else f = 0) /\ fragment_continuation p' = f
    /\ staging [] [] p' /\ pg_net_mtu p' = pg_net_mtu p
    /\ pg_out p' = pg_out p ++ [PgMcast (packet_enc (mk_packet f (fragment_continuation p) (ps ++ [x]))) guarantee].
Proof.
  intros Hc Hl Hs Hd Hm Hn Hf. unfold mcast_packet. cbn zeta.
  set (f := if more then fragment_number p else 0).
  assert (Hfn : if more then f <> 0 else f = 0)
    by (subst f; destruct more; [unfold fragment_number; destruct (Z.eqb_spec (next_fragment p) 0)|]; lia).
  assert (Hfr : 0 <= f < 256)
    by (subst f; destruct more; [unfold fragment_number; destruct (Z.eqb_spec (next_fragment p) 0)|]; lia).
  assert (Hnf : 0 <= (if more then u8 (fragment_number p + 1) else next_fragment p) < 256)
    by (destruct more; [apply u8_range|done]).
  set (n := if more then u8 (fragment_number p + 1) else next_fragment p) in *.
  intros (avail & _ & H)%bind_Some Hres. destruct (negb _); [done|].
  apply bind_Some in H as ([r srp] & _ & H). cbn zeta in H.
  assert (E : packet_bytes f (fragment_continuation p)
      (take (Z.to_nat (1 + mcast_packed_msg_count p)) (mcast_packed_msg_lens p))
      (take (Z.to_nat size) (fragmentation_data p))
    = packet_enc (mk_packet f (fragment_continuation p) (ps ++ [x]))).
  { unfold packet_enc. cbn [pk_fragmented pk_continuation pk_pieces].
    replace (Z.to_nat (1 + mcast_packed_msg_count p)) with (S (length ps)) by lia. rewrite Hl, Hs, Nat2Z.id, Hd. done. }
  destruct (Z.eqb_spec r (-1)) as [->|Hr]; [revert H; intros [= <- _]; done|].
  revert H. intros [= <- <-]. exists f. split_and!; [done|done| |done|].
  - split; [done|done|done|done|now intros y Hy%elem_of_nil| |done|exact Hm|exact Hnf|exact Hfr].
    destruct Hm as ((M1 & _) & _). change (TOTEMPG_PACKET_SIZE _) with (TOTEMPG_PACKET_SIZE p). cbn -[Z.mul]. lia.
  - cbn -[packet_enc]. f_equal. f_equal. f_equal. exact E.
Qed.

(** ** The loop over the vectors *)

(** The messages when [x] is added behind the staged pieces. *)
Definition add_msg_bytes (part : list Z) (ps : list (list Z)) (x : list Z) : list (list Z) :=
  match x with [] => attach part ps | _ => attach part (ps ++ [x]) end.

Lemma add_msg_bytes_some part ps x : x <> [] -> add_msg_bytes part ps x = attach part (ps ++ [x]).
Proof. now destruct x. Qed.

Lemma staging_max ps c p : staging ps c p -> 2 <= TOTEMPG_PACKET_SIZE p - 2 * (cnt ps + 1) < 2 ^ 16.
Proof.
  intros G. pose proof (sg_room _ _ _ G) as R. destruct (sg_mtu _ _ _ G) as (M & _). rewrite length_app in R.
  pose proof (cnt_concat_ge ps (sg_pieces _ _ _ G)). lia.
Qed.

Lemma staging_staged ps p : staging ps [] p -> staged ps p.
Proof.
  intros [A B C D E F _ H I J]. rewrite app_nil_r in *. split; try done.
  transitivity (take (length ps) (take (S (length ps)) (mcast_packed_msg_lens p))); [rewrite take_take; f_equal; lia|].
  rewrite B. apply take_app_length'. now rewrite length_map.
Qed.

Lemma staging_done ps c p :
  staging ps c p -> c <> [] -> staged (ps ++ [c]) (p <| mcast_packed_msg_count ::= Z.add 1 |>).
Proof.
  intros [A B C D E F G H I J] Hc.
  assert (Ec : concat (ps ++ [c]) = concat ps ++ c) by (rewrite concat_app; cbn; now rewrite app_nil_r).
  split; rewrite ?Ec; try done.
  - cbn -[Z.add]. rewrite A, length_app. cbn. lia.
  - rewrite length_app, Nat.add_1_r, map_app. exact B.
  - intros x [Hx|Hx%list_elem_of_singleton]%elem_of_app; [auto|congruence].
  - specialize (G Hc). change (TOTEMPG_PACKET_SIZE _) with (TOTEMPG_PACKET_SIZE p).
    rewrite (length_app ps [c]). cbn [length]. lia.
Qed.

Lemma packet_ok_staged ps x f cont p :
  mtu_ok p -> (forall y, y ∈ ps ++ [x] -> y <> []) ->
  cnt (concat (ps ++ [x])) <= TOTEMPG_PACKET_SIZE p - 2 * (cnt ps + 1) ->
  packet_ok KNET_MAX_PACKET_SIZE (mk_packet f cont (ps ++ [x])).
Proof.
  intros (M1 & M2 & M3) Hy Hc. pose proof (cnt_concat_ge _ Hy) as Hn.
  unfold TOTEMPG_PACKET_SIZE, sizeof_totempg_mcast in *.
  assert (Hl : cnt (ps ++ [x]) = cnt ps + 1) by (rewrite length_app; cbn; lia).
  split; cbn [pk_pieces].
  - now destruct ps.
  - lia.
  - intros y Hy'. assert (cnt y <= cnt (concat (ps ++ [x]))); [|lia].
    apply list_elem_of_split in Hy' as (l1 & l2 & ->). rewrite concat_app. cbn. rewrite !length_app. lia.
  - rewrite packet_length. cbn [pk_pieces]. rewrite sum_len_concat. lia.
Qed.

Definition sends (g : Z) (ks : list packet) : list pg_effect := map (fun k => PgMcast (packet_enc k) g) ks.

(** From [p] to [p'] the packets [ks] go out with which a receiver that has
    [part] completes the staged pieces and [x]; the rest is staged again. *)
Definition passes (g : Z) (part : list Z) (ps : list (list Z)) (x : list Z) (p p' : totempg Srp) : Prop :=
  exists ks ms part' ps', pg_out p' = pg_out p ++ sends g ks /\ Forall (packet_ok KNET_MAX_PACKET_SIZE) ks
    /\ abs_recv_all (part, fragment_continuation p) ks = Some (ms, (part', fragment_continuation p'))
    /\ ms ++ attach part' ps' = add_msg_bytes part ps x
    /\ staged ps' p' /\ (ps' = [] -> part' = [] /\ fragment_continuation p' = 0).

Lemma passes_end g part ps c p :
  staging ps c p -> (ps = [] -> c = [] -> part = [] /\ fragment_continuation p = 0) ->
  passes g part ps c p (if c_true (packed_len p) then p <| mcast_packed_msg_count ::= Z.add 1 |> else p).
Proof.
  intros G H. rewrite (packed_len_staging _ _ _ G). exists [], [], part. unfold sends. cbn [map].
  destruct c as [|b c]; [exists ps|exists (ps ++ [b :: c])]; cbn [c_true length Z.of_nat]; unfold c_true; cbn [Z.eqb negb].
  - rewrite app_nil_r. split_and!; [done..|now apply staging_staged|auto].
  - cbn [Z.eqb negb]. rewrite app_nil_r. split_and!; [done..|now apply staging_done|now destruct ps].
Qed.

(** A packet with the piece [x], then the rest [y] of the message. *)
Lemma passes_packet g part ps x y f p p1 p2 :
  x <> [] -> (if decide (y = []) then f = 0 else f <> 0) ->
  packet_ok KNET_MAX_PACKET_SIZE (mk_packet f (fragment_continuation p) (ps ++ [x])) ->
  pg_out p1 = pg_out p ++ [PgMcast (packet_enc (mk_packet f (fragment_continuation p) (ps ++ [x]))) g] ->
  fragment_continuation p1 = f ->
  (forall part1, (y = [] -> part1 = []) -> passes g part1 [] y p1 p2) ->
  passes g part ps (x ++ y) p p2.
Proof.
  intros Hx Hf Hk Ho Hc HP. set (k := mk_packet f (fragment_continuation p) (ps ++ [x])) in *.
  assert (Hxy : x ++ y <> []) by now destruct x.
  set (ms1 := attach part (ps ++ [x])).
  set (part1 := if decide (y = []) then [] else List.last ms1 []).
  destruct (HP part1) as (ks & ms & part' & ps' & E1 & E2 & E3 & E4 & E5 & E6).
  { intros ->. subst part1. now destruct (decide (@nil Z = [])). }
  set (ds := if decide (y = []) then ms1 else removelast ms1).
  assert (A : abs_recv (part, fragment_continuation p) k = Some (ds, (part1, f))).
  { unfold abs_recv, k. cbn [pk_continuation pk_fragmented pk_pieces fst snd]. rewrite Z.eqb_refl. fold ms1.
    subst ds part1. destruct (decide (y = [])); [now rewrite Hf|]. now rewrite (proj2 (Z.eqb_neq _ _) Hf). }
  exists (k :: ks), (ds ++ ms), part', ps'. split_and!; [| | | |done|done].
  - rewrite E1, Ho, <- app_assoc. reflexivity.
  - now constructor.
  - cbn [abs_recv_all]. rewrite A. cbn [mbind option_bind]. rewrite <- Hc, E3. done.
  - rewrite <- app_assoc, E4, (add_msg_bytes_some part ps (x ++ y)) by done. subst ds part1. destruct (decide (y = [])) as [->|Hy].
    + cbn. now rewrite !app_nil_r.
    + rewrite add_msg_bytes_some by done. rewrite attach_snoc. reflexivity.
Qed.

Lemma pg_mcast_loop_spec fuel g iovs base res p ps c part res' p' :
  staging ps c p -> (forall v, v ∈ iovs -> v <> []) -> 0 <= base ->
  match iovs with [] => base = 0 | v :: _ => base < cnt v end ->
  (ps = [] -> c ++ drop (Z.to_nat base) (concat iovs) = [] -> part = [] /\ fragment_continuation p = 0) ->
  mcast_loop fuel g res iovs base (TOTEMPG_PACKET_SIZE p - 2 * (cnt ps + 1)) p = Some (res', p') -> res' <> -1 ->
  passes g part ps (c ++ drop (Z.to_nat base) (concat iovs)) p p'.
Proof.
  revert iovs base res p ps c part. induction fuel as [|fuel IH]; intros iovs base res p ps c part G Hv Hb Hbase H0 H Hres'.
  all: destruct iovs as [|v iovs]; cbn [mcast_loop] in H;
    [subst base; revert H; intros [= _ <-]; cbn [concat] in *; rewrite drop_nil, app_nil_r in *; now apply passes_end|].
  { done. }
  pose proof (staging_max _ _ _ G) as Hmax. pose proof (sg_size _ _ _ G) as Hs. pose proof (sg_room _ _ _ G) as Hr.
  assert (Hv' : forall w, w ∈ iovs -> w <> []) by (intros w Hw; apply Hv; now right).
  set (rest := drop (Z.to_nat base) v) in *.
  assert (Lr : cnt rest = cnt v - base) by (subst rest; rewrite length_drop; lia).
  assert (Er : drop (Z.to_nat base) (concat (v :: iovs)) = rest ++ concat iovs)
    by (cbn [concat]; subst rest; rewrite drop_app_le by lia; done).
  rewrite Er in *. clear Er.
  unfold u64 in H. rewrite (Z.mod_small (TOTEMPG_PACKET_SIZE p - 2 * (cnt ps + 1) - 2)) in H by lia.
  destruct (Z.ltb_spec (cnt v + fragment_size p) (TOTEMPG_PACKET_SIZE p - 2 * (cnt ps + 1) - 2)) as [Hfit|Hfit].
  - destruct (stage_copy ps c p rest (cnt v - base) G) as (lens & data & E & G1); [rewrite app_assoc, length_app; lia|lia|].
    rewrite E in H. cbn [mbind option_bind] in H.
    match type of H with mcast_loop _ _ _ _ _ _ ?x = _ => set (p1 := x) in * end.
    apply (IH iovs 0 res p1 ps (c ++ rest) part) in H; [|done|done|lia| | |done].
    + cbn [Z.to_nat] in H. rewrite drop_0, <- app_assoc in H. exact H.
    + destruct iovs as [|w iovs]; [done|]. assert (w <> []) by (apply Hv'; now left). destruct w; [done|cbn; lia].
    + intros _ Hn. destruct rest; [cbn in Lr; lia|]. now destruct c.
  - set (copy_len := Z.min (cnt v - base) (TOTEMPG_PACKET_SIZE p - 2 * (cnt ps + 1) - fragment_size p)) in *.
    assert (Hcl : 1 <= copy_len <= cnt rest /\ copy_len <= TOTEMPG_PACKET_SIZE p - 2 * (cnt ps + 1) - fragment_size p) by lia.
    rewrite (proj2 (Z.ltb_ge _ _)) in H by lia. cbn zeta in H.
    set (chunk := take (Z.to_nat copy_len) rest) in *.
    assert (Lc : cnt chunk = copy_len) by (subst chunk; rewrite length_take; lia).
    assert (Ech : rest = chunk ++ drop (Z.to_nat copy_len) rest) by (subst chunk; now rewrite take_drop).
    assert (Hne : c ++ chunk <> []) by (destruct chunk; [cbn in Lc; lia|now destruct c]).
    assert (Ecc : concat (ps ++ [c ++ chunk]) = concat ps ++ c ++ chunk) by (rewrite concat_app; cbn; now rewrite app_nil_r).
    assert (Hcc : cnt (concat ps ++ c ++ chunk) = fragment_size p + copy_len) by (rewrite Hs, !length_app; lia).
    destruct (stage_spec ps c p chunk G) as (lens & data & E & El & Ed); [lia|].
    rewrite E in H. cbn [mbind option_bind] in H.
    match type of H with context [mcast_packet g ?m _ ?x] => set (more := m) in H; set (p1 := x) in H end.
    apply bind_Some in H as ([r p2] & H2 & H). change (fragment_size p1) with (fragment_size p) in H2.
    destruct (Z.eqb_spec r (-1)) as [->|Hr2]; [revert H; intros [= <- _]; done|].
    apply (mcast_packet_spec ps (c ++ chunk)) in H2;
      [|apply G|rewrite map_app; exact El|rewrite Ecc; lia|rewrite Ecc; exact Ed|apply G|apply G|apply G|done].
    destruct H2 as (f & Hf & Hcont & G2 & Hmtu & Hout).
    assert (Hpk : packet_ok KNET_MAX_PACKET_SIZE (mk_packet f (fragment_continuation p) (ps ++ [c ++ chunk]))).
    { apply (packet_ok_staged ps (c ++ chunk) f _ p); [apply G| |rewrite Ecc; lia].
      intros y [Hy|Hy%list_elem_of_singleton]%elem_of_app; [now apply (sg_pieces _ _ _ G)|congruence]. }
    set (complete := base + copy_len =? cnt v) in *.
    set (iovs2 := if complete then iovs else v :: iovs). set (base2 := if complete then 0 else base + copy_len).
    assert (H' : mcast_loop fuel g r iovs2 base2 (TOTEMPG_PACKET_SIZE p2 - 2 * (cnt (@nil (list Z)) + 1)) p2 = Some (res', p'))
      by (subst iovs2 base2; destruct complete; exact H).
    clear H. set (y := drop (Z.to_nat base2) (concat iovs2)).
    assert (Ey : rest ++ concat iovs = chunk ++ y).
    { subst y base2 iovs2 complete. destruct (Z.eqb_spec (base + copy_len) (cnt v)) as [Ee|Ee]; cbn [concat].
      - cbn [Z.to_nat]. rewrite drop_0. f_equal. subst chunk. rewrite take_ge by lia. done.
      - rewrite drop_app_le by lia. rewrite Ech, <- app_assoc. do 2 f_equal. subst rest. rewrite drop_drop. f_equal. lia. }
    rewrite Ey, app_assoc.
    assert (Hy : (if decide (y = []) then f = 0 else f <> 0)).
    { assert (Hm : y = [] <-> more = false).
      { subst y more base2 iovs2 complete. destruct (Z.eqb_spec (base + copy_len) (cnt v)) as [Ee|Ee]; cbn [negb orb].
        - cbn [Z.to_nat]. rewrite drop_0. destruct iovs as [|w iovs]; [done|].
          assert (w <> []) by (apply Hv'; now left). cbn. destruct w; done.
        - rewrite orb_true_r. split; [|done]. intros Hn%(f_equal length). cbn [concat] in Hn.
          rewrite length_drop, length_app in Hn. cbn in Hn. lia. }
      destruct (decide (y = [])) as [Hy|Hy].
      - apply Hm in Hy. now rewrite Hy in Hf.
      - destruct more; [done|tauto]. }
    eapply (passes_packet g part ps (c ++ chunk) y f p p2); [done|done|done|exact Hout|done|].
    intros part1 Hp1.
    change y with ([] ++ drop (Z.to_nat base2) (concat iovs2)).
    eapply (IH iovs2 base2 r p2 [] [] part1); [exact G2| | | | |exact H'|done].
    + subst iovs2. destruct complete; [done|exact Hv].
    + subst base2. destruct complete; lia.
    + subst iovs2 base2 complete. destruct (Z.eqb_spec (base + copy_len) (cnt v)) as [Ee|Ee]; [|lia].
      destruct iovs as [|w iovs]; [done|]. assert (w <> []) by (apply Hv'; now left). destruct w; [done|cbn; lia].
    + intros _ Hn. split; [now apply Hp1|]. rewrite Hcont. change ([] ++ drop (Z.to_nat base2) (concat iovs2)) with y in Hn.
      destruct (decide (y = [])); done.
Qed.

(** ** Calls *)

(** A receiver has [part] of the message whose rest is staged first. *)
Definition waits (part : list Z) (ps : list (list Z)) (p : totempg Srp) : Prop :=
  ps = [] -> part = [] /\ fragment_continuation p = 0.

Lemma concat_nonempty (l : list (list Z)) : concat (List.filter (fun v => negb (Nat.eqb (length v) 0)) l) = concat l.
Proof. induction l as [|v l IH]; cbn; [done|]. destruct v; cbn; [done|now rewrite IH]. Qed.

Lemma staged_staging ps p : staged ps p -> staging ps [] (set_packed_len 0 p).
Proof.
  intros [A B C D E F G H I]. unfold set_packed_len.
  assert (L : (length ps <= length (mcast_packed_msg_lens p))%nat) by (eapply take_full; [exact B|now rewrite length_map]).
  split; rewrite ?app_nil_r; try done. cbn [mcast_packed_msg_lens upd]. rewrite A, Nat2Z.id.
  replace (S (length ps)) with (length ps + length [u16 0])%nat by (cbn; lia).
  change (take (length ps + length [u16 0]) (write_at (length ps) [u16 0] (mcast_packed_msg_lens p)) = map len ps ++ [0]).
  now rewrite write_at_take, B.
Qed.

Lemma mcast_msg_spec iovec g part ps p res p' :
  staged ps p -> waits part ps p -> mcast_msg iovec g p = Some (res, p') -> res <> -1 ->
  passes g part ps (concat iovec) p p'.
Proof.
  intros G W. unfold mcast_msg. cbn zeta. intros (srp & _ & H)%bind_Some Hres.
  set (p1 := p <| pg_srp := srp |>) in H. assert (G1 : staged ps p1) by (destruct G; now split).
  destruct (negb _); [done|]. apply bind_Some in H as (ok & _ & H). destruct ok; cbn [negb] in H; [|now simplify_eq].
  apply staged_staging in G1.
  change (mcast_packed_msg_count p1) with (mcast_packed_msg_count p) in H. rewrite (st_count _ _ G) in H.
  change (TOTEMPG_PACKET_SIZE p1) with (TOTEMPG_PACKET_SIZE (set_packed_len 0 p1)) in H.
  eapply (pg_mcast_loop_spec _ _ _ _ _ _ ps [] part) in H; [|exact G1| |lia| | |done].
  - cbn [Z.to_nat app] in H. rewrite drop_0, concat_nonempty in H. exact H.
  - intros v Hv%list_elem_of_In. apply filter_In in Hv as [_ Hv]. now destruct v.
  - destruct (List.filter _ iovec) as [|v l] eqn:E; [done|].
    assert (Hv : In v (v :: l)) by now left. rewrite <- E in Hv. apply filter_In in Hv as [_ Hv]. destruct v; [done|cbn; lia].
  - intros -> _. now apply W.
Qed.

Lemma passes_waits g part ps x p p' : passes g part ps x p p' ->
  exists ks ms part' ps', pg_out p' = pg_out p ++ sends g ks /\ Forall (packet_ok KNET_MAX_PACKET_SIZE) ks
    /\ abs_recv_all (part, fragment_continuation p) ks = Some (ms, (part', fragment_continuation p'))
    /\ ms ++ attach part' ps' = add_msg_bytes part ps x /\ staged ps' p' /\ waits part' ps' p'.
Proof. done. Qed.

Context {laws : SrpLaws Srp}.

Lemma token_callback_spec part ps p p' :
  staged ps p -> waits part ps p -> srp_good (pg_srp p) -> callback_token_received_fn p = Some p' ->
  passes 0 part ps [] p p' /\ srp_good (pg_srp p').
Proof.
  intros G W Hg. unfold callback_token_received_fn. cbn zeta.
  assert (Hid : passes 0 part ps [] p p).
  { exists [], [], part, ps. unfold sends. cbn. rewrite app_nil_r. split_and!; done. }
  destruct (Z.eqb_spec (mcast_packed_msg_count p) 0) as [Ez|Ez]; [now intros [= <-]|].
  destruct (srp_avail_good _ Hg) as (n & Ea & Hn). rewrite Ea. cbn [mbind option_bind].
  destruct (Z.eqb_spec n 0) as [->|Hz]; [now intros [= <-]|].
  match goal with |- context [srp_mcast ?m 0 _] => set (pkt := m) end.
  destruct (srp_mcast_good pkt 0 (pg_srp p) n Hg Ea ltac:(lia)) as (s' & E & Hg' & _). rewrite E. cbn [mbind option_bind Z.eqb].
  intros [= <-]. split; [|exact Hg'].
  rewrite (st_count _ _ G) in Ez. assert (Hp : ps <> []) by now destruct ps.
  assert (Epk : pkt = packet_enc (mk_packet 0 (fragment_continuation p) ps)).
  { unfold packet_enc. cbn [pk_fragmented pk_continuation pk_pieces]. subst pkt.
    rewrite (st_count _ _ G), Nat2Z.id, (st_lens _ _ G), (st_size _ _ G), Nat2Z.id, (st_data _ _ G). done. }
  destruct (exists_last Hp) as (ps0 & x & Ex).
  exists [mk_packet 0 (fragment_continuation p) ps], (attach part ps), [], [].
  unfold sends. cbn [map]. split_and!.
  - rewrite <- Epk. reflexivity.
  - constructor; [|done]. rewrite Ex. destruct G as [A B C D F R M N K]. rewrite Ex in *.
    apply (packet_ok_staged ps0 x 0 _ p); [done|done|]. rewrite (length_app ps0 [x]) in R. cbn [length] in R. lia.
  - cbn [abs_recv_all]. unfold abs_recv. cbn [pk_continuation pk_fragmented pk_pieces fst snd].
    rewrite !Z.eqb_refl. cbn [mbind option_bind]. now rewrite app_nil_r.
  - cbn. now rewrite app_nil_r.
  - destruct G as [A B C D F R M N K]. split; cbn [length concat map]; try done.
    + intros y Hy%elem_of_nil. done.
    + destruct M as ((M1 & _) & _). change (TOTEMPG_PACKET_SIZE _) with (TOTEMPG_PACKET_SIZE p). cbn -[Z.mul]. lia.
  - done.
Qed.

(** ** No failures *)

(** With room in the queue of the ring protocol a packet is accepted. *)
Lemma mcast_packet_good g more size p n :
  srp_good (pg_srp p) -> srp_avail (pg_srp p) = Some n ->
  if 0 <? n then exists p', mcast_packet g more size p = Some (0, p') /\ srp_good (pg_srp p')
                            /\ srp_avail (pg_srp p') = Some (n - 1)
  else mcast_packet g more size p = None.
Proof.
  intros Hg Ha. unfold mcast_packet. cbn zeta.
  match goal with |- context [srp_mcast ?m g _] => set (pkt := m) end. cbn [pg_srp upd].
  match goal with |- context [srp_avail ?x] => change x with (pg_srp p) end. rewrite Ha. cbn [mbind option_bind].
  destruct (Z.ltb_spec 0 n) as [Hn|Hn]; cbn [negb]; [|done].
  match goal with |- context [srp_mcast pkt g ?x] => change x with (pg_srp p) end.
  destruct (srp_mcast_good pkt g (pg_srp p) n Hg Ha Hn) as (s' & -> & Hg' & Ha'). cbn [mbind option_bind].
  eexists. split; [reflexivity|]. done.
Qed.

Lemma stage_srp src (p p' : totempg Srp) : stage src p = Some p' -> pg_srp p' = pg_srp p.
Proof. unfold stage. destruct (_ <? _); [done|]. now intros [= <-]. Qed.

Lemma mcast_loop_good fuel g iovs base res max p res' p' :
  srp_good (pg_srp p) -> res = 0 -> mcast_loop fuel g res iovs base max p = Some (res', p') ->
  res' = 0 /\ srp_good (pg_srp p').
Proof.
  revert iovs base res max p. induction fuel as [|fuel IH]; intros iovs base res max p Hg ->.
  all: destruct iovs as [|v iovs]; cbn [mcast_loop]; [intros [= <- <-]; now destruct (c_true _)|].
  - done.
  - destruct (_ <? u64 _).
    + intros (p1 & E%stage_srp & H)%bind_Some. eapply IH; [|done|exact H]. cbn. now rewrite E.
    + destruct (_ <? 0); [done|]. intros (p1 & E%stage_srp & ([r p2] & H2 & H)%bind_Some)%bind_Some.
      rewrite <- E in Hg. destruct (srp_avail_good _ Hg) as (n & Ha & _).
      match type of H2 with mcast_packet _ ?m ?z _ = _ => pose proof (mcast_packet_good g m z p1 n Hg Ha) as K end.
      destruct (0 <? n); [|congruence]. destruct K as (p3 & E3 & Hg3 & _). rewrite E3 in H2. revert H2. intros [= <- <-].
      cbn [Z.eqb] in H. destruct (_ =? _); eapply IH; eauto.
Qed.

Lemma mcast_msg_good iovec g p res p' :
  srp_good (pg_srp p) -> mcast_msg iovec g p = Some (res, p') ->
  srp_good (pg_srp p') /\ (res = 0 \/ res = -1 /\ p' = set_packed_len 0 (p <| pg_srp := pg_srp p' |>)).
Proof.
  intros Hg. unfold mcast_msg. cbn zeta. destruct (srp_signal_good _ Hg) as (s1 & -> & Hg1 & _). cbn [mbind option_bind].
  destruct (negb _); [done|]. intros (ok & _ & H)%bind_Some. destruct ok; cbn [negb] in H.
  - apply mcast_loop_good in H; [|exact Hg1|done]. destruct H as [-> H]. auto.
  - revert H. intros [= <- <-]. split; [exact Hg1|right]. done.
Qed.

(** A call that is refused changes nothing. *)
Lemma staged_refused ps p s : staged ps p -> staged ps (set_packed_len 0 (p <| pg_srp := s |>)).
Proof.
  intros G. assert (G1 : staged ps (p <| pg_srp := s |>)) by (destruct G; now split).
  apply staged_staging in G1. now apply staging_staged.
Qed.

(** The places in the queue that a message takes at most. *)
Definition slots_needed (iovs : list (list Z)) (bytes : Z) (ps : list (list Z)) (p : totempg Srp) : Z :=
  cnt iovs + bytes / (TOTEMPG_PACKET_SIZE p - 2) + (if decide (ps = []) then 0 else 1).

(** With enough room the loop ends, whatever is staged. *)
Lemma mcast_loop_total fuel g iovs base res p ps c n :
  staging ps c p -> (forall v, v ∈ iovs -> v <> []) -> 0 <= base ->
  match iovs with [] => base = 0 | v :: _ => base < cnt v end ->
  srp_good (pg_srp p) -> srp_avail (pg_srp p) = Some n -> res = 0 ->
  let rem := cnt (concat iovs) - base in
  rem <= Z.of_nat fuel -> slots_needed iovs (fragment_size p + rem) ps p <= n ->
  exists p', mcast_loop fuel g res iovs base (TOTEMPG_PACKET_SIZE p - 2 * (cnt ps + 1)) p = Some (0, p').
Proof.
  revert iovs base res p ps c n. induction fuel as [|fuel IH]; intros iovs base res p ps c n G Hv Hb Hbase Hg Ha -> rem Hfuel Hn.
  all: destruct iovs as [|v iovs]; cbn [mcast_loop]; [eexists; reflexivity|].
  { subst rem. cbn [concat] in Hfuel. rewrite length_app in Hfuel. lia. }
  pose proof (staging_max _ _ _ G) as Hmax. pose proof (sg_size _ _ _ G) as Hs. pose proof (sg_room _ _ _ G) as Hr.
  pose proof (sg_mtu _ _ _ G) as (M1 & _).
  assert (Hv' : forall w, w ∈ iovs -> w <> []) by (intros w Hw; apply Hv; now right).
  assert (Hb0 : match iovs with [] => 0 = 0 | w :: _ => 0 < cnt w end).
  { destruct iovs as [|w iovs]; [done|]. assert (w <> []) by (apply Hv'; now left). destruct w; [done|cbn; lia]. }
  set (rest := drop (Z.to_nat base) v) in *.
  assert (Lr : cnt rest = cnt v - base) by (subst rest; rewrite length_drop; lia).
  assert (Hrem : rem = cnt rest + cnt (concat iovs)) by (subst rem; cbn [concat]; rewrite length_app; lia).
  clearbody rem. subst rem.
  unfold slots_needed in Hn. cbn [length] in Hn.
  unfold u64. rewrite (Z.mod_small (TOTEMPG_PACKET_SIZE p - 2 * (cnt ps + 1) - 2)) by lia.
  destruct (Z.ltb_spec (cnt v + fragment_size p) (TOTEMPG_PACKET_SIZE p - 2 * (cnt ps + 1) - 2)) as [Hfit|Hfit].
  - destruct (stage_copy ps c p rest (cnt v - base) G) as (lens & data & E & G1); [rewrite app_assoc, length_app; lia|lia|].
    rewrite E. cbn [mbind option_bind].
    match goal with |- exists p', mcast_loop _ _ _ _ _ _ ?x = _ => set (p1 := x) in * end.
    apply (IH iovs 0 0 p1 ps (c ++ rest) n); [done|done|lia|done|done|done|done|lia|].
    unfold slots_needed. change (TOTEMPG_PACKET_SIZE p1) with (TOTEMPG_PACKET_SIZE p).
    change (fragment_size p1) with (cnt v - base + fragment_size p).
    replace (cnt v - base + fragment_size p + (cnt (concat iovs) - 0)) with (fragment_size p + (cnt rest + cnt (concat iovs))) by lia. lia.
  - set (copy_len := Z.min (cnt v - base) (TOTEMPG_PACKET_SIZE p - 2 * (cnt ps + 1) - fragment_size p)) in *.
    assert (Hcl : 1 <= copy_len <= cnt rest /\ copy_len <= TOTEMPG_PACKET_SIZE p - 2 * (cnt ps + 1) - fragment_size p
      /\ (copy_len < cnt rest -> copy_len = TOTEMPG_PACKET_SIZE p - 2 * (cnt ps + 1) - fragment_size p)) by lia.
    rewrite (proj2 (Z.ltb_ge _ _)) by lia. cbn zeta.
    set (chunk := take (Z.to_nat copy_len) rest) in *.
    assert (Lc : cnt chunk = copy_len) by (subst chunk; rewrite length_take; lia). clearbody chunk copy_len.
    assert (Ecc : concat (ps ++ [c ++ chunk]) = concat ps ++ c ++ chunk) by (rewrite concat_app; cbn; now rewrite app_nil_r).
    assert (Hcc : cnt (concat ps ++ c ++ chunk) = fragment_size p + copy_len) by (rewrite Hs, !length_app; lia).
    destruct (stage_spec ps c p chunk G) as (lens & data & E & El & Ed); [lia|].
    rewrite E. cbn [mbind option_bind].
    match goal with |- context [mcast_packet g ?m _ ?x] => set (more := m); set (p1 := x) end.
    change (fragment_size p1) with (fragment_size p).
    pose proof (mcast_packet_good g more (fragment_size p + copy_len) p1 n Hg Ha) as K.
    assert (Hq : 0 <= (fragment_size p + (cnt rest + cnt (concat iovs))) / (TOTEMPG_PACKET_SIZE p - 2)) by (apply Z.div_pos; lia).
    rewrite (proj2 (Z.ltb_lt 0 n)) in K by (destruct (decide (ps = [])); lia). destruct K as (p2 & E2 & Hg2 & Ha2).
    rewrite E2. cbn [mbind option_bind Z.eqb].
    apply (mcast_packet_spec ps (c ++ chunk)) in E2;
      [|apply G|rewrite map_app; exact El|rewrite Ecc; lia|rewrite Ecc; exact Ed|apply G|apply G|apply G|done].
    destruct E2 as (f & _ & _ & G2 & Hmtu & _). pose proof (sg_size _ _ _ G2) as Hs2. cbn in Hs2.
    assert (HP : TOTEMPG_PACKET_SIZE p2 = TOTEMPG_PACKET_SIZE p) by (unfold TOTEMPG_PACKET_SIZE; now rewrite Hmtu).
    set (d := TOTEMPG_PACKET_SIZE p - 2) in *.
    assert (Hi : forall iovs2 base2, (forall w, w ∈ iovs2 -> w <> []) -> 0 <= base2 ->
      match iovs2 with [] => base2 = 0 | w :: _ => base2 < cnt w end ->
      cnt (concat iovs2) - base2 <= Z.of_nat fuel ->
      cnt iovs2 + (cnt (concat iovs2) - base2) / d <= n - 1 ->
      exists p', mcast_loop fuel g 0 iovs2 base2 (TOTEMPG_PACKET_SIZE p2 - 2) p2 = Some (0, p')).
    { intros iovs2 base2 B1 B2 B3 B4 B5. apply (IH iovs2 base2 0 p2 [] [] (n - 1)); try done.
      unfold slots_needed. rewrite Hs2, HP, Z.add_0_l. fold d. destruct (decide (@nil (list Z) = [])); [lia|done]. }
    destruct (Z.eqb_spec (base + copy_len) (cnt v)) as [Ee|Ee]; apply Hi; try done; try lia.
    + assert (Hle : (cnt (concat iovs) - 0) / d <= (fragment_size p + (cnt rest + cnt (concat iovs))) / d)
        by (apply Z.div_le_mono; lia). destruct (decide (ps = [])); lia.
    + cbn [concat]. rewrite length_app. lia.
    + cbn [length concat]. rewrite length_app.
      assert (Ecl : copy_len = TOTEMPG_PACKET_SIZE p - 2 * (cnt ps + 1) - fragment_size p) by (apply Hcl; lia).
      set (b := fragment_size p + (cnt rest + cnt (concat iovs))) in *.
      destruct (decide (ps = [])) as [->|Hp].
      * assert (Hd : (b - d) / d = b / d - 1) by (replace (b - d) with (b + (-1) * d) by lia; rewrite Z.div_add by lia; lia).
        replace (Z.of_nat (length v + length (concat iovs)) - (base + copy_len)) with (b - d) by (cbn in Ecl; lia). lia.
      * assert (Hle : (Z.of_nat (length v + length (concat iovs)) - (base + copy_len)) / d <= b / d) by (apply Z.div_le_mono; lia). lia.
Qed.

End Sender.
