(* ===== verification/TotemPgProps.v ===== *)
(** * Totem process groups: theorems

    The ring protocol as the layer below, the round trip of messages through
    packing, fragmentation and assembly, its termination, and behaviours on
    full queues and lost packets. *)
From S2P Require Import Prelude VoteQuorum Endian SortQueue CsQueue TotemMemb TotemSrp TotemSrpOps TotemSrpHandlers TotemPg TotemPgTheory TotemPgSend.

(** ** The ring protocol below *)

#[export] Instance totemsrp_api : SrpApi srp := {
  srp_avail := totemsrp_avail;
  srp_mcast := totemsrp_mcast true;
  srp_event_signal := totemsrp_event_signal
}.

(** The instance has its node id and never fills its last place. *)
Definition totemsrp_good (s : srp) : Prop :=
  my_id s <> 0 /\ exists l, cs_repr (queue_use s) l /\ Z.of_nat (length l) <= cq_size (queue_use s) - 2.

Lemma totemsrp_avail_good s : totemsrp_good s -> exists n, totemsrp_avail s = Some n /\ 0 <= n.
Proof.
  intros (_ & l & R & Hl). unfold totemsrp_avail, cs_queue_avail.
  pose proof (cq_wf_size _ _ R). rewrite (cq_wf_used _ _ R), s32_small by lia.
  rewrite (proj2 (Z.leb_le _ _)) by lia. eexists. split; [reflexivity|lia].
Qed.

Lemma totemsrp_signal_good s : totemsrp_good s ->
  exists s', totemsrp_event_signal s = Some s' /\ totemsrp_good s' /\ totemsrp_avail s' = totemsrp_avail s.
Proof.
  intros [Hi Hq]. unfold totemsrp_event_signal, token_hold_cancel_send, assert_nodeid.
  destruct (negb (my_token_held s)); [exists s; done|].
  unfold c_true. rewrite (proj2 (Z.eqb_neq _ _) Hi). cbn [negb mbind option_bind].
  eexists. split; [reflexivity|]. split; [split; [exact Hi|exact Hq]|done].
Qed.

Lemma queue_set_use q s : queue_use (set_queue_use q s) = q.
Proof. unfold queue_use, set_queue_use. destruct (waiting_trans_ack s) eqn:E; cbn; now rewrite E. Qed.

Lemma totemsrp_mcast_good m g s n : totemsrp_good s -> totemsrp_avail s = Some n -> 0 < n ->
  exists s', totemsrp_mcast true m g s = Some (0, s') /\ totemsrp_good s' /\ totemsrp_avail s' = Some (n - 1).
Proof.
  intros (Hi & l & R & Hl) Ha Hn. pose proof (cq_wf_size _ _ R).
  unfold totemsrp_avail, cs_queue_avail in Ha. rewrite (cq_wf_used _ _ R), s32_small in Ha by lia.
  destruct (0 <=? _); [|done]. revert Ha. intros [= <-].
  unfold totemsrp_mcast, cs_queue_is_full, assert_nodeid, c_true.
  rewrite (cq_wf_used _ _ R), (proj2 (Z.eqb_neq _ _)), (proj2 (Z.eqb_neq _ _) Hi) by lia. cbn [negb mbind option_bind].
  match goal with |- context [cs_queue_item_add ?x _] => destruct (cs_queue_item_add_repr x _ _ R) as (q & -> & R' & S'); [lia|] end.
  cbn [mbind option_bind]. eexists. split; [reflexivity|]. unfold totemsrp_good, totemsrp_avail, cs_queue_avail.
  rewrite queue_set_use. split.
  - split; [unfold set_queue_use; now destruct (waiting_trans_ack s)|]. eexists. split; [exact R'|]. rewrite length_app. cbn. lia.
  - rewrite (cq_wf_used _ _ R'), S', length_app, s32_small by (cbn; lia). cbn [length].
    rewrite (proj2 (Z.leb_le _ _)) by lia. f_equal. lia.
Qed.

#[export] Instance totemsrp_laws : SrpLaws srp := {
  srp_good := totemsrp_good;
  srp_avail_good := totemsrp_avail_good;
  srp_signal_good := totemsrp_signal_good;
  srp_mcast_good := totemsrp_mcast_good
}.

(** ** Runs of a sender *)
Section Roundtrip.
Context {Srp : Type} {api : SrpApi Srp} {laws : SrpLaws Srp} (KNET_MAX_PACKET_SIZE : Z).

(** A user multicasts to groups, a token arrives, or the ring protocol moves on
    by itself. *)
Inductive pg_op :=
| OpMcast (guarantee : Z) (groups iovec : list (list Z))
| OpToken
| OpSrp (s : Srp).

(** The state and the messages that were accepted, with their groups. *)
Definition pg_step (op : pg_op) (st : totempg Srp * list (list (list Z) * list Z))
    : option (totempg Srp * list (list (list Z) * list Z)) :=
  let '(p, accepted) := st in
  match op with
  | OpMcast g groups iovec =>
      '(res, p) ← totempg_groups_mcast_groups g groups iovec p;
      Some (p, if res =? 0 then accepted ++ [(groups, concat iovec)] else accepted)
  | OpToken => p ← callback_token_received_fn p; Some (p, accepted)
  | OpSrp s => Some (p <| pg_srp := s |>, accepted)
  end.

Fixpoint pg_run (ops : list pg_op) (st : totempg Srp * list (list (list Z) * list Z))
    : option (totempg Srp * list (list (list Z) * list Z)) :=
  match ops with [] => Some st | op :: ops' => st ← pg_step op st; pg_run ops' st end.

(** The packets handed to the ring protocol. *)
Definition packets (p : totempg Srp) : list (list Z) :=
  omap (fun e => match e with PgMcast m _ => Some m | _ => None end) (pg_out p).

(** Group names have 16-bit lengths, messages are below the limit. *)
Definition op_ok (op : pg_op) : Prop :=
  match op with
  | OpMcast _ groups iovec =>
      (forall g, g ∈ groups -> cnt g < 2 ^ 16)
      /\ cnt (group_header groups ++ concat iovec) < MESSAGE_SIZE_MAX
  | OpToken => True
  | OpSrp s => srp_good s
  end.

Definition raw (m : list (list Z) * list Z) : list Z := group_header (fst m) ++ snd m.

Lemma packets_sends (p p' : totempg Srp) g ks :
  pg_out p' = pg_out p ++ sends g ks -> packets p' = packets p ++ map packet_enc ks.
Proof.
  unfold packets. intros ->. rewrite omap_app. f_equal. unfold sends. induction ks as [|k ks IH]; [done|]. cbn. f_equal. exact IH.
Qed.

(** What has gone out and what is staged are the accepted messages. *)
Record pg_inv (p : totempg Srp) (accepted : list (list (list Z) * list Z)) : Prop := {
  pv_good : srp_good (pg_srp p);
  pv_accepted : forall m, m ∈ accepted ->
    cnt (fst m) < 2 ^ 16 /\ (forall g, g ∈ fst m -> cnt g < 2 ^ 16) /\ cnt (raw m) < MESSAGE_SIZE_MAX;
  pv_packets : exists ks ms part ps, packets p = map packet_enc ks /\ Forall (packet_ok KNET_MAX_PACKET_SIZE) ks
    /\ abs_recv_all ([], 0) ks = Some (ms, (part, fragment_continuation p))
    /\ ms ++ attach part ps = map raw accepted /\ staged KNET_MAX_PACKET_SIZE ps p /\ waits part ps p
}.

Lemma abs_recv_all_app st ks1 ks2 ms1 st1 ms2 st2 :
  abs_recv_all st ks1 = Some (ms1, st1) -> abs_recv_all st1 ks2 = Some (ms2, st2) ->
  abs_recv_all st (ks1 ++ ks2) = Some (ms1 ++ ms2, st2).
Proof.
  revert st ms1. induction ks1 as [|k ks1 IH]; intros st ms1; cbn [abs_recv_all app].
  - now intros [= <- <-].
  - intros ([m s] & -> & ([m' s'] & H & [= <- <-])%bind_Some)%bind_Some H2. cbn [mbind option_bind].
    rewrite (IH _ _ H H2). cbn [mbind option_bind]. now rewrite app_assoc.
Qed.

(** A step that [passes] messages on keeps the invariant. *)
Lemma pg_inv_passes p p' acc acc' g x :
  pg_inv p acc -> srp_good (pg_srp p') ->
  (forall part ps, staged KNET_MAX_PACKET_SIZE ps p -> waits part ps p ->
     passes KNET_MAX_PACKET_SIZE g part ps x p p') ->
  (forall m, m ∈ acc' -> m ∈ acc \/ cnt (fst m) < 2 ^ 16 /\ (forall g, g ∈ fst m -> cnt g < 2 ^ 16) /\ cnt (raw m) < MESSAGE_SIZE_MAX) ->
  map raw acc' = map raw acc ++ match x with [] => [] | _ => [x] end ->
  pg_inv p' acc'.
Proof.
  intros [V1 V2 (ks & ms & part & ps & E1 & E2 & E3 & E4 & E5 & E6)] Hg HP Hm Hx.
  destruct (HP part ps E5 E6) as (ks' & ms' & part' & ps' & F1 & F2 & F3 & F4 & F5 & F6).
  split; [done|intros m Hin; destruct (Hm m Hin); auto|].
  exists (ks ++ ks'), (ms ++ ms'), part', ps'. split_and!.
  - rewrite (packets_sends _ _ _ _ F1), E1, map_app. done.
  - now apply Forall_app.
  - eapply abs_recv_all_app; eauto.
  - rewrite <- app_assoc, F4, Hx, <- E4, <- app_assoc. f_equal.
    destruct x as [|b x]; cbn [add_msg_bytes]; [now rewrite app_nil_r|].
    destruct ps as [|q ps]; [|reflexivity]. destruct (E6 eq_refl) as [-> _]. reflexivity.
  - done.
  - done.
Qed.

Lemma pg_inv_step op p acc p' acc' :
  op_ok op -> pg_inv p acc -> pg_step op (p, acc) = Some (p', acc') -> pg_inv p' acc'.
Proof.
  intros Ho V. destruct op as [g groups iovec| |s]; cbn [pg_step].
  - intros ([res p1] & H & [= <- <-])%bind_Some. unfold totempg_groups_mcast_groups in H.
    apply bind_Some in H as (iov & Hi & H).
    assert (Hiov : concat iov = group_header groups ++ concat iovec /\ cnt groups < 2 ^ 16).
    { revert Hi. unfold group_iovec, MAX_GROUPS_PER_MSG. destruct (Nat.ltb_spec 32 (length groups)); [done|].
      cbn [orb]. destruct (Nat.ltb _ _); [done|]. intros [= <-]. split; [|lia]. cbn [concat]. rewrite concat_app.
      unfold group_header. now rewrite <- app_assoc. }
    destruct Hiov as [Ei Hcg]. pose proof (mcast_msg_good _ _ _ _ _ (pv_good _ _ V) H) as [Hg Hr].
    destruct Hr as [-> |[-> Ep] ]; cbn [Z.eqb].
    + eapply (pg_inv_passes p p1 acc _ g (group_header groups ++ concat iovec)); [done|done| | |].
      * intros part ps S W. rewrite <- Ei. eapply mcast_msg_spec; eauto.
      * intros m [Hm|Hm%list_elem_of_singleton]%elem_of_app; [now left|right]. subst m. cbn [fst]. destruct Ho. done.
      * rewrite map_app. reflexivity.
    + eapply (pg_inv_passes p p1 acc acc g []); [done|done| |now left|now rewrite app_nil_r].
      intros part ps S W. exists [], [], part, ps. rewrite Ep. unfold sends. cbn [map].
      split_and!; [cbn; now rewrite app_nil_r|done|done|done|now apply staged_refused|exact W].
  - intros (p1 & H & [= <- <-])%bind_Some.
    pose proof V as [V1 _ (ks & ms & part & ps & _ & _ & _ & _ & S & W)].
    pose proof (token_callback_spec KNET_MAX_PACKET_SIZE _ _ _ _ S W V1 H) as [_ Hg].
    eapply (pg_inv_passes p p1 acc acc 0 []); [done|done| |now left|now rewrite app_nil_r].
    intros part' ps' S' W'. now apply (token_callback_spec KNET_MAX_PACKET_SIZE part' ps' p p1).
  - intros [= <- <-]. eapply (pg_inv_passes p _ acc acc 0 []); [done|exact Ho| |now left|now rewrite app_nil_r].
    intros part ps S W. exists [], [], part, ps. unfold sends. cbn [map].
    split_and!; [cbn; now rewrite app_nil_r|done|done|done|destruct S; now split|exact W].
Qed.

Lemma pg_inv_run ops p acc p' acc' :
  Forall op_ok ops -> pg_inv p acc -> pg_run ops (p, acc) = Some (p', acc') -> pg_inv p' acc'.
Proof.
  revert p acc. induction ops as [|op ops IH]; intros p acc Ho V; cbn [pg_run]; [now intros [= <- <-]|].
  apply Forall_cons in Ho as [Ho Hos]. intros ([p1 acc1] & H1 & H)%bind_Some. eapply IH; [done| |exact H].
  eapply pg_inv_step; eauto.
Qed.

(** A sender that has nothing staged and has not sent anything. *)
Record pg_idle (p : totempg Srp) : Prop := {
  pi_count : mcast_packed_msg_count p = 0;
  pi_size : fragment_size p = 0;
  pi_continuation : fragment_continuation p = 0;
  pi_next : 0 <= next_fragment p < 256;
  pi_mtu : mtu_ok KNET_MAX_PACKET_SIZE p;
  pi_out : packets p = [];
  pi_good : srp_good (pg_srp p)
}.

Lemma pg_inv_idle p : pg_idle p -> pg_inv p [].
Proof.
  intros [A B C D E F G]. split; [done|intros m Hm%elem_of_nil; done|].
  exists [], [], [], []. rewrite F. cbn. split_and!; [done|done|now rewrite C|done| |now intros _].
  split; cbn; try done; try lia; [intros x Hx%elem_of_nil; done|]. destruct E as ((E & _) & _). lia.
Qed.

(** C2: Round trip: whatever messages a sender packs into packets and cuts into
    fragments, a receiver that gets the packets in order assembles them again:
    to its users go the accepted messages, each once, complete, in order and to
    exactly the groups it is addressed to; what is missing is still staged, and
    nothing is missing when nothing is staged. *)
Theorem totempg_roundtrip nodeid ops p0 p accepted (q0 : totempg Srp) :
  pg_idle p0 -> Forall op_ok ops -> pg_run ops (p0, []) = Some (p, accepted) ->
  recv_ok nodeid [] 0 q0 ->
  exists q n, deliver_all KNET_MAX_PACKET_SIZE nodeid (packets p) q0 = Some q
    /\ pg_out q = pg_out q0 ++ concat (map (fun m => message_effects nodeid false (fst m) (snd m) (totempg_groups_list q0))
                                        (take n accepted))
    /\ (mcast_packed_msg_count p = 0 -> take n accepted = accepted).
Proof.
  intros Hp Ho Hrun Hq. pose proof (pg_inv_run _ _ _ _ _ Ho (pg_inv_idle _ Hp) Hrun) as [_ V (ks & ms & part & ps & E1 & E2 & E3 & E4 & E5 & E6)].
  assert (Hms : ms = map raw (take (length ms) accepted)).
  { rewrite <- firstn_map, <- E4, take_app_length. done. }
  set (n := length ms) in *. set (sent := take n accepted) in *.
  assert (Hsub : forall m, m ∈ sent -> m ∈ accepted) by (intros m Hm; now apply elem_of_take in Hm as (i & ?%list_elem_of_lookup_2 & _)).
  destruct (deliver_all_spec KNET_MAX_PACKET_SIZE nodeid ks [] 0 ms part (fragment_continuation p)
    (map (fun m => message_effects nodeid false (fst m) (snd m) (totempg_groups_list q0)) sent) q0)
    as (q & D1 & _ & _ & D2); [done|done|done| | |].
  - intros m [Hm|Hm%list_elem_of_singleton]%elem_of_app.
    + rewrite Hms in Hm. apply list_elem_of_fmap in Hm as (x & -> & Hx). now apply V, Hsub.
    + subst m. destruct part as [|b part]; [unfold MESSAGE_SIZE_MAX; cbn; lia|].
      destruct ps as [|x ps]; [now destruct (E6 eq_refl)|]. cbn [attach] in E4.
      assert (Hx : (b :: part) ++ x ∈ map raw accepted) by (rewrite <- E4; apply elem_of_app; right; now left).
      apply list_elem_of_fmap in Hx as (y & Ey & Hy%V). destruct Hy as (_ & _ & Hy). rewrite <- Ey, length_app in Hy. lia.
  - rewrite Hms. clear -V Hsub. clearbody sent. induction sent as [|m sent IH]; [done|]. cbn [map]. constructor.
    + destruct (V m) as (V1 & V2 & _); [apply Hsub; now left|]. now apply group_accepts.
    + apply IH. intros x Hx. apply Hsub. now right.
  - exists q, n. rewrite E1. split_and!; [done|done|]. intros Hc.
    rewrite (st_count _ _ _ E5) in Hc. assert (ps = []) as -> by now destruct ps.
    destruct (E6 eq_refl) as [-> _]. cbn [attach] in E4. rewrite app_nil_r in E4.
    apply take_ge. rewrite <- (length_map raw), <- E4. done.
Qed.

(** Enough places in the queue let the whole message through. *)
Lemma mcast_msg_total iovec g ps p n :
  staged KNET_MAX_PACKET_SIZE ps p -> srp_good (pg_srp p) -> srp_avail (pg_srp p) = Some n ->
  cnt iovec < 64 ->
  byte_count_send_ok (cnt (concat iovec) + 2 * mcast_packed_msg_count p) p = Some true ->
  cnt iovec + (fragment_size p + cnt (concat iovec)) / (TOTEMPG_PACKET_SIZE p - 2) + 1 <= n ->
  exists p', mcast_msg iovec g p = Some (0, p').
Proof.
  intros G Hg Ha Hi Hb Hn. unfold mcast_msg. cbn zeta.
  destruct (srp_signal_good _ Hg) as (s1 & -> & Hg1 & Ha1). cbn [mbind option_bind].
  rewrite (proj2 (Z.ltb_lt _ _)) by done. cbn [negb].
  set (iov := List.filter _ iovec). set (p1 := p <| pg_srp := s1 |>).
  assert (Etot : sumZ (fun v : list Z => cnt v) iov = cnt (concat iovec)).
  { rewrite sum_len_concat. subst iov. now rewrite concat_nonempty. }
  rewrite Etot. change (mcast_packed_msg_count (set_packed_len 0 p1)) with (mcast_packed_msg_count p).
  assert (Hok : byte_count_send_ok (cnt (concat iovec) + 2 * mcast_packed_msg_count p) (set_packed_len 0 p1) = Some true).
  { unfold byte_count_send_ok in *. change (pg_srp (set_packed_len 0 p1)) with s1.
    change (pg_net_mtu (set_packed_len 0 p1)) with (pg_net_mtu p). now rewrite Ha1. }
  rewrite Hok. cbn [mbind option_bind negb].
  assert (G1 : staged KNET_MAX_PACKET_SIZE ps p1) by (destruct G; now split). apply staged_staging in G1.
  change (TOTEMPG_PACKET_SIZE p1) with (TOTEMPG_PACKET_SIZE (set_packed_len 0 p1)).
  change (mcast_packed_msg_count p1) with (mcast_packed_msg_count p). rewrite (st_count _ _ _ G).
  eapply (mcast_loop_total KNET_MAX_PACKET_SIZE _ g iov 0 0 _ ps [] n); [exact G1| |lia| |exact Hg1|change (srp_avail s1 = Some n); congruence|done| |].
  - intros v Hv%list_elem_of_In. apply filter_In in Hv as [_ Hv]. now destruct v.
  - destruct iov as [|v l] eqn:E; [done|]. subst iov.
    assert (Hv : In v (v :: l)) by now left. rewrite <- E in Hv. apply filter_In in Hv as [_ Hv]. destruct v; [done|cbn; lia].
  - subst iov. rewrite concat_nonempty. lia.
  - unfold slots_needed. subst iov. rewrite concat_nonempty.
    change (fragment_size (set_packed_len 0 p1)) with (fragment_size p).
    change (TOTEMPG_PACKET_SIZE (set_packed_len 0 p1)) with (TOTEMPG_PACKET_SIZE p).
    pose proof (List.filter_length_le (fun v : list Z => negb (Nat.eqb (length v) 0)) iovec).
    replace (fragment_size p + (cnt (concat iovec) - 0)) with (fragment_size p + cnt (concat iovec)) by lia.
    destruct (decide (ps = [])); lia.
Qed.

Lemma concat_attach part ps : concat (attach part ps) = part ++ concat ps.
Proof. destruct ps as [|x ps]; cbn; [destruct part; cbn; now rewrite ?app_nil_r|now rewrite app_assoc]. Qed.

(** A receiver neither loses nor adds bytes. *)
Lemma abs_recv_bytes ks part lf ms part' lf' :
  abs_recv_all (part, lf) ks = Some (ms, (part', lf')) ->
  concat ms ++ part' = part ++ concat (concat (map pk_pieces ks)).
Proof.
  revert part lf ms. induction ks as [|k ks IH]; intros part lf ms; cbn [abs_recv_all].
  - intros [= <- <- _]. cbn. now rewrite app_nil_r.
  - intros ([ms1 [part1 lf1] ] & H1 & ([ms2 [part2 lf2] ] & H2 & [= <- -> ->])%bind_Some)%bind_Some. apply IH in H2.
    rewrite concat_app, <- app_assoc, H2. cbn [map concat]. rewrite concat_app, !app_assoc. f_equal.
    revert H1. unfold abs_recv. cbn [fst snd]. destruct (_ =? lf); [|done].
    rewrite <- concat_attach. destruct (_ =? 0); intros [= <- <- _]; [now rewrite app_nil_r|].
    destruct (decide (attach part (pk_pieces k) = [])) as [E|E]; [now rewrite E|].
    rewrite (app_removelast_last [] E) at 3. rewrite concat_app. cbn. now rewrite app_nil_r.
Qed.

(** C16: Termination: a message that is not refused is packed and sent completely
    when the queue of the ring protocol has one place per vector, one per full
    packet and one for what is already staged.  The packets that go out and the
    buffer that stays behind hold exactly the bytes staged before and those of
    the message, none lost, added or moved; and a receiver that has the beginning
    of the first staged piece completes from the packets the staged messages and
    the new one, up to what the buffer still holds. *)
Theorem mcast_msg_terminates iovec g part ps p n :
  staged KNET_MAX_PACKET_SIZE ps p -> waits part ps p ->
  srp_good (pg_srp p) -> srp_avail (pg_srp p) = Some n ->
  cnt iovec < 64 ->
  byte_count_send_ok (cnt (concat iovec) + 2 * mcast_packed_msg_count p) p = Some true ->
  cnt iovec + (fragment_size p + cnt (concat iovec)) / (TOTEMPG_PACKET_SIZE p - 2) + 1 <= n ->
  exists p' ks ps' ms part',
    mcast_msg iovec g p = Some (0, p')
    /\ pg_out p' = pg_out p ++ sends g ks /\ staged KNET_MAX_PACKET_SIZE ps' p'
    /\ concat (concat (map pk_pieces ks)) ++ concat ps' = concat ps ++ concat iovec
    /\ abs_recv_all (part, fragment_continuation p) ks = Some (ms, (part', fragment_continuation p'))
    /\ ms ++ attach part' ps' = add_msg_bytes part ps (concat iovec).
Proof.
  intros G W Hg Ha Hi Hb Hn.
  assert (T : exists p', mcast_msg iovec g p = Some (0, p')) by (eapply mcast_msg_total; eauto).
  destruct T as (p' & T). destruct (mcast_msg_spec _ _ _ _ _ _ _ _ G W T ltac:(lia))
    as (ks & ms & part' & ps' & E1 & _ & E3 & E4 & E5 & _).
  exists p', ks, ps', ms, part'. split_and!; [done..| |done|done].
  apply (app_inv_head part). rewrite !app_assoc, <- (abs_recv_bytes _ _ _ _ _ _ E3), <- app_assoc, <- concat_attach, <- concat_app, E4.
  unfold add_msg_bytes. destruct (concat iovec) as [|b x]; [now rewrite concat_attach, app_nil_r|].
  rewrite !concat_attach, concat_app. cbn. now rewrite app_nil_r, app_assoc.
Qed.

End Roundtrip.

(** ** Examples on the ring protocol *)

(** An instance with [n] free places, and this layer on top of it. *)
Definition small_srp (n : Z) : srp :=
  zero_srp <| my_id := 1 |> <| new_message_queue := snd (cs_queue_init zero_msg true (n + 2)) |>.

Definition small_pg (mtu n : Z) (groups : list totempg_group_instance) : totempg srp :=
  mk_totempg mtu [] 0 1 (n * mtu) false [] [] [] groups [] (mtu + 100) 0 0 0 1 0 0 (small_srp n) [].

Lemma small_srp_good n : 0 <= n < 2 ^ 30 -> totemsrp_good (small_srp n) /\ totemsrp_avail (small_srp n) = Some n.
Proof.
  intros Hn. destruct (cs_queue_init_repr zero_msg (n + 2)) as (q & E & R & Sz); [lia|].
  assert (Eq : queue_use (small_srp n) = q) by (unfold small_srp; rewrite E; reflexivity).
  split.
  - split; [done|]. exists []. rewrite Eq. split; [exact R|cbn; lia].
  - unfold totemsrp_avail, cs_queue_avail. rewrite Eq, Sz, (cq_wf_used _ _ R), s32_small by (cbn; lia).
    rewrite (proj2 (Z.leb_le _ _)) by (cbn; lia). f_equal. cbn. lia.
Qed.

Lemma small_pg_idle mtu n groups :
  24 <= mtu < 65536 -> 0 <= n < 2 ^ 30 -> pg_idle 65536 (small_pg mtu n groups).
Proof.
  intros Hm Hn. split; try done.
  - unfold mtu_ok, TOTEMPG_PACKET_SIZE, sizeof_totempg_mcast. cbn. lia.
  - now apply small_srp_good.
Qed.

Lemma small_pg_staged mtu n groups :
  24 <= mtu < 65536 -> 0 <= n < 2 ^ 30 -> staged 65536 [] (small_pg mtu n groups).
Proof.
  intros Hm Hn. destruct (pg_inv_idle 65536 _ (small_pg_idle mtu n groups Hm Hn)) as [_ _ (ks & ms & part & ps & _ & _ & _ & _ & S & _)].
  pose proof (st_count _ _ _ S) as E. cbn in E. now destruct ps.
Qed.

(** Two groups; the second instance joined both. *)
Definition demo_groups : list totempg_group_instance :=
  [mk_group_instance 1 false [[97]] 1; mk_group_instance 2 false [[97]; [98; 98]] 1].

(** Messages to either group, one of them longer than a packet. *)
Definition demo_ops : list (@pg_op srp) :=
  [OpMcast 0 [[97]] [[1; 2; 3]]; OpMcast 0 [[98; 98]] [replicate 50 4; []; [5; 6]]; OpToken;
   OpMcast 0 [[97]; [98; 98]] [[7]]; OpToken].

Definition demo_sender : totempg srp := small_pg 40 20 [].
Definition demo_receiver : totempg srp := small_pg 40 20 demo_groups.
Definition demo_run : option (totempg srp * list (list (list Z) * list Z)) := pg_run demo_ops (demo_sender, []).

Lemma demo_ops_ok : Forall op_ok demo_ops.
Proof.
  repeat constructor; try (intros g Hg; repeat (apply elem_of_cons in Hg as [->|Hg]; [cbn; lia|]); now apply elem_of_nil in Hg);
    vm_compute; reflexivity.
Qed.

Lemma totempg_roundtrip_witness :
  exists p q accepted, demo_run = Some (p, accepted) /\ length accepted = 3%nat
    /\ deliver_all 65536 1 (packets p) demo_receiver = Some q /\ length (pg_out q) = 5%nat.
Proof.
  destruct demo_run as [[p accepted]|] eqn:E; [|vm_compute in E; discriminate]. unfold demo_run in E.
  assert (R : recv_ok 1 [] 0 demo_receiver) by (left; split_and!; reflexivity).
  destruct (totempg_roundtrip 65536 1 demo_ops demo_sender p accepted demo_receiver
    (small_pg_idle 40 20 [] ltac:(lia) ltac:(lia)) demo_ops_ok E R) as (q & n & D & O & F).
  assert (Hc : (fun r => (mcast_packed_msg_count (fst r), snd r)) <$> pg_run demo_ops (demo_sender, [])
    = Some (0, [([[97]], [1; 2; 3]); ([[98; 98]], replicate 50 4 ++ [5; 6]); ([[97]; [98; 98]], [7])]))
    by (vm_compute; reflexivity).
  rewrite E in Hc. cbn [fmap option_fmap option_map fst snd] in Hc. injection Hc as Hc Ha.
  rewrite (F Hc) in O. exists p, q, accepted. split_and!; [done|now rewrite Ha|exact D|].
  rewrite O, Ha. reflexivity.
Defined.

(** A hundred bytes and two more in two vectors, with packets of 40 bytes: all of
    them are on the way or staged. *)
Lemma mcast_msg_terminates_witness :
  exists p' ks ps', mcast_msg [replicate 100 1; [2; 3]] 0 (small_pg 40 20 []) = Some (0, p')
    /\ pg_out p' = pg_out (small_pg 40 20 []) ++ sends 0 ks
    /\ concat (concat (map pk_pieces ks)) ++ concat ps' = replicate 100 1 ++ [2; 3].
Proof.
  destruct (mcast_msg_terminates 65536 [replicate 100 1; [2; 3]] 0 [] [] (small_pg 40 20 []) 20)
    as (p' & ks & ps' & ms & part' & H1 & H2 & _ & H3 & _).
  - apply small_pg_staged; lia.
  - intros _. split; reflexivity.
  - apply small_srp_good; lia.
  - apply (small_srp_good 20); lia.
  - by_compute.
  - vm_compute. reflexivity.
  - by_compute.
  - exists p', ks, ps'. split; [exact H1|]. split; [exact H2|exact H3].
Defined.

(** ** Full queues *)

Definition nearly_full : totempg srp :=
  match mcast_msg [replicate 1396 7] 0 (small_pg 1410 2 []) with Some (_, p) => p | None => small_pg 1410 2 [] end.

(** The check before a message is sent does not count what is staged and the
    short packets at the ends of vectors: a message can pass it with two free
    places in the queue and still need three, which ends in a failed assertion. *)
Theorem mcast_msg_can_abort :
  exists ps, staged 65536 ps nearly_full /\ totemsrp_good (pg_srp nearly_full)
    /\ totemsrp_avail (pg_srp nearly_full) = Some 2
    /\ byte_count_send_ok (1403 + 2 * mcast_packed_msg_count nearly_full) nearly_full = Some true
    /\ mcast_msg [replicate 1403 8] 0 nearly_full = None.
Proof.
  assert (E : mcast_msg [replicate 1396 7] 0 (small_pg 1410 2 []) = Some (0, nearly_full)) by (vm_compute; reflexivity).
  pose proof (small_srp_good 2 ltac:(lia)) as [Hg _].
  pose proof (mcast_msg_good [replicate 1396 7] 0 (small_pg 1410 2 []) 0 nearly_full Hg E) as [Hg' _].
  destruct (mcast_msg_spec 65536 _ _ [] [] _ _ _ (small_pg_staged 1410 2 [] ltac:(lia) ltac:(lia)) (fun _ => conj eq_refl eq_refl) E ltac:(lia))
    as (ks & ms & part & ps & _ & _ & _ & _ & S & _).
  exists ps. split; [exact S|]. split; [exact Hg'|]. split_and!; vm_compute; reflexivity.
Qed.

(** The fill level of the queue is computed in unsigned arithmetic: when more
    places are reserved than are free, the level is reported as low. *)
Theorem overcommitted_queue_reported_low {Srp} {api : SrpApi Srp} (p : totempg Srp) n :
  srp_avail (pg_srp p) = Some n -> 64 <= pg_net_mtu p <= 65535 ->
  0 < totempg_reserved p - n <= 65536 ->
  exists percent, q_level_precent_used p = Some percent
    /\ forall level, level <> TOTEM_Q_LEVEL_LOW -> q_level_next (s32 percent) level = TOTEM_Q_LEVEL_LOW.
Proof.
  intros Ha Hm Hr. unfold q_level_precent_used. rewrite Ha. cbn [mbind option_bind].
  eexists. split; [reflexivity|]. intros level Hl.
  set (k := totempg_reserved p - n) in *. set (m := 4 * MESSAGE_SIZE_MAX / pg_net_mtu p).
  assert (Hm' : 64 <= m <= 65536).
  { unfold m, MESSAGE_SIZE_MAX. split; [apply Z.div_le_lower_bound; lia|apply Z.div_le_upper_bound; lia]. }
  assert (Eu : u32 ((n - totempg_reserved p) * 100) = 2 ^ 32 - 100 * k).
  { unfold u32. replace ((n - totempg_reserved p) * 100) with (2 ^ 32 - 100 * k + (-1) * 2 ^ 32) by (unfold k; lia).
    rewrite Z.mod_add by lia. apply Z.mod_small. lia. }
  rewrite Eu. set (q := (2 ^ 32 - 100 * k) / m).
  assert (Hq : 200 <= q <= 2 ^ 31).
  { unfold q. split; [apply Z.div_le_lower_bound; lia|]. apply Z.div_le_upper_bound; lia. }
  assert (Es : s32 (u32 (100 - q)) = 100 - q).
  { rewrite <- (s32_small (100 - q)) at 2 by lia. unfold s32, u32. now rewrite Z.mod_mod by lia. }
  rewrite Es. unfold q_level_next.
  rewrite (proj2 (Z.leb_gt _ _)), (proj2 (Z.ltb_lt (100 - q) 30)), (proj2 (Z.eqb_neq _ _) Hl) by lia. done.
Qed.

Lemma overcommitted_queue_reported_low_witness :
  exists percent, q_level_precent_used (small_pg 1410 10 [] <| totempg_reserved := 17 |>) = Some percent
    /\ q_level_next (s32 percent) TOTEM_Q_LEVEL_CRITICAL = TOTEM_Q_LEVEL_LOW.
Proof.
  destruct (overcommitted_queue_reported_low (small_pg 1410 10 [] <| totempg_reserved := 17 |>) 10) as (c & E & H);
    [apply (small_srp_good 10); lia|by_compute|by_compute|]. exists c. split; [exact E|apply H; discriminate].
Defined.

(** ** Receivers that come late *)

Definition late_packet : packet := mk_packet 0 1 [[9; 9]; group_header [[97]] ++ [1; 2; 3]].

(** A receiver that did not get the beginning of a message throws away the
    whole packet with its end: the complete message behind it in the packet is
    lost, although the receiver that was there before delivers it. *)
Theorem late_receiver_loses_packed_message :
  let early := demo_receiver <| assembly_list_inuse := [mk_assembly 1 (group_header [[97]] ++ [8]) 6 1 false] |> in
  (exists q, totempg_deliver_fn 65536 1 (packet_enc late_packet) false early = Some q
     /\ pg_out q = [PgDeliver 1 1 [8; 9; 9] false; PgDeliver 2 1 [8; 9; 9] false;
                    PgDeliver 1 1 [1; 2; 3] false; PgDeliver 2 1 [1; 2; 3] false])
  /\ (exists q, totempg_deliver_fn 65536 1 (packet_enc late_packet) false demo_receiver = Some q /\ pg_out q = []).
Proof. split; eexists; (split; [vm_compute; reflexivity|reflexivity]). Qed.
