(* ===== verification/Sync.v ===== *)
(** * Synchronisation of the services (exec/sync.c, confchg_fn of exec/main.c)

    After a configuration change the services synchronise one after the other:
    the members exchange the lists of their services, and every service is
    processed by all members before any of them activates it.  Messages go
    through the group "sync" and are delivered in total order. *)
From S2P Require Import Prelude VoteQuorum TotemMemb TotemSrp.

Definition SERVICES_COUNT_MAX : nat := 64.
Definition SERVICE_LIST_MAX : nat := 128.
Definition service_count : nat := 32.

Inductive sync_process_state := PROCESS | ACTIVATE.
Inductive sync_state := SYNC_SERVICELIST_BUILD | SYNC_PROCESS | SYNC_BARRIER.

#[export] Instance sync_state_eq : EqDecision sync_state.
Proof. solve_decision. Defined.

(** [se_local]: the callbacks are those of a local service; otherwise they are
    the dummies, and [sync_init] is null. *)
Record service_entry := mk_service_entry {
  se_service_id : Z;
  se_local : bool;
  se_state : sync_process_state
}.
#[export] Instance service_entry_eta : Etable service_entry := fun e =>
  mk_service_entry (se_service_id e) (se_local e) (se_state e).

Record processor_entry := mk_processor_entry { pe_nodeid : Z; pe_received : bool }.

Inductive sync_msg :=
| req_exec_barrier_message (r : ring_id)
| req_exec_service_build_message (r : ring_id) (service_list : list Z).

Inductive sync_effect :=
| SyncInit (service : Z) (trans members : list Z) (r : ring_id)
| SyncProcessed (service : Z) (res : Z)
| SyncActivate (service : Z)
| SyncAbort (service : Z)
| SyncMcast (m : sync_msg)
| SynchronizationCompleted
| IpcsSyncStateChanged (in_process : bool)
| MemberObjectLeft (n : Z)
| MemberObjectJoined (n : Z)
| ServiceConfchg (service : Z) (t : confchg_type) (members left joined : list Z) (r : ring_id).

Record sync := mk_sync {
  my_state : sync_state;
  sy_ring_id : ring_id;
  my_processing_idx : Z;
  my_schedwrk : bool;
  my_processor_list : list processor_entry;
  my_member_list : list Z;
  my_trans_list : list Z;
  my_service_list : list service_entry;
  sync_in_process : bool;
  corosync_ring_id : ring_id;
  sync_out : list sync_effect
}.
#[export] Instance sync_eta : Etable sync := fun s =>
  mk_sync (my_state s) (sy_ring_id s) (my_processing_idx s) (my_schedwrk s) (my_processor_list s)
    (my_member_list s) (my_trans_list s) (my_service_list s) (sync_in_process s) (corosync_ring_id s) (sync_out s).

Definition zero_ring_id : ring_id := mk_ring 0 0.

Definition sync_initial : sync := mk_sync SYNC_BARRIER zero_ring_id 0 false [] [] [] [] true zero_ring_id [].

Definition sync_emit (e : sync_effect) (s : sync) : sync := s <| sync_out ::= fun o => o ++ [e] |>.

(** The table [corosync_service], as [my_sync_callbacks_retrieve] shows it: for a
    loaded service, whether it has a [sync_init] and a [confchg_fn], and the
    length of its name. *)
Record sync_callbacks := mk_sync_callbacks { cb_has_init : bool; cb_has_confchg : bool; cb_name_len : Z }.

Definition service_ids : list Z := map Z.of_nat (seq 0 SERVICES_COUNT_MAX).

Section Sync.
Context (retrieve : Z -> option sync_callbacks).

Definition loaded (service : Z) : bool := match retrieve service with Some _ => true | None => false end.

(** Entries behind the list are zero up to the end of the array. *)
Definition service_at (i : Z) (s : sync) : option service_entry :=
  if i <? 0 then None
  else match my_service_list s !! Z.to_nat i with
       | Some e => Some e
       | None => if i <? Z.of_nat SERVICES_COUNT_MAX then Some (mk_service_entry 0 false PROCESS) else None
       end.

(** ** Messages *)

Definition barrier_message_transmit (s : sync) : sync :=
  sync_emit (SyncMcast (req_exec_barrier_message (sy_ring_id s))) s.

Definition service_build_message_transmit (service_list : list Z) (s : sync) : sync :=
  sync_emit (SyncMcast (req_exec_service_build_message (sy_ring_id s) service_list)) s.

(** ** Phases *)

Definition sync_barrier_enter (s : sync) : sync := barrier_message_transmit (s <| my_state := SYNC_BARRIER |>).

(** The members that come with us from the old configuration. *)
Definition sync_process_call_init (s : sync) : option sync :=
  let s := s <| my_trans_list ::= List.filter (fun o => existsb (Z.eqb o) (my_member_list s)) |> in
  foldl (fun acc e => s ← acc;
           if loaded (se_service_id e) then
             if se_local e
             then Some (sync_emit (SyncInit (se_service_id e) (my_trans_list s) (my_member_list s) (sy_ring_id s)) s)
             else None
           else Some s)
    (Some s) (my_service_list s).

(** [sync_synchronization_completed], which is [corosync_sync_completed]. *)
Definition synchronization_completed (s : sync) : sync :=
  s <| sync_in_process := false |> <| sync_out ::= fun o => o ++ [IpcsSyncStateChanged false; SynchronizationCompleted] |>.

Definition sync_process_enter (s : sync) : sync :=
  let s := s <| my_state := SYNC_PROCESS |> in
  match my_service_list s with
  | [] => synchronization_completed (s <| my_state := SYNC_SERVICELIST_BUILD |>)
  | _ => s <| my_processor_list ::= map (fun p => mk_processor_entry (pe_nodeid p) false) |>
           <| my_schedwrk := true |>
  end.

(** The services with a [sync_init], in the order of their ids. *)
Definition local_services : list Z :=
  List.filter (fun i => match retrieve i with Some cb => cb_has_init cb | None => false end) service_ids.

Definition names_fit : bool :=
  forallb (fun i => match retrieve i with Some cb => cb_name_len cb <? 128 | None => true end) local_services.

Definition sync_servicelist_build_enter (member_list : list Z) (s : sync) : option sync :=
  if negb (Nat.leb (length member_list) PROCESSOR_COUNT_MAX) || negb names_fit then None
  else
    let s := s <| my_state := SYNC_SERVICELIST_BUILD |>
               <| my_processor_list := map (fun n => mk_processor_entry n false) member_list |>
               <| my_member_list := member_list |> <| my_processing_idx := 0 |>
               <| my_service_list := map (fun i => mk_service_entry i true PROCESS) local_services |> in
    sync_process_call_init (service_build_message_transmit local_services s).

(** ** Handlers *)

Definition processor_received (nodeid : Z) (s : sync) : sync :=
  s <| my_processor_list ::= map (fun p => if pe_nodeid p =? nodeid then mk_processor_entry (pe_nodeid p) true else p) |>.

Definition barrier_reached (s : sync) : bool := forallb pe_received (my_processor_list s).

Definition sync_barrier_handler (nodeid : Z) (r : ring_id) (s : sync) : option sync :=
  if bool_decide (sy_ring_id s <> r) then Some s
  else
    let s := processor_received nodeid s in
    if barrier_reached s then
      e ← service_at (my_processing_idx s) s;
      let s := s <| my_service_list ::= alter (fun e => e <| se_state := ACTIVATE |>) (Z.to_nat (my_processing_idx s)) |> in
      s ← (if loaded (se_service_id e) then
             if Z.to_nat (my_processing_idx s) <? length (my_service_list s)
             then Some (if se_local e then sync_emit (SyncActivate (se_service_id e)) s else s)
             else None
           else Some s)%nat;
      let s := s <| my_processing_idx ::= Z.add 1 |> in
      Some (if Z.of_nat (length (my_service_list s)) =? my_processing_idx s
            then synchronization_completed s else sync_process_enter s)
    else Some s.

(** [qsort] with [service_entry_compare]. *)
Fixpoint service_insert (e : service_entry) (l : list service_entry) : list service_entry :=
  match l with
  | [] => [e]
  | x :: l' => if se_service_id e <=? se_service_id x then e :: l else x :: service_insert e l'
  end.
Definition service_sort (l : list service_entry) : list service_entry := foldr service_insert [] l.

(** A service nobody here knows is added with dummy callbacks. *)
Definition service_add (l : list service_entry) (id : Z) : list service_entry :=
  if existsb (fun e => se_service_id e =? id) l then l else l ++ [mk_service_entry id false PROCESS].

Definition sync_service_build_handler (nodeid : Z) (r : ring_id) (service_list : list Z) (s : sync) : option sync :=
  if bool_decide (sy_ring_id s <> r) then Some s
  else if Nat.ltb SERVICE_LIST_MAX (length service_list) then None
  else
    let l := foldl service_add (my_service_list s) service_list in
    if Nat.ltb SERVICES_COUNT_MAX (length l) then None
    else
      let l := if Nat.ltb (length (my_service_list s)) (length l) then service_sort l else l in
      let s := processor_received nodeid (s <| my_service_list := l |>) in
      Some (if barrier_reached s then sync_process_enter s else s).

Definition sync_deliver_fn (nodeid : Z) (m : sync_msg) (s : sync) : option sync :=
  match m with
  | req_exec_barrier_message r => sync_barrier_handler nodeid r s
  | req_exec_service_build_message r l => sync_service_build_handler nodeid r l s
  end.

(** The scheduled work; [res] is what [sync_process] of the service returns.  The
    work stays scheduled as long as the result is not 0. *)
Definition schedwrk_processor (res : Z) (s : sync) : option (Z * sync) :=
  e ← service_at (my_processing_idx s) s;
  match se_state e with
  | PROCESS =>
      let run := loaded (se_service_id e) && se_local e in
      let s := if run then sync_emit (SyncProcessed (se_service_id e) res) s else s in
      let res := if run then res else 0 in
      if res =? 0 then Some (0, sync_barrier_enter s) else Some (-1, s)
  | ACTIVATE => Some (0, s)
  end.

(** [schedwrk_do]: nothing to do when the work was destroyed. *)
Definition schedwrk_do (res : Z) (s : sync) : option sync :=
  if my_schedwrk s then
    '(r, s) ← schedwrk_processor res s; Some (if r =? 0 then s <| my_schedwrk := false |> else s)
  else Some s.

(** ** Configuration changes *)

Definition sync_start (member_list : list Z) (r : ring_id) (s : sync) : option sync :=
  sync_servicelist_build_enter member_list (s <| sy_ring_id := r |>).

Definition sync_save_transitional (member_list : list Z) (s : sync) : sync := s <| my_trans_list := member_list |>.

Definition sync_abort (s : sync) : sync :=
  let s := match my_state s with SYNC_PROCESS => s <| my_schedwrk := false |> | _ => s end in
  let s := match my_state s, my_service_list s !! Z.to_nat (my_processing_idx s) with
           | SYNC_SERVICELIST_BUILD, _ | _, None => s
           | _, Some e => if loaded (se_service_id e) && se_local e then sync_emit (SyncAbort (se_service_id e)) s else s
           end in
  s <| sy_ring_id := zero_ring_id |>.

(** The notifications of [confchg_fn]: the IPC server, the member objects of the
    configuration map, and the services. *)
Definition confchg_notify (t : confchg_type) (member_list left_list joined_list : list Z) (r : ring_id) : list sync_effect :=
  [IpcsSyncStateChanged true] ++ map MemberObjectLeft left_list ++ map MemberObjectJoined joined_list ++
  map (fun i => ServiceConfchg i t member_list left_list joined_list r)
    (List.filter (fun i => match retrieve i with Some cb => cb_has_confchg cb | None => false end)
       (map Z.of_nat (seq 0 service_count))).

(** [confchg_fn] of main.c. *)
Definition confchg_fn (t : confchg_type) (member_list left_list joined_list : list Z) (r : ring_id) (s : sync) : option sync :=
  let abort_activate := sync_in_process s in
  let s := s <| sync_in_process := true |> <| corosync_ring_id := r |>
             <| sync_out ::= fun o => o ++ confchg_notify t member_list left_list joined_list r |> in
  let s := if abort_activate then sync_abort s else s in
  match t with
  | TOTEM_CONFIGURATION_TRANSITIONAL => Some (sync_save_transitional member_list s)
  | TOTEM_CONFIGURATION_REGULAR => sync_start member_list r s
  end.

End Sync.
