(* ===== verification/SyncSystem.v ===== *)
(** * A synchronisation round of all members (exec/sync.c)

    The members of a new configuration, each running the code of [Sync], joined
    by a channel that delivers their messages in one order: every message waits
    in its sender's queue, is given a place in the order at any later time, and
    reaches every member at the member's own pace. *)
From stdpp Require Import sorting.
From S2P Require Import Prelude VoteQuorum TotemMemb TotemSrp Sync.

Record snode := mk_snode {
  sn_started : bool;
  sn_sync : sync;
  sn_pos : nat;
  sn_queue : list sync_msg
}.
#[export] Instance snode_eta : Etable snode := fun n =>
  mk_snode (sn_started n) (sn_sync n) (sn_pos n) (sn_queue n).

Record ssys := mk_ssys {
  ss_order : list (Z * sync_msg);
  ss_node : Z -> snode
}.

#[export] Instance ssys_eta : Etable ssys := fun y => mk_ssys (ss_order y) (ss_node y).

Inductive sync_event :=
| SStart (n : Z) (trans gone joined : list Z) (* the configuration changes reach [n] *)
| SOrder (n : Z)                     (* the next message of [n] gets its place *)
| SDeliver (n : Z)                   (* the next message in order reaches [n] *)
| SStale (n from : Z) (m : sync_msg) (* a message of another ring reaches [n] *)
| SWork (n res : Z).                 (* the scheduled work runs at [n] *)

Definition mcasts (l : list sync_effect) : list sync_msg :=
  omap (fun e => match e with SyncMcast m => Some m | _ => None end) l.

(** What the services were told, in order. *)
Definition activated (l : list sync_effect) : list Z :=
  omap (fun e => match e with SyncActivate i => Some i | _ => None end) l.
Definition processed (l : list sync_effect) : list Z :=
  omap (fun e => match e with SyncProcessed i 0 => Some i | _ => None end) l.
Definition completed (l : list sync_effect) : bool :=
  existsb (fun e => match e with SynchronizationCompleted => true | _ => false end) l.

Definition msg_ring (m : sync_msg) : ring_id :=
  match m with req_exec_barrier_message r | req_exec_service_build_message r _ => r end.

Section System.
Context (members : list Z) (r : ring_id) (retr : Z -> Z -> option sync_callbacks).

Definition set_node (n : Z) (nd : snode) (y : ssys) : ssys :=
  y <| ss_node := fun k => if decide (k = n) then nd else ss_node y k |>.

(** Run an operation at a node; what it multicasts joins the node's queue. *)
Definition run_at (n : Z) (f : sync -> option sync) (y : ssys) : option ssys :=
  let nd := ss_node y n in
  s ← f (sn_sync nd);
  Some (set_node n (nd <| sn_sync := s |>
    <| sn_queue ::= fun q => q ++ mcasts (drop (length (sync_out (sn_sync nd))) (sync_out s)) |>) y).

(** An event that is not enabled changes nothing; [None] is a failed assertion
    or an access outside an array at a member. *)
Definition sys_step (e : sync_event) (y : ssys) : option ssys :=
  match e with
  | SStart n trans gone joined =>
      if bool_decide (n ∈ members) && negb (sn_started (ss_node y n)) then
        y ← run_at n (fun s =>
              s ← confchg_fn (retr n) TOTEM_CONFIGURATION_TRANSITIONAL trans gone [] r s;
              confchg_fn (retr n) TOTEM_CONFIGURATION_REGULAR members [] joined r s) y;
        Some (set_node n (ss_node y n <| sn_started := true |>) y)
      else Some y
  | SOrder n =>
      match sn_queue (ss_node y n) with
      | m :: q => Some (set_node n (ss_node y n <| sn_queue := q |>) (y <| ss_order ::= fun o => o ++ [(n, m)] |>))
      | [] => Some y
      end
  | SDeliver n =>
      if bool_decide (n ∈ members) && sn_started (ss_node y n) then
        match ss_order y !! sn_pos (ss_node y n) with
        | Some (from, m) =>
            y ← run_at n (sync_deliver_fn (retr n) from m) y;
            Some (set_node n (ss_node y n <| sn_pos ::= S |>) y)
        | None => Some y
        end
      else Some y
  | SStale n from m =>
      if bool_decide (n ∈ members) && sn_started (ss_node y n) && bool_decide (msg_ring m <> r)
      then run_at n (sync_deliver_fn (retr n) from m) y else Some y
  | SWork n res =>
      if bool_decide (n ∈ members) && sn_started (ss_node y n)
      then run_at n (schedwrk_do (retr n) res) y else Some y
  end.

Fixpoint sys_run (es : list sync_event) (y : ssys) : option ssys :=
  match es with [] => Some y | e :: es => y ← sys_step e y; sys_run es y end.

(** Before the configuration changes: scheduled work belongs to a round that is
    being processed. *)
Definition startable (s : sync) : bool :=
  negb (my_schedwrk s) || (bool_decide (my_state s = SYNC_PROCESS) && sync_in_process s).

Definition sys_init (s0 : Z -> sync) : ssys :=
  mk_ssys [] (fun n => mk_snode false (s0 n <| sync_out := [] |>) 0 []).

(** ** Rounds

    A member sends its service list and then one barrier per service; the
    [k]-th message of every member belongs to round [k]. *)

Definition cnt (n : Z) (d : list (Z * sync_msg)) : nat := length (List.filter (fun x => fst x =? n) d).

Definition local (n id : Z) : bool := existsb (Z.eqb id) (local_services (retr n)).

(** All services of all members, in the order in which they synchronise. *)
Definition services : list Z :=
  List.filter (fun id => existsb (fun n => local n id) members) service_ids.
Definition top : nat := length services.

Definition round_msg (n : Z) (k : nat) : sync_msg :=
  match k with
  | O => req_exec_service_build_message r (local_services (retr n))
  | S _ => req_exec_barrier_message r
  end.

(** The services a member knows after the messages [d]. *)
Definition known_ids (i : Z) (d : list (Z * sync_msg)) : list Z :=
  List.filter (fun id => local i id || existsb (fun n => Nat.ltb 0 (cnt n d) && local n id) members) service_ids.

(** ** The state of a member that is in round [m] and, when [w], has sent its
    message of that round, after the messages [d]. *)
Record node_ok (i : Z) (d : list (Z * sync_msg)) (sent m : nat) (w : bool) (s : sync) : Prop := {
  no_cnt : forall n, n ∈ members -> (m <= cnt n d <= S m)%nat;
  no_open : (m <= top)%nat -> exists n, n ∈ members /\ cnt n d = m;
  no_top : (m <= S top)%nat;
  no_first : m = 0%nat -> w = true;
  no_last : m = S top -> w = false;
  no_sent : sent = (m + Nat.b2n w)%nat;
  no_ring : sy_ring_id s = r;
  no_procs : (m <= top)%nat -> my_processor_list s = map (fun n => mk_processor_entry n (Nat.ltb m (cnt n d))) members;
  no_idx : my_processing_idx s = Z.of_nat (pred m);
  no_state : (m <= top)%nat ->
    my_state s = match m with O => SYNC_SERVICELIST_BUILD | _ => if w then SYNC_BARRIER else SYNC_PROCESS end;
  no_sched : my_schedwrk s = Nat.ltb 0 m && Nat.leb m top && negb w;
  no_process : sync_in_process s = Nat.leb m top;
  no_ids : map se_service_id (my_service_list s) = known_ids i d;
  no_entries : forall j e, my_service_list s !! j = Some e ->
    se_local e = local i (se_service_id e) /\ ((pred m <= j)%nat -> se_state e = PROCESS);
  no_activated : activated (sync_out s) = List.filter (local i) (take (pred m) services);
  no_processed : processed (sync_out s) = List.filter (local i) (take (pred sent) services);
  no_completed : completed (sync_out s) = Nat.ltb top m
}.

(** Messages in the channel: each is the next one of its sender, and its sender
    is not ahead of anybody. *)
Definition order_ok (o : list (Z * sync_msg)) : Prop :=
  forall d n m rest, o = d ++ (n, m) :: rest ->
    n ∈ members /\ m = round_msg n (cnt n d) /\ forall n', n' ∈ members -> (cnt n d <= cnt n' d)%nat.

Definition queue_ok (i : Z) (o : list (Z * sync_msg)) (q : list sync_msg) : Prop :=
  q = [] \/ q = [round_msg i (cnt i o)].

Definition member_ok (i : Z) (o : list (Z * sync_msg)) (nd : snode) : Prop :=
  queue_ok i o (sn_queue nd) /\
  if sn_started nd then
    (sn_pos nd <= length o)%nat /\
    exists m w, node_ok i (take (sn_pos nd) o) (cnt i o + length (sn_queue nd)) m w (sn_sync nd)
  else
    startable (sn_sync nd) = true /\ sync_out (sn_sync nd) = [] /\ sn_pos nd = 0%nat /\
    sn_queue nd = [] /\ cnt i o = 0%nat.

Definition sys_ok (y : ssys) : Prop :=
  order_ok (ss_order y) /\
  (forall i, i ∈ members -> member_ok i (ss_order y) (ss_node y i)) /\
  (forall i, i ∉ members -> sn_queue (ss_node y i) = []).

(** ** Counting *)

Lemma cnt_snoc n d k m : cnt n (d ++ [(k, m)]) = (cnt n d + Nat.b2n (Z.eqb k n))%nat.
Proof. unfold cnt. rewrite List.filter_app, length_app. cbn. destruct (k =? n); reflexivity. Qed.

Lemma cnt_app n d d' : cnt n (d ++ d') = (cnt n d + cnt n d')%nat.
Proof. unfold cnt. now rewrite List.filter_app, length_app. Qed.

Lemma cnt_take_le n k d : (cnt n (take k d) <= cnt n d)%nat.
Proof. rewrite <- (take_drop k d) at 2. rewrite cnt_app. lia. Qed.

(** ** Lists of services *)

Lemma local_iff n id : local n id = true <-> id ∈ local_services (retr n).
Proof.
  unfold local. rewrite existsb_exists, list_elem_of_In. split.
  - intros (x & Hx & ->%Z.eqb_eq). exact Hx.
  - intros H. exists id. split; [exact H | apply Z.eqb_refl].
Qed.

Lemma service_ids_range id : id ∈ service_ids <-> 0 <= id < 64.
Proof.
  unfold service_ids. rewrite list_elem_of_In, in_map_iff. unfold SERVICES_COUNT_MAX. split.
  - intros (x & <- & Hx%in_seq). lia.
  - intros H. exists (Z.to_nat id). split; [lia | apply in_seq; lia].
Qed.

Lemma local_spec n id :
  local n id = true <-> id ∈ service_ids /\ match retr n id with Some cb => cb_has_init cb | None => false end = true.
Proof. rewrite local_iff. unfold local_services. now rewrite !list_elem_of_In, filter_In. Qed.

Lemma local_range n id : local n id = true -> id ∈ service_ids.
Proof. intros [H _]%local_spec. exact H. Qed.

(** Only a loaded service is local. *)
Lemma local_loaded n id : local n id = true -> loaded (retr n) id = true.
Proof. intros [_ H]%local_spec. unfold loaded. now destruct (retr n id). Qed.

Lemma top_le : (top <= SERVICES_COUNT_MAX)%nat.
Proof.
  unfold top, services. etransitivity; [apply List.filter_length_le|].
  unfold service_ids. now rewrite length_map, length_seq.
Qed.

Lemma local_services_filter n : local_services (retr n) = List.filter (local n) service_ids.
Proof.
  unfold local_services at 1. apply filter_ext_in. intros id Hid%list_elem_of_In.
  apply eq_true_iff_eq. rewrite local_spec. naive_solver.
Qed.

End System.

Arguments no_cnt {_ _ _ _ _ _ _ _ _} _.
Arguments no_open {_ _ _ _ _ _ _ _ _} _.
Arguments no_top {_ _ _ _ _ _ _ _ _} _.
Arguments no_first {_ _ _ _ _ _ _ _ _} _.
Arguments no_last {_ _ _ _ _ _ _ _ _} _.
Arguments no_sent {_ _ _ _ _ _ _ _ _} _.
Arguments no_ring {_ _ _ _ _ _ _ _ _} _.
Arguments no_procs {_ _ _ _ _ _ _ _ _} _.
Arguments no_idx {_ _ _ _ _ _ _ _ _} _.
Arguments no_state {_ _ _ _ _ _ _ _ _} _.
Arguments no_sched {_ _ _ _ _ _ _ _ _} _.
Arguments no_process {_ _ _ _ _ _ _ _ _} _.
Arguments no_ids {_ _ _ _ _ _ _ _ _} _.
Arguments no_entries {_ _ _ _ _ _ _ _ _} _.
Arguments no_activated {_ _ _ _ _ _ _ _ _} _.
Arguments no_processed {_ _ _ _ _ _ _ _ _} _.
Arguments no_completed {_ _ _ _ _ _ _ _ _} _.

(** ** The identifiers a service can have *)

Lemma seq_sorted a n : StronglySorted Z.le (map Z.of_nat (seq a n)).
Proof.
  revert a. induction n as [|n IH]; intros a; cbn; constructor; [apply IH|].
  apply Forall_forall. intros y Hy. rewrite list_elem_of_In, in_map_iff in Hy.
  destruct Hy as (x & <- & Hx%in_seq). lia.
Qed.

Lemma service_ids_sorted : StronglySorted Z.le service_ids.
Proof. apply seq_sorted. Qed.

Lemma service_ids_nodup : NoDup service_ids.
Proof. apply (bool_decide_unpack _). vm_compute. exact I. Qed.

Lemma service_ids_length : length service_ids = SERVICES_COUNT_MAX.
Proof. reflexivity. Qed.

#[global] Opaque service_ids.
