(* ===== verification/SyncTheory.v ===== *)
(** * Synchronisation: service lists and the steps of a member *)
From stdpp Require Import sorting.
From S2P Require Import Prelude VoteQuorum TotemMemb TotemSrp Sync SyncSystem.

(** ** Sorted lists of service ids *)

Lemma filter_sorted (f : Z -> bool) l : StronglySorted Z.le l -> StronglySorted Z.le (List.filter f l).
Proof.
  induction 1 as [|x l _ IH Hx]; cbn; [constructor|]. destruct (f x); [|exact IH].
  constructor; [exact IH|]. rewrite Forall_forall in *. intros y Hy. apply Hx.
  rewrite list_elem_of_In, filter_In in Hy. now apply list_elem_of_In.
Qed.

Lemma sorted_unique (l k : list Z) :
  StronglySorted Z.le l -> StronglySorted Z.le k -> NoDup l -> NoDup k -> (forall x, x ∈ l <-> x ∈ k) -> l = k.
Proof.
  intros Sl Sk Nl Nk H. apply (StronglySorted_unique Z.le); [assumption..|]. now apply NoDup_Permutation.
Qed.

Fixpoint id_insert (x : Z) (l : list Z) : list Z :=
  match l with [] => [x] | y :: l' => if x <=? y then x :: l else y :: id_insert x l' end.

Lemma service_insert_ids e l : map se_service_id (service_insert e l) = id_insert (se_service_id e) (map se_service_id l).
Proof. induction l as [|x l IH]; cbn; [reflexivity|]. destruct (_ <=? _); cbn; [reflexivity | now rewrite IH]. Qed.

Lemma service_sort_ids l : map se_service_id (service_sort l) = foldr id_insert [] (map se_service_id l).
Proof. unfold service_sort. induction l as [|e l IH]; cbn; [reflexivity|]. now rewrite service_insert_ids, IH. Qed.

Lemma service_insert_perm e l : service_insert e l ≡ₚ e :: l.
Proof.
  induction l as [|x l IH]; cbn; [reflexivity|]. destruct (_ <=? _); [reflexivity|].
  rewrite IH. apply Permutation_swap.
Qed.

Lemma service_sort_perm l : service_sort l ≡ₚ l.
Proof. unfold service_sort. induction l as [|e l IH]; cbn; [reflexivity|]. now rewrite service_insert_perm, IH. Qed.

Lemma id_insert_sorted x l : StronglySorted Z.le l -> StronglySorted Z.le (id_insert x l).
Proof.
  induction 1 as [|y l Hs IH Hy]; cbn; [repeat constructor|].
  destruct (Z.leb_spec x y) as [L|L].
  - constructor; [now constructor|]. constructor; [exact L|]. eapply Forall_impl; [exact Hy|]. cbn. lia.
  - constructor; [exact IH|]. clear -Hy L. induction l as [|z l IH]; cbn; [constructor; [lia | constructor]|].
    apply Forall_cons in Hy as [Hz Hy]. destruct (_ <=? _); repeat (constructor; [lia|]); [exact Hy|]. now apply IH.
Qed.

Lemma id_sort_sorted l : StronglySorted Z.le (foldr id_insert [] l).
Proof. induction l as [|x l IH]; cbn; [constructor | now apply id_insert_sorted]. Qed.

(** ** Adding the services of a message *)

Lemma service_add_fold sl l : exists k,
  foldl service_add l sl = l ++ map (fun i => mk_service_entry i false PROCESS) k /\
  (NoDup (map se_service_id l) -> NoDup (map se_service_id l ++ k)) /\
  (forall i, i ∈ map se_service_id l ++ k <-> i ∈ map se_service_id l \/ i ∈ sl) /\
  (forall i, i ∈ k -> i ∉ map se_service_id l).
Proof.
  revert l. induction sl as [|x sl IH]; intros l.
  - exists []. cbn. rewrite !app_nil_r. split_and!; [reflexivity | tauto | set_solver | set_solver].
  - cbn [foldl]. unfold service_add at 2. destruct (existsb _ l) eqn:E.
    + destruct (IH l) as (k & -> & N & M & D). exists k. split_and!; [reflexivity | exact N | | exact D].
      intros i. rewrite M. apply existsb_exists in E as (e & He & <-%Z.eqb_eq).
      assert (se_service_id e ∈ map se_service_id l) by (apply list_elem_of_In, in_map; exact He). set_solver.
    + destruct (IH (l ++ [mk_service_entry x false PROCESS])) as (k & -> & N & M & D).
      rewrite map_app in N, M, D. cbn in N, M, D.
      assert (Hx : x ∉ map se_service_id l).
      { intros H. rewrite list_elem_of_In, in_map_iff in H. destruct H as (e & <- & He).
        apply not_true_iff_false in E. apply E, existsb_exists. exists e. split; [exact He | apply Z.eqb_refl]. }
      exists (x :: k). cbn. rewrite <- app_assoc in *. cbn in *. split_and!.
      * reflexivity.
      * intros Nl. apply N. apply NoDup_app. split_and!; [exact Nl | set_solver | apply NoDup_singleton].
      * intros i. rewrite M. set_solver.
      * intros i [-> | Hi]%elem_of_cons; [exact Hx|]. specialize (D i Hi). set_solver.
Qed.

(** The list after a service list message: again the sorted list of what is known. *)
Lemma services_merge (p loc : Z -> bool) sl l :
  map se_service_id l = List.filter p service_ids ->
  (forall e, e ∈ l -> se_local e = loc (se_service_id e) /\ se_state e = PROCESS) ->
  (forall i, loc i = true -> i ∈ service_ids -> p i = true) ->
  (forall i, i ∈ sl -> i ∈ service_ids) ->
  let l1 := foldl service_add l sl in
  let l2 := if Nat.ltb (length l) (length l1) then service_sort l1 else l1 in
  (length l1 <= SERVICES_COUNT_MAX)%nat /\
  map se_service_id l2 = List.filter (fun i => p i || existsb (Z.eqb i) sl) service_ids /\
  (forall e, e ∈ l2 -> se_local e = loc (se_service_id e) /\ se_state e = PROCESS).
Proof.
  intros Hl He Hp Hsl. cbn zeta.
  destruct (service_add_fold sl l) as (k & -> & N & M & D).
  specialize (N ltac:(rewrite Hl; apply filter_nodup, service_ids_nodup)).
  set (l1 := l ++ map (fun i => mk_service_entry i false PROCESS) k).
  assert (Ids : map se_service_id l1 = map se_service_id l ++ k).
  { unfold l1. rewrite map_app, map_map. cbn. now rewrite map_id. }
  assert (Mem : forall i, i ∈ map se_service_id l1 <-> i ∈ List.filter (fun i => p i || existsb (Z.eqb i) sl) service_ids).
  { intros i. rewrite Ids, M, Hl, !list_elem_of_In, !filter_In, orb_true_iff, existsb_exists, <- !list_elem_of_In.
    split.
    - intros [[? ?]|H]; [tauto|]. split; [now apply Hsl|]. right. exists i. split; [now apply list_elem_of_In | apply Z.eqb_refl].
    - intros [? [?|(x & ? & ->%Z.eqb_eq)]]; [tauto|]. right. now apply list_elem_of_In. }
  assert (Ent : forall e, e ∈ l1 -> se_local e = loc (se_service_id e) /\ se_state e = PROCESS).
  { intros e [H|H]%elem_of_app; [now apply He|]. rewrite list_elem_of_In, in_map_iff in H.
    destruct H as (i & <- & Hi%list_elem_of_In). cbn. split; [|reflexivity]. symmetry. apply not_true_iff_false. intros Hloc.
    apply (D i Hi). rewrite Hl, list_elem_of_In, filter_In, <- list_elem_of_In.
    assert (Hr : i ∈ service_ids).
    { assert (Hi' : i ∈ map se_service_id l1) by (rewrite Ids; apply elem_of_app; right; exact Hi).
      apply Mem in Hi'. rewrite list_elem_of_In, filter_In in Hi'. now apply list_elem_of_In. }
    split; [exact Hr | now apply Hp]. }
  rewrite <- Ids in N.
  assert (U : forall l', StronglySorted Z.le l' -> l' ≡ₚ map se_service_id l1 ->
    l' = List.filter (fun i => p i || existsb (Z.eqb i) sl) service_ids).
  { intros l' S P. apply sorted_unique; [exact S | apply filter_sorted, service_ids_sorted | now rewrite P
      | apply filter_nodup, service_ids_nodup |]. intros x. rewrite P. apply Mem. }
  split_and!.
  - rewrite <- (length_map se_service_id). rewrite (NoDup_Permutation _ _ N (filter_nodup _ _ service_ids_nodup) Mem).
    etransitivity; [apply List.filter_length_le|]. now rewrite service_ids_length.
  - destruct (Nat.ltb_spec (length l) (length l1)) as [L|L].
    + apply U; [rewrite service_sort_ids; apply id_sort_sorted|]. now rewrite service_sort_perm.
    + apply U; [|reflexivity]. unfold l1 in L |- *. rewrite length_app, length_map in L.
      destruct k; [|cbn in L; lia]. cbn. rewrite app_nil_r, Hl. apply filter_sorted, service_ids_sorted.
  - intros e H. apply Ent. destruct (Nat.ltb _ _); [now rewrite service_sort_perm in H | exact H].
Qed.

(** ** Projections of the log *)

Lemma activated_snoc l e : activated (l ++ [e]) = activated l ++ match e with SyncActivate i => [i] | _ => [] end.
Proof. unfold activated. rewrite omap_app. now destruct e. Qed.

Lemma processed_snoc l e : processed (l ++ [e]) = processed l ++ match e with SyncProcessed i 0 => [i] | _ => [] end.
Proof. unfold processed. rewrite omap_app. now destruct e as [|i []| | | | | | | |]. Qed.

Lemma completed_snoc l e :
  completed (l ++ [e]) = completed l || match e with SynchronizationCompleted => true | _ => false end.
Proof. unfold completed. rewrite existsb_app. cbn. now rewrite orb_false_r. Qed.

Definition quiet (e : sync_effect) : Prop :=
  match e with
  | SyncInit _ _ _ _ | SyncAbort _ | IpcsSyncStateChanged _ | MemberObjectLeft _ | MemberObjectJoined _
  | ServiceConfchg _ _ _ _ _ _ => True
  | _ => False
  end.

Lemma notify_quiet retrieve t ml ll jl r : Forall quiet (confchg_notify retrieve t ml ll jl r).
Proof.
  unfold confchg_notify. rewrite !Forall_app. split_and!; [now repeat constructor | ..];
    apply Forall_forall; intros e (x & <- & _)%list_elem_of_In%in_map_iff; exact I.
Qed.

#[global] Opaque confchg_notify.

Lemma completed_log l : let k := [IpcsSyncStateChanged false; SynchronizationCompleted] in
  activated (l ++ k) = activated l /\ processed (l ++ k) = processed l /\ completed (l ++ k) = true.
Proof.
  cbn zeta. unfold activated, processed, completed. rewrite !omap_app, existsb_app. cbn.
  now rewrite !app_nil_r, orb_true_r.
Qed.

Lemma quiet_log l k : Forall quiet k ->
  mcasts (l ++ k) = mcasts l /\ activated (l ++ k) = activated l /\ processed (l ++ k) = processed l /\
  completed (l ++ k) = completed l.
Proof.
  intros H. unfold mcasts, activated, processed, completed. rewrite !omap_app, existsb_app.
  induction H as [|e k He _ (IH1 & IH2 & IH3 & IH4)]; cbn; [now rewrite !app_nil_r, orb_false_r|].
  destruct e; try (destruct He; fail); cbn; auto.
Qed.

Section Member.
Context (members : list Z) (r : ring_id) (retr : Z -> Z -> option sync_callbacks).

Abbreviation cnt := SyncSystem.cnt.
Abbreviation local := (SyncSystem.local retr).
Abbreviation top := (SyncSystem.top members retr).
Abbreviation services := (SyncSystem.services members retr).
Abbreviation node_ok := (SyncSystem.node_ok members r retr).
Abbreviation known_ids := (SyncSystem.known_ids members retr).
Abbreviation round_msg := (SyncSystem.round_msg r retr).

(** ** The start of a round *)

Lemma call_init_spec i s :
  (forall e, e ∈ my_service_list s -> se_local e = true /\ loaded (retr i) (se_service_id e) = true) ->
  exists t inits, Forall quiet inits /\
    sync_process_call_init (retr i) s = Some (s <| my_trans_list := t |> <| sync_out := sync_out s ++ inits |>).
Proof.
  intros H. unfold sync_process_call_init.
  set (t := List.filter (fun o => existsb (Z.eqb o) (my_member_list s)) (my_trans_list s)).
  set (f := fun (acc : option sync) e => _).
  assert (G : forall l s1, (forall e, e ∈ l -> se_local e = true /\ loaded (retr i) (se_service_id e) = true) ->
     exists inits, Forall quiet inits /\ foldl f (Some s1) l = Some (s1 <| sync_out := sync_out s1 ++ inits |>)).
  { induction l as [|e l IH]; intros s1 Hl.
    - exists []. split; [constructor|]. cbn. rewrite app_nil_r. now destruct s1.
    - destruct (Hl e ltac:(left)) as [L1 L2]. cbn. rewrite L1, L2.
      destruct (IH (sync_emit (SyncInit (se_service_id e) (my_trans_list s1) (my_member_list s1) (sy_ring_id s1)) s1))
        as (k & Q & E); [intros; apply Hl; now right|].
      exists (SyncInit (se_service_id e) (my_trans_list s1) (my_member_list s1) (sy_ring_id s1) :: k).
      split; [apply Forall_cons; now split|]. etransitivity; [exact E|].
      unfold sync_emit, upd. cbn. now rewrite <- app_assoc. }
  destruct (G (my_service_list s) (s <| my_trans_list := t |>) H) as (k & Q & E).
  exists t, k. split; [exact Q|]. exact E.
Qed.

Lemma known_ids_nil i : known_ids i [] = local_services (retr i).
Proof.
  rewrite local_services_filter. apply filter_ext. intros id.
  destruct (existsb _ _) eqn:E; [|apply orb_false_r]. now apply existsb_exists in E as (x & _ & ?).
Qed.

Lemma abort_spec i s : exists q, Forall quiet q /\ sync_abort (retr i) s =
  s <| my_schedwrk := match my_state s with SYNC_PROCESS => false | _ => my_schedwrk s end |>
    <| sync_out := sync_out s ++ q |> <| sy_ring_id := zero_ring_id |>.
Proof.
  exists (match my_state s, my_service_list s !! Z.to_nat (my_processing_idx s) with
          | SYNC_SERVICELIST_BUILD, _ | _, None => []
          | _, Some e => if loaded (retr i) (se_service_id e) && se_local e then [SyncAbort (se_service_id e)] else []
          end).
  destruct s as [st rg ix sw pl ml tl sl ip out]. unfold sync_abort, sync_emit, upd. cbn.
  destruct st, (sl !! Z.to_nat ix) as [e|] eqn:E; cbn; rewrite ?E; try destruct (_ && _); cbn; rewrite ?app_nil_r;
    (split; [first [apply Forall_nil; exact I | apply Forall_singleton; exact I] | reflexivity]).
Qed.

Lemma start_ok i trans gone joined s0 :
  (length members <= PROCESSOR_COUNT_MAX)%nat -> names_fit (retr i) = true -> i ∈ members -> startable s0 = true -> sync_out s0 = [] ->
  exists s, (s ← confchg_fn (retr i) TOTEM_CONFIGURATION_TRANSITIONAL trans gone [] r s0;
             confchg_fn (retr i) TOTEM_CONFIGURATION_REGULAR members [] joined r s) = Some s /\
    node_ok i [] 1 0 true s /\ mcasts (sync_out s) = [round_msg i 0].
Proof.
  intros members_fit names Hi Hs0 Ho.
  set (pre := fun t ml ll jl s => s <| sync_in_process := true |> <| corosync_ring_id := r |>
     <| sync_out ::= fun o => o ++ confchg_notify (retr i) t ml ll jl r |>).
  set (s1 := (if sync_in_process s0 then sync_abort (retr i) (pre TOTEM_CONFIGURATION_TRANSITIONAL trans gone [] s0)
              else pre TOTEM_CONFIGURATION_TRANSITIONAL trans gone [] s0)).
  assert (P1 : my_schedwrk s1 = false /\ sync_in_process s1 = true /\ Forall quiet (sync_out s1)).
  { subst s1. unfold startable in Hs0. destruct (sync_in_process s0) eqn:Ep.
    - destruct (abort_spec i (pre TOTEM_CONFIGURATION_TRANSITIONAL trans gone [] s0)) as (q & Q & ->).
      split_and!; [change (match my_state s0 with SYNC_PROCESS => false | _ => my_schedwrk s0 end = false) | reflexivity
        | change (Forall quiet ((sync_out s0 ++ confchg_notify (retr i) TOTEM_CONFIGURATION_TRANSITIONAL trans gone [] r) ++ q));
          rewrite Ho; apply Forall_app; split; [apply notify_quiet | exact Q]].
      destruct (my_schedwrk s0); [|now destruct (my_state s0)]. cbn in Hs0. rewrite andb_true_r in Hs0.
      apply bool_decide_eq_true in Hs0. now rewrite Hs0.
    - rewrite andb_false_r, orb_false_r in Hs0.
      split_and!; [change (my_schedwrk s0 = false); now apply negb_true_iff | reflexivity|].
      change (Forall quiet (sync_out s0 ++ confchg_notify (retr i) TOTEM_CONFIGURATION_TRANSITIONAL trans gone [] r)).
      rewrite Ho. apply notify_quiet. }
  set (s2 := sync_save_transitional trans s1).
  assert (E1 : confchg_fn (retr i) TOTEM_CONFIGURATION_TRANSITIONAL trans gone [] r s0 = Some s2).
  { unfold confchg_fn, s2, s1. now destruct (sync_in_process s0). }
  rewrite E1. cbn [mbind option_bind].
  assert (P2 : my_schedwrk s2 = false /\ sync_in_process s2 = true /\ Forall quiet (sync_out s2)) by exact P1.
  clearbody s2. clear E1 P1 s1 Hs0 Ho.
  unfold confchg_fn. destruct P2 as (W & Ip & Q2). rewrite Ip.
  fold (pre TOTEM_CONFIGURATION_REGULAR members [] joined s2).
  destruct (abort_spec i (pre TOTEM_CONFIGURATION_REGULAR members [] joined s2)) as (q & Q & ->).
  unfold sync_start, sync_servicelist_build_enter.
  rewrite (proj2 (Nat.leb_le _ _) members_fit), names. cbn [negb orb].
  set (s3 := service_build_message_transmit _ _).
  destruct (call_init_spec i s3) as (t & inits & Q3 & E3).
  { intros e He. change (my_service_list s3) with (map (fun j => mk_service_entry j true PROCESS) (local_services (retr i))) in He.
    rewrite list_elem_of_In, in_map_iff in He. destruct He as (id & <- & Hid%list_elem_of_In). cbn. split; [reflexivity|].
    now apply local_loaded, local_iff. }
  eexists. split; [exact E3|].
  set (o2 := (sync_out s2 ++ confchg_notify (retr i) TOTEM_CONFIGURATION_REGULAR members [] joined r) ++ q).
  assert (Out : sync_out s3 = o2 ++ [SyncMcast (round_msg i 0)]) by reflexivity.
  assert (QQ : Forall quiet o2) by (unfold o2; rewrite !Forall_app; split_and!; [exact Q2 | apply notify_quiet | exact Q]).
  clearbody o2.
  assert (O : mcasts (sync_out s3 ++ inits) = [round_msg i 0] /\ activated (sync_out s3 ++ inits) = [] /\
     processed (sync_out s3 ++ inits) = [] /\ completed (sync_out s3 ++ inits) = false).
  { destruct (quiet_log (sync_out s3) inits Q3) as (-> & -> & -> & ->). rewrite Out.
    destruct (quiet_log [] o2 QQ) as (M & Ac & Pr & Co). cbn [app] in *.
    unfold mcasts. rewrite omap_app. fold (mcasts o2).
    rewrite activated_snoc, processed_snoc, completed_snoc, M, Ac, Pr, Co. now cbn. }
  destruct O as (O1 & O2 & O3 & O4). split; [|exact O1].
  constructor.
  - intros n _. cbn. lia.
  - intros _. now exists i.
  - lia.
  - reflexivity.
  - lia.
  - reflexivity.
  - reflexivity.
  - intros _. reflexivity.
  - reflexivity.
  - reflexivity.
  - cbn. unfold service_build_message_transmit, sync_emit, upd. cbn. rewrite W. now destruct (my_state s2).
  - reflexivity.
  - change (map se_service_id (map (fun j => mk_service_entry j true PROCESS) (local_services (retr i))) = known_ids i []).
    rewrite known_ids_nil, map_map. apply map_id.
  - intros j e He.
    change (map (fun j => mk_service_entry j true PROCESS) (local_services (retr i)) !! j = Some e) in He.
    apply list_elem_of_lookup_2 in He. rewrite list_elem_of_In, in_map_iff in He.
    destruct He as (id & <- & Hid%list_elem_of_In). cbn. split; [|reflexivity]. symmetry. now apply local_iff.
  - exact O2.
  - exact O3.
  - exact O4.
Qed.

(** ** Deliveries *)

Lemma known_ids_full i d : i ∈ members -> (forall n, n ∈ members -> (1 <= cnt n d)%nat) -> known_ids i d = services.
Proof.
  intros Hi H. apply filter_ext. intros id. apply eq_true_iff_eq. rewrite orb_true_iff, !existsb_exists. split.
  - intros [L|(n & Hn & [_ L]%andb_true_iff)]; [exists i; split; [now apply list_elem_of_In | exact L] | now exists n].
  - intros (n & Hn & L). right. exists n. split; [exact Hn|]. apply andb_true_iff. split; [|exact L].
    apply Nat.ltb_lt. apply H. now apply list_elem_of_In.
Qed.

Lemma known_ids_known i d n x : (1 <= cnt n d)%nat -> known_ids i (d ++ [(n, x)]) = known_ids i d.
Proof.
  intros H. apply filter_ext. intros id. f_equal. apply eq_true_iff_eq. rewrite !existsb_exists.
  apply exist_proper. intros k. rewrite cnt_snoc.
  destruct (Z.eqb_spec n k) as [->|_]; cbn [Nat.b2n]; [|now rewrite Nat.add_0_r].
  now rewrite (proj2 (Nat.ltb_lt 0 (cnt k d))), (proj2 (Nat.ltb_lt 0 (cnt k d + 1))) by lia.
Qed.

Lemma known_ids_new i d n x : n ∈ members ->
  known_ids i (d ++ [(n, x)]) =
  List.filter (fun id => (local i id || existsb (fun n => Nat.ltb 0 (cnt n d) && local n id) members)
                         || existsb (Z.eqb id) (local_services (retr n))) service_ids.
Proof.
  intros Hn. apply filter_ext. intros id. rewrite <- orb_assoc. f_equal. fold (local n id).
  apply eq_true_iff_eq. rewrite orb_true_iff, !existsb_exists. split.
  - intros (k & Hk & [C L]%andb_true_iff). rewrite cnt_snoc in C. destruct (Z.eqb_spec n k) as [->|_]; [now right|].
    left. exists k. rewrite Nat.add_0_r in C. now rewrite C, L.
  - intros [(k & Hk & [C L]%andb_true_iff)|L].
    + exists k. split; [exact Hk|]. apply andb_true_iff. split; [|exact L]. apply Nat.ltb_lt.
      apply Nat.ltb_lt in C. rewrite cnt_snoc. lia.
    + exists n. split; [now apply list_elem_of_In|]. rewrite L, cnt_snoc, Z.eqb_refl, andb_true_r.
      apply Nat.ltb_lt. cbn. lia.
Qed.

(** The flags of the members after the message of [n]. *)
Definition flags (m : nat) (d : list (Z * sync_msg)) : list processor_entry :=
  map (fun n => mk_processor_entry n (Nat.ltb m (cnt n d))) members.

Lemma flags_received m d n x : cnt n d = m ->
  map (fun p => if pe_nodeid p =? n then mk_processor_entry (pe_nodeid p) true else p) (flags m d)
  = flags m (d ++ [(n, x)]).
Proof.
  intros H. unfold flags. rewrite map_map. apply map_ext. intros k. cbn. rewrite cnt_snoc, (Z.eqb_sym n k).
  destruct (Z.eqb_spec k n) as [->|_]; cbn; [|now rewrite Nat.add_0_r].
  f_equal. symmetry. apply Nat.ltb_lt. lia.
Qed.

Lemma flags_reached m d : forallb pe_received (flags m d) = true <-> forall n, n ∈ members -> (S m <= cnt n d)%nat.
Proof.
  unfold flags. rewrite forallb_forall. setoid_rewrite list_elem_of_In. split.
  - intros H n Hn. assert (G := H _ (in_map _ _ _ Hn)). now apply Nat.ltb_lt in G.
  - intros H x (n & <- & Hn)%in_map_iff. now apply Nat.ltb_lt, H.
Qed.

Lemma flags_reset k m d : (forall n, n ∈ members -> (cnt n d <= m)%nat) ->
  map (fun p => mk_processor_entry (pe_nodeid p) false) (flags k d) = flags m d.
Proof.
  intros H. unfold flags. rewrite map_map. apply map_ext_in. intros n Hn%list_elem_of_In. cbn. f_equal.
  symmetry. apply Nat.ltb_ge. now apply H.
Qed.

(** One of the members is still missing in round [m]. *)
Lemma received_ok i d sent m w s n x l :
  node_ok i d sent m w s -> (m <= top)%nat -> n ∈ members -> cnt n d = m ->
  ~ (forall k, k ∈ members -> (S m <= cnt k (d ++ [(n, x)]))%nat) ->
  map se_service_id l = known_ids i (d ++ [(n, x)]) ->
  (forall j e, l !! j = Some e -> se_local e = local i (se_service_id e) /\ ((pred m <= j)%nat -> se_state e = PROCESS)) ->
  node_ok i (d ++ [(n, x)]) sent m w (s <| my_service_list := l |> <| my_processor_list := flags m (d ++ [(n, x)]) |>).
Proof.
  intros K Hm Hn Hc Hr Hids Hent.
  assert (C : forall k, k ∈ members -> (m <= cnt k (d ++ [(n, x)]) <= S m)%nat).
  { intros k Hk. rewrite cnt_snoc. pose proof (no_cnt K k Hk).
    destruct (Z.eqb_spec n k) as [->|_]; cbn [Nat.b2n]; lia. }
  constructor.
  - exact C.
  - intros _. destruct (decide (Exists (fun k => cnt k (d ++ [(n, x)]) = m) members)) as [E|E].
    { rewrite Exists_exists in E. exact E. }
    destruct Hr. intros k Hk. specialize (C k Hk). destruct (decide (cnt k (d ++ [(n, x)]) = m)); [|lia].
    destruct E. apply Exists_exists. now exists k.
  - exact (no_top K).
  - exact (no_first K).
  - exact (no_last K).
  - exact (no_sent K).
  - exact (no_ring K).
  - intros _. reflexivity.
  - exact (no_idx K).
  - exact (no_state K).
  - exact (no_sched K).
  - exact (no_process K).
  - exact Hids.
  - exact Hent.
  - exact (no_activated K).
  - exact (no_processed K).
  - exact (no_completed K).
Qed.

(** Everybody's message of round [m] has arrived. *)
Lemma next_round i d sent m w s n x s' :
  node_ok i d sent m w s -> i ∈ members -> (m <= top)%nat -> cnt n d = m ->
  (cnt i (d ++ [(n, x)]) <= sent)%nat ->
  (forall k, k ∈ members -> (S m <= cnt k (d ++ [(n, x)]))%nat) ->
  sy_ring_id s' = r ->
  ((S m <= top)%nat -> my_processor_list s' = flags (S m) (d ++ [(n, x)]) /\ my_state s' = SYNC_PROCESS) ->
  my_processing_idx s' = Z.of_nat m -> my_schedwrk s' = Nat.leb (S m) top -> sync_in_process s' = Nat.leb (S m) top ->
  map se_service_id (my_service_list s') = services ->
  (forall j e, my_service_list s' !! j = Some e ->
     se_local e = local i (se_service_id e) /\ ((m <= j)%nat -> se_state e = PROCESS)) ->
  activated (sync_out s') = List.filter (local i) (take m services) ->
  processed (sync_out s') = processed (sync_out s) ->
  completed (sync_out s') = Nat.ltb top (S m) ->
  node_ok i (d ++ [(n, x)]) sent (S m) false s' /\ w = true.
Proof.
  intros K Hi Hm Hc Hsent Hr Ring PS Idx Sw Ip Ids Ent Act Pro Com.
  assert (C : forall k, k ∈ members -> cnt k (d ++ [(n, x)]) = S m).
  { intros k Hk. specialize (Hr k Hk). rewrite cnt_snoc in *. pose proof (no_cnt K k Hk).
    destruct (Z.eqb_spec n k) as [->|_]; cbn [Nat.b2n] in *; lia. }
  assert (Hw : w = true).
  { rewrite C, (no_sent K) in Hsent by exact Hi. destruct w; [reflexivity | cbn in Hsent; lia]. }
  split; [|exact Hw]. constructor.
  - intros k Hk. rewrite C by exact Hk. lia.
  - intros _. exists i. split; [exact Hi | now apply C].
  - lia.
  - lia.
  - reflexivity.
  - rewrite (no_sent K), Hw. cbn. lia.
  - exact Ring.
  - intros T. now apply PS.
  - exact Idx.
  - intros T. now apply PS.
  - rewrite Sw. cbn. now rewrite andb_true_r.
  - exact Ip.
  - rewrite known_ids_full; [exact Ids | exact Hi|]. intros k Hk. rewrite C by exact Hk. lia.
  - exact Ent.
  - exact Act.
  - rewrite Pro. exact (no_processed K).
  - exact Com.
Qed.

Lemma lookup_service i d sent m w s j id : node_ok i d sent m w s -> i ∈ members -> (1 <= m)%nat ->
  services !! j = Some id -> exists e, my_service_list s !! j = Some e /\ se_service_id e = id.
Proof.
  intros K Hi Hm Hj.
  rewrite <- (known_ids_full i d Hi), <- (no_ids K) in Hj.
  - change (map se_service_id (my_service_list s)) with (se_service_id <$> my_service_list s) in Hj.
    rewrite list_lookup_fmap in Hj. destruct (my_service_list s !! j) as [e|]; [|discriminate].
    injection Hj as Hj. now exists e.
  - intros k Hk. pose proof (no_cnt K k Hk). lia.
Qed.

Lemma build_ok i d sent w s n :
  node_ok i d sent 0 w s -> i ∈ members -> n ∈ members -> cnt n d = 0%nat ->
  (cnt i (d ++ [(n, round_msg n 0)]) <= sent)%nat ->
  exists s' k m' w', sync_deliver_fn (retr i) n (round_msg n 0) s = Some s' /\
    sync_out s' = sync_out s ++ k /\ mcasts k = [] /\ node_ok i (d ++ [(n, round_msg n 0)]) sent m' w' s'.
Proof.
  intros K Hi Hn Hc Hs. set (d' := d ++ [(n, round_msg n 0)]).
  cbn [round_msg SyncSystem.round_msg sync_deliver_fn]. unfold sync_service_build_handler.
  rewrite bool_decide_false by (intros H; exact (H (no_ring K))).
  destruct (services_merge
    (fun id => local i id || existsb (fun n => Nat.ltb 0 (cnt n d) && local n id) members) (local i)
    (local_services (retr n)) (my_service_list s)) as (Len & Ids & Ent).
  { exact (no_ids K). }
  { intros e (j & He)%list_elem_of_lookup. destruct (no_entries K j e He) as [L P].
    split; [exact L | apply P; lia]. }
  { intros id L _. now rewrite L. }
  { intros id L. apply (local_range retr n). now apply local_iff. }
  rewrite <- (known_ids_new i d n (round_msg n 0)) in Ids by exact Hn. fold d' in Ids.
  assert (L128 : (length (local_services (retr n)) <= 64)%nat).
  { unfold local_services. etransitivity; [apply List.filter_length_le|]. now rewrite service_ids_length. }
  rewrite (proj2 (Nat.ltb_ge SERVICE_LIST_MAX _)) by (unfold SERVICE_LIST_MAX; lia).
  rewrite (proj2 (Nat.ltb_ge SERVICES_COUNT_MAX _)) by exact Len.
  set (l := if Nat.ltb (length (my_service_list s)) _ then _ else _) in *. clearbody l. clear Len.
  assert (Ent' : forall j e, l !! j = Some e -> se_local e = local i (se_service_id e) /\ ((0 <= j)%nat -> se_state e = PROCESS)).
  { intros j e He. destruct (Ent e) as [E1 E2]; [eapply list_elem_of_lookup_2; exact He|]. now split. }
  assert (R : processor_received n (s <| my_service_list := l |>) = s <| my_service_list := l |> <| my_processor_list := flags 0 d' |>).
  { unfold processor_received. unfold d'. rewrite <- flags_received by exact Hc. unfold upd. cbn.
    rewrite (no_procs K ltac:(lia)). reflexivity. }
  rewrite R. set (s1 := s <| my_service_list := l |> <| my_processor_list := flags 0 d' |>).
  change (barrier_reached s1) with (forallb pe_received (flags 0 d')).
  destruct (forallb pe_received (flags 0 d')) eqn:Br.
  - rewrite flags_reached in Br.
    assert (F : map se_service_id l = services) by (rewrite Ids; now apply known_ids_full).
    assert (T : length l = top) by (rewrite <- (length_map se_service_id), F; reflexivity).
    unfold sync_process_enter. change (my_service_list (s1 <| my_state := SYNC_PROCESS |>)) with l.
    destruct l as [|e0 l0].
    + cbn in T.
      edestruct (next_round i d sent 0 w s n (round_msg n 0)) as [K' _];
        [exact K | exact Hi | lia | exact Hc | exact Hs | exact Br | ..];
        [..|eexists _, [IpcsSyncStateChanged false; SynchronizationCompleted], 1%nat, false; split_and!;
           [reflexivity | reflexivity | reflexivity | exact K']].
      all: try (rewrite <- T; reflexivity).
      * exact (no_ring K).
      * lia.
      * exact (no_idx K).
      * change (my_schedwrk s = Nat.leb 1 top). rewrite (no_sched K), <- T. reflexivity.
      * exact F.
      * exact Ent'.
      * etransitivity; [apply completed_log|]. exact (no_activated K).
      * apply completed_log.
      * etransitivity; [apply completed_log|]. now rewrite <- T.
    + assert (T' : (1 <= top)%nat) by (cbn in T; lia).
      edestruct (next_round i d sent 0 w s n (round_msg n 0)) as [K' _];
        [exact K | exact Hi | lia | exact Hc | exact Hs | exact Br | ..];
        [..|eexists _, [], 1%nat, false; split_and!;
           [reflexivity | symmetry; apply app_nil_r | reflexivity | exact K']].
      * exact (no_ring K).
      * intros _. split; [|reflexivity]. cbn [my_processor_list].
        apply (flags_reset 0 1 d'). intros k Hk. pose proof (no_cnt K k Hk). subst d'. rewrite cnt_snoc.
        destruct (Z.eqb_spec n k) as [<-|_]; cbn [Nat.b2n]; lia.
      * exact (no_idx K).
      * symmetry. now apply Nat.leb_le.
      * change (sync_in_process s = Nat.leb 1 top). rewrite (no_process K). symmetry. now apply Nat.leb_le.
      * exact F.
      * exact Ent'.
      * change (activated (sync_out s) = []). exact (no_activated K).
      * reflexivity.
      * change (completed (sync_out s) = Nat.ltb top 1). rewrite (no_completed K).
        rewrite (proj2 (Nat.ltb_ge top 1)) by exact T'. apply Nat.ltb_ge. lia.
  - eexists _, [], 0%nat, w. split_and!; [reflexivity | symmetry; apply app_nil_r | reflexivity |].
    eapply received_ok; [exact K | lia | exact Hn | exact Hc | | exact Ids | exact Ent'].
    rewrite <- flags_reached. fold d'. rewrite Br. discriminate.
Qed.

Lemma filter_take_S i j id : services !! j = Some id ->
  List.filter (local i) (take (S j) services) =
  List.filter (local i) (take j services) ++ (if local i id then [id] else []).
Proof. intros H. rewrite (take_S_r _ _ _ H), List.filter_app. cbn. now destruct (local i id). Qed.

(** The service that everybody has processed is activated where it is local. *)
Lemma activate_ok i d sent m w s : node_ok i d sent (S m) w s -> i ∈ members -> (S m <= top)%nat ->
  exists e k, service_at (my_processing_idx s) s = Some e /\
    (if loaded (retr i) (se_service_id e) && se_local e then [SyncActivate (se_service_id e)] else []) = k /\
    length (my_service_list s) = top /\
    activated (sync_out s ++ k) = List.filter (local i) (take (S m) services) /\
    processed (sync_out s ++ k) = processed (sync_out s) /\
    completed (sync_out s ++ k) = false /\ mcasts k = [].
Proof.
  intros K Hi Hm. destruct (lookup_lt_is_Some_2 services m) as [id Hid]; [unfold SyncSystem.top in Hm; lia|].
  destruct (lookup_service _ _ _ _ _ _ _ _ K Hi ltac:(lia) Hid) as (e & He & <-).
  destruct (no_entries K m e He) as [L _].
  assert (Len : length (my_service_list s) = top).
  { rewrite <- (length_map se_service_id), (no_ids K), known_ids_full; [reflexivity | exact Hi|].
    intros k Hk. pose proof (no_cnt K k Hk). lia. }
  assert (Nc : completed (sync_out s) = false) by (rewrite (no_completed K); apply Nat.ltb_ge; lia).
  exists e. eexists. split; [|split; [reflexivity|]].
  { unfold service_at. rewrite (no_idx K). cbn [pred]. rewrite (proj2 (Z.ltb_ge _ _)), Nat2Z.id, He by lia. reflexivity. }
  pose proof (no_activated K) as Ha. cbn [pred] in Ha. rewrite (filter_take_S i m _ Hid), <- Ha, L.
  destruct (local i (se_service_id e)) eqn:Lo.
  - rewrite (local_loaded _ _ _ Lo). cbn [andb].
    rewrite activated_snoc, processed_snoc, completed_snoc, app_nil_r, Nc. now split_and!.
  - rewrite andb_false_r, !app_nil_r. now split_and!.
Qed.

Lemma activate_ids (l : list service_entry) j :
  map se_service_id (alter (fun e => e <| se_state := ACTIVATE |>) j l) = map se_service_id l.
Proof. revert j. induction l as [|x l IH]; intros [|j]; cbn; f_equal. apply IH. Qed.

Lemma activate_entries i m (l : list service_entry) :
  (forall j e, l !! j = Some e -> se_local e = local i (se_service_id e) /\ ((m <= j)%nat -> se_state e = PROCESS)) ->
  forall j e, alter (fun e => e <| se_state := ACTIVATE |>) m l !! j = Some e ->
    se_local e = local i (se_service_id e) /\ ((S m <= j)%nat -> se_state e = PROCESS).
Proof.
  intros H j e. rewrite list_lookup_alter. case_decide as E.
  - subst j. intros (e2 & He2 & ->)%fmap_Some. destruct (H _ _ He2) as [L _]. split; [exact L | lia].
  - intros He2. destruct (H _ _ He2) as [L P]. split; [exact L|]. intros. apply P. lia.
Qed.

Lemma barrier_ok i d sent m w s n :
  node_ok i d sent (S m) w s -> (S m <= top)%nat -> i ∈ members -> n ∈ members -> cnt n d = S m ->
  (cnt i (d ++ [(n, round_msg n (S m))]) <= sent)%nat ->
  exists s' k m' w', sync_deliver_fn (retr i) n (round_msg n (S m)) s = Some s' /\
    sync_out s' = sync_out s ++ k /\ mcasts k = [] /\ node_ok i (d ++ [(n, round_msg n (S m))]) sent m' w' s'.
Proof.
  intros K Hm Hi Hn Hc Hs. set (d' := d ++ [(n, round_msg n (S m))]).
  cbn [SyncSystem.round_msg sync_deliver_fn]. unfold sync_barrier_handler.
  rewrite bool_decide_false by (intros H; exact (H (no_ring K))).
  assert (Ids : known_ids i d' = known_ids i d) by (apply known_ids_known; rewrite Hc; lia).
  set (s1 := s <| my_service_list := my_service_list s |> <| my_processor_list := flags (S m) d' |>).
  assert (R : processor_received n s = s1).
  { unfold processor_received, s1, d'. rewrite <- flags_received by exact Hc. unfold upd. cbn.
    rewrite (no_procs K Hm). reflexivity. }
  rewrite R. change (barrier_reached s1) with (forallb pe_received (flags (S m) d')).
  destruct (forallb pe_received (flags (S m) d')) eqn:Br.
  - rewrite flags_reached in Br.
    destruct (activate_ok _ _ _ _ _ _ K Hi Hm) as (e & k & Hat & Hk & Len & Act & Pro & Com & Mc).
    change (service_at (my_processing_idx s1) s1) with (service_at (my_processing_idx s) s). rewrite Hat.
    cbn [mbind option_bind].
    set (l := alter (fun e => e <| se_state := ACTIVATE |>) (Z.to_nat (my_processing_idx s)) (my_service_list s)).
    set (s2 := s1 <| my_service_list := l |>).
    assert (Ll : length l = top) by (unfold l; now rewrite length_alter).
    assert (S2 : s1 <| my_service_list ::= alter (fun e => e <| se_state := ACTIVATE |>) (Z.to_nat (my_processing_idx s1)) |> = s2)
      by reflexivity.
    rewrite S2.
    change (Z.to_nat (my_processing_idx s2)) with (Z.to_nat (my_processing_idx s)).
    change (my_service_list s2) with l. rewrite (no_idx K), Nat2Z.id, Ll. cbn [pred].
    rewrite (proj2 (Nat.ltb_lt m top)) by lia.
    set (s3 := s2 <| sync_out := sync_out s ++ k |>).
    assert (E : (if loaded (retr i) (se_service_id e)
                 then Some (if se_local e then sync_emit (SyncActivate (se_service_id e)) s2 else s2) else Some s2) = Some s3).
    { unfold s3, s2, s1. rewrite <- Hk. destruct (loaded _ _), (se_local e); cbn [andb]; unfold sync_emit, upd; cbn;
        now rewrite ?app_nil_r. }
    rewrite E. cbn [mbind option_bind].
    change (my_service_list (s3 <| my_processing_idx ::= Z.add 1 |>)) with l.
    change (my_processing_idx (s3 <| my_processing_idx ::= Z.add 1 |>)) with (1 + my_processing_idx s). rewrite (no_idx K), Ll. cbn [pred].
    assert (Idm : map se_service_id l = services).
    { rewrite <- (known_ids_full i d' Hi), Ids, <- (no_ids K); [|intros j Hj; specialize (Br j Hj); lia].
      apply activate_ids. }
    assert (Ent : forall j e, l !! j = Some e -> se_local e = local i (se_service_id e) /\ ((S m <= j)%nat -> se_state e = PROCESS)).
    { unfold l. rewrite (no_idx K), Nat2Z.id. apply activate_entries, (no_entries K). }
    destruct (Z.eqb_spec (Z.of_nat top) (1 + Z.of_nat m)) as [T|T].
    + edestruct (next_round i d sent (S m) w s n (round_msg n (S m))) as [K' _];
        [exact K | exact Hi | exact Hm | exact Hc | exact Hs | exact Br | ..];
        [..|eexists _, (k ++ [IpcsSyncStateChanged false; SynchronizationCompleted]), (S (S m)), false; split_and!;
           [reflexivity | now rewrite app_assoc | unfold mcasts in *; now rewrite omap_app, Mc | exact K']].
      * exact (no_ring K).
      * lia.
      * change (1 + my_processing_idx s = Z.of_nat (S m)). rewrite (no_idx K). cbn [pred]. lia.
      * change (my_schedwrk s = Nat.leb (S (S m)) top). rewrite (no_sched K).
        rewrite (proj2 (Nat.leb_gt (S (S m)) top)) by lia.
        destruct w; [now rewrite andb_false_r|]. exfalso. specialize (Br i Hi). fold d' in Hs.
        rewrite (no_sent K) in Hs. cbn in Hs. lia.
      * change (false = Nat.leb (S (S m)) top). symmetry. apply Nat.leb_gt. lia.
      * exact Idm.
      * exact Ent.
      * etransitivity; [apply completed_log | exact Act].
      * etransitivity; [apply completed_log | exact Pro].
      * etransitivity; [apply completed_log|]. symmetry. apply Nat.ltb_lt. lia.
    + unfold sync_process_enter.
      change (my_service_list (s3 <| my_processing_idx ::= Z.add 1 |> <| my_state := SYNC_PROCESS |>)) with l.
      destruct l as [|e0 l0]; [cbn in Ll; lia|].
      edestruct (next_round i d sent (S m) w s n (round_msg n (S m))) as [K' _];
        [exact K | exact Hi | exact Hm | exact Hc | exact Hs | exact Br | ..];
        [..|eexists _, k, (S (S m)), false; split_and!;
           [reflexivity | reflexivity | exact Mc | exact K']].
      * exact (no_ring K).
      * intros _. split; [|reflexivity]. cbn [my_processor_list].
        apply (flags_reset (S m) (S (S m)) d'). intros j Hj. pose proof (no_cnt K j Hj). subst d'. rewrite cnt_snoc.
        destruct (Z.eqb_spec n j) as [<-|_]; cbn [Nat.b2n]; lia.
      * change (1 + my_processing_idx s = Z.of_nat (S m)). rewrite (no_idx K). cbn [pred]. lia.
      * symmetry. apply Nat.leb_le. lia.
      * change (sync_in_process s = Nat.leb (S (S m)) top). rewrite (no_process K), !(proj2 (Nat.leb_le _ _)) by lia. reflexivity.
      * exact Idm.
      * exact Ent.
      * exact Act.
      * exact Pro.
      * change (completed (sync_out s ++ k) = Nat.ltb top (S (S m))). rewrite Com. symmetry. apply Nat.ltb_ge. lia.
  - exists s1, [], (S m), w. split_and!; [reflexivity | symmetry; apply app_nil_r | reflexivity |].
    eapply received_ok; [exact K | lia | exact Hn | exact Hc | | rewrite (no_ids K), <- Ids; reflexivity | exact (no_entries K)].
    rewrite <- flags_reached. fold d'. rewrite Br. discriminate.
Qed.

Lemma deliver_ok i d sent m w s n :
  node_ok i d sent m w s -> (m <= top)%nat -> i ∈ members -> n ∈ members -> cnt n d = m ->
  (cnt i (d ++ [(n, round_msg n m)]) <= sent)%nat ->
  exists s' k m' w', sync_deliver_fn (retr i) n (round_msg n m) s = Some s' /\
    sync_out s' = sync_out s ++ k /\ mcasts k = [] /\ node_ok i (d ++ [(n, round_msg n m)]) sent m' w' s'.
Proof.
  intros K Hm Hi Hn Hc Hs. destruct m as [|m].
  - eapply build_ok; eassumption.
  - eapply barrier_ok; eassumption.
Qed.

Lemma stale_ok i n x s : sy_ring_id s = r -> msg_ring x <> r -> sync_deliver_fn (retr i) n x s = Some s.
Proof.
  intros Hs Hx. destruct x; cbn in *; unfold sync_barrier_handler, sync_service_build_handler;
    rewrite bool_decide_true by congruence; reflexivity.
Qed.

(** ** The scheduled work *)

Lemma work_ok i d sent m w s res : node_ok i d sent m w s -> i ∈ members ->
  exists s' k, schedwrk_do (retr i) res s = Some s' /\ sync_out s' = sync_out s ++ k /\
    ((mcasts k = [] /\ node_ok i d sent m w s' /\ (my_schedwrk s = false \/ res <> 0)) \/
     (mcasts k = [round_msg i sent] /\ node_ok i d (S sent) m true s' /\ sent = m)).
Proof.
  intros K Hi. unfold schedwrk_do. destruct (my_schedwrk s) eqn:W.
  2:{ exists s, []. split_and!; [reflexivity | symmetry; apply app_nil_r|]. left. split_and!; [reflexivity | exact K | now left]. }
  pose proof (no_sched K) as Sw. rewrite W in Sw. symmetry in Sw.
  apply andb_true_iff in Sw as [[M1%Nat.ltb_lt M2%Nat.leb_le]%andb_true_iff ->%negb_true_iff].
  destruct m as [|m]; [lia|]. assert (Es := no_sent K). cbn [Nat.b2n] in Es. rewrite Nat.add_0_r in Es. subst sent.
  destruct (lookup_lt_is_Some_2 services m) as [id Hid]; [unfold SyncSystem.top in M2; lia|].
  destruct (lookup_service _ _ _ _ _ _ _ _ K Hi ltac:(lia) Hid) as (e & He & Eid).
  destruct (no_entries K m e He) as [L P]. specialize (P ltac:(cbn; lia)).
  unfold schedwrk_processor, service_at. rewrite (no_idx K). cbn [pred].
  rewrite (proj2 (Z.ltb_ge _ _)), Nat2Z.id, He by lia. cbn [mbind option_bind]. rewrite P.
  set (run := loaded (retr i) (se_service_id e) && se_local e).
  assert (Hrun : run = local i id).
  { unfold run. rewrite L, Eid. destruct (local i id) eqn:Lo; [|now rewrite andb_false_r].
    now rewrite (local_loaded _ _ _ Lo). }
  set (k := if run then [SyncProcessed (se_service_id e) res] else []).
  set (s1 := s <| sync_out := sync_out s ++ k |>).
  assert (E : (if run then sync_emit (SyncProcessed (se_service_id e) res) s else s) = s1).
  { unfold s1, k. destruct run; [reflexivity|]. rewrite app_nil_r. now destruct s. }
  rewrite E. clear E.
  assert (Ka : activated (sync_out s ++ k) = activated (sync_out s)).
  { unfold k. destruct run; [now rewrite activated_snoc, app_nil_r | now rewrite app_nil_r]. }
  assert (Kc : completed (sync_out s ++ k) = completed (sync_out s)).
  { unfold k. destruct run; [now rewrite completed_snoc, orb_false_r | now rewrite app_nil_r]. }
  assert (Kp : processed (sync_out s ++ k) = processed (sync_out s) ++ (if run && (res =? 0) then [id] else [])).
  { unfold k. destruct run; [|now rewrite !app_nil_r]. rewrite processed_snoc, Eid. now destruct res. }
  assert (Km : mcasts k = []) by (unfold k; now destruct run).
  destruct (Z.eqb_spec (if run then res else 0) 0) as [Z0|Z0]; cbn [mbind option_bind].
  - exists (sync_barrier_enter s1 <| my_schedwrk := false |>), (k ++ [SyncMcast (round_msg i (S m))]).
    assert (O : sync_out (sync_barrier_enter s1) = (sync_out s ++ k) ++ [SyncMcast (req_exec_barrier_message r)]).
    { transitivity ((sync_out s ++ k) ++ [SyncMcast (req_exec_barrier_message (sy_ring_id s))]); [reflexivity|].
      now rewrite (no_ring K). }
    split; [reflexivity|]. split; [now rewrite app_assoc|]. right.
    split; [unfold mcasts in *; now rewrite omap_app, Km|]. split; [|reflexivity].
    constructor.
    + exact (no_cnt K).
    + exact (no_open K).
    + exact (no_top K).
    + reflexivity.
    + lia.
    + cbn. lia.
    + exact (no_ring K).
    + exact (no_procs K).
    + exact (no_idx K).
    + reflexivity.
    + symmetry. apply andb_false_r.
    + exact (no_process K).
    + exact (no_ids K).
    + exact (no_entries K).
    + change (activated (sync_out (sync_barrier_enter s1)) = List.filter (local i) (take m services)).
      rewrite O, activated_snoc, app_nil_r, Ka. exact (no_activated K).
    + change (processed (sync_out (sync_barrier_enter s1)) = List.filter (local i) (take (S m) services)).
      rewrite O, processed_snoc, app_nil_r, Kp, (filter_take_S i m id Hid), (no_processed K). cbn [pred]. f_equal.
      rewrite Hrun in *. destruct (local i id); [|reflexivity]. subst res. reflexivity.
    + change (completed (sync_out (sync_barrier_enter s1)) = Nat.ltb top (S m)).
      rewrite O, completed_snoc, orb_false_r, Kc. exact (no_completed K).
  - destruct run; [|now destruct Z0]. exists s1, k. split; [reflexivity|]. split; [reflexivity|]. left. split; [exact Km|].
    split; [|now right].
    assert (Hr : (res =? 0) = false) by now apply Z.eqb_neq. rewrite Hr, app_nil_r in Kp.
    constructor; [exact (no_cnt K) | exact (no_open K) | exact (no_top K) | exact (no_first K) | exact (no_last K) | exact (no_sent K)
      | exact (no_ring K) | exact (no_procs K) | exact (no_idx K) | exact (no_state K) | exact (no_sched K) | exact (no_process K)
      | exact (no_ids K) | exact (no_entries K) | | |].
    + change (activated (sync_out s ++ k) = List.filter (local i) (take m services)). rewrite Ka. exact (no_activated K).
    + change (processed (sync_out s ++ k) = List.filter (local i) (take (pred (S m)) services)). rewrite Kp. exact (no_processed K).
    + change (completed (sync_out s ++ k) = Nat.ltb top (S m)). rewrite Kc. exact (no_completed K).
Qed.

End Member.
