(* ===== verification/SyncProps.v ===== *)
(** * What a synchronisation round guarantees (exec/sync.c) *)
From S2P Require Import Prelude VoteQuorum TotemMemb TotemSrp Sync SyncSystem SyncTheory.

Section Round.
Context (members : list Z) (r : ring_id) (retr : Z -> Z -> option sync_callbacks).
Hypothesis members_fit : (length members <= PROCESSOR_COUNT_MAX)%nat.
Hypothesis names : forall n, n ∈ members -> names_fit (retr n) = true.

Abbreviation cnt := SyncSystem.cnt.
Abbreviation local := (SyncSystem.local retr).
Abbreviation top := (SyncSystem.top members retr).
Abbreviation services := (SyncSystem.services members retr).
Abbreviation node_ok := (SyncSystem.node_ok members r retr).
Abbreviation round_msg := (SyncSystem.round_msg r retr).
Abbreviation sys_ok := (SyncSystem.sys_ok members r retr).
Abbreviation member_ok := (SyncSystem.member_ok members r retr).
Abbreviation order_ok := (SyncSystem.order_ok members r retr).
Abbreviation sys_step := (SyncSystem.sys_step members r retr).
Abbreviation sys_run := (SyncSystem.sys_run members r retr).

Lemma run_at_spec n f y s k :
  f (sn_sync (ss_node y n)) = Some s -> sync_out s = sync_out (sn_sync (ss_node y n)) ++ k ->
  run_at n f y = Some (set_node n (ss_node y n <| sn_sync := s |> <| sn_queue ::= fun q => q ++ mcasts k |>) y).
Proof. intros E O. unfold run_at. rewrite E. cbn. now rewrite O, drop_app_length. Qed.

Lemma set_node_eq n nd y : ss_node (set_node n nd y) n = nd.
Proof. cbn. now rewrite decide_True. Qed.

Lemma set_node_ne n i nd y : i <> n -> ss_node (set_node n nd y) i = ss_node y i.
Proof. intros H. cbn. now rewrite decide_False. Qed.

(** Only the node that takes the step changes, and the order stays. *)
Lemma sys_ok_node n y y' : sys_ok y -> n ∈ members -> ss_order y' = ss_order y ->
  (forall i, i <> n -> ss_node y' i = ss_node y i) -> member_ok n (ss_order y) (ss_node y' n) -> sys_ok y'.
Proof.
  intros (Ho & Hm & Hq) Hn Eo En Hnd. split; [now rewrite Eo|]. split.
  - intros i Hi. rewrite Eo. destruct (decide (i = n)) as [->|Ne]; [exact Hnd|]. rewrite En by exact Ne. now apply Hm.
  - intros i Hi. rewrite En by (intros ->; tauto). now apply Hq.
Qed.

(** A member sends at most one message per round. *)
Lemma member_sent i o nd : member_ok i o nd -> (cnt i o + length (sn_queue nd) <= S top)%nat.
Proof.
  intros [_ H]. destruct (sn_started nd).
  - destruct H as (_ & m & w & K). rewrite (no_sent K). pose proof (no_top K). pose proof (no_last K).
    destruct w; cbn [Nat.b2n]; [|lia]. enough (m <> S top) by lia. intros E. now discriminate (no_last K E).
  - destruct H as (_ & _ & _ & -> & ->). cbn [length]. lia.
Qed.

Lemma member_started i o nd m w : sn_started nd = true -> queue_ok r retr i o (sn_queue nd) -> (sn_pos nd <= length o)%nat ->
  node_ok i (take (sn_pos nd) o) (cnt i o + length (sn_queue nd)) m w (sn_sync nd) -> member_ok i o nd.
Proof. intros St Q P K. split; [exact Q|]. rewrite St. split; [exact P | now exists m, w]. Qed.

(** ** Every step keeps the invariant, and none fails *)

Lemma start_step i trans gone joined y : sys_ok y -> exists y', sys_step (SStart i trans gone joined) y = Some y' /\ sys_ok y'.
Proof.
  intros H. cbn [SyncSystem.sys_step]. destruct (bool_decide_reflect (i ∈ members)) as [Hi|]; [|now exists y].
  destruct (sn_started (ss_node y i)) eqn:St; [now exists y|]. cbn [andb negb].
  destruct (proj1 (proj2 H) i Hi) as [_ M]. rewrite St in M. destruct M as (Hs & Ho & Hp & Hq & Hc).
  destruct (start_ok members r retr i trans gone joined _ members_fit (names i Hi) Hi Hs Ho) as (s & E & K & Mc).
  rewrite (run_at_spec i _ y s (sync_out s) E) by now rewrite Ho.
  cbn [mbind option_bind]. eexists. split; [reflexivity|].
  apply (sys_ok_node i y); [exact H | exact Hi | reflexivity | intros k Hk; now rewrite !set_node_ne by exact Hk|].
  rewrite !set_node_eq. split.
  - right. cbn [sn_queue]. change (sn_queue (ss_node y i) ++ mcasts (sync_out s) = [round_msg i (cnt i (ss_order y))]).
    now rewrite Hq, Mc, Hc.
  - split; [exact (Nat.le_trans _ 0 _ ltac:(rewrite <- Hp; reflexivity) (Nat.le_0_l _))|].
    exists 0%nat, true. change (node_ok i (take (sn_pos (ss_node y i)) (ss_order y))
      (cnt i (ss_order y) + length (sn_queue (ss_node y i) ++ mcasts (sync_out s))) 0 true s).
    rewrite Hp, Hq, Mc, Hc. exact K.
Qed.

Lemma order_app o n x : order_ok o -> n ∈ members -> x = round_msg n (cnt n o) ->
  (forall n', n' ∈ members -> (cnt n o <= cnt n' o)%nat) -> order_ok (o ++ [(n, x)]).
Proof.
  intros Ho Hn Hx Hmin d n' m' rest E. destruct rest as [|z rest' _] using rev_ind.
  - apply app_inj_tail in E as [<- [= <- <-]]. now split_and!.
  - rewrite app_comm_cons, app_assoc in E. apply app_inj_tail in E as [E _]. now apply (Ho d n' m' rest').
Qed.

Lemma order_step n y : sys_ok y -> exists y', sys_step (SOrder n) y = Some y' /\ sys_ok y'.
Proof.
  intros (Ho & Hm & Hq). cbn [SyncSystem.sys_step].
  destruct (sn_queue (ss_node y n)) as [|x q] eqn:Q; [now exists y|]. eexists. split; [reflexivity|].
  destruct (decide (n ∈ members)) as [Hn|Hn]; [|now rewrite Hq in Q].
  destruct (Hm n Hn) as [Qn Mn]. destruct (sn_started (ss_node y n)) eqn:St.
  2:{ destruct Mn as (_ & _ & _ & Mq & _). rewrite Mq in Q. discriminate. }
  destruct Mn as (Pn & m & w & K). rewrite Q in Qn, K. destruct Qn as [Qn|[= -> ->]]; [discriminate|].
  set (o := ss_order y) in *. set (o' := o ++ [(n, round_msg n (cnt n o))]).
  assert (T : forall i, (sn_pos (ss_node y i) <= length o)%nat -> take (sn_pos (ss_node y i)) o' = take (sn_pos (ss_node y i)) o)
    by (intros i Hi; unfold o'; now apply take_app_le).
  assert (C : forall i, i <> n -> cnt i o' = cnt i o).
  { intros i Hi. unfold o'. rewrite cnt_snoc. destruct (Z.eqb_spec n i) as [->|_]; [easy | apply Nat.add_0_r]. }
  assert (Cn : cnt n o' = S (cnt n o)) by (unfold o'; rewrite cnt_snoc, Z.eqb_refl; apply Nat.add_1_r).
  split; [|split].
  - change (order_ok o'). apply order_app; [exact Ho | exact Hn | reflexivity|].
    intros n' Hn'. pose proof (no_sent K) as E. cbn [length] in E. pose proof (no_cnt K n' Hn').
    pose proof (cnt_take_le n' (sn_pos (ss_node y n)) o). destruct w; cbn [Nat.b2n] in E; lia.
  - intros i Hi. change (member_ok i o' (ss_node (set_node n (ss_node y n <| sn_queue := [] |>) y) i)).
    destruct (decide (i = n)) as [->|Ne].
    + rewrite set_node_eq. split; [now left|].
      change (sn_started (ss_node y n <| sn_queue := [] |>)) with (sn_started (ss_node y n)). rewrite St.
      change (sn_pos (ss_node y n <| sn_queue := [] |>)) with (sn_pos (ss_node y n)).
      split; [unfold o'; rewrite length_app; lia|]. exists m, w. rewrite T, Cn by exact Pn.
      change (node_ok n (take (sn_pos (ss_node y n)) o) (S (cnt n o) + 0) m w (sn_sync (ss_node y n))).
      replace (S (cnt n o) + 0)%nat with (cnt n o + 1)%nat by lia. exact K.
    + rewrite set_node_ne by exact Ne. destruct (Hm i Hi) as [Qi Mi]. fold o in Qi, Mi. unfold SyncSystem.member_ok, queue_ok.
      rewrite C by exact Ne. split; [exact Qi|]. destruct (sn_started (ss_node y i)); [|exact Mi].
      destruct Mi as (Pi & Mi). rewrite T by exact Pi. split; [unfold o'; rewrite length_app; lia | exact Mi].
  - intros i Hi. change (sn_queue (ss_node (set_node n (ss_node y n <| sn_queue := [] |>) y) i) = []).
    rewrite set_node_ne by (intros ->; tauto). now apply Hq.
Qed.

(** The next message for a member in round [m] is one of round [m]. *)
Lemma next_sender i o pos m w s n x sent :
  order_ok o -> (forall k, k ∈ members -> (cnt k o <= S top)%nat) ->
  node_ok i (take pos o) sent m w s -> o !! pos = Some (n, x) ->
  n ∈ members /\ cnt n (take pos o) = m /\ x = round_msg n m /\ (m <= top)%nat.
Proof.
  intros Ho Hb K Hx. destruct (Ho (take pos o) n x (drop (S pos) o)) as (Hn & -> & Hmin).
  { now rewrite take_drop_middle. }
  pose proof (no_cnt K n Hn) as Cn. assert (Cn' : (S (cnt n (take pos o)) <= cnt n o)%nat).
  { rewrite <- (take_drop_middle o pos _ Hx) at 2. rewrite cnt_app. unfold SyncSystem.cnt at 3. cbn. rewrite Z.eqb_refl. cbn. lia. }
  specialize (Hb n Hn). assert (Hm : (m <= top)%nat) by lia.
  destruct (no_open K Hm) as (k & Hk & Ck). specialize (Hmin k Hk). assert (E : cnt n (take pos o) = m) by lia.
  now rewrite E.
Qed.

Lemma node_deliver_step i y : sys_ok y -> exists y', sys_step (SDeliver i) y = Some y' /\ sys_ok y'.
Proof.
  intros H. cbn [SyncSystem.sys_step]. destruct (bool_decide_reflect (i ∈ members)) as [Hi|]; [|now exists y].
  destruct (sn_started (ss_node y i)) eqn:St; [|now exists y]. cbn [andb].
  destruct (ss_order y !! _) as [[n x]|] eqn:Ex; [|now exists y].
  destruct H as (Ho & Hm & Hq). destruct (Hm i Hi) as [Qi Mi]. rewrite St in Mi. destruct Mi as (Pi & m & w & K).
  assert (Hb : forall k, k ∈ members -> (cnt k (ss_order y) <= S top)%nat).
  { intros k Hk. pose proof (member_sent _ _ _ (Hm k Hk)). lia. }
  destruct (next_sender _ _ _ _ _ _ _ _ _ Ho Hb K Ex) as (Hn & Cn & -> & Ht).
  assert (T : take (S (sn_pos (ss_node y i))) (ss_order y) = take (sn_pos (ss_node y i)) (ss_order y) ++ [(n, round_msg n m)])
    by now apply take_S_r.
  destruct (deliver_ok members r retr i _ _ _ _ _ n K Ht Hi Hn Cn) as (s & k & m' & w' & E & O & Mc & K').
  { rewrite <- T. pose proof (cnt_take_le i (S (sn_pos (ss_node y i))) (ss_order y)). lia. }
  rewrite (run_at_spec i _ y s k E O). cbn [mbind option_bind]. eexists. split; [reflexivity|].
  apply (sys_ok_node i y); [now split_and! | exact Hi | reflexivity | intros j Hj; now rewrite !set_node_ne by exact Hj|].
  rewrite !set_node_eq, Mc. rewrite <- T in K'. apply lookup_lt_Some in Ex.
  apply (member_started _ _ _ m' w'); [exact St | | exact Ex |].
  - change (queue_ok r retr i (ss_order y) (sn_queue (ss_node y i) ++ [])). now rewrite app_nil_r.
  - change (node_ok i (take (S (sn_pos (ss_node y i))) (ss_order y))
      (cnt i (ss_order y) + length (sn_queue (ss_node y i) ++ [])) m' w' s). now rewrite app_nil_r.
Qed.

Lemma stale_step i n x y : sys_ok y -> exists y', sys_step (SStale i n x) y = Some y' /\ sys_ok y'.
Proof.
  intros H. cbn [SyncSystem.sys_step]. destruct (bool_decide_reflect (i ∈ members)) as [Hi|]; [|now exists y].
  destruct (sn_started (ss_node y i)) eqn:St; [|now exists y].
  destruct (bool_decide_reflect (msg_ring x <> r)) as [Hx|]; [|now exists y]. cbn [andb].
  pose proof (proj1 (proj2 H) i Hi) as M. assert (M' := M). destruct M' as [_ Mi]. rewrite St in Mi.
  destruct Mi as (_ & m & w & K).
  rewrite (run_at_spec i _ y _ [] (stale_ok r retr i n x _ (no_ring K) Hx)) by now rewrite app_nil_r.
  eexists. split; [reflexivity|].
  apply (sys_ok_node i y); [exact H | exact Hi | reflexivity | intros j Hj; now rewrite !set_node_ne by exact Hj|].
  rewrite set_node_eq. unfold upd. cbn. rewrite app_nil_r. now destruct (ss_node y i).
Qed.

Lemma work_step i res y : sys_ok y -> exists y', sys_step (SWork i res) y = Some y' /\ sys_ok y'.
Proof.
  intros H. cbn [SyncSystem.sys_step]. destruct (bool_decide_reflect (i ∈ members)) as [Hi|]; [|now exists y].
  destruct (sn_started (ss_node y i)) eqn:St; [|now exists y]. cbn [andb].
  destruct (proj1 (proj2 H) i Hi) as [Qi Mi]. rewrite St in Mi. destruct Mi as (Pi & m & w & K).
  destruct (work_ok members r retr i _ _ _ _ _ res K Hi) as (s & k & E & O & Alt).
  rewrite (run_at_spec i _ y s k E O). eexists. split; [reflexivity|].
  apply (sys_ok_node i y); [exact H | exact Hi | reflexivity | intros j Hj; now rewrite !set_node_ne by exact Hj|].
  rewrite set_node_eq.
  set (q := sn_queue (ss_node y i) ++ mcasts k).
  change (ss_node y i <| sn_sync := s |> <| sn_queue ::= fun l => l ++ mcasts k |>)
    with (ss_node y i <| sn_sync := s |> <| sn_queue := q |>).
  destruct Alt as [(Mc & K' & _)|(Mc & K' & Em)]; unfold q; rewrite Mc.
  - rewrite app_nil_r. now apply (member_started _ _ _ m w).
  - pose proof (no_cnt K i Hi). pose proof (cnt_take_le i (sn_pos (ss_node y i)) (ss_order y)).
    assert (Q : sn_queue (ss_node y i) = []) by (apply length_zero_iff_nil; lia).
    rewrite Q in *. cbn [length] in *. rewrite Nat.add_0_r in *. cbn [app].
    apply (member_started _ _ _ m true); [exact St | now right | exact Pi|].
    change (node_ok i (take (sn_pos (ss_node y i)) (ss_order y)) (cnt i (ss_order y) + 1) m true s).
    rewrite Nat.add_1_r. exact K'.
Qed.

Lemma sys_step_ok e y : sys_ok y -> exists y', sys_step e y = Some y' /\ sys_ok y'.
Proof. destruct e; [apply start_step | apply order_step | apply node_deliver_step | apply stale_step | apply work_step]. Qed.

Lemma sys_run_ok es y : sys_ok y -> exists y', sys_run es y = Some y' /\ sys_ok y'.
Proof.
  revert y. induction es as [|e es IH]; intros y H; [now exists y|].
  destruct (sys_step_ok e y H) as (y1 & E & H1). cbn [SyncSystem.sys_run]. rewrite E. now apply IH.
Qed.

Lemma sys_init_ok s0 : (forall n, n ∈ members -> startable (s0 n) = true) -> sys_ok (sys_init s0).
Proof.
  intros H. split; [|split].
  - intros d n m rest E. now destruct d.
  - intros i Hi. split; [now left|]. cbn [sn_started ss_node sys_init].
    split_and!; [now apply H | reflexivity..].
  - reflexivity.
Qed.

Lemma reachable_ok es s0 y : (forall n, n ∈ members -> startable (s0 n) = true) ->
  sys_run es (sys_init s0) = Some y -> sys_ok y.
Proof.
  intros H E. destruct (sys_run_ok es _ (sys_init_ok s0 H)) as (y' & E' & K). rewrite E in E'.
  now injection E' as <-.
Qed.

(** ** Barriers *)

(** How far the members can be apart: somebody who is in round [m] has the
    messages of all earlier rounds from everybody. *)
Lemma member_behind i j o nd nd' m w : member_ok j o nd' -> j ∈ members ->
  node_ok i (take (sn_pos nd) o) (cnt i o + length (sn_queue nd)) m w (sn_sync nd) -> (0 < m)%nat ->
  exists sent m' w', (m <= sent)%nat /\ node_ok j (take (sn_pos nd') o) sent m' w' (sn_sync nd').
Proof.
  intros [_ Mj] Hj K Hm. pose proof (no_cnt K j Hj). pose proof (cnt_take_le j (sn_pos nd) o).
  destruct (sn_started nd').
  - destruct Mj as (_ & m' & w' & K'). exists (cnt j o + length (sn_queue nd'))%nat, m', w'. split; [lia | exact K'].
  - destruct Mj as (_ & _ & _ & _ & E). lia.
Qed.

Lemma member_log i o nd : member_ok i o nd ->
  (exists m w, sn_started nd = true /\ node_ok i (take (sn_pos nd) o) (cnt i o + length (sn_queue nd)) m w (sn_sync nd))
  \/ sync_out (sn_sync nd) = [].
Proof.
  intros [_ M]. destruct (sn_started nd); [left | right; tauto]. destruct M as (_ & m & w & K). now exists m, w.
Qed.

Lemma elem_of_filter_take i m id : id ∈ List.filter (local i) (take m services) <->
  local i id = true /\ id ∈ take m services.
Proof. rewrite !list_elem_of_In, filter_In. tauto. Qed.

Lemma elem_of_take_le (l : list Z) a b id : (a <= b)%nat -> id ∈ take a l -> id ∈ take b l.
Proof. intros H. rewrite !elem_of_take. intros (i & Hi & L). exists i. split; [exact Hi | lia]. Qed.

Definition member_out (y : ssys) (n : Z) : list sync_effect := sync_out (sn_sync (ss_node y n)).

(** C4: a service is activated at a member only after every member that has the
    service has processed it, whatever the interleaving of the members. *)
Theorem sync_barrier s0 es y i j id :
  (forall n, n ∈ members -> startable (s0 n) = true) ->
  sys_run es (sys_init s0) = Some y -> i ∈ members -> j ∈ members ->
  id ∈ activated (member_out y i) -> id ∈ local_services (retr j) -> id ∈ processed (member_out y j).
Proof.
  intros H0 E Hi Hj A L%local_iff. destruct (reachable_ok es s0 y H0 E) as (_ & Hm & _). unfold member_out in *.
  destruct (member_log _ _ _ (Hm i Hi)) as [(m & w & _ & K)|O]; [|rewrite O in A; now apply not_elem_of_nil in A].
  rewrite (no_activated K), elem_of_filter_take in A. destruct A as [_ A].
  destruct m as [|m]; [now apply not_elem_of_nil in A|].
  destruct (member_behind i j _ _ _ _ _ (Hm j Hj) Hj K ltac:(lia)) as (sent & m' & w' & Hs & K').
  rewrite (no_processed K'), elem_of_filter_take. split; [exact L|].
  apply (elem_of_take_le _ _ _ _) with (2 := A). lia.
Qed.

Lemma filter_services i : i ∈ members -> List.filter (local i) services = local_services (retr i).
Proof.
  intros Hi. unfold SyncSystem.services. rewrite local_services_filter.
  induction service_ids as [|id l IH]; [reflexivity|]. cbn. destruct (existsb _ members) eqn:Ex; cbn.
  - now rewrite IH.
  - destruct (local i id) eqn:Lo; [|exact IH]. exfalso. apply not_true_iff_false in Ex. apply Ex, existsb_exists.
    exists i. split; [now apply list_elem_of_In | exact Lo].
Qed.

(** When the synchronisation completes at a member, every member has processed
    its own services, in the order of their identifiers and each once, and the
    member has activated its own in the same order. *)
Theorem sync_completed_all s0 es y i :
  (forall n, n ∈ members -> startable (s0 n) = true) ->
  sys_run es (sys_init s0) = Some y -> i ∈ members -> completed (member_out y i) = true ->
  activated (member_out y i) = local_services (retr i) /\
  forall j, j ∈ members -> processed (member_out y j) = local_services (retr j).
Proof.
  intros H0 E Hi C. destruct (reachable_ok es s0 y H0 E) as (_ & Hm & _). unfold member_out in *.
  destruct (member_log _ _ _ (Hm i Hi)) as [(m & w & _ & K)|O]; [|now rewrite O in C].
  pose proof (no_completed K) as Hc. rewrite C in Hc. symmetry in Hc. apply Nat.ltb_lt in Hc. pose proof (no_top K).
  split.
  - rewrite (no_activated K), take_ge by (unfold SyncSystem.top in *; lia). now apply filter_services.
  - intros j Hj. destruct (member_behind i j _ _ _ _ _ (Hm j Hj) Hj K ltac:(lia)) as (sent & m' & w' & Hs & K').
    rewrite (no_processed K'), take_ge by (unfold SyncSystem.top in *; lia). now apply filter_services.
Qed.

(** ** Progress *)

Definition weight (y : ssys) (n : Z) : nat :=
  Nat.b2n (sn_started (ss_node y n)) + (cnt n (ss_order y) + length (sn_queue (ss_node y n)))
  + cnt n (ss_order y) + sn_pos (ss_node y n).

Definition total (f : Z -> nat) (l : list Z) : nat := foldr (fun n a => (f n + a)%nat) 0%nat l.

Lemma total_ext f g l : (forall n, n ∈ l -> f n = g n) -> total f l = total g l.
Proof.
  unfold total. induction l as [|n l IH]; intros H; [reflexivity|]. cbn. rewrite (H n ltac:(left)). f_equal.
  apply IH. intros. apply H. now right.
Qed.

Lemma total_step f g l n : NoDup l -> n ∈ l -> g n = S (f n) -> (forall k, k <> n -> g k = f k) ->
  total g l = S (total f l).
Proof.
  intros Hd Hn Hg Hk. induction Hd as [|a l Ha _ IH]; [now apply not_elem_of_nil in Hn|].
  change (total ?h (a :: l)) with (h a + total h l)%nat. apply elem_of_cons in Hn as [<-|Hn].
  - rewrite Hg, (total_ext g f l); [lia|]. intros k K. apply Hk. intros ->. tauto.
  - rewrite IH, Hk by (try exact Hn; intros ->; tauto). lia.
Qed.

Lemma total_le f l b : (forall n, n ∈ l -> (f n <= b)%nat) -> (total f l <= length l * b)%nat.
Proof.
  induction l as [|a l IH]; intros H; [cbn; lia|].
  change (total f (a :: l)) with (f a + total f l)%nat. cbn [length]. specialize (H a) as Ha.
  assert (total f l <= length l * b)%nat by (apply IH; intros; apply H; now right). specialize (Ha ltac:(left)). lia.
Qed.

Hypothesis members_nodup : NoDup members.

Lemma order_length o : order_ok o -> length o = total (fun n => cnt n o) members.
Proof.
  induction o as [|[n x] o IH] using rev_ind; intros H.
  - clear. induction members as [|a l IH]; [reflexivity|]. exact IH.
  - assert (Ho : order_ok o).
    { intros d n' m rest E. apply (H d n' m (rest ++ [(n, x)])). now rewrite E, <- app_assoc. }
    rewrite length_app, (IH Ho), Nat.add_1_r. symmetry.
    destruct (H o n x [] eq_refl) as (Hn & _ & _).
    apply (total_step _ _ _ n); [exact members_nodup | exact Hn | |].
    + rewrite cnt_snoc, Z.eqb_refl. apply Nat.add_1_r.
    + intros k Hk. rewrite cnt_snoc. destruct (Z.eqb_spec n k); [congruence | apply Nat.add_0_r].
Qed.

(** Nothing can go on for ever: a bound on starts, messages and deliveries. *)
Definition round_bound : nat := length members * (3 + 2 * top + length members * S top).

Lemma weight_bound y : sys_ok y -> (total (weight y) members <= round_bound)%nat.
Proof.
  intros (Ho & Hm & _). apply total_le. intros n Hn. unfold weight. pose proof (member_sent _ _ _ (Hm n Hn)) as Hs.
  assert (Hp : (sn_pos (ss_node y n) <= length (ss_order y))%nat).
  { destruct (Hm n Hn) as [_ M]. destruct (sn_started (ss_node y n)); [apply M|]. destruct M as (_ & _ & -> & _). lia. }
  rewrite (order_length _ Ho) in Hp.
  assert (Hb : (total (fun n => cnt n (ss_order y)) members <= length members * S top)%nat).
  { apply total_le. intros k Hk. pose proof (member_sent _ _ _ (Hm k Hk)). lia. }
  destruct (sn_started (ss_node y n)); cbn [Nat.b2n]; lia.
Qed.

Lemma run_at_order n f y y' : run_at n f y = Some y' -> ss_order y' = ss_order y /\
  (forall k, k <> n -> ss_node y' k = ss_node y k) /\
  exists s, f (sn_sync (ss_node y n)) = Some s /\ ss_node y' n = ss_node y n <| sn_sync := s |>
    <| sn_queue ::= fun q => q ++ mcasts (drop (length (sync_out (sn_sync (ss_node y n)))) (sync_out s)) |>.
Proof.
  unfold run_at. destruct (f _) as [s|]; [|discriminate]. intros [= <-]. split; [reflexivity|]. split.
  - intros k Hk. now rewrite set_node_ne.
  - exists s. split; [reflexivity | now rewrite set_node_eq].
Qed.

Lemma total_lt f g l n : n ∈ l -> (f n < g n)%nat -> (forall k, (f k <= g k)%nat) -> (total f l < total g l)%nat.
Proof.
  intros Hn Hg Hk. induction l as [|a l IH]; [now apply not_elem_of_nil in Hn|].
  change (total ?h (a :: l)) with (h a + total h l)%nat. pose proof (Hk a).
  apply elem_of_cons in Hn as [<-|Hn]; [|specialize (IH Hn); lia].
  assert (total f l <= total g l)%nat; [|lia]. clear -Hk. induction l as [|b l IH]; [reflexivity|].
  change (total ?h (b :: l)) with (h b + total h l)%nat. specialize (Hk b). lia.
Qed.

Lemma node_progress n y y' : n ∈ members -> ss_order y' = ss_order y ->
  (forall k, k <> n -> ss_node y' k = ss_node y k) -> (weight y n < weight y' n)%nat ->
  (total (weight y) members < total (weight y') members)%nat.
Proof.
  intros Hn Eo En Hw. apply (total_lt _ _ _ n Hn Hw). intros k. destruct (decide (k = n)) as [->|Ne]; [lia|].
  unfold weight. now rewrite Eo, En.
Qed.

Definition progress (y : ssys) : Prop :=
  exists e y', sys_step e y = Some y' /\ sys_ok y' /\ (total (weight y) members < total (weight y') members)%nat.

Lemma start_progress i y : sys_ok y -> i ∈ members -> sn_started (ss_node y i) = false -> progress y.
Proof.
  intros H Hi St. destruct (start_step i [] [] [] y H) as (y' & E & H'). exists (SStart i [] [] []), y'. split_and!; [exact E | exact H'|].
  cbn [SyncSystem.sys_step] in E. rewrite bool_decide_true, St in E by exact Hi. cbn [andb negb] in E.
  destruct (run_at i _ y) as [y1|] eqn:R; [|discriminate]. cbn [mbind option_bind] in E. injection E as <-.
  destruct (run_at_order _ _ _ _ R) as (Eo & En & s & _ & Es).
  apply (node_progress i); [exact Hi | exact Eo | intros k Hk; rewrite set_node_ne by exact Hk; now apply En|].
  unfold weight. rewrite set_node_eq, Es, St.
  change (ss_order (set_node i _ y1)) with (ss_order y1). rewrite Eo. unfold upd. cbn [sn_started sn_queue sn_pos Nat.b2n].
  rewrite length_app. lia.
Qed.

Lemma order_progress i y : sys_ok y -> i ∈ members -> sn_queue (ss_node y i) <> [] -> progress y.
Proof.
  intros H Hi Q. destruct (order_step i y H) as (y' & E & H'). exists (SOrder i), y'. split_and!; [exact E | exact H'|].
  cbn [SyncSystem.sys_step] in E. destruct (sn_queue (ss_node y i)) as [|x q] eqn:Eq; [easy|]. injection E as <-.
  assert (C : forall k, cnt k (ss_order y ++ [(i, x)]) = (cnt k (ss_order y) + Nat.b2n (Z.eqb i k))%nat) by (intros; apply cnt_snoc).
  apply (total_lt _ _ _ i Hi); unfold weight.
  - rewrite set_node_eq. change (ss_order (set_node i ?nd ?z)) with (ss_order z).
    change (ss_order (y <| ss_order ::= _ |>)) with (ss_order y ++ [(i, x)]). rewrite C, Z.eqb_refl, Eq.
    unfold upd. cbn [sn_started sn_queue sn_pos Nat.b2n length]. lia.
  - intros k. change (ss_order (set_node i ?nd ?z)) with (ss_order z).
    change (ss_order (y <| ss_order ::= _ |>)) with (ss_order y ++ [(i, x)]). rewrite C.
    destruct (decide (k = i)) as [->|Ne]; [rewrite set_node_eq, Eq, Z.eqb_refl | rewrite set_node_ne by exact Ne];
      unfold upd; cbn [sn_started sn_queue sn_pos Nat.b2n length ss_node]; lia.
Qed.

Lemma deliver_progress i y : sys_ok y -> i ∈ members -> sn_started (ss_node y i) = true ->
  (sn_pos (ss_node y i) < length (ss_order y))%nat -> progress y.
Proof.
  intros H Hi St P. destruct (node_deliver_step i y H) as (y' & E & H'). exists (SDeliver i), y'. split_and!; [exact E | exact H'|].
  cbn [SyncSystem.sys_step] in E. rewrite bool_decide_true, St in E by exact Hi. cbn [andb] in E.
  destruct (ss_order y !! _) as [[n x]|] eqn:L; [|apply lookup_ge_None in L; lia].
  destruct (run_at i _ y) as [y1|] eqn:R; [|discriminate]. cbn [mbind option_bind] in E. injection E as <-.
  destruct (run_at_order _ _ _ _ R) as (Eo & En & s & _ & Es).
  apply (node_progress i); [exact Hi | exact Eo | intros k Hk; rewrite set_node_ne by exact Hk; now apply En|].
  unfold weight. rewrite set_node_eq, Es.
  change (ss_order (set_node i _ y1)) with (ss_order y1). rewrite Eo. unfold upd. cbn [sn_started sn_queue sn_pos].
  rewrite length_app. lia.
Qed.

Lemma work_progress i y d sent m w : sys_ok y -> i ∈ members -> sn_started (ss_node y i) = true ->
  node_ok i d sent m w (sn_sync (ss_node y i)) -> my_schedwrk (sn_sync (ss_node y i)) = true -> progress y.
Proof.
  intros H Hi St K W. destruct (work_step i 0 y H) as (y' & E & H'). exists (SWork i 0), y'. split_and!; [exact E | exact H'|].
  cbn [SyncSystem.sys_step] in E. rewrite bool_decide_true, St in E by exact Hi. cbn [andb] in E.
  destruct (work_ok members r retr i _ _ _ _ _ 0 K Hi) as (s & k & Ew & O & Alt).
  rewrite (run_at_spec i _ y s k Ew O) in E. injection E as <-.
  destruct Alt as [(_ & _ & [F|F])|(Mc & _ & _)]; [congruence | easy |].
  apply (node_progress i); [exact Hi | reflexivity | intros j Hj; now rewrite set_node_ne by exact Hj|].
  unfold weight. rewrite set_node_eq, Mc. change (ss_order (set_node i ?nd ?z)) with (ss_order z).
  unfold upd. cbn [sn_started sn_queue sn_pos]. rewrite length_app. cbn [length]. lia.
Qed.

(** When every message is delivered and nobody has work, nobody waits: the member
    that the others wait for would have work. *)
Lemma quiescent_done y : sys_ok y ->
  (forall i, i ∈ members -> sn_started (ss_node y i) = true /\ sn_queue (ss_node y i) = [] /\
     sn_pos (ss_node y i) = length (ss_order y) /\ my_schedwrk (sn_sync (ss_node y i)) = false) ->
  forall i, i ∈ members -> completed (member_out y i) = true.
Proof.
  intros (_ & Hm & _) Hq.
  assert (N : forall i, i ∈ members -> exists m w, node_ok i (ss_order y) (cnt i (ss_order y)) m w (sn_sync (ss_node y i))).
  { intros i Hi. destruct (Hq i Hi) as (St & Q & P & _). destruct (Hm i Hi) as [_ M]. rewrite St, Q, P in M.
    destruct M as (_ & m & w & K). cbn [length] in K. rewrite firstn_all, Nat.add_0_r in K. now exists m, w. }
  intros i Hi. destruct (N i Hi) as (m & w & K). unfold member_out. rewrite (no_completed K). apply Nat.ltb_lt.
  destruct (Nat.le_gt_cases m top) as [T|T]; [|exact T]. exfalso.
  destruct (no_open K T) as (n & Hn & Cn). destruct (N n Hn) as (m' & w' & K').
  pose proof (no_cnt K' n Hn) as C1. pose proof (no_sent K') as C2.
  destruct (no_open K' ltac:(lia)) as (k & Hk & Ck). pose proof (no_cnt K k Hk) as C3.
  assert (Em : m' = m) by lia. rewrite Em in *. assert (w' = false) by (destruct w'; [cbn in C2; lia | reflexivity]). subst w'.
  assert (m <> 0%nat) by (intros Z0; now discriminate (no_first K' Z0)).
  destruct (Hq n Hn) as (_ & _ & _ & W). rewrite (no_sched K') in W.
  rewrite (proj2 (Nat.ltb_lt 0 m)), (proj2 (Nat.leb_le m top)) in W by lia. discriminate.
Qed.

Lemma progress_or_done y : sys_ok y -> progress y \/ forall i, i ∈ members -> completed (member_out y i) = true.
Proof.
  intros H.
  destruct (decide (Exists (fun i => sn_started (ss_node y i) = false) members)) as [X|Ns].
  { apply Exists_exists in X as (i & Hi & St). left. now apply (start_progress i). }
  destruct (decide (Exists (fun i => sn_queue (ss_node y i) <> []) members)) as [X|Nq].
  { apply Exists_exists in X as (i & Hi & Q). left. now apply (order_progress i). }
  assert (St : forall i, i ∈ members -> sn_started (ss_node y i) = true).
  { intros i Hi. destruct (sn_started (ss_node y i)) eqn:S; [reflexivity|]. destruct Ns. apply Exists_exists. now exists i. }
  destruct (decide (Exists (fun i => sn_pos (ss_node y i) <> length (ss_order y)) members)) as [X|Np].
  { apply Exists_exists in X as (i & Hi & P). left. apply (deliver_progress i); [exact H | exact Hi | now apply St|].
    destruct (proj1 (proj2 H) i Hi) as [_ M]. rewrite St in M by exact Hi. destruct M as (Pi & _). lia. }
  destruct (decide (Exists (fun i => my_schedwrk (sn_sync (ss_node y i)) = true) members)) as [X|Nw].
  { apply Exists_exists in X as (i & Hi & W). left. destruct (proj1 (proj2 H) i Hi) as [_ M].
    rewrite St in M by exact Hi. destruct M as (_ & m & w & K). eapply work_progress; [exact H | exact Hi | now apply St | exact K | exact W]. }
  right. apply quiescent_done; [exact H|]. intros i Hi. split_and!; [now apply St | | |].
  - destruct (sn_queue (ss_node y i)) eqn:Q; [reflexivity|]. destruct Nq. apply Exists_exists. exists i. now rewrite Q.
  - destruct (decide (sn_pos (ss_node y i) = length (ss_order y))); [assumption|]. destruct Np. apply Exists_exists. now exists i.
  - destruct (my_schedwrk (sn_sync (ss_node y i))) eqn:W; [|reflexivity]. destruct Nw. apply Exists_exists. now exists i.
Qed.

Lemma completes_within b y : sys_ok y -> (round_bound <= b + total (weight y) members)%nat ->
  exists es y', (length es <= b)%nat /\ sys_run es y = Some y' /\ forall i, i ∈ members -> completed (member_out y' i) = true.
Proof.
  revert y. induction b as [|b IH]; intros y H Hb; (destruct (progress_or_done y H) as [(e & y1 & E & H1 & L)|D];
    [|exists [], y; split_and!; [cbn; lia | reflexivity | exact D]]).
  - pose proof (weight_bound y1 H1). lia.
  - destruct (IH y1 H1 ltac:(lia)) as (es & y' & Hl & R & D). exists (e :: es), y'. split_and!; [cbn; lia | | exact D].
    cbn [SyncSystem.sys_run]. now rewrite E.
Qed.

(** C5: no round can get stuck: from every state the members can reach, with any
    interleaving so far, at most [round_bound] further steps complete the
    synchronisation at all of them.  The messages of the service are taken to be
    accepted by totempg: the code ignores a refusal. *)
Theorem sync_completes s0 es y :
  (forall n, n ∈ members -> startable (s0 n) = true) ->
  sys_run es (sys_init s0) = Some y ->
  exists es' y', (length es' <= round_bound)%nat /\ sys_run es' y = Some y' /\
    forall i, i ∈ members -> completed (member_out y' i) = true.
Proof. intros H0 E. apply completes_within; [now apply (reachable_ok es s0)|]. lia. Qed.

(** C10: no interleaving of the members makes one of them fail an assertion, leave an
    array or call a missing callback, and every member can start the next round. *)
Theorem sync_runs s0 es :
  (forall n, n ∈ members -> startable (s0 n) = true) ->
  exists y, sys_run es (sys_init s0) = Some y /\ forall n, n ∈ members -> startable (sn_sync (ss_node y n)) = true.
Proof.
  intros H0. destruct (sys_run_ok es _ (sys_init_ok s0 H0)) as (y & E & (_ & Hm & _)). exists y. split; [exact E|].
  intros n Hn. destruct (Hm n Hn) as [_ M]. destruct (sn_started (ss_node y n)); [|apply M].
  destruct M as (_ & m & w & K). unfold startable. rewrite (no_sched K), (no_process K).
  destruct (Nat.leb m top) eqn:L; [|now rewrite andb_false_r]. rewrite (no_state K) by now apply Nat.leb_le.
  destruct m; [reflexivity|]. now destruct w.
Qed.

Lemma take_diff (l : list Z) a id : id ∈ take (S a) l -> id ∉ take a l -> l !! a = Some id.
Proof.
  intros (j & L & Hj)%elem_of_take Hn. assert (j = a \/ (j < a)%nat) as [->|H] by lia; [exact L|].
  destruct Hn. apply elem_of_take. now exists j.
Qed.

(** C17: a configuration change during a round aborts the service that the member has
    processed and not activated yet, stops its work and makes it deaf to the
    messages of the round. *)
Theorem interrupted_service_aborted s0 es y n id trans gone joined r' :
  (forall n, n ∈ members -> startable (s0 n) = true) ->
  sys_run es (sys_init s0) = Some y -> n ∈ members ->
  id ∈ processed (member_out y n) -> id ∉ activated (member_out y n) ->
  exists s', confchg_fn (retr n) TOTEM_CONFIGURATION_TRANSITIONAL trans gone joined r' (sn_sync (ss_node y n)) = Some s' /\
    SyncAbort id ∈ sync_out s' /\ my_schedwrk s' = false /\ sy_ring_id s' = zero_ring_id.
Proof.
  intros H0 E Hn P A. destruct (reachable_ok es s0 y H0 E) as (_ & Hm & _). unfold member_out in *.
  destruct (member_log _ _ _ (Hm n Hn)) as [(m & w & _ & K)|O]; [|rewrite O in P; now apply not_elem_of_nil in P].
  rewrite (no_processed K), elem_of_filter_take in P. destruct P as [L P].
  rewrite (no_activated K), elem_of_filter_take, (no_sent K) in *.
  destruct w; cbn [Nat.b2n] in P; [|rewrite Nat.add_0_r in P; tauto].
  destruct m as [|m]; [now apply not_elem_of_nil in P|].
  rewrite Nat.add_1_r in P. cbn [pred] in *.
  assert (Hid : services !! m = Some id) by (apply take_diff; tauto).
  assert (T : (S m <= top)%nat) by (apply lookup_lt_Some in Hid; exact Hid).
  destruct (lookup_service members r retr _ _ _ _ _ _ _ _ K Hn ltac:(lia) Hid) as (e & He & Eid).
  destruct (no_entries K m e He) as [Le _]. rewrite Eid, L in Le.
  unfold confchg_fn. rewrite (no_process K), (proj2 (Nat.leb_le _ _) T). eexists. split; [reflexivity|].
  unfold sync_save_transitional. set (s := sn_sync (ss_node y n)) in *.
  set (s1 := s <| sync_in_process := true |> <| corosync_ring_id := r' |>
     <| sync_out ::= fun o => o ++ confchg_notify (retr n) TOTEM_CONFIGURATION_TRANSITIONAL trans gone joined r' |>).
  assert (Es : my_state s1 = SYNC_BARRIER /\ my_service_list s1 !! Z.to_nat (my_processing_idx s1) = Some e).
  { change (my_state s1) with (my_state s). change (my_service_list s1) with (my_service_list s).
    change (my_processing_idx s1) with (my_processing_idx s).
    rewrite (no_state K T), (no_idx K), Nat2Z.id. split; [reflexivity | exact He]. }
  destruct Es as [Es1 Es2]. unfold sync_abort. rewrite Es1, Es1, Es2, Eid, Le, (local_loaded _ _ _ L). cbn [andb].
  split_and!; [|change (my_schedwrk s = false); rewrite (no_sched K); apply andb_false_r | reflexivity].
  change (SyncAbort id ∈ sync_out s1 ++ [SyncAbort id]). apply elem_of_app. right. now apply list_elem_of_singleton.
Qed.

End Round.

(** ** Two members with different services *)

Definition demo_retr (n id : Z) : option sync_callbacks :=
  if (n =? 1) && ((id =? 0) || (id =? 2)) || (n =? 2) && ((id =? 1) || (id =? 2)) then Some (mk_sync_callbacks true true 10)
  else if id =? 5 then Some (mk_sync_callbacks false true 10) else None.

Definition demo_members : list Z := [1; 2].
Definition demo_sync_ring : ring_id := mk_ring 1 8.

Definition demo_run (es : list sync_event) : option ssys :=
  sys_run demo_members demo_sync_ring demo_retr es (sys_init (fun _ => sync_initial)).
Definition demo_state (es : list sync_event) : ssys := default (sys_init (fun _ => sync_initial)) (demo_run es).

(** Member 2 is still processing service 0, which it does not have. *)
Definition demo_half : list sync_event :=
  [SStart 1 [1] [] [1; 2]; SStart 2 [2] [7] [1; 2]; SOrder 1; SOrder 2; SDeliver 1; SDeliver 2; SDeliver 1; SWork 1 (-1); SWork 1 0; SDeliver 2;
   SOrder 1; SDeliver 1].

Definition demo_full : list sync_event :=
  demo_half ++ concat (repeat [SOrder 1; SOrder 2; SDeliver 1; SDeliver 1; SDeliver 2; SDeliver 2; SWork 2 0; SWork 1 0] 5).

Lemma demo_idle : forall n, n ∈ demo_members -> startable ((fun _ => sync_initial) n) = true.
Proof. reflexivity. Qed.

Lemma demo_fit : (length demo_members <= PROCESSOR_COUNT_MAX)%nat.
Proof. vm_compute. lia. Qed.

Lemma demo_names : forall n, n ∈ demo_members -> names_fit (demo_retr n) = true.
Proof. by_compute_forall. Qed.

Lemma demo_half_run : demo_run demo_half = Some (demo_state demo_half).
Proof. apply some_default. vm_compute. reflexivity. Qed.

Lemma demo_full_run : demo_run demo_full = Some (demo_state demo_full).
Proof. apply some_default. vm_compute. reflexivity. Qed.

Lemma sync_barrier_witness :
  activated (member_out (demo_state demo_full) 1) = [0; 2] /\ 2 ∈ processed (member_out (demo_state demo_full) 2).
Proof.
  split; [by_compute|].
  apply (sync_barrier demo_members demo_sync_ring demo_retr demo_fit demo_names _ _ _ 1 2 2 demo_idle demo_full_run); by_compute.
Defined.

Lemma sync_completed_all_witness : activated (member_out (demo_state demo_full) 1) = local_services (demo_retr 1).
Proof.
  refine (proj1 (sync_completed_all demo_members demo_sync_ring demo_retr demo_fit demo_names _ _ _ 1 demo_idle demo_full_run _ _)); by_compute.
Defined.

Lemma sync_completes_witness : exists es' y', (length es' <= round_bound demo_members demo_retr)%nat /\
  sys_run demo_members demo_sync_ring demo_retr es' (demo_state demo_half) = Some y' /\
  forall i, i ∈ demo_members -> completed (member_out y' i) = true.
Proof.
  refine (sync_completes demo_members demo_sync_ring demo_retr demo_fit demo_names _ _ _ _ demo_idle demo_half_run); by_compute.
Defined.

Lemma sync_runs_witness : exists y, demo_run demo_half = Some y /\
  forall n, n ∈ demo_members -> startable (sn_sync (ss_node y n)) = true.
Proof. exact (sync_runs demo_members demo_sync_ring demo_retr demo_fit demo_names _ demo_half demo_idle). Defined.

Lemma interrupted_service_aborted_witness : exists s',
  confchg_fn (demo_retr 1) TOTEM_CONFIGURATION_TRANSITIONAL [1] [2] [] (mk_ring 1 12) (sn_sync (ss_node (demo_state demo_half) 1)) = Some s' /\
  SyncAbort 0 ∈ sync_out s' /\ my_schedwrk s' = false /\ sy_ring_id s' = zero_ring_id.
Proof.
  apply (interrupted_service_aborted demo_members demo_sync_ring demo_retr demo_fit demo_names _ _ _ 1 0 [1] [2] [] (mk_ring 1 12) demo_idle demo_half_run);
    by_compute.
Defined.
