(* ===== verification/Ykd.v ===== *)
(** * The YKD quorum provider (exec/vsf_ykd.c)

    Dynamic voting: after every change of the configuration the members exchange
    their states, decide whether the new view holds a part of the last primary
    component, and, if so, attempt to form the next one.  Arrays are lists of
    [YKD_PROCESSOR_COUNT_MAX] slots next to their entry counts; an access outside
    of one is [None]. *)
From S2P Require Import Prelude VoteQuorum SortQueue Endian TotemMemb TotemSrp.

Definition YKD_PROCESSOR_COUNT_MAX : nat := 32.
Definition YKD_HEADER_SENDSTATE : Z := 0.
Definition YKD_HEADER_ATTEMPT : Z := 1.

Inductive ykd_mode := YKD_MODE_SENDSTATE | YKD_MODE_ATTEMPT.

Record ykd_session := mk_ykd_session {
  ys_member_list : list Z;
  ys_member_list_entries : Z;
  ys_session_id : Z
}.
#[export] Instance ykd_session_eta : Etable ykd_session := fun s =>
  mk_ykd_session (ys_member_list s) (ys_member_list_entries s) (ys_session_id s).

Record ykd_state := mk_ykd_state {
  last_primary : ykd_session;
  last_formed : list ykd_session;
  last_formed_entries : Z;
  ambiguous_sessions : list ykd_session;
  ambiguous_sessions_entries : Z;
  session_id : Z
}.
#[export] Instance ykd_state_eta : Etable ykd_state := fun s =>
  mk_ykd_state (last_primary s) (last_formed s) (last_formed_entries s) (ambiguous_sessions s)
    (ambiguous_sessions_entries s) (session_id s).

Record state_received := mk_state_received { sr_nodeid : Z; sr_received : bool; sr_ykd_state : ykd_state }.
#[export] Instance state_received_eta : Etable state_received := fun s =>
  mk_state_received (sr_nodeid s) (sr_received s) (sr_ykd_state s).

(** A message: the id of the header, and the state behind it if there is one. *)
Record ykd_msg := mk_ykd_msg { ym_id : Z; ym_state : option ykd_state }.

Inductive ykd_effect :=
| YkdMcast (m : ykd_msg)
| YkdPrimary (view_list : list Z) (designated : bool) (r : ring_id).

Record ykd := mk_ykd {
  ykd_own : ykd_state;
  state_received_process : list state_received;
  state_received_confchg_entries : Z;
  state_received_process_entries : Z;
  yk_mode : ykd_mode;
  ykd_view_list : list Z;
  ykd_view_list_entries : Z;
  session_id_max : Z;
  last_primary_max : ykd_session;
  ambiguous_sessions_max : list ykd_session;
  ykd_primary_designated : bool;
  ykd_ring_id : ring_id;
  first_run : bool;
  state_send_pending : bool;
  attempt_send_pending : bool;
  ykd_out : list ykd_effect
}.
#[export] Instance ykd_eta : Etable ykd := fun y =>
  mk_ykd (ykd_own y) (state_received_process y) (state_received_confchg_entries y) (state_received_process_entries y)
    (yk_mode y) (ykd_view_list y) (ykd_view_list_entries y) (session_id_max y) (last_primary_max y) (ambiguous_sessions_max y)
    (ykd_primary_designated y) (ykd_ring_id y) (first_run y) (state_send_pending y) (attempt_send_pending y) (ykd_out y).

Definition zero_session : ykd_session := mk_ykd_session (replicate YKD_PROCESSOR_COUNT_MAX 0) 0 0.
Definition zero_sessions : list ykd_session := replicate YKD_PROCESSOR_COUNT_MAX zero_session.
Definition zero_ykd_state : ykd_state := mk_ykd_state zero_session zero_sessions 0 zero_sessions 0 0.
Definition zero_received : state_received := mk_state_received 0 false zero_ykd_state.

(** The static variables of a fresh process, after [ykd_init]. *)
Definition ykd_init : ykd :=
  mk_ykd zero_ykd_state (replicate YKD_PROCESSOR_COUNT_MAX zero_received) 0 0 YKD_MODE_SENDSTATE (replicate YKD_PROCESSOR_COUNT_MAX 0) 0 0
    zero_session [] false (mk_ring 0 0) true false false [].

Definition view (y : ykd) : list Z := take (Z.to_nat (ykd_view_list_entries y)) (ykd_view_list y).

Definition ykd_emit (e : ykd_effect) (y : ykd) : ykd := y <| ykd_out ::= fun o => o ++ [e] |>.

(** ** Messages

    The scheduled work sends what the state is when it runs; [ok] when the
    multicast is accepted, otherwise the work stays scheduled. *)

Definition ykd_state_send (y : ykd) : ykd := y <| state_send_pending := true |>.

Definition ykd_state_send_msg (ok : bool) (y : ykd) : ykd :=
  if state_send_pending y && ok
  then ykd_emit (YkdMcast (mk_ykd_msg YKD_HEADER_SENDSTATE (Some (ykd_own y)))) (y <| state_send_pending := false |>)
  else y.

Definition ykd_attempt_send (y : ykd) : ykd := y <| attempt_send_pending := true |>.

Definition ykd_attempt_send_msg (ok : bool) (y : ykd) : ykd :=
  if attempt_send_pending y && ok
  then ykd_emit (YkdMcast (mk_ykd_msg YKD_HEADER_ATTEMPT None)) (y <| attempt_send_pending := false |>)
  else y.

(** ** The decision *)

(** The first [n] elements of an array. *)
Definition array_take {A} (n : Z) (a : list A) : option (list A) :=
  if Nat.leb (Z.to_nat n) (length a) then Some (take (Z.to_nat n) a) else None.

(** The body of the loop of [compute] on one received state. *)
Definition compute_state (acc : Z * ykd_session * list ykd_session) (s : ykd_state) : option (Z * ykd_session * list ykd_session) :=
  let '(sid, lp, amb) := acc in
  let sid := if sid <? session_id s then session_id s else sid in
  let lp := if ys_session_id lp <? ys_session_id (last_primary s) then last_primary s else lp in
  sessions ← array_take (ambiguous_sessions_entries s) (ambiguous_sessions s);
  let amb := amb ++ List.filter (fun a => ys_session_id lp <? ys_session_id a) sessions in
  if Nat.leb (length amb) YKD_PROCESSOR_COUNT_MAX then Some (sid, lp, amb) else None.

Fixpoint compute_states (acc : Z * ykd_session * list ykd_session) (l : list ykd_state) : option (Z * ykd_session * list ykd_session) :=
  match l with [] => Some acc | s :: l => acc ← compute_state acc s; compute_states acc l end.

Definition compute (y : ykd) : option ykd :=
  first ← state_received_process y !! 0%nat;
  received ← array_take (state_received_process_entries y) (state_received_process y);
  '(sid, lp, amb) ← compute_states (0, last_primary (sr_ykd_state first), []) (map sr_ykd_state received);
  Some (y <| session_id_max := sid |> <| last_primary_max := lp |> <| ambiguous_sessions_max := amb |>).

(** [subquorum]: at least half of the session is in the list. *)
Definition intersections (member_list : list Z) (session : list Z) : Z :=
  foldr (fun i n => Z.of_nat (length (List.filter (Z.eqb i) session)) + n) 0 member_list.

Definition subquorum (member_list : list Z) (session : ykd_session) : option bool :=
  members ← array_take (ys_member_list_entries session) (ys_member_list session);
  let n := intersections member_list members in
  Some ((n =? ys_member_list_entries session - n) || (ys_member_list_entries session - n <? n)).

Fixpoint subquorums (view : list Z) (l : list ykd_session) : option bool :=
  match l with
  | [] => Some true
  | a :: l => match subquorum view a with Some true => subquorums view l | r => r end
  end.

Definition ykd_decide (y : ykd) : option bool :=
  match subquorum (view y) (last_primary_max y) with
  | Some true => subquorums (view y) (ambiguous_sessions_max y)
  | r => r
  end.

(** ** Byte order *)

(** The first [n] elements of an array converted, the others left alone. *)
Definition convert_first {A} (f : A -> option A) (n : Z) (a : list A) : option (list A) :=
  l ← array_take n a; l ← mapM f l; Some (l ++ drop (Z.to_nat n) a).

Definition ykd_session_endian_convert (s : ykd_session) : option ykd_session :=
  let entries := swab32_int (ys_member_list_entries s) in
  l ← convert_first (fun n => Some (swab32 n)) entries (ys_member_list s);
  Some (mk_ykd_session l entries (swab32_int (ys_session_id s))).

Definition ykd_state_endian_convert (s : ykd_state) : option ykd_state :=
  lp ← ykd_session_endian_convert (last_primary s);
  let fe := swab32_int (last_formed_entries s) in
  let ae := swab32_int (ambiguous_sessions_entries s) in
  lf ← convert_first ykd_session_endian_convert fe (last_formed s);
  a ← convert_first ykd_session_endian_convert ae (ambiguous_sessions s);
  Some (mk_ykd_state lp lf fe a ae (swab32_int (session_id s))).

(** ** Delivery *)

(** The first position of [nodeid] in the first [n] slots, or [n]. *)
Fixpoint state_position (nodeid : Z) (n : nat) (l : list state_received) : nat :=
  match n, l with
  | S n, s :: l => if nodeid =? sr_nodeid s then 0%nat else S (state_position nodeid n l)
  | _, _ => 0%nat
  end.

Definition ykd_attempt_form (y : ykd) : option ykd :=
  let k := ambiguous_sessions_entries (ykd_own y) in
  a ← arr_get (ambiguous_sessions (ykd_own y)) k;
  let a := a <| ys_member_list := view y ++ drop (length (view y)) (ys_member_list a) |>
             <| ys_member_list_entries := ykd_view_list_entries y |> in
  l ← arr_set (ambiguous_sessions (ykd_own y)) k a;
  let own := ykd_own y <| session_id := s32 (session_id_max y + 1) |> <| ambiguous_sessions := l |>
               <| ambiguous_sessions_entries := k + 1 |> in
  Some (ykd_attempt_send (y <| ykd_own := own |>)).

Definition ykd_primary (y : ykd) : ykd :=
  let y := y <| ykd_primary_designated := true |> in
  let y := ykd_emit (YkdPrimary (view y) true (ykd_ring_id y)) y in
  let p := mk_ykd_session (ykd_view_list y) (ykd_view_list_entries y) (session_id (ykd_own y)) in
  y <| ykd_own := ykd_own y <| last_primary := p |> <| ambiguous_sessions_entries := 0 |> |>.

(** The state of a member arrives; with the last one the members try to form a
    component. *)
Definition ykd_deliver_state (pos : nat) (st : ykd_state) (all_received : bool) (y : ykd) : option ykd :=
  let n := Z.to_nat (state_received_confchg_entries y) in
  l ← (if Nat.ltb pos (length (state_received_process y))
       then Some (alter (fun s => s <| sr_ykd_state := st |>) pos (state_received_process y)) else None);
  let y := y <| state_received_process := l |> in
  if all_received then
    let y := y <| state_received_process := map (fun s => s <| sr_received := false |>) (take n l) ++ drop n l |>
               <| yk_mode := YKD_MODE_ATTEMPT |> in
    y ← compute y;
    match ykd_decide y with
    | Some true => ykd_attempt_form y
    | Some false => Some y
    | None => None
    end
  else Some y.

Definition ykd_deliver_fn (nodeid : Z) (m : ykd_msg) (endian_conversion_required : bool) (y : ykd) : option ykd :=
  st ← match ym_state m with
       | Some s => if endian_conversion_required then s ← ykd_state_endian_convert s; Some (Some s) else Some (Some s)
       | None => Some None
       end;
  let n := Z.to_nat (state_received_confchg_entries y) in
  let pos := state_position nodeid n (state_received_process y) in
  let y := y <| state_received_process ::= fun l =>
                  if Nat.ltb pos n then alter (fun s => s <| sr_received := true |>) pos l else l |> in
  received ← array_take (state_received_confchg_entries y) (state_received_process y);
  let all_received := forallb sr_received received in
  match yk_mode y with
  | YKD_MODE_SENDSTATE =>
      if ym_id m =? YKD_HEADER_ATTEMPT then Some y else st ← st; ykd_deliver_state pos st all_received y
  | YKD_MODE_ATTEMPT =>
      if ym_id m =? YKD_HEADER_SENDSTATE then Some y
      else Some (if all_received then ykd_primary y else y)
  end.

(** ** Configuration changes *)

Definition ykd_confchg_fn (self : Z) (t : confchg_type) (member_list : list Z) (r : ring_id) (y : ykd) : option ykd :=
  match t with
  | TOTEM_CONFIGURATION_TRANSITIONAL => Some y
  | TOTEM_CONFIGURATION_REGULAR =>
      let y := y <| ykd_ring_id := r |> in
      let y := if first_run y
               then y <| ykd_own ::= fun o =>
                      o <| last_primary := mk_ykd_session (<[0%nat := self]> (ys_member_list (last_primary o))) 1 0 |> |>
                      <| first_run := false |>
               else y in
      if Nat.leb (length member_list) YKD_PROCESSOR_COUNT_MAX then
        let y := y <| ykd_view_list ::= fun l => member_list ++ drop (length member_list) l |>
                   <| ykd_view_list_entries := Z.of_nat (length member_list) |> <| yk_mode := YKD_MODE_SENDSTATE |>
                   <| ykd_primary_designated := false |> in
        let y := ykd_emit (YkdPrimary member_list false r) y in
        let y := y <| state_received_process := map (fun n => mk_state_received n false zero_ykd_state) member_list
                        ++ replicate (YKD_PROCESSOR_COUNT_MAX - length member_list) zero_received |>
                   <| state_received_confchg_entries := Z.of_nat (length member_list) |>
                   <| state_received_process_entries := Z.of_nat (length member_list) |> in
        Some (ykd_state_send y)
      else None
  end.
