(* ===== verification/YkdProps.v ===== *)
(** * The YKD quorum provider: theorems

    Which views can follow one primary component, the agreement of the members
    of a view, and the two ways in which two primary components can exist at the
    same time. *)
From S2P Require Import Prelude VoteQuorum SortQueue Endian TotemMemb TotemSrp Ykd.

(** ** Subquorums *)

Definition inb (l : list Z) (x : Z) : bool := existsb (Z.eqb x) l.

Lemma inb_spec l x : inb l x = true <-> x ∈ l.
Proof.
  unfold inb. rewrite existsb_exists, list_elem_of_In. split.
  - intros (y & Hy & ->%Z.eqb_eq). exact Hy.
  - intros H. exists x. split; [exact H | apply Z.eqb_refl].
Qed.

Lemma count_nodup v x : NoDup v -> foldr (fun i n => (if i =? x then 1 else 0) + n) 0 v = if inb v x then 1 else 0.
Proof.
  induction 1 as [|a v Ha _ IH]; [reflexivity|]. cbn [foldr]. rewrite IH. unfold inb in *. cbn. rewrite (Z.eqb_sym x a).
  destruct (Z.eqb_spec a x) as [->|]; cbn; [|lia].
  destruct (existsb (Z.eqb x) v) eqn:E; [|reflexivity]. destruct Ha. now apply inb_spec.
Qed.

(** The double loop counts the members of the session that are in the list. *)
Lemma intersections_spec v m : NoDup v -> intersections v m = Z.of_nat (length (List.filter (inb v) m)).
Proof.
  intros Hv. induction m as [|x m IH].
  - cbn. clear. unfold intersections. induction v as [|a v IH]; [reflexivity | exact IH].
  - assert (S : intersections v (x :: m) = foldr (fun i n => (if i =? x then 1 else 0) + n) 0 v + intersections v m).
    { clear. induction v as [|a v IH]; [reflexivity|].
      change (intersections (a :: v) ?l) with (Z.of_nat (length (List.filter (Z.eqb a) l)) + intersections v l).
      rewrite IH. cbn [foldr List.filter]. destruct (a =? x); cbn [length]; lia. }
    rewrite S, IH, count_nodup by exact Hv. cbn. destruct (inb v x); cbn [length]; lia.
Qed.

Lemma disjoint_filters (l : list Z) f g : (forall x, x ∈ l -> f x = true -> g x = false) ->
  (length (List.filter f l) + length (List.filter g l) <= length l)%nat.
Proof.
  induction l as [|x l IH]; intros H; [cbn; lia|]. cbn.
  specialize (IH ltac:(intros; apply H; [now right | assumption])).
  destruct (f x) eqn:Ef; [rewrite (H x ltac:(left) Ef) | destruct (g x)]; cbn [length]; lia.
Qed.

(** Two disjoint views that both hold a subquorum of one session split it into
    equal halves; a session with an odd number of members has at most one. *)
Theorem subquorum_exclusive s v1 v2 : NoDup v1 -> NoDup v2 -> (forall x, x ∈ v1 -> x ∉ v2) ->
  0 <= ys_member_list_entries s ->
  subquorum v1 s = Some true -> subquorum v2 s = Some true ->
  Z.even (ys_member_list_entries s) = true.
Proof.
  intros N1 N2 D E0. unfold subquorum, array_take. destruct (Nat.leb_spec (Z.to_nat (ys_member_list_entries s)) (length (ys_member_list s))) as [L|];
    [|discriminate]. cbn [mbind option_bind]. set (m := take _ _).
  assert (Lm : Z.of_nat (length m) = ys_member_list_entries s) by (unfold m; rewrite length_take; lia).
  rewrite !intersections_spec by assumption.
  pose proof (disjoint_filters m (inb v1) (inb v2)) as F.
  specialize (F ltac:(intros x _ H1; apply not_true_iff_false; rewrite inb_spec in *; intros H2; exact (D x H1 H2))).
  intros [= H1] [= H2]. rewrite <- Lm in *. revert F H1 H2.
  generalize (length (List.filter (inb v1) m)) (length (List.filter (inb v2) m)) (length m). intros a b n F H1 H2.
  rewrite orb_true_iff, Z.eqb_eq, Z.ltb_lt in H1, H2. assert (Z.of_nat n = 2 * Z.of_nat a) as -> by lia.
  apply Z.even_mul.
Qed.

Definition demo_session : ykd_session := mk_ykd_session ([1; 2; 3; 4] ++ replicate 28 0) 4 7.

Lemma subquorum_exclusive_witness :
  subquorum [1; 3] demo_session = Some true /\ subquorum [2; 4] demo_session = Some true /\
  Z.even (ys_member_list_entries demo_session) = true.
Proof.
  split; [reflexivity|]. split; [reflexivity|].
  refine (subquorum_exclusive demo_session [1; 3] [2; 4] _ _ _ _ _ _); [by_compute | by_compute | by_compute_forall | by_compute..].
Defined.

(** ** Agreement of the members of a view

    Everything but a node's own state and its messages is the same at two nodes
    that had the same configuration change and the same messages since. *)

Record same_view (a b : ykd) : Prop := {
  sv_process : state_received_process a = state_received_process b;
  sv_confchg_entries : state_received_confchg_entries a = state_received_confchg_entries b;
  sv_process_entries : state_received_process_entries a = state_received_process_entries b;
  sv_mode : yk_mode a = yk_mode b;
  sv_view : view a = view b;
  sv_ring : ykd_ring_id a = ykd_ring_id b;
  sv_primary : ykd_primary_designated a = ykd_primary_designated b
}.

(** What [ykd_deliver_fn] does to the part of the state that the members share. *)
Lemma compute_shared a b a' b' : same_view a b -> compute a = Some a' -> compute b = Some b' ->
  same_view a' b' /\ last_primary_max a' = last_primary_max b' /\ ambiguous_sessions_max a' = ambiguous_sessions_max b'.
Proof.
  intros [P Ce Pe M V R D]. unfold compute. rewrite P, Pe.
  destruct (state_received_process b !! 0%nat) as [f|]; [|discriminate]. cbn [mbind option_bind].
  destruct (array_take _ _) as [l|]; [|discriminate]. cbn [mbind option_bind].
  destruct (compute_states _ _) as [[[sid lp] amb]|]; [|discriminate]. cbn [mbind option_bind].
  intros [= <-] [= <-]. split; [|split]; [constructor; assumption | reflexivity | reflexivity].
Qed.

Lemma decide_shared a b : same_view a b -> last_primary_max a = last_primary_max b ->
  ambiguous_sessions_max a = ambiguous_sessions_max b -> ykd_decide a = ykd_decide b.
Proof. intros [_ _ _ _ V _ _] L A. unfold ykd_decide. now rewrite V, L, A. Qed.

Lemma attempt_form_shared a b a' b' : same_view a b -> ykd_attempt_form a = Some a' -> ykd_attempt_form b = Some b' -> same_view a' b'.
Proof.
  intros [P Ce Pe M V R D]. unfold ykd_attempt_form.
  intros (x & _ & (l & _ & [= <-])%bind_Some)%bind_Some (x' & _ & (l' & _ & [= <-])%bind_Some)%bind_Some.
  constructor; assumption.
Qed.

Lemma deliver_state_shared pos st all a b a' b' : same_view a b ->
  ykd_deliver_state pos st all a = Some a' -> ykd_deliver_state pos st all b = Some b' -> same_view a' b'.
Proof.
  intros [P Ce Pe M V R D]. unfold ykd_deliver_state. rewrite P, Ce.
  destruct (Nat.ltb _ _); [|discriminate]. cbn [mbind option_bind].
  set (l := alter _ _ _). set (n := Z.to_nat _). destruct all.
  - set (a1 := a <| state_received_process := l |> <| state_received_process := _ |> <| yk_mode := _ |>).
    set (b1 := b <| state_received_process := l |> <| state_received_process := _ |> <| yk_mode := _ |>).
    assert (S1 : same_view a1 b1) by (constructor; [reflexivity | assumption | assumption | reflexivity | assumption..]).
    intros (a2 & Ca & Ea)%bind_Some (b2 & Cb & Eb)%bind_Some.
    destruct (compute_shared _ _ _ _ S1 Ca Cb) as (S2 & L & A). rewrite (decide_shared _ _ S2 L A) in Ea.
    destruct (ykd_decide b2) as [[]|]; [|congruence..]. now apply (attempt_form_shared _ _ _ _ S2).
  - intros [= <-] [= <-]. constructor; [reflexivity | assumption..].
Qed.

Lemma primary_shared a b : same_view a b -> same_view (ykd_primary a) (ykd_primary b).
Proof. intros [P Ce Pe M V R D]. constructor; [assumption.. | reflexivity]. Qed.

Lemma deliver_shared n m c a b a' b' : same_view a b ->
  ykd_deliver_fn n m c a = Some a' -> ykd_deliver_fn n m c b = Some b' -> same_view a' b'.
Proof.
  intros [P Ce Pe M V R D]. unfold ykd_deliver_fn.
  destruct (match ym_state m with Some s => _ | None => _ end) as [st|]; [|discriminate]. cbn [mbind option_bind].
  set (a1 := a <| state_received_process ::= _ |>). set (b1 := b <| state_received_process ::= _ |>).
  assert (S : same_view a1 b1).
  { constructor; [|assumption..]. unfold a1, b1, upd. cbn [state_received_process]. now rewrite P, Ce. }
  rewrite P, Ce, (sv_process _ _ S), (sv_confchg_entries _ _ S), (sv_mode _ _ S). set (pos := state_position _ _ _).
  destruct (array_take _ _) as [l|]; [|discriminate]. cbn [mbind option_bind].
  destruct (yk_mode b1), (_ =? _); try (intros [= <-] [= <-]; exact S).
  - intros (s & -> & Ea)%bind_Some (s' & [= <-] & Eb)%bind_Some. exact (deliver_state_shared _ _ _ _ _ _ _ S Ea Eb).
  - intros [= <-] [= <-]. destruct (forallb _ _); [now apply primary_shared | exact S].
Qed.

Fixpoint ykd_deliver_all (l : list (Z * ykd_msg * bool)) (y : ykd) : option ykd :=
  match l with [] => Some y | (n, m, c) :: l => y ← ykd_deliver_fn n m c y; ykd_deliver_all l y end.

Lemma deliver_all_shared l a b a' b' : same_view a b ->
  ykd_deliver_all l a = Some a' -> ykd_deliver_all l b = Some b' -> same_view a' b'.
Proof.
  revert a b. induction l as [|[[n m] c] l IH]; intros a b S; cbn; [intros [= <-] [= <-]; exact S|].
  intros (a1 & Ea & Ra)%bind_Some (b1 & Eb & Rb)%bind_Some. exact (IH _ _ (deliver_shared _ _ _ _ _ _ _ S Ea Eb) Ra Rb).
Qed.

Lemma confchg_view self ml r y y' : ykd_confchg_fn self TOTEM_CONFIGURATION_REGULAR ml r y = Some y' -> view y' = ml.
Proof.
  unfold ykd_confchg_fn. destruct (Nat.leb _ _); [|discriminate]. intros [= <-].
  set (y1 := if first_run _ then _ else _).
  change (take (Z.to_nat (Z.of_nat (length ml))) (ml ++ drop (length ml) (ykd_view_list y1)) = ml).
  rewrite Nat2Z.id. apply take_app_length.
Qed.

Lemma confchg_shared self self' ml r a b a' b' :
  ykd_confchg_fn self TOTEM_CONFIGURATION_REGULAR ml r a = Some a' ->
  ykd_confchg_fn self' TOTEM_CONFIGURATION_REGULAR ml r b = Some b' -> same_view a' b'.
Proof.
  intros Ca Cb. pose proof (confchg_view _ _ _ _ _ Ca) as Va. pose proof (confchg_view _ _ _ _ _ Cb) as Vb.
  revert Ca Cb. unfold ykd_confchg_fn. destruct (Nat.leb _ _); [|discriminate]. intros [= <-] [= <-].
  constructor; [reflexivity.. | congruence | |reflexivity].
  now destruct (first_run _), (first_run _).
Qed.

(** C19: the members of a view agree: two nodes that had the same configuration change
    and received the same messages since, in the same order, are both in the
    primary component or both not, whatever their own states. *)
Theorem ykd_members_agree self self' ml r a b a0 b0 l a' b' :
  ykd_confchg_fn self TOTEM_CONFIGURATION_REGULAR ml r a = Some a0 ->
  ykd_confchg_fn self' TOTEM_CONFIGURATION_REGULAR ml r b = Some b0 ->
  ykd_deliver_all l a0 = Some a' -> ykd_deliver_all l b0 = Some b' ->
  ykd_primary_designated a' = ykd_primary_designated b' /\ view a' = view b'.
Proof.
  intros Ca Cb Da Db. pose proof (deliver_all_shared l _ _ _ _ (confchg_shared _ _ _ _ _ _ _ _ Ca Cb) Da Db) as S.
  split; apply S.
Qed.

(** ** Clusters

    The members of a view change the configuration, exchange their states, and
    those that decide to form a component exchange attempts; [hear] are the
    members that receive the attempts. *)

Definition cluster := list (Z * ykd).

Definition on_nodes (who : list Z) (f : Z -> ykd -> option ykd) : cluster -> option cluster :=
  mapM (fun '(n, y) => if inb who n then y ← f n y; Some (n, y) else Some (n, y)).

Definition sent_msgs (who : list Z) (send : bool -> ykd -> ykd) (c : cluster) : list (Z * ykd_msg * bool) :=
  c ≫= fun '(n, y) => if inb who n then
    omap (fun e => match e with YkdMcast m => Some (n, m, false) | _ => None end)
      (drop (length (ykd_out y)) (ykd_out (send true y))) else [].

Definition change_view (v : list Z) (r : ring_id) : cluster -> option cluster :=
  on_nodes v (fun n => ykd_confchg_fn n TOTEM_CONFIGURATION_REGULAR v r).

Definition exchange (v hear : list Z) (send : bool -> ykd -> ykd) (c : cluster) : option cluster :=
  let l := sent_msgs v send c in
  c ← on_nodes v (fun _ y => Some (send true y)) c;
  on_nodes hear (fun _ => ykd_deliver_all l) c.

Definition form (v hear : list Z) (r : ring_id) (c : cluster) : option cluster :=
  c ← change_view v r c; c ← exchange v v ykd_state_send_msg c; exchange v hear ykd_attempt_send_msg c.

Definition primaries (c : cluster) : list (Z * list Z) :=
  omap (fun '(n, y) => if ykd_primary_designated y then Some (n, view y) else None) c.

Definition fresh_cluster (l : list Z) : cluster := map (fun n => (n, ykd_init)) l.

(** An even split makes two primary components: two nodes that form a component
    together and are then separated both stay in "the" primary component. *)
Theorem even_split_two_primaries :
  (primaries <$> (c ← form [1; 2] [1; 2] (mk_ring 1 4) (fresh_cluster [1; 2]);
                  c ← form [1] [1] (mk_ring 1 8) c; form [2] [2] (mk_ring 2 8) c))
  = Some [(1, [1]); (2, [2])].
Proof. vm_compute. reflexivity. Qed.

(** An attempt that only a part of its members completes is forgotten, because its
    session never gets a number: of five nodes {1, 2, 3} form a component that node 3
    does not hear of, and afterwards {1, 2} and {3, 4, 5} are primary, each with a
    strict majority of the last component it knows. *)
Theorem interrupted_attempt_two_primaries :
  (primaries <$> (c ← form [1; 2; 3; 4; 5] [1; 2; 3; 4; 5] (mk_ring 1 4) (fresh_cluster [1; 2; 3; 4; 5]);
                  c ← form [1; 2; 3] [1; 2] (mk_ring 1 8) c;
                  c ← form [1; 2] [1; 2] (mk_ring 1 12) c; form [3; 4; 5] [3; 4; 5] (mk_ring 3 12) c))
  = Some [(1, [1; 2]); (2, [1; 2]); (3, [3; 4; 5]); (4, [3; 4; 5]); (5, [3; 4; 5])].
Proof. vm_compute. reflexivity. Qed.

Definition demo_conf (self : Z) : ykd :=
  default ykd_init (ykd_confchg_fn self TOTEM_CONFIGURATION_REGULAR [1; 2] (mk_ring 1 4) ykd_init).
Definition demo_msgs : list (Z * ykd_msg * bool) :=
  [(2, mk_ykd_msg 0 (Some (ykd_own (demo_conf 2))), false); (1, mk_ykd_msg 0 (Some (ykd_own (demo_conf 1))), false);
   (1, mk_ykd_msg 1 None, false); (2, mk_ykd_msg 1 None, false)].
Definition demo_end (self : Z) : ykd := default ykd_init (ykd_deliver_all demo_msgs (demo_conf self)).

Lemma demo_conf_ok self : self = 1 \/ self = 2 ->
  ykd_confchg_fn self TOTEM_CONFIGURATION_REGULAR [1; 2] (mk_ring 1 4) ykd_init = Some (demo_conf self).
Proof. intros [-> | ->]; unfold demo_conf; apply some_default; vm_compute; reflexivity. Qed.

Lemma demo_end_ok self : self = 1 \/ self = 2 -> ykd_deliver_all demo_msgs (demo_conf self) = Some (demo_end self).
Proof. intros [-> | ->]; unfold demo_end; apply some_default; vm_compute; reflexivity. Qed.

Lemma ykd_members_agree_witness :
  ykd_primary_designated (demo_end 1) = true /\
  (ykd_primary_designated (demo_end 1) = ykd_primary_designated (demo_end 2) /\ view (demo_end 1) = view (demo_end 2)).
Proof.
  split; [vm_compute; reflexivity|].
  exact (ykd_members_agree 1 2 [1; 2] (mk_ring 1 4) _ _ _ _ demo_msgs _ _ (demo_conf_ok 1 (or_introl eq_refl))
    (demo_conf_ok 2 (or_intror eq_refl)) (demo_end_ok 1 (or_introl eq_refl)) (demo_end_ok 2 (or_intror eq_refl))).
Defined.
