(* ===== verification/VsfQuorum.v ===== *)
(** * The quorum service (exec/vsf_quorum.c, exec/quorum.c)

    The service takes the quorum from a provider (votequorum or YKD), keeps the
    membership after each synchronisation, and tells both to the services of the
    daemon that registered a callback and to the library connections that track
    changes.  The private data of a connection is an entry of [vs_pds]: access to
    that of a closed connection is [None]. *)
From S2P Require Import Prelude VoteQuorum VoteQuorumExec TotemMemb TotemSrp.

Definition LIB_QUORUM_MODEL_V0 : Z := 0.
Definition LIB_QUORUM_MODEL_V1 : Z := 1.

Record quorum_pd := mk_quorum_pd { qp_track_flags : Z; qp_tracking_enabled : bool; qp_model : Z }.
#[export] Instance quorum_pd_eta : Etable quorum_pd := fun p =>
  mk_quorum_pd (qp_track_flags p) (qp_tracking_enabled p) (qp_model p).

Inductive vsf_effect :=
| InternalCallback (callback context : Z) (quorate : bool)
| LibNotificationV0 (conn : Z) (quorate : bool) (ring_seq : Z) (view_list : list Z)
| LibNotificationV1 (conn : Z) (quorate : bool) (r : ring_id) (view_list : list Z)
| LibNodelist (conn : Z) (r : ring_id) (member_list joined_list left_list : list Z)
| ResGetquorate (conn : Z) (quorate : bool)
| ResTrackstart (conn error : Z)
| ResTrackstop (conn error : Z)
| ResGettype (conn type : Z)
| ResModelGettype (conn type error : Z).

Record vsf := mk_vsf {
  primary_designated : bool;
  quorum_type : Z;
  lib_trackers_list : list Z;
  internal_trackers_list : list (Z * Z);
  quorum_ring_id : ring_id;
  last_sync_ring_id : ring_id;
  quorum_view_list : list Z;
  vs_member_list : list Z;
  vs_old_member_list : list Z;
  vs_left_list : list Z;
  vs_joined_list : list Z;
  vs_pds : gmap Z quorum_pd;
  corosync_quorum_fns : bool;
  vs_out : list vsf_effect
}.
#[export] Instance vsf_eta : Etable vsf := fun s =>
  mk_vsf (primary_designated s) (quorum_type s) (lib_trackers_list s) (internal_trackers_list s) (quorum_ring_id s)
    (last_sync_ring_id s) (quorum_view_list s) (vs_member_list s) (vs_old_member_list s) (vs_left_list s)
    (vs_joined_list s) (vs_pds s) (corosync_quorum_fns s) (vs_out s).

Definition vsf_zero : vsf :=
  mk_vsf false 0 [] [] (mk_ring 0 0) (mk_ring 0 0) [] [] [] [] [] ∅ false [].

Definition vs_emit (e : vsf_effect) (s : vsf) : vsf := s <| vs_out ::= fun o => o ++ [e] |>.

(** ** exec/quorum.c *)

Definition corosync_quorum_is_quorate (s : vsf) : bool :=
  if corosync_quorum_fns s then primary_designated s else true.

Definition corosync_quorum_initialize (s : vsf) : Z * vsf :=
  if corosync_quorum_fns s then (-1, s) else (0, s <| corosync_quorum_fns := true |>).

Definition quorum_none (s : vsf) : bool := negb (corosync_quorum_fns s).

Definition quorum_register_callback (fn context : Z) (s : vsf) : Z * vsf :=
  (0, s <| internal_trackers_list ::= cons (fn, context) |>).

(** The first entry with the callback and the context goes. *)
Fixpoint unregister (fn context : Z) (l : list (Z * Z)) : option (list (Z * Z)) :=
  match l with
  | [] => None
  | (f, c) :: l' => if (f =? fn) && (c =? context) then Some l' else l' ← unregister fn context l'; Some ((f, c) :: l')
  end.

Definition quorum_unregister_callback (fn context : Z) (s : vsf) : Z * vsf :=
  match unregister fn context (internal_trackers_list s) with
  | Some l => (0, s <| internal_trackers_list := l |>)
  | None => (-1, s)
  end.

Definition corosync_quorum_register_callback (fn context : Z) (s : vsf) : Z * vsf :=
  if corosync_quorum_fns s then quorum_register_callback fn context s else (0, s).

Definition corosync_quorum_unregister_callback (fn context : Z) (s : vsf) : Z * vsf :=
  if corosync_quorum_fns s then quorum_unregister_callback fn context s else (0, s).

(** ** Notifications *)

Definition send_internal_notification (s : vsf) : vsf :=
  s <| vs_out ::= fun o => o ++ map (fun '(f, c) => InternalCallback f c (primary_designated s)) (internal_trackers_list s) |>.

Definition library_notification (s : vsf) (conn : Z) : option (list vsf_effect) :=
  p ← vs_pds s !! conn;
  Some (if qp_model p =? LIB_QUORUM_MODEL_V0
        then [LibNotificationV0 conn (primary_designated s) (VoteQuorum.ring_seq (quorum_ring_id s)) (quorum_view_list s)]
        else if qp_model p =? LIB_QUORUM_MODEL_V1
        then [LibNotificationV1 conn (primary_designated s) (quorum_ring_id s) (quorum_view_list s)]
        else []).

Definition send_library_notification (conn : option Z) (s : vsf) : option vsf :=
  es ← mapM (library_notification s) (match conn with Some c => [c] | None => lib_trackers_list s end);
  Some (s <| vs_out ::= fun o => o ++ concat es |>).

Definition nodelist_notification (send_joined_left_list : bool) (s : vsf) (conn : Z) : option (list vsf_effect) :=
  p ← vs_pds s !! conn;
  Some (if qp_model p =? LIB_QUORUM_MODEL_V1
        then [LibNodelist conn (last_sync_ring_id s) (vs_member_list s)
                (if send_joined_left_list then vs_joined_list s else [])
                (if send_joined_left_list then vs_left_list s else [])]
        else []).

Definition send_nodelist_library_notification (conn : option Z) (send_joined_left_list : bool) (s : vsf) : option vsf :=
  es ← mapM (nodelist_notification send_joined_left_list s) (match conn with Some c => [c] | None => lib_trackers_list s end);
  Some (s <| vs_out ::= fun o => o ++ concat es |>).

(** The provider's callback. *)
Definition quorum_api_set_quorum (view_list : list Z) (quorum : bool) (r : ring_id) (s : vsf) : option vsf :=
  let s := s <| primary_designated := quorum |> in
  if Nat.leb (length view_list) PROCESSOR_COUNT_MAX then
    let s := s <| quorum_ring_id := r |> <| quorum_view_list := view_list |> in
    send_library_notification None (send_internal_notification s)
  else None.

(** ** Synchronisation *)

Definition in_list (l : list Z) (n : Z) : bool := existsb (Z.eqb n) l.

Definition quorum_sync_init (trans_list member_list : list Z) (r : ring_id) (s : vsf) : option vsf :=
  if Nat.leb (length member_list) PROCESSOR_COUNT_MAX then
    let s := s <| vs_member_list := member_list |> <| last_sync_ring_id := r |> in
    let left := List.filter (fun n => if in_list trans_list n then negb (in_list member_list n) else true) (vs_old_member_list s) in
    let joined := List.filter (fun n => if in_list (vs_old_member_list s) n then in_list left n else true) member_list in
    Some (s <| vs_left_list := left |> <| vs_joined_list := joined |>)
  else None.

Definition quorum_sync_process : Z := 0.

Definition quorum_sync_activate (s : vsf) : option vsf :=
  send_nodelist_library_notification None true (s <| vs_old_member_list := vs_member_list s |>).

(** ** Start

    [quorum_provider] is the key quorum.provider; [votequorum_error] is what
    [votequorum_init] returns, and [ykd_init] returns no error for the callback
    it gets here. *)
Definition quorum_exec_init_fn (quorum_provider : option string) (votequorum_error : option string) (s : vsf)
  : option string * vsf :=
  let s := s <| lib_trackers_list := [] |> <| internal_trackers_list := [] |> in
  let s := snd (corosync_quorum_initialize s) in
  let '(error, s) :=
    match quorum_provider with
    | Some m =>
        if String.eqb m "corosync_votequorum" then (votequorum_error, s <| quorum_type := 1 |>)
        else if String.eqb m "corosync_ykd" then (None, s <| quorum_type := 1 |>)
        else (Some "Invalid quorum provider"%string, s)
    | None => (None, s)
    end in
  match error with
  | Some e => (Some e, s)
  | None => (None, if quorum_type s =? 0 then s <| primary_designated := true |> else s)
  end.

(** ** Library requests *)

Definition quorum_lib_init_fn (conn : Z) (s : vsf) : vsf :=
  s <| vs_pds ::= <[conn := mk_quorum_pd 0 false LIB_QUORUM_MODEL_V0]> |>.

(** The private data is freed with the connection. *)
Definition quorum_lib_exit_fn (conn : Z) (s : vsf) : option vsf :=
  p ← vs_pds s !! conn;
  let s := if qp_tracking_enabled p then s <| lib_trackers_list ::= List.filter (fun c => negb (c =? conn)) |> else s in
  Some (s <| vs_pds ::= delete conn |>).

Definition message_handler_req_lib_quorum_getquorate (conn : Z) (s : vsf) : vsf :=
  vs_emit (ResGetquorate conn (primary_designated s)) s.

Definition message_handler_req_lib_quorum_trackstart (conn flags : Z) (s : vsf) : option vsf :=
  p ← vs_pds s !! conn;
  s ← (if has_flag flags CS_TRACK_CURRENT || has_flag flags CS_TRACK_CHANGES
       then s ← send_nodelist_library_notification (Some conn) false s; send_library_notification (Some conn) s
       else Some s);
  if qp_tracking_enabled p then Some (vs_emit (ResTrackstart conn CS_ERR_EXIST) s)
  else
    let s := if has_flag flags CS_TRACK_CHANGES || has_flag flags CS_TRACK_CHANGES_ONLY
             then s <| vs_pds ::= <[conn := mk_quorum_pd (u8 flags) true (qp_model p)]> |>
                    <| lib_trackers_list ::= cons conn |>
             else s in
    Some (vs_emit (ResTrackstart conn CS_OK) s).

(** The error of a connection that does not track is overwritten. *)
Definition message_handler_req_lib_quorum_trackstop (conn : Z) (s : vsf) : option vsf :=
  p ← vs_pds s !! conn;
  let s := if qp_tracking_enabled p
           then s <| vs_pds ::= <[conn := p <| qp_tracking_enabled := false |>]> |>
                  <| lib_trackers_list ::= List.filter (fun c => negb (c =? conn)) |>
           else s in
  Some (vs_emit (ResTrackstop conn CS_OK) s).

Definition message_handler_req_lib_quorum_gettype (conn : Z) (s : vsf) : vsf :=
  vs_emit (ResGettype conn (quorum_type s)) s.

Definition message_handler_req_lib_quorum_model_gettype (conn model : Z) (s : vsf) : option vsf :=
  p ← vs_pds s !! conn;
  let '(error, s) :=
    if negb (model =? LIB_QUORUM_MODEL_V0) && negb (model =? LIB_QUORUM_MODEL_V1) then (CS_ERR_INVALID_PARAM, s)
    else (CS_OK, s <| vs_pds ::= <[conn := p <| qp_model := model |>]> |>) in
  Some (vs_emit (ResModelGettype conn (quorum_type s) error) s).

(** ** The service as a state machine *)

Inductive vsf_event :=
| VSetQuorum (view_list : list Z) (quorum : bool) (r : ring_id)
| VSyncInit (trans_list member_list : list Z) (r : ring_id)
| VSyncActivate
| VRegister (fn context : Z)
| VUnregister (fn context : Z)
| VOpen (conn : Z)
| VClose (conn : Z)
| VGetquorate (conn : Z)
| VTrackstart (conn flags : Z)
| VTrackstop (conn : Z)
| VGettype (conn : Z)
| VModelGettype (conn model : Z).

Definition vsf_step (e : vsf_event) (s : vsf) : option vsf :=
  match e with
  | VSetQuorum l q r => quorum_api_set_quorum l q r s
  | VSyncInit t m r => quorum_sync_init t m r s
  | VSyncActivate => quorum_sync_activate s
  | VRegister f c => Some (snd (corosync_quorum_register_callback f c s))
  | VUnregister f c => Some (snd (corosync_quorum_unregister_callback f c s))
  | VOpen c => Some (quorum_lib_init_fn c s)
  | VClose c => quorum_lib_exit_fn c s
  | VGetquorate c => Some (message_handler_req_lib_quorum_getquorate c s)
  | VTrackstart c f => message_handler_req_lib_quorum_trackstart c f s
  | VTrackstop c => message_handler_req_lib_quorum_trackstop c s
  | VGettype c => Some (message_handler_req_lib_quorum_gettype c s)
  | VModelGettype c m => message_handler_req_lib_quorum_model_gettype c m s
  end.

Fixpoint vsf_run (es : list vsf_event) (s : vsf) : option vsf :=
  match es with [] => Some s | e :: es => s ← vsf_step e s; vsf_run es s end.
