(* ===== verification/VsfQuorumProps.v ===== *)
(** * The quorum service: theorems

    The list of tracking connections, the exactness of the membership
    notifications, and who learns about a change of the quorum. *)
From S2P Require Import Prelude VoteQuorum VoteQuorumExec TotemMemb TotemSrp VsfQuorum.

Lemma in_list_spec l n : in_list l n = true <-> n ∈ l.
Proof.
  unfold in_list. rewrite existsb_exists, list_elem_of_In. split.
  - intros (y & Hy & ->%Z.eqb_eq). exact Hy.
  - intros H. exists n. split; [exact H | apply Z.eqb_refl].
Qed.

Lemma in_list_false l n : in_list l n = false <-> n ∉ l.
Proof. rewrite <- in_list_spec. now destruct (in_list l n). Qed.

(** The connections that track changes are those whose data says so. *)
Definition trackers_ok (l : list Z) (m : gmap Z quorum_pd) : Prop :=
  NoDup l /\ forall c, c ∈ l <-> exists p, m !! c = Some p /\ qp_tracking_enabled p = true.

(** Left and joined nodes lead from the old to the new membership, and from the
    new membership to itself. *)
Definition lists_ok (old new left joined : list Z) : Prop :=
  (forall x, x ∈ new <-> (x ∈ old /\ x ∉ left) \/ x ∈ joined) /\ (forall x, x ∈ new -> x ∈ left -> x ∈ joined).

Definition vsf_inv (s : vsf) : Prop :=
  trackers_ok (lib_trackers_list s) (vs_pds s) /\
  lists_ok (vs_old_member_list s) (vs_member_list s) (vs_left_list s) (vs_joined_list s).

(** What the IPC server and totem guarantee: requests come from open connections,
    and memberships have at most [PROCESSOR_COUNT_MAX] nodes. *)
Definition vsf_event_ok (e : vsf_event) (s : vsf) : Prop :=
  match e with
  | VSetQuorum l _ _ | VSyncInit _ l _ => (length l <= PROCESSOR_COUNT_MAX)%nat
  | VOpen c => vs_pds s !! c = None
  | VClose c | VGetquorate c | VTrackstart c _ | VTrackstop c | VGettype c | VModelGettype c _ => is_Some (vs_pds s !! c)
  | VSyncActivate | VRegister _ _ | VUnregister _ _ => True
  end.

Fixpoint vsf_events_ok (es : list vsf_event) (s : vsf) : Prop :=
  match es with
  | [] => True
  | e :: es => vsf_event_ok e s /\ match vsf_step e s with Some s' => vsf_events_ok es s' | None => True end
  end.

(** ** Notifications succeed for open connections *)

Lemma mapM_pd {A} (f : vsf -> Z -> option A) s l :
  (forall c p, vs_pds s !! c = Some p -> is_Some (f s c)) ->
  (forall c, c ∈ l -> is_Some (vs_pds s !! c)) -> is_Some (mapM (f s) l).
Proof.
  intros F H. apply mapM_is_Some, Forall_forall. intros c Hc. destruct (H c Hc) as [p Hp]. exact (F c p Hp).
Qed.

Lemma send_library_ok conn s :
  (forall c, c ∈ match conn with Some c => [c] | None => lib_trackers_list s end -> is_Some (vs_pds s !! c)) ->
  exists es, send_library_notification conn s = Some (s <| vs_out ::= fun o => o ++ concat es |>).
Proof.
  intros H. unfold send_library_notification.
  destruct (mapM_pd library_notification s _ (fun c p Hp => ltac:(unfold library_notification; now rewrite Hp)) H) as [es ->].
  now exists es.
Qed.

Lemma send_nodelist_ok conn b s :
  (forall c, c ∈ match conn with Some c => [c] | None => lib_trackers_list s end -> is_Some (vs_pds s !! c)) ->
  exists es, send_nodelist_library_notification conn b s = Some (s <| vs_out ::= fun o => o ++ concat es |>).
Proof.
  intros H. unfold send_nodelist_library_notification.
  destruct (mapM_pd (nodelist_notification b) s _ (fun c p Hp => ltac:(unfold nodelist_notification; now rewrite Hp)) H) as [es ->].
  now exists es.
Qed.

Lemma tracker_open s c : vsf_inv s -> c ∈ lib_trackers_list s -> is_Some (vs_pds s !! c).
Proof. intros [[_ T] _] Hc. apply T in Hc as (p & Hp & _). now exists p. Qed.

(** ** Changes of the list of trackers *)

Lemma elem_of_remove c d l : d ∈ List.filter (fun x => negb (x =? c)) l <-> d ∈ l /\ d <> c.
Proof. rewrite !list_elem_of_In, filter_In, negb_true_iff, Z.eqb_neq. reflexivity. Qed.

Lemma remove_nodup c l : NoDup l -> NoDup (List.filter (fun x => negb (x =? c)) l).
Proof.
  induction 1 as [|x l Hx _ IH]; cbn; [constructor|]. destruct (negb _); [|exact IH].
  constructor; [|exact IH]. rewrite elem_of_remove. tauto.
Qed.

Lemma trackers_remove l m c m' : trackers_ok l m -> (forall d, d <> c -> m' !! d = m !! d) ->
  (forall p, m' !! c = Some p -> qp_tracking_enabled p = false) ->
  trackers_ok (List.filter (fun x => negb (x =? c)) l) m'.
Proof.
  intros [N T] Ho Hc. split; [now apply remove_nodup|]. intros d. rewrite elem_of_remove, T. split.
  - intros [H Hd]. now rewrite Ho.
  - intros (p & Hp & Ht). assert (Hd : d <> c) by (intros ->; rewrite (Hc p Hp) in Ht; discriminate).
    rewrite Ho in Hp by exact Hd. split; [now exists p | exact Hd].
Qed.

Lemma trackers_same l m c p p' : trackers_ok l m -> m !! c = Some p -> qp_tracking_enabled p' = qp_tracking_enabled p ->
  trackers_ok l (<[c := p']> m).
Proof.
  intros [N T] Hp E. split; [exact N|]. intros d. rewrite T. destruct (decide (d = c)) as [->|Ne].
  - rewrite lookup_insert_eq, Hp. split; intros (q & [= <-] & ?); eexists; split; try reflexivity; congruence.
  - now rewrite lookup_insert_ne by congruence.
Qed.

Lemma sync_lists_ok trans old new :
  let left := List.filter (fun n => if in_list trans n then negb (in_list new n) else true) old in
  lists_ok old new left (List.filter (fun n => if in_list old n then in_list left n else true) new).
Proof.
  intros left. split; intros x; rewrite !list_elem_of_In, filter_In, <- !list_elem_of_In.
  - destruct (in_list old x) eqn:Eo; [apply in_list_spec in Eo | apply in_list_false in Eo].
    + destruct (in_list left x) eqn:El; [apply in_list_spec in El | apply in_list_false in El]; [|].
      * tauto.
      * split; [tauto|]. intros [[_ H]|[H _]]; [|exact H].
        destruct (in_list new x) eqn:En; [now apply in_list_spec in En|]. destruct H.
        unfold left. rewrite list_elem_of_In, filter_In, <- list_elem_of_In, En. split; [exact Eo|].
        now destruct (in_list trans x).
    + tauto.
  - intros Hn Hl. split; [exact Hn|]. destruct (in_list old x); [now apply in_list_spec | reflexivity].
Qed.

(** ** Every step succeeds and keeps the invariant *)

Lemma vsf_step_ok e s : vsf_inv s -> vsf_event_ok e s -> exists s', vsf_step e s = Some s' /\ vsf_inv s'.
Proof.
  intros I Ok. assert (I' := I). destruct I' as [T L].
  destruct e as [l q r|t l r| |f c|f c|c|c|c|c f|c|c|c m]; cbn [vsf_step vsf_event_ok] in *.
  - unfold quorum_api_set_quorum. apply Nat.leb_le in Ok. rewrite Ok.
    destruct (send_library_ok None (send_internal_notification
      (s <| primary_designated := q |> <| quorum_ring_id := r |> <| quorum_view_list := l |>))) as [es ->].
    { intros c Hc. exact (tracker_open s c I Hc). }
    eexists. split; [reflexivity | exact I].
  - unfold quorum_sync_init. apply Nat.leb_le in Ok. rewrite Ok. eexists. split; [reflexivity|].
    split; [exact T|]. apply sync_lists_ok.
  - unfold quorum_sync_activate.
    destruct (send_nodelist_ok None true (s <| vs_old_member_list := vs_member_list s |>)) as [es ->].
    { intros c Hc. exact (tracker_open s c I Hc). }
    eexists. split; [reflexivity|]. split; [exact T|]. destruct L as [L1 L2]. split; [|exact L2].
    intros x. cbn. specialize (L1 x). specialize (L2 x). destruct (decide (x ∈ vs_left_list s)); tauto.
  - unfold corosync_quorum_register_callback. destruct (corosync_quorum_fns s); eexists; (split; [reflexivity | exact I]).
  - unfold corosync_quorum_unregister_callback, quorum_unregister_callback.
    destruct (corosync_quorum_fns s); [destruct (unregister _ _ _)|]; eexists; (split; [reflexivity | exact I]).
  - eexists. split; [reflexivity|]. split; [|exact L]. destruct T as [N T]. split; [exact N|]. intros d. rewrite T.
    cbn. destruct (decide (d = c)) as [->|Ne].
    + rewrite lookup_insert_eq, Ok. split; intros (p & [= <-] & ?); discriminate.
    + now rewrite lookup_insert_ne by congruence.
  - unfold quorum_lib_exit_fn. destruct Ok as [p Hp]. rewrite Hp. eexists. split; [reflexivity|].
    destruct (qp_tracking_enabled p) eqn:Et; (split; [|exact L]).
    + apply (trackers_remove _ (vs_pds s)); [exact T | |].
      * intros d Hd. cbn. now rewrite lookup_delete_ne by congruence.
      * intros p' Hp'. cbn in Hp'. now rewrite lookup_delete_eq in Hp'.
    + destruct T as [N T]. split; [exact N|]. intros d. cbn. rewrite T. destruct (decide (d = c)) as [->|Ne].
      * rewrite lookup_delete_eq, Hp. split; [|naive_solver]. intros (p' & [= <-] & ?). congruence.
      * now rewrite lookup_delete_ne by congruence.
  - eexists. split; [reflexivity | exact I].
  - unfold message_handler_req_lib_quorum_trackstart. destruct Ok as [p Hp]. rewrite Hp. cbn [mbind option_bind].
    assert (N : exists o, (if has_flag f CS_TRACK_CURRENT || has_flag f CS_TRACK_CHANGES
       then s ← send_nodelist_library_notification (Some c) false s; send_library_notification (Some c) s
       else Some s) = Some (s <| vs_out := o |>)).
    { destruct (_ || _); [|exists (vs_out s); now destruct s].
      assert (Hc : forall d, d ∈ [c] -> is_Some (vs_pds s !! d)) by (intros d ->%list_elem_of_singleton; now exists p).
      destruct (send_nodelist_ok (Some c) false s Hc) as [es ->]. cbn [mbind option_bind].
      set (s1 := s <| vs_out ::= fun o => o ++ concat es |>).
      destruct (send_library_ok (Some c) s1 Hc) as [es' ->]. eexists. reflexivity. }
    destruct N as [o ->]. cbn [mbind option_bind]. destruct (qp_tracking_enabled p) eqn:Et; eexists; (split; [reflexivity|]); [exact I|].
    destruct (_ || _); [|exact I]. split; [|exact L]. destruct T as [N T]. cbn. split.
    + constructor; [|exact N]. rewrite T. intros (p' & Hp' & ?). congruence.
    + intros d. rewrite elem_of_cons, T. destruct (decide (d = c)) as [->|Ne].
      * rewrite lookup_insert_eq. split; [|now left]. intros _. eexists. now split.
      * rewrite lookup_insert_ne by congruence. naive_solver.
  - unfold message_handler_req_lib_quorum_trackstop. destruct Ok as [p Hp]. rewrite Hp. eexists. split; [reflexivity|].
    destruct (qp_tracking_enabled p) eqn:Et; [|exact I]. split; [|exact L].
    apply (trackers_remove _ (vs_pds s)); [exact T | |].
    + intros d Hd. cbn. now rewrite lookup_insert_ne by congruence.
    + intros p' Hp'. cbn in Hp'. rewrite lookup_insert_eq in Hp'. now injection Hp' as <-.
  - eexists. split; [reflexivity | exact I].
  - unfold message_handler_req_lib_quorum_model_gettype. destruct Ok as [p Hp]. rewrite Hp. cbn [mbind option_bind].
    destruct (_ && _); eexists; (split; [reflexivity|]); [exact I|]. split; [|exact L].
    now apply (trackers_same _ _ _ p).
Qed.

(** C18: as long as requests come from open connections the quorum service never uses
    the data of a closed one, and its list of trackers is exact. *)
Theorem vsf_run_safe es s : vsf_inv s -> vsf_events_ok es s -> exists s', vsf_run es s = Some s' /\ vsf_inv s'.
Proof.
  revert s. induction es as [|e es IH]; intros s I; cbn; [now exists s|]. intros [Ok Oks].
  destruct (vsf_step_ok e s I Ok) as (s1 & E & I1). rewrite E in *. exact (IH s1 I1 Oks).
Qed.

Lemma vsf_reachable es s s' : vsf_inv s -> vsf_events_ok es s -> vsf_run es s = Some s' -> vsf_inv s'.
Proof.
  revert s. induction es as [|e es IH]; intros s I; cbn; [now intros _ [= <-]|]. intros [Ok Oks].
  destruct (vsf_step_ok e s I Ok) as (s1 & E & I1). rewrite E in *. exact (IH s1 I1 Oks).
Qed.

(** The state the service starts in. *)
Lemma vsf_init_inv provider error : vsf_inv (snd (quorum_exec_init_fn provider error vsf_zero)).
Proof.
  unfold quorum_exec_init_fn. cbn [snd corosync_quorum_initialize].
  set (x := match provider with Some m => _ | None => _ end).
  assert (H : vsf_inv (snd x)).
  { assert (H0 : vsf_inv vsf_zero).
    { split; split; [constructor | | | intros x' Hx _; now apply not_elem_of_nil in Hx].
      - intros c. split; [intros Hc; now apply not_elem_of_nil in Hc | intros (p & Hp & _)].
        exfalso. exact (lookup_empty_Some (M := gmap Z) c p Hp).
      - intros y. cbn. split; [intros Hc; now apply not_elem_of_nil in Hc | intros [[Hc _]|Hc]; exact Hc]. }
    unfold x. destruct provider as [m|]; [|exact H0]. destruct (String.eqb _ _); [exact H0|].
    destruct (String.eqb _ _); exact H0. }
  destruct x as [[e|] s1]; [exact H|]. cbn in H |- *. now destruct (_ =? _).
Qed.

Lemma mapM_elem {A} (f : Z -> option (list A)) l es c x v : mapM f l = Some es -> c ∈ l -> f c = Some v -> x ∈ v -> x ∈ concat es.
Proof.
  intros H. apply mapM_Some_1 in H. revert c. induction H as [|a b l es Hab _ IH]; intros c Hc Hf Hx; [now apply not_elem_of_nil in Hc|].
  cbn. apply elem_of_app. apply elem_of_cons in Hc as [->|Hc]; [left | right; now apply (IH c)].
  rewrite Hf in Hab. now injection Hab as <-.
Qed.

(** When a synchronisation is activated, every tracking connection of the new model
    gets the membership together with exactly the nodes that left and joined
    since the last activated membership, however often the synchronisation was
    interrupted and started again in between. *)
Theorem nodelist_notification_exact provider error es s :
  vsf_events_ok es (snd (quorum_exec_init_fn provider error vsf_zero)) ->
  vsf_run es (snd (quorum_exec_init_fn provider error vsf_zero)) = Some s ->
  exists s', quorum_sync_activate s = Some s' /\ vs_old_member_list s' = vs_member_list s /\
    (forall c p, c ∈ lib_trackers_list s -> vs_pds s !! c = Some p -> qp_model p = LIB_QUORUM_MODEL_V1 ->
       LibNodelist c (last_sync_ring_id s) (vs_member_list s) (vs_joined_list s) (vs_left_list s) ∈ vs_out s') /\
    forall x, x ∈ vs_member_list s <-> (x ∈ vs_old_member_list s /\ x ∉ vs_left_list s) \/ x ∈ vs_joined_list s.
Proof.
  intros Ok R. pose proof (vsf_reachable es _ _ (vsf_init_inv provider error) Ok R) as I.
  unfold quorum_sync_activate, send_nodelist_library_notification.
  set (s1 := s <| vs_old_member_list := vs_member_list s |>).
  destruct (mapM_pd (nodelist_notification true) s1 (lib_trackers_list s1)
    (fun c p Hp => ltac:(unfold nodelist_notification; now rewrite Hp)) (fun c Hc => tracker_open s c I Hc)) as [l E].
  rewrite E. eexists. split; [reflexivity|]. split; [reflexivity|]. split; [|apply I].
  intros c p Hc Hp Hm. change (LibNodelist c (last_sync_ring_id s) (vs_member_list s) (vs_joined_list s) (vs_left_list s)
    ∈ vs_out s ++ concat l). apply elem_of_app. right.
  apply (mapM_elem _ _ _ c _ [LibNodelist c (last_sync_ring_id s) (vs_member_list s) (vs_joined_list s) (vs_left_list s)] E);
    [exact Hc | | now apply list_elem_of_singleton].
  unfold nodelist_notification. change (vs_pds s1) with (vs_pds s). rewrite Hp. cbn [mbind option_bind]. now rewrite Hm.
Qed.

(** A change of the quorum is told to every service that registered a callback and to
    every tracking connection, and is what the daemon answers from then on. *)
Theorem quorum_change_reported provider error es s view_list q r :
  vsf_events_ok es (snd (quorum_exec_init_fn provider error vsf_zero)) ->
  vsf_run es (snd (quorum_exec_init_fn provider error vsf_zero)) = Some s ->
  (length view_list <= PROCESSOR_COUNT_MAX)%nat ->
  exists s', quorum_api_set_quorum view_list q r s = Some s' /\
    (corosync_quorum_fns s = true -> corosync_quorum_is_quorate s' = q) /\
    (forall f c, (f, c) ∈ internal_trackers_list s -> InternalCallback f c q ∈ vs_out s') /\
    (forall c p, c ∈ lib_trackers_list s -> vs_pds s !! c = Some p ->
      (qp_model p = LIB_QUORUM_MODEL_V0 -> LibNotificationV0 c q (ring_seq r) view_list ∈ vs_out s') /\
      (qp_model p = LIB_QUORUM_MODEL_V1 -> LibNotificationV1 c q r view_list ∈ vs_out s')).
Proof.
  intros Ok R Hl. pose proof (vsf_reachable es _ _ (vsf_init_inv provider error) Ok R) as I.
  unfold quorum_api_set_quorum, send_library_notification. apply Nat.leb_le in Hl. rewrite Hl.
  set (s0 := s <| primary_designated := q |> <| quorum_ring_id := r |> <| quorum_view_list := view_list |>).
  set (s1 := send_internal_notification s0).
  destruct (mapM_pd library_notification s1 (lib_trackers_list s1)
    (fun c p Hp => ltac:(unfold library_notification; now rewrite Hp)) (fun c Hc => tracker_open s c I Hc)) as [l E].
  rewrite E. eexists. split; [reflexivity|].
  set (calls := map (fun '(f, c) => InternalCallback f c q) (internal_trackers_list s)).
  change (vs_out (s1 <| vs_out ::= fun o => o ++ concat l |>)) with ((vs_out s ++ calls) ++ concat l).
  split; [|split].
  - intros F. change (corosync_quorum_is_quorate (s1 <| vs_out ::= _ |>)) with (if corosync_quorum_fns s then q else true).
    now rewrite F.
  - intros f c Hf. apply elem_of_app. left. apply elem_of_app. right. unfold calls.
    rewrite list_elem_of_In, in_map_iff. exists (f, c). split; [reflexivity | now apply list_elem_of_In].
  - intros c p Hc Hp. split; intros Hm; apply elem_of_app; right;
      refine (mapM_elem _ _ _ c _ [_] E Hc _ (proj2 (list_elem_of_singleton _ _) eq_refl));
      unfold library_notification; change (vs_pds s1) with (vs_pds s); rewrite Hp; cbn [mbind option_bind]; now rewrite Hm.
Qed.

(** A connection that does not track gets no error when it stops tracking: the error
    that was found is overwritten with success. *)
Theorem trackstop_error_lost s conn p : vs_pds s !! conn = Some p -> qp_tracking_enabled p = false ->
  message_handler_req_lib_quorum_trackstop conn s = Some (vs_emit (ResTrackstop conn CS_OK) s).
Proof. intros Hp Ht. unfold message_handler_req_lib_quorum_trackstop. rewrite Hp. cbn. now rewrite Ht. Qed.

(** ** A small run *)

Definition demo_vsf_events : list vsf_event :=
  [VRegister 7 1; VOpen 5; VModelGettype 5 1; VTrackstart 5 2; VSyncInit [1] [1; 2] (mk_ring 1 4); VSyncActivate;
   VSyncInit [1] [1; 3] (mk_ring 1 8); VSyncInit [1] [1; 3; 4] (mk_ring 1 12)].
Definition demo_vsf_start : vsf := snd (quorum_exec_init_fn (Some "corosync_votequorum"%string) None vsf_zero).
Definition demo_vsf : vsf := default vsf_zero (vsf_run demo_vsf_events demo_vsf_start).

Lemma demo_vsf_run : vsf_run demo_vsf_events demo_vsf_start = Some demo_vsf.
Proof. apply some_default. vm_compute. reflexivity. Qed.

Lemma demo_vsf_ok : vsf_events_ok demo_vsf_events demo_vsf_start.
Proof.
  vm_compute. repeat match goal with |- _ /\ _ => split end; try exact Logic.I; try lia; try (eexists; reflexivity).
Qed.

Lemma vsf_run_safe_witness : exists s', vsf_run demo_vsf_events demo_vsf_start = Some s' /\ vsf_inv s'.
Proof. exact (vsf_run_safe demo_vsf_events _ (vsf_init_inv _ _) demo_vsf_ok). Defined.

Lemma nodelist_notification_exact_witness : vs_left_list demo_vsf = [2] /\ vs_joined_list demo_vsf = [3; 4] /\
  exists s', quorum_sync_activate demo_vsf = Some s' /\ vs_old_member_list s' = [1; 3; 4].
Proof.
  split; [by_compute|]. split; [by_compute|].
  destruct (nodelist_notification_exact _ _ _ _ demo_vsf_ok demo_vsf_run) as (s' & E & H & _).
  exists s'. split; [exact E|]. etransitivity; [exact H|]. by_compute.
Defined.

Lemma quorum_change_reported_witness : exists s', quorum_api_set_quorum [1; 3] true (mk_ring 1 8) demo_vsf = Some s' /\
  corosync_quorum_is_quorate s' = true /\ InternalCallback 7 1 true ∈ vs_out s'.
Proof.
  destruct (quorum_change_reported _ _ _ _ [1; 3] true (mk_ring 1 8) demo_vsf_ok demo_vsf_run) as (s' & E & Q & C & _); [by_compute|].
  exists s'. split; [exact E|]. split; [apply Q; by_compute | apply C; by_compute].
Defined.

Lemma trackstop_error_lost_witness : exists s,
  message_handler_req_lib_quorum_trackstop 9 s = Some (vs_emit (ResTrackstop 9 CS_OK) s).
Proof.
  exists (quorum_lib_init_fn 9 demo_vsf_start).
  apply (trackstop_error_lost _ 9 (mk_quorum_pd 0 false LIB_QUORUM_MODEL_V0)); reflexivity.
Defined.
