(* ===== verification/Cpg.v ===== *)
(** * Closed process groups (exec/cpg.c)

    Every node keeps the list of all processes of all groups; processes join and
    leave with multicast messages, nodes that leave take their processes with
    them, and nodes that merge exchange their lists during synchronisation.
    Members learn about changes through configuration change callbacks.

    A group name is the list of its bytes ([length] of them; what is behind them
    in the fixed array only matters where the code takes the name as a C string,
    see [group_key]).  The private data of a connection is an entry of [pds], and
    [cpg_pd_list] the order in which the connections are linked.  A map of libqb is
    the list of its entries; the order in which an iteration visits them is the
    parameter [map_order].  An access outside an array is [None]. *)
From S2P Require Import Prelude VoteQuorum VoteQuorumExec TotemMemb TotemSrp.

Definition CPG_MAX_NAME_LENGTH : nat := 128.
Definition CPG_MEMBERS_MAX : nat := 128.
Definition CPG_MODEL_V1_DELIVER_INITIAL_TOTEM_CONF : Z := 1.
Definition CPG_ITERATION_NAME_ONLY : Z := 1.
Definition CPG_ITERATION_ONE_GROUP : Z := 2.
Definition CPG_REASON_UNDEFINED : Z := 0.
Definition CONFCHG_CPG_REASON_JOIN : Z := 1.
Definition CONFCHG_CPG_REASON_LEAVE : Z := 2.
Definition CONFCHG_CPG_REASON_NODEDOWN : Z := 3.
Definition CONFCHG_CPG_REASON_NODEUP : Z := 4.
Definition CONFCHG_CPG_REASON_PROCDOWN : Z := 5.
Definition LIBCPG_PARTIAL_FIRST : Z := 1.
Definition CS_ERR_LIBRARY : Z := 2.
Definition CS_ERR_BUSY : Z := 10.
Definition CS_ERR_NAME_TOO_LONG : Z := 13.
Definition CS_ERR_INTERRUPT : Z := 16.
Definition CS_ERR_NOT_SUPPORTED : Z := 19.
Definition CS_ERR_NO_SECTIONS : Z := 27.

Inductive cpd_state :=
| CPD_STATE_UNJOINED | CPD_STATE_LEAVE_STARTED | CPD_STATE_JOIN_STARTED | CPD_STATE_JOIN_COMPLETED.
#[export] Instance cpd_state_eq : EqDecision cpd_state.
Proof. solve_decision. Defined.

Inductive cpg_sync_state := CPGSYNC_DOWNLIST | CPGSYNC_JOINLIST.

Record process_info := mk_process_info { pi_nodeid : Z; pi_pid : Z; pi_group : list Z }.
#[export] Instance process_info_eq : EqDecision process_info.
Proof. solve_decision. Defined.

Record cpg_address := mk_cpg_address { a_nodeid : Z; a_pid : Z; a_reason : Z }.
#[export] Instance cpg_address_eq : EqDecision cpg_address.
Proof. solve_decision. Defined.

Record joinlist_msg := mk_joinlist_msg { jm_sender_nodeid : Z; jm_pid : Z; jm_group_name : list Z }.

Record cpg_iteration_instance := mk_cpg_iteration { it_items : list process_info; it_current : nat }.

Record cpg_pd := mk_cpg_pd {
  cp_group_name : list Z;
  cp_pid : Z;
  cp_state : cpd_state;
  cp_flags : Z;
  cp_initial_totem_conf_sent : bool;
  cp_transition_counter : Z;
  cp_initial_transition_counter : Z;
  cp_iterations : list Z
}.
#[export] Instance cpg_pd_eta : Etable cpg_pd := fun p =>
  mk_cpg_pd (cp_group_name p) (cp_pid p) (cp_state p) (cp_flags p) (cp_initial_totem_conf_sent p)
    (cp_transition_counter p) (cp_initial_transition_counter p) (cp_iterations p).

Inductive cpg_msg :=
| req_exec_cpg_procjoin (group_name : list Z) (pid reason : Z)
| req_exec_cpg_procleave (group_name : list Z) (pid reason : Z)
| req_exec_cpg_joinlist (entries : list (Z * list Z))
| req_exec_cpg_mcast (group_name : list Z) (pid : Z) (message : list Z)
| req_exec_cpg_partial_mcast (group_name : list Z) (msglen pid type : Z) (message : list Z)
| req_exec_cpg_downlist_old
| req_exec_cpg_downlist (old_members : Z) (nodeids : list Z).

Inductive cpg_effect :=
| CpgMcast (m : cpg_msg)
| CpgConfchg (conn : Z) (group : list Z) (members left joined : list cpg_address)
| CpgTotemConfchg (conn : Z) (r : ring_id) (members : list Z)
| CpgDeliver (conn : Z) (group : list Z) (nodeid pid : Z) (message : list Z)
| CpgPartialDeliver (conn : Z) (group : list Z) (nodeid pid msglen type : Z) (message : list Z)
| CpgResponse (conn error : Z)
| CpgResMembership (conn : Z) (members : list cpg_address)
| CpgResLocal (conn nodeid : Z)
| CpgResIteration (conn error handle : Z)
| CpgResNext (conn error : Z) (description : option process_info).

Record cpg := mk_cpg {
  cpg_pd_list : list Z;
  pds : gmap Z cpg_pd;
  cm_member_list : list Z;
  cm_old_member_list : list Z;
  cm_sync_state : cpg_sync_state;
  cm_ring_id : ring_id;
  process_info_list : list process_info;
  joinlist_messages : list joinlist_msg;
  downlist_nodeids : list Z;
  iterations : gmap Z cpg_iteration_instance;
  cpg_out : list cpg_effect
}.
#[export] Instance cpg_eta : Etable cpg := fun s =>
  mk_cpg (cpg_pd_list s) (pds s) (cm_member_list s) (cm_old_member_list s) (cm_sync_state s) (cm_ring_id s)
    (process_info_list s) (joinlist_messages s) (downlist_nodeids s) (iterations s) (cpg_out s).

(** After [cpg_exec_init_fn]. *)
Definition cpg_exec_init_fn : cpg := mk_cpg [] ∅ [] [] CPGSYNC_DOWNLIST (mk_ring 0 0) [] [] [] ∅ [].

Definition cpg_emit (e : cpg_effect) (s : cpg) : cpg := s <| cpg_out ::= fun o => o ++ [e] |>.

Definition name_eqb (a b : list Z) : bool := bool_decide (a = b).

Section Node.
Context (self : Z).   (* api->totem_nodeid_get () *)

(** ** Callbacks *)

Definition notify_lib_totem_membership (conn : option Z) (member_list : list Z) (s : cpg) : cpg :=
  s <| cpg_out ::= fun o => o ++ map (fun c => CpgTotemConfchg c (cm_ring_id s) member_list)
                                 (match conn with None => cpg_pd_list s | Some c => [c] end) |>.

Definition is_address (pi : process_info) (a : cpg_address) : bool :=
  (a_nodeid a =? pi_nodeid pi) && (a_pid a =? pi_pid pi).

Definition notify_lib_joinlist_fill_member_list (group_name : list Z) (left_list : list cpg_address)
    (l : list process_info) : list cpg_address :=
  map (fun pi => mk_cpg_address (pi_nodeid pi) (pi_pid pi) CPG_REASON_UNDEFINED)
    (List.filter (fun pi => name_eqb (pi_group pi) group_name && negb (existsb (is_address pi) left_list)) l).

(** Apply [f] to the private data of every linked connection. *)
Definition each_pd (f : cpg_pd -> cpg_pd) (s : cpg) : cpg := s <| pds ::= fun m => foldr (fun c m => alter f c m) m (cpg_pd_list s) |>.

(** The linked connections whose data satisfies [p]. *)
Definition pds_where (p : cpg_pd -> bool) (s : cpg) : list Z :=
  List.filter (fun c => match pds s !! c with Some d => p d | None => false end) (cpg_pd_list s).

Definition pd_joined (group_name : list Z) (joined : list cpg_address) (d : cpg_pd) : cpg_pd :=
  if existsb (fun a => (a_nodeid a =? self) && (a_pid a =? cp_pid d)) joined && name_eqb (cp_group_name d) group_name
  then d <| cp_state := CPD_STATE_JOIN_COMPLETED |> else d.

Definition pd_listens (group_name : list Z) (d : cpg_pd) : bool :=
  name_eqb (cp_group_name d) group_name &&
  (bool_decide (cp_state d = CPD_STATE_JOIN_COMPLETED) || bool_decide (cp_state d = CPD_STATE_LEAVE_STARTED)).

Definition pd_left (group_name : list Z) (left : list cpg_address) (d : cpg_pd) : cpg_pd :=
  foldl (fun d a =>
    if (a_nodeid a =? self) && (a_reason a =? CONFCHG_CPG_REASON_LEAVE) && (a_pid a =? cp_pid d)
       && name_eqb (cp_group_name d) group_name
    then d <| cp_pid := 0 |> <| cp_group_name := [] |> <| cp_state := CPD_STATE_UNJOINED |> else d) d left.

(** The loop over the left list runs [joined_list_entries] times. *)
Definition notify_lib_joinlist (group_name : list Z) (joined_list left_list : list cpg_address) (s : cpg) : option cpg :=
  let members := notify_lib_joinlist_fill_member_list group_name left_list (process_info_list s) in
  let s := each_pd (pd_joined group_name joined_list) s in
  let conns := pds_where (pd_listens group_name) s in
  let s := s <| cpg_out ::= fun o => o ++ map (fun c => CpgConfchg c group_name members left_list joined_list) conns |> in
  let s := each_pd (fun d => if pd_listens group_name d then d <| cp_transition_counter ::= fun n => u64 (n + 1) |> else d) s in
  s ← match left_list with
      | [] => Some s
      | _ => if Nat.leb (length joined_list) (length left_list)
             then Some (each_pd (pd_left group_name (take (length joined_list) left_list)) s) else None
      end;
  let initial d := has_flag (cp_flags d) CPG_MODEL_V1_DELIVER_INITIAL_TOTEM_CONF && negb (cp_initial_totem_conf_sent d) in
  let conns := pds_where initial s in
  let s := each_pd (fun d => if initial d then d <| cp_initial_totem_conf_sent := true |> else d) s in
  Some (foldl (fun s c => notify_lib_totem_membership (Some c) (cm_old_member_list s) s) s conns).

(** ** Processes *)

Definition process_info_find (group_name : list Z) (pid nodeid : Z) (l : list process_info) : bool :=
  existsb (fun pi => (pi_pid pi =? pid) && (pi_nodeid pi =? nodeid) && name_eqb (pi_group pi) group_name) l.

(** In front of the first entry with a higher node id, or the same and a higher pid. *)
Fixpoint process_info_insert (pi : process_info) (l : list process_info) : list process_info :=
  match l with
  | [] => [pi]
  | e :: l' => if (pi_nodeid pi <? pi_nodeid e) || (pi_nodeid e =? pi_nodeid pi) && (pi_pid pi <? pi_pid e)
               then pi :: l else e :: process_info_insert pi l'
  end.

(** The key under which a group is found in the maps: the name as a C string.  A
    name that fills the array has no terminator; behind a shorter one the array is
    taken to be zero. *)
Fixpoint c_string (l : list Z) : list Z :=
  match l with [] => [] | c :: l => if c =? 0 then [] else c :: c_string l end.
Definition group_key (name : list Z) : option (list Z) :=
  if Nat.ltb (length name) CPG_MAX_NAME_LENGTH then Some (c_string name) else None.

(** A map from keys to the group and its changes: add a change under a key. *)
Definition group_map := list (list Z * (list Z * list cpg_address)).
Fixpoint group_map_add (key group : list Z) (a : cpg_address) (m : group_map) : group_map :=
  match m with
  | [] => [(key, (group, [a]))]
  | (k, (g, l)) :: m' =>
      if name_eqb k key then (k, (g, l ++ [a])) :: m'
      else (k, (g, l)) :: group_map_add key group a m'
  end.

Definition map_room (m : group_map) : bool := forallb (fun x => Nat.leb (length (snd (snd x))) CPG_MEMBERS_MAX) m.

Definition group_map_put (group : list Z) (a : cpg_address) (m : group_map) : option group_map :=
  key ← group_key group; let m := group_map_add key group a m in if map_room m then Some m else None.

Definition add_process (pi : process_info) (s : cpg) : cpg := s <| process_info_list ::= process_info_insert pi |>.

(** [do_proc_join] without a map: the group is notified at once. *)
Definition do_proc_join (name : list Z) (pid nodeid reason : Z) (s : cpg) : option cpg :=
  if process_info_find name pid nodeid (process_info_list s) then Some s
  else notify_lib_joinlist name [mk_cpg_address nodeid pid reason] [] (add_process (mk_process_info nodeid pid name) s).

(** [do_proc_join] with a map: the notification is collected. *)
Definition do_proc_join_map (name : list Z) (pid nodeid reason : Z) (m : group_map) (s : cpg) : option (group_map * cpg) :=
  if process_info_find name pid nodeid (process_info_list s) then Some (m, s)
  else
    m ← group_map_put name (mk_cpg_address nodeid pid reason) m;
    Some (m, add_process (mk_process_info nodeid pid name) s).

Definition same_process (name : list Z) (pid nodeid : Z) (pi : process_info) : bool :=
  (pi_pid pi =? pid) && (pi_nodeid pi =? nodeid) && name_eqb (pi_group pi) name.

Definition do_proc_leave (name : list Z) (pid nodeid reason : Z) (s : cpg) : option cpg :=
  s ← notify_lib_joinlist name [] [mk_cpg_address nodeid pid reason] s;
  Some (s <| process_info_list ::= List.filter (fun pi => negb (same_process name pid nodeid pi)) |>).

(** ** Synchronisation *)

Context (map_order : group_map -> group_map).   (* of a [qb_map_iter_t] *)

Definition in_nodes (l : list Z) (n : Z) : bool := existsb (Z.eqb n) l.

Definition cpg_sync_init (trans_list member_list : list Z) (r : ring_id) (s : cpg) : option cpg :=
  if Nat.leb (length member_list) PROCESSOR_COUNT_MAX then
    Some (s <| cm_sync_state := CPGSYNC_DOWNLIST |> <| cm_member_list := member_list |> <| cm_ring_id := r |>
            <| downlist_nodeids := List.filter (fun n => negb (in_nodes trans_list n)) (cm_old_member_list s) |>)
  else None.

Definition cpg_exec_send_downlist (ok : bool) (s : cpg) : Z * cpg :=
  if ok then (0, cpg_emit (CpgMcast (req_exec_cpg_downlist (Z.of_nat (length (cm_old_member_list s))) (downlist_nodeids s))) s)
  else (-1, s).

Definition cpg_exec_send_joinlist (ok : bool) (s : cpg) : Z * cpg :=
  let l := map (fun pi => (pi_pid pi, pi_group pi)) (List.filter (fun pi => pi_nodeid pi =? self) (process_info_list s)) in
  match l with
  | [] => (0, s)
  | _ => if ok then (0, cpg_emit (CpgMcast (req_exec_cpg_joinlist l)) s) else (-1, s)
  end.

(** [ok_down] and [ok_join]: whether the multicasts are accepted. *)
Definition cpg_sync_process (ok_down ok_join : bool) (s : cpg) : Z * cpg :=
  let '(res, s) := match cm_sync_state s with
                   | CPGSYNC_DOWNLIST =>
                       let '(res, s) := cpg_exec_send_downlist ok_down s in
                       if res =? -1 then (-1, s) else (res, s <| cm_sync_state := CPGSYNC_JOINLIST |>)
                   | CPGSYNC_JOINLIST => (0, s)
                   end in
  if res =? -1 then (-1, s) else cpg_exec_send_joinlist ok_join s.

Fixpoint notify_map (f : list Z -> list cpg_address -> cpg -> option cpg) (m : group_map) (s : cpg) : option cpg :=
  match m with [] => Some s | (_, (g, l)) :: m => s ← f g l s; notify_map f m s end.

Fixpoint collect_left (l : list process_info) (m : group_map) : option group_map :=
  match l with
  | [] => Some m
  | pi :: l => m ← group_map_put (pi_group pi) (mk_cpg_address (pi_nodeid pi) (pi_pid pi) CONFCHG_CPG_REASON_NODEDOWN) m;
               collect_left l m
  end.

Definition downlist_inform_clients (s : cpg) : option cpg :=
  let down pi := in_nodes (downlist_nodeids s) (pi_nodeid pi) in
  m ← collect_left (List.filter down (process_info_list s)) [];
  notify_map (fun g l => notify_lib_joinlist g [] l) (map_order m)
    (s <| process_info_list ::= List.filter (fun pi => negb (down pi)) |>).

Definition announces (pi : process_info) (j : joinlist_msg) : bool :=
  (pi_nodeid pi =? jm_sender_nodeid j) && (pi_pid pi =? jm_pid j) && name_eqb (pi_group pi) (jm_group_name j).

(** The processes of other nodes that no list message announces. *)
Definition is_zombie (s : cpg) (pi : process_info) : bool :=
  negb (pi_nodeid pi =? self) &&
  negb (existsb (fun j => negb (jm_sender_nodeid j =? self) && announces pi j) (joinlist_messages s)).

Fixpoint remove_zombies (l : list process_info) (s : cpg) : option cpg :=
  match l with
  | [] => Some s
  | pi :: l =>
      s ← (if is_zombie s pi then do_proc_leave (pi_group pi) (pi_pid pi) (pi_nodeid pi) CONFCHG_CPG_REASON_PROCDOWN s
           else Some s);
      remove_zombies l s
  end.

Definition joinlist_remove_zombie_pi_entries (s : cpg) : option cpg := remove_zombies (process_info_list s) s.

Fixpoint join_announced (l : list joinlist_msg) (m : group_map) (s : cpg) : option (group_map * cpg) :=
  match l with
  | [] => Some (m, s)
  | j :: l =>
      if jm_sender_nodeid j =? self then join_announced l m s
      else
        '(m, s) ← do_proc_join_map (jm_group_name j) (jm_pid j) (jm_sender_nodeid j) CONFCHG_CPG_REASON_NODEUP m s;
        join_announced l m s
  end.

Definition joinlist_inform_clients (s : cpg) : option cpg :=
  '(m, s) ← join_announced (joinlist_messages s) [] s;
  s ← notify_map (fun g l => notify_lib_joinlist g l []) (map_order m) s;
  joinlist_remove_zombie_pi_entries s.

Definition joinlist_messages_delete (s : cpg) : cpg := s <| joinlist_messages := [] |>.

Definition cpg_sync_activate (s : cpg) : option cpg :=
  let s := s <| cm_old_member_list := cm_member_list s |> in
  s ← downlist_inform_clients s;
  s ← joinlist_inform_clients s;
  let s := joinlist_messages_delete s in
  Some (notify_lib_totem_membership None (cm_member_list s) s).

Definition cpg_sync_abort (s : cpg) : cpg := joinlist_messages_delete s.

(** ** Messages *)

Definition cpg_node_joinleave_send (m : cpg_msg) (s : cpg) : cpg := cpg_emit (CpgMcast m) s.

Definition known_node (group_name : list Z) (nodeid : Z) (s : cpg) : bool :=
  existsb (fun pi => (pi_nodeid pi =? nodeid) && name_eqb (pi_group pi) group_name) (process_info_list s).

Definition deliver_to (group_name : list Z) (nodeid : Z) (f : Z -> cpg_effect) (s : cpg) : cpg :=
  if known_node group_name nodeid s
  then s <| cpg_out ::= fun o => o ++ map f (pds_where (pd_listens group_name) s) |> else s.

Definition message_handler_req_exec_cpg_mcast (group_name : list Z) (pid : Z) (message : list Z) (nodeid : Z) (s : cpg) : cpg :=
  deliver_to group_name nodeid (fun c => CpgDeliver c group_name nodeid pid message) s.

Definition message_handler_req_exec_cpg_partial_mcast (group_name : list Z) (msglen pid type : Z) (message : list Z)
    (nodeid : Z) (s : cpg) : cpg :=
  deliver_to group_name nodeid (fun c => CpgPartialDeliver c group_name nodeid pid msglen type message) s.

(** Each entry goes to the front of the list. *)
Definition message_handler_req_exec_cpg_joinlist (entries : list (Z * list Z)) (nodeid : Z) (s : cpg) : cpg :=
  s <| joinlist_messages ::= fun l => foldl (fun l '(pid, g) => mk_joinlist_msg nodeid pid g :: l) l entries |>.

Definition cpg_deliver (m : cpg_msg) (nodeid : Z) (s : cpg) : option cpg :=
  match m with
  | req_exec_cpg_procjoin g pid _ => do_proc_join g pid nodeid CONFCHG_CPG_REASON_JOIN s
  | req_exec_cpg_procleave g pid reason => do_proc_leave g pid nodeid reason s
  | req_exec_cpg_joinlist l => Some (message_handler_req_exec_cpg_joinlist l nodeid s)
  | req_exec_cpg_mcast g pid msg => Some (message_handler_req_exec_cpg_mcast g pid msg nodeid s)
  | req_exec_cpg_partial_mcast g len pid t msg => Some (message_handler_req_exec_cpg_partial_mcast g len pid t msg nodeid s)
  | req_exec_cpg_downlist_old | req_exec_cpg_downlist _ _ => Some s
  end.

(** ** Library requests *)

Definition zero_pd : cpg_pd := mk_cpg_pd [] 0 CPD_STATE_UNJOINED 0 false 0 0 [].

Definition cpg_lib_init_fn (conn : Z) (s : cpg) : cpg :=
  s <| pds ::= <[conn := zero_pd]> |> <| cpg_pd_list ::= cons conn |>.

Definition unlink (conn : Z) (s : cpg) : cpg := s <| cpg_pd_list ::= List.filter (fun c => negb (c =? conn)) |>.

Definition cpg_pd_finalize (conn : Z) (d : cpg_pd) (s : cpg) : cpg :=
  unlink conn (s <| iterations ::= fun m => foldr delete m (cp_iterations d) |>).

Definition cpg_lib_exit_fn (conn : Z) (s : cpg) : option cpg :=
  d ← pds s !! conn;
  let s := if Nat.ltb 0 (length (cp_group_name d)) && negb (bool_decide (cp_state d = CPD_STATE_LEAVE_STARTED))
           then cpg_node_joinleave_send (req_exec_cpg_procleave (cp_group_name d) (cp_pid d) CONFCHG_CPG_REASON_PROCDOWN) s
           else s in
  Some (cpg_pd_finalize conn d s <| pds ::= delete conn |>).

(** The error of a join request and whether it is carried out. *)
Definition join_error (group_name : list Z) (pid : Z) (d : cpg_pd) (s : cpg) : Z :=
  if Nat.ltb 0 (length (pds_where (fun i => (cp_pid i =? pid) && name_eqb group_name (cp_group_name i)) s)) then CS_ERR_EXIST
  else if existsb (fun pi => (pi_nodeid pi =? self) && (pi_pid pi =? pid) && name_eqb group_name (pi_group pi)) (process_info_list s)
  then CS_ERR_TRY_AGAIN
  else if Nat.ltb CPG_MAX_NAME_LENGTH (length group_name) then CS_ERR_NAME_TOO_LONG
  else match cp_state d with
       | CPD_STATE_UNJOINED => CS_OK
       | CPD_STATE_LEAVE_STARTED => CS_ERR_BUSY
       | CPD_STATE_JOIN_STARTED | CPD_STATE_JOIN_COMPLETED => CS_ERR_EXIST
       end.

Definition message_handler_req_lib_cpg_join (conn : Z) (group_name : list Z) (pid flags : Z) (s : cpg) : option cpg :=
  d ← pds s !! conn;
  let error := join_error group_name pid d s in
  let s := if error =? CS_OK then
             cpg_node_joinleave_send (req_exec_cpg_procjoin group_name pid CONFCHG_CPG_REASON_JOIN)
               (s <| pds ::= <[conn := d <| cp_state := CPD_STATE_JOIN_STARTED |> <| cp_pid := pid |> <| cp_flags := flags |>
                                        <| cp_group_name := group_name |>]> |>)
           else s in
  Some (cpg_emit (CpgResponse conn error) s).

Definition message_handler_req_lib_cpg_leave (conn : Z) (group_name : list Z) (pid : Z) (s : cpg) : option cpg :=
  d ← pds s !! conn;
  let '(error, s) :=
    match cp_state d with
    | CPD_STATE_UNJOINED | CPD_STATE_LEAVE_STARTED => (CS_ERR_NOT_EXIST, s)
    | CPD_STATE_JOIN_STARTED => (CS_ERR_BUSY, s)
    | CPD_STATE_JOIN_COMPLETED =>
        (CS_OK, cpg_node_joinleave_send (req_exec_cpg_procleave group_name pid CONFCHG_CPG_REASON_LEAVE)
                  (s <| pds ::= <[conn := d <| cp_state := CPD_STATE_LEAVE_STARTED |>]> |>))
    end in
  Some (cpg_emit (CpgResponse conn error) s).

Definition message_handler_req_lib_cpg_finalize (conn : Z) (s : cpg) : option cpg :=
  _ ← pds s !! conn; Some (cpg_emit (CpgResponse conn CS_OK) (unlink conn s)).

Definition mcast_error (d : cpg_pd) : Z :=
  match cp_state d with
  | CPD_STATE_UNJOINED | CPD_STATE_LEAVE_STARTED => CS_ERR_NOT_EXIST
  | CPD_STATE_JOIN_STARTED | CPD_STATE_JOIN_COMPLETED => CS_OK
  end.

(** [ok]: the multicast is accepted; the code asserts that it is. *)
Definition message_handler_req_lib_cpg_mcast (conn : Z) (message : list Z) (ok : bool) (s : cpg) : option cpg :=
  d ← pds s !! conn;
  if mcast_error d =? CS_OK
  then if ok then Some (cpg_emit (CpgMcast (req_exec_cpg_mcast (cp_group_name d) (cp_pid d) message)) s) else None
  else Some s.

Definition message_handler_req_lib_cpg_partial_mcast (conn msglen type : Z) (message : list Z) (ok : bool) (s : cpg) : option cpg :=
  d ← pds s !! conn;
  let d' := if type =? LIBCPG_PARTIAL_FIRST then d <| cp_initial_transition_counter := cp_transition_counter d |> else d in
  let s := s <| pds ::= <[conn := d']> |> in
  let error := if cp_transition_counter d' =? cp_initial_transition_counter d' then mcast_error d else CS_ERR_INTERRUPT in
  s ← (if error =? CS_OK
       then if ok
            then Some (cpg_emit (CpgMcast (req_exec_cpg_partial_mcast (cp_group_name d) msglen (cp_pid d) type message)) s)
            else None
       else Some s);
  Some (cpg_emit (CpgResponse conn error) s).

(** The answer has room for [PROCESSOR_COUNT_MAX] members. *)
Definition message_handler_req_lib_cpg_membership (conn : Z) (group_name : list Z) (s : cpg) : option cpg :=
  let l := notify_lib_joinlist_fill_member_list group_name [] (process_info_list s) in
  if Nat.leb (length l) PROCESSOR_COUNT_MAX then Some (cpg_emit (CpgResMembership conn l) s) else None.

Definition message_handler_req_lib_cpg_local_get (conn : Z) (s : cpg) : cpg := cpg_emit (CpgResLocal conn self) s.

Definition message_handler_req_lib_cpg_null (conn : Z) (s : cpg) : cpg := cpg_emit (CpgResponse conn CS_ERR_NOT_SUPPORTED) s.

(** ** Iterations *)

(** Behind the first entry of the same group, or at the front. *)
Fixpoint insert_behind (pi : process_info) (l : list process_info) : option (list process_info) :=
  match l with
  | [] => None
  | e :: l' => if name_eqb (pi_group e) (pi_group pi) then Some (e :: pi :: l')
               else l' ← insert_behind pi l'; Some (e :: l')
  end.

Definition iteration_add (type : Z) (group_name : list Z) (items : list process_info) (pi : process_info) : list process_info :=
  let pi' := if type =? CPG_ITERATION_NAME_ONLY then mk_process_info 0 0 (pi_group pi) else pi in
  if (type =? CPG_ITERATION_NAME_ONLY) && existsb (fun e => name_eqb (pi_group e) (pi_group pi)) items then items
  else if (type =? CPG_ITERATION_ONE_GROUP) && negb (name_eqb (pi_group pi) group_name) then items
  else match insert_behind pi' items with Some l => l | None => pi' :: items end.

(** [handle] is what [hdb_handle_create] returns. *)
Definition message_handler_req_lib_cpg_iteration_initialize (conn type : Z) (group_name : list Z) (handle : Z) (s : cpg) : option cpg :=
  d ← pds s !! conn;
  let items := foldl (iteration_add type group_name) [] (process_info_list s) in
  Some (cpg_emit (CpgResIteration conn CS_OK handle)
          (s <| iterations ::= <[handle := mk_cpg_iteration items 0]> |>
             <| pds ::= <[conn := d <| cp_iterations ::= cons handle |>]> |>)).

(** Position 0 is the head of the list. *)
Definition message_handler_req_lib_cpg_iteration_next (conn handle : Z) (s : cpg) : cpg :=
  match iterations s !! handle with
  | None => cpg_emit (CpgResNext conn CS_ERR_LIBRARY None) s
  | Some it =>
      let cur := if Nat.ltb (it_current it) (length (it_items it)) then S (it_current it) else 0%nat in
      let s := s <| iterations ::= <[handle := mk_cpg_iteration (it_items it) cur]> |> in
      match cur with
      | O => cpg_emit (CpgResNext conn CS_ERR_NO_SECTIONS None) s
      | S k => cpg_emit (CpgResNext conn CS_OK (it_items it !! k)) s
      end
  end.

Definition message_handler_req_lib_cpg_iteration_finalize (conn handle : Z) (s : cpg) : cpg :=
  match iterations s !! handle with
  | None => cpg_emit (CpgResponse conn CS_ERR_LIBRARY) s
  | Some _ =>
      cpg_emit (CpgResponse conn CS_OK)
        (s <| iterations ::= delete handle |>
           <| pds ::= fmap (fun d => d <| cp_iterations ::= List.filter (fun h => negb (h =? handle)) |>) |>)
  end.

End Node.
