(* ===== verification/CpgTheory.v ===== *)
(** * Closed process groups: notifications and the process list *)
From S2P Require Import Prelude VoteQuorum VoteQuorumExec TotemMemb TotemSrp Cpg.

Lemma name_eqb_true a b : name_eqb a b = true <-> a = b.
Proof. unfold name_eqb. apply bool_decide_eq_true. Qed.

Lemma name_eqb_refl a : name_eqb a a = true.
Proof. now apply name_eqb_true. Qed.

(** ** Connections *)

(** The connection is a member of the group [g], or was until its leave arrives. *)
Definition listens (c : Z) (g : list Z) (s : cpg) : Prop :=
  c ∈ cpg_pd_list s /\ exists d, pds s !! c = Some d /\ pd_listens g d = true.

Lemma each_pd_lookup f s c (P : cpg_pd -> Prop) : (forall d, P d -> P (f d)) ->
  (exists d, pds s !! c = Some d /\ P d) -> exists d, pds (each_pd f s) !! c = Some d /\ P d.
Proof.
  intros Hf. unfold each_pd. cbn. induction (cpg_pd_list s) as [|x l IH]; cbn; intros H; [exact H|].
  destruct (IH H) as (d & Hd & Pd). destruct (decide (x = c)) as [->|Ne].
  - exists (f d). rewrite lookup_alter_eq, Hd. split; [reflexivity | now apply Hf].
  - exists d. now rewrite lookup_alter_ne by exact Ne.
Qed.

Lemma each_pd_listens f c g s : (forall d, pd_listens g d = true -> pd_listens g (f d) = true) ->
  listens c g s -> listens c g (each_pd f s).
Proof. intros Hf [Hc Hd]. split; [exact Hc|]. now apply each_pd_lookup. Qed.

Lemma pds_where_listens g c s : listens c g s -> c ∈ pds_where (pd_listens g) s.
Proof. intros [Hc (d & Hd & L)]. unfold pds_where. rewrite list_elem_of_In, filter_In, Hd. split; [now apply list_elem_of_In | exact L]. Qed.

Lemma pds_where_nodup p s : NoDup (cpg_pd_list s) -> NoDup (pds_where p s).
Proof.
  unfold pds_where. induction 1 as [|x l Hx _ IH]; cbn; [constructor|]. destruct (match pds s !! x with Some d => p d | None => false end); [|exact IH].
  constructor; [|exact IH]. contradict Hx. rewrite list_elem_of_In, filter_In in Hx. now apply list_elem_of_In.
Qed.

(** Nothing but [pds] and the outputs changes. *)
Record same_lists (s s' : cpg) : Prop := {
  sl_pd_list : cpg_pd_list s' = cpg_pd_list s;
  sl_members : cm_member_list s' = cm_member_list s;
  sl_old : cm_old_member_list s' = cm_old_member_list s;
  sl_process : process_info_list s' = process_info_list s;
  sl_joinlist : joinlist_messages s' = joinlist_messages s;
  sl_downlist : downlist_nodeids s' = downlist_nodeids s;
  sl_iterations : iterations s' = iterations s
}.

#[export] Instance same_lists_refl : Reflexive same_lists.
Proof. intros s. now constructor. Qed.

#[export] Instance same_lists_trans : Transitive same_lists.
Proof. intros s t u [] []. constructor; congruence. Qed.

(** ** What a connection is told about a group *)

Definition note := (list cpg_address * list cpg_address * list cpg_address)%type.

Definition notes_of (c : Z) (g : list Z) (l : list cpg_effect) : list note :=
  omap (fun e => match e with
                 | CpgConfchg c' g' m l j => if bool_decide (c' = c /\ g' = g) then Some (m, l, j) else None
                 | _ => None
                 end) l.

Definition notes (c : Z) (g : list Z) (s : cpg) : list note := notes_of c g (cpg_out s).

Lemma notes_confchg c g g' m l j conns : NoDup conns -> c ∈ conns ->
  notes_of c g (map (fun c => CpgConfchg c g' m l j) conns) = if bool_decide (g' = g) then [(m, l, j)] else [].
Proof.
  intros N H. case_bool_decide as E.
  - subst g'. induction N as [|x k Hx _ IH]; [now apply not_elem_of_nil in H|]. unfold notes_of in *. cbn.
    apply elem_of_cons in H as [->|H].
    + rewrite bool_decide_true by easy. cbn. f_equal. clear -Hx. induction k as [|y k IH]; [reflexivity|]. cbn.
      rewrite bool_decide_false by (intros [-> _]; apply Hx; left). apply IH. intros H. apply Hx. now right.
    + rewrite bool_decide_false by (intros [-> _]; tauto). now apply IH.
  - clear N H. unfold notes_of. induction conns as [|x k IH]; [reflexivity|]. cbn. now rewrite bool_decide_false by naive_solver.
Qed.

Lemma notes_totem c g r m conns : notes_of c g (map (fun c => CpgTotemConfchg c r m) conns) = [].
Proof. unfold notes_of. induction conns as [|x k IH]; [reflexivity | exact IH]. Qed.

Section Node.
Context (self : Z).

Lemma totem_membership_fold conns s :
  let s' := foldl (fun s c => notify_lib_totem_membership (Some c) (cm_old_member_list s) s) s conns in
  same_lists s s' /\ pds s' = pds s /\ forall c g, notes c g s' = notes c g s.
Proof.
  revert s. induction conns as [|x l IH]; intros s; cbn [foldl]; [now split_and!; [constructor| |]|].
  destruct (IH (notify_lib_totem_membership (Some x) (cm_old_member_list s) s)) as ([] & Hp & Hn).
  split; [constructor; assumption|]. split; [exact Hp|]. intros c g. rewrite Hn.
  unfold notes, notes_of, notify_lib_totem_membership. cbn. rewrite omap_app. apply app_nil_r.
Qed.

Lemma pd_joined_listens g' j g d : pd_listens g d = true -> pd_listens g (pd_joined self g' j d) = true.
Proof.
  unfold pd_joined. destruct (_ && _); [|easy]. unfold pd_listens. rewrite !andb_true_iff. intros [E _]. now split.
Qed.

Lemma notify_spec g' j l s s' : notify_lib_joinlist self g' j l s = Some s' -> j = [] \/ l = [] -> NoDup (cpg_pd_list s) ->
  same_lists s s' /\ forall c g, listens c g s ->
    listens c g s' /\ notes c g s' = notes c g s ++
      (if bool_decide (g' = g) then [(notify_lib_joinlist_fill_member_list g' l (process_info_list s), l, j)] else []).
Proof.
  intros E Hjl N. unfold notify_lib_joinlist in E.
  set (s1 := each_pd (pd_joined self g' j) s) in E.
  set (ms := notify_lib_joinlist_fill_member_list g' l (process_info_list s)) in *.
  set (s2 := s1 <| cpg_out ::= fun o => o ++ map (fun c => CpgConfchg c g' ms l j) (pds_where (pd_listens g') s1) |>) in E.
  set (tick := fun d => if pd_listens g' d then d <| cp_transition_counter ::= fun n => u64 (n + 1) |> else d) in E.
  set (s3 := each_pd tick s2) in E.
  assert (E3 : (match l with [] => Some s3 | _ => if Nat.leb (length j) (length l)
      then Some (each_pd (pd_left self g' (take (length j) l)) s3) else None end) = Some s3
    \/ l <> [] /\ j = []).
  { destruct Hjl as [->| ->]; [destruct l; [now left | right; now split] | now left]. }
  assert (F3 : exists s4, (match l with [] => Some s3 | _ => if Nat.leb (length j) (length l)
      then Some (each_pd (pd_left self g' (take (length j) l)) s3) else None end) = Some s4 /\
      same_lists s3 s4 /\ cpg_out s4 = cpg_out s3 /\ forall c g, listens c g s3 -> listens c g s4).
  { destruct E3 as [->|[Hl ->]]; [exists s3; split_and!; [reflexivity.. | easy]|]. destruct l as [|a l]; [easy|]. cbn [length Nat.leb take].
    eexists. split; [reflexivity|]. split; [now constructor|]. split; [reflexivity|]. intros c g. now apply each_pd_listens. }
  destruct F3 as (s4 & E4 & S4 & O4 & L4). rewrite E4 in E. cbn [mbind option_bind] in E.
  set (init := fun d => has_flag (cp_flags d) CPG_MODEL_V1_DELIVER_INITIAL_TOTEM_CONF && negb (cp_initial_totem_conf_sent d)).
  set (s5 := each_pd (fun d => if init d then d <| cp_initial_totem_conf_sent := true |> else d) s4).
  destruct (totem_membership_fold (pds_where init s4) s5) as (S6 & P6 & N6).
  set (s6 := foldl _ s5 _) in *. change (Some s6 = Some s') in E. injection E as <-. clearbody s6.
  assert (S5 : same_lists s s5).
  { transitivity s4; [transitivity s3|]; [now constructor | exact S4 | now constructor]. }
  split; [transitivity s5; [exact S5 | exact S6]|]. intros c g L.
  assert (L1 : listens c g s1) by (apply each_pd_listens; [apply pd_joined_listens | exact L]).
  assert (L3 : listens c g s3).
  { apply each_pd_listens; [|exact L1]. intros d. unfold tick. now destruct (pd_listens g' d). }
  assert (L5 : listens c g s5).
  { apply each_pd_listens; [|now apply L4]. intros d. now destruct (init d). }
  split.
  - destruct L5 as [Hc Hd]. split; [now rewrite (sl_pd_list _ _ S6) | now rewrite P6].
  - rewrite N6. unfold notes. change (cpg_out s5) with (cpg_out s4). rewrite O4.
    change (cpg_out s3) with (cpg_out s ++ map (fun c => CpgConfchg c g' ms l j) (pds_where (pd_listens g') s1)).
    unfold notes_of at 1. rewrite omap_app. f_equal. fold (notes_of c g (map (fun c => CpgConfchg c g' ms l j) (pds_where (pd_listens g') s1))).
    destruct (decide (g' = g)) as [->|Ne].
    + apply notes_confchg; [now apply pds_where_nodup | now apply pds_where_listens].
    + rewrite bool_decide_false by exact Ne. clear -Ne. unfold notes_of. induction (pds_where _ _) as [|x k IH]; [reflexivity|].
      cbn. now rewrite bool_decide_false by naive_solver.
Qed.

End Node.

(** ** Members of a group *)

Definition addr_set (l : list cpg_address) : gset (Z * Z) := list_to_set (map (fun a => (a_nodeid a, a_pid a)) l).
Definition members_of (g : list Z) (l : list process_info) : gset (Z * Z) :=
  addr_set (notify_lib_joinlist_fill_member_list g [] l).

Lemma elem_of_addr_set n p l : (n, p) ∈ addr_set l <-> exists r, mk_cpg_address n p r ∈ l.
Proof.
  unfold addr_set. rewrite elem_of_list_to_set, list_elem_of_In, in_map_iff. setoid_rewrite list_elem_of_In. split.
  - intros ([n' p' r] & [= -> ->] & H). now exists r.
  - intros [r H]. eexists. split; [|exact H]. reflexivity.
Qed.

Lemma is_address_spec n p g l : existsb (is_address (mk_process_info n p g)) l = true <-> (n, p) ∈ addr_set l.
Proof.
  rewrite existsb_exists, elem_of_addr_set. split.
  - intros ([n' p' r] & H & E). unfold is_address in E. cbn in E. apply andb_true_iff in E as [->%Z.eqb_eq ->%Z.eqb_eq]. exists r. now apply list_elem_of_In.
  - intros [r H]. eexists. split; [apply list_elem_of_In; exact H|]. unfold is_address. cbn. now rewrite !Z.eqb_refl.
Qed.

Lemma elem_of_fill g left l n p : (n, p) ∈ addr_set (notify_lib_joinlist_fill_member_list g left l) <->
  mk_process_info n p g ∈ l /\ (n, p) ∉ addr_set left.
Proof.
  rewrite elem_of_addr_set. unfold notify_lib_joinlist_fill_member_list. setoid_rewrite list_elem_of_In.
  setoid_rewrite in_map_iff. setoid_rewrite filter_In. split.
  - intros (r & [n' p' g'] & [= -> -> <-] & Hin & [Hg%name_eqb_true Hl%negb_true_iff]%andb_true_iff). cbn in Hg. subst g'.
    split; [exact Hin|]. now rewrite <- (is_address_spec n p g), Hl.
  - intros [Hin Hl]. exists CPG_REASON_UNDEFINED, (mk_process_info n p g). split; [reflexivity|].
    split; [exact Hin|]. cbn. rewrite name_eqb_refl. cbn. apply negb_true_iff, not_true_iff_false.
    now rewrite is_address_spec.
Qed.

Lemma elem_of_members g l n p : (n, p) ∈ members_of g l <-> mk_process_info n p g ∈ l.
Proof. unfold members_of. rewrite elem_of_fill. set_solver. Qed.

(** The members a notification names are those before it, with the joined and
    without the left. *)
Fixpoint replays (l : list note) (m m' : gset (Z * Z)) : Prop :=
  match l with
  | [] => m = m'
  | (ms, gone, joined) :: l => addr_set ms = (m ∪ addr_set joined) ∖ addr_set gone /\ replays l (addr_set ms) m'
  end.

Lemma replays_app l k m m1 m' : replays l m m1 -> replays k m1 m' -> replays (l ++ k) m m'.
Proof. revert m. induction l as [|[[ms gone] joined] l IH]; cbn; intros m; [now intros ->|]. intros [E R] K. split; [exact E | now apply IH]. Qed.

Definition told (c : Z) (g : list Z) (s s' : cpg) : Prop :=
  listens c g s' /\ exists l, notes c g s' = notes c g s ++ l /\
    replays l (members_of g (process_info_list s)) (members_of g (process_info_list s')).

Lemma told_trans c g s t u : told c g s t -> told c g t u -> told c g s u.
Proof.
  intros (_ & l & E & R) (L & k & E' & R'). split; [exact L|]. exists (l ++ k). rewrite E', E, <- app_assoc.
  split; [reflexivity|]. exact (replays_app _ _ _ _ _ R R').
Qed.

Lemma told_same c g s s' : listens c g s' -> notes c g s' = notes c g s ->
  members_of g (process_info_list s) = members_of g (process_info_list s') -> told c g s s'.
Proof. intros L N M. split; [exact L|]. exists []. rewrite app_nil_r. now split. Qed.

Lemma told_once c g s s' ms gone joined : listens c g s' -> notes c g s' = notes c g s ++ [(ms, gone, joined)] ->
  addr_set ms = members_of g (process_info_list s') ->
  (forall n p, (n, p) ∈ members_of g (process_info_list s') <->
     ((n, p) ∈ members_of g (process_info_list s) \/ (n, p) ∈ addr_set joined) /\ (n, p) ∉ addr_set gone) ->
  told c g s s'.
Proof.
  intros L N E H. split; [exact L|]. exists [(ms, gone, joined)]. split; [exact N|]. cbn. split; [|exact E].
  rewrite E. apply set_eq. intros [n p]. rewrite H. set_solver.
Qed.

(** ** Single processes *)

Lemma insert_elem pi l x : x ∈ process_info_insert pi l <-> x = pi \/ x ∈ l.
Proof.
  induction l as [|e l IH]; cbn; [rewrite list_elem_of_singleton; set_solver|].
  destruct (_ || _); [set_solver|]. rewrite !elem_of_cons, IH. tauto.
Qed.

Lemma same_process_spec g p n x : same_process g p n x = true <-> x = mk_process_info n p g.
Proof.
  unfold same_process. rewrite !andb_true_iff, !Z.eqb_eq, name_eqb_true. destruct x. cbn. naive_solver.
Qed.

Lemma process_info_find_spec g p n l : process_info_find g p n l = true <-> mk_process_info n p g ∈ l.
Proof.
  unfold process_info_find. rewrite existsb_exists, list_elem_of_In. split.
  - intros (x & Hx & E). apply (same_process_spec g p n x) in E. now subst.
  - intros H. eexists. split; [exact H|]. now apply (same_process_spec g p n).
Qed.

Section Steps.
Context (self : Z).

Lemma proc_join_told g' p n reason s s' : do_proc_join self g' p n reason s = Some s' -> NoDup (cpg_pd_list s) ->
  cpg_pd_list s' = cpg_pd_list s /\ forall c g, listens c g s -> told c g s s'.
Proof.
  unfold do_proc_join. destruct (process_info_find _ _ _ _).
  { intros [= <-] _. split; [reflexivity|]. intros c g L. now apply told_same. }
  intros E N. destruct (notify_spec _ _ _ _ _ _ E (or_intror eq_refl) N) as [S H].
  split; [apply S|]. intros c g L. destruct (H c g L) as [L' Hn].
  assert (P : process_info_list s' = process_info_insert (mk_process_info n p g') (process_info_list s)) by apply S.
  case_bool_decide as Eg.
  - subst g'. eapply told_once; [exact L' | exact Hn | |].
    + unfold members_of. rewrite P. reflexivity.
    + intros n' p'. rewrite !elem_of_members, P, insert_elem, elem_of_addr_set.
      split; [|set_solver]. intros [[= -> ->]|Hi]; (split; [|set_solver]); [right | now left].
      exists reason. now apply list_elem_of_singleton.
  - apply told_same; [exact L' | now rewrite app_nil_r in Hn |]. apply set_eq. intros [n' p'].
    rewrite !elem_of_members, P, insert_elem. naive_solver.
Qed.

Lemma proc_leave_told g' p n reason s s' : do_proc_leave self g' p n reason s = Some s' -> NoDup (cpg_pd_list s) ->
  cpg_pd_list s' = cpg_pd_list s /\ joinlist_messages s' = joinlist_messages s /\
  (forall x, x ∈ process_info_list s' <-> x ∈ process_info_list s /\ x <> mk_process_info n p g') /\
  forall c g, listens c g s -> told c g s s'.
Proof.
  intros (s1 & E & [= <-])%bind_Some N. destruct (notify_spec _ _ _ _ _ _ E (or_introl eq_refl) N) as [S H].
  set (f := fun pi => negb (same_process g' p n pi)).
  set (s' := s1 <| process_info_list ::= List.filter f |>).
  assert (P : forall x, x ∈ process_info_list s' <-> x ∈ process_info_list s /\ x <> mk_process_info n p g').
  { intros x. change (process_info_list s') with (List.filter f (process_info_list s1)). unfold f. rewrite list_elem_of_In, filter_In, negb_true_iff, <- not_true_iff_false, same_process_spec,
      <- list_elem_of_In, (sl_process _ _ S). reflexivity. }
  split; [apply S|]. split; [apply S|]. split; [exact P|]. intros c g L. destruct (H c g L) as [L' Hn].
  change (notes c g s1) with (notes c g s') in Hn. change (listens c g s') in L'. fold f. change (told c g s s').
  clearbody s'.
  case_bool_decide as Eg.
  - subst g'. eapply told_once; [exact L' | exact Hn | |].
    + apply set_eq. intros [n' p']. rewrite elem_of_fill, elem_of_members, P, elem_of_addr_set.
      setoid_rewrite list_elem_of_singleton. split.
      * intros [H1 H2]. split; [exact H1|]. intros [= -> ->]. apply H2. now exists reason.
      * intros [H1 H2]. split; [exact H1|]. intros [r [= -> -> ->]]. now apply H2.
    + intros n' p'. rewrite !elem_of_members, P, !elem_of_addr_set.
      setoid_rewrite list_elem_of_singleton. split.
      * intros [H1 H2]. split; [now left|]. intros [r [= -> -> ->]]. now apply H2.
      * intros [[H1|[r H1]] H2]; [|now apply not_elem_of_nil in H1]. split; [exact H1|]. intros [= -> ->]. apply H2. now exists reason.
  - apply told_same; [exact L' | now rewrite app_nil_r in Hn |]. apply set_eq. intros [n' p'].
    rewrite !elem_of_members, P. naive_solver.
Qed.

End Steps.
