(* ===== verification/CpgSync.v ===== *)
(** * Closed process groups: synchronisation

    The maps in which changes are collected group by group, and what the
    three stages of [cpg_sync_activate] do to the process list and tell the
    members. *)
From S2P Require Import Prelude VoteQuorum VoteQuorumExec TotemMemb TotemSrp Cpg CpgTheory.

(** ** Keys *)

Definition nul_free (g : list Z) : Prop := 0 ∉ g.

Lemma group_key_name g k : nul_free g -> group_key g = Some k -> k = g.
Proof.
  unfold group_key. destruct (Nat.ltb _ _); [|discriminate]. intros H [= <-].
  induction g as [|x g IH]; [reflexivity|]. cbn. destruct (Z.eqb_spec x 0) as [->|]; [destruct H; left|].
  f_equal. apply IH. intros Hg. apply H. now right.
Qed.

(** ** Maps of changes *)

Definition map_wf (m : group_map) : Prop := Forall (fun e => fst e = fst (snd e)) m /\ NoDup (map fst m).

Fixpoint map_get (g : list Z) (m : group_map) : option (list cpg_address) :=
  match m with [] => None | (_, (g', l)) :: m => if name_eqb g' g then Some l else map_get g m end.

Lemma map_wf_cons k g l m : map_wf ((k, (g, l)) :: m) -> k = g /\ map_wf m /\ k ∉ map fst m.
Proof. intros [F N]. apply Forall_cons in F as [E F]. apply NoDup_cons in N as [Nk N]. now split_and!. Qed.

Lemma map_get_none g m : map_wf m -> g ∉ map fst m -> map_get g m = None.
Proof.
  intros [F _] H. induction F as [|[k [g' l]] m E _ IH]; [reflexivity|]. cbn in *. subst k.
  destruct (name_eqb g' g) eqn:En; [apply name_eqb_true in En as ->; destruct H; left|]. apply IH. set_solver.
Qed.

Lemma map_get_some g l m : map_wf m -> map_get g m = Some l <-> (g, (g, l)) ∈ m.
Proof.
  induction m as [|[k [g' l']] m IH]; intros W; cbn; [set_solver|]. destruct (map_wf_cons _ _ _ _ W) as (-> & Wm & Nk).
  rewrite elem_of_cons. destruct (name_eqb g' g) eqn:E.
  - apply name_eqb_true in E as ->. split; [intros [= ->]; now left|]. intros [[= ->]|H]; [reflexivity|].
    destruct Nk. apply list_elem_of_In, in_map_iff. exists (g, (g, l)). split; [reflexivity | now apply list_elem_of_In].
  - rewrite IH by exact Wm. split; [now right|]. intros [H|H]; [|exact H]. assert (g = g') as -> by congruence. now rewrite name_eqb_refl in E.
Qed.

(** An iteration in any order finds the same changes. *)
Lemma map_get_perm g m m' : m ≡ₚ m' -> map_wf m -> map_wf m' /\ map_get g m' = map_get g m.
Proof.
  intros P W. assert (W' : map_wf m').
  { destruct W as [F N]. split; [now rewrite <- P|]. refine (proj1 (NoDup_Permutation_proper _ _ _) N). now apply Permutation_map. }
  split; [exact W'|]. destruct (map_get g m) as [l|] eqn:E.
  - apply map_get_some; [exact W'|]. rewrite <- P. now apply map_get_some.
  - destruct (map_get g m') as [l|] eqn:E'; [|reflexivity]. apply map_get_some in E'; [|exact W']. rewrite <- P in E'.
    apply map_get_some in E'; [congruence | exact W].
Qed.

Lemma map_add_keys key g a m x : x ∈ map fst (group_map_add key g a m) -> x = key \/ x ∈ map fst m.
Proof.
  induction m as [|[k [g' l]] m IH]; cbn; [set_solver|]. destruct (name_eqb k key); cbn; [set_solver|]. rewrite !elem_of_cons. naive_solver.
Qed.

Lemma map_add_wf g a m : map_wf m -> map_wf (group_map_add g g a m).
Proof.
  induction m as [|[k [g' l]] m IH]; intros W; cbn; [split; [now repeat constructor | apply NoDup_singleton]|].
  destruct (map_wf_cons _ _ _ _ W) as (<- & Wm & Hk). destruct (name_eqb k g) eqn:E.
  - apply name_eqb_true in E as ->. destruct W as [F N]. apply Forall_cons in F as [_ F]. split; [now constructor | exact N].
  - assert (Ne : k <> g) by (intros ->; now rewrite name_eqb_refl in E).
    destruct (IH Wm) as [F N]. split; [now constructor|]. cbn. apply NoDup_cons. split; [|exact N].
    intros [Hx|Hx]%map_add_keys; congruence || tauto.
Qed.

Lemma map_get_add g a m g' : map_wf m -> map_get g' (group_map_add g g a m) =
  if bool_decide (g' = g) then Some (default [] (map_get g m) ++ [a]) else map_get g' m.
Proof.
  induction m as [|[k [g1 l]] m IH]; intros W.
  { cbn. case_bool_decide as E; [subst; now rewrite name_eqb_refl|]. unfold name_eqb. now rewrite bool_decide_false by congruence. }
  destruct (map_wf_cons _ _ _ _ W) as (<- & Wm & Hk). cbn. destruct (name_eqb k g) eqn:E.
  - apply name_eqb_true in E as ->. cbn. rewrite (bool_decide_ext (g' = g) (g = g')) by done. fold (name_eqb g g').
    now destruct (name_eqb g g').
  - cbn. rewrite IH by exact Wm. case_bool_decide as Eg; [|reflexivity]. subst g'. now rewrite E.
Qed.

Lemma map_put_spec g a m m' : nul_free g -> map_wf m -> group_map_put g a m = Some m' ->
  map_wf m' /\ forall g', map_get g' m' = if bool_decide (g' = g) then Some (default [] (map_get g m) ++ [a]) else map_get g' m.
Proof.
  intros Hg W (k & Hk & E)%bind_Some. apply group_key_name in Hk as ->; [|exact Hg].
  cbv zeta in E. destruct (map_room (group_map_add g g a m)); [|discriminate]. injection E as <-. split; [now apply map_add_wf | intros; now apply map_get_add].
Qed.

Section Stages.
Context (self : Z).

Lemma notify_map_spec (f : list Z -> list cpg_address -> list cpg_address * list cpg_address) m s s' :
  (forall g l, fst (f g l) = [] \/ snd (f g l) = []) ->
  notify_map (fun g l => notify_lib_joinlist self g (fst (f g l)) (snd (f g l))) m s = Some s' ->
  map_wf m -> NoDup (cpg_pd_list s) ->
  same_lists s s' /\ forall c g, listens c g s -> listens c g s' /\
    notes c g s' = notes c g s ++ match map_get g m with
                                  | Some l => [(notify_lib_joinlist_fill_member_list g (snd (f g l)) (process_info_list s), snd (f g l), fst (f g l))]
                                  | None => []
                                  end.
Proof.
  intros Hf. revert s. induction m as [|[k [g0 l0]] m IH]; intros s E W N; cbn in E.
  { injection E as <-. split; [reflexivity|]. intros c g L. cbn. now rewrite app_nil_r. }
  apply bind_Some in E as (s1 & E1 & E). destruct (map_wf_cons _ _ _ _ W) as (-> & Wm & Hk).
  destruct (notify_spec _ _ _ _ _ _ E1 (Hf g0 l0) N) as [S1 H1].
  destruct (IH s1 E Wm) as [S H]; [now rewrite (sl_pd_list _ _ S1)|].
  split; [transitivity s1; assumption|]. intros c g L. destruct (H1 c g L) as [L1 N1]. destruct (H c g L1) as [L2 N2].
  split; [exact L2|]. rewrite N2, N1, (sl_process _ _ S1), <- app_assoc. f_equal. cbn. unfold name_eqb.
  case_bool_decide as Eg; [|reflexivity]. subst g0.
  now rewrite map_get_none, app_nil_r.
Qed.

Context (map_order : group_map -> group_map).
Hypothesis map_order_perm : forall m, map_order m ≡ₚ m.

Lemma notify_order_spec (f : list Z -> list cpg_address -> list cpg_address * list cpg_address) m s s' :
  (forall g l, fst (f g l) = [] \/ snd (f g l) = []) ->
  notify_map (fun g l => notify_lib_joinlist self g (fst (f g l)) (snd (f g l))) (map_order m) s = Some s' ->
  map_wf m -> NoDup (cpg_pd_list s) ->
  same_lists s s' /\ forall c g, listens c g s -> listens c g s' /\
    notes c g s' = notes c g s ++ match map_get g m with
                                  | Some l => [(notify_lib_joinlist_fill_member_list g (snd (f g l)) (process_info_list s), snd (f g l), fst (f g l))]
                                  | None => []
                                  end.
Proof.
  intros Hf E W N. assert (P : m ≡ₚ map_order m) by now rewrite map_order_perm.
  destruct (notify_map_spec f _ s s' Hf E (proj1 (map_get_perm [] m _ P W)) N) as [S H]. split; [exact S|].
  intros c g L. rewrite <- (proj2 (map_get_perm g m _ P W)). exact (H c g L).
Qed.

(** ** Nodes that left *)

Lemma collect_left_spec l m m' : collect_left l m = Some m' -> Forall (fun pi => nul_free (pi_group pi)) l -> map_wf m ->
  map_wf m' /\ forall g n p, (n, p) ∈ addr_set (default [] (map_get g m')) <->
    (n, p) ∈ addr_set (default [] (map_get g m)) \/ mk_process_info n p g ∈ l.
Proof.
  revert m. induction l as [|pi l IH]; intros m E F W; cbn in E.
  { injection E as <-. split; [exact W|]. set_solver. }
  apply bind_Some in E as (m1 & E1 & E). apply Forall_cons in F as [Fp F].
  destruct (map_put_spec _ _ _ _ Fp W E1) as [W1 G1]. destruct (IH m1 E F W1) as [W' G']. split; [exact W'|].
  intros g n p. rewrite G', G1. case_bool_decide as Eg.
  - cbn [default]. subst g. rewrite !elem_of_addr_set, elem_of_cons. setoid_rewrite elem_of_app.
    setoid_rewrite list_elem_of_singleton. destruct pi as [n0 p0 g0]; cbn in *. split.
    + intros [[r [H|[= -> -> ->]]]|H]; [left; now exists r | right; now left | right; now right].
    + intros [[r H]|[[= <- <-]|H]]; [left; exists r; now left | left; eexists; right; reflexivity | now right].
  - rewrite elem_of_cons. split; [tauto|]. intros [H|[H|H]]; [now left | | now right]. now rewrite <- H in Eg.
Qed.

Lemma elem_filter_negb (f : process_info -> bool) l x : x ∈ List.filter (fun y => negb (f y)) l <-> x ∈ l /\ f x = false.
Proof. rewrite list_elem_of_In, filter_In, negb_true_iff, <- list_elem_of_In. reflexivity. Qed.

Lemma downlist_told s s' : downlist_inform_clients self map_order s = Some s' -> NoDup (cpg_pd_list s) ->
  Forall (fun pi => nul_free (pi_group pi)) (process_info_list s) ->
  cpg_pd_list s' = cpg_pd_list s /\ joinlist_messages s' = joinlist_messages s /\
  process_info_list s' = List.filter (fun pi => negb (in_nodes (downlist_nodeids s) (pi_nodeid pi))) (process_info_list s) /\
  forall c g, listens c g s -> told c g s s'.
Proof.
  intros (m & Em & E)%bind_Some N F. set (down := fun pi => in_nodes (downlist_nodeids s) (pi_nodeid pi)) in *.
  destruct (collect_left_spec _ _ _ Em) as [W G]; [|split; constructor|].
  { apply Forall_forall. intros pi Hpi. rewrite list_elem_of_In, filter_In in Hpi. rewrite Forall_forall in F.
    apply F. now apply list_elem_of_In. }
  set (s1 := s <| process_info_list ::= List.filter (fun pi => negb (down pi)) |>) in E.
  destruct (notify_order_spec (fun _ l => ([], l)) m s1 s' ltac:(now left) E W N) as [S H]. cbn [fst snd] in H.
  split; [apply S|]. split; [apply S|]. split; [apply S|]. intros c g L. destruct (H c g L) as [L' Hn].
  change (notes c g s1) with (notes c g s) in Hn.
  assert (P : forall x, x ∈ process_info_list s' <-> x ∈ process_info_list s /\ down x = false).
  { intros x. rewrite (sl_process _ _ S). apply elem_filter_negb. }
  assert (Gd : forall n p, (n, p) ∈ addr_set (default [] (map_get g m)) <->
     mk_process_info n p g ∈ process_info_list s /\ down (mk_process_info n p g) = true).
  { intros n p. rewrite G. cbn [map_get default]. rewrite list_elem_of_In, filter_In, <- list_elem_of_In. set_solver. }
  destruct (map_get g m) as [l|]; cbn [default] in Gd.
  - eapply told_once; [exact L' | exact Hn | |].
    + apply set_eq. intros [n p]. rewrite elem_of_fill, elem_of_members, (sl_process _ _ S), Gd.
      change (process_info_list s1) with (List.filter (fun pi => negb (down pi)) (process_info_list s)).
      rewrite elem_filter_negb. split; [tauto|]. intros [H1 H2]. split; [tauto|]. rewrite H2. now intros [_ ?].
    + intros n p. rewrite !elem_of_members, P, Gd. destruct (down _); [|set_solver]. split; [now intros [_ ?]|].
      intros [[H1|H1] H2]; [tauto | set_solver].
  - apply told_same; [exact L' | now rewrite app_nil_r in Hn |]. apply set_eq. intros [n p]. rewrite !elem_of_members, P.
    specialize (Gd n p). destruct (down _); [|tauto]. split; [|tauto]. intros Hi. exfalso. set_solver.
Qed.

(** ** Nodes that joined *)

Definition announced (l : list joinlist_msg) (x : process_info) : Prop :=
  pi_nodeid x <> self /\ exists j, j ∈ l /\ announces x j = true.

Lemma announces_spec x j : announces x j = true <-> x = mk_process_info (jm_sender_nodeid j) (jm_pid j) (jm_group_name j).
Proof. unfold announces. rewrite !andb_true_iff, !Z.eqb_eq, name_eqb_true. destruct x, j. cbn. naive_solver. Qed.

Lemma announced_cons j l x : announced (j :: l) x <->
  (jm_sender_nodeid j <> self /\ x = mk_process_info (jm_sender_nodeid j) (jm_pid j) (jm_group_name j)) \/ announced l x.
Proof.
  unfold announced. setoid_rewrite elem_of_cons. setoid_rewrite announces_spec. split.
  - intros [H (j' & [->|Hj] & E)]; [left; now rewrite E in H | right]. split; [exact H | now exists j'].
  - intros [[H E]|[H (j' & Hj & E)]]; [|naive_solver]. split; [now rewrite E|]. exists j. naive_solver.
Qed.

(** The new processes are in the list, and in the map under their groups. *)
Definition join_inv (p0 : list process_info) (m : group_map) (s : cpg) : Prop :=
  map_wf m /\ forall g n p, mk_process_info n p g ∈ process_info_list s <->
    mk_process_info n p g ∈ p0 \/ (n, p) ∈ addr_set (default [] (map_get g m)).

Lemma join_inv_step p0 g n p r m m1 s : join_inv p0 m s -> nul_free g -> group_map_put g (mk_cpg_address n p r) m = Some m1 ->
  join_inv p0 m1 (add_process (mk_process_info n p g) s).
Proof.
  intros [W H] Hg E. destruct (map_put_spec _ _ _ _ Hg W E) as [W1 G]. split; [exact W1|]. intros g' n' p'.
  change (process_info_list (add_process (mk_process_info n p g) s)) with (process_info_insert (mk_process_info n p g) (process_info_list s)).
  rewrite insert_elem, G, H. case_bool_decide as Eg.
  - subst g'. cbn [default]. rewrite !elem_of_addr_set. setoid_rewrite elem_of_app. setoid_rewrite list_elem_of_singleton. split.
    + intros [[= -> ->]|[Hp|[r' Hr]]]; [right; exists r; now right | now left | right; exists r'; now left].
    + intros [Hp|[r' [Hr|[= -> -> ->]]]]; [right; now left | right; right; now exists r' | now left].
  - naive_solver.
Qed.

Lemma join_announced_spec p0 l m s m' s' : join_announced self l m s = Some (m', s') ->
  Forall (fun j => nul_free (jm_group_name j)) l -> join_inv p0 m s ->
  join_inv p0 m' s' /\ pds s' = pds s /\ cpg_pd_list s' = cpg_pd_list s /\ cpg_out s' = cpg_out s /\
  joinlist_messages s' = joinlist_messages s /\
  forall x, x ∈ process_info_list s' <-> x ∈ process_info_list s \/ announced l x.
Proof.
  revert m s. induction l as [|j l IH]; intros m s E F I; cbn in E.
  { injection E as <- <-. split_and!; [exact I | reflexivity.. |]. intros x. split; [now left|]. intros [H|[_ (j & Hj & _)]]; [exact H|].
    now apply not_elem_of_nil in Hj. }
  apply Forall_cons in F as [Fj F]. setoid_rewrite announced_cons. destruct (Z.eqb_spec (jm_sender_nodeid j) self) as [Es|Es].
  { destruct (IH m s E F I) as (I' & H1 & H2 & H3 & H4 & H5). split_and!; try assumption. intros x. rewrite H5. naive_solver. }
  apply bind_Some in E as ([m1 s1] & E1 & E). unfold do_proc_join_map in E1.
  destruct (process_info_find _ _ _ _) eqn:Ef.
  - injection E1 as <- <-. destruct (IH m s E F I) as (I' & H1 & H2 & H3 & H4 & H5). split_and!; try assumption.
    intros x. rewrite H5. apply process_info_find_spec in Ef. naive_solver.
  - apply bind_Some in E1 as (m2 & Em & [= <- <-]).
    destruct (IH _ _ E F (join_inv_step _ _ _ _ _ _ _ _ I Fj Em)) as (I' & H1 & H2 & H3 & H4 & H5). split_and!; try assumption.
    intros x. rewrite H5.
    change (process_info_list (add_process ?pi s)) with (process_info_insert pi (process_info_list s)). rewrite insert_elem. naive_solver.
Qed.

(** ** Processes that left while their node was away *)

Lemma is_zombie_spec s x : is_zombie self s x = true <-> pi_nodeid x <> self /\ ~ announced (joinlist_messages s) x.
Proof.
  unfold is_zombie. rewrite andb_true_iff, !negb_true_iff, Z.eqb_neq, <- not_true_iff_false, existsb_exists. split.
  - intros [H1 H2]. split; [exact H1|]. intros [_ (j & Hj & E)]. apply H2. exists j. split; [now apply list_elem_of_In|].
    rewrite E, andb_true_r, negb_true_iff, Z.eqb_neq. apply announces_spec in E. now subst x.
  - intros [H1 H2]. split; [exact H1|]. intros (j & Hj & [_ E]%andb_true_iff). apply H2. split; [exact H1|].
    exists j. split; [now apply list_elem_of_In | exact E].
Qed.

Lemma remove_zombies_told l s s' : remove_zombies self l s = Some s' -> NoDup (cpg_pd_list s) ->
  cpg_pd_list s' = cpg_pd_list s /\ joinlist_messages s' = joinlist_messages s /\
  (forall x, x ∈ process_info_list s' <-> x ∈ process_info_list s /\ ~ (x ∈ l /\ is_zombie self s x = true)) /\
  forall c g, listens c g s -> told c g s s'.
Proof.
  revert s. induction l as [|pi l IH]; intros s E N; cbn in E.
  { injection E as <-. split_and!; [reflexivity.. | |]; [intros x; set_solver | intros; now apply told_same]. }
  apply bind_Some in E as (s1 & E1 & E). destruct (is_zombie self s pi) eqn:Z.
  - destruct (proc_leave_told _ _ _ _ _ _ _ E1 N) as (P1 & J1 & L1 & T1).
    destruct (IH s1 E) as (P2 & J2 & L2 & T2); [now rewrite P1|].
    split; [congruence|]. split; [congruence|]. split.
    + intros x. rewrite L2, L1. assert (Zx : is_zombie self s1 x = is_zombie self s x) by (unfold is_zombie; now rewrite J1).
      rewrite Zx, elem_of_cons. destruct pi as [n p g]. cbn. split.
      * intros [[H1 H2] H3]. split; [exact H1|]. intros [[->|H4] H5]; [now apply H2 | now apply H3].
      * intros [H1 H2]. split; [split; [exact H1|]|]; [intros ->; apply H2; split; [now left | exact Z]|]. intros [H3 H4]. apply H2. split; [now right | exact H4].
    + intros c g Lc. pose proof (T1 c g Lc) as T. exact (told_trans _ _ _ _ _ T (T2 c g (proj1 T))).
  - injection E1 as <-. destruct (IH s E N) as (P2 & J2 & L2 & T2). split_and!; try assumption.
    intros x. rewrite L2, elem_of_cons. split; [|tauto]. intros [H1 H2]. split; [exact H1|].
    intros [[->|H3] H4]; [congruence | tauto].
Qed.

Lemma joinlist_told s s' : joinlist_inform_clients self map_order s = Some s' -> NoDup (cpg_pd_list s) ->
  Forall (fun j => nul_free (jm_group_name j)) (joinlist_messages s) ->
  cpg_pd_list s' = cpg_pd_list s /\
  (forall x, x ∈ process_info_list s' <->
     (x ∈ process_info_list s /\ pi_nodeid x = self) \/ announced (joinlist_messages s) x) /\
  forall c g, listens c g s -> told c g s s'.
Proof.
  intros ([m s1] & E1 & (s2 & E2 & E3)%bind_Some)%bind_Some N F.
  destruct (join_announced_spec (process_info_list s) _ _ _ _ _ E1 F) as ([W I1] & D1 & P1 & O1 & J1 & L1).
  { split; [split; constructor|]. set_solver. }
  destruct (notify_order_spec (fun _ l => (l, [])) m s1 s2 ltac:(now right) E2 W) as [S2 H2]; [now rewrite P1|]. cbn [fst snd] in H2.
  destruct (remove_zombies_told _ _ _ E3) as (P3 & J3 & L3 & T3); [now rewrite (sl_pd_list _ _ S2), P1|].
  split; [now rewrite P3, (sl_pd_list _ _ S2), P1|]. split.
  - intros x. rewrite L3, is_zombie_spec, (sl_process _ _ S2), (sl_joinlist _ _ S2), J1, L1. unfold announced.
    destruct (decide (pi_nodeid x = self)); [tauto|].
    destruct (decide (Exists (fun j => announces x j = true) (joinlist_messages s))) as [A|A]; rewrite Exists_exists in A; tauto.
  - intros c g Lc.
    assert (T12 : told c g s s2).
    { destruct (H2 c g) as [L2 N2]; [destruct Lc as [Hc Hd]; split; [now rewrite P1 | now rewrite D1]|].
      unfold notes in N2 at 2. rewrite O1 in N2. specialize (I1 g). destruct (map_get g m) as [l|]; cbn [default] in I1.
      - eapply told_once; [exact L2 | exact N2 | |].
        + unfold members_of. now rewrite (sl_process _ _ S2).
        + intros n p. rewrite !elem_of_members, (sl_process _ _ S2), I1. set_solver.
      - apply told_same; [exact L2 | now rewrite app_nil_r in N2 |]. apply set_eq. intros [n p].
        rewrite !elem_of_members, (sl_process _ _ S2), I1. set_solver. }
    exact (told_trans _ _ _ _ _ T12 (T3 c g (proj1 T12))).
Qed.

End Stages.
