(* ===== verification/CpgProps.v ===== *)
(** * Closed process groups: theorems

    Members of a group can follow its membership through the notifications alone,
    a synchronisation leaves exactly the processes that the other nodes
    announce, the process list stays sorted, and a process that left a group
    cannot join again on its connection. *)
From S2P Require Import Prelude VoteQuorum VoteQuorumExec TotemMemb TotemSrp Cpg CpgTheory CpgSync.

(** ** What the rest of the cluster does to a node *)

Inductive cluster_event :=
| CDeliver (m : cpg_msg) (nodeid : Z)
| CSyncInit (trans_list member_list : list Z) (r : ring_id)
| CSyncProcess (ok_down ok_join : bool)
| CSyncActivate
| CSyncAbort.

Section Node.
Context (self : Z) (map_order : group_map -> group_map).
(** An iteration over a map of libqb visits every entry once. *)
Hypothesis map_order_perm : forall m, map_order m ≡ₚ m.

Definition cluster_step (e : cluster_event) (s : cpg) : option cpg :=
  match e with
  | CDeliver m n => cpg_deliver self m n s
  | CSyncInit t m r => cpg_sync_init t m r s
  | CSyncProcess a b => Some (snd (cpg_sync_process self a b s))
  | CSyncActivate => cpg_sync_activate self map_order s
  | CSyncAbort => Some (cpg_sync_abort s)
  end.

Fixpoint cluster_run (es : list cluster_event) (s : cpg) : option cpg :=
  match es with [] => Some s | e :: es => s ← cluster_step e s; cluster_run es s end.

(** Group names without NUL. *)
Definition names_ok (s : cpg) : Prop :=
  Forall (fun pi => nul_free (pi_group pi)) (process_info_list s) /\
  Forall (fun j => nul_free (jm_group_name j)) (joinlist_messages s).

Definition msg_names_ok (e : cluster_event) : Prop :=
  match e with
  | CDeliver (req_exec_cpg_procjoin g _ _) _ => nul_free g
  | CDeliver (req_exec_cpg_joinlist l) _ => Forall (fun x => nul_free (snd x)) l
  | _ => True
  end.

(** ** Synchronisation *)

Lemma activate_told s s' : cpg_sync_activate self map_order s = Some s' -> NoDup (cpg_pd_list s) -> names_ok s ->
  cpg_pd_list s' = cpg_pd_list s /\ joinlist_messages s' = [] /\
  (forall x, x ∈ process_info_list s' <->
     (x ∈ process_info_list s /\ pi_nodeid x = self /\ in_nodes (downlist_nodeids s) self = false)
     \/ announced self (joinlist_messages s) x) /\
  forall c g, listens c g s -> told c g s s'.
Proof.
  intros (s1 & E1 & (s2 & E2 & [= <-])%bind_Some)%bind_Some N [F1 F2].
  destruct (downlist_told self map_order map_order_perm _ _ E1 N F1) as (P1 & J1 & L1 & T1).
  destruct (joinlist_told self map_order map_order_perm _ _ E2) as (P2 & L2 & T2); [now rewrite P1 | now rewrite J1|].
  change (cpg_pd_list (s <| cm_old_member_list := cm_member_list s |>)) with (cpg_pd_list s) in P1.
  change (process_info_list (s <| cm_old_member_list := cm_member_list s |>)) with (process_info_list s) in L1.
  change (joinlist_messages (s <| cm_old_member_list := cm_member_list s |>)) with (joinlist_messages s) in J1.
  change (downlist_nodeids (s <| cm_old_member_list := cm_member_list s |>)) with (downlist_nodeids s) in L1.
  set (s3 := notify_lib_totem_membership None (cm_member_list (joinlist_messages_delete s2)) (joinlist_messages_delete s2)).
  split; [now rewrite <- P1, <- P2|]. split; [reflexivity|]. split.
  - intros x. change (process_info_list s3) with (process_info_list s2). rewrite L2, L1, elem_filter_negb, J1. naive_solver.
  - intros c g L. pose proof (T1 c g L) as T. apply (told_trans _ _ _ s1); [exact T|].
    apply (told_trans _ _ _ s2); [exact (T2 c g (proj1 T))|]. apply told_same; [exact (proj1 (T2 c g (proj1 T))) | | reflexivity].
    unfold notes, s3, notify_lib_totem_membership, notes_of. cbn. rewrite omap_app.
    fold (notes_of c g (map (fun c => CpgTotemConfchg c (cm_ring_id s2) (cm_member_list s2)) (cpg_pd_list s2))).
    now rewrite notes_totem, app_nil_r.
Qed.

(** C21: a synchronisation leaves, of the other nodes, exactly the processes that these
    nodes announced, whatever was known before; the node's own processes stay. *)
Theorem cpg_sync_adopts s s' : cpg_sync_activate self map_order s = Some s' -> NoDup (cpg_pd_list s) -> names_ok s ->
  in_nodes (downlist_nodeids s) self = false ->
  forall n p g, mk_process_info n p g ∈ process_info_list s' <->
    if decide (n = self) then mk_process_info n p g ∈ process_info_list s
    else mk_joinlist_msg n p g ∈ joinlist_messages s.
Proof.
  intros E N Na Hs n p g. destruct (activate_told _ _ E N Na) as (_ & _ & L & _). rewrite L.
  unfold announced. setoid_rewrite announces_spec. cbn. case_decide as D; [naive_solver|]. split.
  - intros [(_ & ? & _)|[_ ([n' p' g'] & Hj & [= -> -> ->])]]; [tauto | exact Hj].
  - intros Hj. right. split; [exact D|]. now exists (mk_joinlist_msg n p g).
Qed.

(** ** Every event of the cluster *)

Lemma deliver_frame s s' : cpg_pd_list s' = cpg_pd_list s -> pds s' = pds s -> process_info_list s' = process_info_list s ->
  (forall c g, notes c g s' = notes c g s) -> forall c g, listens c g s -> told c g s s'.
Proof. intros P D L Hn c g [Hc Hd]. apply told_same; [split; [now rewrite P | now rewrite D] | apply Hn | now rewrite L]. Qed.

Lemma notes_mcast c g g' n f s : (forall c, match f c with CpgConfchg _ _ _ _ _ => False | _ => True end) ->
  notes c g (deliver_to g' n f s) = notes c g s.
Proof.
  intros Hf. unfold deliver_to. destruct (known_node _ _ _); [|reflexivity]. unfold notes, notes_of. cbn. rewrite omap_app.
  set (l := map f _). assert (omap (fun e => match e with
      CpgConfchg c' g'' m l j => if bool_decide (c' = c /\ g'' = g) then Some (m, l, j) else None | _ => None end) l = []) as ->;
    [|apply app_nil_r].
  unfold l. induction (pds_where _ _) as [|x k IH]; [reflexivity|]. cbn. specialize (Hf x). now destruct (f x).
Qed.

Lemma joinlist_foldl n l k x :
  x ∈ foldl (fun l '(pid, g) => mk_joinlist_msg n pid g :: l) k l -> x ∈ k \/ exists pid g, (pid, g) ∈ l /\ x = mk_joinlist_msg n pid g.
Proof.
  revert k. induction l as [|[pid g] l IH]; intros k H; [now left|]. cbn in H. apply IH in H as [H|(pid' & g' & H & ->)].
  - apply elem_of_cons in H as [->|H]; [right; exists pid, g; split; [left | reflexivity] | now left].
  - right. exists pid', g'. split; [now right | reflexivity].
Qed.

Lemma sync_process_frame a b s : let s1 := snd (cpg_sync_process self a b s) in
  cpg_pd_list s1 = cpg_pd_list s /\ pds s1 = pds s /\ process_info_list s1 = process_info_list s /\
  joinlist_messages s1 = joinlist_messages s /\ forall c g, notes c g s1 = notes c g s.
Proof.
  unfold cpg_sync_process, cpg_exec_send_downlist, cpg_exec_send_joinlist, cpg_emit.
  destruct (cm_sync_state s), a, b; cbn; try destruct (map _ _); cbn; (split_and!; [reflexivity.. |]);
    intros c g; unfold notes, notes_of; cbn; rewrite ?omap_app; cbn; now rewrite ?app_nil_r.
Qed.

Lemma cluster_step_told e s s' : cluster_step e s = Some s' -> NoDup (cpg_pd_list s) -> names_ok s -> msg_names_ok e ->
  NoDup (cpg_pd_list s') /\ names_ok s' /\ forall c g, listens c g s -> told c g s s'.
Proof.
  intros E N Na Me. destruct e as [m n|t l r|a b| |]; cbn in E.
  - destruct m as [g p re|g p re|l|g p msg|g len p ty msg| |o l]; cbn in E.
    + destruct (proc_join_told self _ _ _ _ _ _ E N) as [P T]. split; [now rewrite P|]. split; [|exact T].
      destruct Na as [F1 F2]. revert E. unfold do_proc_join. destruct (process_info_find _ _ _ _); [intros [= <-]; now split|].
      intros E. destruct (notify_spec _ _ _ _ _ _ E (or_intror eq_refl) N) as [S _]. split.
      * rewrite (sl_process _ _ S). apply Forall_forall. intros x [->|Hx]%insert_elem; [exact Me|]. rewrite Forall_forall in F1. now apply F1.
      * rewrite (sl_joinlist _ _ S). exact F2.
    + destruct (proc_leave_told self _ _ _ _ _ _ E N) as (P & J & L & T). split; [now rewrite P|]. split; [|exact T].
      destruct Na as [F1 F2]. split; [|now rewrite J]. apply Forall_forall. intros x Hx. apply L in Hx as [Hx _].
      rewrite Forall_forall in F1. now apply F1.
    + injection E as <-. split; [exact N|]. destruct Na as [F1 F2]. split; [split; [exact F1|]|].
      * apply Forall_forall. intros x Hx. apply joinlist_foldl in Hx as [Hx|(pid & g & Hg & ->)].
        { rewrite Forall_forall in F2. now apply F2. }
        { cbn in Me. rewrite Forall_forall in Me. exact (Me _ Hg). }
      * now apply deliver_frame.
    + injection E as <-. unfold message_handler_req_exec_cpg_mcast.
      pose proof (fun c g' => notes_mcast c g' g n (fun c => CpgDeliver c g n p msg) s (fun _ => I)) as Hn.
      unfold deliver_to in *. destruct (known_node _ _ _); (split; [exact N|]; split; [exact Na|]); now apply deliver_frame.
    + injection E as <-. unfold message_handler_req_exec_cpg_partial_mcast.
      pose proof (fun c g' => notes_mcast c g' g n (fun c => CpgPartialDeliver c g n p len ty msg) s (fun _ => I)) as Hn.
      unfold deliver_to in *. destruct (known_node _ _ _); (split; [exact N|]; split; [exact Na|]); now apply deliver_frame.
    + injection E as <-. split; [exact N|]. split; [exact Na|]. now apply deliver_frame.
    + injection E as <-. split; [exact N|]. split; [exact Na|]. now apply deliver_frame.
  - unfold cpg_sync_init in E. destruct (Nat.leb _ _); [|discriminate]. injection E as <-.
    split; [exact N|]. split; [exact Na|]. now apply deliver_frame.
  - injection E as <-. destruct (sync_process_frame a b s) as (P & D & L & J & Hn).
    split; [now rewrite P|]. split; [unfold names_ok; now rewrite L, J|]. now apply deliver_frame.
  - destruct (activate_told _ _ E N Na) as (P & J & L & T). split; [now rewrite P|]. split; [|exact T].
    destruct Na as [F1 F2]. unfold names_ok. rewrite J. split; [|constructor]. rewrite Forall_forall in F1. rewrite Forall_forall in F2. apply Forall_forall. intros x Hx. apply L in Hx as [[Hx _]|[_ (j & Hj & Ej)]]; [now apply F1|].
    apply announces_spec in Ej. subst x. exact (F2 j Hj).
  - injection E as <-. split; [exact N|]. split; [split; [apply Na | constructor]|]. now apply deliver_frame.
Qed.

(** C20: a member can follow its group through the notifications alone: over every run of
    messages and synchronisations with group names that contain no NUL (names that
    agree up to one share a key in the daemon) each notification names the members before it
    with the joined and without the left, and the last one names the members
    that the daemon has. *)
Theorem members_told_exactly es s s' c g :
  NoDup (cpg_pd_list s) -> names_ok s -> Forall msg_names_ok es -> listens c g s -> cluster_run es s = Some s' ->
  exists l, notes c g s' = notes c g s ++ l /\
    replays l (members_of g (process_info_list s)) (members_of g (process_info_list s')).
Proof.
  intros N Na F L E. enough (T : told c g s s') by apply T.
  revert s N Na L E. induction F as [|e es Fe _ IH]; intros s N Na L E; cbn in E.
  - injection E as <-. now apply told_same.
  - apply bind_Some in E as (s1 & E1 & E). destruct (cluster_step_told e s s1 E1 N Na Fe) as (N1 & Na1 & T1).
    exact (told_trans _ _ _ _ _ (T1 c g L) (IH s1 N1 Na1 (proj1 (T1 c g L)) E)).
Qed.

(** ** Leaving a group *)

Lemma notify_leave_state g l s s' c d : notify_lib_joinlist self g [] l s = Some s' ->
  pds s !! c = Some d -> exists d', pds s' !! c = Some d' /\ cp_state d' = cp_state d.
Proof.
  intros E Hd. unfold notify_lib_joinlist in E. cbn [length] in E.
  assert (K : forall f s, (forall d, cp_state (f d) = cp_state d) ->
    (exists d', pds s !! c = Some d' /\ cp_state d' = cp_state d) ->
    exists d', pds (each_pd f s) !! c = Some d' /\ cp_state d' = cp_state d).
  { intros f s0 Hf. apply each_pd_lookup. intros d0 E0. now rewrite Hf. }
  set (s1 := each_pd (pd_joined self g []) s) in E.
  assert (K1 : exists d', pds s1 !! c = Some d' /\ cp_state d' = cp_state d) by (apply K; [easy | now exists d]).
  clearbody s1. match type of E with context [each_pd (fun d => if pd_listens _ d then _ else _) ?t] => set (s2 := t) in E end.
  match type of E with context [each_pd ?f s2] => set (s3 := each_pd f s2) in E;
    assert (K3 : exists d', pds s3 !! c = Some d' /\ cp_state d' = cp_state d)
      by (apply K; [intros d0; now destruct (pd_listens g d0) | exact K1]) end.
  clearbody s3. clear K1 s2 s1.
  assert (F : exists s4, match l with [] => Some s3 | _ => if Nat.leb 0 (length l) then Some (each_pd (pd_left self g (take 0 l)) s3) else None end = Some s4
    /\ exists d', pds s4 !! c = Some d' /\ cp_state d' = cp_state d).
  { destruct l; (eexists; split; [reflexivity|]); [exact K3 | now apply K]. }
  destruct F as (s4 & E4 & K4). rewrite E4 in E. cbn [mbind option_bind] in E. clear K3 E4.
  match type of E with context [pds_where ?p s4] => set (conns := pds_where p s4) in E end.
  match type of E with context [each_pd ?f s4] => set (s5 := each_pd f s4) in E;
    assert (K5 : exists d', pds s5 !! c = Some d' /\ cp_state d' = cp_state d)
      by (apply K; [intros d0; now destruct (has_flag _ _ && _) | exact K4]) end.
  injection E as <-. destruct (totem_membership_fold conns s5) as (_ & -> & _). exact K5.
Qed.

(** A leave never completes: when a leave message of the node arrives, the process is gone, but
    a connection that started to leave stays in the state LEAVE_STARTED (the state table says UNJOINED), so
    every later join on the connection is refused. *)
Theorem leave_not_completed g pid reason s s' c d :
  pds s !! c = Some d -> cp_state d = CPD_STATE_LEAVE_STARTED ->
  cpg_deliver self (req_exec_cpg_procleave g pid reason) self s = Some s' ->
  ~ (mk_process_info self pid g ∈ process_info_list s') /\
  exists d', pds s' !! c = Some d' /\ cp_state d' = CPD_STATE_LEAVE_STARTED /\
    forall g' pid', join_error self g' pid' d' s' <> CS_OK.
Proof.
  intros Hd Hs (s1 & E & [= <-])%bind_Some. split.
  - intros [_ H]%elem_filter_negb. now rewrite (proj2 (same_process_spec g pid self _) eq_refl) in H.
  - destruct (notify_leave_state _ _ _ _ _ _ E Hd) as (d' & Hd' & St). exists d'. split; [exact Hd'|].
    split; [congruence|]. intros g' pid'. unfold join_error. rewrite St, Hs.
    now repeat match goal with |- (if ?b then _ else _) <> _ => destruct b end.
Qed.

End Node.

(** ** Witnesses *)

(** Node 1 has a process of the group [103; 49] on connection 7; node 2 had one before it
    left and came back with another. *)
Definition demo_group : list Z := [103; 49].
Definition demo : cpg :=
  let s := cpg_lib_init_fn 7 cpg_exec_init_fn <| cm_old_member_list := [1; 2] |> in
  let s := default s (message_handler_req_lib_cpg_join 1 7 demo_group 100 0 s) in
  let s := default s (cpg_deliver 1 (req_exec_cpg_procjoin demo_group 100 0) 1 s) in
  default s (cpg_deliver 1 (req_exec_cpg_procjoin demo_group 200 0) 2 s).
Definition demo_events : list cluster_event :=
  [CSyncInit [1] [1] (mk_ring 1 4); CSyncProcess true true; CSyncActivate;
   CSyncInit [1] [1; 2] (mk_ring 1 8); CSyncProcess true true;
   CDeliver (req_exec_cpg_joinlist [(201, demo_group)]) 2; CSyncActivate;
   CDeliver (req_exec_cpg_procleave demo_group 201 2) 2].
Definition demo_end : cpg := default demo (cluster_run 1 id demo_events demo).

Lemma id_order (m : group_map) : id m ≡ₚ m.
Proof. reflexivity. Qed.

Lemma demo_names_ok : names_ok demo.
Proof. split; by_compute. Qed.

Lemma members_told_exactly_witness : exists l, notes 7 demo_group demo_end = notes 7 demo_group demo ++ l /\
  replays l (members_of demo_group (process_info_list demo)) (members_of demo_group (process_info_list demo_end)).
Proof.
  refine (members_told_exactly 1 id id_order demo_events demo demo_end 7 demo_group _ _ _ _ _).
  - apply NoDup_singleton.
  - exact demo_names_ok.
  - repeat constructor; by_compute.
  - split; [by_compute | eexists; split; [vm_compute; reflexivity | reflexivity]].
  - apply some_default. vm_compute. reflexivity.
Defined.

Definition demo_announced : cpg := demo <| joinlist_messages := [mk_joinlist_msg 2 201 demo_group] |>.

Definition demo_synced : cpg := default demo (cpg_sync_activate 1 id demo_announced).

Lemma cpg_sync_adopts_witness : mk_process_info 2 201 demo_group ∈ process_info_list demo_synced.
Proof.
  refine (proj2 (cpg_sync_adopts 1 id id_order demo_announced demo_synced _ _ _ _ 2 201 demo_group) _).
  - refine (some_default demo (cpg_sync_activate 1 id demo_announced) _). vm_compute. reflexivity.
  - apply NoDup_singleton.
  - split; by_compute.
  - reflexivity.
  - change (mk_joinlist_msg 2 201 demo_group ∈ [mk_joinlist_msg 2 201 demo_group]). left.
Defined.

Definition demo_leaving : cpg := default demo (message_handler_req_lib_cpg_leave 7 demo_group 100 demo).
Definition demo_left : cpg := default demo (cpg_deliver 1 (req_exec_cpg_procleave demo_group 100 2) 1 demo_leaving).

Lemma leave_not_completed_witness : ~ (mk_process_info 1 100 demo_group ∈ process_info_list demo_left) /\
  exists d', pds demo_left !! 7 = Some d' /\ cp_state d' = CPD_STATE_LEAVE_STARTED /\
    forall g' pid', join_error 1 g' pid' d' demo_left <> CS_OK.
Proof.
  refine (leave_not_completed 1 demo_group 100 2 demo_leaving demo_left 7 (default zero_pd (pds demo_leaving !! 7)) _ _ _).
  - apply some_default. vm_compute. reflexivity.
  - reflexivity.
  - apply some_default. vm_compute. reflexivity.
Defined.
