(* ===== verification/Icmap.v ===== *)
(** * The configuration map (exec/icmap.c)

    Maps from key names to typed values, the tracking of changes of the global
    map, and the list of read-only keys.

    A map is libqb's ([qb_map]): the class states the operations that icmap uses
    and what they promise.  A value is the bytes of the item; integers are
    stored with the lowest byte first.  A pointer argument is an [option], and the
    memory behind a value pointer the list of its bytes: reading behind its end is
    [None].  Maps and trackers are named by their addresses. *)
From stdpp Require Import sorting.
From S2P Require Import Prelude CString VoteQuorumExec Cpg.

Definition ICMAP_KEYNAME_MAXLEN : nat := 255.
Definition ICMAP_KEYNAME_MINLEN : nat := 3.
Definition ICMAP_MAX_VALUE_LEN : nat := 16 * 1024.
Definition ICMAP_TRACK_ADD : Z := 4.
Definition ICMAP_TRACK_DELETE : Z := 1.
Definition ICMAP_TRACK_MODIFY : Z := 2.
Definition ICMAP_TRACK_PREFIX : Z := 8.
Definition CS_ERR_NO_MEMORY : Z := 8.
Definition CS_ERR_INIT : Z := 4.

Inductive icmap_value_types_t :=
| ICMAP_VALUETYPE_INT8 | ICMAP_VALUETYPE_UINT8 | ICMAP_VALUETYPE_INT16 | ICMAP_VALUETYPE_UINT16
| ICMAP_VALUETYPE_INT32 | ICMAP_VALUETYPE_UINT32 | ICMAP_VALUETYPE_INT64 | ICMAP_VALUETYPE_UINT64
| ICMAP_VALUETYPE_FLOAT | ICMAP_VALUETYPE_DOUBLE | ICMAP_VALUETYPE_STRING | ICMAP_VALUETYPE_BINARY.
#[export] Instance icmap_type_eq : EqDecision icmap_value_types_t.
Proof. solve_decision. Defined.

Definition type_eqb (a b : icmap_value_types_t) : bool := bool_decide (a = b).

Record icmap_item := mk_item { ii_type : icmap_value_types_t; ii_value : list Z }.
#[export] Instance icmap_item_eqdec : EqDecision icmap_item.
Proof. solve_decision. Defined.

Definition ii_value_len (i : icmap_item) : nat := length (ii_value i).

(** ** libqb's maps *)

(** The events a notifier is registered for. *)
Record qb_notify := mk_qb_notify { QB_DELETED : bool; QB_REPLACED : bool; QB_INSERTED : bool; QB_RECURSIVE : bool }.
#[export] Instance qb_notify_eq : EqDecision qb_notify.
Proof. solve_decision. Defined.

Inductive qb_event := QbDeleted | QbReplaced | QbInserted.

Definition qb_wants (n : qb_notify) (e : qb_event) : bool :=
  match e with QbDeleted => QB_DELETED n | QbReplaced => QB_REPLACED n | QbInserted => QB_INSERTED n end.

(** A notifier: its key ([None] for the whole map), events and user data. *)
Record qb_notifier := mk_notifier { no_key : option string; no_events : qb_notify; no_data : Z }.
#[export] Instance qb_notifier_eq : EqDecision qb_notifier.
Proof. solve_decision. Defined.

Definition is_prefix (p k : string) : bool := String.prefix p k.

(** A notifier is meant by an event on a key. *)
Definition qb_meant (k : string) (e : qb_event) (n : qb_notifier) : bool :=
  qb_wants (no_events n) e &&
  match no_key n with
  | None => true
  | Some p => String.eqb p k || QB_RECURSIVE (no_events n) && is_prefix p k
  end.

Class qb_map (M : Type) := {
  qb_trie_create : M;
  qb_map_get : M -> string -> option icmap_item;
  qb_map_put : M -> string -> icmap_item -> M;
  qb_map_rm : M -> string -> M;
  (** the keys that an iteration with a prefix visits *)
  qb_map_pref_iter : M -> string -> list string;
  (** the notifiers that are called for an event, in this order *)
  qb_map_notified : list qb_notifier -> string -> qb_event -> list qb_notifier
}.

Class qb_map_laws (M : Type) `{qb_map M} : Prop := {
  qb_create_get k : qb_map_get qb_trie_create k = None;
  qb_put_get m k i k' : qb_map_get (qb_map_put m k i) k' = if String.eqb k k' then Some i else qb_map_get m k';
  qb_rm_get m k k' : qb_map_get (qb_map_rm m k) k' = if String.eqb k k' then None else qb_map_get m k';
  qb_iter_keys m p k : k ∈ qb_map_pref_iter m p <-> is_prefix p k = true /\ qb_map_get m k <> None;
  qb_iter_nodup m p : NoDup (qb_map_pref_iter m p);
  qb_notified_perm l k e : qb_map_notified l k e ≡ₚ List.filter (qb_meant k e) l
}.

(** The keys are visited in the order of their names. *)
Class qb_map_ordered (M : Type) `{qb_map M} : Prop := qb_iter_sorted m p : StronglySorted String.le (qb_map_pref_iter m p).

(** ** State *)

Record icmap_notify_value := mk_notify_value { nv_type : icmap_value_types_t; nv_data : list Z }.

Inductive icmap_effect :=
| IcmapNotify (track event : Z) (key : string) (new_value old_value : option icmap_notify_value) (user_data : Z).

Record icmap_track := mk_track { tr_key_name : option string; tr_track_type : Z; tr_user_data : Z }.
Record icmap_ro_access_item := mk_ro { ro_key_name : string; ro_prefix : bool }.

Record icmap (M : Type) := mk_icmap {
  ic_maps : gmap Z M;
  icmap_global_map : Z;
  icmap_track_list : list (Z * icmap_track);
  icmap_ro_access_item_list : list icmap_ro_access_item;
  ic_notifiers : list qb_notifier;
  ic_out : list icmap_effect
}.
Arguments mk_icmap {M}.
Arguments ic_maps {M}.
Arguments icmap_global_map {M}.
Arguments icmap_track_list {M}.
Arguments icmap_ro_access_item_list {M}.
Arguments ic_notifiers {M}.
Arguments ic_out {M}.
#[export] Instance icmap_eta M : Etable (icmap M) := fun s =>
  mk_icmap (ic_maps s) (icmap_global_map s) (icmap_track_list s) (icmap_ro_access_item_list s) (ic_notifiers s) (ic_out s).

(** ** Error numbers (common_lib/error_conversion.c) *)

Definition EINTR : Z := 4.
Definition E2BIG : Z := 7.
Definition EBADF : Z := 9.
Definition EAGAIN : Z := 11.
Definition ENOMEM : Z := 12.
Definition EACCES : Z := 13.
Definition EBUSY : Z := 16.
Definition EEXIST : Z := 17.
Definition ENODEV : Z := 19.
Definition EINVAL : Z := 22.
Definition EMFILE : Z := 24.
Definition ENOSPC : Z := 28.
Definition ENOSYS : Z := 38.
Definition ENOMSG : Z := 42.
Definition EBADE : Z := 52.
Definition ETIME : Z := 62.
Definition EBADMSG : Z := 74.
Definition EOVERFLOW : Z := 75.
Definition EMSGSIZE : Z := 90.
Definition ENOTSUP : Z := 95.
Definition ENOBUFS : Z := 105.
Definition ETIMEDOUT : Z := 110.
Definition CS_ERR_TIMEOUT : Z := 5.
Definition CS_ERR_BAD_HANDLE : Z := 9.
Definition CS_ERR_NO_SPACE : Z := 15.
Definition CS_ERR_NO_RESOURCES : Z := 18.
Definition CS_ERR_FAILED_OPERATION : Z := 21.
Definition CS_ERR_MESSAGE_ERROR : Z := 22.
Definition CS_ERR_TOO_BIG : Z := 26.

Definition qb_to_cs_error (result : Z) : Z :=
  if 0 <=? result then CS_OK
  else
    let res := - result in
    if res =? EBADF then CS_ERR_BAD_HANDLE
    else if res =? ENOMEM then CS_ERR_NO_MEMORY
    else if existsb (Z.eqb res) [ENOMSG; ENOBUFS; ETIMEDOUT; EAGAIN] then CS_ERR_TRY_AGAIN
    else if res =? EBADE then CS_ERR_FAILED_OPERATION
    else if res =? ETIME then CS_ERR_TIMEOUT
    else if res =? EINVAL then CS_ERR_INVALID_PARAM
    else if res =? EBUSY then CS_ERR_BUSY
    else if res =? EACCES then CS_ERR_ACCESS
    else if res =? EOVERFLOW then CS_ERR_NAME_TOO_LONG
    else if res =? EEXIST then CS_ERR_EXIST
    else if res =? ENOSPC then CS_ERR_NO_SPACE
    else if res =? EINTR then CS_ERR_INTERRUPT
    else if existsb (Z.eqb res) [2 (* ENOENT *); ENODEV] then CS_ERR_NOT_EXIST
    else if existsb (Z.eqb res) [ENOSYS; ENOTSUP] then CS_ERR_NOT_SUPPORTED
    else if res =? EBADMSG then CS_ERR_MESSAGE_ERROR
    else if existsb (Z.eqb res) [EMSGSIZE; E2BIG] then CS_ERR_TOO_BIG
    else CS_ERR_LIBRARY.

Definition hdb_error_to_cs (res : Z) : Z :=
  if res =? 0 then CS_OK
  else if res =? - EBADF then CS_ERR_BAD_HANDLE
  else if res =? - ENOMEM then CS_ERR_NO_MEMORY
  else if res =? - EMFILE then CS_ERR_NO_RESOURCES
  else if res =? - EACCES then CS_ERR_ACCESS
  else CS_ERR_LIBRARY.

(** ** Names and values *)

Definition icmap_is_valid_name_char (c : ascii) : bool :=
  let n := code c in
  (97 <=? n) && (n <=? 122) || (65 <=? n) && (n <=? 90) || (48 <=? n) && (n <=? 57)
  || existsb (fun x => n =? x) [46; 95; 45; 47; 58].

Fixpoint icmap_convert_name_to_valid_name (key_name : string) : string :=
  match key_name with
  | EmptyString => EmptyString
  | String c s => String (if icmap_is_valid_name_char c then c else "_"%char) (icmap_convert_name_to_valid_name s)
  end.

Definition icmap_check_key_name (key_name : string) : bool :=
  Nat.leb ICMAP_KEYNAME_MINLEN (length (chars key_name)) && Nat.leb (length (chars key_name)) ICMAP_KEYNAME_MAXLEN
  && forallb icmap_is_valid_name_char (chars key_name).

Definition icmap_get_valuetype_len (type : icmap_value_types_t) : nat :=
  match type with
  | ICMAP_VALUETYPE_INT8 | ICMAP_VALUETYPE_UINT8 => 1
  | ICMAP_VALUETYPE_INT16 | ICMAP_VALUETYPE_UINT16 => 2
  | ICMAP_VALUETYPE_INT32 | ICMAP_VALUETYPE_UINT32 => 4
  | ICMAP_VALUETYPE_INT64 | ICMAP_VALUETYPE_UINT64 => 8
  | ICMAP_VALUETYPE_FLOAT => 4
  | ICMAP_VALUETYPE_DOUBLE => 8
  | ICMAP_VALUETYPE_STRING | ICMAP_VALUETYPE_BINARY => 0
  end.

(** [strlen] of the memory behind a pointer: [None] when it has no NUL. *)
Fixpoint mem_strlen (l : list Z) : option nat :=
  match l with [] => None | c :: l => if c =? 0 then Some 0%nat else n ← mem_strlen l; Some (S n) end.

(** [memcpy] out of the memory behind a pointer. *)
Definition mem_read (l : list Z) (n : nat) : option (list Z) := if Nat.leb n (length l) then Some (take n l) else None.

Definition icmap_check_value_len (value : list Z) (value_len : nat) (type : icmap_value_types_t) : option bool :=
  if Nat.ltb ICMAP_MAX_VALUE_LEN value_len then Some false
  else match type with
       | ICMAP_VALUETYPE_STRING => n ← mem_strlen value; Some (Nat.leb value_len (n + 1))
       | ICMAP_VALUETYPE_BINARY => Some true
       | _ => Some (Nat.eqb (icmap_get_valuetype_len type) value_len)
       end.

(** What a value of [value_len] bytes takes in an item. *)
Definition stored_len (value : list Z) (value_len : nat) (type : icmap_value_types_t) : option nat :=
  match type with
  | ICMAP_VALUETYPE_STRING => n ← mem_strlen value; Some (S (Nat.min n value_len))
  | _ => Some value_len
  end.

Definition icmap_item_eq (item : icmap_item) (value : list Z) (value_len : nat) (type : icmap_value_types_t) : option bool :=
  if negb (type_eqb (ii_type item) type) then Some false
  else
    ptr_len ← stored_len value value_len type;
    if Nat.eqb (ii_value_len item) ptr_len
    then a ← mem_read (ii_value item) value_len; b ← mem_read value value_len; Some (bool_decide (a = b))
    else Some false.

Definition le_bytes (n : nat) (v : Z) : list Z := map (fun i => Z.land (Z.shiftr v (8 * Z.of_nat i)) 255) (seq 0 n).
Definition le_value (l : list Z) : Z := foldr (fun b acc => b + 256 * acc) 0 l.

(** The value of an unsigned integer of [n] bytes as a signed one. *)
Definition as_signed (n : nat) (v : Z) : Z := if v <? 2 ^ (8 * Z.of_nat n - 1) then v else v - 2 ^ (8 * Z.of_nat n).

Fixpoint bytes_of_string (s : string) : list Z := match s with EmptyString => [] | String c s => code c :: bytes_of_string s end.
Fixpoint string_of_bytes (l : list Z) : string :=
  match l with
  | [] => EmptyString
  | c :: l => if c =? 0 then EmptyString else String (ascii_of_N (Z.to_N c)) (string_of_bytes l)
  end.

Definition icmap_tt_to_qbtt (track_type : Z) : qb_notify :=
  mk_qb_notify (has_flag track_type ICMAP_TRACK_DELETE) (has_flag track_type ICMAP_TRACK_MODIFY)
    (has_flag track_type ICMAP_TRACK_ADD) (has_flag track_type ICMAP_TRACK_PREFIX).

(** The single event of a callback. *)
Definition icmap_qbtt_to_tt (e : qb_event) : Z :=
  match e with QbDeleted => ICMAP_TRACK_DELETE | QbReplaced => ICMAP_TRACK_MODIFY | QbInserted => ICMAP_TRACK_ADD end.

Section Map.
Context {M : Type} `{QB : qb_map M}.
Implicit Types s : icmap M.

(** The address of a map is valid. *)
Definition map_at (map : Z) (s : icmap M) : option M := ic_maps s !! map.

Definition icmap_init_r (addr : Z) (s : icmap M) : Z * icmap M :=
  (CS_OK, s <| ic_maps ::= <[addr := qb_trie_create]> |>).

(** At program start there is no map. *)
Definition icmap_zero : icmap M := mk_icmap ∅ 0 [] [] [] [].

Definition icmap_init (addr : Z) (s : icmap M) : Z * icmap M :=
  let '(err, s) := icmap_init_r addr s in (err, s <| icmap_global_map := addr |>).

Definition icmap_fini_r (map : Z) (s : icmap M) : icmap M := s <| ic_maps ::= delete map |>.

(** ** Notifications *)

(** The value of a callback: none when there is no item. *)
Definition notify_value (i : option icmap_item) : option icmap_notify_value :=
  i ← i; Some (mk_notify_value (ii_type i) (ii_value i)).

(** [same]: the old item is the new one, changed in place. *)
Definition icmap_notify_fn (track : Z) (user_data : Z) (e : qb_event) (key : string) (old_value value : option icmap_item)
    (same : bool) : list icmap_effect :=
  match value, old_value with
  | None, None => []
  | _, _ => [IcmapNotify track (icmap_qbtt_to_tt e) key (notify_value value)
               (if same then None else notify_value old_value) user_data]
  end.

(** libqb calls the notifiers of the global map. *)
Definition notify (map : Z) (e : qb_event) (key : string) (old_value value : option icmap_item) (same : bool) (s : icmap M) : icmap M :=
  if map =? icmap_global_map s then
    s <| ic_out ::= fun o => o ++ List.concat (List.map (fun n =>
          match list_find (fun x => fst x = no_data n) (icmap_track_list s) with
          | Some (_, (t, tr)) => icmap_notify_fn t (tr_user_data tr) e key old_value value same
          | None => []
          end) (qb_map_notified (ic_notifiers s) key e)) |>
  else s.

Definition put (map : Z) (key : string) (i : icmap_item) (same : bool) (s : icmap M) : option (icmap M) :=
  m ← map_at map s;
  let s := s <| ic_maps ::= <[map := qb_map_put m key i]> |> in
  Some (match qb_map_get m key with
        | None => notify map QbInserted key None (Some i) same s
        | Some old => notify map QbReplaced key (Some old) (Some i) same s
        end).

(** ** Setting values *)

Definition new_value_len (value : list Z) (value_len : nat) (type : icmap_value_types_t) : option nat :=
  match type with
  | ICMAP_VALUETYPE_BINARY | ICMAP_VALUETYPE_STRING => stored_len value value_len type
  | _ => Some (icmap_get_valuetype_len type)
  end.

(** The bytes of a new item; a string is cut and terminated. *)
Definition item_value (value : list Z) (n : nat) (type : icmap_value_types_t) : option (list Z) :=
  l ← mem_read value n;
  Some (match type with ICMAP_VALUETYPE_STRING => take (n - 1) l ++ [0] | _ => l end).

Definition icmap_set_r (map : Z) (key_name : option string) (value : option (list Z)) (value_len : nat)
    (type : icmap_value_types_t) (s : icmap M) : option (Z * icmap M) :=
  match value, key_name with
  | Some value, Some key_name =>
      ok ← icmap_check_value_len value value_len type;
      if negb ok then Some (CS_ERR_INVALID_PARAM, s)
      else
        m ← map_at map s;
        same ← (match qb_map_get m key_name with
                | Some item => icmap_item_eq item value value_len type
                | None => Some false
                end);
        if (same : bool) then Some (CS_OK, s)
        else if negb (bool_decide (is_Some (qb_map_get m key_name))) && negb (icmap_check_key_name key_name)
        then Some (CS_ERR_NAME_TOO_LONG, s)
        else
          n ← new_value_len value value_len type;
          v ← item_value value n type;
          s ← put map key_name (mk_item type v) false s;
          Some (CS_OK, s)
  | _, _ => Some (CS_ERR_INVALID_PARAM, s)
  end.

Definition icmap_set key value value_len type s := icmap_set_r (icmap_global_map s) key value value_len type s.

(** An integer of [n] bytes. *)
Definition set_int (type : icmap_value_types_t) (map : Z) (key_name : string) (value : Z) (s : icmap M) : option (Z * icmap M) :=
  let n := icmap_get_valuetype_len type in icmap_set_r map (Some key_name) (Some (le_bytes n value)) n type s.

Definition icmap_set_int8_r := set_int ICMAP_VALUETYPE_INT8.
Definition icmap_set_uint8_r := set_int ICMAP_VALUETYPE_UINT8.
Definition icmap_set_int16_r := set_int ICMAP_VALUETYPE_INT16.
Definition icmap_set_uint16_r := set_int ICMAP_VALUETYPE_UINT16.
Definition icmap_set_int32_r := set_int ICMAP_VALUETYPE_INT32.
Definition icmap_set_uint32_r := set_int ICMAP_VALUETYPE_UINT32.
Definition icmap_set_int64_r := set_int ICMAP_VALUETYPE_INT64.
Definition icmap_set_uint64_r := set_int ICMAP_VALUETYPE_UINT64.

(** A float or double is given by its bytes. *)
Definition icmap_set_float_r (map : Z) (key_name : string) (value : list Z) (s : icmap M) :=
  icmap_set_r map (Some key_name) (Some value) 4 ICMAP_VALUETYPE_FLOAT s.
Definition icmap_set_double_r (map : Z) (key_name : string) (value : list Z) (s : icmap M) :=
  icmap_set_r map (Some key_name) (Some value) 8 ICMAP_VALUETYPE_DOUBLE s.

Definition icmap_set_string_r (map : Z) (key_name : string) (value : option string) (s : icmap M) : option (Z * icmap M) :=
  match value with
  | None => Some (CS_ERR_INVALID_PARAM, s)
  | Some v => icmap_set_r map (Some key_name) (Some (bytes_of_string v ++ [0])) (length (chars v)) ICMAP_VALUETYPE_STRING s
  end.

Definition icmap_set_int8 k v s := icmap_set_int8_r (icmap_global_map s) k v s.
Definition icmap_set_uint8 k v s := icmap_set_uint8_r (icmap_global_map s) k v s.
Definition icmap_set_int16 k v s := icmap_set_int16_r (icmap_global_map s) k v s.
Definition icmap_set_uint16 k v s := icmap_set_uint16_r (icmap_global_map s) k v s.
Definition icmap_set_int32 k v s := icmap_set_int32_r (icmap_global_map s) k v s.
Definition icmap_set_uint32 k v s := icmap_set_uint32_r (icmap_global_map s) k v s.
Definition icmap_set_int64 k v s := icmap_set_int64_r (icmap_global_map s) k v s.
Definition icmap_set_uint64 k v s := icmap_set_uint64_r (icmap_global_map s) k v s.
Definition icmap_set_float k v s := icmap_set_float_r (icmap_global_map s) k v s.
Definition icmap_set_double k v s := icmap_set_double_r (icmap_global_map s) k v s.
Definition icmap_set_string k v s := icmap_set_string_r (icmap_global_map s) k v s.

Definition icmap_delete_r (map : Z) (key_name : option string) (s : icmap M) : option (Z * icmap M) :=
  match key_name with
  | None => Some (CS_ERR_INVALID_PARAM, s)
  | Some key =>
      m ← map_at map s;
      match qb_map_get m key with
      | None => Some (CS_ERR_NOT_EXIST, s)
      | Some old => Some (CS_OK, notify map QbDeleted key (Some old) None false (s <| ic_maps ::= <[map := qb_map_rm m key]> |>))
      end
  end.

Definition icmap_delete key s := icmap_delete_r (icmap_global_map s) key s.

(** ** Reading values *)

Definition icmap_get_ref_r (map : Z) (key_name : option string) (s : icmap M) : option (Z * option icmap_item) :=
  match key_name with
  | None => Some (CS_ERR_INVALID_PARAM, None)
  | Some key =>
      m ← map_at map s;
      Some (match qb_map_get m key with None => (CS_ERR_NOT_EXIST, None) | Some i => (CS_OK, Some i) end)
  end.

(** What [icmap_get_r] stores: the value, its length and its type. *)
Record get_result := mk_get { g_value : option (list Z); g_value_len : option nat; g_type : option icmap_value_types_t }.

(** [value]: a buffer is given; [value_len]: its size, when a pointer is given. *)
Definition icmap_get_r (map : Z) (key_name : option string) (value : bool) (value_len : option nat) (s : icmap M) : option (Z * get_result) :=
  '(res, i) ← icmap_get_ref_r map key_name s;
  Some (match i with
        | None => (res, mk_get None value_len None)
        | Some i =>
            if negb value then
              (CS_OK, mk_get None (match value_len with None => None | Some _ => Some (ii_value_len i) end) (Some (ii_type i)))
            else match value_len with
                 | None => (CS_ERR_INVALID_PARAM, mk_get None None (Some (ii_type i)))
                 | Some n => if Nat.ltb n (ii_value_len i) then (CS_ERR_INVALID_PARAM, mk_get None (Some n) (Some (ii_type i)))
                             else (CS_OK, mk_get (Some (ii_value i)) (Some (ii_value_len i)) (Some (ii_type i)))
                 end
        end).

Definition icmap_get key value value_len s := icmap_get_r (icmap_global_map s) key value value_len s.

Definition icmap_get_string_r (map : Z) (key_name : string) (s : icmap M) : option (Z * option string) :=
  '(res, g) ← icmap_get_r map (Some key_name) false (Some 0%nat) s;
  if negb (res =? CS_OK) then Some (res, None)
  else match g_type g with
       | Some ICMAP_VALUETYPE_STRING =>
           '(res, g) ← icmap_get_r map (Some key_name) true (g_value_len g) s;
           Some (if negb (res =? CS_OK) then (res, None) else (CS_OK, l ← g_value g; Some (string_of_bytes l)))
       | _ => Some (CS_ERR_INVALID_PARAM, None)
       end.

Definition icmap_get_int_r (map : Z) (key_name : string) (type : icmap_value_types_t) (s : icmap M) : option (Z * option (list Z)) :=
  '(err, g) ← icmap_get_r map (Some key_name) true (Some 16%nat) s;
  Some (if negb (err =? CS_OK) then (err, None)
        else match g_type g, g_value g with
             | Some t, Some v => if type_eqb t type then (CS_OK, Some (take (icmap_get_valuetype_len t) v))
                                 else (CS_ERR_INVALID_PARAM, None)
             | _, _ => (err, None)
             end).

Definition get_unsigned (type : icmap_value_types_t) (map : Z) (key_name : string) (s : icmap M) : option (Z * option Z) :=
  '(err, v) ← icmap_get_int_r map key_name type s; Some (err, v ← v; Some (le_value v)).
Definition get_signed (type : icmap_value_types_t) (map : Z) (key_name : string) (s : icmap M) : option (Z * option Z) :=
  '(err, v) ← icmap_get_int_r map key_name type s;
  Some (err, v ← v; Some (as_signed (icmap_get_valuetype_len type) (le_value v))).

Definition icmap_get_int8_r := get_signed ICMAP_VALUETYPE_INT8.
Definition icmap_get_uint8_r := get_unsigned ICMAP_VALUETYPE_UINT8.
Definition icmap_get_int16_r := get_signed ICMAP_VALUETYPE_INT16.
Definition icmap_get_uint16_r := get_unsigned ICMAP_VALUETYPE_UINT16.
Definition icmap_get_int32_r := get_signed ICMAP_VALUETYPE_INT32.
Definition icmap_get_uint32_r := get_unsigned ICMAP_VALUETYPE_UINT32.
Definition icmap_get_int64_r := get_signed ICMAP_VALUETYPE_INT64.
Definition icmap_get_uint64_r := get_unsigned ICMAP_VALUETYPE_UINT64.
Definition icmap_get_float_r map key s := icmap_get_int_r map key ICMAP_VALUETYPE_FLOAT s.
Definition icmap_get_double_r map key s := icmap_get_int_r map key ICMAP_VALUETYPE_DOUBLE s.

Definition icmap_get_int8 k s := icmap_get_int8_r (icmap_global_map s) k s.
Definition icmap_get_uint8 k s := icmap_get_uint8_r (icmap_global_map s) k s.
Definition icmap_get_int16 k s := icmap_get_int16_r (icmap_global_map s) k s.
Definition icmap_get_uint16 k s := icmap_get_uint16_r (icmap_global_map s) k s.
Definition icmap_get_int32 k s := icmap_get_int32_r (icmap_global_map s) k s.
Definition icmap_get_uint32 k s := icmap_get_uint32_r (icmap_global_map s) k s.
Definition icmap_get_int64 k s := icmap_get_int64_r (icmap_global_map s) k s.
Definition icmap_get_uint64 k s := icmap_get_uint64_r (icmap_global_map s) k s.
Definition icmap_get_float k s := icmap_get_float_r (icmap_global_map s) k s.
Definition icmap_get_double k s := icmap_get_double_r (icmap_global_map s) k s.
Definition icmap_get_string k s := icmap_get_string_r (icmap_global_map s) k s.

(** The values of two keys are equal. *)
Definition icmap_key_value_eq (map1 : Z) (key1 : string) (map2 : Z) (key2 : string) (s : icmap M) : option bool :=
  m1 ← map_at map1 s; m2 ← map_at map2 s;
  match qb_map_get m1 key1, qb_map_get m2 key2 with
  | Some i1, Some i2 => icmap_item_eq i1 (ii_value i2) (ii_value_len i2) (ii_type i2)
  | _, _ => Some false
  end.

(** ** Adjusting integers *)

(** The bytes after adding [step]: the item is read as an unsigned integer. *)
Definition adjusted (item : icmap_item) (step : Z) : option (list Z) :=
  match ii_type item with
  | ICMAP_VALUETYPE_FLOAT | ICMAP_VALUETYPE_DOUBLE | ICMAP_VALUETYPE_STRING | ICMAP_VALUETYPE_BINARY => None
  | t => let n := icmap_get_valuetype_len t in Some (le_bytes n (le_value (take n (ii_value item)) + step))
  end.

(** The result is stored in the global map, whichever map it is read from. *)
Definition icmap_adjust_int_r (map : Z) (key_name : option string) (step : Z) (s : icmap M) : option (Z * icmap M) :=
  match key_name with
  | None => Some (CS_ERR_INVALID_PARAM, s)
  | Some key =>
      m ← map_at map s;
      match qb_map_get m key with
      | None => Some (CS_ERR_NOT_EXIST, s)
      | Some item =>
          match adjusted item step with
          | Some v => icmap_set key_name (Some v) (length v) (ii_type item) s
          | None => Some (CS_ERR_INVALID_PARAM, s)
          end
      end
  end.

Definition icmap_adjust_int key step s := icmap_adjust_int_r (icmap_global_map s) key step s.

Definition icmap_fast_adjust_int_r (map : Z) (key_name : option string) (step : Z) (s : icmap M) : option (Z * icmap M) :=
  match key_name with
  | None => Some (CS_ERR_INVALID_PARAM, s)
  | Some key =>
      m ← map_at map s;
      match qb_map_get m key with
      | None => Some (CS_ERR_NOT_EXIST, s)
      | Some item =>
          match adjusted item step with
          | Some v => s ← put map key (mk_item (ii_type item) v) true s; Some (CS_OK, s)
          | None => Some (CS_ERR_INVALID_PARAM, s)
          end
      end
  end.

Definition icmap_fast_adjust_int key step s := icmap_fast_adjust_int_r (icmap_global_map s) key step s.
Definition icmap_inc_r map key s := icmap_adjust_int_r map key 1 s.
Definition icmap_inc key s := icmap_inc_r (icmap_global_map s) key s.
Definition icmap_dec_r map key s := icmap_adjust_int_r map key (-1) s.
Definition icmap_dec key s := icmap_dec_r (icmap_global_map s) key s.
Definition icmap_fast_inc_r map key s := icmap_fast_adjust_int_r map key 1 s.
Definition icmap_fast_inc key s := icmap_fast_inc_r (icmap_global_map s) key s.
Definition icmap_fast_dec_r map key s := icmap_fast_adjust_int_r map key (-1) s.
Definition icmap_fast_dec key s := icmap_fast_dec_r (icmap_global_map s) key s.

(** ** Iteration *)

(** The keys that are still to visit; [NULL] as a prefix is the empty one. *)
Definition icmap_iter_init_r (map : Z) (prefix : option string) (s : icmap M) : option (list string) :=
  m ← map_at map s; Some (qb_map_pref_iter m (default ""%string prefix)).
Definition icmap_iter_init prefix s := icmap_iter_init_r (icmap_global_map s) prefix s.

(** The next key with the length and type of its item, and the rest. *)
Definition icmap_iter_next (map : Z) (iter : list string) (s : icmap M) : option (string * nat * icmap_value_types_t * list string) :=
  match iter with
  | [] => None
  | k :: iter => m ← map_at map s; i ← qb_map_get m k; Some (k, ii_value_len i, ii_type i, iter)
  end.

(** ** Tracking *)

(** [addr]: the allocated tracker; [err]: the result of [qb_map_notify_add]. *)
Definition icmap_track_add (key_name : option string) (track_type : Z) (user_data : Z) (addr err : Z) (s : icmap M) : Z * icmap M :=
  if c_true (Z.ldiff track_type (Z.lor (Z.lor ICMAP_TRACK_ADD ICMAP_TRACK_DELETE) (Z.lor ICMAP_TRACK_MODIFY ICMAP_TRACK_PREFIX)))
  then (CS_ERR_INVALID_PARAM, s)
  else if negb (err =? 0) then (qb_to_cs_error err, s)
  else (CS_OK, s <| ic_notifiers ::= fun l => l ++ [mk_notifier key_name (icmap_tt_to_qbtt track_type) addr] |>
                 <| icmap_track_list ::= cons (addr, mk_track key_name track_type user_data) |>).

(** [err]: the result of [qb_map_notify_del_2], which removes the notifier of the
    same key, events and user data. *)
Definition icmap_track_delete (track err : Z) (s : icmap M) : option (Z * icmap M) :=
  '(_, (_, tr)) ← list_find (fun x => fst x = track) (icmap_track_list s);
  Some (if negb (err =? 0) then (qb_to_cs_error err, s)
        else (CS_OK,
          s <| ic_notifiers ::= List.filter (fun n => negb (bool_decide (n = mk_notifier (tr_key_name tr) (icmap_tt_to_qbtt (tr_track_type tr)) track))) |>
            <| icmap_track_list ::= List.filter (fun x => negb (fst x =? track)) |>)).

Definition icmap_track_get_user_data (track : Z) (s : icmap M) : option Z :=
  '(_, (_, tr)) ← list_find (fun x => fst x = track) (icmap_track_list s); Some (tr_user_data tr).

Fixpoint del_tracks (l : list Z) (s : icmap M) : option (icmap M) :=
  match l with [] => Some s | t :: l => '(_, s) ← icmap_track_delete t 0 s; del_tracks l s end.
Definition icmap_del_all_track (s : icmap M) : option (icmap M) := del_tracks (map fst (icmap_track_list s)) s.

Definition icmap_set_ro_access_free (s : icmap M) : icmap M := s <| icmap_ro_access_item_list := [] |>.

Definition icmap_fini (s : icmap M) : option (icmap M) :=
  s ← icmap_del_all_track s; Some (icmap_set_ro_access_free (icmap_fini_r (icmap_global_map s) s)).

(** ** Read-only keys *)

Definition same_ro (key_name : string) (prefix : bool) (i : icmap_ro_access_item) : bool :=
  Bool.eqb (ro_prefix i) prefix && strcmp_eq key_name (ro_key_name i).

Fixpoint remove_ro (key_name : string) (prefix : bool) (l : list icmap_ro_access_item) : list icmap_ro_access_item :=
  match l with [] => [] | i :: l => if same_ro key_name prefix i then l else i :: remove_ro key_name prefix l end.

Definition icmap_set_ro_access (key_name : string) (prefix ro_access : bool) (s : icmap M) : Z * icmap M :=
  if existsb (same_ro key_name prefix) (icmap_ro_access_item_list s) then
    if ro_access then (CS_ERR_EXIST, s)
    else (CS_OK, s <| icmap_ro_access_item_list ::= remove_ro key_name prefix |>)
  else if ro_access then (CS_OK, s <| icmap_ro_access_item_list ::= cons (mk_ro key_name prefix) |>)
  else (CS_ERR_NOT_EXIST, s).

Definition icmap_is_key_ro (key_name : string) (s : icmap M) : bool :=
  existsb (fun i => if ro_prefix i
                    then negb (strlen key_name <? strlen (ro_key_name i))
                         && strncmp_eq (length (chars (ro_key_name i))) (ro_key_name i) key_name
                    else strcmp_eq (ro_key_name i) key_name) (icmap_ro_access_item_list s).

(** ** Copying a map *)

Fixpoint copy_keys (dst_map src_map : Z) (keys : list string) (s : icmap M) : option (Z * icmap M) :=
  match keys with
  | [] => Some (CS_OK, s)
  | k :: keys =>
      '(err, i) ← icmap_get_ref_r src_map (Some k) s;
      match i with
      | None => Some (err, s)
      | Some i =>
          '(err, s) ← icmap_set_r dst_map (Some k) (Some (ii_value i)) (ii_value_len i) (ii_type i) s;
          if err =? CS_OK then copy_keys dst_map src_map keys s else Some (err, s)
      end
  end.

Definition icmap_copy_map (dst_map src_map : Z) (s : icmap M) : option (Z * icmap M) :=
  keys ← icmap_iter_init_r src_map None s; copy_keys dst_map src_map keys s.

End Map.
