(* ===== verification/IcmapTheory.v ===== *)
(** * The configuration map: encodings, the invariant and the effect of each operation *)
From S2P Require Import Prelude CString VoteQuorumExec Cpg Icmap.

(** ** Integers and strings as bytes *)

Lemma length_le_bytes n v : length (le_bytes n v) = n.
Proof. unfold le_bytes. now rewrite length_map, length_seq. Qed.

Lemma le_bytes_S n v : le_bytes (S n) v = Z.land v 255 :: le_bytes n (Z.shiftr v 8).
Proof.
  unfold le_bytes. cbn [seq map]. rewrite Z.shiftr_0_r. f_equal. rewrite <- seq_shift, map_map.
  apply map_ext. intros i. f_equal. rewrite Z.shiftr_shiftr by lia. f_equal. lia.
Qed.

Lemma le_value_bytes n v : le_value (le_bytes n v) = v mod 2 ^ (8 * Z.of_nat n).
Proof.
  revert v. induction n as [|n IH]; intros v; [now rewrite Z.mul_0_r, Z.mod_1_r|].
  rewrite le_bytes_S. change (le_value (?a :: ?l)) with (a + 256 * le_value l). rewrite IH.
  change 255 with (Z.ones 8). rewrite Z.land_ones, Z.shiftr_div_pow2 by lia.
  replace (8 * Z.of_nat (S n)) with (8 + 8 * Z.of_nat n) by lia. rewrite Z.pow_add_r by lia.
  rewrite Z.rem_mul_r by lia. reflexivity.
Qed.

Lemma le_bytes_value_mod n v : le_bytes n (v mod 2 ^ (8 * Z.of_nat n)) = le_bytes n v.
Proof.
  unfold le_bytes. apply map_ext_in. intros i Hi. apply in_seq in Hi. apply Z.bits_inj'. intros k Hk.
  rewrite !Z.land_spec. change 255 with (Z.ones 8). destruct (Z_lt_le_dec k 8) as [L|L].
  - rewrite !Z.shiftr_spec by lia. now rewrite Z.mod_pow2_bits_low by lia.
  - rewrite Z.ones_spec_high by lia. now rewrite !andb_false_r.
Qed.

Lemma as_signed_value n v : 0 < 8 * Z.of_nat n -> - 2 ^ (8 * Z.of_nat n - 1) <= v < 2 ^ (8 * Z.of_nat n - 1) ->
  as_signed n (v mod 2 ^ (8 * Z.of_nat n)) = v.
Proof.
  intros Hn Hv. unfold as_signed. assert (E : 2 ^ (8 * Z.of_nat n) = 2 * 2 ^ (8 * Z.of_nat n - 1)).
  { rewrite <- Z.pow_succ_r by lia. f_equal. lia. }
  set (w := 2 ^ (8 * Z.of_nat n - 1)) in *. rewrite E. destruct (Z_lt_le_dec v 0).
  - replace (v mod (2 * w)) with (v + 2 * w) by (apply Z.mod_unique with (-1); lia).
    destruct (Z.ltb_spec (v + 2 * w) w); lia.
  - rewrite Z.mod_small by lia. destruct (Z.ltb_spec v w); lia.
Qed.

(** A C string: no NUL in front of its end. *)
Definition c_str (v : string) : Prop := 0 ∉ bytes_of_string v.

Lemma length_bytes_of_string v : length (bytes_of_string v) = length (chars v).
Proof. induction v as [|c v IH]; cbn; [reflexivity | now rewrite IH]. Qed.

Lemma mem_strlen_app l k : 0 ∉ l -> mem_strlen (l ++ 0 :: k) = Some (length l).
Proof.
  induction l as [|c l IH]; intros H; [reflexivity|]. cbn. apply not_elem_of_cons in H as [Hc Hl].
  destruct (Z.eqb_spec c 0); [congruence|]. now rewrite IH.
Qed.

Lemma mem_strlen_spec v n : mem_strlen v = Some n -> exists l k, v = l ++ 0 :: k /\ 0 ∉ l /\ length l = n.
Proof.
  revert n. induction v as [|c v IH]; intros n H; [discriminate|]. cbn in H. destruct (Z.eqb_spec c 0) as [->|Hc].
  - injection H as <-. exists [], v. split_and!; [reflexivity | apply not_elem_of_nil | reflexivity].
  - apply bind_Some in H as (m & H & [= <-]). destruct (IH _ H) as (l & k & -> & Hl & <-). exists (c :: l), k.
    split_and!; [reflexivity | apply not_elem_of_cons; now split | reflexivity].
Qed.

Lemma string_bytes_roundtrip v k : c_str v -> string_of_bytes (bytes_of_string v ++ 0 :: k) = v.
Proof.
  induction v as [|c v IH]; intros H; [reflexivity|]. cbn. apply not_elem_of_cons in H as [Hc Hl].
  destruct (Z.eqb_spec (code c) 0); [congruence|]. rewrite IH by exact Hl. f_equal. unfold code. now rewrite N2Z.id, ascii_N_embedding.
Qed.

Lemma mem_read_some l n : (n <= length l)%nat -> mem_read l n = Some (take n l).
Proof. intros H. unfold mem_read. now rewrite (proj2 (Nat.leb_le _ _) H). Qed.

Lemma mem_read_inv l n k : mem_read l n = Some k -> k = take n l /\ (n <= length l)%nat.
Proof. unfold mem_read. destruct (Nat.leb_spec n (length l)); [|discriminate]. now intros [= <-]. Qed.

Lemma type_eqb_true a b : type_eqb a b = true <-> a = b.
Proof. unfold type_eqb. apply bool_decide_eq_true. Qed.

(** ** Well-formed items *)

Definition item_ok (i : icmap_item) : Prop :=
  match ii_type i with
  | ICMAP_VALUETYPE_STRING => exists l, ii_value i = l ++ [0] /\ 0 ∉ l /\ (length l <= ICMAP_MAX_VALUE_LEN)%nat
  | ICMAP_VALUETYPE_BINARY => (ii_value_len i <= ICMAP_MAX_VALUE_LEN)%nat
  | t => ii_value_len i = icmap_get_valuetype_len t
  end.

Definition canonical (value : list Z) (value_len : nat) (type : icmap_value_types_t) (i : icmap_item) : Prop :=
  ii_type i = type /\
  match type with
  | ICMAP_VALUETYPE_STRING => exists n, mem_strlen value = Some n /\ ii_value i = take (Nat.min n value_len) value ++ [0]
  | _ => ii_value i = take value_len value /\ (value_len <= length value)%nat
  end.

(** Types other than strings: what is checked is the length. *)
Lemma check_value_len_spec value n t b : icmap_check_value_len value n t = Some b -> b = true ->
  (n <= ICMAP_MAX_VALUE_LEN)%nat /\
  match t with
  | ICMAP_VALUETYPE_STRING => exists k, mem_strlen value = Some k /\ (n <= k + 1)%nat
  | ICMAP_VALUETYPE_BINARY => True
  | _ => n = icmap_get_valuetype_len t
  end.
Proof.
  intros H ->. unfold icmap_check_value_len in H. destruct (Nat.ltb_spec ICMAP_MAX_VALUE_LEN n); [discriminate|].
  split; [assumption|]. destruct t; try (apply (inj Some), Nat.eqb_eq in H; exact (eq_sym H)); [|exact I].
  apply bind_Some in H as (k & Hk & [= H%Nat.leb_le]). now exists k.
Qed.

Lemma new_item_ok value n t b k l : icmap_check_value_len value n t = Some b -> b = true ->
  new_value_len value n t = Some k -> item_value value k t = Some l ->
  item_ok (mk_item t l) /\ canonical value n t (mk_item t l).
Proof.
  intros Hc Hb Hk Hl. destruct (check_value_len_spec _ _ _ _ Hc Hb) as [Hm Ht].
  unfold item_value in Hl. apply bind_Some in Hl as (v & [-> Hv]%mem_read_inv & Hl).
  destruct (decide (t = ICMAP_VALUETYPE_STRING)) as [->|Ns].
  - injection Hl as <-. destruct Ht as (m & Es & Hn). cbn in Hk. rewrite Es in Hk. cbn in Hk. injection Hk as <-.
    replace (S (Nat.min m n) - 1)%nat with (Nat.min m n) by lia. rewrite take_take.
    replace (Nat.min (Nat.min m n) (S (Nat.min m n))) with (Nat.min m n) by lia.
    destruct (mem_strlen_spec _ _ Es) as (p & q & -> & Hp & <-). split.
    + exists (take (Nat.min (length p) n) (p ++ 0 :: q)). split; [reflexivity|]. rewrite take_app_le by lia. split.
      * intros H. apply Hp. apply (subseteq_take (Nat.min (length p) n)), H.
      * rewrite length_take. lia.
    + split; [reflexivity|]. exists (length p). split; [exact Es | reflexivity].
  - assert (k = n /\ l = take k value) as [-> ->].
    { destruct t; cbn in Hk, Ht; try congruence; try (split; congruence). }
    split.
    + unfold item_ok, ii_value_len. cbn. rewrite length_take, Nat.min_l by exact Hv. destruct t; cbn in *; congruence || tauto.
    + split; [reflexivity|]. destruct t; try congruence; now split.
Qed.

(** An item that compares equal is what would be stored. *)
Lemma item_eq_canonical i value n t b : item_ok i -> icmap_check_value_len value n t = Some b -> b = true ->
  icmap_item_eq i value n t = Some true -> canonical value n t i.
Proof.
  intros Ok Hc Hb He. destruct (check_value_len_spec _ _ _ _ Hc Hb) as [Hm Ht]. unfold icmap_item_eq in He.
  destruct (type_eqb (ii_type i) t) eqn:Et; [|discriminate]. apply type_eqb_true in Et. cbn [negb] in He.
  apply bind_Some in He as (k & Hk & He). destruct (Nat.eqb_spec (ii_value_len i) k) as [Ek|]; [|discriminate].
  apply bind_Some in He as (x & [-> Hx]%mem_read_inv & He). apply bind_Some in He as (y & [-> Hy]%mem_read_inv & [= E%bool_decide_eq_true]).
  split; [exact Et|]. unfold ii_value_len in *. destruct (decide (t = ICMAP_VALUETYPE_STRING)) as [->|Ns].
  - destruct Ht as (m & Es & Hn). cbn in Hk. rewrite Es in Hk. cbn in Hk. injection Hk as <-. exists m. split; [exact Es|].
    unfold item_ok in Ok. rewrite Et in Ok. destruct Ok as (l & El & Hl & _). rewrite El in *. rewrite length_app in Ek. cbn in Ek.
    f_equal. assert (Ll : length l = Nat.min m n) by lia. rewrite <- Ll.
    transitivity (take (length l) (take n (l ++ [0]))).
    + rewrite take_take, Nat.min_l by lia. rewrite take_app_le by lia. now rewrite take_ge by lia.
    + rewrite E, take_take. f_equal. lia.
  - assert (k = n) as -> by (destruct t; cbn in Hk; congruence).
    assert (take n (ii_value i) = ii_value i) by (apply take_ge; lia). destruct t; try congruence; (split; [congruence | exact Hy]).
Qed.

Lemma canonical_unique value n t i j : canonical value n t i -> canonical value n t j -> i = j.
Proof.
  destruct i as [ti vi], j as [tj vj]. unfold canonical. cbn. intros [-> Hi] [-> Hj].
  destruct t; try (destruct Hi as [-> _], Hj as [-> _]; reflexivity).
  destruct Hi as (a & Ha & ->), Hj as (b & Hb & ->). congruence.
Qed.

Lemma canonical_item_eq value n t i b : icmap_check_value_len value n t = Some b -> b = true ->
  canonical value n t i -> icmap_item_eq i value n t = Some true.
Proof.
  intros Hc Hb [Et H]. destruct (check_value_len_spec _ _ _ _ Hc Hb) as [Hm Ht]. unfold icmap_item_eq.
  rewrite (proj2 (type_eqb_true _ _) Et). cbn [negb]. unfold ii_value_len.
  destruct (decide (t = ICMAP_VALUETYPE_STRING)) as [->|Ns].
  - destruct H as (m & Es & ->), Ht as (m' & Es' & Hn). rewrite Es' in Es. injection Es as ->. cbn [stored_len]. rewrite Es'. cbn [mbind option_bind].
    destruct (mem_strlen_spec _ _ Es') as (p & q & -> & Hp & <-).
    rewrite length_app, length_take, length_app. cbn [length]. rewrite Nat.min_l by lia.
    destruct (Nat.eqb_spec (Nat.min (length p) n + 1) (S (Nat.min (length p) n))); [|lia].
    rewrite !mem_read_some by (rewrite ?length_app, ?length_take, ?length_app; cbn [length]; lia). cbn [mbind option_bind].
    f_equal. apply bool_decide_eq_true. destruct (Nat.le_gt_cases n (length p)).
    + rewrite Nat.min_r, take_app_le, take_take by (rewrite ?length_take, ?length_app; lia). now rewrite Nat.min_id.
    + assert (n = length p + 1)%nat as -> by lia. rewrite Nat.min_l, take_app_length by lia. cbn [app].
      rewrite take_ge by (rewrite length_app; cbn; lia).
      change (0 :: q) with ([0] ++ q). rewrite (app_assoc p [0] q). now rewrite take_app_le, take_ge by (rewrite length_app; cbn; lia).
  - assert (ii_value i = take n value /\ (n <= length value)%nat) as [Ev Hv] by (destruct t; congruence || exact H).
    assert (stored_len value n t = Some n) as -> by (destruct t; cbn; congruence). cbn [mbind option_bind].
    rewrite Ev, length_take, Nat.min_l, Nat.eqb_refl by exact Hv. rewrite !mem_read_some by (rewrite ?length_take; lia). cbn [mbind option_bind].
    f_equal. apply bool_decide_eq_true. now rewrite take_take, Nat.min_id.
Qed.

(** ** Changes *)

Section Changes.
Context {M : Type} `{QB : qb_map M} `{!qb_map_laws M}.
Implicit Types s : icmap M.

Definition lookup_item (map : Z) (key : string) (s : icmap M) : option icmap_item := m ← map_at map s; qb_map_get m key.

(** Every item is well formed, under a valid name. *)
Definition icmap_ok (s : icmap M) : Prop :=
  forall map k i, lookup_item map k s = Some i -> item_ok i /\ icmap_check_key_name k = true.

(** The call-backs of a change. *)
Definition event_of (old : option icmap_item) (new : option icmap_item) : qb_event :=
  match old, new with None, _ => QbInserted | _, None => QbDeleted | _, _ => QbReplaced end.

Definition calls (k : string) (old new : option icmap_item) (same : bool) (s : icmap M) : list icmap_effect :=
  List.concat (List.map (fun n =>
    match list_find (fun x => fst x = no_data n) (icmap_track_list s) with
    | Some (_, (t, tr)) => icmap_notify_fn t (tr_user_data tr) (event_of old new) k old new same
    | None => []
    end) (qb_map_notified (ic_notifiers s) k (event_of old new))).

(** The key [k] of [map] changes from [old] to [new]; [same]: in place. *)
Record change (map : Z) (k : string) (old new : option icmap_item) (same : bool) (s s' : icmap M) : Prop := {
  ch_old : lookup_item map k s = old;
  ch_some : old <> None \/ new <> None;
  ch_in_place : same = true -> old <> None /\ new <> None;
  ch_differ : same = false -> old <> new;
  ch_new_ok : forall i, new = Some i -> (old = None -> icmap_check_key_name k = true) /\ (icmap_ok s -> item_ok i);
  ch_lookup : forall map' k', lookup_item map' k' s' = if (map' =? map) && String.eqb k k' then new else lookup_item map' k' s;
  ch_maps : forall map', is_Some (map_at map' s') <-> is_Some (map_at map' s);
  ch_global : icmap_global_map s' = icmap_global_map s;
  ch_tracks : icmap_track_list s' = icmap_track_list s;
  ch_notifiers : ic_notifiers s' = ic_notifiers s;
  ch_ro : icmap_ro_access_item_list s' = icmap_ro_access_item_list s;
  ch_out : ic_out s' = ic_out s ++ if map =? icmap_global_map s then calls k old new same s else []
}.

Lemma lookup_insert_map map m map' k' s : lookup_item map' k' (s <| ic_maps ::= <[map := m]> |>) =
  if map' =? map then qb_map_get m k' else lookup_item map' k' s.
Proof.
  unfold lookup_item, map_at. cbn. destruct (Z.eqb_spec map' map) as [->|Ne]; [now rewrite lookup_insert_eq | now rewrite lookup_insert_ne by congruence].
Qed.

Lemma maps_insert map m m0 map' s : map_at map s = Some m0 ->
  is_Some (map_at map' (s <| ic_maps ::= <[map := m]> |>)) <-> is_Some (map_at map' s).
Proof.
  intros H. unfold map_at in *. cbn. destruct (decide (map = map')) as [<-|Ne]; [rewrite lookup_insert_eq | now rewrite lookup_insert_ne].
  split; [now exists m0 | eauto].
Qed.

(** Only the callbacks differ from the state before. *)
Lemma notify_frame map e k old new same s : let s' := notify map e k old new same s in
  ic_maps s' = ic_maps s /\ icmap_global_map s' = icmap_global_map s /\ icmap_track_list s' = icmap_track_list s /\
  ic_notifiers s' = ic_notifiers s /\ icmap_ro_access_item_list s' = icmap_ro_access_item_list s.
Proof. unfold notify. now destruct (map =? icmap_global_map s). Qed.

Lemma notify_out map k old new same s : ic_out (notify map (event_of old new) k old new same s) =
  ic_out s ++ if map =? icmap_global_map s then calls k old new same s else [].
Proof. unfold notify. destruct (map =? icmap_global_map s); [reflexivity | now rewrite app_nil_r]. Qed.

Lemma change_intro map k old new same m m' s : map_at map s = Some m -> qb_map_get m k = old ->
  (forall k', qb_map_get m' k' = if String.eqb k k' then new else qb_map_get m k') ->
  old <> None \/ new <> None -> (same = true -> old <> None /\ new <> None) -> (same = false -> old <> new) ->
  (forall i, new = Some i -> (old = None -> icmap_check_key_name k = true) /\ (icmap_ok s -> item_ok i)) ->
  change map k old new same s (notify map (event_of old new) k old new same (s <| ic_maps ::= <[map := m']> |>)).
Proof.
  intros Hm Ho Hm' H1 H2 H3 H4. set (s1 := s <| ic_maps ::= <[map := m']> |>).
  destruct (notify_frame map (event_of old new) k old new same s1) as (F1 & F2 & F3 & F4 & F5).
  assert (L : forall map' k', lookup_item map' k' (notify map (event_of old new) k old new same s1) = lookup_item map' k' s1)
    by (intros; unfold lookup_item, map_at; now rewrite F1).
  constructor; try assumption.
  - unfold lookup_item. now rewrite Hm.
  - intros map' k'. rewrite L. unfold s1. rewrite (lookup_insert_map map m'). destruct (Z.eqb_spec map' map) as [->|]; [|reflexivity].
    rewrite Hm'. cbn [andb]. destruct (String.eqb k k'); [reflexivity|]. unfold lookup_item. now rewrite Hm.
  - intros map'. unfold map_at at 1. rewrite F1. apply (maps_insert map m' m map' s Hm).
  - rewrite notify_out. reflexivity.
Qed.

(** ** The operations that change a map *)

Lemma put_change map k i same s s' m : put map k i same s = Some s' -> map_at map s = Some m ->
  (same = true -> qb_map_get m k <> None) -> (same = false -> qb_map_get m k <> Some i) ->
  (qb_map_get m k = None -> icmap_check_key_name k = true) -> (icmap_ok s -> item_ok i) ->
  change map k (qb_map_get m k) (Some i) same s s'.
Proof.
  intros E Hm H1 H2 H3 H4. unfold put in E. rewrite Hm in E. cbn [mbind option_bind] in E.
  assert (Es : s' = notify map (event_of (qb_map_get m k) (Some i)) k (qb_map_get m k) (Some i) same (s <| ic_maps ::= <[map := qb_map_put m k i]> |>)).
  { destruct (qb_map_get m k); now injection E as <-. }
  subst s'. apply change_intro with m; auto.
  - intros k'. apply qb_put_get.
  - intros j [= <-]. now split.
Qed.

Lemma set_change map k v n t s err s' : icmap_ok s -> icmap_set_r map (Some k) (Some v) n t s = Some (err, s') ->
  (err <> CS_OK /\ s' = s) \/
  err = CS_OK /\ exists i, canonical v n t i /\
    ((s' = s /\ lookup_item map k s = Some i) \/ exists old, change map k old (Some i) false s s').
Proof.
  intros Ok E. cbn in E. apply bind_Some in E as (ok & Hc & E). destruct ok; cbn [negb] in E; [|injection E as <- <-; now left].
  apply bind_Some in E as (m & Hm & E). apply bind_Some in E as (same & Hs & E). destruct same.
  - injection E as <- <-. right. split; [reflexivity|]. destruct (qb_map_get m k) as [i|] eqn:Ei; [|discriminate].
    assert (L : lookup_item map k s = Some i) by (unfold lookup_item; now rewrite Hm). exists i.
    split; [exact (item_eq_canonical _ _ _ _ _ (proj1 (Ok _ _ _ L)) Hc eq_refl Hs) | now left].
  - destruct (negb _ && negb _) eqn:Ek; [injection E as <- <-; now left|]. right.
    apply bind_Some in E as (k' & Hk & E). apply bind_Some in E as (w & Hw & E). apply bind_Some in E as (s1 & Hp & [= <- <-]).
    split; [reflexivity|]. destruct (new_item_ok _ _ _ _ _ _ Hc eq_refl Hk Hw) as [Io Ic]. exists (mk_item t w).
    split; [exact Ic|]. right. exists (qb_map_get m k). apply (put_change _ _ _ _ _ _ _ Hp Hm); [easy | | | easy].
    + intros _ Eq. rewrite Eq in Hs. now rewrite (canonical_item_eq _ _ _ _ _ Hc eq_refl Ic) in Hs.
    + intros En. rewrite En, bool_decide_false in Ek by now intros [? ?]. destruct (icmap_check_key_name k); [reflexivity | discriminate].
Qed.

Lemma delete_change map k s err s' : icmap_delete_r map (Some k) s = Some (err, s') ->
  (err <> CS_OK /\ s' = s) \/ err = CS_OK /\ exists old, change map k (Some old) None false s s'.
Proof.
  intros E. cbn in E. apply bind_Some in E as (m & Hm & E). destruct (qb_map_get m k) as [old|] eqn:Eo; injection E as <- <-; [right | now left].
  split; [reflexivity|]. exists old. apply (change_intro map k (Some old) None false m); auto; try easy.
  - intros k'. apply qb_rm_get.
Qed.

Lemma adjusted_ok i step v : adjusted i step = Some v -> item_ok i ->
  item_ok (mk_item (ii_type i) v) /\ length v = ii_value_len i /\
  le_value v = (le_value (ii_value i) + step) mod 2 ^ (8 * Z.of_nat (ii_value_len i)).
Proof.
  unfold adjusted, item_ok, ii_value_len. intros E Ok.
  destruct (ii_type i) eqn:Et; try discriminate; injection E as <-; cbn [ii_type ii_value]; rewrite le_value_bytes, length_le_bytes, Ok;
    (split; [reflexivity|]; split; [reflexivity|]); now rewrite take_ge by now rewrite Ok.
Qed.

Lemma fast_adjust_change map k step s err s' : icmap_fast_adjust_int_r map (Some k) step s = Some (err, s') ->
  (err <> CS_OK /\ s' = s) \/
  err = CS_OK /\ exists i v, adjusted i step = Some v /\ change map k (Some i) (Some (mk_item (ii_type i) v)) true s s'.
Proof.
  intros E. cbn in E. apply bind_Some in E as (m & Hm & E). destruct (qb_map_get m k) as [i|] eqn:Ei; [|injection E as <- <-; now left].
  destruct (adjusted i step) as [v|] eqn:Ea; [|injection E as <- <-; now left]. right. apply bind_Some in E as (s1 & Hp & [= <- <-]).
  split; [reflexivity|]. exists i, v. split; [exact Ea|]. rewrite <- Ei. apply (put_change _ _ _ _ _ _ _ Hp Hm); rewrite ?Ei; try easy.
  intros Ok. apply (adjusted_ok _ _ _ Ea). apply (Ok map k). unfold lookup_item. now rewrite Hm.
Qed.

Lemma adjust_is_set map k step s err s' : icmap_adjust_int_r map (Some k) step s = Some (err, s') ->
  (err <> CS_OK /\ s' = s) \/
  exists i v, lookup_item map k s = Some i /\ adjusted i step = Some v /\
    icmap_set_r (icmap_global_map s) (Some k) (Some v) (length v) (ii_type i) s = Some (err, s').
Proof.
  intros E. cbn in E. apply bind_Some in E as (m & Hm & E). destruct (qb_map_get m k) as [i|] eqn:Ei; [|injection E as <- <-; now left].
  destruct (adjusted i step) as [v|] eqn:Ea; [|injection E as <- <-; now left]. right. exists i, v.
  split; [unfold lookup_item; now rewrite Hm | now split].
Qed.

(** ** The invariant *)

Lemma change_ok map k old new same s s' : change map k old new same s s' -> icmap_ok s -> icmap_ok s'.
Proof.
  intros C Ok map' k' i. rewrite (ch_lookup _ _ _ _ _ _ _ C). destruct (_ && _) eqn:E; [|apply Ok].
  apply andb_true_iff in E as [->%Z.eqb_eq ->%String.eqb_eq]. intros Hi. destruct (ch_new_ok _ _ _ _ _ _ _ C _ Hi) as [Hk Hv].
  split; [now apply Hv|]. destruct old as [j|] eqn:Eo; [|now apply Hk]. exact (proj2 (Ok _ _ _ (ch_old _ _ _ _ _ _ _ C))).
Qed.

End Changes.
