(* ===== verification/IcmapProps.v ===== *)
(** * The configuration map: theorems

    Values read are the values stored, a tracker can follow the keys under its
    prefix through the callbacks alone, and a copy of a map has all its items
    unless one of its strings has the maximal length. *)
From stdpp Require Import relations sorting.
From S2P Require Import Prelude CString VoteQuorumExec Cpg Icmap IcmapTheory.

Section Props.
Context {M : Type} `{QB : qb_map M} `{QL : !qb_map_laws M}.
Implicit Types s : icmap M.

(** ** Runs of operations *)

Inductive icmap_op :=
| OpSet (map : Z) (key : option string) (value : option (list Z)) (value_len : nat) (type : icmap_value_types_t)
| OpDelete (map : Z) (key : option string)
| OpAdjust (map : Z) (key : option string) (step : Z)
| OpFastAdjust (map : Z) (key : option string) (step : Z)
| OpCopy (dst src : Z).

Definition icmap_step (o : icmap_op) (s : icmap M) : option (Z * icmap M) :=
  match o with
  | OpSet map k v n t => icmap_set_r map k v n t s
  | OpDelete map k => icmap_delete_r map k s
  | OpAdjust map k d => icmap_adjust_int_r map k d s
  | OpFastAdjust map k d => icmap_fast_adjust_int_r map k d s
  | OpCopy dst src => icmap_copy_map dst src s
  end.

Fixpoint icmap_run (os : list icmap_op) (s : icmap M) : option (icmap M) :=
  match os with [] => Some s | o :: os => '(_, s) ← icmap_step o s; icmap_run os s end.

(** Every operation is a sequence of changes. *)
Definition changes : icmap M -> icmap M -> Prop :=
  rtc (fun s s' => exists map k old new same, change map k old new same s s').

Lemma changes_ok s s' : changes s s' -> icmap_ok s -> icmap_ok s'.
Proof. induction 1 as [|s1 s2 s3 (map & k & old & new & same & C) _ IH]; [done|]. intros Ok. apply IH. exact (change_ok _ _ _ _ _ _ _ C Ok). Qed.

Lemma one_change map k old new same s s' : change map k old new same s s' -> changes s s'.
Proof. intros C. apply rtc_once. now exists map, k, old, new, same. Qed.

Lemma set_changes map k v n t s err s' : icmap_ok s -> icmap_set_r map k v n t s = Some (err, s') -> changes s s'.
Proof.
  intros Ok E. destruct k as [k|], v as [v|]; try (injection E as <- <-; apply rtc_refl).
  destruct (set_change _ _ _ _ _ _ _ _ Ok E) as [[_ ->]|[_ (i & _ & [[-> _]|[old C]])]]; [apply rtc_refl.. | exact (one_change _ _ _ _ _ _ _ C)].
Qed.

Lemma copy_changes dst src keys s err s' : icmap_ok s -> copy_keys dst src keys s = Some (err, s') -> changes s s'.
Proof.
  revert s. induction keys as [|k keys IH]; intros s Ok E; cbn [copy_keys] in E; [injection E as <- <-; apply rtc_refl|].
  apply bind_Some in E as ([e1 i] & _ & E). destruct i as [i|]; [|injection E as <- <-; apply rtc_refl].
  apply bind_Some in E as ([e2 s1] & E1 & E). pose proof (set_changes _ _ _ _ _ _ _ _ Ok E1) as C1.
  destruct (e2 =? CS_OK); [|injection E as <- <-; exact C1]. exact (rtc_trans _ _ _ C1 (IH _ (changes_ok _ _ C1 Ok) E)).
Qed.

Lemma step_changes o s err s' : icmap_ok s -> icmap_step o s = Some (err, s') -> changes s s'.
Proof.
  intros Ok E. destruct o as [map k v n t|map k|map k d|map k d|dst src]; cbn [icmap_step] in E.
  - exact (set_changes _ _ _ _ _ _ _ _ Ok E).
  - destruct k as [k|]; [|injection E as <- <-; apply rtc_refl].
    destruct (delete_change _ _ _ _ _ E) as [[_ ->]|[_ [old C]]]; [apply rtc_refl | exact (one_change _ _ _ _ _ _ _ C)].
  - destruct k as [k|]; [|injection E as <- <-; apply rtc_refl].
    destruct (adjust_is_set _ _ _ _ _ _ E) as [[_ ->]|(i & v & _ & _ & Es)]; [apply rtc_refl | exact (set_changes _ _ _ _ _ _ _ _ Ok Es)].
  - destruct k as [k|]; [|injection E as <- <-; apply rtc_refl].
    destruct (fast_adjust_change _ _ _ _ _ _ E) as [[_ ->]|[_ (i & v & _ & C)]]; [apply rtc_refl | exact (one_change _ _ _ _ _ _ _ C)].
  - apply bind_Some in E as (keys & _ & E). exact (copy_changes _ _ _ _ _ _ Ok E).
Qed.

Lemma run_changes os s s' : icmap_ok s -> icmap_run os s = Some s' -> changes s s'.
Proof.
  revert s. induction os as [|o os IH]; intros s Ok E; cbn in E; [injection E as <-; apply rtc_refl|].
  apply bind_Some in E as ([err s1] & E1 & E). pose proof (step_changes _ _ _ _ Ok E1) as C.
  exact (rtc_trans _ _ _ C (IH _ (changes_ok _ _ C Ok) E)).
Qed.

(** Every item is well formed under a valid name: integers have the length of
    their type, strings end with their only NUL, lengths are bounded. *)
Theorem icmap_run_ok os s s' : icmap_ok s -> icmap_run os s = Some s' -> icmap_ok s'.
Proof. intros Ok E. exact (changes_ok _ _ (run_changes _ _ _ Ok E) Ok). Qed.

(** ** Storing and reading *)

Lemma get_ref_item map k s i : lookup_item map k s = Some i -> icmap_get_ref_r map (Some k) s = Some (CS_OK, Some i).
Proof. unfold lookup_item, icmap_get_ref_r. intros (m & -> & Hk)%bind_Some. cbn [mbind option_bind]. now rewrite Hk. Qed.

Lemma get_string_item map k s l : lookup_item map k s = Some (mk_item ICMAP_VALUETYPE_STRING l) ->
  icmap_get_string_r map k s = Some (CS_OK, Some (string_of_bytes l)).
Proof.
  intros L. unfold icmap_get_string_r, icmap_get_r. rewrite !(get_ref_item _ _ _ _ L). cbn -[Nat.ltb].
  now rewrite (proj2 (Nat.ltb_ge _ _)) by reflexivity.
Qed.

Lemma get_int_item map k s t v : lookup_item map k s = Some (mk_item t v) -> (length v <= 16)%nat ->
  icmap_get_int_r map k t s = Some (CS_OK, Some (take (icmap_get_valuetype_len t) v)).
Proof.
  intros L Hv. unfold icmap_get_int_r, icmap_get_r. rewrite (get_ref_item _ _ _ _ L). cbn [mbind option_bind negb ii_value_len ii_value].
  unfold ii_value_len. cbn [ii_value ii_type]. rewrite (proj2 (Nat.ltb_ge _ _)) by exact Hv. cbn [g_type g_value mbind option_bind].
  now rewrite (proj2 (type_eqb_true t t) eq_refl).
Qed.

Lemma set_lookup map k v n t s err s' : icmap_ok s -> icmap_set_r map (Some k) (Some v) n t s = Some (err, s') -> err = CS_OK ->
  exists i, canonical v n t i /\ forall map' k', lookup_item map' k' s' = if (map' =? map) && String.eqb k k' then Some i else lookup_item map' k' s.
Proof.
  intros Ok E Hok. destruct (set_change _ _ _ _ _ _ _ _ Ok E) as [[? _]|[_ (i & Hi & H)]]; [easy|].
  exists i. split; [exact Hi|]. destruct H as [[-> L]|[old C]]; [|apply C].
  intros map' k'. destruct (_ && _) eqn:Ek; [|reflexivity]. now apply andb_true_iff in Ek as [->%Z.eqb_eq <-%String.eqb_eq].
Qed.

(** A string that is stored is read back, and nothing else changes. *)
Theorem icmap_string_roundtrip map k v s err s' : icmap_ok s -> c_str v ->
  icmap_set_string_r map k (Some v) s = Some (err, s') -> err = CS_OK ->
  icmap_get_string_r map k s' = Some (CS_OK, Some v) /\
  forall map' k', (map', k') <> (map, k) -> lookup_item map' k' s' = lookup_item map' k' s.
Proof.
  intros Ok Hv E Hok. destruct (set_lookup _ _ _ _ _ _ _ _ Ok E Hok) as (i & [Et (n & Hn & Ev)] & L). split.
  - rewrite mem_strlen_app in Hn by exact Hv. injection Hn as <-. rewrite length_bytes_of_string, Nat.min_id, <- length_bytes_of_string, take_app_length in Ev.
    destruct i as [t w]. cbn in Et, Ev. subst t w. rewrite (get_string_item map k s' (bytes_of_string v ++ [0])); [now rewrite string_bytes_roundtrip|].
    now rewrite L, Z.eqb_refl, String.eqb_refl.
  - intros map' k' Ne. rewrite L. destruct (_ && _) eqn:Ek; [|reflexivity]. apply andb_true_iff in Ek as [->%Z.eqb_eq <-%String.eqb_eq]. now contradict Ne.
Qed.

Lemma int_types t : t <> ICMAP_VALUETYPE_STRING -> t <> ICMAP_VALUETYPE_BINARY -> (0 < icmap_get_valuetype_len t <= 8)%nat.
Proof. destruct t; cbn; try lia; congruence. Qed.

Lemma set_int_lookup t map k v s err s' : icmap_ok s -> t <> ICMAP_VALUETYPE_STRING -> t <> ICMAP_VALUETYPE_BINARY ->
  set_int t map k v s = Some (err, s') -> err = CS_OK ->
  lookup_item map k s' = Some (mk_item t (le_bytes (icmap_get_valuetype_len t) v)).
Proof.
  intros Ok N1 N2 E Hok. destruct (set_lookup _ _ _ _ _ _ _ _ Ok E Hok) as ([t' w] & [Et Ev] & L). cbn in Et, Ev. subst t'.
  rewrite L, Z.eqb_refl, String.eqb_refl. cbn [andb]. do 2 f_equal.
  assert (w = take (icmap_get_valuetype_len t) (le_bytes (icmap_get_valuetype_len t) v)) as -> by (destruct t; congruence || apply Ev).
  apply take_ge. now rewrite length_le_bytes.
Qed.

(** What is read back of an integer. *)
Lemma int_read_back t map k v s err s' : icmap_ok s ->
  t <> ICMAP_VALUETYPE_STRING -> t <> ICMAP_VALUETYPE_BINARY -> set_int t map k v s = Some (err, s') -> err = CS_OK ->
  let w := 8 * Z.of_nat (icmap_get_valuetype_len t) in
  get_unsigned t map k s' = Some (CS_OK, Some (v mod 2 ^ w)) /\
  (- 2 ^ (w - 1) <= v < 2 ^ (w - 1) -> get_signed t map k s' = Some (CS_OK, Some v)).
Proof.
  intros Ok N1 N2 E Hok w. pose proof (int_types t N1 N2) as Hl. pose proof (set_int_lookup _ _ _ _ _ _ _ Ok N1 N2 E Hok) as L.
  apply get_int_item in L; [|rewrite length_le_bytes; lia]. unfold get_unsigned, get_signed. rewrite L. cbn [mbind option_bind].
  rewrite take_ge, le_value_bytes by now rewrite length_le_bytes. split; [reflexivity|]. intros Hv. do 3 f_equal. apply as_signed_value; [lia | exact Hv].
Qed.

(** Integers are read back modulo their width, signed ones with their sign. *)
Theorem icmap_int_roundtrip t map k v s err s' : icmap_ok s ->
  t <> ICMAP_VALUETYPE_STRING -> t <> ICMAP_VALUETYPE_BINARY -> set_int t map k v s = Some (err, s') -> err = CS_OK ->
  let w := 8 * Z.of_nat (icmap_get_valuetype_len t) in
  get_unsigned t map k s' = Some (CS_OK, Some (v mod 2 ^ w)) /\
  (- 2 ^ (w - 1) <= v < 2 ^ (w - 1) -> get_signed t map k s' = Some (CS_OK, Some v)).
Proof. exact (int_read_back t map k v s err s'). Qed.

(** ** Tracking *)

Definition track_note := (Z * string * option icmap_notify_value * option icmap_notify_value)%type.

Definition notes_to (t : Z) (l : list icmap_effect) : list track_note :=
  omap (fun '(IcmapNotify t' e k n o _) => if t' =? t then Some (e, k, n, o) else None) l.

(** The tracker [t] is registered for all changes of the keys with prefix [p]. *)
Definition all_changes : Z := Z.lor (Z.lor ICMAP_TRACK_ADD ICMAP_TRACK_DELETE) (Z.lor ICMAP_TRACK_MODIFY ICMAP_TRACK_PREFIX).

Record tracks (t : Z) (p : string) (s : icmap M) : Prop := {
  tk_find : exists i tr, list_find (fun x => fst x = t) (icmap_track_list s) = Some (i, (t, tr));
  tk_notifier : List.filter (fun n => no_data n =? t) (ic_notifiers s) = [mk_notifier (Some p) (icmap_tt_to_qbtt all_changes) t]
}.

(** What the tracker knows: the values of the keys under the prefix. *)
Definition view (p : string) (s : icmap M) (k : string) : option icmap_notify_value :=
  if is_prefix p k then notify_value (lookup_item (icmap_global_map s) k s) else None.

(** Each callback fits what the tracker knows, and tells the new value.  The old
    value is missing when the value was changed in place. *)
Definition note_fits (f : string -> option icmap_notify_value) (x : track_note) : Prop :=
  let '(e, k, n, o) := x in
  (e = ICMAP_TRACK_ADD /\ f k = None /\ o = None /\ n <> None) \/
  (e = ICMAP_TRACK_MODIFY /\ f k <> None /\ n <> None /\ (o = f k /\ n <> f k \/ o = None)) \/
  (e = ICMAP_TRACK_DELETE /\ f k <> None /\ o = f k /\ n = None).

Fixpoint follows (l : list track_note) (f f' : string -> option icmap_notify_value) : Prop :=
  match l with
  | [] => forall k, f k = f' k
  | x :: l => note_fits f x /\ follows l (fun k' => if String.eqb (snd (fst (fst x))) k' then snd (fst x) else f k') f'
  end.

Lemma note_fits_ext f g x : (forall k, f k = g k) -> note_fits f x -> note_fits g x.
Proof. intros H. destruct x as [[[e k] n] o]. cbn. now rewrite H. Qed.

Lemma follows_ext l f g f' : (forall k, f k = g k) -> follows l f f' -> follows l g f'.
Proof.
  revert f g. induction l as [|x l IH]; cbn; intros f g H; [congruence|]. intros [F R]. split; [now apply (note_fits_ext f)|].
  refine (IH _ _ _ R). intros k. cbn. destruct (String.eqb _ _); [reflexivity | apply H].
Qed.

Lemma follows_app l l' f g h : follows l f g -> follows l' g h -> follows (l ++ l') f h.
Proof.
  revert f. induction l as [|x l IH]; cbn; intros f.
  - intros H. apply follows_ext. congruence.
  - intros [F R] R'. split; [exact F | now apply IH].
Qed.

Lemma filter_perm {A} (p : A -> bool) l k : l ≡ₚ k -> List.filter p l ≡ₚ List.filter p k.
Proof. induction 1; cbn; repeat destruct (p _); eauto using Permutation. Qed.

Lemma filter_swap {A} (p q : A -> bool) l : List.filter p (List.filter q l) = List.filter q (List.filter p l).
Proof. induction l as [|x l IH]; [reflexivity|]. cbn. destruct (p x) eqn:P, (q x) eqn:Q; cbn; rewrite ?P, ?Q, IH; reflexivity. Qed.

Lemma notes_to_app t l k : notes_to t (l ++ k) = notes_to t l ++ notes_to t k.
Proof. apply omap_app. Qed.

Lemma is_prefix_refl k : is_prefix k k = true.
Proof. unfold is_prefix. induction k as [|c k IH]; cbn; [reflexivity|]. now destruct (ascii_dec c c). Qed.

(** Each meant notifier calls its own tracker, once. *)
Lemma notes_of_calls t p k old new same s : tracks t p s -> old <> None \/ new <> None ->
  notes_to t (calls k old new same s) =
  if is_prefix p k then [(icmap_qbtt_to_tt (event_of old new), k, notify_value new, if same then None else notify_value old)] else [].
Proof.
  intros [(i & tr & Hf) Hn] Hs. unfold calls. set (e := event_of old new).
  set (x := (icmap_qbtt_to_tt e, k, notify_value new, if same then None else notify_value old)).
  assert (F : forall t' u, notes_to t (icmap_notify_fn t' u e k old new same) = if t' =? t then [x] else []).
  { intros t' u. unfold icmap_notify_fn. destruct new, old; cbn; try (destruct (t' =? t); reflexivity). now destruct Hs. }
  assert (G : forall l, notes_to t (List.concat (List.map (fun n =>
      match list_find (fun x => fst x = no_data n) (icmap_track_list s) with
      | Some (_, (t, tr)) => icmap_notify_fn t (tr_user_data tr) e k old new same | None => [] end) l))
    = List.map (fun _ => x) (List.filter (fun n => no_data n =? t) l)).
  { induction l as [|n l IH]; [reflexivity|]. cbn [List.map List.concat List.filter]. rewrite notes_to_app, IH.
    destruct (Z.eqb_spec (no_data n) t) as [E|E].
    - rewrite E, Hf, F, Z.eqb_refl. reflexivity.
    - destruct (list_find (fun x => fst x = no_data n) _) as [[j [t' tr']]|] eqn:El; [|reflexivity]. apply list_find_Some in El as (_ & El & _). cbn in El. subst t'.
      rewrite F. now destruct (Z.eqb_spec (no_data n) t). }
  rewrite G. pose proof (filter_perm (fun n => no_data n =? t) _ _ (qb_notified_perm (ic_notifiers s) k e)) as P.
  rewrite filter_swap, Hn in P. cbn [List.filter] in P.
  assert (Em : qb_meant k e (mk_notifier (Some p) (icmap_tt_to_qbtt all_changes) t) = is_prefix p k).
  { unfold qb_meant. replace (qb_wants _ e) with true by now destruct e. cbn [no_key no_events andb].
    change (QB_RECURSIVE (icmap_tt_to_qbtt all_changes)) with true. cbn [andb].
    destruct (String.eqb_spec p k) as [->|]; [now rewrite is_prefix_refl | reflexivity]. }
  rewrite Em in P. destruct (is_prefix p k).
  - apply Permutation_singleton_r in P. now rewrite P.
  - apply Permutation_nil_r in P. now rewrite P.
Qed.

Lemma notify_value_inj i j : notify_value (Some i) = notify_value (Some j) -> i = j.
Proof. destruct i, j. cbn. now intros [= -> ->]. Qed.

Lemma change_follows t p map k old new same s s' : tracks t p s -> change map k old new same s s' ->
  tracks t p s' /\ exists l, notes_to t (ic_out s') = notes_to t (ic_out s) ++ l /\ follows l (view p s) (view p s').
Proof.
  intros T C. split.
  { destruct T as [T1 T2]. constructor; [now rewrite (ch_tracks _ _ _ _ _ _ _ C) | now rewrite (ch_notifiers _ _ _ _ _ _ _ C)]. }
  rewrite (ch_out _ _ _ _ _ _ _ C), notes_to_app. unfold view. rewrite (ch_global _ _ _ _ _ _ _ C).
  eexists. split; [reflexivity|]. destruct (Z.eqb_spec map (icmap_global_map s)) as [Em|Em].
  2: { cbn. intros k'. rewrite (ch_lookup _ _ _ _ _ _ _ C). destruct (Z.eqb_spec (icmap_global_map s) map); [congruence | reflexivity]. }
  rewrite (notes_of_calls t p k old new same s T (ch_some _ _ _ _ _ _ _ C)).
  assert (L : forall k', lookup_item (icmap_global_map s) k' s' = if String.eqb k k' then new else lookup_item (icmap_global_map s) k' s).
  { intros k'. rewrite (ch_lookup _ _ _ _ _ _ _ C). now rewrite <- Em, Z.eqb_refl. }
  pose proof (ch_old _ _ _ _ _ _ _ C) as Ho. rewrite Em in Ho.
  destruct (is_prefix p k) eqn:Ep; cbn.
  - split.
    + rewrite Ep, Ho. pose proof (ch_some _ _ _ _ _ _ _ C) as Hs. pose proof (ch_differ _ _ _ _ _ _ _ C) as Hd.
      pose proof (ch_in_place _ _ _ _ _ _ _ C) as Hi.
      destruct old as [i|], new as [j|], same; cbn in *; try (now destruct Hs); try (now destruct (Hi eq_refl)).
      * right. left. split_and!; try easy. now right.
      * right. left. split_and!; try easy. left. split; [reflexivity|]. intros E. apply (Hd eq_refl). f_equal. now apply notify_value_inj.
      * right. right. now split_and!.
      * left. now split_and!.
    + intros k'. rewrite L. destruct (String.eqb_spec k k') as [<-|]; [now rewrite Ep | reflexivity].
  - intros k'. rewrite L. destruct (String.eqb_spec k k') as [<-|]; [now rewrite Ep | reflexivity].
Qed.

Lemma changes_follow t p s s' : changes s s' -> tracks t p s ->
  exists l, notes_to t (ic_out s') = notes_to t (ic_out s) ++ l /\ follows l (view p s) (view p s').
Proof.
  induction 1 as [s|s1 s2 s3 (map & k & old & new & same & C) _ IH]; intros T; [exists []; now rewrite app_nil_r|].
  destruct (change_follows _ _ _ _ _ _ _ _ _ T C) as (T2 & l & E & F). destruct (IH T2) as (l' & E' & F').
  exists (l ++ l'). rewrite E', E, app_assoc. split; [reflexivity | exact (follows_app _ _ _ _ _ F F')].
Qed.

(** C22: a tracker can follow the keys under its prefix through the callbacks alone: over
    every run of operations each callback is an addition, a modification or a
    deletion that fits what was told before, only real changes are told (but for an
    adjustment in place, which tells no old value and may be by 0), and at
    the end the tracker knows the values of the map. *)
Theorem tracker_follows_map os s s' t p : icmap_ok s -> tracks t p s -> icmap_run os s = Some s' ->
  exists l, notes_to t (ic_out s') = notes_to t (ic_out s) ++ l /\ follows l (view p s) (view p s').
Proof. intros Ok T E. exact (changes_follow _ _ _ _ (run_changes _ _ _ Ok E) T). Qed.

(** A fresh tracker is registered. *)
Lemma track_add_tracks p u addr s s' : icmap_track_add (Some p) all_changes u addr 0 s = (CS_OK, s') ->
  (forall x, x ∈ icmap_track_list s -> fst x <> addr) -> (forall n, n ∈ ic_notifiers s -> no_data n <> addr) -> tracks addr p s'.
Proof.
  cbn. intros [= <-] H1 H2. constructor.
  - exists 0%nat, (mk_track (Some p) all_changes u). cbn. now rewrite decide_True.
  - cbn. rewrite List.filter_app. cbn. rewrite Z.eqb_refl. replace (List.filter _ (ic_notifiers s)) with (@nil qb_notifier); [reflexivity|].
    symmetry. clear H1. induction (ic_notifiers s) as [|n l IH]; [reflexivity|]. cbn.
    destruct (Z.eqb_spec (no_data n) addr) as [E|]; [destruct (H2 n); [now left | exact E]|]. apply IH. intros m Hm. apply H2. now right.
Qed.

(** ** Copies *)

Lemma item_canonical i : item_ok i -> canonical (ii_value i) (ii_value_len i) (ii_type i) i.
Proof.
  intros Ok. split; [reflexivity|]. unfold item_ok, ii_value_len in *. destruct (ii_type i); try (rewrite take_ge by lia; split; [reflexivity | lia]).
  destruct Ok as (l & -> & Hl & _). exists (length l). split; [now apply (mem_strlen_app l [])|].
  rewrite Nat.min_l by (rewrite length_app; lia). now rewrite take_app_length.
Qed.

(** A stored item can be stored elsewhere unless it is too long. *)
Lemma check_item_len i : item_ok i -> icmap_check_value_len (ii_value i) (ii_value_len i) (ii_type i)
  = Some (Nat.leb (ii_value_len i) ICMAP_MAX_VALUE_LEN).
Proof.
  intros Ok. unfold icmap_check_value_len. destruct (Nat.ltb_spec ICMAP_MAX_VALUE_LEN (ii_value_len i)) as [L|L].
  - now rewrite (proj2 (Nat.leb_gt _ _) L).
  - rewrite (proj2 (Nat.leb_le _ _) L). unfold item_ok, ii_value_len in *. destruct (ii_type i); try (now rewrite Ok, Nat.eqb_refl); [|reflexivity].
    destruct Ok as (l & E & Hl & _). rewrite E at 1. rewrite (mem_strlen_app l [] Hl), E, length_app. cbn.
    now rewrite (proj2 (Nat.leb_le _ _)) by lia.
Qed.

Lemma set_item_total map k i s m : icmap_ok s -> map_at map s = Some m -> item_ok i -> (ii_value_len i <= ICMAP_MAX_VALUE_LEN)%nat ->
  icmap_check_key_name k = true ->
  exists s', icmap_set_r map (Some k) (Some (ii_value i)) (ii_value_len i) (ii_type i) s = Some (CS_OK, s').
Proof.
  intros Ok Hm Io Hl Hk. unfold icmap_set_r. rewrite check_item_len, (proj2 (Nat.leb_le _ _) Hl) by exact Io. cbn [mbind option_bind negb].
  rewrite Hm. cbn [mbind option_bind].
  assert (S : exists n, stored_len (ii_value i) (ii_value_len i) (ii_type i) = Some n /\ new_value_len (ii_value i) (ii_value_len i) (ii_type i) = Some n /\ n = ii_value_len i).
  { pose proof (item_canonical i Io) as [_ C]. unfold item_ok in Io. unfold ii_value_len in *. destruct (ii_type i); cbn in *; try (exists (length (ii_value i)); split_and!; congruence).
    destruct Io as (l & E & Hz & _). rewrite E, (mem_strlen_app l [] Hz). cbn. rewrite length_app. cbn. eexists. split_and!; [reflexivity..|lia]. }
  destruct S as (n & S1 & S2 & ->).
  assert (T : exists b, match qb_map_get m k with Some j => icmap_item_eq j (ii_value i) (ii_value_len i) (ii_type i) | None => Some false end = Some b).
  { destruct (qb_map_get m k) as [j|]; [|now exists false]. unfold icmap_item_eq. destruct (negb _); [now eexists|]. rewrite S1. cbn [mbind option_bind].
    destruct (Nat.eqb_spec (ii_value_len j) (ii_value_len i)) as [E|]; [|now eexists]. unfold ii_value_len in *.
    rewrite !mem_read_some by lia. now eexists. }
  destruct T as (b & ->). cbn [mbind option_bind]. destruct b; [now eexists|]. rewrite Hk, andb_false_r, S2. cbn [mbind option_bind].
  unfold item_value, put. rewrite mem_read_some by reflexivity. cbn [mbind option_bind]. rewrite Hm. cbn [mbind option_bind]. now eexists.
Qed.

Lemma set_int_total t map k v s m : icmap_ok s -> map_at map s = Some m -> t <> ICMAP_VALUETYPE_STRING -> t <> ICMAP_VALUETYPE_BINARY ->
  icmap_check_key_name k = true -> exists s', set_int t map k v s = Some (CS_OK, s').
Proof.
  intros Ok Hm N1 N2 Hk. pose proof (int_types t N1 N2) as Hl. set (i := mk_item t (le_bytes (icmap_get_valuetype_len t) v)).
  assert (L : ii_value_len i = icmap_get_valuetype_len t) by apply length_le_bytes.
  destruct (set_item_total map k i s m Ok Hm) as [s' E]; [unfold item_ok; rewrite L; cbn; now destruct t | unfold ICMAP_MAX_VALUE_LEN; lia | exact Hk |].
  exists s'. unfold set_int. now rewrite <- L at 2.
Qed.


(** ** The effect of storing and reading *)

(** Storing [i] under [k] changes that key only. *)
Record stored (map : Z) (k : string) (i : icmap_item) (s s' : icmap M) : Prop := {
  st_ok : icmap_ok s';
  st_map : is_Some (map_at map s');
  st_global : icmap_global_map s' = icmap_global_map s;
  st_lookup : forall k', lookup_item map k' s' = if String.eqb k k' then Some i else lookup_item map k' s
}.

Lemma set_stored map k v n t s s' i : icmap_ok s -> canonical v n t i -> icmap_set_r map (Some k) (Some v) n t s = Some (CS_OK, s') -> stored map k i s s'.
Proof.
  intros Ok Ci E. pose proof (set_change _ _ _ _ _ _ _ _ Ok E) as [[Hn _]|[_ (j & Cj & H)]]; [easy|].
  rewrite (canonical_unique _ _ _ _ _ Cj Ci) in H. destruct H as [[-> L]|[old C]].
  - constructor; [exact Ok | | reflexivity|].
    + unfold lookup_item in L. destruct (map_at map s); [eauto | discriminate].
    + intros k'. destruct (String.eqb_spec k k') as [<-|]; [exact L | reflexivity].
  - constructor; [exact (change_ok _ _ _ _ _ _ _ C Ok) | | exact (ch_global _ _ _ _ _ _ _ C)|].
    + apply (ch_maps _ _ _ _ _ _ _ C). pose proof E as E'. unfold icmap_set_r in E'. apply bind_Some in E' as (ok & _ & E'). destruct (negb ok); [discriminate|].
      apply bind_Some in E' as (m & -> & _). eauto.
    + intros k'. rewrite (ch_lookup _ _ _ _ _ _ _ C), Z.eqb_refl. reflexivity.
Qed.

Lemma set_int_stored t map k v s : icmap_ok s -> is_Some (map_at map s) -> t <> ICMAP_VALUETYPE_STRING -> t <> ICMAP_VALUETYPE_BINARY ->
  icmap_check_key_name k = true ->
  exists s', set_int t map k v s = Some (CS_OK, s') /\ stored map k (mk_item t (le_bytes (icmap_get_valuetype_len t) v)) s s'.
Proof.
  intros Ok [m Hm] N1 N2 Hk. destruct (set_int_total t map k v s m Ok Hm N1 N2 Hk) as [s' E]. exists s'. split; [exact E|].
  refine (set_stored _ _ _ _ _ _ _ _ Ok _ E). split; [reflexivity|]. cbn. rewrite take_ge, length_le_bytes by now rewrite length_le_bytes.
  destruct t; easy.
Qed.

Lemma set_string_stored map k v s : icmap_ok s -> is_Some (map_at map s) -> c_str v -> (length (chars v) < ICMAP_MAX_VALUE_LEN)%nat ->
  icmap_check_key_name k = true ->
  exists s', icmap_set_string_r map k (Some v) s = Some (CS_OK, s') /\ stored map k (mk_item ICMAP_VALUETYPE_STRING (bytes_of_string v ++ [0])) s s'.
Proof.
  intros Ok [m Hm] Hv Hl Hk. set (b := bytes_of_string v). set (n := length (chars v)). set (i := mk_item ICMAP_VALUETYPE_STRING (b ++ [0])).
  assert (Lb : length b = n) by apply length_bytes_of_string. pose proof (mem_strlen_app b [] Hv) as Es. rewrite Lb in Es.
  assert (Ci : canonical (b ++ [0]) n ICMAP_VALUETYPE_STRING i).
  { split; [reflexivity|]. exists n. split; [exact Es|]. cbn. now rewrite Nat.min_id, <- Lb, take_app_length. }
  enough (H : exists s', icmap_set_r map (Some k) (Some (b ++ [0])) n ICMAP_VALUETYPE_STRING s = Some (CS_OK, s'))
    by (destruct H as [s' E]; exists s'; split; [exact E | exact (set_stored _ _ _ _ _ _ _ _ Ok Ci E)]).
  unfold icmap_set_r, icmap_check_value_len. rewrite (proj2 (Nat.ltb_ge _ _)), Es by lia. cbn [mbind option_bind].
  rewrite (proj2 (Nat.leb_le _ _)) by lia. cbn [negb]. rewrite Hm. cbn [mbind option_bind].
  assert (T : exists same, match qb_map_get m k with Some j => icmap_item_eq j (b ++ [0]) n ICMAP_VALUETYPE_STRING | None => Some false end = Some same).
  { destruct (qb_map_get m k) as [j|]; [|now exists false]. unfold icmap_item_eq. destruct (negb _); [now eexists|]. cbn [stored_len]. rewrite Es. cbn [mbind option_bind].
    destruct (Nat.eqb_spec (ii_value_len j) (S (Nat.min n n))) as [E|]; [|now eexists]. unfold ii_value_len in E.
    rewrite !mem_read_some by (rewrite ?length_app; cbn; lia). now eexists. }
  destruct T as [[|] ->]; cbn [mbind option_bind]; [now eexists|]. rewrite Hk, andb_false_r. cbn [new_value_len stored_len]. rewrite Es. cbn [mbind option_bind].
  unfold item_value. rewrite mem_read_some by (rewrite length_app; cbn; lia). cbn [mbind option_bind]. unfold put. rewrite Hm. now eexists.
Qed.

(** What is read depends on the item only. *)
Lemma get_r_lookup map k b n s : is_Some (map_at map s) -> icmap_get_r map (Some k) b n s =
  Some (match lookup_item map k s with
        | None => (CS_ERR_NOT_EXIST, mk_get None n None)
        | Some i =>
            if negb b then (CS_OK, mk_get None (match n with None => None | Some _ => Some (ii_value_len i) end) (Some (ii_type i)))
            else match n with
                 | None => (CS_ERR_INVALID_PARAM, mk_get None None (Some (ii_type i)))
                 | Some n => if Nat.ltb n (ii_value_len i) then (CS_ERR_INVALID_PARAM, mk_get None (Some n) (Some (ii_type i)))
                             else (CS_OK, mk_get (Some (ii_value i)) (Some (ii_value_len i)) (Some (ii_type i)))
                 end
        end).
Proof. intros [m Hm]. unfold icmap_get_r, icmap_get_ref_r, lookup_item. rewrite Hm. cbn. now destruct (qb_map_get m k). Qed.

Lemma get_unsigned_ext t map k s s' : is_Some (map_at map s) -> is_Some (map_at map s') -> lookup_item map k s' = lookup_item map k s ->
  get_unsigned t map k s' = get_unsigned t map k s.
Proof. intros H1 H2 L. unfold get_unsigned, icmap_get_int_r. now rewrite !get_r_lookup, L by assumption. Qed.
Lemma get_signed_ext t map k s s' : is_Some (map_at map s) -> is_Some (map_at map s') -> lookup_item map k s' = lookup_item map k s ->
  get_signed t map k s' = get_signed t map k s.
Proof. intros H1 H2 L. unfold get_signed, icmap_get_int_r. now rewrite !get_r_lookup, L by assumption. Qed.
Lemma get_string_ext map k s s' : is_Some (map_at map s) -> is_Some (map_at map s') -> lookup_item map k s' = lookup_item map k s ->
  icmap_get_string_r map k s' = icmap_get_string_r map k s.
Proof.
  intros H1 H2 L. unfold icmap_get_string_r. rewrite !(get_r_lookup map k false), L by assumption. cbn [mbind option_bind].
  destruct (lookup_item map k s) as [i|] eqn:E; [|reflexivity]. cbn [mbind option_bind negb g_type g_value_len]. change (negb (CS_OK =? CS_OK)) with false.
  destruct (ii_type i); try reflexivity. now rewrite !get_r_lookup, E, L by assumption.
Qed.

Lemma copy_keys_total dst src keys s m : icmap_ok s -> dst <> src -> map_at dst s = Some m -> is_Some (map_at src s) -> NoDup keys ->
  (forall k, k ∈ keys -> exists i, lookup_item src k s = Some i /\ (ii_value_len i <= ICMAP_MAX_VALUE_LEN)%nat) ->
  exists s', copy_keys dst src keys s = Some (CS_OK, s') /\
    forall map k, lookup_item map k s' = if (map =? dst) && bool_decide (k ∈ keys) then lookup_item src k s else lookup_item map k s.
Proof.
  revert s m. induction keys as [|k keys IH]; intros s m Ok Ne Hd Hs N Hk.
  { exists s. split; [reflexivity|]. intros map k. rewrite bool_decide_false by apply not_elem_of_nil. now rewrite andb_false_r. }
  destruct (Hk k) as (i & Hi & Hl); [left|]. apply NoDup_cons in N as [Nk N]. cbn [copy_keys]. rewrite (get_ref_item _ _ _ _ Hi). cbn [mbind option_bind].
  destruct (Ok _ _ _ Hi) as [Io Ik]. destruct (set_item_total dst k i s m Ok Hd Io Hl Ik) as [s1 E1]. rewrite E1. cbn [mbind option_bind].
  change (CS_OK =? CS_OK) with true. cbv iota.
  destruct (set_lookup _ _ _ _ _ _ _ _ Ok E1 eq_refl) as (j & Hj & L).
  assert (j = i) as -> by exact (canonical_unique _ _ _ _ _ Hj (item_canonical i Io)).
  pose proof (set_changes _ _ _ _ _ _ _ _ Ok E1) as C1.
  assert (Mp : forall x, is_Some (map_at x s1) <-> is_Some (map_at x s)).
  { clear -C1. induction C1 as [|a b c (map & k & old & new & same & C) _ IH]; [easy|]. intros x. rewrite IH. apply C. }
  destruct (proj2 (Mp dst)) as [m1 Hm1]; [now exists m|].
  destruct (IH s1 m1 (changes_ok _ _ C1 Ok) Ne Hm1 (proj2 (Mp src) Hs) N) as (s' & E' & L').
  { intros k' Hk'. destruct (Hk k') as (i' & Hi' & Hl'); [now right|]. exists i'. rewrite L.
    destruct (Z.eqb_spec src dst); [congruence|]. now split. }
  exists s'. split; [exact E'|]. intros map k'. rewrite L', !L. destruct (Z.eqb_spec map dst) as [->|Nm]; cbn [andb]; [|reflexivity].
  destruct (Z.eqb_spec src dst); [congruence|]. cbn [andb]. destruct (String.eqb_spec k k') as [<-|Nk'].
  - rewrite (bool_decide_true (k ∈ k :: keys)) by left. rewrite bool_decide_false by exact Nk. now rewrite Hi.
  - rewrite (bool_decide_ext (k' ∈ k :: keys) (k' ∈ keys)); [reflexivity|]. rewrite elem_of_cons. naive_solver.
Qed.

(** Copying a map succeeds unless one of its strings has the maximal length; the
    destination then has every item of the source, and keeps its other items. *)
Theorem icmap_copy_map_copies dst src s : icmap_ok s -> dst <> src -> is_Some (map_at dst s) -> is_Some (map_at src s) ->
  (forall k i, lookup_item src k s = Some i -> (ii_value_len i <= ICMAP_MAX_VALUE_LEN)%nat) ->
  exists s', icmap_copy_map dst src s = Some (CS_OK, s') /\
    forall k, lookup_item dst k s' = match lookup_item src k s with Some i => Some i | None => lookup_item dst k s end.
Proof.
  intros Ok Ne [m Hd] [m' Hs] Hl. unfold icmap_copy_map, icmap_iter_init_r. rewrite Hs. cbn [mbind option_bind default].
  assert (K : forall k, k ∈ qb_map_pref_iter m' "" <-> lookup_item src k s <> None).
  { intros k. rewrite qb_iter_keys. unfold lookup_item. rewrite Hs. cbn [mbind option_bind]. unfold is_prefix. destruct k; cbn; tauto. }
  destruct (copy_keys_total dst src (qb_map_pref_iter m' "") s m Ok Ne Hd) as (s' & E & L); [now exists m' | apply qb_iter_nodup | |].
  - intros k Hk. apply K in Hk. destruct (lookup_item src k s) as [i|] eqn:Ei; [|easy]. exists i. split; [reflexivity | exact (Hl _ _ Ei)].
  - exists s'. split; [exact E|]. intros k. rewrite L, Z.eqb_refl. cbn [andb]. case_bool_decide as D; rewrite K in D.
    + now destruct (lookup_item src k s).
    + destruct (lookup_item src k s); [now contradict D | reflexivity].
Qed.

(** A string of the maximal length can be stored but not copied: the copy fails. *)
Theorem longest_string_not_copied map v s err s' : icmap_ok s -> c_str v -> length (chars v) = ICMAP_MAX_VALUE_LEN ->
  forall k, icmap_set_string_r map k (Some v) s = Some (err, s') -> err = CS_OK ->
  forall dst keys, copy_keys dst map (k :: keys) s' = Some (CS_ERR_INVALID_PARAM, s').
Proof.
  intros Ok Hv Hn k E Hok dst keys. destruct (set_lookup _ _ _ _ _ _ _ _ Ok E Hok) as (i & [Et (n & Hs & Ev)] & L).
  specialize (L map k). rewrite Z.eqb_refl, String.eqb_refl in L. cbn [andb] in L. cbn [copy_keys]. rewrite (get_ref_item _ _ _ _ L). cbn [mbind option_bind].
  assert (Io : item_ok i) by exact (proj1 (changes_ok _ _ (set_changes _ _ _ _ _ _ _ _ Ok E) Ok _ _ _ L)).
  unfold icmap_set_r. rewrite (check_item_len i Io). rewrite mem_strlen_app in Hs by exact Hv. injection Hs as <-.
  assert (Hl : ii_value_len i = S ICMAP_MAX_VALUE_LEN).
  { unfold ii_value_len. rewrite Ev, length_bytes_of_string, Nat.min_id, <- length_bytes_of_string, take_app_length, length_app, length_bytes_of_string, Hn. cbn [length]. lia. }
  rewrite Hl, (proj2 (Nat.leb_gt _ _)) by lia. reflexivity.
Qed.

(** ** Adjusting *)

(** Adjusting an integer in place adds to it modulo its width. *)
Theorem fast_adjust_adds map k step s i err s' : icmap_ok s -> lookup_item map k s = Some i ->
  icmap_fast_adjust_int_r map (Some k) step s = Some (err, s') -> err = CS_OK ->
  exists v, lookup_item map k s' = Some (mk_item (ii_type i) v) /\
    le_value v = (le_value (ii_value i) + step) mod 2 ^ (8 * Z.of_nat (ii_value_len i)).
Proof.
  intros Ok L E Hok. destruct (fast_adjust_change _ _ _ _ _ _ E) as [[? _]|[_ (j & v & Ha & C)]]; [easy|].
  rewrite (ch_old _ _ _ _ _ _ _ C) in L. injection L as ->. exists v.
  rewrite (ch_lookup _ _ _ _ _ _ _ C), Z.eqb_refl, String.eqb_refl. split; [reflexivity|].
  exact (proj2 (proj2 (adjusted_ok _ _ _ Ha (proj1 (Ok _ _ _ (ch_old _ _ _ _ _ _ _ C)))))).
Qed.

(** [icmap_adjust_int_r] never changes the map it is called on, when that is not the
    global one: the result is stored in the global map. *)
Theorem adjust_int_wrong_map map k step s err s' : icmap_ok s -> map <> icmap_global_map s ->
  icmap_adjust_int_r map (Some k) step s = Some (err, s') ->
  (forall k', lookup_item map k' s' = lookup_item map k' s) /\
  (err = CS_OK -> exists i v, lookup_item map k s = Some i /\ adjusted i step = Some v /\
     lookup_item (icmap_global_map s) k s' = Some (mk_item (ii_type i) v)).
Proof.
  intros Ok Ne E. destruct (adjust_is_set _ _ _ _ _ _ E) as [[Hn ->]|(i & v & L & Ha & Es)]; [easy|]. split.
  - destruct (set_change _ _ _ _ _ _ _ _ Ok Es) as [[_ ->]|[_ (j & _ & [[-> _]|[old C]])]]; [reflexivity.. |].
    intros k'. rewrite (ch_lookup _ _ _ _ _ _ _ C). now destruct (Z.eqb_spec map (icmap_global_map s)).
  - intros Hok. exists i, v. split; [exact L|]. split; [exact Ha|]. destruct (set_lookup _ _ _ _ _ _ _ _ Ok Es Hok) as (j & Hj & Hl).
    destruct (adjusted_ok _ _ _ Ha (proj1 (Ok _ _ _ L))) as (Io & Hv & _).
    rewrite Hl, Z.eqb_refl, String.eqb_refl. f_equal. exact (canonical_unique _ _ _ _ _ Hj (item_canonical _ Io)).
Qed.

End Props.

(** ** A map of stdpp has the properties that icmap relies on *)

#[export] Instance gmap_qb_map : qb_map (gmap string icmap_item) := {
  qb_trie_create := ∅;
  qb_map_get m k := m !! k;
  qb_map_put m k i := <[k := i]> m;
  qb_map_rm m k := delete k m;
  qb_map_pref_iter m p := merge_sort String.le (List.filter (is_prefix p) (map fst (map_to_list m)));
  qb_map_notified l k e := List.filter (qb_meant k e) l
}.

#[export] Instance gmap_qb_map_laws : qb_map_laws (gmap string icmap_item).
Proof.
  constructor; cbn.
  - intros k. apply lookup_empty.
  - intros m k i k'. destruct (String.eqb_spec k k') as [->|N]; [apply lookup_insert_eq | now apply lookup_insert_ne].
  - intros m k k'. destruct (String.eqb_spec k k') as [->|N]; [apply lookup_delete_eq | now apply lookup_delete_ne].
  - intros m p k. rewrite merge_sort_Permutation, list_elem_of_In, filter_In, in_map_iff. enough (H : (exists x, fst x = k /\ In x (map_to_list m)) <-> m !! k <> None) by tauto. split.
    + intros ([k' i] & <- & H%list_elem_of_In%elem_of_map_to_list). cbn. congruence.
    + intros H. destruct (m !! k) as [i|] eqn:E; [|easy]. exists (k, i). split; [reflexivity|]. now apply list_elem_of_In, elem_of_map_to_list.
  - intros m p. rewrite merge_sort_Permutation. apply filter_nodup. apply NoDup_fst_map_to_list.
  - reflexivity.
Qed.

#[export] Instance gmap_qb_map_ordered : qb_map_ordered (gmap string icmap_item).
Proof. intros m p. apply (StronglySorted_merge_sort _). Qed.

Definition demo_map := icmap (gmap string icmap_item).

(** Global map 1, a second map 2 with a counter, and a tracker of "totem.". *)
Definition demo_zero : demo_map := snd (icmap_init_r 2 (snd (icmap_init 1 icmap_zero))).
Definition demo_ops : list icmap_op :=
  [OpSet 2 (Some "totem.token"%string) (Some (le_bytes 4 1000)) 4 ICMAP_VALUETYPE_UINT32;
   OpSet 1 (Some "totem.version"%string) (Some (le_bytes 4 2)) 4 ICMAP_VALUETYPE_UINT32;
   OpSet 1 (Some "totem.version"%string) (Some (le_bytes 4 2)) 4 ICMAP_VALUETYPE_UINT32;
   OpFastAdjust 1 (Some "totem.version"%string) (-3);
   OpCopy 1 2; OpDelete 1 (Some "totem.version"%string)].
Definition demo_start : demo_map := snd (icmap_track_add (Some "totem."%string) all_changes 9 77 0 demo_zero).
Definition demo_final : demo_map := default demo_start (icmap_run demo_ops demo_start).

Lemma demo_zero_ok : icmap_ok demo_zero.
Proof.
  intros map k i. unfold lookup_item, map_at, demo_zero. cbn. destruct (decide (map = 2)) as [->|N2]; [rewrite lookup_insert_eq; cbn; now rewrite lookup_empty|].
  rewrite lookup_insert_ne by congruence. destruct (decide (map = 1)) as [->|N1]; [rewrite lookup_insert_eq; cbn; now rewrite lookup_empty|].
  rewrite lookup_insert_ne by congruence. now rewrite lookup_empty.
Qed.

Lemma demo_start_ok : icmap_ok demo_start.
Proof. exact demo_zero_ok. Qed.

Lemma icmap_run_ok_witness : icmap_ok demo_final.
Proof.
  refine (icmap_run_ok demo_ops demo_start demo_final demo_start_ok _).
  refine (some_default demo_start (icmap_run demo_ops demo_start) _). vm_compute. reflexivity.
Defined.

Lemma demo_tracks : tracks 77 "totem." demo_start.
Proof. constructor; [now exists 0%nat, (mk_track (Some "totem."%string) all_changes 9) | reflexivity]. Qed.

Lemma tracker_follows_map_witness : exists l, notes_to 77 (ic_out demo_final) = notes_to 77 (ic_out demo_start) ++ l /\
  follows l (view "totem." demo_start) (view "totem." demo_final).
Proof.
  refine (tracker_follows_map demo_ops demo_start demo_final 77 "totem." demo_start_ok demo_tracks _).
  refine (some_default demo_start (icmap_run demo_ops demo_start) _). vm_compute. reflexivity.
Defined.

(** The tracker of the run above: an addition, an in-place change, the copied key, a deletion. *)
Example demo_notes : map (fun x => (fst (fst (fst x)), snd (fst (fst x)))) (notes_to 77 (ic_out demo_final)) =
  [(4, "totem.version"); (2, "totem.version"); (4, "totem.token"); (1, "totem.version")]%string.
Proof. vm_compute. reflexivity. Qed.

Definition demo_named : Z * demo_map := default (0, demo_zero) (icmap_set_string_r 1 "totem.cluster_name" (Some "demo"%string) demo_zero).

Lemma icmap_string_roundtrip_witness : icmap_get_string_r 1 "totem.cluster_name" (snd demo_named) = Some (CS_OK, Some "demo"%string).
Proof.
  refine (proj1 (icmap_string_roundtrip 1 "totem.cluster_name" "demo" demo_zero (fst demo_named) (snd demo_named) demo_zero_ok _ _ _)).
  - unfold c_str. by_compute.
  - vm_compute. reflexivity.
  - vm_compute. reflexivity.
Defined.

Definition demo_int : Z * demo_map := default (0, demo_zero) (set_int ICMAP_VALUETYPE_INT16 1 "quorum.votes" (-2) demo_zero).

Lemma icmap_int_roundtrip_witness : get_signed ICMAP_VALUETYPE_INT16 1 "quorum.votes" (snd demo_int) = Some (CS_OK, Some (-2)).
Proof.
  refine (proj2 (icmap_int_roundtrip ICMAP_VALUETYPE_INT16 1 "quorum.votes" (-2) demo_zero (fst demo_int) (snd demo_int) demo_zero_ok _ _ _ _) _);
    [discriminate | discriminate | vm_compute; reflexivity | vm_compute; reflexivity | cbn; lia].
Defined.

Definition demo_src : demo_map := snd demo_int.
Definition demo_src_items : gmap string icmap_item := default ∅ (map_at 1 demo_src).

Lemma demo_src_ok : icmap_ok demo_src.
Proof.
  refine (changes_ok demo_zero demo_src (set_changes 1 (Some "quorum.votes"%string) (Some (le_bytes 2 (-2))) 2 ICMAP_VALUETYPE_INT16 demo_zero CS_OK demo_src demo_zero_ok _) demo_zero_ok).
  vm_compute. reflexivity.
Qed.

Lemma icmap_copy_map_copies_witness : exists s', icmap_copy_map 2 1 demo_src = Some (CS_OK, s') /\
  forall k, lookup_item 2 k s' = match lookup_item 1 k demo_src with Some i => Some i | None => lookup_item 2 k demo_src end.
Proof.
  refine (icmap_copy_map_copies 2 1 demo_src demo_src_ok _ _ _ _); [discriminate | eexists; vm_compute; reflexivity | eexists; vm_compute; reflexivity|].
  assert (F : map_Forall (fun _ i => (ii_value_len i <= ICMAP_MAX_VALUE_LEN)%nat) demo_src_items) by by_compute.
  intros k i L. apply (F k i). unfold lookup_item in L. apply bind_Some in L as (m & Hm & L). unfold demo_src_items. now rewrite Hm.
Defined.

Fixpoint repeat_char (n : nat) : string := match n with O => EmptyString | S n => String "x" (repeat_char n) end.
Definition longest : string := repeat_char ICMAP_MAX_VALUE_LEN.
Definition demo_long : Z * demo_map := default (0, demo_zero) (icmap_set_string_r 1 "totem.comment" (Some longest) demo_zero).

Lemma longest_string_not_copied_witness : copy_keys 2 1 ["totem.comment"%string] (snd demo_long) = Some (CS_ERR_INVALID_PARAM, snd demo_long).
Proof.
  refine (longest_string_not_copied 1 longest demo_zero (fst demo_long) (snd demo_long) demo_zero_ok _ _ "totem.comment" _ _ 2 []).
  - unfold c_str. by_compute.
  - vm_compute. reflexivity.
  - vm_compute. reflexivity.
  - vm_compute. reflexivity.
Defined.

Definition demo_other : demo_map := demo_src <| icmap_global_map := 2 |>.
Definition demo_adjusted : Z * demo_map := default (0, demo_other) (icmap_adjust_int_r 1 (Some "quorum.votes"%string) 5 demo_other).

Lemma demo_other_ok : icmap_ok demo_other.
Proof. intros map k i L. exact (demo_src_ok map k i L). Qed.

Lemma adjust_int_wrong_map_witness : lookup_item 1 "quorum.votes" (snd demo_adjusted) = lookup_item 1 "quorum.votes" demo_other.
Proof.
  refine (proj1 (adjust_int_wrong_map 1 "quorum.votes" 5 demo_other (fst demo_adjusted) (snd demo_adjusted) demo_other_ok _ _) "quorum.votes"%string);
    [discriminate | vm_compute; reflexivity].
Defined.
