(* ===== verification/Util.v ===== *)
(** * Utilities (exec/util.c)

    Names, the lists of the algorithms that knet knows, and the state directory.
    What knet knows and the environment of the program are parameters. *)
From stdpp Require Import pretty.
From S2P Require Import Prelude CString VoteQuorumExec Cpg Icmap.

Local Open Scope string_scope.

Definition CS_MAX_NAME_LENGTH : nat := 256.
Definition UTILS_IS_VALID_KNET_LIST_MAX_ITEMS : nat := 256.

Definition servicenames : list (string * Z) :=
  [("CFG", 1); ("CPG", 2); ("QUORUM", 3); ("PLOAD", 4); ("VOTEQUORUM", 5); ("MON", 6); ("WD", 7); ("CMAP", 0)].

(** The number is printed as an [int]. *)
Definition short_service_name_get (service_id : Z) : string :=
  match list_find (fun x => snd x = service_id) servicenames with
  | Some (_, (n, _)) => n
  | None => pretty (s32 service_id)
  end.

(** ** Strings in arrays *)

(** Does nothing when there is no room. *)
Definition safe_strcat (dst : string) (dst_len : nat) (src : string) : string :=
  if (Z.of_nat dst_len - 1 <=? strlen dst + strlen src)%Z then dst else (dst +:+ src).

(** [snprintf] into an array of [n] characters, of a string: what is stored. *)
Definition snprintf (n : nat) (s : string) : string := str (take (n - 1) (chars s)).

(** A name with its length; the array holds [CS_MAX_NAME_LENGTH] bytes. *)
Record cs_name_t := mk_cs_name { cn_length : nat; cn_value : list Z }.

(** [strncmp (a, b, n) == 0] on bytes. *)
Fixpoint mem_strncmp_eq (n : nat) (a b : list Z) : bool :=
  match n, a, b with
  | S n, x :: a, y :: b => (x =? y)%Z && ((x =? 0)%Z || mem_strncmp_eq n a b)
  | _, _, _ => true
  end.

Definition name_match (name1 name2 : cs_name_t) : bool :=
  Nat.eqb (cn_length name1) (cn_length name2) && mem_strncmp_eq (cn_length name1) (cn_value name1) (cn_value name2).

(** The string shown; a name that is not terminated is cut. *)
Definition getcs_name_t (name : cs_name_t) : list Z :=
  if Nat.leb CS_MAX_NAME_LENGTH (cn_length name) || negb (bool_decide (cn_value name !! cn_length name = Some 0))
  then c_string (take (Nat.min (cn_length name) (CS_MAX_NAME_LENGTH - 1)) (cn_value name))
  else c_string (cn_value name).

(** The length is that of [str] in 16 bits, the value what fits. *)
Definition setcs_name_t (str : string) : cs_name_t :=
  let v := take (CS_MAX_NAME_LENGTH - 1) (bytes_of_string str) in
  let value := (v ++ repeat 0%Z (CS_MAX_NAME_LENGTH - length v))%list in
  mk_cs_name (if Nat.ltb CS_MAX_NAME_LENGTH (length v) then CS_MAX_NAME_LENGTH else Z.to_nat (u16 (strlen str))) value.

Definition cs_name_tisEqual (str1 : cs_name_t) (str2 : string) : bool :=
  Nat.eqb (cn_length str1) (length (chars str2)) && mem_strncmp_eq (cn_length str1) (cn_value str1) (bytes_of_string str2 ++ [0%Z])%list.

(** ** The lists of knet *)

(** What the build and the library offer; [None]: the list cannot be read. *)
Record knet_env := mk_knet_env {
  enable_unencrypted : bool;
  knet_get_crypto_list : option (list string);
  knet_get_compress_list : option (list string);
  knet_get_crypto_cipher_list : option (list string);
  knet_get_crypto_hash_list : option (list string)
}.

(** The separator in front of item [zi]. *)
Definition list_separator (zi no_items : nat) (machine : bool) : string :=
  if Nat.eqb zi 0 then ""
  else if Nat.eqb zi (no_items - 1) then (if machine then " " else " or ")
  else (if machine then " " else ", ").

Fixpoint list_string (zi no_items : nat) (machine : bool) (items : list string) (acc : string) : string :=
  match items with
  | [] => acc
  | i :: items =>
      let acc := if Nat.eqb zi 0 then acc else safe_strcat acc 256 (list_separator zi no_items machine) in
      list_string (S zi) no_items machine items (safe_strcat acc 256 i)
  end.

(** Whether the value is in the list, the list as a string, and the error. *)
Definition util_is_valid_knet_list_helper (val : option string) (items : list string) (machine : bool) (prefix : string)
    : bool * string * string :=
  let list_str := list_string 0 (length items) machine items "" in
  (existsb (fun i => bool_decide (val = Some i)) items, list_str,
   safe_strcat (safe_strcat "" 512 prefix) 512 list_str).

(** [inl]: the error; [inr]: the value is valid. *)
Definition knet_check (get name : string) (names : option (list string)) (first : list string) (val : string) (prefix : string) : string + unit :=
  match names with
  | None => inl ("internal error - cannot get " +:+ get +:+ " list")
  | Some l =>
      if Nat.ltb (UTILS_IS_VALID_KNET_LIST_MAX_ITEMS - length first) (length l)
      then inl ("internal error - too many knet " +:+ name +:+ " list entries")
      else let '(found, _, err) := util_is_valid_knet_list_helper (Some val) (first ++ l)%list false prefix in
           if found then inr tt else inl err
  end.

Definition none_item (env : knet_env) : list string := if enable_unencrypted env then ["none"] else [].

Definition util_is_valid_knet_crypto_model (env : knet_env) (val prefix : string) : string + unit :=
  knet_check "knet crypto" "crypto" (knet_get_crypto_list env) [] val prefix.
Definition util_is_valid_knet_compress_model (env : knet_env) (val prefix : string) : string + unit :=
  knet_check "knet compress" "compress" (knet_get_compress_list env) [] val prefix.
Definition util_is_valid_knet_crypto_cipher (env : knet_env) (val prefix : string) : string + unit :=
  knet_check "crypto cipher" "crypto cipher" (knet_get_crypto_cipher_list env) (none_item env) val prefix.
Definition util_is_valid_knet_crypto_hash (env : knet_env) (val prefix : string) : string + unit :=
  knet_check "crypto hash" "crypto hash" (knet_get_crypto_hash_list env) (none_item env) val prefix.

(** ** The environment *)

(** [configured]: system.state_dir; [env]: STATE_DIRECTORY; [None]: the assertion on
    the length fails. *)
Definition get_state_dir (configured env : option string) (localstatedir : string) : option string :=
  let p := match configured, env with
           | Some d, _ => d
           | None, Some d => d
           | None, None => (localstatedir +:+ "/lib/corosync")
           end in
  if (strlen p <? 4096)%Z then Some p else None.

(** The type of service byte that is set, when one is. *)
Definition set_socket_dscp (dscp : Z) : option Z := if c_true dscp then Some (Z.shiftl (Z.land dscp 63) 2) else None.

(** ** Error strings (common_lib/error_conversion.c) *)

Definition error_names : list (Z * string) :=
  ([(1, "success"); (2, "CS_ERR_LIBRARY"); (3, "CS_ERR_VERSION"); (4, "CS_ERR_INIT"); (8, "CS_ERR_NO_MEMORY");
    (13, "CS_ERR_NAME_TOO_LONG"); (5, "CS_ERR_TIMEOUT"); (6, "CS_ERR_TRY_AGAIN"); (7, "CS_ERR_INVALID_PARAM");
    (9, "CS_ERR_BAD_HANDLE"); (10, "CS_ERR_BUSY"); (11, "CS_ERR_ACCESS"); (12, "CS_ERR_NOT_EXIST"); (14, "CS_ERR_EXIST");
    (15, "CS_ERR_NO_SPACE"); (16, "CS_ERR_INTERRUPT"); (17, "CS_ERR_NAME_NOT_FOUND"); (18, "CS_ERR_NO_RESOURCES");
    (19, "CS_ERR_NOT_SUPPORTED"); (20, "CS_ERR_BAD_OPERATION"); (21, "CS_ERR_FAILED_OPERATION"); (22, "CS_ERR_MESSAGE_ERROR");
    (23, "CS_ERR_QUEUE_FULL"); (24, "CS_ERR_QUEUE_NOT_AVAILABLE"); (25, "CS_ERR_BAD_FLAGS"); (26, "CS_ERR_TOO_BIG");
    (27, "CS_ERR_NO_SECTIONS"); (28, "CS_ERR_CONTEXT_NOT_FOUND"); (30, "CS_ERR_TOO_MANY_GROUPS"); (100, "CS_ERR_SECURITY")])%Z.

Definition cs_strerror (err : Z) : string :=
  match list_find (fun x => fst x = err) error_names with Some (_, (_, n)) => n | None => "unknown error" end.
