(* ===== verification/Coroparse.v ===== *)
(** * The configuration parser (exec/coroparse.c)

    Files are lists of characters without NUL; [parse_section] reads them line by
    line and hands sections and keys to a callback, which is a parameter as in the
    code.  [parse_lines] has fuel: the length of the file is enough.

    Numbers: [safe_atoq], [str_to_ull] and [get_dscp_value]. *)
From stdpp Require Import pretty.
From S2P Require Import Prelude CString VoteQuorumExec Cpg Icmap Util.

Inductive parser_cb_type :=
| PARSER_CB_START | PARSER_CB_END | PARSER_CB_SECTION_START | PARSER_CB_SECTION_END | PARSER_CB_ITEM | PARSER_CB_CLEANUP.

Inductive main_cp_cb_data_state :=
| MAIN_CP_CB_DATA_STATE_NORMAL | MAIN_CP_CB_DATA_STATE_TOTEM | MAIN_CP_CB_DATA_STATE_INTERFACE
| MAIN_CP_CB_DATA_STATE_LOGGER_SUBSYS | MAIN_CP_CB_DATA_STATE_UIDGID | MAIN_CP_CB_DATA_STATE_LOGGING_DAEMON
| MAIN_CP_CB_DATA_STATE_MEMBER | MAIN_CP_CB_DATA_STATE_QUORUM | MAIN_CP_CB_DATA_STATE_QDEVICE
| MAIN_CP_CB_DATA_STATE_NODELIST | MAIN_CP_CB_DATA_STATE_NODELIST_NODE | MAIN_CP_CB_DATA_STATE_PLOAD
| MAIN_CP_CB_DATA_STATE_SYSTEM | MAIN_CP_CB_DATA_STATE_RESOURCES | MAIN_CP_CB_DATA_STATE_RESOURCES_SYSTEM
| MAIN_CP_CB_DATA_STATE_RESOURCES_PROCESS | MAIN_CP_CB_DATA_STATE_RESOURCES_SYSTEM_MEMUSED
| MAIN_CP_CB_DATA_STATE_RESOURCES_PROCESS_MEMUSED.
#[export] Instance cp_state_eq : EqDecision main_cp_cb_data_state.
Proof. solve_decision. Defined.

(** ** Lines *)

Definition is_blank (c : ascii) : bool := let n := code c in (n =? 32) || (n =? 9) || (n =? 160).
Definition chr (n : Z) : ascii := ascii_of_N (Z.to_N n).
Definition is_code (n : Z) (c : ascii) : bool := code c =? n.

(** [fgets] into an array of [n + 1] characters: the line with its newline, the rest of
    the file, and whether the end of the file was reached. *)
Fixpoint fgets (n : nat) (l : list ascii) : list ascii * list ascii * bool :=
  match n, l with
  | O, _ => ([], l, false)
  | S _, [] => ([], [], true)
  | S n, c :: l => if is_code 10 c then ([c], l, false)
                   else let '(line, rest, eof) := fgets n l in (c :: line, rest, eof)
  end.

(** Drop the characters at the end that satisfy [p]. *)
Fixpoint strip_end (p : ascii -> bool) (l : list ascii) : list ascii :=
  match l with
  | [] => []
  | c :: l => match strip_end p l with [] => if p c then [] else [c] | l' => c :: l' end
  end.

(** The same, but the first character stays. *)
Definition strip_end_but_first (p : ascii -> bool) (l : list ascii) : list ascii :=
  match l with [] => [] | c :: l => c :: strip_end p l end.

Fixpoint skip_blank (l : list ascii) : list ascii :=
  match l with c :: l' => if is_blank c then skip_blank l' else l | [] => [] end.

(** One newline at the end, and then one carriage return. *)
Definition ends_with (n : Z) (l : list ascii) : bool := match last l with Some c => is_code n c | None => false end.
Definition chomp (l : list ascii) : list ascii :=
  let l := if ends_with 10 l then removelast l else l in
  if ends_with 13 l then removelast l else l.

Definition ignore_line (l : list ascii) : bool := match skip_blank l with [] => true | c :: _ => is_code 35 c end.

(** [strchr_rs]: what is in front of the byte and blanks behind it up to [loc - 1],
    as [*(loc - 1) = 0] leaves it, and what begins at [loc]. *)
Fixpoint strchr (byte : Z) (l : list ascii) : option (list ascii * list ascii) :=
  match l with
  | [] => None
  | c :: l' => if is_code byte c then Some ([], l') else '(pre, post) ← strchr byte l'; Some (c :: pre, post)
  end.

Definition strchr_rs (byte : Z) (l : list ascii) : option (list ascii * list ascii) :=
  '(pre, post) ← strchr byte l;
  let loc := skip_blank post in
  let skipped := take (length post - length loc) post in
  Some (match skipped with [] => pre | _ => pre ++ chr byte :: removelast skipped end, loc).

Definition remove_whitespace (l : list ascii) (remove_colon_and_brace : bool) : list ascii :=
  strip_end_but_first (fun c => is_blank c || remove_colon_and_brace && (is_code 58 c || is_code 123 c)) (skip_blank l).

(** ** Sections *)

(** The result of a callback: whether it succeeds, the state, and the error string. *)
Record cb_result := mk_cb_result { cb_ok : bool; cb_state : main_cp_cb_data_state; cb_error : string }.

(** [D]: the configuration map and the data of the callback.  [None]: a callback
    accesses memory outside its bounds. *)
Definition parser_cb (D : Type) := string -> string -> string -> main_cp_cb_data_state -> parser_cb_type -> D -> option (cb_result * D).

Definition join_path (path name : string) : string :=
  if String.eqb path "" then name else (path +:+ "." +:+ name).

(** A formatted error that does not fit its array is replaced. *)
Definition fits (n : nat) (s : string) : string :=
  if Nat.ltb (length (chars s)) n then s else "Can't format parser error message".

(** The file that is read, the number of the line and the data. *)
Record parser (D : Type) := mk_parser { p_file : list ascii; p_line_no : Z; p_data : D }.
Arguments mk_parser {D}.
Arguments p_file {D}.
Arguments p_line_no {D}.
Arguments p_data {D}.

(** What a line is. *)
Inductive line :=
| LineIgnored
| LineError (msg : string)
| LineSection (name : string)
| LineItem (key value : string)
| LineClose.

(** The text of a line that was read, without its end and blanks. *)
Definition line_text (raw : list ascii) : list ascii := strip_end is_blank (chomp raw).

Definition classify (path : string) (l : list ascii) : line :=
  if ignore_line l then LineIgnored
  else match strchr_rs 123 l with
  | Some (before, loc) =>
      let section := str (remove_whitespace before true) in
      let after_section := str (remove_whitespace loc false) in
      if String.eqb section "" then LineError "Missing section name before opening bracket '{'"
      else if negb (String.eqb after_section "") then LineError "Extra characters after opening bracket '{'"
      else if Z.of_nat ICMAP_KEYNAME_MAXLEN <=? strlen path + strlen section + 1
      then LineError "Start of section makes total cmap path too long"
      else LineSection section
  | None =>
      match strchr_rs 58 l with
      | Some (before, loc) =>
          let key := str (remove_whitespace before true) in
          let value := str (remove_whitespace loc false) in
          if strlen key =? 0 then LineError "Key name can't be empty"
          else if Z.of_nat ICMAP_KEYNAME_MAXLEN <=? strlen path + strlen key + 1
          then LineError "New key makes total cmap path too long"
          else LineItem key value
      | None =>
          match strchr_rs 125 l with
          | Some _ => if String.eqb (str (remove_whitespace l false)) "}" then LineClose
                      else LineError "Extra characters before or after closing bracket '}'"
          | None => LineError "Line is not opening or closing section or key value"
          end
      end
  end.

Section Parse.
Context {D : Type} (cb : parser_cb D) (fname : string).

(** [parse_error]: the error of the section. *)
Definition parse_error (state : main_cp_cb_data_state) (msg : string) (p : parser D) : option (option string * parser D) :=
  '(_, d) ← cb "" "" "" state PARSER_CB_CLEANUP (p_data p);
  Some (Some (fits 384 ("parser error: " +:+ fname +:+ ":" +:+ pretty (p_line_no p) +:+ ": " +:+ msg)),
        mk_parser (p_file p) (p_line_no p) d).

(** The loop over the lines of a section; [Some (None, _)]: it is complete. *)
Fixpoint parse_lines (fuel : nat) (path : string) (depth : nat) (state : main_cp_cb_data_state) (p : parser D)
    : option (option string * parser D) :=
  match fuel with
  | O => None
  | S fuel =>
      match p_file p with
      | [] =>
          if negb (String.eqb path "") then parse_error state "Missing closing brace" p
          else
            '(r, d) ← cb "" "" "" state PARSER_CB_END (p_data p);
            '(_, d) ← cb "" "" "" (cb_state r) PARSER_CB_CLEANUP d;
            Some (None, mk_parser [] (p_line_no p) d)
      | file =>
          let '(raw, rest, eof) := fgets 511 file in
          let p := mk_parser rest (u32 (p_line_no p + 1)) (p_data p) in
          if negb (ends_with 10 raw) && negb eof then parse_error state "Line too long" p
          else
            match classify path (line_text raw) with
            | LineIgnored => parse_lines fuel path depth state p
            | LineError msg => parse_error state msg p
            | LineSection section =>
                let new_keyname := join_path path section in
                '(r, d) ← cb new_keyname "" "" state PARSER_CB_SECTION_START (p_data p);
                let p := mk_parser (p_file p) (p_line_no p) d in
                if negb (cb_ok r) then parse_error state (cb_error r) p
                else
                  '(res, p) ← parse_lines fuel new_keyname (S depth) (cb_state r) p;
                  match res with
                  | Some err => Some (Some err, p)
                  | None => parse_lines fuel path depth state p
                  end
            | LineItem key value =>
                '(r, d) ← cb (join_path path key) key value state PARSER_CB_ITEM (p_data p);
                let p := mk_parser (p_file p) (p_line_no p) d in
                if negb (cb_ok r) then parse_error (cb_state r) (cb_error r) p
                else parse_lines fuel path depth (cb_state r) p
            | LineClose =>
                if Nat.eqb depth 0 then parse_error state "Unexpected closing brace" p
                else
                  '(r, d) ← cb path "" "" state PARSER_CB_SECTION_END (p_data p);
                  let p := mk_parser (p_file p) (p_line_no p) d in
                  if negb (cb_ok r) then parse_error (cb_state r) (cb_error r) p else Some (None, p)
            end
      end
  end.

(** The whole file: the path is empty. *)
Definition parse_section (file : list ascii) (state : main_cp_cb_data_state) (d : D) : option (option string * parser D) :=
  '(r, d) ← cb "" "" "" state PARSER_CB_START d;
  parse_lines (S (length file)) "" 0 (cb_state r) (mk_parser file 0 d).

End Parse.

(** ** Numbers *)

Definition safe_atoq_range (t : icmap_value_types_t) : option (Z * Z) :=
  match t with
  | ICMAP_VALUETYPE_INT8 => Some (- 2 ^ 7, 2 ^ 7 - 1)
  | ICMAP_VALUETYPE_UINT8 => Some (0, 2 ^ 8 - 1)
  | ICMAP_VALUETYPE_INT16 => Some (- 2 ^ 15, 2 ^ 15 - 1)
  | ICMAP_VALUETYPE_UINT16 => Some (0, 2 ^ 16 - 1)
  | ICMAP_VALUETYPE_INT32 => Some (- 2 ^ 31, 2 ^ 31 - 1)
  | ICMAP_VALUETYPE_UINT32 => Some (0, 2 ^ 32 - 1)
  | _ => None
  end.

(** [strtoll] sets [errno] when the number does not fit. *)
Definition safe_atoq (s : string) (t : icmap_value_types_t) : option Z :=
  match read_number (chars s) with
  | Some (val, []) =>
      if (val <? LONG_MIN) || (LONG_MAX <? val) then None
      else '(min_val, max_val) ← safe_atoq_range t; if (val <? min_val) || (max_val <? val) then None else Some val
  | _ => None
  end.

(** [strtoull] reads a sign and negates the number in 64 bits. *)
Definition str_to_ull (s : string) : option Z :=
  match read_number (chars s) with
  | Some (val, []) => if 2 ^ 64 - 1 <? Z.abs val then None else Some (u64 val)
  | _ => None
  end.

Definition dscp_names : list (string * Z) :=
  [("cs0", 0); ("cs1", 8); ("cs2", 16); ("cs3", 24); ("cs4", 32); ("cs5", 40); ("cs6", 48); ("cs7", 56);
   ("af11", 10); ("af12", 12); ("af13", 14); ("af21", 18); ("af22", 20); ("af23", 22); ("af31", 26); ("af32", 28);
   ("af33", 30); ("af41", 34); ("af42", 36); ("af43", 38); ("ef", 46)]%string.

(** The digits of a base, with the number of characters read. *)
Definition digit_in (base : Z) (c : ascii) : option Z :=
  let n := code c in
  let d := if (48 <=? n) && (n <=? 57) then n - 48
           else if (97 <=? n) && (n <=? 122) then n - 87
           else if (65 <=? n) && (n <=? 90) then n - 55 else base in
  if d <? base then Some d else None.

Fixpoint read_base (base acc : Z) (l : list ascii) : Z * list ascii :=
  match l with
  | c :: l' => match digit_in base c with Some d => read_base base (base * acc + d) l' | None => (acc, l) end
  | [] => (acc, [])
  end.

(** [strtol (s, &end, 0)]: the value and what is left, the whole string when nothing
    was read. *)
Definition strtol0 (s : list ascii) : Z * list ascii :=
  let l := skip_space s in
  let '(neg, l) := match l with
                   | c :: l' => if is_code 45 c then (true, l') else if is_code 43 c then (false, l') else (false, l)
                   | [] => (false, [])
                   end in
  let hex := match l with
             | z :: x :: d :: _ => is_code 48 z && (is_code 120 x || is_code 88 x) && bool_decide (is_Some (digit_in 16 d))
             | _ => false
             end in
  let base := if hex then 16 else match l with z :: _ => if is_code 48 z then 8 else 10 | [] => 10 end in
  let l := if hex then drop 2 l else l in
  match l with
  | c :: _ => match digit_in base c with
              | Some _ => let '(v, rest) := read_base base 0 l in (if neg : bool then - v else v, rest)
              | None => (0, s)
              end
  | [] => (0, s)
  end.

Definition get_dscp_value (s : string) : option Z :=
  match list_find (fun x => fst x = s) dscp_names with
  | Some (_, (_, dscp)) => Some dscp
  | None => match strtol0 (chars s) with
            | (val, []) => if (0 <=? val) && (val <=? 63) then Some val else None
            | _ => None
            end
  end.
