(* ===== verification/CoroparseMain.v ===== *)
(** * The callbacks of the configuration parser (exec/coroparse.c)

    [main_config_parser_cb] stores the keys of corosync.conf in the configuration map,
    [uidgid_config_parser_cb] those of the files in uidgid.d.  The callbacks are
    programs of an error monad over the map and the data of the parser; one
    definition per state of the parser.

    Parameters: the map to fill, what knet offers, and the user and group
    databases. *)
From stdpp Require Import pretty.
From S2P Require Import Prelude ErrMonad CString VoteQuorumExec Cpg Icmap Util Coroparse.

Record main_cp_cb_data := mk_cp_data {
  cp_linknumber : Z;
  cp_bindnetaddr : option string;
  cp_mcastaddr : option string;
  cp_broadcast : option string;
  cp_mcastport : Z;
  cp_ttl : Z;
  cp_knet_link_priority : Z;
  cp_knet_ping_interval : Z;
  cp_knet_ping_timeout : Z;
  cp_knet_ping_precision : Z;
  cp_knet_pong_count : Z;
  cp_knet_transport : option string;
  cp_logger_subsys_items : list (string * string);
  cp_subsys : option string;
  cp_logging_daemon_name : option string;
  cp_member_items : list (string * string);
  cp_node_number : Z
}.
#[export] Instance cp_data_eta : Etable main_cp_cb_data := fun d =>
  mk_cp_data (cp_linknumber d) (cp_bindnetaddr d) (cp_mcastaddr d) (cp_broadcast d) (cp_mcastport d) (cp_ttl d)
    (cp_knet_link_priority d) (cp_knet_ping_interval d) (cp_knet_ping_timeout d) (cp_knet_ping_precision d)
    (cp_knet_pong_count d) (cp_knet_transport d) (cp_logger_subsys_items d) (cp_subsys d) (cp_logging_daemon_name d)
    (cp_member_items d) (cp_node_number d).

Definition zero_cp_data : main_cp_cb_data := mk_cp_data 0 None None None 0 0 0 0 0 0 0 None [] None None [] 0.

(** The map, the data and [error_string_response]. *)
Record cp_env (M : Type) := mk_cp_env { cp_map : icmap M; cp_data : main_cp_cb_data; cp_response : string }.
Arguments mk_cp_env {M}.
Arguments cp_map {M}.
Arguments cp_data {M}.
Arguments cp_response {M}.
#[export] Instance cp_env_eta M : Etable (cp_env M) := fun e => mk_cp_env (cp_map e) (cp_data e) (cp_response e).

(** ** The programs of the callbacks *)

Definition act (M A : Type) := prog (cp_env M) A.
Definition get_data {M} : act M main_cp_cb_data := fun e => Some (inr (cp_data e), e).
Definition upd_data {M} (f : main_cp_cb_data -> main_cp_cb_data) : act M unit := fun e => Some (inr tt, e <| cp_data ::= f |>).

Definition path_in (path : string) (l : list string) : bool := existsb (String.eqb path) l.

Section Callbacks.
Context {M : Type} `{QB : qb_map M}.
Context (config_map : Z) (knet : knet_env).
(** [getpwnam_r] and [getgrnam_r]: the error number, or the id when the name is known. *)
Context (getpwnam getgrnam : string -> Z + option Z) (strerror : Z -> string).

(** ** Errors *)

Definition quoted (s : string) : string := String (chr 34) (s +:+ String (chr 34) EmptyString).

Definition icmap_set_error {A} (key_name : string) (cs_err : Z) : act M A :=
  fail (fits 256 ("Can't store key " +:+ quoted key_name +:+ " into icmap, returned error is " +:+ cs_strerror cs_err)).

Definition safe_atoq_error {A} (key_name : string) (t : icmap_value_types_t) (value : string) : act M A :=
  match safe_atoq_range t with
  | Some (min_val, max_val) =>
      fail (fits 256 ("Value of key " +:+ quoted key_name +:+ " is expected to be integer in range (" +:+ pretty min_val
        +:+ ".." +:+ pretty max_val +:+ "), but " +:+ quoted value +:+ " was given"))
  | None => fun _ => None   (* the assertion fails *)
  end.

Definition str_to_ull_error {A} (key_name value : string) : act M A :=
  fail (fits 256 ("Value of key " +:+ quoted key_name +:+ " is expected to be unsigned integer, but " +:+ quoted value +:+ " was given")).

Definition str_to_dscp_error {A} (key_name value : string) : act M A :=
  fail (fits 256 ("Value of key " +:+ quoted key_name +:+ " is expected to be number (0..63) or symbolical dscp value, but "
    +:+ quoted value +:+ " was given")).

(** ** Storing *)

Definition store (key_name : string) (f : icmap M -> option (Z * icmap M)) : act M unit := fun e =>
  '(cs_err, m) ← f (cp_map e);
  let e := e <| cp_map := m |> in
  if cs_err =? CS_OK then Some (inr tt, e) else icmap_set_error key_name cs_err e.

Definition store_int (t : icmap_value_types_t) (key_name : string) (v : Z) : act M unit := store key_name (set_int t config_map key_name v).
Definition store_string (key_name value : string) : act M unit := store key_name (icmap_set_string_r config_map key_name (Some value)).

(** The number of a value; [key_name] is for the error. *)
Definition atoq (t : icmap_value_types_t) (key_name value : string) : act M Z :=
  match safe_atoq value t with Some v => ret v | None => safe_atoq_error key_name t value end.

(** ** Keys of the states.  Each returns whether the value is still to be stored as a
    string. *)

(** The keys in [keys] are integers of type [t]. *)
Definition item_int (t : icmap_value_types_t) (keys : list string) (path value : string) (add : bool) : act M bool :=
  if path_in path keys then v <-! atoq t path value;! store_int t path v;! ret false else ret add.

Definition item_pload (path value : string) : act M bool :=
  item_int ICMAP_VALUETYPE_UINT32 ["pload.count"; "pload.size"]%string path value true.

Definition item_quorum (path value : string) : act M bool :=
  add <-! item_int ICMAP_VALUETYPE_UINT32
    ["quorum.expected_votes"; "quorum.votes"; "quorum.last_man_standing_window"; "quorum.leaving_timeout"]%string path value true;!
  item_int ICMAP_VALUETYPE_UINT8
    ["quorum.two_node"; "quorum.expected_votes_tracking"; "quorum.allow_downscale"; "quorum.wait_for_all";
     "quorum.auto_tie_breaker"; "quorum.last_man_standing"]%string path value add.

Definition item_qdevice (path value : string) : act M bool :=
  add <-! item_int ICMAP_VALUETYPE_UINT32
    ["quorum.device.timeout"; "quorum.device.sync_timeout"; "quorum.device.votes"]%string path value true;!
  item_int ICMAP_VALUETYPE_UINT8 ["quorum.device.master_wins"]%string path value add.

Definition totem_uint32_keys : list string :=
  ["totem.version"; "totem.nodeid"; "totem.threads"; "totem.token"; "totem.token_coefficient"; "totem.token_retransmit";
   "totem.token_warning"; "totem.hold"; "totem.token_retransmits_before_loss_const"; "totem.join"; "totem.send_join";
   "totem.consensus"; "totem.merge"; "totem.downcheck"; "totem.fail_recv_const"; "totem.seqno_unchanged_const";
   "totem.heartbeat_failures_allowed"; "totem.max_network_delay"; "totem.window_size"; "totem.max_messages";
   "totem.miss_count_const"; "totem.knet_pmtud_interval"; "totem.knet_mtu"; "totem.knet_compression_threshold";
   "totem.netmtu"]%string.

Definition of_check (r : string + unit) : act M unit := match r with inl err => fail err | inr _ => ret tt end.

Definition handle_crypto_model (val : string) : act M unit :=
  of_check (util_is_valid_knet_crypto_model knet val "Invalid crypto model. Should be ").
Definition handle_crypto_cipher (val : string) : act M unit :=
  of_check (util_is_valid_knet_crypto_cipher knet val "Invalid cipher type. Should be ").
Definition handle_crypto_hash (val : string) : act M unit :=
  of_check (util_is_valid_knet_crypto_hash knet val "Invalid hash type. Should be ").
Definition handle_compress_model (val : string) : act M unit :=
  of_check (util_is_valid_knet_compress_model knet val "Invalid compression model. Should be ").

(** A key with a fixed set of values. *)
Definition item_enum (key : string) (values : list string) (msg path value : string) : act M unit :=
  when (strcmp_eq path key && negb (path_in value values)) (fail msg).

Definition item_totem (path value : string) : act M bool :=
  add <-! item_int ICMAP_VALUETYPE_UINT32 totem_uint32_keys path value true;!
  add <-! item_int ICMAP_VALUETYPE_INT32 ["totem.knet_compression_level"]%string path value add;!
  add <-! (if strcmp_eq path "totem.config_version"
           then match str_to_ull value with
                | None => str_to_ull_error path value
                | Some ull => store_int ICMAP_VALUETYPE_UINT64 path ull;! ret false
                end
           else ret add);!
  item_enum "totem.ip_version" ["ipv4"; "ipv6"; "ipv6-4"; "ipv4-6"]%string "Invalid ip_version type" path value;!
  when (strcmp_eq path "totem.crypto_model") (handle_crypto_model value);!
  when (strcmp_eq path "totem.crypto_cipher") (handle_crypto_cipher value);!
  when (strcmp_eq path "totem.crypto_hash") (handle_crypto_hash value);!
  when (strcmp_eq path "totem.knet_compression_model") (handle_compress_model value);!
  (if strcmp_eq path "totem.ip_dscp"
   then match get_dscp_value value with
        | None => str_to_dscp_error path value
        | Some dscp => store_int ICMAP_VALUETYPE_UINT8 path dscp;! ret false
        end
   else ret add).

Definition item_system (path value : string) : act M bool :=
  item_enum "system.qb_ipc_type" ["native"; "shm"; "socket"]%string "Invalid system.qb_ipc_type" path value;!
  item_enum "system.sched_rr" ["yes"; "no"]%string "Invalid system.sched_rr value" path value;!
  item_enum "system.move_to_root_cgroup" ["yes"; "no"; "auto"]%string "Invalid system.move_to_root_cgroup" path value;!
  item_enum "system.allow_knet_handle_fallback" ["yes"; "no"]%string "Invalid system.allow_knet_handle_fallback" path value;!
  ret true.

(** A key of an interface is kept in the data; [int] fields take [s32] of the value. *)
Definition keep_int (key : string) (t : icmap_value_types_t) (f : Z -> main_cp_cb_data -> main_cp_cb_data) (path value : string)
    (add : bool) : act M bool :=
  if strcmp_eq path key then v <-! atoq t path value;! upd_data (f (s32 v));! ret false else ret add.
Definition keep_string (key : string) (f : string -> main_cp_cb_data -> main_cp_cb_data) (path value : string) (add : bool) : act M bool :=
  if strcmp_eq path key then upd_data (f value);! ret false else ret add.

Definition item_interface (path value : string) : act M bool :=
  add <-! keep_int "totem.interface.linknumber" ICMAP_VALUETYPE_UINT8 (fun v d => d <| cp_linknumber := v |>) path value true;!
  add <-! keep_string "totem.interface.bindnetaddr" (fun v d => d <| cp_bindnetaddr := Some v |>) path value add;!
  add <-! keep_string "totem.interface.mcastaddr" (fun v d => d <| cp_mcastaddr := Some v |>) path value add;!
  add <-! keep_string "totem.interface.broadcast" (fun v d => d <| cp_broadcast := Some v |>) path value add;!
  add <-! keep_int "totem.interface.mcastport" ICMAP_VALUETYPE_UINT16 (fun v d => d <| cp_mcastport := v |>) path value add;!
  add <-! keep_int "totem.interface.ttl" ICMAP_VALUETYPE_UINT8 (fun v d => d <| cp_ttl := v |>) path value add;!
  add <-! keep_int "totem.interface.knet_link_priority" ICMAP_VALUETYPE_UINT8 (fun v d => d <| cp_knet_link_priority := v |>) path value add;!
  add <-! keep_int "totem.interface.knet_ping_interval" ICMAP_VALUETYPE_UINT32 (fun v d => d <| cp_knet_ping_interval := v |>) path value add;!
  add <-! keep_int "totem.interface.knet_ping_timeout" ICMAP_VALUETYPE_UINT32 (fun v d => d <| cp_knet_ping_timeout := v |>) path value add;!
  add <-! keep_int "totem.interface.knet_ping_precision" ICMAP_VALUETYPE_UINT32 (fun v d => d <| cp_knet_ping_precision := v |>) path value add;!
  add <-! keep_int "totem.interface.knet_pong_count" ICMAP_VALUETYPE_UINT32 (fun v d => d <| cp_knet_pong_count := v |>) path value add;!
  keep_string "totem.interface.knet_transport" (fun v d => d <| cp_knet_transport := Some v |>) path value add.

(** The path without the prefix. *)
Definition below (prefix path msg : string) : act M string :=
  if (strlen path <? strlen prefix) || negb (strncmp_eq (length (chars prefix)) path prefix) then fail msg
  else ret (str (drop (length (chars prefix)) (chars path))).

Definition item_logger_subsys (path value : string) : act M bool :=
  if strcmp_eq path "logging.logger_subsys.subsys" then upd_data (fun d => d <| cp_subsys := Some value |>);! ret false
  else
    key <-! below "logging.logger_subsys." path "Internal error - incorrect path prefix for logger subsys state";!
    upd_data (fun d => d <| cp_logger_subsys_items ::= cons (key, value) |>);! ret false.

Definition item_logging_daemon (path value : string) : act M bool :=
  if strcmp_eq path "logging.logging_daemon.subsys" then upd_data (fun d => d <| cp_subsys := Some value |>);! ret false
  else if strcmp_eq path "logging.logging_daemon.name" then upd_data (fun d => d <| cp_logging_daemon_name := Some value |>);! ret false
  else
    key <-! below "logging.logging_daemon." path "Internal error - incorrect path prefix for logging daemon state";!
    upd_data (fun d => d <| cp_logger_subsys_items ::= cons (key, value) |>);! ret false.

(** ** Users and groups *)

(** [strtol] reads the whole string, a number that fits an [unsigned int]. *)
Definition numeric_id (req : string) : option Z :=
  let '(id, ep) := strtol (chars req) in
  match chars req, ep with
  | _ :: _, [] => if (0 <=? id) && (id <=? 2 ^ 32 - 1) then Some (s32 id) else None
  | _, _ => None
  end.

(** [sprintf] into [error_string_response], which has 512 bytes. *)
Definition response (msg : string) : act M Z := fun e =>
  if Nat.ltb (length (chars msg)) 512 then Some (inr (-1), e <| cp_response := msg |>) else None.

Definition determine (lookup : string -> Z + option Z) (call what file req : string) : act M Z :=
  match numeric_id req with
  | Some id => ret id
  | None =>
      match lookup req with
      | inl rc => response (call +:+ "(): " +:+ strerror rc)
      | inr None => response ("The '" +:+ req +:+ "' " +:+ what +:+ " is not found in " +:+ file +:+ ", please read the documentation.")
      | inr (Some id) => ret (s32 id)
      end
  end.

Definition uid_determine (req_user : string) : act M Z := determine getpwnam "getpwnam_r" "user" "/etc/passwd" req_user.
Definition gid_determine (req_group : string) : act M Z := determine getgrnam "getgrnam_r" "group" "/etc/group" req_group.

Definition fail_response {A} : act M A := fun e => Some (inl (cp_response e), e).

(** [%u] of an [int]; the key is cut to the array. *)
Definition store_id (prefix : string) (id : Z) : act M unit :=
  if id =? -1 then fail_response
  else let key_name := snprintf ICMAP_KEYNAME_MAXLEN (prefix +:+ pretty (u32 id)) in store_int ICMAP_VALUETYPE_UINT8 key_name 1.

Definition item_uidgid (path value : string) : act M bool :=
  if strcmp_eq path "uidgid.uid" then uid <-! uid_determine value;! store_id "uidgid.config.uid." uid;! ret false
  else if strcmp_eq path "uidgid.gid" then gid <-! gid_determine value;! store_id "uidgid.config.gid." gid;! ret false
  else fail "uidgid: Only uid and gid are allowed items".

(** ** The other states *)

Definition item_member (path key value : string) : act M bool :=
  if negb (strcmp_eq path "totem.interface.member.memberaddr") then fail "Only memberaddr is allowed in member section"
  else upd_data (fun d => d <| cp_member_items ::= cons (key, value) |>);! ret false.

Definition item_nodelist_node (path value : string) : act M bool :=
  key <-! below "nodelist.node." path "Internal error - incorrect path prefix for nodelist node state";!
  d <-! get_data;!
  let key_name := snprintf ICMAP_KEYNAME_MAXLEN ("nodelist.node." +:+ pretty (u32 (cp_node_number d)) +:+ "." +:+ key) in
  if path_in path ["nodelist.node.nodeid"; "nodelist.node.quorum_votes"]%string
  then v <-! atoq ICMAP_VALUETYPE_UINT32 key_name value;! store_int ICMAP_VALUETYPE_UINT32 key_name v;! ret false
  else store_string key_name value;! ret false.

Definition item_resources (path key value : string) : act M bool :=
  if strcmp_eq key "watchdog_timeout"
  then v <-! atoq ICMAP_VALUETYPE_UINT32 path value;! store_int ICMAP_VALUETYPE_UINT32 path v;! ret false
  else ret true.

Definition item_poll_period (path key value : string) : act M bool :=
  if strcmp_eq key "poll_period"
  then match str_to_ull value with
       | None => str_to_ull_error path value
       | Some ull => store_int ICMAP_VALUETYPE_UINT64 path ull;! ret false
       end
  else ret true.

Definition config_item (state : main_cp_cb_data_state) (path key value : string) : act M unit :=
  add <-! match state with
          | MAIN_CP_CB_DATA_STATE_NORMAL | MAIN_CP_CB_DATA_STATE_NODELIST => ret true
          | MAIN_CP_CB_DATA_STATE_PLOAD => item_pload path value
          | MAIN_CP_CB_DATA_STATE_QUORUM => item_quorum path value
          | MAIN_CP_CB_DATA_STATE_QDEVICE => item_qdevice path value
          | MAIN_CP_CB_DATA_STATE_TOTEM => item_totem path value
          | MAIN_CP_CB_DATA_STATE_SYSTEM => item_system path value
          | MAIN_CP_CB_DATA_STATE_INTERFACE => item_interface path value
          | MAIN_CP_CB_DATA_STATE_LOGGER_SUBSYS => item_logger_subsys path value
          | MAIN_CP_CB_DATA_STATE_LOGGING_DAEMON => item_logging_daemon path value
          | MAIN_CP_CB_DATA_STATE_UIDGID => item_uidgid path value
          | MAIN_CP_CB_DATA_STATE_MEMBER => item_member path key value
          | MAIN_CP_CB_DATA_STATE_NODELIST_NODE => item_nodelist_node path value
          | MAIN_CP_CB_DATA_STATE_RESOURCES => item_resources path key value
          | MAIN_CP_CB_DATA_STATE_RESOURCES_SYSTEM | MAIN_CP_CB_DATA_STATE_RESOURCES_SYSTEM_MEMUSED
          | MAIN_CP_CB_DATA_STATE_RESOURCES_PROCESS | MAIN_CP_CB_DATA_STATE_RESOURCES_PROCESS_MEMUSED => item_poll_period path key value
          end;!
  when add (store_string path value).

(** ** Beginning of a section *)

Definition section_states : list (string * main_cp_cb_data_state) :=
  [("totem.interface", MAIN_CP_CB_DATA_STATE_INTERFACE); ("totem", MAIN_CP_CB_DATA_STATE_TOTEM); ("system", MAIN_CP_CB_DATA_STATE_SYSTEM);
   ("logging.logger_subsys", MAIN_CP_CB_DATA_STATE_LOGGER_SUBSYS); ("logging.logging_daemon", MAIN_CP_CB_DATA_STATE_LOGGING_DAEMON);
   ("uidgid", MAIN_CP_CB_DATA_STATE_UIDGID); ("totem.interface.member", MAIN_CP_CB_DATA_STATE_MEMBER);
   ("quorum", MAIN_CP_CB_DATA_STATE_QUORUM); ("quorum.device", MAIN_CP_CB_DATA_STATE_QDEVICE);
   ("nodelist", MAIN_CP_CB_DATA_STATE_NODELIST); ("nodelist.node", MAIN_CP_CB_DATA_STATE_NODELIST_NODE);
   ("resources", MAIN_CP_CB_DATA_STATE_RESOURCES); ("resources.system", MAIN_CP_CB_DATA_STATE_RESOURCES_SYSTEM);
   ("resources.system.memory_used", MAIN_CP_CB_DATA_STATE_RESOURCES_SYSTEM_MEMUSED);
   ("resources.process", MAIN_CP_CB_DATA_STATE_RESOURCES_PROCESS);
   ("resources.process.memory_used", MAIN_CP_CB_DATA_STATE_RESOURCES_PROCESS_MEMUSED)]%string.

Definition section_state (path : string) (state : main_cp_cb_data_state) : main_cp_cb_data_state :=
  match list_find (fun x => fst x = path) section_states with Some (_, (_, st)) => st | None => state end.

(** The fields that a section resets. *)
Definition section_reset (path : string) (d : main_cp_cb_data) : main_cp_cb_data :=
  if strcmp_eq path "totem.interface" then
    d <| cp_linknumber := 0 |> <| cp_mcastport := -1 |> <| cp_ttl := -1 |> <| cp_knet_link_priority := -1 |>
      <| cp_knet_ping_interval := -1 |> <| cp_knet_ping_timeout := -1 |> <| cp_knet_ping_precision := -1 |>
      <| cp_knet_pong_count := -1 |> <| cp_knet_transport := None |> <| cp_member_items := [] |>
  else if strcmp_eq path "logging.logger_subsys" then d <| cp_logger_subsys_items := [] |> <| cp_subsys := None |>
  else if strcmp_eq path "logging.logging_daemon" then
    d <| cp_logger_subsys_items := [] |> <| cp_subsys := None |> <| cp_logging_daemon_name := None |>
  else if strcmp_eq path "nodelist" then d <| cp_node_number := 0 |>
  else d.

Definition config_section_start (path : string) (state : main_cp_cb_data_state) : act M main_cp_cb_data_state :=
  let state := section_state path state in
  upd_data (section_reset path);!
  if bool_decide (state = MAIN_CP_CB_DATA_STATE_UIDGID) && negb (strcmp_eq path "uidgid")
  then fail "Subsections are not allowed within uidgid section"
  else if bool_decide (state = MAIN_CP_CB_DATA_STATE_MEMBER) && negb (strcmp_eq path "totem.interface.member")
  then fail "Subsections are not allowed within totem.interface.member section"
  else ret state.

(** ** End of a section *)

Definition if_key (linknumber : Z) (name : string) : string :=
  snprintf ICMAP_KEYNAME_MAXLEN ("totem.interface." +:+ pretty (u32 linknumber) +:+ "." +:+ name).

(** A string is released, stored or not. *)
Definition if_string (name : string) (v : option string) (clear : main_cp_cb_data -> main_cp_cb_data) : act M unit :=
  match v with
  | None => ret tt
  | Some v => d <-! get_data;! upd_data clear;! store_string (if_key (cp_linknumber d) name) v
  end.
Definition if_int (name : string) (t : icmap_value_types_t) (v : Z) : act M unit :=
  when (-1 <? v) (d <-! get_data;! store_int t (if_key (cp_linknumber d) name) v).

(** The members are stored in the order of the list, which is the reverse of the file. *)
Fixpoint if_members (ii : Z) (l : list (string * string)) : act M unit :=
  match l with
  | [] => ret tt
  | (_, v) :: l =>
      upd_data (fun d => d <| cp_member_items := l |>);! d <-! get_data;!
      store_string (if_key (cp_linknumber d) ("member." +:+ pretty ii)) v;! if_members (ii + 1) l
  end.

Definition end_interface (path : string) : act M unit :=
  if negb (strcmp_eq path "totem.interface") then ret tt
  else
    d <-! get_data;!
    if_string "bindnetaddr" (cp_bindnetaddr d) (fun d => d <| cp_bindnetaddr := None |>);!
    if_string "mcastaddr" (cp_mcastaddr d) (fun d => d <| cp_mcastaddr := None |>);!
    if_string "broadcast" (cp_broadcast d) (fun d => d <| cp_broadcast := None |>);!
    if_int "mcastport" ICMAP_VALUETYPE_UINT16 (cp_mcastport d);!
    if_int "ttl" ICMAP_VALUETYPE_UINT8 (cp_ttl d);!
    if_int "knet_link_priority" ICMAP_VALUETYPE_UINT8 (cp_knet_link_priority d);!
    if_int "knet_ping_interval" ICMAP_VALUETYPE_UINT32 (cp_knet_ping_interval d);!
    if_int "knet_ping_timeout" ICMAP_VALUETYPE_UINT32 (cp_knet_ping_timeout d);!
    if_int "knet_ping_precision" ICMAP_VALUETYPE_UINT32 (cp_knet_ping_precision d);!
    if_int "knet_pong_count" ICMAP_VALUETYPE_UINT32 (cp_knet_pong_count d);!
    if_string "knet_transport" (cp_knet_transport d) (fun d => d <| cp_knet_transport := None |>);!
    if_members 0 (cp_member_items d).

(** The items of a logging section, each under the key that [name] gives it. *)
Fixpoint log_items (name : string -> string) (l : list (string * string)) : act M unit :=
  match l with
  | [] => ret tt
  | (k, v) :: l =>
      upd_data (fun d => d <| cp_logger_subsys_items := l |>);!
      store_string (snprintf ICMAP_KEYNAME_MAXLEN (name k)) v;! log_items name l
  end.

(** [store_string] whose result is looked at after the data is reset. *)
Definition store_then (key_name value : string) (reset : main_cp_cb_data -> main_cp_cb_data) : act M unit := fun e =>
  '(cs_err, m) ← icmap_set_string_r config_map key_name (Some value) (cp_map e);
  let e := e <| cp_map := m |> <| cp_data ::= reset |> in
  if cs_err =? CS_OK then Some (inr tt, e) else icmap_set_error key_name cs_err e.

Definition end_logger_subsys (path : string) : act M unit :=
  if negb (strcmp_eq path "logging.logger_subsys") then ret tt
  else
    d <-! get_data;!
    match cp_subsys d with
    | None => fail "No subsys key in logger_subsys directive"
    | Some subsys =>
        log_items (fun k => "logging.logger_subsys." +:+ subsys +:+ "." +:+ k) (cp_logger_subsys_items d);!
        store_then (snprintf ICMAP_KEYNAME_MAXLEN ("logging.logger_subsys." +:+ subsys +:+ ".subsys")) subsys
          (fun d => d <| cp_subsys := None |> <| cp_logger_subsys_items := [] |>)
    end.

Definition daemon_key (name : string) (subsys : option string) (k : string) : string :=
  match subsys with
  | None => if strcmp_eq name "corosync" then "logging." +:+ k else "logging.logging_daemon." +:+ name +:+ "." +:+ k
  | Some sub => if strcmp_eq name "corosync" then "logging.logger_subsys." +:+ sub +:+ "." +:+ k
                else "logging.logging_daemon." +:+ name +:+ "." +:+ sub +:+ "." +:+ k
  end.

Definition end_logging_daemon (path : string) : act M unit :=
  if negb (strcmp_eq path "logging.logging_daemon") then ret tt
  else
    d <-! get_data;!
    match cp_logging_daemon_name d with
    | None => fail "No name key in logging_daemon directive"
    | Some name =>
        let reset d := d <| cp_subsys := None |> <| cp_logger_subsys_items := [] |> <| cp_logging_daemon_name := None |> in
        log_items (daemon_key name (cp_subsys d)) (cp_logger_subsys_items d);!
        match cp_subsys d with
        | None =>
            if strcmp_eq name "corosync" then upd_data reset
            else store_then (snprintf ICMAP_KEYNAME_MAXLEN ("logging.logging_daemon." +:+ name +:+ ".name")) name reset
        | Some sub =>
            if strcmp_eq name "corosync"
            then store_then (snprintf ICMAP_KEYNAME_MAXLEN ("logging.logger_subsys." +:+ sub +:+ ".subsys")) sub reset
            else
              store_string (snprintf ICMAP_KEYNAME_MAXLEN ("logging.logging_daemon." +:+ name +:+ "." +:+ sub +:+ ".subsys")) sub;!
              store_then (snprintf ICMAP_KEYNAME_MAXLEN ("logging.logging_daemon." +:+ name +:+ "." +:+ sub +:+ ".name")) name reset
        end
    end.

Definition config_section_end (state : main_cp_cb_data_state) (path : string) : act M unit :=
  match state with
  | MAIN_CP_CB_DATA_STATE_INTERFACE => end_interface path
  | MAIN_CP_CB_DATA_STATE_LOGGER_SUBSYS => end_logger_subsys path
  | MAIN_CP_CB_DATA_STATE_LOGGING_DAEMON => end_logging_daemon path
  | MAIN_CP_CB_DATA_STATE_NODELIST_NODE =>
      when (strcmp_eq path "nodelist.node") (upd_data (fun d => d <| cp_node_number ::= fun n => s32 (n + 1) |>))
  | _ => ret tt
  end.

(** ** The callbacks *)

Definition of_act {A} (m : act M A) (ok : A -> main_cp_cb_data_state) (state : main_cp_cb_data_state) (e : cp_env M)
    : option (cb_result * cp_env M) :=
  '(r, e) ← m e;
  Some (match r with inl msg => mk_cb_result false state msg | inr a => mk_cb_result true (ok a) "" end, e).

Definition main_config_parser_cb : parser_cb (cp_env M) := fun path key value state type e =>
  if Nat.leb (S ICMAP_KEYNAME_MAXLEN) (length (chars path))
  then Some (mk_cb_result false state "main_config_parser_cb path is longer than key_name", e)
  else match type with
       | PARSER_CB_START => of_act (upd_data (fun _ => zero_cp_data)) (fun _ => MAIN_CP_CB_DATA_STATE_NORMAL) state e
       | PARSER_CB_END | PARSER_CB_CLEANUP => Some (mk_cb_result true state "", e)
       | PARSER_CB_ITEM => of_act (config_item state path key value) (fun _ => state) state e
       | PARSER_CB_SECTION_START => of_act (config_section_start path state) id (section_state path state) e
       | PARSER_CB_SECTION_END => of_act (config_section_end state path) (fun _ => state) state e
       end.

Definition uidgid_config_parser_cb : parser_cb (cp_env M) := fun path key value state type e =>
  match type with
  | PARSER_CB_START | PARSER_CB_END | PARSER_CB_CLEANUP | PARSER_CB_SECTION_END => Some (mk_cb_result true state "", e)
  | PARSER_CB_ITEM => of_act (item_uidgid path value) (fun _ => state) state e
  | PARSER_CB_SECTION_START =>
      Some (if strcmp_eq path "uidgid" then mk_cb_result true state ""
            else mk_cb_result false state "uidgid: Can't add subsection different than uidgid", e)
  end.

(** ** Files *)

(** An entry of uidgid.d: its name, the result of [stat], whether it is a regular file, and
    its contents when it can be opened. *)
Record dir_entry := mk_dir_entry { de_name : string; de_stat : Z; de_regular : bool; de_file : option (list ascii) }.

(** [res]: what [stat] or the parser returned last.  The error is only set by the parser. *)
Fixpoint read_uidgid_entries (dirname : string) (l : list dir_entry) (res : Z) (err : option string) (e : cp_env M)
    : option (Z * option string * cp_env M) :=
  match l with
  | [] => Some (res, err, e)
  | de :: l =>
      let filename := dirname +:+ "/" +:+ de_name de in
      if (de_stat de =? 0) && de_regular de then
        match de_file de with
        | None => read_uidgid_entries dirname l 0 err e
        | Some file =>
            '(r, p) ← parse_section uidgid_config_parser_cb filename file MAIN_CP_CB_DATA_STATE_NORMAL e;
            match r with
            | Some msg => Some (-1, Some msg, p_data p)
            | None => read_uidgid_entries dirname l 0 err (p_data p)
            end
        end
      else read_uidgid_entries dirname l (de_stat de) err e
  end.

(** [entries]: [None] when the directory cannot be opened. *)
Definition read_uidgid_files_into_icmap (dirname : string) (entries : option (list dir_entry)) (err : option string) (e : cp_env M)
    : option (Z * option string * cp_env M) :=
  match entries with None => Some (0, err, e) | Some l => read_uidgid_entries dirname l 0 err e end.

(** [file]: the contents of corosync.conf, or the error of [fopen]. *)
Definition read_config_file_into_icmap (filename dirname : string) (file : Z + list ascii) (entries : option (list dir_entry))
    (e : cp_env M) : option (Z * option string * cp_env M) :=
  match file with
  | inl err =>
      let msg := snprintf 512 ("Can't read file " +:+ filename +:+ ": " +:+ strerror err) in
      Some (-1, Some msg, e <| cp_response := msg |>)
  | inr file =>
      '(r, p) ← parse_section main_config_parser_cb filename file MAIN_CP_CB_DATA_STATE_NORMAL e;
      match r with
      | Some msg => Some (-1, Some msg, p_data p)
      | None =>
          '(res, err, e) ← read_uidgid_files_into_icmap dirname entries None (p_data p);
          if res =? 0 then
            let msg := snprintf 512 ("Successfully read main configuration file '" +:+ filename +:+ "'.") in
            Some (0, Some msg, e <| cp_response := msg |>)
          else Some (res, err, e)
      end
  end.

Definition coroparse_configparse (filename dirname : string) (file : Z + list ascii) (entries : option (list dir_entry)) (e : cp_env M)
    : option (Z * option string * cp_env M) :=
  '(res, err, e) ← read_config_file_into_icmap filename dirname file entries e;
  Some (if c_true res then -1 else 0, err, e).

End Callbacks.
