(* ===== verification/CoroparseTheory.v ===== *)
(** * The configuration parser: lines, fuel, and what a printed file parses to *)
From stdpp Require Import pretty.
From S2P Require Import Prelude ErrMonad CString VoteQuorumExec Cpg Icmap Util Coroparse.

(** ** Reading a line *)

Lemma fgets_rest n l : (length (snd (fst (fgets n l))) <= length l)%nat.
Proof.
  revert l. induction n as [|n IH]; intros [|c l]; cbn; try lia. destruct (is_code 10 c); cbn; [lia|].
  specialize (IH l). destruct (fgets n l) as [[line rest] eof]. cbn in *. lia.
Qed.

Lemma fgets_shorter n c l : (length (snd (fst (fgets (S n) (c :: l)))) < length (c :: l))%nat.
Proof.
  cbn. destruct (is_code 10 c); cbn; [lia|]. pose proof (fgets_rest n l). destruct (fgets n l) as [[line rest] eof]. cbn in *. lia.
Qed.

Lemma fgets_line n l rest : (length l < n)%nat -> forallb (fun c => negb (is_code 10 c)) l = true ->
  fgets n (l ++ chr 10 :: rest) = (l ++ [chr 10], rest, false).
Proof.
  revert n. induction l as [|c l IH]; intros [|n] Hn H; cbn in *; try lia; [reflexivity|].
  apply andb_true_iff in H as [Hc H]. apply negb_true_iff in Hc. rewrite Hc, IH by (exact H || lia). reflexivity.
Qed.

(** ** Fuel *)

Section Fuel.
Context {D : Type} (cb : parser_cb D) (fname : string).

Lemma parse_error_file st msg p r p' : parse_error cb fname st msg p = Some (r, p') -> p_file p' = p_file p.
Proof. intros ([r' d] & _ & [= _ <-])%bind_Some. reflexivity. Qed.

Lemma parse_lines_S fuel path depth st c file n d :
  parse_lines cb fname (S fuel) path depth st (mk_parser (c :: file) n d) =
  let '(raw, rest, eof) := fgets 511 (c :: file) in
  let p := mk_parser rest (u32 (n + 1)) d in
  if negb (ends_with 10 raw) && negb eof then parse_error cb fname st "Line too long" p
  else match classify path (line_text raw) with
       | LineIgnored => parse_lines cb fname fuel path depth st p
       | LineError msg => parse_error cb fname st msg p
       | LineSection section =>
           '(r, d) ← cb (join_path path section) ""%string ""%string st PARSER_CB_SECTION_START d;
           if negb (cb_ok r) then parse_error cb fname st (cb_error r) (mk_parser rest (u32 (n + 1)) d)
           else '(res, p) ← parse_lines cb fname fuel (join_path path section) (S depth) (cb_state r) (mk_parser rest (u32 (n + 1)) d);
                match res with Some err => Some (Some err, p) | None => parse_lines cb fname fuel path depth st p end
       | LineItem key value =>
           '(r, d) ← cb (join_path path key) key value st PARSER_CB_ITEM d;
           if negb (cb_ok r) then parse_error cb fname (cb_state r) (cb_error r) (mk_parser rest (u32 (n + 1)) d)
           else parse_lines cb fname fuel path depth (cb_state r) (mk_parser rest (u32 (n + 1)) d)
       | LineClose =>
           if Nat.eqb depth 0 then parse_error cb fname st "Unexpected closing brace" p
           else '(r, d) ← cb path ""%string ""%string st PARSER_CB_SECTION_END d;
                if negb (cb_ok r) then parse_error cb fname (cb_state r) (cb_error r) (mk_parser rest (u32 (n + 1)) d)
                else Some (None, mk_parser rest (u32 (n + 1)) d)
       end.
Proof. reflexivity. Qed.

(** The rest of the file is never longer. *)
Lemma parse_lines_shorter fuel path depth st p r p' :
  parse_lines cb fname fuel path depth st p = Some (r, p') -> (length (p_file p') <= length (p_file p))%nat.
Proof.
  revert path depth st p r p'. induction fuel as [|fuel IH]; intros path depth st [[|c file] n d] r p' E; [discriminate.. | |].
  - cbn in E. destruct (negb _); [now rewrite (parse_error_file _ _ _ _ _ E)|].
    apply bind_Some in E as ([r1 d1] & _ & E). apply bind_Some in E as ([r2 d2] & _ & [= _ <-]). reflexivity.
  - rewrite parse_lines_S in E. pose proof (fgets_rest 511 (c :: file)) as Hr. destruct (fgets 511 (c :: file)) as [[raw rest] eof]. cbn [fst snd] in Hr.
    change (p_file (mk_parser (c :: file) n d)) with (c :: file).
    assert (PE : forall st msg m d r p', parse_error cb fname st msg (mk_parser rest m d) = Some (r, p') -> (length (p_file p') <= length (c :: file))%nat).
    { intros ? ? ? ? ? ? E'. rewrite (parse_error_file _ _ _ _ _ E'). exact Hr. }
    assert (PL : forall path depth st m d r p', parse_lines cb fname fuel path depth st (mk_parser rest m d) = Some (r, p') -> (length (p_file p') <= length (c :: file))%nat).
    { intros ? ? ? ? ? ? ? E'. apply IH in E'. cbn [p_file] in E'. lia. }
    destruct (negb _ && negb _); [exact (PE _ _ _ _ _ _ E)|].
    destruct (classify path (line_text raw)) as [|msg|name|key value|].
    + exact (PL _ _ _ _ _ _ _ E).
    + exact (PE _ _ _ _ _ _ E).
    + apply bind_Some in E as ([r1 d1] & _ & E). destruct (negb (cb_ok r1)); [exact (PE _ _ _ _ _ _ E)|].
      apply bind_Some in E as ([[err|] p1] & E1 & E); [injection E as _ <-; exact (PL _ _ _ _ _ _ _ E1)|].
      apply PL in E1. apply IH in E. lia.
    + apply bind_Some in E as ([r1 d1] & _ & E). destruct (negb (cb_ok r1)); [exact (PE _ _ _ _ _ _ E) | exact (PL _ _ _ _ _ _ _ E)].
    + destruct (Nat.eqb depth 0); [exact (PE _ _ _ _ _ _ E)|]. apply bind_Some in E as ([r1 d1] & _ & E).
      destruct (negb (cb_ok r1)); [exact (PE _ _ _ _ _ _ E)|]. injection E as _ <-. exact Hr.
Qed.

(** More fuel than characters makes no difference. *)
Lemma parse_lines_fuel f1 f2 path depth st p : (length (p_file p) < f1)%nat -> (length (p_file p) < f2)%nat ->
  parse_lines cb fname f1 path depth st p = parse_lines cb fname f2 path depth st p.
Proof.
  revert f2 path depth st p. induction f1 as [|f1 IH]; intros [|f2] path depth st [[|c file] n d] H1 H2; try (cbn in *; lia); [reflexivity|].
  rewrite !parse_lines_S. pose proof (fgets_shorter 510 c file) as Hr. destruct (fgets 511 (c :: file)) as [[raw rest] eof]. cbn [fst snd p_file] in *.
  assert (R : (length rest < f1 /\ length rest < f2)%nat) by lia. destruct R as [R1 R2].
  assert (K : forall path depth st m d, parse_lines cb fname f1 path depth st (mk_parser rest m d) = parse_lines cb fname f2 path depth st (mk_parser rest m d))
    by (intros; now apply IH).
  destruct (negb _ && negb _); [reflexivity|]. destruct (classify path (line_text raw)) as [|msg|name|key value|]; try reflexivity; [apply K | |].
  - destruct (cb _ _ _ _ _ d) as [[r d1]|]; [|reflexivity]. cbn [mbind option_bind]. destruct (negb (cb_ok r)); [reflexivity|]. rewrite K.
    destruct (parse_lines cb fname f2 _ _ _ _) as [[[err|] p1]|] eqn:E; [reflexivity | | reflexivity]. cbn [mbind option_bind].
    apply parse_lines_shorter in E. cbn [p_file] in E. apply IH; lia.
  - destruct (cb _ _ _ _ _ d) as [[r d1]|]; [|reflexivity]. cbn [mbind option_bind]. destruct (negb (cb_ok r)); [reflexivity | apply K].
Qed.

(** With that much fuel the parser only stops where a callback does. *)
Lemma parse_lines_total : (forall path key value st type d, is_Some (cb path key value st type d)) ->
  forall fuel path depth st p, (length (p_file p) < fuel)%nat -> is_Some (parse_lines cb fname fuel path depth st p).
Proof.
  intros T. assert (PE : forall st msg p, is_Some (parse_error cb fname st msg p)).
  { intros st msg p. unfold parse_error. destruct (T "" "" "" st PARSER_CB_CLEANUP (p_data p))%string as [[r d] ->]. now eexists. }
  intros fuel. induction fuel as [|fuel IH]; intros path depth st [[|c file] n d] H; try (cbn in *; lia).
  - cbn [parse_lines p_file p_data p_line_no]. destruct (negb _); [apply PE|]. destruct (T "" "" "" st PARSER_CB_END d)%string as [[r d1] ->]. cbn [mbind option_bind].
    destruct (T "" "" "" (cb_state r) PARSER_CB_CLEANUP d1)%string as [[r2 d2] ->]. now eexists.
  - rewrite parse_lines_S. pose proof (fgets_shorter 510 c file) as Hr. destruct (fgets 511 (c :: file)) as [[raw rest] eof]. cbn [fst snd p_file] in *.
    destruct (negb _ && negb _); [apply PE|]. destruct (classify path (line_text raw)) as [|msg|name|key value|].
    + apply IH. cbn. lia.
    + apply PE.
    + destruct (T (join_path path name) "" "" st PARSER_CB_SECTION_START d)%string as [[r d1] ->]. cbn [mbind option_bind].
      destruct (negb (cb_ok r)); [apply PE|]. destruct (IH (join_path path name) (S depth) (cb_state r) (mk_parser rest (u32 (n + 1)) d1)) as [[[err|] p1] E]; [cbn; lia | |];
        rewrite E; cbn [mbind option_bind]; [now eexists|]. apply parse_lines_shorter in E. cbn [p_file] in E. apply IH. lia.
    + destruct (T (join_path path key) key value st PARSER_CB_ITEM d) as [[r d1] ->]. cbn [mbind option_bind].
      destruct (negb (cb_ok r)); [apply PE | apply IH; cbn; lia].
    + destruct (Nat.eqb depth 0); [apply PE|]. destruct (T path "" "" st PARSER_CB_SECTION_END d)%string as [[r d1] ->]. cbn [mbind option_bind].
      destruct (negb (cb_ok r)); [apply PE | now eexists].
Qed.

End Fuel.

(** ** Blanks *)

Lemma code_chr n : 0 <= n < 256 -> code (chr n) = n.
Proof. intros H. unfold code, chr. rewrite N_ascii_embedding by lia. lia. Qed.

Lemma is_code_spec n c : is_code n c = true <-> code c = n.
Proof. apply Z.eqb_eq. Qed.

Lemma strip_end_app p l k : k <> [] -> strip_end p k = k -> strip_end p (l ++ k) = l ++ k.
Proof.
  intros Hk E. induction l as [|c l IH]; [exact E|]. cbn. rewrite IH. now destruct l, k.
Qed.

Lemma strip_end_all p l k : forallb p k = true -> strip_end p (l ++ k) = strip_end p l.
Proof.
  intros H. assert (E : strip_end p k = []).
  { induction k as [|c k IH]; [reflexivity|]. cbn in *. apply andb_true_iff in H as [Hc H]. now rewrite IH, Hc. }
  induction l as [|c l IH]; [exact E|]. cbn. now rewrite IH.
Qed.

Lemma strip_end_last p l : match last l with Some c => p c = false | None => True end -> strip_end p l = l.
Proof.
  induction l as [|c l IH]; intros H; [reflexivity|]. cbn. destruct l as [|c' l].
  - cbn in *. now rewrite H.
  - rewrite IH by exact H. reflexivity.
Qed.

Lemma skip_blank_first l : match head l with Some c => is_blank c = false | None => True end -> skip_blank l = l.
Proof. destruct l as [|c l]; cbn; [reflexivity|]. now intros ->. Qed.

Lemma remove_whitespace_word l k b : l <> [] -> (match head l with Some c => is_blank c = false | None => True end) ->
  let p := fun c => is_blank c || b && (is_code 58 c || is_code 123 c) in
  (forall c, last l = Some c -> p c = false) -> forallb p k = true -> remove_whitespace (l ++ k) b = l.
Proof.
  intros Hn Hh p Hl Hk. unfold remove_whitespace. fold p. destruct l as [|c l]; [easy|]. rewrite skip_blank_first by exact Hh.
  cbn. f_equal. rewrite strip_end_all by exact Hk. apply strip_end_last. destruct l as [|c' l]; [exact I|].
  destruct (last (c' :: l)) as [x|] eqn:E; [|exact I]. apply Hl. cbn. cbn in E. now rewrite E.
Qed.

Lemma strchr_none byte l : forallb (fun c => negb (is_code byte c)) l = true -> strchr byte l = None.
Proof. induction l as [|c l IH]; cbn; [easy|]. intros [Hc H]%andb_true_iff. apply negb_true_iff in Hc. now rewrite Hc, IH. Qed.

Lemma strchr_app byte l c post : forallb (fun c => negb (is_code byte c)) l = true -> is_code byte c = true ->
  strchr byte (l ++ c :: post) = Some (l, post).
Proof.
  intros H Hc. induction l as [|x l IH]; cbn; [now rewrite Hc|]. cbn in H. apply andb_true_iff in H as [Hx H]. apply negb_true_iff in Hx.
  now rewrite Hx, IH.
Qed.

Lemma strchr_rs_none byte l : forallb (fun c => negb (is_code byte c)) l = true -> strchr_rs byte l = None.
Proof. intros H. unfold strchr_rs. now rewrite strchr_none. Qed.

Lemma chr_of byte c : 0 <= byte < 256 -> is_code byte c = true -> chr byte = c.
Proof. intros Hb <-%is_code_spec. unfold chr, code. now rewrite N2Z.id, ascii_N_embedding. Qed.

(** ** Lines that print a configuration *)

(** Names of sections and keys, and values. *)
Definition name_char (c : ascii) : bool :=
  negb (is_blank c) && negb (existsb (fun n => is_code n c) [10; 13; 35; 58; 123; 125]).
Definition value_char (c : ascii) : bool := negb (existsb (fun n => is_code n c) [10; 123]).
Definition name_ok (s : string) : bool := negb (String.eqb s "") && forallb name_char (chars s).
Definition ends_ok (l : list ascii) : bool :=
  match head l, last l with Some a, Some b => negb (is_blank a) && negb (is_blank b) && negb (is_code 13 b) | _, _ => true end.
Definition value_ok (s : string) : bool := forallb value_char (chars s) && ends_ok (chars s).

Lemma name_char_spec c : name_char c = true -> is_blank c = false /\ is_code 10 c = false /\ is_code 13 c = false /\
  is_code 35 c = false /\ is_code 58 c = false /\ is_code 123 c = false /\ is_code 125 c = false.
Proof. unfold name_char. cbn. rewrite !andb_true_iff, !negb_true_iff, !orb_false_iff. tauto. Qed.

Lemma value_char_spec c : value_char c = true -> is_code 10 c = false /\ is_code 123 c = false.
Proof. unfold value_char. cbn. rewrite negb_true_iff, !orb_false_iff. tauto. Qed.

Lemma forallb_last {A} (p : A -> bool) l c : forallb p l = true -> last l = Some c -> p c = true.
Proof.
  induction l as [|x l IH]; [discriminate|]. cbn. intros [Hx H]%andb_true_iff E. destruct l; [injection E as <-; exact Hx | now apply IH].
Qed.

Lemma forallb_head {A} (p : A -> bool) l c : forallb p l = true -> head l = Some c -> p c = true.
Proof. destruct l; [discriminate|]. cbn. intros [H _]%andb_true_iff [= <-]. exact H. Qed.

Lemma forallb_imp {A} (p q : A -> bool) l : (forall c, p c = true -> q c = true) -> forallb p l = true -> forallb q l = true.
Proof. intros H. induction l; cbn; [easy|]. rewrite !andb_true_iff. intros [? ?]. auto. Qed.

Lemma chomp_line l : ends_with 13 l = false -> chomp (l ++ [chr 10]) = l.
Proof.
  intros H. unfold chomp. assert (E : ends_with 10 (l ++ [chr 10]) = true) by (unfold ends_with; now rewrite last_snoc).
  now rewrite E, removelast_last, H.
Qed.

(** The text of the three kinds of lines. *)
Definition section_line (name : string) : list ascii := chars name ++ [chr 32; chr 123].
Definition item_line (key value : string) : list ascii := chars key ++ chr 58 :: chr 32 :: chars value.

Lemma name_first (s : string) : name_ok s = true -> exists c l, chars s = c :: l /\ name_char c = true /\ forallb name_char (chars s) = true.
Proof.
  unfold name_ok. intros [H F]%andb_true_iff. destruct s as [|c s]; [discriminate|]. exists c, (chars s). split; [reflexivity|].
  split; [|exact F]. cbn in F. now apply andb_true_iff in F as [? _].
Qed.

Lemma name_no n s : forallb name_char (chars s) = true -> existsb (Z.eqb n) [10; 13; 35; 58; 123; 125] = true ->
  forallb (fun c => negb (is_code n c)) (chars s) = true.
Proof.
  intros F Hn. refine (forallb_imp _ _ _ _ F). intros c Hc. apply name_char_spec in Hc. apply negb_true_iff. cbn in Hn.
  rewrite !orb_true_iff, !Z.eqb_eq in Hn. destruct Hn as [->|[->|[->|[->|[->|[->|?]]]]]]; tauto || discriminate.
Qed.

Lemma not_ignored c l : name_char c = true -> ignore_line (c :: l) = false.
Proof. intros H%name_char_spec. unfold ignore_line. rewrite skip_blank_first; [tauto|]. cbn. tauto. Qed.

Lemma name_stripped s k b : name_ok s = true -> forallb (fun c => is_blank c || b && (is_code 58 c || is_code 123 c)) k = true ->
  remove_whitespace (chars s ++ k) b = chars s.
Proof.
  intros Hs Hk. destruct (name_first s Hs) as (c & l & E & Hc & F). apply remove_whitespace_word; [now rewrite E | rewrite E; now apply name_char_spec | | exact Hk].
  intros x Hx. apply (forallb_last _ _ _ F), name_char_spec in Hx. destruct Hx as (-> & _ & _ & _ & -> & -> & _). now destruct b.
Qed.

Lemma classify_section path name : name_ok name = true -> (strlen path + strlen name + 1 < 255) ->
  classify path (strip_end is_blank (section_line name)) = LineSection name.
Proof.
  intros Hn Hl. destruct (name_first name Hn) as (c & l & E & Hc & F). unfold section_line.
  rewrite strip_end_app by (easy || reflexivity). unfold classify.
  assert (Ig : ignore_line (chars name ++ [chr 32; chr 123]) = false) by (rewrite E; now apply not_ignored). rewrite Ig.
  assert (Es : strchr_rs 123 (chars name ++ [chr 32; chr 123]) = Some (chars name ++ [chr 32], [])).
  { unfold strchr_rs. replace (chars name ++ [chr 32; chr 123]) with ((chars name ++ [chr 32]) ++ chr 123 :: []) by now rewrite <- app_assoc.
    rewrite strchr_app; [reflexivity | | reflexivity]. rewrite forallb_app, (name_no 123) by (exact F || reflexivity). reflexivity. }
  rewrite Es, name_stripped by (exact Hn || reflexivity). rewrite str_chars.
  assert (Ne : String.eqb name "" = false) by (destruct name; [discriminate | reflexivity]). rewrite Ne.
  change (negb (String.eqb (str (remove_whitespace [] false)) "")) with false. cbv iota. change (Z.of_nat ICMAP_KEYNAME_MAXLEN) with 255.
  destruct (Z.leb_spec 255 (strlen path + strlen name + 1)); [lia | reflexivity].
Qed.

Lemma strlen_pos s : s <> ""%string -> 0 < strlen s.
Proof. unfold strlen. destruct s; [easy|]. cbn. lia. Qed.

Lemma item_text key value : name_ok key = true -> value_ok value = true ->
  strip_end is_blank (item_line key value) = chars key ++ chr 58 :: match chars value with [] => [] | v => chr 32 :: v end.
Proof.
  intros Hk [Hv He]%andb_true_iff. unfold item_line. destruct (chars value) as [|v0 v] eqn:Ev.
  - replace (chars key ++ [chr 58; chr 32]) with ((chars key ++ [chr 58]) ++ [chr 32]) by now rewrite <- app_assoc.
    rewrite strip_end_all by reflexivity. now rewrite strip_end_app by (easy || reflexivity).
  - rewrite strip_end_app; [reflexivity | easy|]. apply strip_end_last. unfold ends_ok in He. cbn [head] in He.
    change (last (chr 58 :: chr 32 :: v0 :: v)) with (last (v0 :: v)). destruct (last (v0 :: v)) as [b|]; [|exact I].
    apply andb_true_iff in He as [[_ He]%andb_true_iff _]. now apply negb_true_iff in He.
Qed.

Lemma classify_item path key value : name_ok key = true -> value_ok value = true -> (strlen path + strlen key + 1 < 255) ->
  classify path (strip_end is_blank (item_line key value)) = LineItem key value.
Proof.
  intros Hn Hv Hl. rewrite (item_text key value Hn Hv). destruct (name_first key Hn) as (c & l & E & Hc & F). unfold classify.
  set (tl := match chars value with [] => [] | v => chr 32 :: v end).
  assert (Ig : ignore_line (chars key ++ chr 58 :: tl) = false) by (rewrite E; now apply not_ignored). rewrite Ig. clear Ig.
  apply andb_true_iff in Hv as [Hc' He].
  assert (N123 : strchr_rs 123 (chars key ++ chr 58 :: tl) = None).
  { apply strchr_rs_none. rewrite forallb_app, (name_no 123) by (exact F || reflexivity). cbn.
    assert (V : forallb (fun c => negb (is_code 123 c)) (chars value) = true).
    { refine (forallb_imp _ _ _ _ Hc'). intros x Hx%value_char_spec. apply negb_true_iff. tauto. }
    unfold tl. destruct (chars value); [reflexivity | exact V]. }
  rewrite N123. clear N123.
  assert (Es : strchr_rs 58 (chars key ++ chr 58 :: tl) =
    Some (chars key ++ match chars value with [] => [] | _ => [chr 58] end, chars value)).
  { unfold strchr_rs. rewrite strchr_app; [|now apply (name_no 58) | reflexivity]. cbn [mbind option_bind]. unfold tl.
    destruct (chars value) as [|v0 v]; [now rewrite app_nil_r|].
    assert (Sk : skip_blank (chr 32 :: v0 :: v) = v0 :: v).
    { change (skip_blank (v0 :: v) = v0 :: v). apply skip_blank_first. unfold ends_ok in He. cbn [head] in *.
      destruct (last (v0 :: v)) eqn:El; [|now apply last_None in El]. apply andb_true_iff in He as [[He _]%andb_true_iff _]. now apply negb_true_iff in He. }
    rewrite Sk. cbn [length]. replace (S (S (length v)) - S (length v))%nat with 1%nat by lia. reflexivity. }
  rewrite Es, name_stripped; [|exact Hn | now destruct (chars value)]. rewrite str_chars.
  assert (Pk : 0 < strlen key) by (apply strlen_pos; now intros ->). destruct (Z.eqb_spec (strlen key) 0); [lia|].
  change (Z.of_nat ICMAP_KEYNAME_MAXLEN) with 255. destruct (Z.leb_spec 255 (strlen path + strlen key + 1)); [lia|]. f_equal.
  rewrite <- (str_chars value) at 2. f_equal. destruct (chars value) as [|v0 v] eqn:Ev; [reflexivity|].
  pose proof (remove_whitespace_word (v0 :: v) [] false) as R. rewrite app_nil_r in R. unfold ends_ok in He. cbn [head] in He.
  apply R; [easy | | | reflexivity].
  - cbn. destruct (last (v0 :: v)) eqn:El; [|now apply last_None in El]. apply andb_true_iff in He as [[He _]%andb_true_iff _]. now apply negb_true_iff in He.
  - intros x Hx. rewrite Hx in He. apply andb_true_iff in He as [[_ He]%andb_true_iff _]. apply negb_true_iff in He. now rewrite He.
Qed.

Lemma classify_close path : classify path (strip_end is_blank [chr 125]) = LineClose.
Proof. reflexivity. Qed.
