(* ===== verification/CoroparseProps.v ===== *)
(** * The configuration parser: theorems

    The parser terminates on every file; a configuration that is printed is parsed
    into exactly its sections and keys; numbers are accepted exactly when they fit
    their type; and what the code does not do: the section pload is never typed,
    and large numbers of an interface are dropped. *)
From stdpp Require Import pretty.
From S2P Require Import Prelude ErrMonad CString VoteQuorumExec Cpg Icmap IcmapTheory IcmapProps Util Coroparse CoroparseMain CoroparseTheory.

(** C24: the parser terminates on every file: with the length of the file as fuel it only
    fails to return when a callback does. *)
Theorem parse_section_terminates {D} (cb : parser_cb D) fname file state d :
  (forall path key value st type d, is_Some (cb path key value st type d)) ->
  exists res p, parse_section cb fname file state d = Some (res, p).
Proof.
  intros T. unfold parse_section. destruct (T "" "" "" state PARSER_CB_START d)%string as [[r d1] ->]. cbn [mbind option_bind].
  destruct (parse_lines_total cb fname T (S (length file)) "" 0 (cb_state r) (mk_parser file 0 d1)) as [[res p] E]; [cbn; lia|].
  now exists res, p.
Qed.

(** ** Configurations *)

Inductive conf :=
| CItem (key value : string)
| CSection (name : string) (body : list conf).

Fixpoint print_conf (c : conf) : list ascii :=
  match c with
  | CItem k v => item_line k v ++ [chr 10]
  | CSection n b => section_line n ++ chr 10 :: (List.concat (List.map print_conf b) ++ [chr 125; chr 10])
  end.
Definition print_file (cs : list conf) : list ascii := List.concat (List.map print_conf cs).

(** Names, values and lengths that the file format can carry. *)
Fixpoint conf_ok (path : string) (c : conf) : bool :=
  match c with
  | CItem k v => name_ok k && value_ok v && (strlen path + strlen k + 1 <? 255) && Nat.ltb (length (item_line k v)) 511
  | CSection n b => name_ok n && (strlen path + strlen n + 1 <? 255) && Nat.ltb (length (section_line n)) 511
                    && forallb (conf_ok (join_path path n)) b
  end.

Lemma conf_induction (P : conf -> Prop) : (forall k v, P (CItem k v)) -> (forall n b, Forall P b -> P (CSection n b)) -> forall c, P c.
Proof.
  intros Hi Hs. fix IH 1. intros [k v|n b]; [apply Hi|]. apply Hs. induction b as [|c b IHb]; constructor; [apply IH | exact IHb].
Qed.

Section Callback.
Context {D : Type} (cb : parser_cb D) (fname : string).

(** The callbacks that a configuration means, in order, when all succeed. *)
Fixpoint run_conf (path : string) (c : conf) (st : main_cp_cb_data_state) (d : D) : option (main_cp_cb_data_state * D) :=
  match c with
  | CItem k v =>
      '(r, d) ← cb (join_path path k) k v st PARSER_CB_ITEM d; if cb_ok r then Some (cb_state r, d) else None
  | CSection n b =>
      '(r, d) ← cb (join_path path n) ""%string ""%string st PARSER_CB_SECTION_START d;
      if cb_ok r then
        '(st', d) ← foldl (fun o c => '(st, d) ← o; run_conf (join_path path n) c st d) (Some (cb_state r, d)) b;
        '(r, d) ← cb (join_path path n) ""%string ""%string st' PARSER_CB_SECTION_END d;
        if cb_ok r then Some (st, d) else None
      else None
  end.

Definition run_confs (path : string) (cs : list conf) (st : main_cp_cb_data_state) (d : D) : option (main_cp_cb_data_state * D) :=
  foldl (fun o c => '(st, d) ← o; run_conf path c st d) (Some (st, d)) cs.

Definition run_file (cs : list conf) (st : main_cp_cb_data_state) (d : D) : option D :=
  '(r, d) ← cb ""%string ""%string ""%string st PARSER_CB_START d;
  '(st, d) ← run_confs "" cs (cb_state r) d;
  '(r, d) ← cb ""%string ""%string ""%string st PARSER_CB_END d;
  '(_, d) ← cb ""%string ""%string ""%string (cb_state r) PARSER_CB_CLEANUP d; Some d.

Lemma run_confs_cons path c cs st d : run_confs path (c :: cs) st d = '(st, d) ← run_conf path c st d; run_confs path cs st d.
Proof.
  unfold run_confs. cbn. destruct (run_conf path c st d) as [[st1 d1]|]; [reflexivity|]. cbn.
  induction cs as [|x cs IH]; [reflexivity | exact IH].
Qed.

(** One line, with its newline. *)
Lemma parse_one_line fuel path depth st l rest n d : l <> [] -> (length l < 511)%nat -> ends_with 13 l = false ->
  forallb (fun c => negb (is_code 10 c)) l = true ->
  parse_lines cb fname (S fuel) path depth st (mk_parser (l ++ chr 10 :: rest) n d) =
  let p := mk_parser rest (u32 (n + 1)) d in
  match classify path (strip_end is_blank l) with
  | LineIgnored => parse_lines cb fname fuel path depth st p
  | LineError msg => parse_error cb fname st msg p
  | LineSection section =>
      '(r, d) ← cb (join_path path section) ""%string ""%string st PARSER_CB_SECTION_START d;
      if negb (cb_ok r) then parse_error cb fname st (cb_error r) (mk_parser rest (u32 (n + 1)) d)
      else '(res, p) ← parse_lines cb fname fuel (join_path path section) (S depth) (cb_state r) (mk_parser rest (u32 (n + 1)) d);
           match res with Some err => Some (Some err, p) | None => parse_lines cb fname fuel path depth st p end
  | LineItem key value =>
      '(r, d) ← cb (join_path path key) key value st PARSER_CB_ITEM d;
      if negb (cb_ok r) then parse_error cb fname (cb_state r) (cb_error r) (mk_parser rest (u32 (n + 1)) d)
      else parse_lines cb fname fuel path depth (cb_state r) (mk_parser rest (u32 (n + 1)) d)
  | LineClose =>
      if Nat.eqb depth 0 then parse_error cb fname st "Unexpected closing brace" p
      else '(r, d) ← cb path ""%string ""%string st PARSER_CB_SECTION_END d;
           if negb (cb_ok r) then parse_error cb fname (cb_state r) (cb_error r) (mk_parser rest (u32 (n + 1)) d)
           else Some (None, mk_parser rest (u32 (n + 1)) d)
  end.
Proof.
  intros Hn Hl H13 H10. destruct l as [|c l]; [easy|].
  change ((c :: l) ++ chr 10 :: rest) with (c :: (l ++ chr 10 :: rest)). rewrite parse_lines_S.
  change (c :: (l ++ chr 10 :: rest)) with ((c :: l) ++ chr 10 :: rest). rewrite fgets_line by assumption.
  assert (E : ends_with 10 ((c :: l) ++ [chr 10]) = true) by (unfold ends_with; now rewrite last_snoc).
  rewrite E. cbn [negb andb]. unfold line_text. now rewrite chomp_line.
Qed.

Lemma name_line_ok s : name_ok s = true -> chars s <> [] /\ forallb (fun c => negb (is_code 10 c)) (chars s) = true.
Proof. intros H. destruct (name_first s H) as (c & l & E & _ & F). rewrite E at 1. split; [easy | now apply name_no]. Qed.

Lemma section_line_shape n : name_ok n = true ->
  section_line n <> [] /\ ends_with 13 (section_line n) = false /\ forallb (fun c => negb (is_code 10 c)) (section_line n) = true.
Proof.
  intros [H1 H2]%name_line_ok. unfold section_line. split; [now destruct (chars n)|]. split.
  - unfold ends_with. change [chr 32; chr 123] with ([chr 32] ++ [chr 123]). now rewrite app_assoc, last_snoc.
  - rewrite forallb_app, H2. reflexivity.
Qed.

Lemma item_line_shape k v : name_ok k = true -> value_ok v = true ->
  item_line k v <> [] /\ ends_with 13 (item_line k v) = false /\ forallb (fun c => negb (is_code 10 c)) (item_line k v) = true.
Proof.
  intros [H1 H2]%name_line_ok [Hv He]%andb_true_iff. unfold item_line. split; [now destruct (chars k)|]. split.
  - unfold ends_with. rewrite last_app. unfold ends_ok in He. destruct (chars v) as [|c l]; [reflexivity|]. cbn [head] in He.
    change (last (chr 58 :: chr 32 :: c :: l)) with (last (c :: l)). destruct (last (c :: l)) as [x|] eqn:El; [|now apply last_None in El].
    now apply andb_true_iff in He as [_ He%negb_true_iff].
  - rewrite forallb_app, H2. cbn. refine (forallb_imp _ _ _ _ Hv). intros x Hx%value_char_spec. apply negb_true_iff. tauto.
Qed.

Lemma parse_conf c : forall path depth st n d st' d' rest fuel, conf_ok path c = true -> run_conf path c st d = Some (st', d') ->
  (length (print_conf c ++ rest) < fuel)%nat ->
  exists n', parse_lines cb fname fuel path depth st (mk_parser (print_conf c ++ rest) n d)
           = parse_lines cb fname fuel path depth st' (mk_parser rest n' d').
Proof.
  induction c as [k v|name b IH] using conf_induction; intros path depth st n d st' d' rest [|fuel] Ok E Hf; try lia.
  - cbn [conf_ok] in Ok. rewrite !andb_true_iff, Z.ltb_lt, Nat.ltb_lt in Ok. destruct Ok as [[[Hk Hv] Hp] Hl].
    destruct (item_line_shape k v Hk Hv) as (S1 & S2 & S3). cbn [print_conf] in *. rewrite <- app_assoc in *. cbn [app] in *.
    rewrite parse_one_line by assumption. rewrite classify_item by assumption. cbn [run_conf] in E. apply bind_Some in E as ([r d1] & -> & E).
    destruct (cb_ok r) eqn:Er; [|discriminate]. injection E as <- <-. cbn [mbind option_bind negb]. rewrite Er. exists (u32 (n + 1)).
    rewrite length_app in Hf. cbn [length] in Hf. destruct (item_line k v); [easy|]. cbn [length] in Hf. apply parse_lines_fuel; cbn [p_file]; lia.
  - cbn [conf_ok] in Ok. rewrite !andb_true_iff, Z.ltb_lt, Nat.ltb_lt in Ok. destruct Ok as [[[Hk Hp] Hl] Hb].
    destruct (section_line_shape name Hk) as (S1 & S2 & S3). cbn [print_conf] in *. rewrite <- app_assoc in *. cbn [app] in *.
    rewrite <- app_assoc in *. cbn [app] in *.
    rewrite parse_one_line by assumption. rewrite classify_section by assumption. cbn [run_conf] in E. apply bind_Some in E as ([r d1] & -> & E).
    destruct (cb_ok r) eqn:Er; [|discriminate]. cbn [mbind option_bind negb]. rewrite Er. cbn [negb].
    apply bind_Some in E as ([st2 d2] & E2 & E). apply bind_Some in E as ([r3 d3] & E3 & E). destruct (cb_ok r3) eqn:Er3; [|discriminate]. injection E as <- <-.
    set (path' := join_path path name) in *. change (run_confs path' b (cb_state r) d1 = Some (st2, d2)) in E2.
    assert (Hlen : (length (List.concat (List.map print_conf b) ++ chr 125 :: chr 10 :: rest) < fuel)%nat).
    { rewrite length_app in Hf. cbn [length] in Hf. lia. }
    assert (B : forall st n d, run_confs path' b st d = Some (st2, d2) -> exists n',
      parse_lines cb fname fuel path' (S depth) st (mk_parser (List.concat (List.map print_conf b) ++ chr 125 :: chr 10 :: rest) n d)
      = parse_lines cb fname fuel path' (S depth) st2 (mk_parser (chr 125 :: chr 10 :: rest) n' d2)).
    { clear -IH Hb Hlen. induction IH as [|c b Hc _ IHb]; intros st n d E; [injection E as <- <-; now exists n|].
      cbn in Hb. apply andb_true_iff in Hb as [Hc' Hb']. rewrite run_confs_cons in E. apply bind_Some in E as ([st1 d1] & E1 & E).
      cbn [List.map List.concat] in *. rewrite <- app_assoc in *. destruct (Hc path' (S depth) st n d st1 d1 _ fuel Hc' E1 Hlen) as [n1 ->].
      apply IHb; [exact Hb' | | exact E]. rewrite length_app in Hlen. lia. }
    destruct (B _ (u32 (n + 1)) _ E2) as [n2 EB]. rewrite EB. destruct fuel as [|fuel]; [lia|].
    change (chr 125 :: chr 10 :: rest) with ([chr 125] ++ chr 10 :: rest).
    rewrite (parse_one_line fuel path') by (easy || reflexivity || (cbn; lia)). rewrite classify_close. cbn [Nat.eqb]. rewrite E3. cbn [mbind option_bind].
    rewrite Er3. cbn [negb]. exists (u32 (n2 + 1)). rewrite !length_app in *. cbn [length] in *. apply parse_lines_fuel; cbn [p_file]; lia.
Qed.

Lemma parse_confs cs : forall path depth st n d st' d' rest fuel, forallb (conf_ok path) cs = true -> run_confs path cs st d = Some (st', d') ->
  (length (print_file cs ++ rest) < fuel)%nat ->
  exists n', parse_lines cb fname fuel path depth st (mk_parser (print_file cs ++ rest) n d)
           = parse_lines cb fname fuel path depth st' (mk_parser rest n' d').
Proof.
  unfold print_file. induction cs as [|c cs IH]; intros path depth st n d st' d' rest fuel Ok E Hf; [injection E as <- <-; now exists n|].
  cbn in Ok. apply andb_true_iff in Ok as [Hc Hcs]. rewrite run_confs_cons in E. apply bind_Some in E as ([st1 d1] & E1 & E).
  cbn [List.map List.concat] in *. rewrite <- app_assoc in *. destruct (parse_conf c path depth st n d st1 d1 _ fuel Hc E1 Hf) as [n1 ->].
  apply IH; [exact Hcs | exact E|]. rewrite length_app in Hf. lia.
Qed.

(** C23: a configuration that is printed and parsed again makes the callbacks of exactly its
    sections and keys, in order and with their full names. *)
Theorem parse_print_roundtrip cs st d d' : forallb (conf_ok "") cs = true -> run_file cs st d = Some d' ->
  exists n, parse_section cb fname (print_file cs) st d = Some (None, mk_parser [] n d').
Proof.
  intros Ok E. unfold run_file in E. unfold parse_section. apply bind_Some in E as ([r d1] & -> & E). cbn [mbind option_bind].
  apply bind_Some in E as ([st2 d2] & E2 & E). apply bind_Some in E as ([r3 d3] & E3 & E). apply bind_Some in E as ([r4 d4] & E4 & [= <-]).
  destruct (parse_confs cs "" 0 (cb_state r) 0 d1 st2 d2 [] (S (length (print_file cs))) Ok E2) as [n E5]; [rewrite app_nil_r; lia|].
  rewrite app_nil_r in E5. rewrite E5. exists n. cbn [parse_lines p_file p_data p_line_no]. change (String.eqb "" "") with true. cbn [negb].
  rewrite E3. cbn [mbind option_bind]. rewrite E4. reflexivity.
Qed.

End Callback.

(** ** Numbers *)

Lemma read_digits_go x s acc : (0 < x)%N -> acc = 0 -> read_digits acc (chars (pretty_N_go x s)) = read_digits (Z.of_N x) (chars s).
Proof.
  intros Hx ->. revert s. induction (N.lt_wf_0 x) as [x _ IH]. intros s. rewrite pretty_N_go_step by exact Hx.
  assert (Hm : (x mod 10 < 10)%N) by now apply N.mod_lt. set (c := pretty_N_char (x mod 10)).
  assert (Hc : isdigit c = true /\ code c - 48 = Z.of_N (x mod 10)).
  { unfold c. generalize dependent (x mod 10)%N. intros m Hm'. clear -Hm'.
    assert (H : m ∈ map N.of_nat (seq 0 10)) by (apply list_elem_of_In, in_map_iff; exists (N.to_nat m); split; [lia | apply in_seq; lia]).
    revert H. cbn. rewrite !elem_of_cons, elem_of_nil. intros H. repeat (destruct H as [->|H]; [split; reflexivity|]). easy. }
  destruct Hc as [Hd Hv]. assert (E10 : Z.of_N x = 10 * Z.of_N (x / 10) + Z.of_N (x mod 10)).
  { pose proof (N.div_mod x 10 ltac:(lia)). lia. }
  destruct (N.eq_dec (x / 10) 0) as [E0|E0].
  - rewrite E0 in *. rewrite pretty_N_go_0. cbn [chars read_digits]. rewrite Hd, Hv. f_equal. lia.
  - rewrite IH by (try apply N.div_lt; lia). cbn [chars read_digits]. rewrite Hd, Hv. f_equal. lia.
Qed.

Lemma read_digits_pretty (x : N) : read_digits 0 (chars (pretty x)) = (Z.of_N x, []).
Proof.
  unfold pretty, pretty_N. case_decide as H; [subst; reflexivity|]. rewrite read_digits_go by lia. reflexivity.
Qed.

Lemma pretty_digits (x : N) : exists c l, chars (pretty x) = c :: l /\ isdigit c = true.
Proof.
  pose proof (read_digits_pretty x) as H. destruct (chars (pretty x)) as [|c l] eqn:E.
  - exfalso. cbn in H. injection H as Hx. assert (x = 0%N) as -> by lia. discriminate.
  - exists c, l. split; [reflexivity|]. cbn in H. destruct (isdigit c); [reflexivity | discriminate].
Qed.

Lemma digit_not_space c : isdigit c = true -> isspace c = false /\ (code c =? 45) = false /\ (code c =? 43) = false.
Proof. unfold isdigit, isspace. zbool; lia. Qed.

Lemma read_number_digits l c k : l = c :: k -> isdigit c = true ->
  read_number l = Some (read_digits 0 l) /\ read_number ("-"%char :: l) = Some (let '(v, r) := read_digits 0 l in (- v, r)).
Proof.
  intros -> H. destruct (digit_not_space c H) as (H1 & H2 & H3). unfold read_number. cbn [skip_space]. rewrite H1, H2, H3, H.
  split; [now destruct (read_digits 0 (c :: k))|]. change (isspace "-") with false. cbv iota. replace (code "-"%char =? 45) with true by reflexivity. cbv iota beta. rewrite H.
  now destruct (read_digits 0 (c :: k)).
Qed.

Lemma read_number_pretty (v : Z) : read_number (chars (pretty v)) = Some (v, []).
Proof.
  destruct v as [|p|p]; [reflexivity| |].
  - change (pretty (Z.pos p)) with (pretty (N.pos p)). destruct (pretty_digits (N.pos p)) as (c & l & E & H).
    destruct (read_number_digits _ c l E H) as [-> _]. now rewrite read_digits_pretty.
  - change (chars (pretty (Z.neg p))) with ("-"%char :: chars (pretty (N.pos p))). destruct (pretty_digits (N.pos p)) as (c & l & E & H).
    destruct (read_number_digits _ c l E H) as [_ ->]. now rewrite read_digits_pretty.
Qed.

(** A printed number is accepted exactly when it fits the type. *)
Lemma safe_atoq_pretty (v : Z) t mn mx : safe_atoq_range t = Some (mn, mx) ->
  safe_atoq (pretty v) t = if bool_decide (mn <= v <= mx) then Some v else None.
Proof.
  intros Hr. unfold safe_atoq. rewrite read_number_pretty, Hr. cbn [mbind option_bind].
  assert (LONG_MIN <= mn /\ mx <= LONG_MAX) as [H1 H2] by (destruct t; try discriminate; injection Hr as <- <-; unfold LONG_MIN, LONG_MAX; lia).
  destruct (Z.ltb_spec v LONG_MIN), (Z.ltb_spec LONG_MAX v), (Z.ltb_spec v mn), (Z.ltb_spec mx v); cbn [orb]; case_bool_decide; reflexivity || lia.
Qed.

(** Every signed number is accepted where an unsigned one is expected. *)
Lemma str_to_ull_pretty (v : Z) : - (2 ^ 64 - 1) <= v <= 2 ^ 64 - 1 -> str_to_ull (pretty v) = Some (u64 v).
Proof. intros H. unfold str_to_ull. rewrite read_number_pretty. destruct (Z.ltb_spec (2 ^ 64 - 1) (Z.abs v)); [lia | reflexivity]. Qed.

(** ** Keys of the configuration *)

Section Main.
Context {M : Type} `{QB : qb_map M} `{QL : !qb_map_laws M}.
Context (config_map : Z) (knet : knet_env) (getpwnam getgrnam : string -> Z + option Z) (strerror : Z -> string).
Implicit Types e : cp_env M.

Notation main_cb := (main_config_parser_cb config_map knet getpwnam getgrnam strerror).

Lemma item_totem_uint32 path value e : path ∈ totem_uint32_keys ->
  item_totem config_map knet path value e = item_int config_map ICMAP_VALUETYPE_UINT32 totem_uint32_keys path value true e.
Proof.
  intros H. assert (In' : path_in path totem_uint32_keys = true) by (apply existsb_exists; exists path; split; [now apply list_elem_of_In | apply String.eqb_refl]).
  unfold item_totem. unfold act_bind at 1. destruct (item_int _ _ totem_uint32_keys path value true e) as [[[msg|add] e1]|]; [reflexivity | | reflexivity].
  clear In'. revert path H. apply Forall_forall. repeat constructor.
Qed.

Lemma totem_keys_valid path : path ∈ totem_uint32_keys ->
  icmap_check_key_name path = true /\ Nat.leb (S ICMAP_KEYNAME_MAXLEN) (length (chars path)) = false.
Proof.
  revert path. apply Forall_forall. repeat constructor.
Qed.

Lemma store_int_ok t k v e s' : set_int t config_map k v (cp_map e) = Some (CS_OK, s') ->
  store_int config_map t k v e = Some (inr tt, e <| cp_map := s' |>).
Proof. intros E. unfold store_int, store. now rewrite E. Qed.

(** A number of the section totem is accepted exactly when it fits 32 bits; it is then
    what a reader of the map gets, and otherwise nothing is stored. *)
Theorem config_number_exact path key (v : Z) e m : path ∈ totem_uint32_keys -> icmap_ok (cp_map e) -> map_at config_map (cp_map e) = Some m ->
  exists r e', main_cb path key (pretty v) MAIN_CP_CB_DATA_STATE_TOTEM PARSER_CB_ITEM e = Some (r, e') /\
    if bool_decide (0 <= v < 2 ^ 32)
    then cb_ok r = true /\ icmap_get_uint32_r config_map path (cp_map e') = Some (CS_OK, Some v)
    else cb_ok r = false /\ e' = e.
Proof.
  intros Hp Ok Hm. destruct (totem_keys_valid path Hp) as [Hk Hl]. unfold main_config_parser_cb. rewrite Hl. unfold of_act, config_item, act_bind at 1.
  rewrite (item_totem_uint32 path _ e Hp). unfold item_int, atoq.
  assert (In' : path_in path totem_uint32_keys = true) by (apply existsb_exists; exists path; split; [now apply list_elem_of_In | apply String.eqb_refl]).
  rewrite In', (safe_atoq_pretty v ICMAP_VALUETYPE_UINT32 0 (2 ^ 32 - 1) eq_refl). rewrite (bool_decide_ext (0 <= v <= 2 ^ 32 - 1) (0 <= v < 2 ^ 32)) by lia.
  case_bool_decide as Hv.
  - destruct (set_int_total ICMAP_VALUETYPE_UINT32 config_map path v (cp_map e) m Ok Hm) as [s' Es]; [discriminate.. | exact Hk|].
    unfold act_bind, ret. cbn [mbind option_bind]. rewrite (store_int_ok _ _ _ _ _ Es). cbn [mbind option_bind when].
    eexists _, _. split; [reflexivity|]. split; [reflexivity|].
    destruct (int_read_back ICMAP_VALUETYPE_UINT32 config_map path v (cp_map e) CS_OK s' Ok) as [E _]; [discriminate.. | exact Es | reflexivity|].
    rewrite Z.mod_small in E by exact Hv. exact E.
  - eexists _, _. split; [reflexivity | now split].
Qed.

(** The section pload has a state of its own in the parser, which is never entered. *)
Lemma section_state_pload path st : st <> MAIN_CP_CB_DATA_STATE_PLOAD -> section_state path st <> MAIN_CP_CB_DATA_STATE_PLOAD.
Proof.
  intros H. unfold section_state. destruct (list_find _ _) as [[i [p st']]|] eqn:E; [|exact H]. apply list_find_Some in E as (Hi & _ & _).
  apply list_elem_of_lookup_2 in Hi. revert Hi. enough (F : Forall (fun x => snd x <> MAIN_CP_CB_DATA_STATE_PLOAD) section_states)
    by (rewrite Forall_forall in F; exact (F (p, st'))). by_compute.
Qed.

Lemma main_cb_pload path key value st type e r e' : st <> MAIN_CP_CB_DATA_STATE_PLOAD -> main_cb path key value st type e = Some (r, e') ->
  cb_state r <> MAIN_CP_CB_DATA_STATE_PLOAD.
Proof.
  intros H. unfold main_config_parser_cb. destruct (Nat.leb _ _); [now intros [= <- _]|].
  destruct type; try (now intros [= <- _]); try (intros ([[msg|a] e1] & _ & [= <- _])%bind_Some; exact H).
  unfold config_section_start, act_bind, upd_data. cbn. intros E. apply bind_Some in E as ([r1 e1] & E1 & [= <- _]).
  assert (r1 = inr (section_state path st) \/ exists msg, r1 = inl msg) as [->|[msg ->]].
  { revert E1. destruct (_ && _); [intros [= <- _]; right; now eexists|]. destruct (_ && _); intros [= <- _]; [right; now eexists | now left]. }
  - now apply section_state_pload.
  - now apply section_state_pload.
Qed.

(** No configuration file makes the parser enter its state for the section pload, so
    that the integer keys of that section are always stored as strings: a parser
    that stops in that state reads every file in the same way. *)
Theorem pload_never_typed fname file e :
  let guarded path key value st type e := if decide (st = MAIN_CP_CB_DATA_STATE_PLOAD) then None else main_cb path key value st type e in
  parse_section main_cb fname file MAIN_CP_CB_DATA_STATE_NORMAL e = parse_section guarded fname file MAIN_CP_CB_DATA_STATE_NORMAL e.
Proof.
  intros guarded.
  assert (G : forall path key value st type e, st <> MAIN_CP_CB_DATA_STATE_PLOAD -> guarded path key value st type e = main_cb path key value st type e)
    by (intros path key value st type e0 H; unfold guarded; now rewrite decide_False).
  assert (PE : forall st msg p, st <> MAIN_CP_CB_DATA_STATE_PLOAD -> parse_error main_cb fname st msg p = parse_error guarded fname st msg p)
    by (intros st msg p H; unfold parse_error; now rewrite G).
  assert (PL : forall fuel path depth st p, st <> MAIN_CP_CB_DATA_STATE_PLOAD ->
    parse_lines main_cb fname fuel path depth st p = parse_lines guarded fname fuel path depth st p).
  { intros fuel. induction fuel as [|fuel IH]; intros path depth st [[|c l] n d] H; [reflexivity.. | |].
    - cbn [parse_lines p_file p_data p_line_no]. rewrite PE, G by exact H. destruct (negb _); [reflexivity|].
      destruct (main_cb "" "" "" st PARSER_CB_END d)%string as [[r d1]|] eqn:E; [|reflexivity]. cbn [mbind option_bind].
      now rewrite G by exact (main_cb_pload _ _ _ _ _ _ _ _ H E).
    - rewrite !parse_lines_S. destruct (fgets 511 (c :: l)) as [[raw rest] eof]. destruct (negb _ && negb _); [now apply PE|].
      destruct (classify path (line_text raw)) as [|msg|name|key value|]; [now apply IH | now apply PE | | |]; [| |destruct (Nat.eqb depth 0); [now apply PE|]];
        rewrite G by exact H; destruct (main_cb _ _ _ st _ d) as [[r d1]|] eqn:E; try reflexivity; cbn [mbind option_bind];
        pose proof (main_cb_pload _ _ _ _ _ _ _ _ H E) as Hr; (destruct (negb (cb_ok r)); [now apply PE|]); [|now apply IH | reflexivity].
      rewrite IH by exact Hr. destruct (parse_lines guarded fname fuel _ _ _ _) as [[[err|] p1]|]; [reflexivity | now apply IH | reflexivity]. }
  unfold parse_section. rewrite G by discriminate. destruct (main_cb "" "" "" _ PARSER_CB_START e)%string as [[r d1]|] eqn:E; [|reflexivity].
  cbn [mbind option_bind]. apply PL. refine (main_cb_pload _ _ _ _ _ _ _ _ _ E). discriminate.
Qed.

End Main.

(** ** Witnesses *)

Definition quiet_cb : parser_cb Z := fun _ _ _ st _ d => Some (mk_cb_result true st "", d + 1).

Lemma parse_section_terminates_witness : exists res p, parse_section quiet_cb "corosync.conf" (chars "totem {") MAIN_CP_CB_DATA_STATE_NORMAL 0 = Some (res, p).
Proof. refine (parse_section_terminates quiet_cb _ _ _ _ _). intros path key value st type d. now eexists. Defined.

Definition demo_conf : list conf :=
  [CSection "totem" [CItem "version" "2"; CItem "cluster_name" "a: b";
                     CSection "interface" [CItem "linknumber" "1"; CItem "knet_ping_interval" "3000000000"; CItem "ttl" "5"]];
   CSection "nodelist" [CSection "node" [CItem "nodeid" "7"; CItem "ring0_addr" "n7"]; CSection "node" [CItem "nodeid" "8"]];
   CSection "pload" [CItem "count" "5"]]%string.
Definition demo_knet : knet_env := mk_knet_env true (Some ["nss"; "openssl"]%string) (Some []) (Some ["aes256"]%string) (Some ["sha256"]%string).
Definition demo_cb : parser_cb (cp_env (gmap string icmap_item)) :=
  main_config_parser_cb 1 demo_knet (fun _ => inr None) (fun _ => inr None) (fun _ => ""%string).
Definition demo_env : cp_env (gmap string icmap_item) := mk_cp_env demo_zero zero_cp_data "".
Definition demo_parsed : cp_env (gmap string icmap_item) := default demo_env (run_file demo_cb demo_conf MAIN_CP_CB_DATA_STATE_NORMAL demo_env).

Lemma parse_print_roundtrip_witness :
  exists n, parse_section demo_cb "corosync.conf" (print_file demo_conf) MAIN_CP_CB_DATA_STATE_NORMAL demo_env = Some (None, mk_parser [] n demo_parsed).
Proof.
  refine (parse_print_roundtrip demo_cb "corosync.conf" demo_conf MAIN_CP_CB_DATA_STATE_NORMAL demo_env demo_parsed _ _).
  - vm_compute. reflexivity.
  - refine (some_default demo_env (run_file demo_cb demo_conf MAIN_CP_CB_DATA_STATE_NORMAL demo_env) _). vm_compute. reflexivity.
Defined.

(** What that file is read as: nodes are numbered, links named by their number. *)
Example demo_config_read :
  (icmap_get_uint32_r 1 "totem.version" (cp_map demo_parsed), icmap_get_string_r 1 "totem.cluster_name" (cp_map demo_parsed),
   icmap_get_uint8_r 1 "totem.interface.1.ttl" (cp_map demo_parsed), icmap_get_uint32_r 1 "nodelist.node.1.nodeid" (cp_map demo_parsed))
  = (Some (CS_OK, Some 2), Some (CS_OK, Some "a: b"%string), Some (CS_OK, Some 5), Some (CS_OK, Some 8)).
Proof. vm_compute. reflexivity. Qed.

(** An interval of 2^31 or more is accepted and dropped; the keys of pload are strings. *)
Example large_interval_dropped :
  (icmap_get_uint32_r 1 "totem.interface.1.knet_ping_interval" (cp_map demo_parsed), icmap_get_uint32_r 1 "pload.count" (cp_map demo_parsed))
  = (Some (CS_ERR_NOT_EXIST, None), Some (CS_ERR_INVALID_PARAM, None)).
Proof. vm_compute. reflexivity. Qed.

Lemma config_number_exact_witness : exists r e',
  main_config_parser_cb 1 demo_knet (fun _ => inr None) (fun _ => inr None) (fun _ => ""%string) "totem.token" "token" (pretty 3000)
    MAIN_CP_CB_DATA_STATE_TOTEM PARSER_CB_ITEM demo_env = Some (r, e') /\
  cb_ok r = true /\ icmap_get_uint32_r 1 "totem.token" (cp_map e') = Some (CS_OK, Some 3000).
Proof.
  refine (config_number_exact 1 demo_knet _ _ _ "totem.token" "token" 3000 demo_env ∅ _ demo_zero_ok _); [by_compute | reflexivity].
Defined.
