(* ===== verification/CoroparseFrame.v ===== *)
(** * The configuration parser: what it writes to

    Whatever the file holds, the parser only changes the map that it is given. *)
From stdpp Require Import pretty.
From S2P Require Import Prelude ErrMonad CString VoteQuorumExec Cpg Icmap IcmapTheory IcmapProps Util Coroparse CoroparseMain.
Local Open Scope Z_scope.

(** A relation that every callback keeps to is kept by the parser. *)
Section Parser.
Context {D : Type} (cb : parser_cb D) (fname : string) (R : D -> D -> Prop) `{!PreOrder R}.
Context (cb_stays : forall path key value st t d r d', cb path key value st t d = Some (r, d') -> R d d').

Lemma parse_error_stays st msg p r p' : parse_error cb fname st msg p = Some (r, p') -> R (p_data p) (p_data p').
Proof. unfold parse_error. intros ([x d] & E & [= _ <-])%bind_Some. exact (cb_stays _ _ _ _ _ _ _ _ E). Qed.

(** After a callback the parser goes on from its data. *)
Lemma callback_stays {A} path key value st t d (f : cb_result * D -> option (A * parser D)) r p' :
  (cb path key value st t d ≫= f) = Some (r, p') -> (forall x d', f (x, d') = Some (r, p') -> R d' (p_data p')) -> R d (p_data p').
Proof. intros ([x d'] & E & H)%bind_Some F. transitivity d'; [exact (cb_stays _ _ _ _ _ _ _ _ E) | exact (F x d' H)]. Qed.

Lemma parse_lines_stays fuel path depth st p r p' : parse_lines cb fname fuel path depth st p = Some (r, p') -> R (p_data p) (p_data p').
Proof.
  revert path depth st p r p'. induction fuel as [|fuel IH]; intros path depth st p r p' H; [discriminate|]. cbn [parse_lines] in H.
  destruct (p_file p) as [|c file] eqn:Ef.
  - destruct (negb _); [exact (parse_error_stays _ _ _ _ _ H)|]. apply (callback_stays _ _ _ _ _ _ _ _ _ H). intros x d H1.
    apply (callback_stays _ _ _ _ _ _ _ _ _ H1). intros y d' [= _ <-]. reflexivity.
  - clear Ef. destruct (fgets 511 (c :: file)) as [[raw rest] eof]. destruct (_ && _); [exact (parse_error_stays _ _ _ _ _ H)|].
    destruct (classify path (line_text raw)) as [|msg|section|key value|].
    + exact (IH _ _ _ _ _ _ H).
    + exact (parse_error_stays _ _ _ _ _ H).
    + apply (callback_stays _ _ _ _ _ _ _ _ _ H). intros x d H1. cbn in H1. destruct (negb _); [exact (parse_error_stays _ _ _ _ _ H1)|].
      apply bind_Some in H1 as ([res p1] & E1 & H1). transitivity (p_data p1); [exact (IH _ _ _ _ _ _ E1)|].
      destruct res; [injection H1 as _ <-; reflexivity | exact (IH _ _ _ _ _ _ H1)].
    + apply (callback_stays _ _ _ _ _ _ _ _ _ H). intros x d H1. cbn in H1. destruct (negb _); [exact (parse_error_stays _ _ _ _ _ H1) | exact (IH _ _ _ _ _ _ H1)].
    + destruct (Nat.eqb depth 0); [exact (parse_error_stays _ _ _ _ _ H)|]. apply (callback_stays _ _ _ _ _ _ _ _ _ H). intros x d H1. cbn in H1.
      destruct (negb _); [exact (parse_error_stays _ _ _ _ _ H1) | injection H1 as _ <-; reflexivity].
Qed.

Lemma parse_section_stays file st d r p' : parse_section cb fname file st d = Some (r, p') -> R d (p_data p').
Proof. intros H. apply (callback_stays _ _ _ _ _ _ _ _ _ H). intros x d' H1. exact (parse_lines_stays _ _ _ _ _ _ _ H1). Qed.

End Parser.

(** ** The callbacks *)

#[export] Hint Transparent act prog : silent.

Section Callbacks.
Context {M : Type} `{QB : qb_map M} (R : icmap M -> icmap M -> Prop) `{!PreOrder R} (config_map : Z).
Context (set_stays : forall k v n t m e m', icmap_set_r config_map k v n t m = Some (e, m') -> R m m').
Context (knet : knet_env) (getpwnam getgrnam : string -> Z + option Z) (strerror : Z -> string).

Definition env_stays (e e' : cp_env M) : Prop := R (cp_map e) (cp_map e').

#[local] Instance env_stays_preorder : PreOrder env_stays.
Proof. split; [intros e; unfold env_stays; reflexivity|]. intros e1 e2 e3. unfold env_stays. intros. now transitivity (cp_map e2). Qed.

Lemma set_string_stays k v m e m' : icmap_set_string_r config_map k (Some v) m = Some (e, m') -> R m m'.
Proof. apply set_stays. Qed.

Lemma stays_store key f : (forall m e m', f m = Some (e, m') -> R m m') -> stays env_stays (store key f).
Proof.
  intros Hf e r e' H. unfold store in H. apply bind_Some in H as ([x m] & E & H). destruct (x =? CS_OK); injection H as _ <-; exact (Hf _ _ _ E).
Qed.
Lemma stays_store_int t key v : stays env_stays (store_int config_map t key v).
Proof. apply stays_store. intros m e m'. apply set_stays. Qed.
Lemma stays_store_string key v : stays env_stays (store_string config_map key v).
Proof. apply stays_store. intros m e m'. apply set_stays. Qed.
Lemma stays_store_then key v f : stays env_stays (store_then config_map key v f).
Proof.
  intros e r e' H. unfold store_then in H. apply bind_Some in H as ([x m] & E & H).
  destruct (x =? CS_OK); injection H as _ <-; exact (set_string_stays _ _ _ _ _ E).
Qed.
Lemma stays_upd_data f : stays env_stays (upd_data (M:=M) f).
Proof. intros e r e' [= _ <-]. unfold env_stays. reflexivity. Qed.
Lemma stays_response msg : stays env_stays (response (M:=M) msg).
Proof. intros e r e' H. unfold response in H. destruct (Nat.ltb _ _); [|discriminate]. injection H as _ <-. unfold env_stays. reflexivity. Qed.
Lemma silent_get_data : silent (get_data (M:=M)).
Proof. intros e r e' [= _ <-]. reflexivity. Qed.
Lemma silent_fail_response {A} : silent (fail_response (M:=M) (A:=A)).
Proof. intros e r e' [= _ <-]. reflexivity. Qed.
Lemma silent_atoq t k v : silent (atoq (M:=M) t k v).
Proof.
  unfold atoq, safe_atoq_error. destruct (safe_atoq v t); [apply silent_ret|]. destruct (safe_atoq_range t) as [[]|]; [apply silent_fail|]. intros e r e' [=].
Qed.
Lemma silent_of_check r : silent (of_check (M:=M) r).
Proof. destruct r; [apply silent_fail | apply silent_ret]. Qed.
Lemma silent_below p path msg : silent (below (M:=M) p path msg).
Proof. unfold below. destruct (_ || _); [apply silent_fail | apply silent_ret]. Qed.
Lemma silent_item_enum k l msg p v : silent (item_enum (M:=M) k l msg p v).
Proof. apply silent_when, silent_fail. Qed.
Hint Resolve stays_store_int stays_store_string stays_store_then stays_upd_data stays_response : stays.
Hint Resolve silent_get_data silent_fail_response silent_atoq silent_of_check silent_below silent_item_enum : silent.

Lemma stays_item_int t keys path v add : stays env_stays (item_int config_map t keys path v add).
Proof. unfold item_int. stays_solve. Qed.
Lemma stays_keep_int key t f path v add : stays env_stays (keep_int (M:=M) key t f path v add).
Proof. unfold keep_int. stays_solve. Qed.
Lemma stays_keep_string key f path v add : stays env_stays (keep_string (M:=M) key f path v add).
Proof. unfold keep_string. stays_solve. Qed.
Lemma stays_store_id p id : stays env_stays (store_id config_map p id).
Proof. unfold store_id. stays_solve. Qed.
Lemma stays_if_string name v f : stays env_stays (if_string config_map name v f).
Proof. unfold if_string. stays_solve. Qed.
Lemma stays_if_int name t v : stays env_stays (if_int config_map name t v).
Proof. unfold if_int. stays_solve. Qed.
Lemma stays_if_members i l : stays env_stays (if_members config_map i l).
Proof. revert i. induction l as [|[k v] l IH]; intros i; cbn [if_members]; stays_solve; apply IH. Qed.
Lemma stays_log_items name l : stays env_stays (log_items config_map name l).
Proof. induction l as [|[k v] l IH]; cbn [log_items]; stays_solve; apply IH. Qed.
Lemma stays_determine lookup c w f r : stays env_stays (determine (M:=M) strerror lookup c w f r).
Proof. unfold determine. stays_solve. Qed.
Hint Resolve stays_item_int stays_keep_int stays_keep_string stays_store_id stays_if_string stays_if_int stays_if_members stays_log_items stays_determine : stays.

Lemma stays_item_uidgid path v : stays env_stays (item_uidgid config_map getpwnam getgrnam strerror path v).
Proof. unfold item_uidgid, uid_determine, gid_determine. stays_solve. Qed.
Lemma stays_item_totem path v : stays env_stays (item_totem config_map knet path v).
Proof. unfold item_totem, str_to_ull_error, str_to_dscp_error, handle_crypto_model, handle_crypto_cipher, handle_crypto_hash, handle_compress_model. stays_solve. Qed.
Lemma stays_item_interface path v : stays env_stays (item_interface (M:=M) path v).
Proof. unfold item_interface. stays_solve. Qed.
Hint Resolve stays_item_uidgid stays_item_totem stays_item_interface : stays.

Lemma stays_config_item st path key v : stays env_stays (config_item config_map knet getpwnam getgrnam strerror st path key v).
Proof.
  unfold config_item, item_pload, item_quorum, item_qdevice, item_system, item_logger_subsys, item_logging_daemon, item_member, item_nodelist_node,
    item_resources, item_poll_period, str_to_ull_error. stays_solve.
Qed.
Lemma stays_section_start path st : stays env_stays (config_section_start (M:=M) path st).
Proof. unfold config_section_start. stays_solve. Qed.
Lemma stays_section_end st path : stays env_stays (config_section_end config_map st path).
Proof. unfold config_section_end, end_interface, end_logger_subsys, end_logging_daemon. stays_solve. Qed.

Lemma of_act_stays {A} (m : act M A) ok st e r e' : stays env_stays m -> of_act m ok st e = Some (r, e') -> env_stays e e'.
Proof. intros H E. unfold of_act in E. apply bind_Some in E as ([x e1] & E & [= _ <-]). exact (H _ _ _ E). Qed.

Lemma main_cb_stays path key v st t e r e' : main_config_parser_cb config_map knet getpwnam getgrnam strerror path key v st t e = Some (r, e') -> env_stays e e'.
Proof.
  unfold main_config_parser_cb. destruct (Nat.leb _ _); [intros [= _ <-]; reflexivity|].
  destruct t; try (intros [= _ <-]; reflexivity); apply of_act_stays; auto using stays_upd_data, stays_config_item, stays_section_start, stays_section_end.
Qed.

Lemma uidgid_cb_stays path key v st t e r e' : uidgid_config_parser_cb config_map getpwnam getgrnam strerror path key v st t e = Some (r, e') -> env_stays e e'.
Proof.
  unfold uidgid_config_parser_cb. destruct t; try (intros [= _ <-]; reflexivity). apply of_act_stays, stays_item_uidgid.
Qed.

Lemma uidgid_entries_stay dirname l res err e r err' e' :
  read_uidgid_entries config_map getpwnam getgrnam strerror dirname l res err e = Some (r, err', e') -> env_stays e e'.
Proof.
  revert res err e. induction l as [|de l IH]; intros res err e H; cbn [read_uidgid_entries] in H; [injection H as _ _ <-; reflexivity|].
  destruct (_ && _); [|exact (IH _ _ _ H)]. destruct (de_file de) as [file|]; [|exact (IH _ _ _ H)].
  apply bind_Some in H as ([x p] & E & H). pose proof (parse_section_stays _ _ env_stays uidgid_cb_stays _ _ _ _ _ E) as W.
  destruct x; [injection H as _ _ <-; exact W | transitivity (p_data p); [exact W | exact (IH _ _ _ H)]].
Qed.

(** The whole parser changes the map as its stores do. *)
Lemma configparse_stays filename dirname file entries e r err e' :
  coroparse_configparse config_map knet getpwnam getgrnam strerror filename dirname file entries e = Some (r, err, e') -> R (cp_map e) (cp_map e').
Proof.
  unfold coroparse_configparse, read_config_file_into_icmap. intros ([[x y] e1] & E & [= _ _ <-])%bind_Some.
  destruct file as [n|file]; [injection E as _ _ <-; reflexivity|]. apply bind_Some in E as ([z p] & E & H).
  pose proof (parse_section_stays _ _ env_stays main_cb_stays _ _ _ _ _ E) as W. destruct z; [injection H as _ _ <-; exact W|].
  apply bind_Some in H as ([[res er] e2] & E2 & H). transitivity (cp_map (p_data p)); [exact W|].
  assert (W2 : env_stays (p_data p) e2).
  { unfold read_uidgid_files_into_icmap in E2. destruct entries as [l|]; [exact (uidgid_entries_stay _ _ _ _ _ _ _ _ E2) | injection E2 as _ _ <-; reflexivity]. }
  destruct (res =? 0); injection H as _ _ <-; exact W2.
Qed.

End Callbacks.
