(* ===== verification/TotemIp.v ===== *)
(** * Addresses (exec/totemip.c)

    An address is the family, sixteen bytes and the id of the node; an IPv4 address
    uses the first four bytes.  The resolver, the conversion between addresses and
    text and the list of the network interfaces are parameters. *)
From S2P Require Import Prelude CString Endian Cpg Icmap.

Definition AF_UNSPEC : Z := 0.
Definition AF_INET : Z := 2.
Definition AF_INET6 : Z := 10.
Definition TOTEMIP_ADDRLEN : nat := 16.
Definition INET6_ADDRSTRLEN : nat := 46.

Record totem_ip_address := mk_ip { ip_nodeid : Z; ip_family : Z; ip_addr : list Z }.
#[export] Instance totem_ip_eta : Etable totem_ip_address := fun a => mk_ip (ip_nodeid a) (ip_family a) (ip_addr a).
#[export] Instance totem_ip_eq : EqDecision totem_ip_address.
Proof. solve_decision. Defined.

Definition empty_ip_address : totem_ip_address := mk_ip 0 0 (repeat 0 TOTEMIP_ADDRLEN).

Inductive totem_ip_version_enum := TOTEM_IP_VERSION_4 | TOTEM_IP_VERSION_6 | TOTEM_IP_VERSION_4_6 | TOTEM_IP_VERSION_6_4.
#[export] Instance ip_version_eq : EqDecision totem_ip_version_enum.
Proof. solve_decision. Defined.

(** What a [sockaddr_in] or [sockaddr_in6] holds; the port is in network order. *)
Record sockaddr := mk_sockaddr { sa_family : Z; sa_port : Z; sa_addr : list Z; sa_scope_id : Z }.
#[export] Instance sockaddr_eq : EqDecision sockaddr.
Proof. solve_decision. Defined.

(** The bytes of an address of a family; 0: not an internet family. *)
Definition addr_len (family : Z) : nat := if family =? AF_INET then 4 else if family =? AF_INET6 then 16 else 0.

(** [memcmp (a, b, n) == 0] *)
Definition memcmp_eq (n : nat) (a b : list Z) : bool := bool_decide (take n a = take n b).

(** ** Comparing *)

(** [None]: the assertion on the family fails. *)
Definition totemip_equal (addr1 addr2 : totem_ip_address) : option bool :=
  if negb (ip_family addr1 =? ip_family addr2) then Some false
  else if Nat.eqb (addr_len (ip_family addr1)) 0 then None
  else Some (memcmp_eq (addr_len (ip_family addr1)) (ip_addr addr1) (ip_addr addr2)).

Definition totemip_sa_equal (totem_ip : totem_ip_address) (sa : sockaddr) : option bool :=
  if negb (ip_family totem_ip =? sa_family sa) then Some false
  else if Nat.eqb (addr_len (ip_family totem_ip)) 0 then None
  else Some (memcmp_eq (addr_len (ip_family totem_ip)) (ip_addr totem_ip) (sa_addr sa)).

Definition totemip_copy (addr2 : totem_ip_address) : totem_ip_address := addr2.

(** Bytes as a number, the first one the highest. *)
Definition be_value (l : list Z) : Z := foldl (fun acc b => acc * 256 + b) 0 l.

(** 0: a multicast address; every IPv6 address passes. *)
Definition totemip_is_mcast (ip : totem_ip_address) : Z :=
  if (ip_family ip =? AF_INET) && negb (Z.shiftr (be_value (take 4 (ip_addr ip))) 28 =? 14) then -1 else 0.

(** The first difference of two lists of bytes. *)
Fixpoint bytes_compare (n : nat) (a b : list Z) : Z :=
  match n, a, b with
  | S n, x :: a, y :: b => if c_true (x - y) then x - y else bytes_compare n a b
  | _, _, _ => 0
  end.

Definition totemip_compare (a b : totem_ip_address) : option Z :=
  if ip_family a =? AF_INET then
    let x := be_value (take 4 (ip_addr a)) in
    let y := be_value (take 4 (ip_addr b)) in
    Some (if x =? y then 0 else if x <? y then -1 else 1)
  else if ip_family a =? AF_INET6 then Some (bytes_compare 16 (ip_addr a) (ip_addr b))
  else None.

(** Copies bytes over the first ones. *)
Definition overlay (new old : list Z) : list Z := new ++ drop (length new) old.

(** ** Conversion *)

Definition ntohs (port : Z) : Z := swab16 port.

(** The address and its length; [None]: the result is -1. *)
Definition totemip_totemip_to_sockaddr_convert (ip : totem_ip_address) (port : Z) : option (sockaddr * nat) :=
  if ip_family ip =? AF_INET then Some (mk_sockaddr AF_INET (ntohs port) (take 4 (ip_addr ip)) 0, 16%nat)
  else if ip_family ip =? AF_INET6 then Some (mk_sockaddr AF_INET6 (ntohs port) (take 16 (ip_addr ip)) 2, 28%nat)
  else None.

(** The result and the address, which is written over [ip]. *)
Definition totemip_sockaddr_to_totemip_convert (saddr : sockaddr) (ip : totem_ip_address) : Z * totem_ip_address :=
  let ip := ip <| ip_family := sa_family saddr |> <| ip_nodeid := 0 |> in
  if Nat.eqb (addr_len (sa_family saddr)) 0 then (-1, ip)
  else (0, ip <| ip_addr ::= overlay (take (addr_len (sa_family saddr)) (sa_addr saddr)) |>).

Definition totemip_udpip_header_size (family : Z) : Z :=
  if family =? AF_INET then 8 + 20 else if family =? AF_INET6 then 8 + 40 else 0.

Definition totemip_zero_set (a : totem_ip_address) : totem_ip_address := a <| ip_family := 0 |>.
Definition totemip_zero_check (a : totem_ip_address) : bool := ip_family a =? 0.

(** ** Names *)

(** An interface of the system: [None] for a missing address; a mask of family 0 is
    taken to have the family of the address. *)
Record ifaddrs := mk_ifaddrs { ifa_name : string; ifa_up : bool; ifa_addr : option sockaddr; ifa_netmask : option sockaddr }.

Record net_env := mk_net_env {
  (** [getaddrinfo (name, NULL, hints of the family)] *)
  getaddrinfo : string -> Z -> option (list sockaddr);
  inet_ntop : Z -> list Z -> option string;
  inet_pton : Z -> string -> option (list Z);
  getifaddrs : option (list ifaddrs);
  if_nametoindex : string -> Z;
  (** [getnameinfo (sa, salen, ..., flags)]; [true]: numeric *)
  getnameinfo : sockaddr -> nat -> bool -> option string;
  (** the name of [uname] *)
  uname : option string
}.

Section Names.
Context (net : net_env).

Definition totemip_print (addr : totem_ip_address) : option string := inet_ntop net (ip_family addr) (ip_addr addr).

(** [None]: NULL; a failed conversion leaves the empty string. *)
Definition totemip_sa_print (sa : sockaddr) : option string :=
  if Nat.eqb (addr_len (sa_family sa)) 0 then None else Some (default ""%string (inet_ntop net (sa_family sa) (sa_addr sa))).

(** The id of the localhost address is the number in its bytes, lowest first. *)
Definition totemip_localhost (family : Z) : Z * totem_ip_address :=
  if family =? AF_INET then
    match inet_pton net family "127.0.0.1" with
    | None => (-1, empty_ip_address)
    | Some a => (0, mk_ip (le_value a) family (overlay a (ip_addr empty_ip_address)))
    end
  else
    match inet_pton net family "::1" with
    | None => (-1, empty_ip_address)
    | Some a => (0, mk_ip 0 family (overlay a (ip_addr empty_ip_address)))
    end.

Definition totemip_localhost_check (addr : totem_ip_address) : option bool :=
  let '(res, localhost) := totemip_localhost (ip_family addr) in
  if c_true res then Some false else totemip_equal addr localhost.

(** The first result of a family. *)
Definition first_of (family : Z) (l : list sockaddr) : option sockaddr :=
  match list_find (fun a => sa_family a = family) l with Some (_, a) => Some a | None => None end.

(** [a], or [b] when there is none. *)
Definition prefer {A} (a b : option A) : option A := match a with Some _ => a | None => b end.

(** The result that the version chooses. *)
Definition ainfo_final (ip_version : totem_ip_version_enum) (addr : string) : option sockaddr :=
  match ip_version with
  | TOTEM_IP_VERSION_4 => l ← getaddrinfo net addr AF_INET; head l
  | TOTEM_IP_VERSION_6 => l ← getaddrinfo net addr AF_INET6; head l
  | TOTEM_IP_VERSION_6_4 => l ← getaddrinfo net addr AF_UNSPEC; prefer (first_of AF_INET6 l) (first_of AF_INET l)
  | TOTEM_IP_VERSION_4_6 => l ← getaddrinfo net addr AF_UNSPEC; prefer (first_of AF_INET l) (first_of AF_INET6 l)
  end.

(** The address is written over [totemip]: its id, and the bytes behind an IPv4
    address, stay as they are.  [None]: the result is -1. *)
Definition totemip_parse (totemip : totem_ip_address) (addr : string) (ip_version : totem_ip_version_enum) : option totem_ip_address :=
  a ← ainfo_final ip_version addr;
  Some (totemip <| ip_family := sa_family a |>
                <| ip_addr ::= overlay (take (if sa_family a =? AF_INET then 4 else 16) (sa_addr a)) |>).

(** ** Network interfaces *)

Record totem_ip_if_address := mk_if_address {
  if_ip_addr : totem_ip_address;
  if_mask_addr : totem_ip_address;
  interface_up : bool;
  interface_num : Z;
  if_name : string
}.

Definition inet_family (family : Z) : bool := (family =? AF_INET) || (family =? AF_INET6).

(** An interface that is looked at, with its address and mask. *)
Definition usable_if (ifa : ifaddrs) : option (sockaddr * sockaddr) :=
  match ifa_addr ifa, ifa_netmask ifa with
  | Some a, Some m =>
      if inet_family (sa_family a) && (inet_family (sa_family m) || (sa_family m =? 0))
      then Some (a, if sa_family m =? 0 then mk_sockaddr (sa_family a) (sa_port m) (sa_addr m) (sa_scope_id m) else m)
      else None
  | _, _ => None
  end.

(** The memory of an entry is cleared before the addresses are converted. *)
Definition if_address (ifa : ifaddrs) (a m : sockaddr) : totem_ip_if_address :=
  mk_if_address (snd (totemip_sockaddr_to_totemip_convert a empty_ip_address)) (snd (totemip_sockaddr_to_totemip_convert m empty_ip_address))
    (ifa_up ifa) (if_nametoindex net (ifa_name ifa)) (ifa_name ifa).

Definition totemip_getifaddrs : option (list totem_ip_if_address) :=
  l ← getifaddrs net;
  Some (omap (fun ifa => match usable_if ifa with Some (a, m) => Some (if_address ifa a m) | None => None end) (l : list ifaddrs)).

(** The bytes of an address under a mask. *)
Definition masked (a mask : totem_ip_address) (n : nat) : totem_ip_address :=
  a <| ip_addr := overlay (zip_with Z.land (take n (ip_addr a)) (take n (ip_addr mask))) (ip_addr a) |>.

Record iface_state := mk_iface { if_res : Z; if_boundto : totem_ip_address; if_up : bool; if_num : Z; if_net_match : bool }.

(** [inl]: go on with the next interface; [inr]: an exact match, finished. *)
Definition iface_check_step (bindnet : totem_ip_address) (a : totem_ip_if_address) (st : iface_state) : option (iface_state + iface_state) :=
  if negb (ip_family bindnet =? ip_family (if_ip_addr a)) then Some (inl st)
  else
    let n := addr_len (ip_family bindnet) in
    if Nat.eqb n 0 then Some (inl st)
    else
      exact ← totemip_equal bindnet (if_ip_addr a);
      net_eq ← totemip_equal (masked bindnet (if_mask_addr a) n) (masked (if_ip_addr a) (if_mask_addr a) n);
      let bound := mk_iface 0 (if_ip_addr a <| ip_nodeid := ip_nodeid bindnet |>) (interface_up a) (interface_num a) true in
      Some (if (exact : bool) then inr bound
            else if negb (if_net_match st) && net_eq then inl bound else inl st).

Fixpoint iface_check_loop (bindnet : totem_ip_address) (l : list totem_ip_if_address) (st : iface_state) : option iface_state :=
  match l with
  | [] => Some st
  | a :: l => r ← iface_check_step bindnet a st; match r with inl st => iface_check_loop bindnet l st | inr st => Some st end
  end.

(** The result with the address found, whether its interface is up, and its number. *)
Definition totemip_iface_check (bindnet boundto : totem_ip_address) : option iface_state :=
  match totemip_getifaddrs with
  | None => Some (mk_iface (-1) boundto false 0 false)
  | Some l => iface_check_loop bindnet l (mk_iface (-1) boundto false 0 false)
  end.

End Names.

(** ** Correctness *)

(** What the interfaces are searched for: the address itself, or one of its network. *)
Definition exact_match (bindnet : totem_ip_address) (a : totem_ip_if_address) : Prop :=
  totemip_equal bindnet (if_ip_addr a) = Some true.
Definition net_match (bindnet : totem_ip_address) (a : totem_ip_if_address) : Prop :=
  let n := addr_len (ip_family bindnet) in
  ip_family bindnet = ip_family (if_ip_addr a) /\
  totemip_equal (masked bindnet (if_mask_addr a) n) (masked (if_ip_addr a) (if_mask_addr a) n) = Some true.
#[export] Instance exact_match_dec b a : Decision (exact_match b a).
Proof. unfold exact_match. apply _. Defined.
#[export] Instance net_match_dec b a : Decision (net_match b a).
Proof. unfold net_match. apply _. Defined.

Definition found_if (bindnet : totem_ip_address) (a : totem_ip_if_address) : iface_state :=
  mk_iface 0 (if_ip_addr a <| ip_nodeid := ip_nodeid bindnet |>) (interface_up a) (interface_num a) true.

(** The interface that should be bound: an exact match, else the first of the network. *)
Definition best_if (bindnet : totem_ip_address) (l : list totem_ip_if_address) : option totem_ip_if_address :=
  prefer (snd <$> list_find (exact_match bindnet) l) (snd <$> list_find (net_match bindnet) l).

Section Search.
Context (bindnet : totem_ip_address) (inet : inet_family (ip_family bindnet) = true).

Lemma inet_addr_len : Nat.eqb (addr_len (ip_family bindnet)) 0 = false.
Proof. unfold inet_family, addr_len in *. destruct (_ =? AF_INET); [reflexivity|]. cbn in inet. now rewrite inet. Qed.

Lemma totemip_equal_defined a : ip_family a = ip_family bindnet -> forall a', exists b, totemip_equal a a' = Some b.
Proof.
  intros F a'. unfold totemip_equal. destruct (negb _); [now exists false|]. rewrite F, inet_addr_len. eauto.
Qed.

(** One interface of the search. *)
Lemma iface_check_step_spec a st :
  iface_check_step bindnet a st = Some
    (if decide (exact_match bindnet a) then inr (found_if bindnet a)
     else inl (if decide (net_match bindnet a) then (if if_net_match st then st else found_if bindnet a) else st)).
Proof.
  unfold iface_check_step. pose proof inet_addr_len as L.
  destruct (Z.eqb_spec (ip_family bindnet) (ip_family (if_ip_addr a))) as [F|N]; cbn [negb].
  - rewrite L. destruct (totemip_equal_defined bindnet eq_refl (if_ip_addr a)) as [e E].
    set (m := masked bindnet (if_mask_addr a) (addr_len (ip_family bindnet))).
    set (m' := masked (if_ip_addr a) (if_mask_addr a) (addr_len (ip_family bindnet))).
    destruct (totemip_equal_defined m eq_refl m') as [n En]. rewrite E, En. cbn [mbind option_bind].
    rewrite (decide_ext (exact_match bindnet a) (e = true)) by (unfold exact_match; rewrite E; naive_solver).
    rewrite (decide_ext (net_match bindnet a) (n = true)) by (unfold net_match; fold m m'; rewrite En; naive_solver).
    destruct e, n, (if_net_match st); reflexivity.
  - rewrite !decide_False; [reflexivity | unfold net_match; tauto|]. unfold exact_match, totemip_equal.
    destruct (Z.eqb_spec (ip_family bindnet) (ip_family (if_ip_addr a))); [easy|]. cbn. congruence.
Qed.

Lemma iface_check_loop_spec l st :
  iface_check_loop bindnet l st = Some
    (match list_find (exact_match bindnet) l with
     | Some (_, a) => found_if bindnet a
     | None => if if_net_match st then st
               else match list_find (net_match bindnet) l with Some (_, a) => found_if bindnet a | None => st end
     end).
Proof.
  revert st. induction l as [|a l IH]; intros st; cbn [iface_check_loop]; [now destruct (if_net_match st)|].
  rewrite iface_check_step_spec. cbn [mbind option_bind list_find].
  case_decide as De; [reflexivity|]. rewrite IH. clear IH.
  destruct (list_find (exact_match bindnet) l) as [[i b]|]; cbn; [reflexivity|].
  case_decide as Dn; destruct (if_net_match st) eqn:Em; cbn; rewrite ?Em; try reflexivity.
  now destruct (list_find (net_match bindnet) l) as [[i b]|].
Qed.

End Search.

(** The search for the interface of [bindnetaddr] finds the interface with exactly
    that address if there is one, wherever it is in the list, and else the first
    one of its network; otherwise it fails and leaves the result alone. *)
Theorem iface_check_finds_best net bindnet boundto l :
  inet_family (ip_family bindnet) = true ->
  totemip_getifaddrs net = Some l ->
  totemip_iface_check net bindnet boundto = Some
    (match best_if bindnet l with Some a => found_if bindnet a | None => mk_iface (-1) boundto false 0 false end).
Proof.
  intros Hf Hl. unfold totemip_iface_check. rewrite Hl, iface_check_loop_spec by exact Hf. cbn. unfold best_if, prefer.
  destruct (list_find (exact_match bindnet) l) as [[i a]|]; [reflexivity|]. cbn.
  now destruct (list_find (net_match bindnet) l) as [[i a]|].
Qed.
