(* ===== verification/TotemConfig.v ===== *)
(** * The configuration of totem: parameters (exec/totemconfig.c)

    [struct totem_config], the parameters that can change while the program runs
    ([totem_volatile_config_read], [totem_volatile_config_validate]) and the choice
    of the cipher.

    The functions are programs over the structure and the configuration map.
    Timeouts are derived with floating point numbers as the code does it, in IEEE
    double and single precision.  What the build and libknet define, the resolver
    and the files are parameters. *)
From stdpp Require Import pretty.
From Stdlib Require Import Floats.SpecFloat.
From S2P Require Import Prelude ErrMonad CString VoteQuorumExec Cpg Icmap Util TotemIp.

Local Open Scope string_scope.
Local Open Scope Z_scope.

Definition INTERFACE_MAX : nat := 8.
Definition PROCESSOR_COUNT_MAX : nat := 384.
Definition CONFIG_STRING_LEN_MAX : nat := 128.
Definition TOTEM_LINK_MODE_BYTES : Z := 64.

Definition TOKEN_RETRANSMITS_BEFORE_LOSS_CONST : Z := 4.
Definition TOKEN_TIMEOUT : Z := 3000.
Definition TOKEN_WARNING : Z := 75.
Definition TOKEN_COEFFICIENT : Z := 650.
Definition JOIN_TIMEOUT : Z := 50.
Definition MERGE_TIMEOUT : Z := 200.
Definition DOWNCHECK_TIMEOUT : Z := 1000.
Definition FAIL_TO_RECV_CONST : Z := 2500.
Definition SEQNO_UNCHANGED_CONST : Z := 30.
Definition MAX_NETWORK_DELAY : Z := 50.
Definition WINDOW_SIZE : Z := 50.
Definition MAX_MESSAGES : Z := 17.
Definition MISS_COUNT_CONST : Z := 5.
Definition BLOCK_UNLISTED_IPS : Z := 1.
Definition CANCEL_TOKEN_HOLD_ON_RETRANSMIT : Z := 0.
Definition UDP_NETMTU : Z := 1500.
Definition KNET_PING_PRECISION : Z := 2048.
Definition KNET_PONG_COUNT : Z := 2.
Definition KNET_PMTUD_INTERVAL : Z := 30.
Definition KNET_MTU : Z := 0.
Definition DEFAULT_PORT : Z := 5405.

(** ** What the build and libknet define *)

Record build_env := mk_build {
  HZ : Z;
  enable_udpu : bool;
  be_unencrypted : bool;
  KNET_MAX_HOST : Z;
  KNET_MAX_PACKET_SIZE : Z;
  KNET_TRANSPORT_UDP : Z;
  (** [None]: not defined *)
  KNET_TRANSPORT_SCTP : option Z;
  TOTEM_PRIVATE_KEY_LEN_MIN : nat;
  TOTEM_PRIVATE_KEY_LEN_MAX : nat;
  COROSYSCONFDIR : string
}.

Inductive totem_transport_t := TOTEM_TRANSPORT_UDP | TOTEM_TRANSPORT_UDPU | TOTEM_TRANSPORT_KNET.
#[export] Instance transport_eq : EqDecision totem_transport_t.
Proof. solve_decision. Defined.

(** ** The structures *)

Record totem_interface := mk_interface {
  bindnet : totem_ip_address;
  boundto : totem_ip_address;
  mcast_addr : totem_ip_address;
  local_ip : totem_ip_address;
  ip_port : Z;
  ttl : Z;
  configured : bool;
  member_count : Z;
  knet_link_priority : Z;
  knet_ping_interval : Z;
  knet_ping_timeout : Z;
  knet_ping_precision : Z;
  knet_pong_count : Z;
  knet_transport : Z;
  member_list : list totem_ip_address
}.
#[export] Instance interface_eta : Etable totem_interface := fun i =>
  mk_interface (bindnet i) (boundto i) (mcast_addr i) (local_ip i) (ip_port i) (ttl i) (configured i) (member_count i)
    (knet_link_priority i) (knet_ping_interval i) (knet_ping_timeout i) (knet_ping_precision i) (knet_pong_count i)
    (knet_transport i) (member_list i).

Definition zero_interface : totem_interface :=
  mk_interface empty_ip_address empty_ip_address empty_ip_address empty_ip_address 0 0 false 0 0 0 0 0 0 0
    (repeat empty_ip_address PROCESSOR_COUNT_MAX).

Record totem_config := mk_totem_conf {
  version : Z;
  interfaces : list totem_interface;
  orig_interfaces : list totem_interface;
  node_id : Z;
  clear_node_high_bit : bool;
  knet_pmtud_interval : Z;
  knet_mtu : Z;
  private_key : list Z;
  private_key_len : nat;
  token_timeout : Z;
  token_warning : Z;
  token_retransmit_timeout : Z;
  token_hold_timeout : Z;
  token_retransmits_before_loss_const : Z;
  join_timeout : Z;
  send_join_timeout : Z;
  consensus_timeout : Z;
  merge_timeout : Z;
  downcheck_timeout : Z;
  fail_to_recv_const : Z;
  seqno_unchanged_const : Z;
  link_mode : string;
  net_mtu : Z;
  threads : Z;
  heartbeat_failures_allowed : Z;
  max_network_delay : Z;
  window_size : Z;
  max_messages : Z;
  broadcast_use : bool;
  crypto_model : string;
  crypto_cipher_type : string;
  crypto_hash_type : string;
  crypto_index : Z;
  crypto_changed : bool;
  knet_compression_model : string;
  knet_compression_threshold : Z;
  knet_compression_level : Z;
  transport_number : totem_transport_t;
  miss_count_const : Z;
  ip_version : totem_ip_version_enum;
  block_unlisted_ips : Z;
  cancel_token_hold_on_retransmit : Z;
  ip_dscp : Z
}.
#[export] Instance totem_conf_eta : Etable totem_config := fun c =>
  mk_totem_conf (version c) (interfaces c) (orig_interfaces c) (node_id c) (clear_node_high_bit c) (knet_pmtud_interval c) (knet_mtu c)
    (private_key c) (private_key_len c) (token_timeout c) (token_warning c) (token_retransmit_timeout c) (token_hold_timeout c)
    (token_retransmits_before_loss_const c) (join_timeout c) (send_join_timeout c) (consensus_timeout c) (merge_timeout c)
    (downcheck_timeout c) (fail_to_recv_const c) (seqno_unchanged_const c) (link_mode c) (net_mtu c) (threads c)
    (heartbeat_failures_allowed c) (max_network_delay c) (window_size c) (max_messages c) (broadcast_use c) (crypto_model c)
    (crypto_cipher_type c) (crypto_hash_type c) (crypto_index c) (crypto_changed c) (knet_compression_model c)
    (knet_compression_threshold c) (knet_compression_level c) (transport_number c) (miss_count_const c) (ip_version c)
    (block_unlisted_ips c) (cancel_token_hold_on_retransmit c) (ip_dscp c).

(** The structure after [memset]; the interfaces are an allocated array. *)
Definition zero_totem_config (key_len_max : nat) : totem_config :=
  mk_totem_conf 0 (repeat zero_interface INTERFACE_MAX) [] 0 false 0 0 (repeat 0 key_len_max) 0 0 0 0 0 0 0 0 0 0 0 0 0
    "" 0 0 0 0 0 0 false "" "" "" 0 false "" 0 0 TOTEM_TRANSPORT_UDP 0 TOTEM_IP_VERSION_4 0 0 0.

(** What is called in totempg. *)
Inductive totem_call :=
| TotempgMemberAdd (member : totem_ip_address) (ring_no : nat)
| TotempgMemberRemove (member : totem_ip_address) (ring_no : nat)
| TotempgIfaceSet (addr : totem_ip_address) (port : Z) (ring_no : nat)
| TotempgReconfigure.

Record tconf (M : Type) := mk_tconf { t_cfg : totem_config; t_map : icmap M; t_calls : list totem_call; t_warnings : Z }.
Arguments mk_tconf {M}.
Arguments t_cfg {M}.
Arguments t_map {M}.
Arguments t_calls {M}.
Arguments t_warnings {M}.
#[export] Instance tconf_eta M : Etable (tconf M) := fun s => mk_tconf (t_cfg s) (t_map s) (t_calls s) (t_warnings s).

(** ** Floating point *)

Definition dbl (z : Z) : spec_float := binary_normalize 53 1024 z 0 false.
Definition dbl_add := SFadd 53 1024.
Definition dbl_sub := SFsub 53 1024.
Definition dbl_mul := SFmul 53 1024.
Definition dbl_div := SFdiv 53 1024.

(** A double as a float. *)
Definition flt_of_dbl (x : spec_float) : spec_float :=
  match x with S754_finite s m e => binary_normalize 24 128 (cond_Zopp s (Zpos m)) e s | _ => x end.

(** [(int) x]: the integer part; undefined when it is not an [int]. *)
Definition int_of (x : spec_float) : option Z :=
  match x with
  | S754_zero _ => Some 0
  | S754_finite s m e =>
      let a := if 0 <=? e then Zpos m * 2 ^ e else Zpos m / 2 ^ (- e) in
      let v := if s then - a else a in
      if (- 2 ^ 31 <=? v) && (v <? 2 ^ 31) then Some v else None
  | _ => None
  end.

(** The literals 0.2, 0.8 and 1.2. *)
Definition d_0_2 : spec_float := dbl_div (dbl 1) (dbl 5).
Definition d_0_8 : spec_float := dbl_div (dbl 4) (dbl 5).
Definition d_1_2 : spec_float := dbl_div (dbl 6) (dbl 5).

Definition MINIMUM_TIMEOUT (env : build_env) : Z := (1000 / HZ env) * 3.
Definition MINIMUM_TIMEOUT_HOLD (env : build_env) : option Z :=
  int_of (dbl_sub (dbl_mul (dbl (MINIMUM_TIMEOUT env)) d_0_8) (dbl (1000 / HZ env))).

(** The timeouts that are derived from others. *)
Definition default_retransmit (token retransmits : Z) : option Z := int_of (dbl_div (dbl token) (dbl_add (dbl retransmits) d_0_2)).
Definition default_hold (env : build_env) (retransmit : Z) : option Z :=
  int_of (dbl_sub (dbl_mul (dbl retransmit) d_0_8) (dbl (1000 / HZ env))).
Definition default_consensus (token : Z) : option Z := int_of (flt_of_dbl (dbl_mul d_1_2 (dbl token))).

(** ** Parameters by name *)

(** Where a parameter is stored. *)
Inductive param :=
| IntParam (get : totem_config -> Z) (set : Z -> totem_config -> totem_config)
| StringParam.

Definition int_params : list (string * param) :=
  [("totem.token", IntParam token_timeout (fun v c => c <| token_timeout := v |>));
   ("totem.token_warning", IntParam token_warning (fun v c => c <| token_warning := v |>));
   ("totem.token_retransmit", IntParam token_retransmit_timeout (fun v c => c <| token_retransmit_timeout := v |>));
   ("totem.hold", IntParam token_hold_timeout (fun v c => c <| token_hold_timeout := v |>));
   ("totem.token_retransmits_before_loss_const",
     IntParam token_retransmits_before_loss_const (fun v c => c <| token_retransmits_before_loss_const := v |>));
   ("totem.join", IntParam join_timeout (fun v c => c <| join_timeout := v |>));
   ("totem.send_join", IntParam send_join_timeout (fun v c => c <| send_join_timeout := v |>));
   ("totem.consensus", IntParam consensus_timeout (fun v c => c <| consensus_timeout := v |>));
   ("totem.merge", IntParam merge_timeout (fun v c => c <| merge_timeout := v |>));
   ("totem.downcheck", IntParam downcheck_timeout (fun v c => c <| downcheck_timeout := v |>));
   ("totem.fail_recv_const", IntParam fail_to_recv_const (fun v c => c <| fail_to_recv_const := v |>));
   ("totem.seqno_unchanged_const", IntParam seqno_unchanged_const (fun v c => c <| seqno_unchanged_const := v |>));
   ("totem.heartbeat_failures_allowed", IntParam heartbeat_failures_allowed (fun v c => c <| heartbeat_failures_allowed := v |>));
   ("totem.max_network_delay", IntParam max_network_delay (fun v c => c <| max_network_delay := v |>));
   ("totem.window_size", IntParam window_size (fun v c => c <| window_size := v |>));
   ("totem.max_messages", IntParam max_messages (fun v c => c <| max_messages := v |>));
   ("totem.miss_count_const", IntParam miss_count_const (fun v c => c <| miss_count_const := v |>));
   ("totem.knet_pmtud_interval", IntParam knet_pmtud_interval (fun v c => c <| knet_pmtud_interval := v |>));
   ("totem.knet_mtu", IntParam knet_mtu (fun v c => c <| knet_mtu := v |>));
   ("totem.knet_compression_threshold", IntParam knet_compression_threshold (fun v c => c <| knet_compression_threshold := v |>));
   ("totem.knet_compression_level", IntParam knet_compression_level (fun v c => c <| knet_compression_level := v |>));
   ("totem.knet_compression_model", StringParam);
   ("totem.block_unlisted_ips", IntParam block_unlisted_ips (fun v c => c <| block_unlisted_ips := v |>));
   ("totem.cancel_token_hold_on_retransmit",
     IntParam cancel_token_hold_on_retransmit (fun v c => c <| cancel_token_hold_on_retransmit := v |>))].

Definition totem_get_param_by_name (param_name : string) : option param :=
  match list_find (fun x => fst x = param_name) int_params with Some (_, (_, p)) => Some p | None => None end.

(** ** Programs over the configuration *)

Section Volatile.
Context {M : Type} `{QB : qb_map M}.
Context (env : build_env) (net : net_env).
(** A program that reads and writes the configuration. *)
Definition tprog (A : Type) : Type := prog (tconf M) A.

Definition get_cfg : tprog totem_config := fun s => Some (inr (t_cfg s), s).
Definition upd_cfg (f : totem_config -> totem_config) : tprog unit := upd_state (fun s => s <| t_cfg ::= f |>).
Definition global_map : tprog Z := fun s => Some (inr (icmap_global_map (t_map s)), s).

(** The value read, when the result is [CS_OK]. *)
Definition read_map {A} (f : icmap M -> option (Z * option A)) : tprog (option A) := fun s =>
  '(_, v) ← f (t_map s); Some (inr v, s).
(** A store into the map whose result is not looked at. *)
Definition write_map (f : icmap M -> option (Z * icmap M)) : tprog unit := fun s =>
  '(_, m) ← f (t_map s); Some (inr tt, s <| t_map := m |>).
Definition iter_map (map : Z) (prefix : string) : tprog (list string) := fun s =>
  l ← icmap_iter_init_r map (Some prefix) (t_map s); Some (inr l, s).

Definition is_deleted (deleted_key : option string) (key_name : string) : bool := bool_decide (deleted_key = Some key_name).

(** [runtime.config.] and the name, when it fits. *)
Definition runtime_key (key_name : string) : option string :=
  if Z.of_nat ICMAP_KEYNAME_MAXLEN <=? strlen "runtime.config." + strlen key_name then None else Some ("runtime.config." +:+ key_name).

Definition store_runtime (key_name : string) (f : string -> icmap M -> option (Z * icmap M)) : tprog unit :=
  match runtime_key key_name with None => ret tt | Some k => write_map (f k) end.

(** The store of an integer parameter. *)
Definition int_param (key_name : string) : tprog (Z -> totem_config -> totem_config) :=
  match totem_get_param_by_name key_name with Some (IntParam _ set) => ret set | _ => fun _ => None end.

(** The default when there is no key, when it is deleted, or for a zero that is not
    allowed. *)
Definition chosen_value (v : option Z) (deleted : bool) (default_value : Z) (allow_zero_value : bool) : Z :=
  match v with
  | Some x => if deleted || negb allow_zero_value && (x =? 0) then default_value else x
  | None => default_value
  end.

Definition totem_volatile_config_set_uint32_value (map : Z) (key_name : string) (deleted_key : option string) (default_value : Z)
    (allow_zero_value : bool) : tprog unit :=
  v <-! read_map (icmap_get_uint32_r map key_name);!
  set <-! int_param key_name;!
  let x := chosen_value v (is_deleted deleted_key key_name) (u32 default_value) allow_zero_value in
  upd_cfg (set x);!
  store_runtime key_name (fun k => icmap_set_uint32_r map k x).

Definition totem_volatile_config_set_int32_value (map : Z) (key_name : string) (deleted_key : option string) (default_value : Z)
    (allow_zero_value : bool) : tprog unit :=
  v <-! read_map (icmap_get_int32_r map key_name);!
  set <-! int_param key_name;!
  let x := chosen_value v (is_deleted deleted_key key_name) default_value allow_zero_value in
  upd_cfg (set x);!
  store_runtime key_name (fun k => icmap_set_int32_r map k x).

(** [strncpy] fills the array without a NUL when the string is as long: the string
    in it then has no end. *)
Definition totem_volatile_config_set_string_value (map : Z) (key_name : string) (deleted_key : option string) (default_value : string) : tprog unit :=
  v <-! read_map (icmap_get_string_r map key_name);!
  p <-! lift (totem_get_param_by_name key_name);!
  let x := match v with Some x => if is_deleted deleted_key key_name then default_value else x | None => default_value end in
  assert_that (match p with StringParam => true | _ => false end);!
  assert_that (Nat.ltb (length (chars x)) CONFIG_STRING_LEN_MAX);!
  upd_cfg (fun c => c <| knet_compression_model := x |>);!
  store_runtime key_name (fun k => icmap_set_string_r map k (Some x)).

(** The map is not read for a deleted key. *)
Definition totem_volatile_config_set_boolean_value (map : Z) (key_name : string) (deleted_key : option string) (default_value : Z) : tprog unit :=
  v <-! (if is_deleted deleted_key key_name then ret None else read_map (icmap_get_string_r map key_name));!
  let val := match v with
             | Some str => if strcmp_eq str "yes" then 1 else if strcmp_eq str "no" then 0 else default_value
             | None => default_value
             end in
  match runtime_key key_name with
  | None => ret tt
  | Some k => set <-! int_param key_name;! upd_cfg (set (u32 val));! write_map (icmap_set_uint32_r map k (u32 val))
  end.

(** ** Reading the parameters *)

Definition first_member_count (c : totem_config) : option Z := i ← interfaces c !! 0%nat; Some (member_count i).

(** The token timeout grows with the number of nodes. *)
Definition scale_token (map : Z) : tprog unit :=
  c <-! get_cfg;!
  n <-! lift (first_member_count c);!
  when (2 <? n) (
    v <-! read_map (icmap_get_uint32_r map "totem.token_coefficient");!
    let t := u32 (token_timeout c + (n - 2) * default TOKEN_COEFFICIENT v) in
    upd_cfg (fun c => c <| token_timeout := t |>);!
    write_map (icmap_set_uint32_r map "runtime.config.totem.token" t)).

Definition totem_volatile_config_read (temp_map : Z) (deleted_key : option string) : tprog unit :=
  let set_uint32 key value allow_zero := totem_volatile_config_set_uint32_value temp_map key deleted_key value allow_zero in
  set_uint32 "totem.token_retransmits_before_loss_const" TOKEN_RETRANSMITS_BEFORE_LOSS_CONST false;!
  set_uint32 "totem.token" TOKEN_TIMEOUT false;!
  set_uint32 "totem.token_warning" TOKEN_WARNING true;!
  scale_token temp_map;!
  set_uint32 "totem.max_network_delay" MAX_NETWORK_DELAY false;!
  set_uint32 "totem.window_size" WINDOW_SIZE false;!
  set_uint32 "totem.max_messages" MAX_MESSAGES false;!
  set_uint32 "totem.miss_count_const" MISS_COUNT_CONST false;!
  set_uint32 "totem.knet_pmtud_interval" KNET_PMTUD_INTERVAL false;!
  set_uint32 "totem.knet_mtu" KNET_MTU false;!
  c <-! get_cfg;!
  retransmit <-! lift (default_retransmit (token_timeout c) (token_retransmits_before_loss_const c));!
  set_uint32 "totem.token_retransmit" retransmit false;!
  c <-! get_cfg;!
  hold <-! lift (default_hold env (token_retransmit_timeout c));!
  set_uint32 "totem.hold" hold false;!
  set_uint32 "totem.join" JOIN_TIMEOUT false;!
  c <-! get_cfg;!
  consensus <-! lift (default_consensus (token_timeout c));!
  set_uint32 "totem.consensus" consensus false;!
  set_uint32 "totem.merge" MERGE_TIMEOUT false;!
  set_uint32 "totem.downcheck" DOWNCHECK_TIMEOUT false;!
  set_uint32 "totem.fail_recv_const" FAIL_TO_RECV_CONST false;!
  set_uint32 "totem.seqno_unchanged_const" SEQNO_UNCHANGED_CONST false;!
  set_uint32 "totem.send_join" 0 true;!
  set_uint32 "totem.heartbeat_failures_allowed" 0 true;!
  set_uint32 "totem.knet_compression_threshold" 0 true;!
  totem_volatile_config_set_int32_value temp_map "totem.knet_compression_level" deleted_key 0 true;!
  totem_volatile_config_set_string_value temp_map "totem.knet_compression_model" deleted_key "none";!
  totem_volatile_config_set_boolean_value temp_map "totem.block_unlisted_ips" deleted_key BLOCK_UNLISTED_IPS;!
  totem_volatile_config_set_boolean_value temp_map "totem.cancel_token_hold_on_retransmit" deleted_key CANCEL_TOKEN_HOLD_ON_RETRANSMIT.

(** ** Validation *)

Definition newline : string := String "010"%char EmptyString.

Definition config_error {A} (reason : string) : tprog A :=
  fail (snprintf 768 ("parse error in config: " +:+ snprintf 512 reason +:+ newline)).

(** [%d] of an [unsigned int] *)
Definition pd (v : Z) : string := pretty (s32 v).

Definition too_small (name : string) (v min : Z) : string :=
  "The " +:+ name +:+ " parameter (" +:+ pd v +:+ " ms) may not be less than (" +:+ pd min +:+ " ms).".

(** An [unsigned int] is compared with the [int] as an [unsigned int]. *)
Definition check_min (name : string) (v min : Z) : tprog unit := when (v <? u32 min) (config_error (too_small name v min)).

Definition check_timeouts (temp_map : Z) : tprog unit :=
  c <-! get_cfg;!
  let min := MINIMUM_TIMEOUT env in
  min_hold <-! lift (MINIMUM_TIMEOUT_HOLD env);!
  check_min "max_network_delay" (max_network_delay c) min;!
  check_min "token timeout" (token_timeout c) min;!
  when ((100 <? token_warning c) || (token_warning c <? 0)) (config_error (
    "The token warning parameter (" +:+ pd (token_warning c) +:+ "%) must be between 0 (disabled) and 100."));!
  when (token_retransmit_timeout c <? u32 min) (
    v <-! read_map (icmap_get_uint32_r temp_map "totem.token_retransmit");!
    config_error (match v with
                 | Some _ => too_small "token retransmit timeout" (token_retransmit_timeout c) min
                 | None => "Not appropriate token or token_retransmits_before_loss_const value set"
                 end));!
  check_min "token hold timeout" (token_hold_timeout c) min_hold;!
  check_min "join timeout" (join_timeout c) min;!
  check_min "consensus timeout" (consensus_timeout c) min;!
  when (consensus_timeout c <? join_timeout c) (config_error (
    "The consensus timeout parameter (" +:+ pd (consensus_timeout c) +:+ " ms) may not be less than join timeout ("
      +:+ pd (join_timeout c) +:+ " ms)."));!
  check_min "merge timeout" (merge_timeout c) min;!
  check_min "downcheck timeout" (downcheck_timeout c) min.

Definition configured_ifs (c : totem_config) : list totem_interface := List.filter configured (interfaces c).

(** With several links the nodes have names and every link has all nodes. *)
Definition check_links (temp_map : Z) : tprog unit :=
  c <-! get_cfg;!
  match configured_ifs c with
  | first :: _ :: _ =>
      for_each (seq 0 (Z.to_nat (member_count first))) (fun i =>
        v <-! read_map (icmap_get_string_r temp_map (snprintf ICMAP_KEYNAME_MAXLEN ("nodelist.node." +:+ pretty (Z.of_nat i) +:+ ".name")));!
        match v with
        | None => config_error "for a multi-link configuration, all nodes must have a 'name' attribute"
        | Some _ => ret tt
        end);!
      for_each (configured_ifs c) (fun i =>
        when (negb (member_count i =? member_count first)) (config_error "Not all nodes have the same number of links"))
  | _ => ret tt
  end.

(** [memcpy] of the text crashes when there is none. *)
Definition check_family (i : nat) (m first : totem_ip_address) : tprog unit :=
  when (negb (ip_family m =? ip_family first)) (
    a <-! lift (totemip_print net m);!
    config_error ("Nodes for link " +:+ pretty (Z.of_nat i) +:+ " have different IP families (compared " +:+ a +:+ " with "
      +:+ default "(null)" (totemip_print net first) +:+ ")")).

Definition check_families : tprog unit :=
  c <-! get_cfg;!
  for_each (seq 0 INTERFACE_MAX) (fun i =>
    f <-! lift (interfaces c !! i);!
    for_each (seq 1 (Z.to_nat (member_count f) - 1)) (fun j =>
      when (configured f) (
        m <-! lift (member_list f !! j);!
        first <-! lift (member_list f !! 0%nat);!
        check_family i m first))).

Definition totem_volatile_config_validate (temp_map : Z) : tprog unit :=
  check_timeouts temp_map;! check_links temp_map;! check_families.

(** ** The cipher *)

(** The value, when it is one of the known ones. *)
Definition known_or (v : option string) (l : list string) (old : string) : string :=
  match v with Some x => if existsb (strcmp_eq x) l then x else old | None => old end.

(** [strncpy] into an array whose last byte is then cleared. *)
Definition config_string (x : string) : string := str (take (CONFIG_STRING_LEN_MAX - 1) (chars x)).

Definition totem_get_crypto (map : Z) : tprog unit :=
  model <-! read_map (icmap_get_string_r map "totem.crypto_model");!
  let tmp_model := default "nss" model in
  secauth <-! read_map (icmap_get_string_r map "totem.secauth");!
  let '(tmp_hash, tmp_cipher) :=
    match secauth with
    | Some s => if strcmp_eq s "on" then ("sha256", "aes256") else ("none", "none")
    | None => if be_unencrypted env then ("none", "none") else ("sha256", "aes256")
    end in
  cipher <-! read_map (icmap_get_string_r map "totem.crypto_cipher");!
  let tmp_cipher := known_or cipher ["none"; "aes256"; "aes192"; "aes128"] tmp_cipher in
  hash <-! read_map (icmap_get_string_r map "totem.crypto_hash");!
  let tmp_hash := known_or hash ["none"; "md5"; "sha1"; "sha256"; "sha384"; "sha512"] tmp_hash in
  (if be_unencrypted env
   then when (negb (strcmp_eq tmp_cipher "none") && strcmp_eq tmp_hash "none")
          (fail "crypto_cipher requires crypto_hash with value other than none")
   else when (strcmp_eq tmp_cipher "none" || strcmp_eq tmp_hash "none")
          (fail "corosync is compiled to require enabled encryption"));!
  when (strcmp_eq tmp_model "none") (fail "invalid crypto_model");!
  upd_cfg (fun c =>
    let changed := negb (strcmp_eq tmp_cipher (crypto_cipher_type c)) || negb (strcmp_eq tmp_hash (crypto_hash_type c))
                   || negb (strcmp_eq tmp_model (crypto_model c)) in
    c <| crypto_changed ::= orb changed |> <| crypto_cipher_type := config_string tmp_cipher |>
      <| crypto_hash_type := config_string tmp_hash |> <| crypto_model := config_string tmp_model |>).

End Volatile.
