(* ===== verification/TotemConfigLinks.v ===== *)
(** * The configuration of totem: nodes and links (exec/totemconfig.c)

    The local node in the node list, generated node ids, the members of the links
    and the parameters of the links.  An iteration over the map visits the keys that
    are there when it begins. *)
From stdpp Require Import pretty.
From S2P Require Import Prelude ErrMonad CString VoteQuorumExec Cpg Icmap Util TotemIp TotemConfig.

Local Open Scope string_scope.
Local Open Scope Z_scope.

(** ** Keys *)

Fixpoint word (l : list ascii) : list ascii :=
  match l with a :: l => if isspace a then [] else a :: word l | [] => [] end.

(** A [%s] conversion: a word that is not empty. *)
Definition scan_s (l : list ascii) : option string :=
  match word (skip_space l) with [] => None | w => Some (str w) end.

(** [sscanf (key, "nodelist.node.%u.%s", ...)]: what the two conversions store. *)
Definition scan_node_key (key : string) : option Z * option string :=
  match strip_prefix (chars "nodelist.node.") (chars key) with
  | None => (None, None)
  | Some l =>
      match scan_u l with
      | None => (None, None)
      | Some (pos, l) => (Some pos, l ← strip_prefix (chars ".") l; scan_s l)
      end
  end.

(** [sscanf (key, "nodelist.node.%u.ring%u%s", ...) == 3] with "_addr" last: the link. *)
Definition scan_ring_key (key : string) : option Z :=
  l ← strip_prefix (chars "nodelist.node.") (chars key);
  '(_, l) ← scan_u l;
  l ← strip_prefix (chars ".ring") l;
  '(link, l) ← scan_u l;
  w ← scan_s l;
  if strcmp_eq w "_addr" then Some link else None.

(** [sscanf (key, "totem.interface.%[^.].%s", ...) == 2] *)
Definition scan_interface_key (key : string) : option (string * string) :=
  l ← strip_prefix (chars "totem.interface.") (chars key);
  let n := (fix until l := match l with a :: l => if Ascii.eqb a "."%char then [] else a :: until l | [] => [] end) l in
  match n with
  | [] => None
  | _ => l ← strip_prefix (chars ".") (drop (length n) l); w ← scan_s l; Some (str n, w)
  end.

Definition node_key (pos : Z) (name : string) : string :=
  snprintf ICMAP_KEYNAME_MAXLEN ("nodelist.node." +:+ pretty pos +:+ "." +:+ name).
Definition interface_key (link : Z) (name : string) : string :=
  snprintf ICMAP_KEYNAME_MAXLEN ("totem.interface." +:+ pretty link +:+ "." +:+ name).

(** The first position of a character. *)
Fixpoint index_of (c : ascii) (l : list ascii) : option nat :=
  match l with [] => None | a :: l => if Ascii.eqb a c then Some 0%nat else n ← index_of c l; Some (S n) end.

Definition cut_first_dot (s : string) : option string := n ← index_of "."%char (chars s); Some (str (take n (chars s))).
Definition cut_last_dot (s : string) : option string :=
  n ← index_of "."%char (rev (chars s)); Some (str (take (length (chars s) - n - 1) (chars s))).

(** ** The local node *)

(** The families are equal; the assertion fails for other ones. *)
Definition ipaddr_equal (addr1 addr2 : sockaddr) : option bool :=
  if negb (sa_family addr1 =? sa_family addr2) then Some false
  else if Nat.eqb (addr_len (sa_family addr1)) 0 then None
  else Some (memcmp_eq (addr_len (sa_family addr1)) (sa_addr addr1) (sa_addr addr2)).

Section Nodes.
Context {M : Type} `{QB : qb_map M}.
Context (env : build_env) (net : net_env).

(** A node is known by its name, or by its first address. *)
Definition is_name_key (name : option string) : bool :=
  match name with Some n => strcmp_eq n "name" || strcmp_eq n "ring0_addr" | None => false end.

Definition name_matches (find_name name : string) (strip_domain : bool) : bool :=
  let namelen := match strip_domain, index_of "."%char (chars name) with
                 | true, Some n => n
                 | _, _ => length (chars name)
                 end in
  strncmp_eq namelen find_name name && Nat.eqb (length (chars find_name)) namelen.

Fixpoint byname_loop (map : Z) (find_name : string) (strip_domain : bool) (keys : list string) (m : icmap M) : option Z :=
  match keys with
  | [] => Some (-1)
  | key :: keys =>
      let '(pos, name_str) := scan_node_key key in
      if negb (is_name_key name_str) then byname_loop map find_name strip_domain keys m
      else
        '(_, name) ← icmap_get_string_r map key m;
        match name, pos with
        | Some name, Some pos =>
            if name_matches find_name name strip_domain then Some (s32 pos) else byname_loop map find_name strip_domain keys m
        | _, _ => byname_loop map find_name strip_domain keys m
        end
  end.

(** The position in the node list, or -1. *)
Definition nodelist_byname (map : Z) (find_name : string) (strip_domain : bool) (m : icmap M) : option Z :=
  keys ← icmap_iter_init_r map (Some "nodelist.node.") m; byname_loop map find_name strip_domain keys m.

(** The name, then the name without its last parts, then without domains. *)
Fixpoint by_nodename (fuel : nat) (map : Z) (node : string) (m : icmap M) : option Z :=
  pos ← nodelist_byname map node false m;
  if -1 <? pos then Some pos
  else match fuel, cut_last_dot node with
       | S fuel, Some node => by_nodename fuel map node m
       | _, _ => nodelist_byname map node true m
       end.

(** The lengths of [struct sockaddr], [sockaddr_in] and [sockaddr_in6]. *)
Definition SIZEOF_SOCKADDR : nat := 16.
Definition salen (sa : sockaddr) : nat := if sa_family sa =? AF_INET then 16 else 28.

(** The names in the list, in order; the first one that is a node. *)
Fixpoint first_byname (map : Z) (names : list string) (m : icmap M) : option Z :=
  match names with
  | [] => Some (-1)
  | n :: names => pos ← nodelist_byname map n false m; if -1 <? pos then Some pos else first_byname map names m
  end.

(** The names of an interface that are tried. *)
Definition if_names (ifa : ifaddrs) : list string :=
  match ifa_addr ifa with
  | None => []
  | Some sa =>
      if negb (inet_family (sa_family sa)) then []
      else
        (match getnameinfo net sa (salen sa) false with
         | None => []
         | Some n => n :: match cut_first_dot n with Some n => [n] | None => [] end
         end ++
         match getnameinfo net sa SIZEOF_SOCKADDR true with None => [] | Some n => [n] end)%list
  end.

(** Some address of the node is an address of an interface. *)
Fixpoint any_equal (l : list (sockaddr * sockaddr)) : option bool :=
  match l with [] => Some false | (a, b) :: l => e ← ipaddr_equal a b; if (e : bool) then Some true else any_equal l end.

Definition is_local (addrs : list sockaddr) (ifa_list : list ifaddrs) : option bool :=
  any_equal (List.concat (List.map (fun a => List.map (pair a) (omap ifa_addr ifa_list)) addrs)).

(** The position last read, and whether the node was found. *)
Fixpoint alias_loop (map : Z) (keys : list string) (ifa_list : list ifaddrs) (node_pos : Z) (m : icmap M) : option (Z * bool) :=
  match keys with
  | [] => Some (node_pos, false)
  | key :: keys =>
      let '(pos, name_str) := scan_node_key key in
      let node_pos := match pos with Some p => s32 p | None => node_pos end in
      if negb (is_name_key name_str) then alias_loop map keys ifa_list node_pos m
      else
        '(_, dbnodename) ← icmap_get_string_r map key m;
        match (n ← dbnodename; getaddrinfo net n AF_UNSPEC) with
        | None => alias_loop map keys ifa_list node_pos m
        | Some addrs =>
            found ← is_local addrs ifa_list;
            if (found : bool) then Some (node_pos, true) else alias_loop map keys ifa_list node_pos m
        end
  end.

(** The position and whether it was found, without the cache. *)
Definition search_local_node (map : Z) (m : icmap M) : option (Z * bool) :=
  match uname net with
  | None => Some (-1, false)
  | Some node =>
      pos ← by_nodename (length (chars node)) map node m;
      if -1 <? pos then Some (pos, true)
      else match getifaddrs net with
           | None => Some (-1, false)
           | Some ifa_list =>
               pos ← first_byname map (List.concat (List.map if_names ifa_list)) m;
               if -1 <? pos then Some (pos, true)
               else keys ← icmap_iter_init_r map (Some "nodelist.node.") m; alias_loop map keys ifa_list pos m
           end
  end.

Definition find_local_node (map : Z) (use_cache : bool) : tprog (M:=M) Z :=
  g <-! global_map;!
  cached <-! (if use_cache then read_map (icmap_get_uint32_r g "nodelist.local_node_pos") else ret None);!
  match cached with
  | Some pos => ret (s32 pos)
  | None =>
      s <-! get_state;!
      r <-! lift (search_local_node map (t_map s));!
      let '(node_pos, found) := r in
      when found (write_map (icmap_set_uint32_r map "nodelist.local_node_pos" node_pos));!
      ret node_pos
  end.

(** ** Addresses and node ids *)

Definition udp (t : totem_transport_t) : bool := enable_udpu env && bool_decide (t = TOTEM_TRANSPORT_UDP).
Definition udpu (t : totem_transport_t) : bool := enable_udpu env && bool_decide (t = TOTEM_TRANSPORT_UDPU).
Definition knet (t : totem_transport_t) : bool := bool_decide (t = TOTEM_TRANSPORT_KNET).

Definition totem_config_get_ip_version : tprog (M:=M) totem_ip_version_enum :=
  c <-! get_cfg;!
  g <-! global_map;!
  let res := if udp (transport_number c) then TOTEM_IP_VERSION_4 else TOTEM_IP_VERSION_6_4 in
  v <-! read_map (icmap_get_string_r g "totem.ip_version");!
  ret (match v with
       | Some str => if strcmp_eq str "ipv4" then TOTEM_IP_VERSION_4
                     else if strcmp_eq str "ipv6" then TOTEM_IP_VERSION_6
                     else if strcmp_eq str "ipv6-4" then TOTEM_IP_VERSION_6_4
                     else if strcmp_eq str "ipv4-6" then TOTEM_IP_VERSION_4_6
                     else res
       | None => res
       end).

(** Characters are signed; the sum is that of the machine. *)
Definition generate_cluster_id (cluster_name : string) : Z :=
  Z.land (foldl (fun value c => s32 (s32 (value * 2) + as_signed 1 (code c))) 0 (chars cluster_name)) 65535.

(** [%x] *)
Definition hex_digit (d : Z) : ascii := default "0"%char (chars "0123456789abcdef" !! Z.to_nat d).
Fixpoint hex_go (fuel : nat) (v : Z) (acc : list ascii) : list ascii :=
  match fuel with
  | O => acc
  | S fuel => let acc := hex_digit (v mod 16) :: acc in if v / 16 =? 0 then acc else hex_go fuel (v / 16) acc
  end.
Definition hex (v : Z) : string := str (hex_go 8 v []).

(** The address that is stored; the result is not looked at. *)
Definition get_cluster_mcast_addr (cluster_name : option string) (linknumber : Z) (ip_version : totem_ip_version_enum)
    (old : totem_ip_address) : totem_ip_address :=
  match cluster_name with
  | None => old
  | Some name =>
      let clusterid := u16 (generate_cluster_id name + linknumber) in
      let addr := match ip_version with
                  | TOTEM_IP_VERSION_4 | TOTEM_IP_VERSION_4_6 => "239.192." +:+ pretty (Z.shiftr clusterid 8) +:+ "." +:+ pretty (clusterid mod 255)
                  | TOTEM_IP_VERSION_6 | TOTEM_IP_VERSION_6_4 => "ff15::" +:+ hex clusterid
                  end in
      default empty_ip_address (totemip_parse net empty_ip_address (snprintf (INET6_ADDRSTRLEN + 1) addr) ip_version)
  end.

(** The address as a number; -1 as an [unsigned int] when there is none. *)
Definition generate_nodeid (clear_high_bit : bool) (addr : string) : Z :=
  match totemip_parse net empty_ip_address addr TOTEM_IP_VERSION_4 with
  | None => u32 (-1)
  | Some ip => let nodeid := be_value (take 4 (ip_addr ip)) in if clear_high_bit then Z.land nodeid 2147483647 else nodeid
  end.

(** ** Duplicate node ids *)

(** The id of a node, explicit or generated, and the address it is generated from. *)
Definition nodeid_of (clear : bool) (map pos : Z) (m : icmap M) : option (option (Z * option string)) :=
  '(_, nodeid) ← icmap_get_uint32_r map (node_key pos "nodeid") m;
  match nodeid with
  | Some id => Some (Some (id, None))
  | None =>
      '(_, addr) ← icmap_get_string_r map (node_key pos "ring0_addr") m;
      Some (match addr with
            | None => None
            | Some addr => let id := generate_nodeid clear addr in if id =? u32 (-1) then None else Some (id, Some addr)
            end)
  end.

(** An earlier node with the id: the keys are visited until one belongs to the node
    itself or a later one. *)
Fixpoint earlier_duplicate (clear : bool) (map node_pos nodeid : Z) (node_pos1 : Z) (keys : list string) (m : icmap M) : option bool :=
  match keys with
  | [] => Some false
  | key :: keys =>
      if negb (node_pos1 <? node_pos) then Some false
      else
        let '(pos, name) := scan_node_key key in
        let node_pos1 := default node_pos1 pos in
        match name with
        | None => earlier_duplicate clear map node_pos nodeid node_pos1 keys m
        | Some name =>
            if (node_pos <=? node_pos1) || negb (strcmp_eq name "nodeid")
            then earlier_duplicate clear map node_pos nodeid node_pos1 keys m
            else
              id1 ← nodeid_of clear map node_pos1 m;
              match id1 with
              | None => earlier_duplicate clear map node_pos nodeid node_pos1 keys m
              | Some (nodeid1, _) =>
                  if nodeid =? nodeid1 then Some true else earlier_duplicate clear map node_pos nodeid node_pos1 keys m
              end
        end
  end.

Definition duplicate_msg (nodeid : Z) (addr : option string) : string :=
  snprintf 768 ("Nodeid " +:+ pretty nodeid
    +:+ match addr with Some a => "(autogenerated from " +:+ a +:+ ")" | None => "" end +:+ " appears twice in corosync.conf").

(** [last_node_pos]: the keys of a node are visited one after the other. *)
Fixpoint duplicates_loop (clear : bool) (map : Z) (keys all : list string) (last_node_pos : Z) (err : option string) (m : icmap M)
    : option (option string) :=
  match keys with
  | [] => Some err
  | key :: keys =>
      match scan_node_key key with
      | (Some node_pos, Some _) =>
          if last_node_pos =? node_pos then duplicates_loop clear map keys all last_node_pos err m
          else
            id ← nodeid_of clear map node_pos m;
            match id with
            | None => duplicates_loop clear map keys all node_pos err m
            | Some (nodeid, addr) =>
                dup ← earlier_duplicate clear map node_pos nodeid 0 all m;
                duplicates_loop clear map keys all node_pos (if (dup : bool) then Some (duplicate_msg nodeid addr) else err) m
            end
      | _ => duplicates_loop clear map keys all last_node_pos err m
      end
  end.

Definition check_for_duplicate_nodeids : tprog (M:=M) unit :=
  c <-! get_cfg;!
  g <-! global_map;!
  s <-! get_state;!
  keys <-! iter_map g "nodelist.node.";!
  err <-! lift (duplicates_loop (clear_node_high_bit c) g keys keys (u32 (-1)) None (t_map s));!
  match err with Some msg => fail msg | None => ret tt end.

(** ** Links *)

(** The interface of a link; there are [INTERFACE_MAX]. *)
Definition get_if (i : nat) : tprog (M:=M) totem_interface := c <-! get_cfg;! lift (interfaces c !! i).
Definition upd_if (i : nat) (f : totem_interface -> totem_interface) : tprog (M:=M) unit :=
  get_if i;! upd_cfg (fun c => c <| interfaces ::= alter f i |>).

Definition when_configured (i : nat) (body : totem_interface -> tprog (M:=M) unit) : tprog unit :=
  f <-! get_if i;! when (configured f) (body f).

(** [v], or [d] when it is 0. *)
Definition or_default (d v : Z) : Z := if v =? 0 then d else v.

Definition runtime_if_key (i : nat) (name : string) : string :=
  snprintf ICMAP_KEYNAME_MAXLEN ("runtime.config.totem.interface." +:+ pretty (Z.of_nat i) +:+ "." +:+ name).

(** [token_timeout / n] with [n] an [int], stored in an [int]: the division is of
    [unsigned int]s, and undefined for 0. *)
Definition timer_share (token n : Z) : option Z := if u32 n =? 0 then None else Some (s32 (token / u32 n)).
(** A product of [int]s. *)
Definition int_mul (a b : Z) : option Z := let v := a * b in if (- 2 ^ 31 <=? v) && (v <? 2 ^ 31) then Some v else None.

Definition totem_calc_knet_ping_timers (temp_map : Z) : tprog (M:=M) unit :=
  for_each (seq 0 INTERFACE_MAX) (fun i => when_configured i (fun _ =>
    c <-! get_cfg;!
    upd_if i (fun f => f <| knet_pong_count ::= or_default KNET_PONG_COUNT |>);!
    f <-! get_if i;!
    when (knet_ping_timeout f =? 0) (
      v <-! lift (timer_share (token_timeout c) (knet_pong_count f));! upd_if i (fun f => f <| knet_ping_timeout := v |>));!
    f <-! get_if i;!
    write_map (icmap_set_uint32_r temp_map (runtime_if_key i "knet_ping_timeout") (u32 (knet_ping_timeout f)));!
    when (knet_ping_interval f =? 0) (
      n <-! lift (int_mul (knet_pong_count f) 2);!
      v <-! lift (timer_share (token_timeout c) n);! upd_if i (fun f => f <| knet_ping_interval := v |>));!
    f <-! get_if i;!
    write_map (icmap_set_uint32_r temp_map (runtime_if_key i "knet_ping_interval") (u32 (knet_ping_interval f))))).

(** *** The members that change *)

(** For the entry of the first list at [i], each entry of the second one: equal ones
    are cleared in both. *)
Definition clear_pair (n1 n2 : nat) (st : list totem_ip_address * list totem_ip_address) : list totem_ip_address * list totem_ip_address :=
  let '(l1, l2) := st in
  match l1 !! n1, l2 !! n2 with
  | Some a, Some b => if bool_decide (a = b) then (<[n1 := empty_ip_address]> l1, <[n2 := empty_ip_address]> l2) else st
  | _, _ => st
  end.

Definition clear_common (l1 l2 : list totem_ip_address) (n1 n2 : nat) : list totem_ip_address * list totem_ip_address :=
  foldl (fun st i => foldl (fun st j => clear_pair i j st) st (seq 0 n2)) (l1, l2) (seq 0 n1).

(** The members of an interface; undefined behind the array. *)
Definition members (f : totem_interface) : option (list totem_ip_address) :=
  if member_count f <=? Z.of_nat (length (member_list f)) then Some (take (Z.to_nat (member_count f)) (member_list f)) else None.

Definition clear_common_if (f1 f2 : totem_interface) : option (totem_interface * totem_interface) :=
  if negb (configured f1) && negb (configured f2) then Some (f1, f2)
  else
    _ ← members f1; _ ← members f2;
    let '(l1, l2) := clear_common (member_list f1) (member_list f2) (Z.to_nat (member_count f1)) (Z.to_nat (member_count f2)) in
    Some (f1 <| member_list := l1 |>, f2 <| member_list := l2 |>).

(** What [totempg_member_add] returns. *)
Context (totempg_member_add : totem_ip_address -> nat -> Z).

Definition not_empty (l : list totem_ip_address) : list totem_ip_address := List.filter (fun a => negb (bool_decide (a = empty_ip_address))) l.

Definition member_calls (ring_no : nat) (f1 f2 : totem_interface) : option (list totem_call) :=
  l1 ← members f1; l2 ← members f2;
  Some (List.map (fun a => TotempgMemberRemove a ring_no) (not_empty l1) ++
        (if configured f2 then List.map (fun a => TotempgMemberAdd a ring_no) (not_empty l2) else []))%list.

Definition call_failed (c : totem_call) : bool :=
  match c with TotempgMemberAdd a r => c_true (totempg_member_add a r) | _ => false end.

Fixpoint clear_all (set1 set2 : list totem_interface) : option (list totem_interface * list totem_interface) :=
  match set1, set2 with
  | f1 :: set1, f2 :: set2 =>
      '(f1, f2) ← clear_common_if f1 f2; '(set1, set2) ← clear_all set1 set2; Some (f1 :: set1, f2 :: set2)
  | _, _ => Some ([], [])
  end.

Fixpoint all_calls (ring_no : nat) (set1 set2 : list totem_interface) : option (list totem_call) :=
  match set1, set2 with
  | f1 :: set1, f2 :: set2 => l ← member_calls ring_no f1 f2; k ← all_calls (S ring_no) set1 set2; Some (l ++ k)%list
  | _, _ => Some []
  end.

(** The old interfaces afterwards, the calls and the result. *)
Definition compute_and_set_totempg_interfaces (set1 set2 : list totem_interface) : option (list totem_interface * list totem_call * Z) :=
  '(set1, set2) ← clear_all set1 set2;
  calls ← all_calls 0 set1 set2;
  Some (set1, calls, if existsb call_failed calls then -1 else 0).

(** *** Parameters of the links *)

Definition configure_link_params (map : Z) : tprog (M:=M) unit :=
  local_node_pos <-! find_local_node map false;!
  for_each (seq 0 INTERFACE_MAX) (fun i => when_configured i (fun f =>
    c <-! get_cfg;!
    addr <-! read_map (icmap_get_string_r map
      (snprintf ICMAP_KEYNAME_MAXLEN ("nodelist.node." +:+ pretty (u32 local_node_pos) +:+ ".ring" +:+ pretty (Z.of_nat i) +:+ "_addr")));!
    match (a ← addr; totemip_parse net (local_ip f) a (ip_version c)) with
    | None => ret tt
    | Some ip =>
        upd_if i (fun f =>
          f <| local_ip := ip <| ip_nodeid := node_id c |> |>
            <| knet_link_priority ::= or_default 1 |>
            <| knet_ping_precision ::= or_default KNET_PING_PRECISION |>
            <| knet_pong_count ::= or_default KNET_PONG_COUNT |>
            <| knet_transport ::= or_default (KNET_TRANSPORT_UDP env) |>
            <| ip_port ::= or_default (DEFAULT_PORT + Z.of_nat i) |>)
    end)).

Definition configure_totem_links : tprog (M:=M) unit :=
  for_each (seq 0 INTERFACE_MAX) (fun i => when_configured i (fun f =>
    upd_state (fun s => s <| t_calls ::= fun l => l ++ [TotempgIfaceSet (local_ip f) (ip_port f) i] |>)%list)).

(** A member whose address changed; an old address that cannot be printed may change. *)
Definition address_changed (new old : totem_ip_address) : bool :=
  (ip_nodeid new =? ip_nodeid old) && negb (bool_decide (new = old)) && bool_decide (is_Some (totemip_print net old)).

Definition if_changed (new old : totem_interface) : option bool :=
  if configured new && configured old then
    l ← members new; k ← members old;
    Some (negb (knet_transport new =? knet_transport old) || existsb (fun a => existsb (address_changed a) k) l)
  else Some false.

Fixpoint any_changed (new old : list totem_interface) : option bool :=
  match new, old with
  | n :: new, o :: old => c ← if_changed n o; r ← any_changed new old; Some (c || r)
  | [], [] => Some false
  | _, _ => None
  end.

Definition check_things_have_not_changed : tprog (M:=M) unit :=
  c <-! get_cfg;!
  changed <-! lift (any_changed (interfaces c) (orig_interfaces c));!
  when changed (fail "To reconfigure an interface it must be deleted and recreated. A working interface needs to be available to corosync at all times").

(** *** The node list *)

(** [sprintf] into [error_string_response], which has 768 bytes. *)
Definition error_response {A} (msg : string) : tprog (M:=M) A :=
  assert_that (Nat.ltb (length (chars msg)) 768);! fail msg.

(** A generated id is stored back into the node list. *)
Definition node_id_or_generate (map pos nodeid : Z) (node_addr_str : string) : tprog (M:=M) Z :=
  c <-! get_cfg;!
  if (nodeid =? 0) && (udp (transport_number c) || udpu (transport_number c)) then
    addr <-! read_map (icmap_get_string_r map (node_key pos "ring0_addr"));!
    match addr with
    | None => ret nodeid
    | Some addr =>
        let id := generate_nodeid (clear_node_high_bit c) addr in
        if id =? u32 (-1) then error_response ("An IPV6 network requires that a node ID be specified for address '" +:+ node_addr_str +:+ "'.")
        else write_map (icmap_set_uint32_r map (node_key pos "nodeid") id);! ret id
    end
  else ret nodeid.

Definition max_ring_error (link : Z) : string :=
  snprintf 768 ("parse error in config: interface ring number " +:+ pretty link +:+ " is bigger than allowed maximum "
    +:+ pretty (Z.of_nat INTERFACE_MAX - 1) +:+ newline).

(** A member behind the array is not defined. *)
Definition add_member (link : nat) (addr : string) (nodeid : Z) : tprog (M:=M) unit :=
  c <-! get_cfg;!
  f <-! get_if link;!
  old <-! lift (member_list f !! Z.to_nat (member_count f));!
  match totemip_parse net old addr (ip_version c) with
  | Some ip =>
      upd_if link (fun f => f <| member_list ::= insert (Z.to_nat (member_count f)) (ip <| ip_nodeid := nodeid |>) |>
                              <| member_count ::= Z.add 1 |> <| configured := true |>)
  | None =>
      upd_if link (fun f => f <| member_list ::= insert (Z.to_nat (member_count f)) empty_ip_address |>);!
      error_response ("failed to parse node address '" +:+ addr +:+ "'" +:+ newline)
  end.

(** A key of a node: its address on a link. *)
Definition put_ring_addr (map pos : Z) (key : string) : tprog (M:=M) unit :=
  id <-! read_map (icmap_get_uint32_r map (node_key pos "nodeid"));!
  match scan_ring_key key with
  | None => ret tt
  | Some link =>
      if Z.of_nat INTERFACE_MAX <=? link then fail (max_ring_error link)
      else
        addr <-! read_map (icmap_get_string_r map key);!
        match addr with
        | None => ret tt
        | Some addr =>
            c <-! get_cfg;!
            nodeid <-! node_id_or_generate map pos (default 0 id) addr;!
            when ((nodeid =? 0) && knet (transport_number c))
              (error_response ("Knet requires an explicit nodeid to be specified for address '" +:+ addr +:+ "'."));!
            when (knet (transport_number c) && (KNET_MAX_HOST env <=? nodeid))
              (error_response ("Knet requires nodeid to be less than " +:+ pretty (KNET_MAX_HOST env) +:+ " for address '" +:+ addr +:+ "'."));!
            add_member (Z.to_nat link) addr nodeid
        end
  end.

(** All keys of a node, once per node; [last_node_pos] is an [int]. *)
Definition put_node (map : Z) (key : string) (last_node_pos : Z) : tprog (M:=M) Z :=
  match scan_node_key key with
  | (Some pos, Some _) =>
      if pos =? u32 last_node_pos then ret last_node_pos
      else
        keys <-! iter_map map (snprintf ICMAP_KEYNAME_MAXLEN ("nodelist.node." +:+ pretty pos +:+ "."));!
        for_each keys (put_ring_addr map pos);! ret (s32 pos)
  | _ => ret last_node_pos
  end.

Definition put_nodelist_members_to_config (map : Z) (reload : bool) : tprog (M:=M) unit :=
  upd_cfg (fun c => c <| interfaces ::= List.map (fun f => f <| member_list := repeat empty_ip_address PROCESSOR_COUNT_MAX |> <| member_count := 0 |>) |>);!
  keys <-! iter_map map "nodelist.node.";!
  for_fold keys (-1) (put_node map);!
  configure_link_params map;!
  when reload check_things_have_not_changed.

(** The addresses of the local node become the addresses to bind to. *)
Definition config_convert_nodelist_to_interface (map : Z) : tprog (M:=M) unit :=
  node_pos <-! find_local_node map true;!
  when (-1 <? node_pos) (
    keys <-! iter_map map (snprintf ICMAP_KEYNAME_MAXLEN ("nodelist.node." +:+ pretty (u32 node_pos) +:+ "."));!
    for_each keys (fun key =>
      match scan_ring_key key with
      | None => ret tt
      | Some link =>
          addr <-! read_map (icmap_get_string_r map key);!
          match addr with
          | None => ret tt
          | Some addr => write_map (icmap_set_string_r map (interface_key link "bindnetaddr") (Some addr))
          end
      end)).

End Nodes.
