(* ===== verification/TotemConfigRead.v ===== *)
(** * The configuration of totem: reading, validation and reload (exec/totemconfig.c)

    [totem_config_read] fills the structure from the configuration map at the start,
    [totem_config_validate] checks it; [totem_change_notify] follows changes of the
    map, and [totemconfig_configure_new_params] and [totemconfig_commit_new_params]
    carry out a reload.  The key file is a parameter. *)
From stdpp Require Import pretty.
From S2P Require Import Prelude ErrMonad CString VoteQuorumExec Cpg Icmap Util TotemIp TotemConfig TotemConfigLinks.

Local Open Scope string_scope.
Local Open Scope Z_scope.

Definition TOTEM_CONFIG_WARNING_MEMBERS_IGNORED : Z := 2.
Definition TOTEM_CONFIG_WARNING_MEMBERS_DEPRECATED : Z := 4.
Definition TOTEM_CONFIG_WARNING_TOTEM_NODEID_SET : Z := 8.
Definition TOTEM_CONFIG_BINDNETADDR_NODELIST_SET : Z := 16.

(** What opening and reading a file gives: an error number, or the bytes. *)
Inductive key_file := KeyOpenError (errno : Z) | KeyReadError (errno : Z) | KeyBytes (bytes : list Z).

Section Reading.
Context {M : Type} `{QB : qb_map M}.
Context (env : build_env) (net : net_env).
Context (totempg_member_add : totem_ip_address -> nat -> Z) (file : string -> key_file) (strerror : Z -> string).
Notation "'iprog' A" := (tprog (M:=M) A) (at level 10, A at level 9).

Definition warn (w : Z) : iprog unit := upd_state (fun s => s <| t_warnings ::= Z.lor w |>).

(** A string of the global map. *)
Definition global_string (key : string) : iprog (option string) := g <-! global_map;! read_map (icmap_get_string_r g key).
Definition global_uint32 (key : string) : iprog (option Z) := g <-! global_map;! read_map (icmap_get_uint32_r g key).

(** ** The interface sections *)

Definition link_string (map : Z) (link : nat) (name : string) : iprog (option string) :=
  read_map (icmap_get_string_r map (interface_key (Z.of_nat link) name)).

(** An address of a section, written over [old]. *)
Definition parse_if_addr (what addr : string) (old : totem_ip_address) : iprog totem_ip_address :=
  c <-! get_cfg;!
  match totemip_parse net old addr (ip_version c) with
  | Some ip => ret ip
  | None => error_response ("failed to parse " +:+ what +:+ " address '" +:+ addr +:+ "'" +:+ newline)
  end.

Definition bindnet_version (c : totem_config) : option totem_ip_version_enum :=
  f ← interfaces c !! 0%nat; Some (if ip_family (bindnet f) =? AF_INET6 then TOTEM_IP_VERSION_6 else TOTEM_IP_VERSION_4).

(** Only when the configuration is first read. *)
Definition read_link_addresses (map : Z) (link : nat) (cluster_name : option string) : iprog unit :=
  f <-! get_if link;!
  a <-! link_string map link "bindnetaddr";!
  match a with
  | None => ret tt
  | Some a => ip <-! parse_if_addr "bindnet" a (bindnet f);! upd_if link (fun f => f <| bindnet := ip |>)
  end;!
  a <-! link_string map link "mcastaddr";!
  c <-! get_cfg;!
  match a with
  | Some a => ip <-! parse_if_addr "mcast" a (mcast_addr f);! upd_if link (fun f => f <| mcast_addr := ip |>)
  | None =>
      when (udp env (transport_number c)) (
        v <-! lift (bindnet_version c);!
        upd_if link (fun f => f <| mcast_addr ::= get_cluster_mcast_addr net cluster_name (Z.of_nat link) v |>))
  end;!
  b <-! global_string (interface_key (Z.of_nat link) "broadcast");!
  match b with
  | Some str => when (strcmp_eq str "yes") (upd_cfg (fun c => c <| broadcast_use := true |>))
  | None => ret tt
  end.

(** When the configuration is first read, or for a new link. *)
Definition read_link_transport (map : Z) (link : nat) : iprog unit :=
  c <-! get_cfg;!
  port <-! read_map (icmap_get_uint16_r map (interface_key (Z.of_nat link) "mcastport"));!
  let def := DEFAULT_PORT + (if broadcast_use c then 2 * Z.of_nat link else Z.of_nat link) in
  upd_if link (fun f => f <| ip_port := default def port |> <| ttl := 1 |>);!
  t <-! read_map (icmap_get_uint8_r map (interface_key (Z.of_nat link) "ttl"));!
  upd_if link (fun f => f <| ttl ::= fun old => default old t |> <| knet_transport := KNET_TRANSPORT_UDP env |>);!
  tr <-! link_string map link "knet_transport";!
  match tr with
  | None => ret tt
  | Some str =>
      match KNET_TRANSPORT_SCTP env with
      | Some sctp =>
          if strcmp_eq str "sctp" then upd_if link (fun f => f <| knet_transport := sctp |>)
          else if strcmp_eq str "udp" then upd_if link (fun f => f <| knet_transport := KNET_TRANSPORT_UDP env |>)
          else fail "Unrecognised knet_transport. expected 'udp' or 'sctp'"
      | None =>
          if strcmp_eq str "udp" then upd_if link (fun f => f <| knet_transport := KNET_TRANSPORT_UDP env |>)
          else fail "Unrecognised knet_transport. only 'udp' is supported"
      end
  end.

(** The [int] fields take the values of [uint32_t] keys. *)
Definition link_uint32 (map : Z) (link : nat) (name : string) (def : Z) : iprog Z :=
  v <-! read_map (icmap_get_uint32_r map (interface_key (Z.of_nat link) name));!
  ret (match v with Some v => s32 v | None => def end).

Definition read_link_params (map : Z) (link : nat) : iprog unit :=
  p <-! read_map (icmap_get_uint8_r map (interface_key (Z.of_nat link) "knet_link_priority"));!
  interval <-! link_uint32 map link "knet_ping_interval" 0;!
  timeout <-! link_uint32 map link "knet_ping_timeout" 0;!
  precision <-! link_uint32 map link "knet_ping_precision" KNET_PING_PRECISION;!
  pong <-! link_uint32 map link "knet_pong_count" KNET_PONG_COUNT;!
  upd_if link (fun f => f <| configured := true |> <| knet_link_priority := default 1 p |> <| knet_ping_interval := interval |>
                          <| knet_ping_timeout := timeout |> <| knet_ping_precision := precision |> <| knet_pong_count := pong |>).

(** The members of a section: ignored when there is a node list.  The number of
    members read. *)
Fixpoint read_members (map : Z) (link : nat) (keys : list string) (member_count : Z) : iprog Z :=
  match keys with
  | [] => ret member_count
  | key :: keys =>
      stop <-! (if member_count =? 0 then
                  n <-! global_string "nodelist.node.0.ring0_addr";!
                  match n with
                  | Some _ => warn TOTEM_CONFIG_WARNING_MEMBERS_IGNORED;! ret true
                  | None => warn TOTEM_CONFIG_WARNING_MEMBERS_DEPRECATED;! ret false
                  end
                else ret false);!
      if (stop : bool) then ret member_count
      else
        a <-! read_map (icmap_get_string_r map key);!
        match a with
        | None => read_members map link keys member_count
        | Some a =>
            f <-! get_if link;!
            old <-! lift (member_list f !! Z.to_nat member_count);!
            ip <-! parse_if_addr "node" a old;!
            upd_if link (fun f => f <| member_list ::= insert (Z.to_nat member_count) ip |>);!
            read_members map link keys (member_count + 1)
        end
  end.

(** One key of an interface section: the whole section is read. *)
Definition read_interface_key (map : Z) (reload : bool) (cluster_name : option string) (key : string) : iprog unit :=
  c <-! get_cfg;!
  match scan_interface_key key with
  | None => ret tt
  | Some (linknumber_key, name) =>
      if negb (strcmp_eq name "bindnetaddr") && udp env (transport_number c) then ret tt
      else
        let linknumber := u32 (atoi linknumber_key) in
        if Z.of_nat INTERFACE_MAX <=? linknumber then fail (max_ring_error linknumber)
        else
          let link := Z.to_nat linknumber in
          when (negb reload) (read_link_addresses map link cluster_name);!
          f <-! get_if link;!
          when (negb reload || negb (configured f)) (read_link_transport map link);!
          read_link_params map link;!
          keys <-! iter_map map (interface_key linknumber "member.");!
          n <-! read_members map link keys 0;!
          upd_if link (fun f => f <| member_count := n |>)
  end.

Definition reset_link (f : totem_interface) : totem_interface :=
  f <| configured := false |> <| knet_ping_timeout := 0 |> <| knet_ping_interval := 0 |>
    <| knet_ping_precision := KNET_PING_PRECISION |> <| knet_pong_count := KNET_PONG_COUNT |>.

Definition get_interface_params (map : Z) (reload : bool) : iprog unit :=
  when reload (upd_cfg (fun c => c <| interfaces ::= List.map reset_link |>));!
  cluster_name <-! read_map (icmap_get_string_r map "totem.cluster_name");!
  keys <-! iter_map map "totem.interface.";!
  for_each keys (read_interface_key map reload cluster_name).

(** ** The key *)

Definition read_keyfile (key_location : string) : iprog unit :=
  let err msg := fail (snprintf 768 (msg +:+ newline)) in
  match file key_location with
  | KeyOpenError e => err ("Could not open " +:+ key_location +:+ ": " +:+ strerror e)
  | KeyReadError e => err ("Could not read " +:+ key_location +:+ ": " +:+ strerror e)
  | KeyBytes bytes =>
      let b := take (TOTEM_PRIVATE_KEY_LEN_MAX env) bytes in
      upd_cfg (fun c => c <| private_key ::= overlay b |>);!
      if Nat.ltb (length b) (TOTEM_PRIVATE_KEY_LEN_MIN env)
      then err ("Could only read " +:+ pretty (Z.of_nat (length b) * 8) +:+ " bits of minimum "
                  +:+ pretty (Z.of_nat (TOTEM_PRIVATE_KEY_LEN_MIN env) * 8) +:+ " bits from " +:+ key_location +:+ ".")
      else upd_cfg (fun c => c <| private_key_len := length b |>)
  end.

(** The length and the bytes of a key of any type. *)
Definition key_length (map : Z) : iprog (option nat) := fun s =>
  '(res, g) ← icmap_get_r map (Some "totem.key") false (Some 0%nat) (t_map s);
  Some (inr (if res =? CS_OK then g_value_len g else None), s).
Definition key_bytes (map : Z) (n : nat) : iprog (option (list Z)) := fun s =>
  '(res, g) ← icmap_get_r map (Some "totem.key") true (Some n) (t_map s);
  Some (inr (if res =? CS_OK then g_value g else None), s).

(** The key itself in the map, when there is one. *)
Definition read_map_key (map : Z) : iprog bool :=
  n <-! key_length map;!
  match n with
  | None => ret false
  | Some n =>
      if Nat.ltb (TOTEM_PRIVATE_KEY_LEN_MAX env) n then fail "key is too long"
      else if Nat.ltb n (TOTEM_PRIVATE_KEY_LEN_MIN env) then fail "key is too short"
      else
        b <-! key_bytes map n;!
        match b with
        | Some b => upd_cfg (fun c => c <| private_key ::= overlay b |> <| private_key_len := n |>);! ret true
        | None => fail "can't load private key"
        end
  end.

Definition totem_config_keyread (map : Z) : iprog unit :=
  c <-! get_cfg;!
  let old_key := private_key c in
  let old_key_len := private_key_len c in
  upd_cfg (fun c => c <| private_key := repeat 0 (TOTEM_PRIVATE_KEY_LEN_MAX env) |> <| private_key_len := 0%nat |>);!
  if strcmp_eq (crypto_cipher_type c) "none" && strcmp_eq (crypto_hash_type c) "none" then ret tt
  else
    key_location <-! read_map (icmap_get_string_r map "totem.keyfile");!
    got_key <-! match key_location with
                | Some key_location => read_keyfile key_location;! ret true
                | None => read_map_key map
                end;!
    when (negb got_key) (read_keyfile (COROSYSCONFDIR env +:+ "/authkey"));!
    upd_cfg (fun c => if negb (Nat.eqb old_key_len (private_key_len c)) || negb (bool_decide (old_key = private_key c))
                      then c <| crypto_changed := true |> else c).

Definition totem_reread_crypto_config (map : Z) : iprog unit := totem_get_crypto env map;! totem_config_keyread map.

(** ** Reading at the start *)

Definition read_transport : iprog unit :=
  upd_cfg (fun c => c <| transport_number := TOTEM_TRANSPORT_KNET |>);!
  v <-! global_string "totem.transport";!
  match v with
  | None => ret tt
  | Some str =>
      if enable_udpu env && strcmp_eq str "udpu" then upd_cfg (fun c => c <| transport_number := TOTEM_TRANSPORT_UDPU |>)
      else if enable_udpu env && strcmp_eq str "udp" then upd_cfg (fun c => c <| transport_number := TOTEM_TRANSPORT_UDP |>)
      else if strcmp_eq str "knet" then upd_cfg (fun c => c <| transport_number := TOTEM_TRANSPORT_KNET |>)
      else fail (if enable_udpu env then "Invalid transport type. Should be udpu, udp or knet" else "Invalid transport type. Should be knet")
  end.

Definition read_scalars : iprog unit :=
  v <-! global_uint32 "totem.version";!
  upd_cfg (fun c => c <| version ::= fun old => match v with Some v => s32 v | None => old end |>);!
  g <-! global_map;!
  totem_get_crypto env g;!
  totem_config_keyread g;!
  upd_cfg (fun c => c <| crypto_index := 1 |> <| crypto_changed := false |>);!
  mode <-! global_string "totem.link_mode";!
  match mode with
  | None => ret tt
  | Some m => if TOTEM_LINK_MODE_BYTES <=? strlen m then fail "totem.link_mode is too long" else upd_cfg (fun c => c <| link_mode := m |>)
  end;!
  id <-! global_uint32 "totem.nodeid";!
  when (bool_decide (is_Some id)) (warn TOTEM_CONFIG_WARNING_TOTEM_NODEID_SET);!
  clear <-! global_string "totem.clear_node_high_bit";!
  upd_cfg (fun c => c <| clear_node_high_bit := bool_decide (clear = Some "yes") |>);!
  t <-! global_uint32 "totem.threads";!
  upd_cfg (fun c => c <| threads ::= fun old => default old t |>);!
  mtu <-! global_uint32 "totem.netmtu";!
  upd_cfg (fun c => c <| net_mtu ::= fun old => default old mtu |>);!
  ipv <-! totem_config_get_ip_version env;!
  upd_cfg (fun c => c <| ip_version := ipv |>).

(** The node list takes precedence over [bindnetaddr]. *)
Definition read_bind_addresses : iprog unit :=
  g <-! global_map;!
  b <-! global_string "totem.interface.0.bindnetaddr";!
  match b with
  | None => config_convert_nodelist_to_interface net g
  | Some _ =>
      r <-! global_string "nodelist.node.0.ring0_addr";!
      when (bool_decide (is_Some r)) (warn TOTEM_CONFIG_BINDNETADDR_NODELIST_SET;! config_convert_nodelist_to_interface net g)
  end.

(** Generated addresses and ports are stored back. *)
Definition store_generated : iprog unit :=
  c <-! get_cfg;!
  g <-! global_map;!
  when (udp env (transport_number c)) (for_each (seq 0 INTERFACE_MAX) (fun i => when_configured i (fun f =>
    let key := interface_key (Z.of_nat i) "mcastaddr" in
    a <-! global_string key;!
    match a with
    | Some _ => ret tt
    | None => write_map (icmap_set_string_r g key (totemip_print net (mcast_addr f)))
    end;!
    let key := interface_key (Z.of_nat i) "mcastport" in
    p <-! read_map (icmap_get_uint16_r g key);!
    match p with Some _ => ret tt | None => write_map (icmap_set_uint16_r g key (ip_port f)) end)));!
  when (knet (transport_number c)) (for_each (seq 0 INTERFACE_MAX) (fun i => when_configured i (fun f =>
    write_map (icmap_set_uint16_r g (runtime_if_key i "mcastport") (ip_port f))))).

(** The id of the local node; a node without its first address is not defined. *)
Definition read_local_node_id (local_node_pos : Z) : iprog unit :=
  c <-! get_cfg;!
  assert_that (node_id c =? 0);!
  id <-! global_uint32 (node_key (u32 local_node_pos) "nodeid");!
  upd_cfg (fun c => c <| node_id := default 0 id |>);!
  c <-! get_cfg;!
  when (knet (transport_number c) && (node_id c =? 0)) (fail "Knet requires an explicit nodeid for the local node");!
  when ((udp env (transport_number c) || udpu env (transport_number c)) && (node_id c =? 0)) (
    a <-! global_string (node_key (u32 local_node_pos) "ring0_addr");!
    str <-! lift a;!
    let id := generate_nodeid net (clear_node_high_bit c) str in
    upd_cfg (fun c => c <| node_id := id |>);!
    when (id =? u32 (-1)) (fail "An IPV6 network requires that a node ID be specified");!
    f <-! get_if 0;!
    lift (member_list f !! Z.to_nat (u32 local_node_pos));!
    upd_if 0 (fun f => f <| member_list ::= alter (fun m => m <| ip_nodeid := id |>) (Z.to_nat (u32 local_node_pos)) |>)).

Definition read_nodelist : iprog unit :=
  g <-! global_map;!
  n <-! global_string "nodelist.node.0.name";!
  r <-! global_string "nodelist.node.0.ring0_addr";!
  when (bool_decide (is_Some n) || bool_decide (is_Some r)) (
    local_node_pos <-! find_local_node net g true;!
    when (negb (local_node_pos =? -1)) (
      read_local_node_id local_node_pos;!
      upd_state (fun s => s <| t_map ::= fun m => snd (icmap_set_ro_access "nodelist.local_node_pos" false true m) |>));!
    put_nodelist_members_to_config env net g false).

(** [track]: the address of the tracker. *)
Definition add_totem_config_notification (track : Z) : iprog unit :=
  upd_state (fun s => s <| t_map ::= fun m =>
    snd (icmap_track_add (Some "totem.") (Z.lor (Z.lor ICMAP_TRACK_ADD ICMAP_TRACK_DELETE) (Z.lor ICMAP_TRACK_MODIFY ICMAP_TRACK_PREFIX)) 0 track 0 m) |>).

Definition totem_config_read (track : Z) : iprog unit :=
  upd_state (fun s => s <| t_warnings := 0 |> <| t_cfg := zero_totem_config (TOTEM_PRIVATE_KEY_LEN_MAX env) |>);!
  read_transport;!
  upd_cfg (fun c => c <| link_mode := "passive" |>);!
  read_scalars;!
  read_bind_addresses;!
  upd_cfg (fun c => c <| broadcast_use := false |>);!
  g <-! global_map;!
  get_interface_params g false;!
  c <-! get_cfg;!
  when (broadcast_use c) (upd_if 0 (fun f =>
    f <| mcast_addr ::= fun old => default old (totemip_parse net old "255.255.255.255" TOTEM_IP_VERSION_4) |>));!
  dscp <-! read_map (icmap_get_uint8_r g "totem.ip_dscp");!
  upd_cfg (fun c => c <| ip_dscp := default 0 dscp |>);!
  store_generated;!
  read_nodelist;!
  totem_volatile_config_read env g None;!
  totem_calc_knet_ping_timers g;!
  add_totem_config_notification track.

(** ** Validation *)

Definition check_interface (i : nat) (f : totem_interface) : iprog unit :=
  c <-! get_cfg;!
  let for_if msg := msg +:+ " for interface " +:+ pretty (Z.of_nat i) in
  let u := udp env (transport_number c) in
  when (u && bool_decide (mcast_addr f = empty_ip_address)) (config_error (for_if "No multicast address specified"));!
  when (ip_port f =? 0) (config_error (for_if "No multicast port specified"));!
  when (255 <? ttl f) (config_error (for_if "Invalid TTL (should be 0..255)"));!
  when (negb u && negb (ttl f =? 1)) (config_error (for_if "Can only set ttl on multicast transport types"));!
  when (255 <? knet_link_priority f) (config_error (for_if "Invalid link priority (should be 0..255)"));!
  when (negb (knet (transport_number c)) && negb (knet_link_priority f =? 1))
    (config_error (for_if "Can only set link priority on knet transport type"));!
  when ((ip_family (mcast_addr f) =? AF_INET6) && (node_id c =? 0))
    (config_error (for_if "An IPV6 network requires that a node ID be specified"));!
  when (negb (broadcast_use c) && u) (
    when (negb (ip_family (mcast_addr f) =? ip_family (bindnet f)))
      (config_error (for_if "Multicast address family does not match bind address family"));!
    when (negb (totemip_is_mcast (mcast_addr f) =? 0))
      (config_error (for_if "mcastaddr is not a correct multicast address"))).

Definition totem_config_validate : iprog unit :=
  c <-! get_cfg;!
  let num_configured := Z.of_nat (length (configured_ifs c)) in
  when (num_configured =? 0) (config_error "No interfaces defined");!
  pos <-! global_uint32 "nodelist.local_node_pos";!
  when (negb (bool_decide (is_Some pos))) (config_error "No valid name found for local host");!
  for_each (seq 0 INTERFACE_MAX) (fun i => when_configured i (check_interface i));!
  when (negb (version c =? 2)) (config_error "This totem parser can only parse version 2 configurations.");!
  g <-! global_map;!
  totem_volatile_config_validate env net g;!
  check_for_duplicate_nodeids net;!
  let quote := String "034"%char EmptyString in
  when (negb (existsb (strcmp_eq (link_mode c)) ["active"; "rr"; "passive"]))
    (config_error ("The Knet link mode " +:+ quote +:+ link_mode c +:+ quote +:+ " specified is invalid.  It must be active, passive or rr." +:+ newline));!
  when (negb (knet (transport_number c)) && (1 <? num_configured))
    (config_error (pretty num_configured +:+ " is too many configured interfaces for non-Knet transport."));!
  when (negb (knet (transport_number c)) && (negb (strcmp_eq (crypto_cipher_type c) "none") || negb (strcmp_eq (crypto_hash_type c) "none")))
    (config_error "crypto_cipher & crypto_hash are only valid for the Knet transport.");!
  upd_cfg (fun c => if net_mtu c =? 0 then c <| net_mtu := if knet (transport_number c) then KNET_MAX_PACKET_SIZE env else UDP_NETMTU |> else c).

(** ** Changes *)

(** The error of a validation is logged. *)
Definition totem_change_notify (event : Z) (key_name : string) : iprog unit :=
  g <-! global_map;!
  reloading <-! read_map (icmap_get_uint8_r g "config.reload_in_progress");!
  if match reloading with Some r => c_true r | None => false end then ret tt
  else if negb (bool_decide (is_Some (totem_get_param_by_name key_name))) && negb (strcmp_eq key_name "totem.token_coefficient") then ret tt
  else
    totem_volatile_config_read env g (if event =? ICMAP_TRACK_DELETE then Some key_name else None);!
    catch (totem_volatile_config_validate env net g);! ret tt.

(** The result of [get_interface_params] is not looked at. *)
Definition totemconfig_configure_new_params (map : Z) : iprog unit :=
  catch (get_interface_params map true);!
  put_nodelist_members_to_config env net map true;!
  find_local_node net map false;! ret tt.

(** The result: whether adding members failed. *)
Definition totemconfig_commit_new_params : iprog Z :=
  c <-! get_cfg;!
  configure_totem_links;!
  r <-! lift (compute_and_set_totempg_interfaces totempg_member_add (orig_interfaces c) (interfaces c));!
  let '(orig, calls, res) := r in
  upd_state (fun s => s <| t_calls ::= fun l => l ++ calls ++ [TotempgReconfigure] |>)%list;!
  upd_cfg (fun c => c <| orig_interfaces := orig |>);!
  ret res.

End Reading.
