(* ===== verification/TotemConfigTheory.v ===== *)
(** * The configuration of totem: lemmas

    Which programs only look at the configuration, and what a validation that
    succeeds has checked. *)
From stdpp Require Import pretty.
From S2P Require Import Prelude ErrMonad CString VoteQuorumExec Cpg Icmap Util TotemIp TotemConfig TotemConfigLinks TotemConfigRead.

#[export] Hint Transparent tprog prog : silent.

Section Silent.
Context {M : Type} `{QB : qb_map M}.
Context (env : build_env) (net : net_env).

Lemma silent_get_cfg : silent (get_cfg (M:=M)).
Proof. intros s r s' [= _ <-]. reflexivity. Qed.
Lemma silent_global_map : silent (global_map (M:=M)).
Proof. intros s r s' [= _ <-]. reflexivity. Qed.
Lemma silent_read_map {A} f : silent (read_map (M:=M) (A:=A) f).
Proof. intros s r s' H. apply bind_Some in H as ([e v] & _ & [= _ <-]). reflexivity. Qed.
Lemma silent_iter_map map p : silent (iter_map (M:=M) map p).
Proof. intros s r s' H. apply bind_Some in H as (l & _ & [= _ <-]). reflexivity. Qed.
Lemma silent_config_error {A} msg : silent (config_error (M:=M) (A:=A) msg).
Proof. apply silent_fail. Qed.
Lemma silent_error_response {A} msg : silent (error_response (M:=M) (A:=A) msg).
Proof. apply silent_bind; [apply silent_assert | intros; apply silent_fail]. Qed.
Hint Resolve silent_get_cfg silent_global_map silent_read_map silent_iter_map silent_config_error silent_error_response : silent.

Ltac silently := repeat first [ solve [auto with silent nocore] | apply silent_bind; [|intros ?] | apply silent_when | apply silent_for_each; intros ?
                              | match goal with |- silent (match ?x with _ => _ end) => destruct x end ].

Lemma silent_global_string key : silent (global_string (M:=M) key).
Proof. unfold global_string. silently. Qed.
Lemma silent_global_uint32 key : silent (global_uint32 (M:=M) key).
Proof. unfold global_uint32. silently. Qed.
Hint Resolve silent_global_string silent_global_uint32 : silent.
Lemma silent_get_if i : silent (get_if (M:=M) i).
Proof. unfold get_if. silently. Qed.
Hint Resolve silent_get_if : silent.
Lemma silent_when_configured i (body : totem_interface -> tprog (M:=M) unit) : (forall f, silent (body f)) -> silent (when_configured i body).
Proof. intros Hb. unfold when_configured. silently. Qed.
Lemma silent_check_min name v min : silent (check_min (M:=M) name v min).
Proof. unfold check_min. silently. Qed.
Hint Resolve silent_check_min : silent.
Lemma silent_check_timeouts map : silent (check_timeouts (M:=M) env map).
Proof. unfold check_timeouts. silently. Qed.
Lemma silent_check_links map : silent (check_links (M:=M) map).
Proof. unfold check_links. silently. Qed.
Lemma silent_check_family i a b : silent (check_family (M:=M) net i a b).
Proof. unfold check_family. silently. Qed.
Hint Resolve silent_check_family : silent.
Lemma silent_check_families : silent (check_families (M:=M) net).
Proof. unfold check_families. silently. Qed.
Hint Resolve silent_check_timeouts silent_check_links silent_check_families : silent.
Lemma silent_validate map : silent (totem_volatile_config_validate (M:=M) env net map).
Proof. unfold totem_volatile_config_validate. silently. Qed.
Lemma silent_check_duplicates : silent (check_for_duplicate_nodeids (M:=M) net).
Proof. unfold check_for_duplicate_nodeids. silently. Qed.
Lemma silent_check_interface i f : silent (check_interface (M:=M) env i f).
Proof. unfold check_interface. silently. Qed.

End Silent.
#[export] Hint Resolve silent_get_cfg silent_global_map silent_read_map silent_iter_map silent_config_error silent_error_response
  silent_global_string silent_global_uint32 silent_get_if silent_when_configured silent_check_min silent_check_timeouts silent_check_links silent_check_family
  silent_check_families silent_validate silent_check_duplicates silent_check_interface : silent.

(** ** What a validation checks *)

(** The timeouts are long enough, and consensus waits for a join. *)
Record valid_timeouts (env : build_env) (c : totem_config) : Prop := {
  vt_minimum : Forall (fun t => MINIMUM_TIMEOUT env <= t)
    [max_network_delay c; token_timeout c; token_retransmit_timeout c; join_timeout c; consensus_timeout c; merge_timeout c; downcheck_timeout c];
  vt_hold : exists min, MINIMUM_TIMEOUT_HOLD env = Some min /\ u32 min <= token_hold_timeout c;
  vt_warning : 0 <= token_warning c <= 100;
  vt_consensus : join_timeout c <= consensus_timeout c
}.

(** The interface of a link suits the transport. *)
Record valid_interface (env : build_env) (c : totem_config) (f : totem_interface) : Prop := {
  vi_port : ip_port f <> 0;
  vi_ttl : ttl f <= 255 /\ (udp env (transport_number c) = false -> ttl f = 1);
  vi_priority : knet_link_priority f <= 255 /\ (transport_number c <> TOTEM_TRANSPORT_KNET -> knet_link_priority f = 1);
  vi_node_id : ip_family (mcast_addr f) = AF_INET6 -> node_id c <> 0;
  vi_mcast : udp env (transport_number c) = true -> broadcast_use c = false ->
    ip_family (mcast_addr f) = ip_family (bindnet f) /\ totemip_is_mcast (mcast_addr f) = 0
}.

(** The members of a link have addresses of one family. *)
Definition one_family (f : totem_interface) : Prop :=
  forall j a b, (j < Z.to_nat (member_count f))%nat -> member_list f !! 0%nat = Some a -> member_list f !! j = Some b -> ip_family b = ip_family a.

(** Every link has the same number of nodes. *)
Definition same_counts (c : totem_config) : Prop :=
  forall f f', f ∈ configured_ifs c -> f' ∈ configured_ifs c -> member_count f = member_count f'.

Section Checks.
Context {M : Type} `{QB : qb_map M}.
Context (env : build_env) (net : net_env).

Lemma get_cfg_run (s : tconf M) r s' : get_cfg s = Some (r, s') -> r = inr (t_cfg s) /\ s' = s.
Proof. now intros [= <- <-]. Qed.

Lemma when_error_ok b msg (s : tconf M) u s' : when b (config_error msg) s = Some (inr u, s') -> b = false.
Proof. apply when_fail_ok. intros; discriminate. Qed.

Lemma check_min_ok name v min (s : tconf M) u s' : 0 <= min < 2 ^ 32 -> check_min name v min s = Some (inr u, s') -> min <= v.
Proof. intros Hm H%when_error_ok. rewrite u32_small in H by exact Hm. lia. Qed.

Lemma minimum_range : 0 < HZ env -> 0 <= MINIMUM_TIMEOUT env < 2 ^ 32.
Proof.
  intros H. unfold MINIMUM_TIMEOUT. assert (0 <= 1000 / HZ env <= 1000).
  { split; [apply Z.div_pos; lia | apply Z.div_le_upper_bound; nia]. }
  lia.
Qed.

Lemma check_timeouts_ok map (s : tconf M) u s' :
  0 < HZ env -> check_timeouts env map s = Some (inr u, s') -> valid_timeouts env (t_cfg s).
Proof.
  intros Hz H. pose proof (minimum_range Hz) as Hr. unfold check_timeouts in H.
  run_step H c E. apply get_cfg_run in E as [[= ->] _]. run_step H mh Emh.
  run_step H w1 E1. run_step H w2 E2. run_step H w3 E3. run_step H w4 E4. run_step H w5 E5. run_step H w6 E6.
  run_step H w7 E7. run_step H w8 E8. run_step H w9 E9.
  apply check_min_ok in E1, E2, E6, E7, E9, H; [|exact Hr..]. apply when_error_ok in E3, E5, E8.
  apply when_fail_ok in E4; [|intros ? ? ? Hf; now apply bind_ok in Hf as (? & ? & _ & [=])].
  rewrite u32_small in E4 by exact Hr. apply bind_Some in Emh as (mh' & Emh & [= ->]).
  constructor; [repeat constructor; lia | exists mh; split; [exact Emh | lia] | lia | lia].
Qed.

Lemma check_links_ok map (s : tconf M) u s' : check_links map s = Some (inr u, s') -> same_counts (t_cfg s).
Proof.
  intros H. unfold check_links in H. run_step H c E. apply get_cfg_run in E as [[= ->] _]. unfold same_counts.
  destruct (configured_ifs (t_cfg s)) as [|first [|second l]] eqn:El.
  - intros f f' Hf. now apply elem_of_nil in Hf.
  - intros f f' ->%list_elem_of_singleton ->%list_elem_of_singleton. reflexivity.
  - run_step H w1 E1. 
    + assert (A : forall f, f ∈ first :: second :: l -> member_count f = member_count first).
      { intros f Hf. eapply silent_for_each_ok in H as [v Hv]; [|intros; auto with silent nocore|exact Hf].
        apply when_error_ok in Hv. destruct (Z.eqb_spec (member_count f) (member_count first)); [assumption | discriminate]. }
      intros f f' Hf Hf'. now rewrite (A f Hf), (A f' Hf').
Qed.

Lemma get_if_run i (s : tconf M) f s' : get_if i s = Some (inr f, s') -> interfaces (t_cfg s) !! i = Some f.
Proof. intros H. apply bind_ok in H as (c & s1 & [[= ->] ->]%get_cfg_run & H). now apply bind_Some in H as (x & E & [= <- _]). Qed.

Lemma when_configured_run i f (s : tconf M) body :
  interfaces (t_cfg s) !! i = Some f -> when_configured i body s = when (configured f) (body f) s.
Proof. intros Hf. unfold when_configured. refine (bind_run (get_if i) (fun f => when (configured f) (body f)) s f s _). unfold get_if. rewrite (bind_run get_cfg _ s _ s eq_refl). unfold lift. now rewrite Hf. Qed.

Lemma lift_run {S A} (o : option A) (s : S) a s' : lift o s = Some (inr a, s') -> o = Some a.
Proof. intros H. now apply bind_Some in H as (x & E & [= <- _]). Qed.

Lemma check_family_ok i a b (s : tconf M) u s' : check_family net i a b s = Some (inr u, s') -> ip_family a = ip_family b.
Proof.
  intros H. apply when_fail_ok in H; [|intros ? ? ? Hf; now apply bind_ok in Hf as (? & ? & _ & [=])].
  destruct (Z.eqb_spec (ip_family a) (ip_family b)); [assumption | discriminate].
Qed.

Lemma check_families_ok (s : tconf M) u s' :
  check_families net s = Some (inr u, s') ->
  forall i f, (i < INTERFACE_MAX)%nat -> interfaces (t_cfg s) !! i = Some f -> configured f = true -> one_family f.
Proof.
  intros H i f Hi Hf Hc. unfold check_families in H. run_step H c E. apply get_cfg_run in E as [[= ->] _].
  assert (Hin : i ∈ seq 0 INTERFACE_MAX) by (apply elem_of_seq; lia).
  eapply silent_for_each_ok in H as [w Hw]; [|intros; auto 20 with silent nocore|exact Hin].
  apply bind_ok in Hw as (f' & s1 & Ef & Hw). pose proof (silent_lift _ _ _ _ Ef) as ->. apply lift_run in Ef.
  rewrite Hf in Ef. injection Ef as <-. intros j a b Hj Ha Hb. destruct j as [|j]; [congruence|].
  assert (Hjn : S j ∈ seq 1 (Z.to_nat (member_count f) - 1)) by (apply elem_of_seq; lia).
  eapply silent_for_each_ok in Hw as [w' Hw]; [|intros; auto 20 with silent nocore|exact Hjn].
  rewrite Hc in Hw. cbn [when] in Hw. run_step Hw m Em. apply lift_run in Em. run_step Hw m0 Em0. apply lift_run in Em0.
  apply check_family_ok in Hw. congruence.
Qed.

Lemma check_interface_ok i f (s : tconf M) u s' : check_interface env i f s = Some (inr u, s') -> valid_interface env (t_cfg s) f.
Proof.
  intros H. unfold check_interface in H. run_step H c E. apply get_cfg_run in E as [[= ->] _].
  run_step H w1 E1. run_step H w2 E2. run_step H w3 E3. run_step H w4 E4. run_step H w5 E5. run_step H w6 E6. run_step H w7 E7.
  apply when_error_ok in E2, E3, E4, E5, E6, E7. constructor.
  - lia.
  - split; [lia|]. intros Hu. rewrite Hu in E4. lia.
  - split; [lia|]. intros Ht. unfold knet in E6. rewrite bool_decide_eq_false_2 in E6 by exact Ht. lia.
  - intros Hf. rewrite Hf, Z.eqb_refl in E7. lia.
  - intros Hu Hb. rewrite Hu, Hb in H. cbn [negb andb when] in H. run_step H w8 E8. apply when_error_ok in E8, H. lia.
Qed.

Lemma check_interfaces_ok (s : tconf M) u s' :
  for_each (seq 0 INTERFACE_MAX) (fun i => when_configured i (check_interface env i)) s = Some (inr u, s') ->
  forall i f, (i < INTERFACE_MAX)%nat -> interfaces (t_cfg s) !! i = Some f -> configured f = true -> valid_interface env (t_cfg s) f.
Proof.
  intros H i f Hi Hf Hc. assert (Hin : i ∈ seq 0 INTERFACE_MAX) by (apply elem_of_seq; lia).
  eapply silent_for_each_ok in H as [w Hw]; [|intros; auto 20 with silent nocore|exact Hin].
  apply bind_ok in Hw as (f' & s1 & Ef & Hw). pose proof (silent_get_if _ _ _ _ Ef) as ->. apply get_if_run in Ef.
  rewrite Hf in Ef. injection Ef as <-. rewrite Hc in Hw. exact (check_interface_ok _ _ _ _ _ Hw).
Qed.

End Checks.

(** ** A valid configuration *)

Record valid_config (env : build_env) (c : totem_config) : Prop := {
  vc_timeouts : valid_timeouts env c;
  vc_version : version c = 2;
  vc_links : configured_ifs c <> [];
  vc_counts : same_counts c;
  vc_interfaces : forall i f, (i < INTERFACE_MAX)%nat -> interfaces c !! i = Some f -> configured f = true ->
    valid_interface env c f /\ one_family f;
  vc_mode : link_mode c = "active"%string \/ link_mode c = "rr"%string \/ link_mode c = "passive"%string;
  (** only knet has several links and encryption *)
  vc_knet : transport_number c <> TOTEM_TRANSPORT_KNET ->
    (length (configured_ifs c) <= 1)%nat /\ crypto_cipher_type c = "none"%string /\ crypto_hash_type c = "none"%string
}.

(** The size of the network packets does not matter for it. *)
Lemma valid_config_mtu env c v : valid_config env c -> valid_config env (c <| net_mtu := v |>).
Proof.
  intros [[] ? ? ? Hi ? ?]. constructor; try assumption; [constructor; assumption|].
  intros i f H1 H2 H3. destruct (Hi i f H1 H2 H3) as [[] ?]. split; [constructor; assumption | assumption].
Qed.

(** What a validation that succeeds has checked. *)
Lemma validate_ok {M} `{QB : qb_map M} env net (s s' : tconf M) u :
  0 < HZ env -> totem_config_validate env net s = Some (inr u, s') ->
  valid_config env (t_cfg s) /\
  s' = s <| t_cfg ::= fun c => if net_mtu c =? 0
                               then c <| net_mtu := if knet (transport_number c) then KNET_MAX_PACKET_SIZE env else UDP_NETMTU |> else c |> /\
  (exists err pos, icmap_get_uint32 "nodelist.local_node_pos" (t_map s) = Some (err, Some pos)) /\
  check_for_duplicate_nodeids net s = Some (inr tt, s).
Proof.
  intros Hz H. unfold totem_config_validate in H. run_step H c E. apply get_cfg_run in E as [[= ->] _].
  run_step H w1 E1. apply when_error_ok in E1.
  run_step H pos Ep. run_step H w2 E2. apply when_error_ok in E2. run_step H w3 E3. run_step H w4 E4. apply when_error_ok in E4.
  run_step H g Eg. run_step H w5 E5. run_step H w6 E6. run_step H w7 E7. apply when_error_ok in E7.
  run_step H w8 E8. apply when_error_ok in E8. run_step H w9 E9. apply when_error_ok in E9. injection H as _ <-.
  pose proof (check_interfaces_ok _ _ _ _ E3) as Hi. unfold totem_volatile_config_validate in E5.
  run_step E5 v1 F1. run_step E5 v2 F2. apply (check_timeouts_ok _ _ _ _ _ Hz) in F1. apply check_links_ok in F2.
  pose proof (check_families_ok _ _ _ _ E5) as Hf. split; [constructor|split; [reflexivity|split]].
  - exact F1.
  - destruct (Z.eqb_spec (version (t_cfg s)) 2); [assumption | discriminate].
  - destruct (configured_ifs (t_cfg s)); [discriminate | easy].
  - exact F2.
  - intros i f H1 H2 H3. split; [exact (Hi i f H1 H2 H3) | exact (Hf i f H1 H2 H3)].
  - apply negb_false_iff, existsb_exists in E7 as (m & Hm & ->%String.eqb_eq). cbn in Hm. naive_solver.
  - intros Ht. unfold knet in E8, E9. rewrite bool_decide_eq_false_2 in E8, E9 by exact Ht. cbn in E8, E9.
    apply orb_false_iff in E9 as [A%negb_false_iff%String.eqb_eq B%negb_false_iff%String.eqb_eq]. repeat split; [lia | exact A | exact B].
  - unfold global_uint32 in Ep. apply bind_ok in Ep as (g' & s1 & [= <- <-] & Ep). apply bind_Some in Ep as ([err v] & Ep & [= <-]).
    destruct v as [v|]; [eauto | discriminate].
  - now destruct w6.
Qed.
