(* ===== verification/TotemConfigVolatile.v ===== *)
(** * The configuration of totem: the parameters that can change

    [totem_volatile_config_read] is a sequence of reads and stores on the
    configuration map.  [volatile_config] is what it computes from the map as it is at
    the beginning: the stores are to other keys and publish the values used. *)
From stdpp Require Import pretty.
From Stdlib Require Import Floats.SpecFloat.
From S2P Require Import Prelude ErrMonad CString VoteQuorumExec Cpg Icmap IcmapTheory IcmapProps Util TotemIp TotemConfig TotemConfigLinks TotemConfigRead TotemConfigTheory.

Local Open Scope string_scope.
Local Open Scope Z_scope.

(** ** The values of a map *)

Section Values.
Context {M : Type} `{QB : qb_map M}.

Definition value_of {A} (r : option (Z * option A)) : option A := '(_, v) ← r; v.
Definition uint32_of (map : Z) (key : string) (m : icmap M) : option Z := value_of (icmap_get_uint32_r map key m).
Definition int32_of (map : Z) (key : string) (m : icmap M) : option Z := value_of (icmap_get_int32_r map key m).
Definition string_of (map : Z) (key : string) (m : icmap M) : option string := value_of (icmap_get_string_r map key m).
End Values.

(** ** The reference *)

(** [u], [i], [str]: the values of the keys; [deleted]: the key that is being deleted;
    [n]: the members of the first link.  Nothing here is taken from the code: the
    defaults are those of corosync.conf(5), the formulas are written out over IEEE
    numbers. *)
Section Reference.
Context (env : build_env) (u i : string -> option Z) (str : string -> option string) (deleted : option string) (n : Z).

(** The value in force: the one configured, unless its key is being deleted or it
    is a zero that stands for the default. *)
Definition in_force (key : string) (v : option Z) (d : Z) (zero : bool) : Z :=
  match v with
  | None => d
  | Some x => if bool_decide (deleted = Some key) then d else if zero then x else if bool_decide (x = 0) then d else x
  end.

Definition uint_value (key : string) (d : Z) (zero : bool) : Z := in_force key (u key) (u32 d) zero.
Definition boolean_value (key : string) (d : Z) : Z :=
  u32 (if bool_decide (deleted = Some key) then d
       else match str key with Some x => if strcmp_eq x "yes" then 1 else if strcmp_eq x "no" then 0 else d | None => d end).
Definition retransmits_value : Z := uint_value "totem.token_retransmits_before_loss_const" 4 false.
(** The token timeout grows with the nodes beyond two. *)
Definition token_value : Z :=
  let base := uint_value "totem.token" 3000 false in
  if 2 <? n then u32 (base + (n - 2) * default 650 (u "totem.token_coefficient")) else base.
Definition model_value : string :=
  if bool_decide (deleted = Some "totem.knet_compression_model") then "none" else default "none" (str "totem.knet_compression_model").

(** Numbers as doubles, and the doubles next to 0.2, 0.8 and 1.2. *)
Definition binary64 (z : Z) : spec_float := binary_normalize 53 1024 z 0 false.
Definition binary64_0_2 : spec_float := S754_finite false 7205759403792794 (-55).
Definition binary64_0_8 : spec_float := S754_finite false 7205759403792794 (-53).
Definition binary64_1_2 : spec_float := S754_finite false 5404319552844595 (-52).

(** A number cut off to an [int], which it must fit. *)
Definition truncated (x : spec_float) : option Z :=
  match x with
  | S754_zero _ => Some 0
  | S754_finite s m e =>
      let v := Z.quot (cond_Zopp s (Zpos m) * 2 ^ Z.max 0 e) (2 ^ Z.max 0 (- e)) in
      if bool_decide (- 2 ^ 31 <= v < 2 ^ 31) then Some v else None
  | _ => None
  end.

(** The token is retransmitted as often as configured before it is lost, with a
    fifth of an interval to spare; it is held for four fifths of that less a tick;
    consensus takes six fifths of the token timeout, as a single. *)
Definition retransmit_default (token retransmits : Z) : option Z :=
  truncated (SFdiv 53 1024 (binary64 token) (SFadd 53 1024 (binary64 retransmits) binary64_0_2)).
Definition hold_default (retransmit : Z) : option Z :=
  truncated (SFsub 53 1024 (SFmul 53 1024 (binary64 retransmit) binary64_0_8) (binary64 (1000 / HZ env))).
Definition consensus_default (token : Z) : option Z :=
  truncated (match SFmul 53 1024 binary64_1_2 (binary64 token) with
             | S754_finite s m e => binary_normalize 24 128 (cond_Zopp s (Zpos m)) e s
             | x => x
             end).

(** The structure, given the defaults of the timeouts that depend on others. *)
Definition volatile_values (r h k : Z) (c : totem_config) : totem_config :=
  c <| token_retransmits_before_loss_const := retransmits_value |> <| token_timeout := token_value |>
    <| token_warning := uint_value "totem.token_warning" 75 true |>
    <| max_network_delay := uint_value "totem.max_network_delay" 50 false |>
    <| window_size := uint_value "totem.window_size" 50 false |> <| max_messages := uint_value "totem.max_messages" 17 false |>
    <| miss_count_const := uint_value "totem.miss_count_const" 5 false |>
    <| knet_pmtud_interval := uint_value "totem.knet_pmtud_interval" 30 false |> <| knet_mtu := uint_value "totem.knet_mtu" 0 false |>
    <| token_retransmit_timeout := uint_value "totem.token_retransmit" r false |>
    <| token_hold_timeout := uint_value "totem.hold" h false |>
    <| join_timeout := uint_value "totem.join" 50 false |> <| consensus_timeout := uint_value "totem.consensus" k false |>
    <| merge_timeout := uint_value "totem.merge" 200 false |> <| downcheck_timeout := uint_value "totem.downcheck" 1000 false |>
    <| fail_to_recv_const := uint_value "totem.fail_recv_const" 2500 false |>
    <| seqno_unchanged_const := uint_value "totem.seqno_unchanged_const" 30 false |>
    <| send_join_timeout := uint_value "totem.send_join" 0 true |>
    <| heartbeat_failures_allowed := uint_value "totem.heartbeat_failures_allowed" 0 true |>
    <| knet_compression_threshold := uint_value "totem.knet_compression_threshold" 0 true |>
    <| knet_compression_level := in_force "totem.knet_compression_level" (i "totem.knet_compression_level") 0 true |>
    <| knet_compression_model := model_value |>
    <| block_unlisted_ips := boolean_value "totem.block_unlisted_ips" 1 |>
    <| cancel_token_hold_on_retransmit := boolean_value "totem.cancel_token_hold_on_retransmit" 0 |>.

Definition volatile_config (c : totem_config) : option totem_config :=
  r ← retransmit_default token_value retransmits_value;
  h ← hold_default (uint_value "totem.token_retransmit" r false);
  k ← consensus_default token_value;
  if Nat.ltb (length (chars model_value)) CONFIG_STRING_LEN_MAX then Some (volatile_values r h k c) else None.

End Reference.

(** *** The code's choices and defaults are those of the reference *)

Lemma chosen_in_force deleted key v d zero :
  chosen_value v (is_deleted deleted key) d zero = in_force deleted key v d zero.
Proof.
  unfold chosen_value, in_force, is_deleted. destruct v as [x|]; [|done].
  destruct (bool_decide (deleted = Some key)); [done|]. destruct zero; cbn; [done|].
  destruct (Z.eqb_spec x 0), (bool_decide_reflect (x = 0)); done.
Qed.

Lemma int_of_truncated x : int_of x = truncated x.
Proof.
  destruct x as [s| | |s m e]; try done. cbn [int_of truncated].
  assert (E : (if s then - (if 0 <=? e then Zpos m * 2 ^ e else Zpos m / 2 ^ (- e))
               else if 0 <=? e then Zpos m * 2 ^ e else Zpos m / 2 ^ (- e))
              = Z.quot (cond_Zopp s (Zpos m) * 2 ^ Z.max 0 e) (2 ^ Z.max 0 (- e))).
  { destruct (Z.leb_spec 0 e).
    - rewrite Z.max_r, (Z.max_l 0 (- e)) by lia. rewrite Z.quot_1_r. destruct s; cbn [cond_Zopp]; lia.
    - rewrite Z.max_l, (Z.max_r 0 (- e)), Z.mul_1_r by lia. pose proof (Z.pow_pos_nonneg 2 (- e) ltac:(lia) ltac:(lia)).
      destruct s; cbn [cond_Zopp]; rewrite ?Z.quot_opp_l by lia; now rewrite Z.quot_div_nonneg by lia. }
  cbv zeta. rewrite E. set (v := Z.quot _ _). destruct (Z.leb_spec (- 2 ^ 31) v), (Z.ltb_spec v (2 ^ 31)), (bool_decide_reflect (- 2 ^ 31 <= v < 2 ^ 31));
    cbn [andb]; done || lia.
Qed.

Lemma default_retransmit_spec token k : default_retransmit token k = retransmit_default token k.
Proof.
  unfold default_retransmit, retransmit_default. rewrite int_of_truncated.
  assert (d_0_2 = binary64_0_2) as -> by (vm_compute; reflexivity). reflexivity.
Qed.

Lemma default_hold_spec env r : default_hold env r = hold_default env r.
Proof.
  unfold default_hold, hold_default. rewrite int_of_truncated.
  assert (d_0_8 = binary64_0_8) as -> by (vm_compute; reflexivity). reflexivity.
Qed.

Lemma default_consensus_spec token : default_consensus token = consensus_default token.
Proof.
  unfold default_consensus, consensus_default. rewrite int_of_truncated.
  assert (d_1_2 = binary64_1_2) as -> by (vm_compute; reflexivity).
  change (dbl_mul binary64_1_2 (dbl token)) with (SFmul 53 1024 binary64_1_2 (binary64 token)).
  now destruct (SFmul _ _ _ _).
Qed.

(** ** Runs *)

Definition written (ws : list (string * icmap_item)) (k : string) : option icmap_item :=
  match list_find (fun w => fst w = k) ws with Some (_, (_, i)) => Some i | None => None end.

Lemma written_cons k i ws k' : written ((k, i) :: ws) k' = if String.eqb k k' then Some i else written ws k'.
Proof.
  unfold written. cbn. destruct (String.eqb_spec k k') as [->|N]; [now rewrite decide_True|]. rewrite decide_False by exact N.
  destruct (list_find _ ws) as [[j [k2 i2]]|]; reflexivity.
Qed.

Lemma written_none ws k : k ∉ List.map fst ws -> written ws k = None.
Proof.
  induction ws as [|[k' i] ws IH]; [reflexivity|]. cbn [List.map fst]. rewrite not_elem_of_cons, written_cons. intros [N H].
  destruct (String.eqb_spec k' k); [congruence | exact (IH H)].
Qed.

Section Runs.
Context {M : Type} `{QB : qb_map M} `{QL : !qb_map_laws M}.
Context (map : Z).

Definition uint32_item (v : Z) : icmap_item := mk_item ICMAP_VALUETYPE_UINT32 (le_bytes 4 v).
Definition int32_item (v : Z) : icmap_item := mk_item ICMAP_VALUETYPE_INT32 (le_bytes 4 v).
Definition string_item (v : string) : icmap_item := mk_item ICMAP_VALUETYPE_STRING (bytes_of_string v ++ [0])%list.

(** From [s] to [s'] the keys of [ws] were written, the last one first, and the
    configuration became [c]. *)
Record vrun (ws : list (string * icmap_item)) (c : totem_config) (s s' : tconf M) : Prop := {
  vr_ok : icmap_ok (t_map s');
  vr_map : is_Some (map_at map (t_map s'));
  vr_map0 : is_Some (map_at map (t_map s));
  vr_global : icmap_global_map (t_map s') = icmap_global_map (t_map s);
  vr_lookup : forall k, lookup_item map k (t_map s') = match written ws k with Some i => Some i | None => lookup_item map k (t_map s) end;
  vr_cfg : t_cfg s' = c;
  vr_calls : t_calls s' = t_calls s;
  vr_warnings : t_warnings s' = t_warnings s
}.

Lemma vrun_init s : icmap_ok (t_map s) -> is_Some (map_at map (t_map s)) -> vrun [] (t_cfg s) s s.
Proof. now constructor. Qed.

Lemma vrun_cfg ws c f s s' : vrun ws c s s' -> vrun ws (f c) s (s' <| t_cfg ::= f |>).
Proof. intros []. constructor; try assumption. cbn. now f_equal. Qed.

Lemma vrun_stored ws c s s' k i m : vrun ws c s s' -> stored map k i (t_map s') m -> vrun ((k, i) :: ws) c s (s' <| t_map := m |>).
Proof.
  intros [] []. constructor; try assumption; cbn; [congruence|]. intros k'. rewrite st_lookup, written_cons, vr_lookup0. now destruct (String.eqb k k').
Qed.

(** Values read during a run are those of the beginning. *)
Section Reads.
Context (ws : list (string * icmap_item)) (c : totem_config) (s s' : tconf M) (V : vrun ws c s s') (k : string) (Hw : written ws k = None).

Lemma run_lookup : lookup_item map k (t_map s') = lookup_item map k (t_map s).
Proof. now rewrite (vr_lookup _ _ _ _ V), Hw. Qed.

Lemma read_map_some {A} (f : icmap M -> option (Z * option A)) (v : option A) :
  f (t_map s') = f (t_map s) -> is_Some (f (t_map s)) -> value_of (f (t_map s)) = v -> read_map f s' = Some (inr v, s').
Proof. intros E [[e x] H] <-. unfold read_map. rewrite E, H. reflexivity. Qed.

Lemma get_int_total t : is_Some (icmap_get_int_r map k t (t_map s)).
Proof. unfold icmap_get_int_r. rewrite get_r_lookup by apply V. cbn [mbind option_bind]. match goal with |- is_Some (let '(_, _) := ?x in _) => destruct x end. now eexists. Qed.

Lemma run_read_uint32 : read_map (icmap_get_uint32_r map k) s' = Some (inr (uint32_of map k (t_map s)), s').
Proof.
  apply read_map_some; [apply get_unsigned_ext; [apply V.. | exact run_lookup]| |reflexivity].
  destruct (get_int_total ICMAP_VALUETYPE_UINT32) as [[e v] E]. unfold icmap_get_uint32_r, get_unsigned. rewrite E. cbn. eauto.
Qed.
Lemma run_read_int32 : read_map (icmap_get_int32_r map k) s' = Some (inr (int32_of map k (t_map s)), s').
Proof.
  apply read_map_some; [apply get_signed_ext; [apply V.. | exact run_lookup]| |reflexivity].
  destruct (get_int_total ICMAP_VALUETYPE_INT32) as [[e v] E]. unfold icmap_get_int32_r, get_signed. rewrite E. cbn. eauto.
Qed.
Lemma run_read_string : read_map (icmap_get_string_r map k) s' = Some (inr (string_of map k (t_map s)), s').
Proof.
  apply read_map_some; [apply get_string_ext; [apply V.. | exact run_lookup]| |reflexivity].
  unfold icmap_get_string_r. rewrite get_r_lookup by apply V. cbn [mbind option_bind].
  destruct (lookup_item map k (t_map s)) as [i|]; [|eauto]. cbn [negb g_type g_value_len]. change (negb (CS_OK =? CS_OK)) with false.
  destruct (ii_type i); eauto. rewrite get_r_lookup by apply V. cbn [mbind option_bind]. match goal with |- is_Some (let '(_, _) := ?x in _) => destruct x end. now eexists.
Qed.

End Reads.

(** ** One parameter *)

(** The store of a value that was chosen. *)
Lemma run_store ws c s s' rk t v : vrun ws c s s' -> t <> ICMAP_VALUETYPE_STRING -> t <> ICMAP_VALUETYPE_BINARY -> icmap_check_key_name rk = true ->
  exists s2, write_map (set_int t map rk v) s' = Some (inr tt, s2) /\ vrun ((rk, mk_item t (le_bytes (icmap_get_valuetype_len t) v)) :: ws) c s s2.
Proof.
  intros V N1 N2 Hk. destruct (set_int_stored t map rk v (t_map s') (vr_ok _ _ _ _ V) (vr_map _ _ _ _ V) N1 N2 Hk) as (m & E & S).
  exists (s' <| t_map := m |>). split; [unfold write_map; now rewrite E | exact (vrun_stored _ _ _ _ _ _ _ V S)].
Qed.

Context (deleted : option string).
Notation uint s key d zero := (in_force deleted key (uint32_of map key (t_map s)) (u32 d) zero).

Lemma run_uint32 ws c s s' key d zero get set rk : vrun ws c s s' -> written ws key = None ->
  totem_get_param_by_name key = Some (IntParam get set) -> runtime_key key = Some rk -> icmap_check_key_name rk = true ->
  exists s2, totem_volatile_config_set_uint32_value map key deleted d zero s' = Some (inr tt, s2) /\
    vrun ((rk, uint32_item (uint s key d zero)) :: ws) (set (uint s key d zero) c) s s2.
Proof.
  intros V Hw Hp Hr Hk. unfold totem_volatile_config_set_uint32_value. rewrite (bind_run _ _ _ _ _ (run_read_uint32 _ _ _ _ V key Hw)).
  unfold int_param. rewrite Hp, (bind_run (ret set) _ s' set s' eq_refl). cbv zeta. rewrite chosen_in_force. set (x := uint s key d zero).
  rewrite (bind_run (upd_cfg (set x)) _ s' tt _ eq_refl). unfold store_runtime. rewrite Hr.
  exact (run_store _ _ _ _ rk ICMAP_VALUETYPE_UINT32 x (vrun_cfg _ _ (set x) _ _ V) ltac:(discriminate) ltac:(discriminate) Hk).
Qed.

Lemma run_int32 ws c s s' key d zero get set rk : vrun ws c s s' -> written ws key = None ->
  totem_get_param_by_name key = Some (IntParam get set) -> runtime_key key = Some rk -> icmap_check_key_name rk = true ->
  let x := in_force deleted key (int32_of map key (t_map s)) d zero in
  exists s2, totem_volatile_config_set_int32_value map key deleted d zero s' = Some (inr tt, s2) /\ vrun ((rk, int32_item x) :: ws) (set x c) s s2.
Proof.
  intros V Hw Hp Hr Hk x. unfold totem_volatile_config_set_int32_value. rewrite (bind_run _ _ _ _ _ (run_read_int32 _ _ _ _ V key Hw)).
  unfold int_param. rewrite Hp, (bind_run (ret set) _ s' set s' eq_refl). cbv zeta. rewrite chosen_in_force.
  rewrite (bind_run (upd_cfg (set x)) _ s' tt _ eq_refl). unfold store_runtime. rewrite Hr.
  exact (run_store _ _ _ _ rk ICMAP_VALUETYPE_INT32 x (vrun_cfg _ _ (set x) _ _ V) ltac:(discriminate) ltac:(discriminate) Hk).
Qed.

Lemma run_boolean ws c s s' key d get set rk : vrun ws c s s' -> written ws key = None ->
  totem_get_param_by_name key = Some (IntParam get set) -> runtime_key key = Some rk -> icmap_check_key_name rk = true ->
  let x := u32 (if bool_decide (deleted = Some key) then d
                else match string_of map key (t_map s) with Some x => if strcmp_eq x "yes" then 1 else if strcmp_eq x "no" then 0 else d | None => d end) in
  exists s2, totem_volatile_config_set_boolean_value map key deleted d s' = Some (inr tt, s2) /\ vrun ((rk, uint32_item x) :: ws) (set x c) s s2.
Proof.
  intros V Hw Hp Hr Hk x. unfold totem_volatile_config_set_boolean_value.
  rewrite (bind_run _ _ s' (if bool_decide (deleted = Some key) then None else string_of map key (t_map s)) s')
    by (unfold is_deleted; destruct (bool_decide (deleted = Some key)); [reflexivity | exact (run_read_string _ _ _ _ V key Hw)]).
  rewrite Hr. unfold int_param. rewrite Hp, (bind_run (ret set) _ s' set s' eq_refl).
  match goal with |- context [upd_cfg (set ?y)] => replace y with x by (unfold x; now destruct (bool_decide (deleted = Some key))) end.
  rewrite (bind_run (upd_cfg (set x)) _ s' tt _ eq_refl).
  exact (run_store _ _ _ _ rk ICMAP_VALUETYPE_UINT32 x (vrun_cfg _ _ (set x) _ _ V) ltac:(discriminate) ltac:(discriminate) Hk).
Qed.

Definition model_of (s : tconf M) : string :=
  if bool_decide (deleted = Some "totem.knet_compression_model") then "none" else default "none" (string_of map "totem.knet_compression_model" (t_map s)).

Lemma run_model ws c s s' rk : vrun ws c s s' -> written ws "totem.knet_compression_model" = None ->
  runtime_key "totem.knet_compression_model" = Some rk -> icmap_check_key_name rk = true -> c_str (model_of s) ->
  let r := totem_volatile_config_set_string_value map "totem.knet_compression_model" deleted "none" s' in
  if Nat.ltb (length (chars (model_of s))) CONFIG_STRING_LEN_MAX
  then exists s2, r = Some (inr tt, s2) /\ vrun ((rk, string_item (model_of s)) :: ws) (c <| knet_compression_model := model_of s |>) s s2
  else r = None.
Proof.
  intros V Hw Hr Hk Hc r. unfold r, totem_volatile_config_set_string_value. rewrite (bind_run _ _ _ _ _ (run_read_string _ _ _ _ V _ Hw)).
  rewrite (bind_run (lift (totem_get_param_by_name "totem.knet_compression_model")) _ s' StringParam s' eq_refl).
  rewrite (bind_run (assert_that true) _ s' tt s' eq_refl).
  replace (match string_of map "totem.knet_compression_model" (t_map s) with Some x => _ | None => _ end) with (model_of s)
    by (unfold model_of, is_deleted; now destruct (string_of _ _ _), (bool_decide (deleted = _))).
  destruct (Nat.ltb_spec (length (chars (model_of s))) CONFIG_STRING_LEN_MAX) as [Hl|Hl]; [|reflexivity].
  rewrite (bind_run (assert_that true) _ s' tt s' eq_refl).
  rewrite (bind_run (upd_cfg (fun c => c <| knet_compression_model := model_of s |>)) _ s' tt _ eq_refl). unfold store_runtime. rewrite Hr.
  pose proof (vrun_cfg _ _ (fun c => c <| knet_compression_model := model_of s |>) _ _ V) as V2.
  destruct (set_string_stored map rk (model_of s) _ (vr_ok _ _ _ _ V2) (vr_map _ _ _ _ V2) Hc) as (m & E & S);
    [unfold ICMAP_MAX_VALUE_LEN, CONFIG_STRING_LEN_MAX in *; lia | exact Hk|].
  eexists. split; [unfold write_map; now rewrite E | exact (vrun_stored _ _ _ _ _ _ _ V2 S)].
Qed.

Lemma run_scale ws c s s' n : vrun ws c s s' -> written ws "totem.token_coefficient" = None -> first_member_count c = Some n ->
  written ws "runtime.config.totem.token" = Some (uint32_item (token_timeout c)) ->
  let t := if 2 <? n then u32 (token_timeout c + (n - 2) * default 650 (uint32_of map "totem.token_coefficient" (t_map s))) else token_timeout c in
  exists s2, scale_token map s' = Some (inr tt, s2) /\
    vrun (("runtime.config.totem.token", uint32_item t) :: ws) (c <| token_timeout := t |>) s s2.
Proof.
  intros V Hw Hn Hp t. unfold scale_token. rewrite (bind_run get_cfg _ s' c s') by (unfold get_cfg; now rewrite (vr_cfg _ _ _ _ V)).
  rewrite (bind_run (lift (first_member_count c)) _ s' n s') by (unfold lift; now rewrite Hn). subst t. destruct (2 <? n); cbn [when].
  - rewrite (bind_run _ _ _ _ _ (run_read_uint32 _ _ _ _ V _ Hw)).
    match goal with |- context [upd_cfg ?f] => rewrite (bind_run (upd_cfg f) _ s' tt _ eq_refl); pose proof (vrun_cfg _ _ f _ _ V) as V2 end.
    exact (run_store _ _ _ _ "runtime.config.totem.token" ICMAP_VALUETYPE_UINT32 _ V2 ltac:(discriminate) ltac:(discriminate) eq_refl).
  - exists s'. split; [reflexivity|]. destruct V. constructor; try assumption.
    + intros k. rewrite vr_lookup0, written_cons. destruct (String.eqb_spec "runtime.config.totem.token" k) as [<-|]; [now rewrite Hp | reflexivity].
    + rewrite vr_cfg0. now destruct c.
Qed.

End Runs.

(** ** The whole reading *)

(** Every parameter is published under its runtime key; the item of a parameter. *)
Definition param_item (key : string) (p : param) (c : totem_config) : icmap_item :=
  match p with
  | IntParam get _ => if String.eqb key "totem.knet_compression_level" then int32_item (get c) else uint32_item (get c)
  | StringParam => string_item (knet_compression_model c)
  end.

Definition published {M} `{qb_map M} (map : Z) (s : tconf M) : Prop :=
  Forall (fun x => lookup_item map ("runtime.config." +:+ fst x) (t_map s) = Some (param_item (fst x) (snd x) (t_cfg s))) int_params.

Definition runtime_keys : list string := List.map (fun x => "runtime.config." +:+ fst x) int_params.

Section Whole.
Context {M : Type} `{QB : qb_map M} `{QL : !qb_map_laws M}.
Context (env : build_env) (map : Z) (deleted : option string).

(** What the map gives to the reference. *)
Definition reference (s : tconf M) (n : Z) : option totem_config :=
  volatile_config env (fun k => uint32_of map k (t_map s)) (fun k => int32_of map k (t_map s)) (fun k => string_of map k (t_map s)) deleted n (t_cfg s).

Ltac next_uint V E :=
  match type of V with vrun _ ?ws ?c ?s ?s' =>
    match type of E with _ = act_bind (totem_volatile_config_set_uint32_value _ ?key _ ?d ?zero) _ _ =>
      let s2 := fresh "s" in let E2 := fresh "E" in let V2 := fresh "V" in
      destruct (run_uint32 map deleted ws c s s' key d zero _ _ _ V eq_refl eq_refl eq_refl eq_refl) as (s2 & E2 & V2);
      rewrite (bind_run _ _ _ _ _ E2) in E; clear E2 V; rename V2 into V
    end
  end.

(** The structure read in the middle of the sequence. *)
Ltac next_cfg V E :=
  match type of V with vrun _ ?ws ?c ?s ?s' =>
    match type of E with _ = act_bind get_cfg ?f _ =>
      rewrite (bind_run get_cfg f s' c s') in E by (unfold get_cfg; now rewrite (vr_cfg _ _ _ _ _ V))
    end
  end.

(** A default value that may be undefined, also in the reference. *)
Ltac next_lift E x :=
  match goal with |- match (?t ≫= _) with _ => _ end =>
    match type of E with _ = act_bind (lift ?t') _ ?s =>
      change t' with t in E; destruct t as [x|]; cbn [mbind option_bind]; [|exact E]; rewrite (bind_run (lift (Some x)) _ s x s eq_refl) in E
    end
  end.

(** The reading computes the reference. *)
Lemma volatile_read_spec (s : tconf M) n : icmap_ok (t_map s) -> is_Some (map_at map (t_map s)) ->
  first_member_count (t_cfg s) = Some n -> c_str (model_of map deleted s) ->
  let r := totem_volatile_config_read env map deleted s in
  match reference s n with
  | None => r = None
  | Some c => exists s', r = Some (inr tt, s') /\ t_cfg s' = c /\ published map s' /\
      (forall k, k ∉ runtime_keys -> lookup_item map k (t_map s') = lookup_item map k (t_map s)) /\
      icmap_ok (t_map s') /\ t_calls s' = t_calls s /\ t_warnings s' = t_warnings s
  end.
Proof.
  intros Ok Hm Hn Hc r. assert (E : r = totem_volatile_config_read env map deleted s) by reflexivity. clearbody r.
  pose proof (vrun_init map s Ok Hm) as V. unfold totem_volatile_config_read in E. cbv zeta in E.
  next_uint V E. next_uint V E. next_uint V E.
  match type of V with vrun _ ?ws ?c ?s ?s' => destruct (run_scale map ws c s s' n V eq_refl Hn eq_refl) as (t3 & E3 & V3) end.
  rewrite (bind_run _ _ _ _ _ E3) in E. clear E3 V. rename V3 into V.
  do 6 next_uint V E. next_cfg V E. unfold reference, volatile_config. cbv zeta.
  rewrite default_retransmit_spec in E. next_lift E rt. next_uint V E. next_cfg V E.
  rewrite default_hold_spec in E. next_lift E h. next_uint V E. next_uint V E. next_cfg V E.
  rewrite default_consensus_spec in E. next_lift E k.
  do 8 next_uint V E.
  match type of V with vrun _ ?ws ?c ?s ?s' =>
    destruct (run_int32 map deleted ws c s s' "totem.knet_compression_level" 0 true _ _ _ V eq_refl eq_refl eq_refl eq_refl) as (t4 & E4 & V4) end.
  rewrite (bind_run _ _ _ _ _ E4) in E. clear E4 V. rename V4 into V.
  match type of V with vrun _ ?ws ?c ?s ?s' => pose proof (run_model map deleted ws c s s' _ V eq_refl eq_refl eq_refl Hc) as Em end.
  cbv zeta in Em.
  match goal with |- context [Nat.ltb (length (chars ?m)) _] => change m with (model_of map deleted s) end. destruct (Nat.ltb (length (chars (model_of map deleted s))) CONFIG_STRING_LEN_MAX).
  2:{ rewrite E. unfold act_bind at 1. now rewrite Em. }
  destruct Em as (t5 & E5 & V5). rewrite (bind_run _ _ _ _ _ E5) in E. clear E5 V. rename V5 into V.
  match type of V with vrun _ ?ws ?c ?s ?s' =>
    destruct (run_boolean map deleted ws c s s' "totem.block_unlisted_ips" BLOCK_UNLISTED_IPS _ _ _ V eq_refl eq_refl eq_refl eq_refl) as (t6 & E6 & V6) end.
  rewrite (bind_run _ _ _ _ _ E6) in E. clear E6 V. rename V6 into V.
  match type of V with vrun _ ?ws ?c ?s ?s' =>
    destruct (run_boolean map deleted ws c s s' "totem.cancel_token_hold_on_retransmit" CANCEL_TOKEN_HOLD_ON_RETRANSMIT _ _ _ V eq_refl eq_refl eq_refl eq_refl) as (t7 & E7 & V7) end.
  rewrite E7 in E. clear E7 V. rename V7 into V. exists t7. split; [exact E|].
  split; [exact (vr_cfg _ _ _ _ _ V)|]. split; [|split; [|split; [apply V|split; apply V]]].
  - unfold published, int_params. rewrite (vr_cfg _ _ _ _ _ V).
    repeat (apply Forall_cons; split; [rewrite (vr_lookup _ _ _ _ _ V); reflexivity|]). constructor.
  - intros x Hx. rewrite (vr_lookup _ _ _ _ _ V), written_none; [reflexivity|]. intros Hi. apply Hx. revert x Hx Hi. cbv [List.map fst].
    intros x _. revert x. apply Forall_forall. by_compute.
Qed.

End Whole.
