(* ===== verification/TotemConfigMembers.v ===== *)
(** * The configuration of totem: members that change

    [compute_and_set_totempg_interfaces] clears the members that two lists have in
    common and reports the others: the calls are the difference of the two sets. *)
From S2P Require Import Prelude ErrMonad CString VoteQuorumExec Cpg Icmap Util TotemIp TotemConfig TotemConfigLinks.

(** The members of [l] that are not in [k]. *)
Definition missing (k l : list totem_ip_address) : list totem_ip_address := List.filter (fun a => negb (bool_decide (a ∈ k))) l.

Definition clear_in (k : list totem_ip_address) (a : totem_ip_address) : totem_ip_address := if bool_decide (a ∈ k) then empty_ip_address else a.

Lemma clear_pair_empty i j l1 l2 : l1 !! i = Some empty_ip_address -> clear_pair i j (l1, l2) = (l1, l2).
Proof.
  intros H1. unfold clear_pair. rewrite H1. destruct (l2 !! j) as [b|] eqn:H2; [|reflexivity].
  case_bool_decide as E; [|reflexivity]. subst b. now rewrite !list_insert_id.
Qed.

Lemma clear_row_empty i js l1 l2 : l1 !! i = Some empty_ip_address -> foldl (fun st j => clear_pair i j st) (l1, l2) js = (l1, l2).
Proof. intros H. induction js as [|j js IH]; cbn [foldl]; [reflexivity | now rewrite clear_pair_empty]. Qed.

Lemma map_clear_id x l : x ∉ l -> List.map (clear_in [x]) l = l.
Proof.
  intros H. induction l as [|a l IH]; cbn; [reflexivity|]. rewrite not_elem_of_cons in H. destruct H as [Ha Hl]. rewrite IH by exact Hl.
  unfold clear_in. rewrite bool_decide_eq_false_2; [reflexivity|]. rewrite list_elem_of_singleton. congruence.
Qed.

(** A row of the comparison: the entry at [i] against the list behind [e]. *)
Lemma clear_row i x f e r l1 : l1 !! i = Some x -> x <> empty_ip_address -> NoDup (not_empty f) ->
  foldl (fun st j => clear_pair i j st) (l1, e ++ f ++ r) (seq (length e) (length f))
  = (if bool_decide (x ∈ f) then <[i := empty_ip_address]> l1 else l1, e ++ List.map (clear_in [x]) f ++ r).
Proof.
  intros H1 Hx. revert e l1 H1. induction f as [|b f IH]; intros e l1 H1 Hn; cbn [length seq foldl];
    [now rewrite bool_decide_eq_false_2 by apply not_elem_of_nil|].
  unfold clear_pair at 2. rewrite H1, lookup_app_r, Nat.sub_diag by lia. cbn [lookup list_lookup app].
  cbn in Hn. destruct (decide (b = x)) as [->|Hb].
  - rewrite (bool_decide_eq_true_2 (x = x)), (bool_decide_eq_true_2 (x ∈ x :: f)) by (reflexivity || (apply elem_of_cons; now left)).
    rewrite bool_decide_eq_false_2 in Hn by exact Hx. cbn in Hn. apply NoDup_cons in Hn as [Hf _].
    rewrite insert_app_r_alt, Nat.sub_diag by lia. cbn [insert list_insert].
    rewrite clear_row_empty by (apply list_lookup_insert_eq, (lookup_lt_is_Some_1); eauto).
    cbn. unfold clear_in at 1. rewrite bool_decide_eq_true_2 by (now apply list_elem_of_singleton).
    rewrite map_clear_id; [reflexivity|]. intros Hi. apply Hf. unfold not_empty. rewrite list_elem_of_In in *. apply filter_In.
    split; [exact Hi|]. now rewrite bool_decide_eq_false_2.
  - rewrite bool_decide_eq_false_2 by congruence.
    replace (e ++ b :: f ++ r) with ((e ++ [b]) ++ f ++ r) by (now rewrite <- app_assoc).
    replace (S (length e)) with (length (e ++ [b])) by (rewrite length_app; cbn; lia).
    rewrite IH; [|exact H1 | destruct (negb _); [now apply NoDup_cons in Hn as [_ Hn] | exact Hn]].
    rewrite (bool_decide_ext (x ∈ b :: f) (x ∈ f)) by (rewrite elem_of_cons; naive_solver). rewrite <- app_assoc. cbn.
    unfold clear_in at 2. rewrite (bool_decide_eq_false_2 (b ∈ [x])) by (rewrite list_elem_of_singleton; congruence). reflexivity.
Qed.

Lemma clear_in_cons d a b : a <> empty_ip_address -> clear_in [a] (clear_in d b) = clear_in (d ++ [a]) b.
Proof.
  intros Ha. unfold clear_in. destruct (decide (b ∈ d)) as [Hd|Hd].
  - rewrite (bool_decide_eq_true_2 (b ∈ d)), (bool_decide_eq_true_2 (b ∈ d ++ [a])) by (exact Hd || (apply elem_of_app; now left)).
    now rewrite bool_decide_eq_false_2 by (rewrite list_elem_of_singleton; congruence).
  - rewrite (bool_decide_eq_false_2 (b ∈ d)) by exact Hd.
    now rewrite (bool_decide_ext (b ∈ d ++ [a]) (b ∈ [a])) by (rewrite elem_of_app; tauto).
Qed.

Lemma clear_in_elem d k a : a <> empty_ip_address -> a ∉ d -> a ∈ List.map (clear_in d) k <-> a ∈ k.
Proof.
  intros Ha Hd. rewrite list_elem_of_In, in_map_iff. unfold clear_in. split.
  - intros (b & E & Hb%list_elem_of_In). destruct (decide (b ∈ d)) as [Hi|Hi].
    + rewrite bool_decide_eq_true_2 in E by exact Hi. congruence.
    + rewrite bool_decide_eq_false_2 in E by exact Hi. now subst.
  - intros Hk. exists a. rewrite bool_decide_eq_false_2 by exact Hd. split; [reflexivity | now apply list_elem_of_In].
Qed.

(** What is not cleared is what is missing in the other list. *)
Lemma not_empty_clear d k : empty_ip_address ∉ k -> not_empty (List.map (clear_in d) k) = missing d k.
Proof.
  induction k as [|b k IH]; intros H; [reflexivity|]. rewrite not_elem_of_cons in H. destruct H as [Hb Hk].
  unfold not_empty, missing in *. cbn [List.map List.filter]. rewrite IH by exact Hk. destruct (decide (b ∈ d)) as [Hd|Hd].
  - assert (E : clear_in d b = empty_ip_address) by (unfold clear_in; now rewrite bool_decide_eq_true_2).
    now rewrite E, (bool_decide_eq_true_2 (b ∈ d)), bool_decide_eq_true_2.
  - assert (E : clear_in d b = b) by (unfold clear_in; now rewrite bool_decide_eq_false_2).
    rewrite E, (bool_decide_eq_false_2 (b ∈ d)), bool_decide_eq_false_2 by congruence. reflexivity.
Qed.

(** The comparison of two lists clears in each what is in the other. *)
Lemma clear_rows t d p1 p2 r1 r2 : p1 = d ++ t -> NoDup p1 -> NoDup p2 -> empty_ip_address ∉ p1 -> empty_ip_address ∉ p2 ->
  foldl (fun st i => foldl (fun st j => clear_pair i j st) st (seq 0 (length p2)))
    (List.map (clear_in p2) d ++ t ++ r1, List.map (clear_in d) p2 ++ r2) (seq (length d) (length t))
  = (List.map (clear_in p2) p1 ++ r1, List.map (clear_in p1) p2 ++ r2).
Proof.
  revert d. induction t as [|a t IH]; intros d -> N1 N2 E1 E2; cbn [length seq foldl]; [now rewrite app_nil_r|].
  assert (Ha : a <> empty_ip_address) by (intros ->; apply E1, elem_of_app; right; apply elem_of_cons; now left).
  assert (Hd : a ∉ d) by (apply NoDup_app in N1 as (_ & N1 & _); intros Hi; apply (N1 a Hi), elem_of_cons; now left).
  pose proof (clear_row (length d) a (List.map (clear_in d) p2) [] r2 (List.map (clear_in p2) d ++ (a :: t) ++ r1)) as R.
  cbn [length app] in R. rewrite length_map in R. cbn [app]. rewrite R; clear R.
  - rewrite map_map, (map_ext (fun b => clear_in [a] (clear_in d b)) (clear_in (d ++ [a]))) by (intros b; now apply clear_in_cons).
    replace (if bool_decide (a ∈ List.map (clear_in d) p2) then _ else _)
      with (List.map (clear_in p2) (d ++ [a]) ++ t ++ r1).
    + replace (S (length d)) with (length (d ++ [a])) by (rewrite length_app; cbn; lia).
      replace (d ++ a :: t) with ((d ++ [a]) ++ t) in * by (now rewrite <- app_assoc). now apply IH.
    + rewrite (bool_decide_ext _ (a ∈ p2)) by (now apply clear_in_elem). rewrite map_app, <- app_assoc. cbn.
      unfold clear_in at 2. destruct (bool_decide (a ∈ p2)); [|reflexivity].
      rewrite insert_app_r_alt by (rewrite length_map; lia). now rewrite length_map, Nat.sub_diag.
  - rewrite lookup_app_r by (rewrite length_map; lia). now rewrite length_map, Nat.sub_diag.
  - exact Ha.
  - rewrite not_empty_clear by exact E2. now apply filter_nodup.
Qed.

(** ** Interfaces *)

(** The members of an interface are in its array, different and not empty; an interface
    that is not configured has none. *)
Record if_members_ok (f : totem_interface) (l : list totem_ip_address) : Prop := {
  im_members : members f = Some l;
  im_nodup : NoDup l;
  im_not_empty : empty_ip_address ∉ l;
  im_configured : configured f = false -> l = []
}.

Lemma members_app f l : members f = Some l ->
  exists r, member_list f = l ++ r /\ Z.to_nat (member_count f) = length l.
Proof.
  unfold members. destruct (Z.leb_spec (member_count f) (Z.of_nat (length (member_list f)))); [|discriminate].
  intros [= <-]. exists (drop (Z.to_nat (member_count f)) (member_list f)). rewrite take_drop, length_take. split; [reflexivity | lia].
Qed.

Lemma members_replace f l r k : members f = Some l -> member_list f = l ++ r -> length k = length l ->
  members (f <| member_list := k ++ r |>) = Some k.
Proof.
  intros Hm L Hk. destruct (members_app _ _ Hm) as (_ & _ & T). unfold members in *. cbn. rewrite L in Hm.
  rewrite length_app, Hk, <- length_app. destruct (_ <=? _); [|discriminate]. now rewrite T, <- Hk, take_app_length.
Qed.

Lemma clear_in_nil l : List.map (clear_in []) l = l.
Proof. rewrite <- (map_id l) at 2. apply map_ext. intros a. unfold clear_in. now rewrite bool_decide_eq_false_2 by apply not_elem_of_nil. Qed.

Lemma clear_common_if_spec f1 f2 l1 l2 : if_members_ok f1 l1 -> if_members_ok f2 l2 ->
  exists g1 g2, clear_common_if f1 f2 = Some (g1, g2) /\ configured g2 = configured f2 /\
    (exists k1, members g1 = Some k1 /\ not_empty k1 = missing l2 l1) /\ (exists k2, members g2 = Some k2 /\ not_empty k2 = missing l1 l2).
Proof.
  intros [M1 N1 E1 C1] [M2 N2 E2 C2]. unfold clear_common_if. destruct (negb (configured f1) && negb (configured f2)) eqn:Ec.
  - exists f1, f2. apply andb_true_iff in Ec as [H1%negb_true_iff H2%negb_true_iff]. rewrite C1, C2 in * by assumption. repeat split; eauto.
  - rewrite M1, M2. cbn [mbind option_bind]. unfold clear_common.
    destruct (members_app _ _ M1) as (r1 & L1 & T1), (members_app _ _ M2) as (r2 & L2 & T2). rewrite L1, L2, T1, T2.
    pose proof (clear_rows l1 [] l1 l2 r1 r2 eq_refl N1 N2 E1 E2) as R. cbn [length List.map app] in R. rewrite clear_in_nil in R. rewrite R.
    do 2 eexists. split; [reflexivity|]. split; [reflexivity|].
    split; [exists (List.map (clear_in l2) l1) | exists (List.map (clear_in l1) l2)]; (split; [|now apply not_empty_clear]).
    + apply (members_replace f1 l1); [exact M1 | exact L1 | apply length_map].
    + apply (members_replace f2 l2); [exact M2 | exact L2 | apply length_map].
Qed.

(** ** The calls *)

(** What changes on a link: the old members that are not new, and the other way round. *)
Definition diff_calls (ring_no : nat) (old new : list totem_ip_address) : list totem_call :=
  List.map (fun a => TotempgMemberRemove a ring_no) (missing new old) ++ List.map (fun a => TotempgMemberAdd a ring_no) (missing old new).

Fixpoint all_diffs (ring_no : nat) (olds news : list (list totem_ip_address)) : list totem_call :=
  match olds, news with o :: olds, n :: news => diff_calls ring_no o n ++ all_diffs (S ring_no) olds news | _, _ => [] end.

Lemma member_calls_spec ring_no g1 g2 k1 k2 l1 l2 :
  members g1 = Some k1 -> members g2 = Some k2 -> not_empty k1 = missing l2 l1 -> not_empty k2 = missing l1 l2 ->
  (configured g2 = false -> l2 = []) -> member_calls ring_no g1 g2 = Some (diff_calls ring_no l1 l2).
Proof.
  intros M1 M2 E1 E2 Hc. unfold member_calls, diff_calls. rewrite M1, M2. cbn. rewrite E1, E2.
  destruct (configured g2); [reflexivity|]. now rewrite (Hc eq_refl).
Qed.

Lemma compute_spec member_add set1 set2 olds news :
  Forall2 if_members_ok set1 olds -> Forall2 if_members_ok set2 news -> length set1 = length set2 ->
  exists set1', compute_and_set_totempg_interfaces member_add set1 set2
    = Some (set1', all_diffs 0 olds news, if existsb (call_failed member_add) (all_diffs 0 olds news) then -1 else 0).
Proof.
  intros H1 H2 Hl.
  enough (H : forall r, exists g1 g2, clear_all set1 set2 = Some (g1, g2) /\ all_calls r g1 g2 = Some (all_diffs r olds news)).
  { destruct (H 0%nat) as (g1 & g2 & E & C). exists g1. unfold compute_and_set_totempg_interfaces. now rewrite E; cbn; rewrite C. }
  revert set2 news H2 Hl. induction H1 as [|f1 l1 set1 olds O1 _ IH]; intros set2 news H2 Hl r.
  { exists [], []. destruct H2; [now split | discriminate]. }
  destruct H2 as [|f2 l2 set2 news O2 H2]; [discriminate|]. destruct (IH set2 news H2 ltac:(now injection Hl) (S r)) as (g1 & g2 & E & C).
  destruct (clear_common_if_spec f1 f2 l1 l2 O1 O2) as (h1 & h2 & Ec & Hc & (k1 & M1 & K1) & (k2 & M2 & K2)).
  exists (h1 :: g1), (h2 :: g2). cbn [clear_all all_calls all_diffs]. rewrite Ec, E. cbn. split; [reflexivity|].
  erewrite member_calls_spec; [|eassumption..|rewrite Hc; apply (im_configured _ _ O2)]. cbn. now rewrite C.
Qed.

(** ** The members afterwards *)

(** The members of a link as the calls change them. *)
Definition apply_call (ring_no : nat) (l : list totem_ip_address) (c : totem_call) : list totem_ip_address :=
  match c with
  | TotempgMemberAdd a r => if Nat.eqb r ring_no then l ++ [a] else l
  | TotempgMemberRemove a r => if Nat.eqb r ring_no then List.filter (fun b => negb (bool_decide (b = a))) l else l
  | _ => l
  end.

Lemma apply_removes i k l a : a ∈ foldl (apply_call i) l (List.map (fun b => TotempgMemberRemove b i) k) <-> a ∈ l /\ a ∉ k.
Proof.
  revert l. induction k as [|b k IH]; intros l; cbn [List.map foldl]; [pose proof (not_elem_of_nil a); tauto|].
  rewrite IH. cbn. rewrite Nat.eqb_refl, list_elem_of_In, filter_In, <- list_elem_of_In, not_elem_of_cons, negb_true_iff, bool_decide_eq_false. tauto.
Qed.

Lemma apply_adds i k l : foldl (apply_call i) l (List.map (fun b => TotempgMemberAdd b i) k) = l ++ k.
Proof.
  revert l. induction k as [|b k IH]; intros l; cbn [List.map foldl]; [now rewrite app_nil_r|]. rewrite IH. cbn. rewrite Nat.eqb_refl, <- app_assoc. reflexivity.
Qed.

Lemma missing_elem k l a : a ∈ missing k l <-> a ∈ l /\ a ∉ k.
Proof. unfold missing. rewrite list_elem_of_In, filter_In, <- list_elem_of_In, negb_true_iff, bool_decide_eq_false. tauto. Qed.

(** The calls of a link make the old members the new ones. *)
Lemma apply_diff i old new a : a ∈ foldl (apply_call i) old (diff_calls i old new) <-> a ∈ new.
Proof.
  unfold diff_calls. rewrite foldl_app, apply_adds, elem_of_app, apply_removes, !missing_elem.
  destruct (decide (a ∈ old)), (decide (a ∈ new)); tauto.
Qed.

Definition call_ring (c : totem_call) : option nat :=
  match c with TotempgMemberAdd _ r | TotempgMemberRemove _ r => Some r | _ => None end.

Lemma apply_others i calls l : Forall (fun c => call_ring c <> Some i) calls -> foldl (apply_call i) l calls = l.
Proof.
  intros H. induction H as [|c calls Hc _ IH]; cbn [foldl]; [reflexivity|]. rewrite <- IH at 2. f_equal.
  destruct c; cbn in *; try reflexivity; destruct (Nat.eqb_spec ring_no i); congruence.
Qed.

Lemma diff_calls_ring r o n i : r <> i -> Forall (fun c => call_ring c <> Some i) (diff_calls r o n).
Proof. intros H. apply Forall_app. split; apply Forall_map, Forall_forall; cbn; congruence. Qed.

Lemma all_diffs_ring r os ns i : (i < r)%nat -> Forall (fun c => call_ring c <> Some i) (all_diffs r os ns).
Proof.
  revert r ns. induction os as [|o os IH]; intros r [|n ns] H; cbn; try constructor. apply Forall_app. split; [apply diff_calls_ring; lia | apply IH; lia].
Qed.

Lemma apply_all_diffs r os ns i o n : os !! i = Some o -> ns !! i = Some n ->
  forall a, a ∈ foldl (apply_call (r + i)) o (all_diffs r os ns) <-> a ∈ n.
Proof.
  revert r ns i. induction os as [|o' os IH]; intros r [|n' ns] i Ho Hn a; try discriminate. cbn [all_diffs]. rewrite foldl_app.
  destruct i as [|i]; cbn in Ho, Hn.
  - injection Ho as ->. injection Hn as ->. rewrite Nat.add_0_r, (apply_others _ (all_diffs _ _ _)) by (apply all_diffs_ring; lia). apply apply_diff.
  - rewrite (apply_others _ (diff_calls _ _ _)) by (apply diff_calls_ring; lia). replace (r + S i)%nat with (S r + i)%nat by lia. now apply IH.
Qed.

(** A member that stays is not in the calls of its link. *)
Lemma kept_untouched r os ns i o n a : os !! i = Some o -> ns !! i = Some n -> a ∈ o -> a ∈ n ->
  TotempgMemberAdd a (r + i) ∉ all_diffs r os ns /\ TotempgMemberRemove a (r + i) ∉ all_diffs r os ns.
Proof.
  intros Ho Hn Ha Hb. revert r ns i Ho Hn. induction os as [|o' os IH]; intros r [|n' ns] i Ho Hn; try discriminate. cbn [all_diffs].
  destruct i as [|i]; cbn in Ho, Hn.
  - injection Ho as ->. injection Hn as ->. rewrite Nat.add_0_r. unfold diff_calls.
    pose proof (all_diffs_ring (S r) os ns r ltac:(lia)) as R. rewrite Forall_forall in R.
    split; rewrite !elem_of_app, !list_elem_of_In, !in_map_iff; intros [[(b & E & Hm)|(b & E & Hm)]|Hi%list_elem_of_In%R];
      try discriminate; try (now apply Hi); injection E as ->; apply list_elem_of_In, missing_elem in Hm; tauto.
  - pose proof (diff_calls_ring r o' n' (r + S i) ltac:(lia)) as R. rewrite Forall_forall in R.
    replace (r + S i)%nat with (S r + i)%nat in * by lia.
    destruct (IH (S r) ns i Ho Hn) as [I1 I2]. split; rewrite elem_of_app; intros [Hi%R|Hi]; try (now apply Hi); tauto.
Qed.
