(* ===== verification/TotemConfigNodes.v ===== *)
(** * The configuration of totem: the node list

    The check for duplicate node ids compares each node with those before it, up to
    the first key of the node itself or a later one.  The keys come in the order of
    their names: with up to ten nodes that is the order of the nodes. *)
From stdpp Require Import pretty sorting.
From S2P Require Import Prelude ErrMonad CString VoteQuorumExec Cpg Icmap IcmapTheory IcmapProps Util TotemIp TotemConfig TotemConfigLinks TotemConfigRead TotemConfigTheory.

Local Open Scope string_scope.
Local Open Scope Z_scope.

(** ** The loops *)

Section Loops.
Context {M : Type} `{QB : qb_map M}.
Context (net : net_env) (clear : bool) (map : Z) (m : icmap M).
(** The nodes of the keys, and the ids of the nodes. *)
Context (node : string -> Z * string) (ids : Z -> Z).
Context (keys : list string).
Context (scans : forall k, k ∈ keys -> scan_node_key k = (Some (fst (node k)), Some (snd (node k)))).
Context (have_id : forall k, k ∈ keys -> nodeid_of net clear map (fst (node k)) m = Some (Some (ids (fst (node k)), None))).

(** An earlier node that has the id. *)
Definition earlier (l : list string) (pos id : Z) : bool :=
  existsb (fun k => (fst (node k) <? pos) && strcmp_eq (snd (node k)) "nodeid" && (id =? ids (fst (node k)))) l.

Lemma earlier_none l pos id : (forall k, k ∈ l -> pos <= fst (node k)) -> earlier l pos id = false.
Proof.
  intros H. apply not_true_is_false. intros (k & Hk%list_elem_of_In%H & E)%existsb_exists. lia.
Qed.

(** When the keys come in the order of the nodes, the search finds an earlier node. *)
Lemma earlier_duplicate_spec pos id l p :
  (forall k, k ∈ l -> k ∈ keys) -> StronglySorted (fun a b => fst (node a) <= fst (node b)) l -> (forall k, k ∈ l -> p <= fst (node k)) ->
  earlier_duplicate net clear map pos id p l m = Some (earlier l pos id).
Proof.
  revert p. induction l as [|k l IH]; intros p Hl Hs Hp; [reflexivity|]. cbn [earlier_duplicate].
  assert (Hk : k ∈ keys) by (apply Hl, elem_of_cons; now left). assert (Hl' : forall x, x ∈ l -> x ∈ keys) by (intros; apply Hl, elem_of_cons; now right).
  apply StronglySorted_inv in Hs as [Hs Hh]. rewrite Forall_forall in Hh. destruct (Z.ltb_spec p pos) as [Lt|Ge]; cbn [negb].
  2:{ rewrite earlier_none; [reflexivity|]. intros x Hx. apply Hp in Hx. lia. }
  rewrite (scans k Hk). unfold default, Datatypes.id. pose proof (IH (fst (node k)) Hl' Hs Hh) as IHk.
  unfold earlier. cbn [existsb]. fold (earlier l pos id). destruct (Z.leb_spec pos (fst (node k))) as [Le|Gt]; cbn [orb].
  { rewrite IHk. destruct (Z.ltb_spec (fst (node k)) pos); [lia | reflexivity]. }
  destruct (Z.ltb_spec (fst (node k)) pos); [|lia]. cbn [andb]. destruct (strcmp_eq (snd (node k)) "nodeid"); cbn [negb andb orb]; [|exact IHk].
  rewrite (have_id k Hk). cbn [mbind option_bind]. destruct (id =? ids (fst (node k))); [reflexivity | exact IHk].
Qed.

Context (sorted : StronglySorted (fun a b => fst (node a) <= fst (node b)) keys) (positive : forall k, k ∈ keys -> 0 <= fst (node k) < u32 (-1)).

Definition duplicate_at (pos : Z) : bool := earlier keys pos (ids pos).

Lemma duplicates_loop_spec l last err : (forall k, k ∈ l -> k ∈ keys) -> (last = u32 (-1) \/ (err = None -> duplicate_at last = false)) ->
  exists err', duplicates_loop net clear map l keys last err m = Some err' /\
    (err' = None <-> err = None /\ forall k, k ∈ l -> duplicate_at (fst (node k)) = false).
Proof.
  revert last err. induction l as [|k l IH]; intros last err Hl Hd.
  { exists err. split; [reflexivity|]. split; [intros ->; split; [reflexivity | intros k Hk; now apply elem_of_nil in Hk] | tauto]. }
  assert (Hk : k ∈ keys) by (apply Hl, elem_of_cons; now left). assert (Hl' : forall x, x ∈ l -> x ∈ keys) by (intros; apply Hl, elem_of_cons; now right).
  cbn [duplicates_loop]. rewrite (scans k Hk). destruct (Z.eqb_spec last (fst (node k))) as [E|N].
  - destruct (IH last err Hl' Hd) as (err' & R & H). exists err'. split; [exact R|]. rewrite H. setoid_rewrite elem_of_cons.
    destruct Hd as [->|Hd]; [pose proof (positive k Hk); lia|]. split; [intros [He Ha] | intros [He Ha]]; (split; [exact He|]).
    + intros x [->|Hx]; [rewrite <- E; exact (Hd He) | exact (Ha x Hx)].
    + intros x Hx. apply Ha. now right.
  - rewrite (have_id k Hk). cbn [mbind option_bind].
    rewrite earlier_duplicate_spec; [|tauto | exact sorted | intros x Hx; apply (positive x Hx)]. cbn [mbind option_bind]. fold (duplicate_at (fst (node k))).
    edestruct (IH (fst (node k)) (if duplicate_at (fst (node k)) then Some (duplicate_msg (ids (fst (node k))) None) else err) Hl') as (err' & R & H).
    { right. destruct (duplicate_at (fst (node k))); [discriminate | reflexivity]. }
    exists err'. split; [exact R|]. rewrite H. setoid_rewrite elem_of_cons. destruct (duplicate_at (fst (node k))) eqn:Ed.
    + split; [intros [[=] _]|]. intros [_ Ha]. specialize (Ha k ltac:(now left)). congruence.
    + split; intros [He Ha]; (split; [exact He|]); [intros x [->|Hx]; [exact Ed | exact (Ha x Hx)] | intros x Hx; apply Ha; now right].
Qed.

(** Two nodes share an id exactly when one of them has an earlier node with its id. *)
Lemma duplicate_at_spec : (forall k, k ∈ keys -> exists k', k' ∈ keys /\ node k' = (fst (node k), "nodeid")) ->
  (forall k, k ∈ keys -> duplicate_at (fst (node k)) = false) <->
  (forall a b, a ∈ keys -> b ∈ keys -> ids (fst (node a)) = ids (fst (node b)) -> fst (node a) = fst (node b)).
Proof.
  intros Hid. split.
  - intros H. assert (A : forall a b, a ∈ keys -> b ∈ keys -> ids (fst (node a)) = ids (fst (node b)) -> ~ fst (node a) < fst (node b)).
    { intros a b Ha Hb E Lt. pose proof (H b Hb) as F. apply not_true_iff_false in F. apply F. unfold duplicate_at, earlier. apply existsb_exists.
      destruct (Hid a Ha) as (k' & Hk' & Ek). exists k'. split; [now apply list_elem_of_In|]. rewrite Ek. cbn. rewrite <- E, Z.eqb_refl. lia. }
    intros a b Ha Hb E. pose proof (A a b Ha Hb E). pose proof (A b a Hb Ha (eq_sym E)). lia.
  - intros H k Hk. apply not_true_iff_false. intros (k' & Hk' & E)%existsb_exists. apply andb_true_iff in E as [[Lt _]%andb_true_iff E].
    apply Z.eqb_eq in E. apply list_elem_of_In in Hk'. pose proof (H k k' Hk Hk' E). lia.
Qed.

End Loops.

(** ** Keys of up to ten nodes *)

Definition no_space (name : string) : Prop := name <> "" /\ forallb (fun c => negb (isspace c)) (chars name) = true.

(** A key of one of the first ten nodes. *)
Definition digit_key (p : Z) (name : string) : string := "nodelist.node." +:+ pretty p +:+ "." +:+ name.

Ltac digits p H := assert (p = 0 \/ p = 1 \/ p = 2 \/ p = 3 \/ p = 4 \/ p = 5 \/ p = 6 \/ p = 7 \/ p = 8 \/ p = 9) as H by lia;
  repeat destruct H as [->|H]; [..|subst p].

(** The characters of a key with a concrete digit. *)
Ltac spell := repeat match goal with
  | |- context [digit_key ?p ?n] => let t := eval vm_compute in (digit_key p n) in change (digit_key p n) with t
  | H : context [digit_key ?p ?n] |- _ => let t := eval vm_compute in (digit_key p n) in change (digit_key p n) with t in H
  end.

Lemma scan_s_word name : no_space name -> scan_s (chars name) = Some name.
Proof.
  intros [N H]. unfold scan_s. assert (W : word (skip_space (chars name)) = chars name).
  { assert (A : forall l, forallb (fun c => negb (isspace c)) l = true -> word l = l).
    { induction l as [|a l IH]; [reflexivity|]. cbn. intros [Ha Hl]%andb_true_iff. apply negb_true_iff in Ha. now rewrite Ha, IH. }
    destruct (chars name) as [|a l] eqn:E; [reflexivity|]. cbn in H. apply andb_true_iff in H as [Ha Hl]. cbn. apply negb_true_iff in Ha.
    rewrite Ha. cbn. rewrite Ha. now rewrite A. }
  rewrite W. destruct name as [|a name]; [easy|]. cbn. now rewrite str_chars.
Qed.

Lemma scan_digit_key p name : 0 <= p < 10 -> no_space name -> scan_node_key (digit_key p name) = (Some p, Some name).
Proof.
  intros Hp Hn. unfold scan_node_key. pose proof (scan_s_word name Hn) as W.
  digits p H; spell; cbn -[scan_s scan_u]; revert W; generalize (chars name); intros l W;
    match goal with |- context [scan_u ?x] => let t := eval vm_compute in (scan_u x) in change (scan_u x) with t end; cbn -[scan_s]; now rewrite W.
Qed.

(** The order of the names is that of the nodes. *)
Lemma digit_key_le p q a b : 0 <= p < 10 -> 0 <= q < 10 -> String.le (digit_key p a) (digit_key q b) -> p <= q.
Proof. intros Hp Hq L. digits p H; digits q H'; try lia; unfold String.le in L; spell; cbn in L; easy. Qed.

Lemma digit_key_inj p q a b : 0 <= p < 10 -> 0 <= q < 10 -> digit_key p a = digit_key q b -> p = q.
Proof.
  intros Hp Hq E. pose proof (digit_key_le p q a b Hp Hq) as L. pose proof (digit_key_le q p b a Hq Hp) as L'. rewrite E in *.
  pose proof (reflexivity (R:=String.le) (digit_key q b)). apply Z.le_antisymm; auto.
Qed.

Lemma node_key_digit p : 0 <= p < 10 -> node_key p "nodeid" = digit_key p "nodeid".
Proof. intros Hp. digits p H; reflexivity. Qed.

Lemma digit_key_prefix p name : is_prefix "nodelist.node." (digit_key p name) = true.
Proof. unfold digit_key, is_prefix. generalize (pretty p +:+ "." +:+ name). intros t. vm_compute. now destruct t. Qed.

(** The node of a key. *)
Definition node_of (key : string) : Z * string := match scan_node_key key with (Some p, Some n) => (p, n) | _ => (0, "") end.

Lemma node_of_digit p name : 0 <= p < 10 -> no_space name -> node_of (digit_key p name) = (p, name).
Proof. intros Hp Hn. unfold node_of. now rewrite scan_digit_key. Qed.

Section Ten.
Context {M : Type} `{QB : qb_map M} `{QL : !qb_map_laws M} `{QO : !qb_map_ordered M}.
Context (net : net_env) (s : tconf M) (m : M) (ids : Z -> Z).

Definition is_node (p : Z) : Prop := 0 <= p < 10 /\ exists name, digit_key p name ∈ qb_map_pref_iter m "nodelist.node.".

Context (global : map_at (icmap_global_map (t_map s)) (t_map s) = Some m).
Context (ten : forall k, k ∈ qb_map_pref_iter m "nodelist.node." -> exists p name, 0 <= p < 10 /\ no_space name /\ k = digit_key p name).
Context (explicit : forall p, is_node p -> icmap_get_uint32 (node_key p "nodeid") (t_map s) = Some (CS_OK, Some (ids p))).

Lemma nodes_sorted : StronglySorted (fun a b => fst (node_of a) <= fst (node_of b)) (qb_map_pref_iter m "nodelist.node.").
Proof.
  pose proof (qb_iter_sorted m "nodelist.node.") as S. revert S. generalize ten. generalize (qb_map_pref_iter m "nodelist.node."). clear.
  intros l T S. induction S as [|k l S IH Hh]; constructor.
  - apply IH. intros x Hx. apply T, elem_of_cons. now right.
  - rewrite Forall_forall in *. intros x Hx. destruct (T k ltac:(apply elem_of_cons; now left)) as (p & a & Hp & Ha & ->).
    destruct (T x ltac:(apply elem_of_cons; now right)) as (q & b & Hq & Hb & ->). rewrite !node_of_digit by assumption.
    exact (digit_key_le _ _ _ _ Hp Hq (Hh _ Hx)).
Qed.

Lemma nodeid_key_in p : is_node p -> digit_key p "nodeid" ∈ qb_map_pref_iter m "nodelist.node.".
Proof.
  intros Hn. pose proof (proj1 Hn) as Hp. apply qb_iter_keys. split; [apply digit_key_prefix|]. pose proof (explicit p Hn) as E. rewrite (node_key_digit p Hp) in E.
  unfold icmap_get_uint32, icmap_get_uint32_r, get_unsigned, icmap_get_int_r in E. rewrite get_r_lookup in E by now rewrite global.
  unfold lookup_item in E. rewrite global in E. cbn in E. now destruct (qb_map_get m (digit_key p "nodeid")).
Qed.

(** The result of the check tells whether two nodes share an id. *)
Lemma duplicates_exact : exists r, check_for_duplicate_nodeids net s = Some (r, s) /\
  (r = inr tt <-> forall p q, is_node p -> is_node q -> ids p = ids q -> p = q).
Proof.
  set (keys := qb_map_pref_iter m "nodelist.node."). set (g := icmap_global_map (t_map s)) in *. set (clear := clear_node_high_bit (t_cfg s)).
  assert (Hs : forall k, k ∈ keys -> scan_node_key k = (Some (fst (node_of k)), Some (snd (node_of k)))).
  { intros k Hk. destruct (ten k Hk) as (p & a & Hp & Ha & ->). now rewrite node_of_digit, scan_digit_key. }
  assert (Hi : forall k, k ∈ keys -> nodeid_of net clear g (fst (node_of k)) (t_map s) = Some (Some (ids (fst (node_of k)), None))).
  { intros k Hk. destruct (ten k Hk) as (p & a & Hp & Ha & ->). rewrite node_of_digit by assumption. cbn [fst]. unfold nodeid_of.
    pose proof (explicit p (conj Hp (ex_intro _ a Hk))) as E. unfold icmap_get_uint32 in E. fold g in E. now rewrite E. }
  assert (Hp : forall k, k ∈ keys -> 0 <= fst (node_of k) < u32 (-1)).
  { intros k Hk. destruct (ten k Hk) as (p & a & Hp & Ha & ->). rewrite node_of_digit by assumption. cbn [fst]. change (u32 (-1)) with 4294967295. lia. }
  destruct (duplicates_loop_spec net clear g (t_map s) node_of ids keys Hs Hi nodes_sorted Hp keys (u32 (-1)) None ltac:(auto) ltac:(now left))
    as (err & R & H).
  exists (match err with Some msg => inl msg | None => inr tt end). split.
  - unfold check_for_duplicate_nodeids.
    rewrite (bind_run get_cfg _ s (t_cfg s) s eq_refl), (bind_run global_map _ s g s eq_refl), (bind_run get_state _ s s s eq_refl).
    rewrite (bind_run (iter_map g "nodelist.node.") _ s keys s) by (unfold iter_map, icmap_iter_init_r; now rewrite global).
    rewrite (bind_run (lift _) _ s err s) by (unfold lift; fold clear; now rewrite R). now destruct err.
  - assert (Hd : forall k, k ∈ keys -> exists k', k' ∈ keys /\ node_of k' = (fst (node_of k), "nodeid")).
    { intros k Hk. destruct (ten k Hk) as (p & a & Hp' & Ha & ->). exists (digit_key p "nodeid"). split; [apply nodeid_key_in; split; [exact Hp' | now exists a]|].
      rewrite !node_of_digit; (easy || (split; easy)). }
    rewrite (duplicate_at_spec node_of ids keys Hd) in H.
    transitivity (err = None); [destruct err; split; congruence|]. rewrite H. split.
    + intros [_ Ha] p q [Hpp [a Hpa]] [Hqq [b Hqb]] E. specialize (Ha _ _ Hpa Hqb).
      destruct (ten _ Hpa) as (p' & a' & Hp' & Ha' & E1), (ten _ Hqb) as (q' & b' & Hq' & Hb' & E2).
      pose proof (digit_key_inj _ _ _ _ Hpp Hp' E1) as <-. pose proof (digit_key_inj _ _ _ _ Hqq Hq' E2) as <-.
      rewrite E1, E2, !node_of_digit in Ha by assumption. exact (Ha E).
    + intros Ha. split; [reflexivity|]. intros a b Hka Hkb E. destruct (ten _ Hka) as (p' & a' & Hp' & Ha' & E1), (ten _ Hkb) as (q' & b' & Hq' & Hb' & E2).
      subst a b. rewrite !node_of_digit in * by assumption. cbn in *. apply Ha; [split; [exact Hp' | now exists a'] | split; [exact Hq' | now exists b'] | exact E].
Qed.

End Ten.

(** ** The local node *)

(** The position that the scanned keys leave behind. *)
Definition last_pos (keys : list string) (d : Z) : Z :=
  foldl (fun p k => match fst (scan_node_key k) with Some q => s32 q | None => p end) d keys.

Lemma alias_loop_last {M} `{QB : qb_map M} net map keys ifa_list d (m : icmap M) x :
  alias_loop net map keys ifa_list d m = Some (x, false) -> x = last_pos keys d.
Proof.
  revert d. induction keys as [|k keys IH]; intros d; cbn [alias_loop last_pos foldl]; [now intros [= ->]|].
  destruct (scan_node_key k) as [pos name]. cbn [fst]. destruct (negb (is_name_key name)); [apply IH|].
  intros ([e n] & _ & H)%bind_Some. destruct (n ≫= _) as [addrs|]; [|now apply IH].
  apply bind_Some in H as ([|] & _ & H); [discriminate | now apply IH].
Qed.

(** A search that comes to nothing ends with the last key. *)
Lemma search_fails {M} `{QB : qb_map M} net map (m : icmap M) keys ifa_list node x :
  uname net = Some node -> getifaddrs net = Some ifa_list -> icmap_iter_init_r map (Some "nodelist.node.") m = Some keys ->
  search_local_node net map m = Some (x, false) -> exists d, x = last_pos keys d.
Proof.
  intros Hu Hi Hk H. unfold search_local_node in H. rewrite Hu, Hi in H. apply bind_Some in H as (p & _ & H).
  destruct (-1 <? p); [discriminate|]. apply bind_Some in H as (q & _ & H). destruct (-1 <? q); [discriminate|].
  rewrite Hk in H. apply alias_loop_last in H. eauto.
Qed.
