(* ===== verification/TotemConfigProps.v ===== *)
(** * The configuration of totem: theorems

    A configuration that is accepted has timeouts and links that fit together; a
    reload calls totempg for exactly the members that changed; what the check for
    duplicate node ids finds and misses; the timeouts of a default configuration. *)
From stdpp Require Import pretty sorting.
From S2P Require Import Prelude ErrMonad CString VoteQuorumExec Cpg Icmap IcmapTheory IcmapProps Util TotemIp TotemConfig TotemConfigLinks TotemConfigRead TotemConfigTheory TotemConfigVolatile TotemConfigMembers TotemConfigNodes.

Local Open Scope Z_scope.

(** ** Reload *)

(** The calls for the links of the new configuration. *)
Definition link_calls (c : totem_config) : list totem_call :=
  List.concat (List.map (fun i => match interfaces c !! i with
    | Some f => if configured f then [TotempgIfaceSet (local_ip f) (ip_port f) i] else []
    | None => []
    end) (seq 0 INTERFACE_MAX)).

Section Reload.
Context {M : Type} `{QB : qb_map M}.

Lemma configure_totem_links_run (s : tconf M) : length (interfaces (t_cfg s)) = INTERFACE_MAX ->
  configure_totem_links s = Some (inr tt, s <| t_calls ::= fun l => l ++ link_calls (t_cfg s) |>).
Proof.
  intros Hl. unfold configure_totem_links, link_calls. set (c := t_cfg s) in *.
  assert (H : forall ks (t : tconf M), t_cfg t = c -> Forall (fun i => (i < INTERFACE_MAX)%nat) ks ->
    for_each ks (fun i => when_configured i (fun f => upd_state (fun s => s <| t_calls ::= fun l => l ++ [TotempgIfaceSet (local_ip f) (ip_port f) i] |>))) t
    = Some (inr tt, t <| t_calls ::= fun l => l ++ List.concat (List.map (fun i => match interfaces c !! i with
        | Some f => if configured f then [TotempgIfaceSet (local_ip f) (ip_port f) i] else [] | None => [] end) ks) |>)).
  { induction ks as [|i ks IH]; intros t Ht Hi; cbn [for_each List.map List.concat].
    - unfold ret. do 2 f_equal. destruct t as [a b l d]. change (mk_tconf a b l d = mk_tconf a b (l ++ []) d). now rewrite app_nil_r.
    - apply Forall_cons in Hi as [Hi Hr]. destruct (lookup_lt_is_Some_2 (interfaces c) i ltac:(rewrite Hl; exact Hi)) as [f Hf].
      rewrite <- Ht in Hf. pose proof (when_configured_run i f t (fun f => upd_state (fun s => s <| t_calls ::= fun l => l ++ [TotempgIfaceSet (local_ip f) (ip_port f) i] |>)) Hf) as W.
      rewrite Ht in Hf. rewrite Hf. destruct (configured f); cbn [when] in W.
      + rewrite (bind_run _ _ _ _ _ W). rewrite IH by (exact Ht || exact Hr). do 2 f_equal. destruct t as [a b l d].
        match goal with |- _ = upd t_calls (fun l => l ++ ?k ++ ?k') _ => change (mk_tconf a b ((l ++ k) ++ k') d = mk_tconf a b (l ++ k ++ k') d) end.
        now rewrite <- app_assoc.
      + rewrite (bind_run _ _ _ _ _ W). exact (IH _ Ht Hr). }
  apply H; [reflexivity|]. apply Forall_forall. intros i Hi%elem_of_seq. lia.
Qed.

(** C25: a reload that is committed succeeds and calls totempg exactly for what changed:
    each configured link is set up, then on each link the old members that are not in
    the new configuration are removed and the new ones that were not in the old one
    are added, in the order of the lists; no member that stays is touched, and the
    members of each link are then those of the new configuration.  The result tells
    whether an addition failed. *)
Theorem reload_changes_exact member_add (s : tconf M) olds news :
  length (interfaces (t_cfg s)) = INTERFACE_MAX -> length (orig_interfaces (t_cfg s)) = INTERFACE_MAX ->
  Forall2 if_members_ok (orig_interfaces (t_cfg s)) olds -> Forall2 if_members_ok (interfaces (t_cfg s)) news ->
  exists s', totemconfig_commit_new_params member_add s
    = Some (inr (if existsb (call_failed member_add) (all_diffs 0 olds news) then -1 else 0), s') /\
  t_calls s' = t_calls s ++ link_calls (t_cfg s) ++ all_diffs 0 olds news ++ [TotempgReconfigure] /\
  interfaces (t_cfg s') = interfaces (t_cfg s) /\ t_map s' = t_map s /\
  (forall i old new, olds !! i = Some old -> news !! i = Some new ->
     (forall a, a ∈ foldl (apply_call i) old (all_diffs 0 olds news) <-> a ∈ new) /\
     (forall a, a ∈ old -> a ∈ new -> TotempgMemberAdd a i ∉ all_diffs 0 olds news /\ TotempgMemberRemove a i ∉ all_diffs 0 olds news)).
Proof.
  intros L1 L2 O1 O2. destruct (compute_spec member_add _ _ _ _ O1 O2 ltac:(congruence)) as [set1 E].
  exists (s <| t_calls ::= fun l => (l ++ link_calls (t_cfg s)) ++ all_diffs 0 olds news ++ [TotempgReconfigure] |>
            <| t_cfg ::= fun c => c <| orig_interfaces := set1 |> |>).
  split; [|split; [|split; [|split]]]; [|cbn; now rewrite <- app_assoc|reflexivity|reflexivity|].
  - unfold totemconfig_commit_new_params. rewrite (bind_run get_cfg _ s (t_cfg s) s eq_refl), (bind_run _ _ _ _ _ (configure_totem_links_run s L1)).
    erewrite bind_run by (unfold lift; rewrite E; reflexivity). reflexivity.
  - intros i old new Ho Hn. split; [exact (apply_all_diffs 0 olds news i old new Ho Hn)|].
    intros a Ha Hb. exact (kept_untouched 0 olds news i old new a Ho Hn Ha Hb).
Qed.

End Reload.

(** ** Default timeouts *)

(** The keys that the timeouts are read from. *)
Definition timeout_keys : list string := "totem.token_coefficient"%string :: List.map fst int_params.

(** The clock rates in use. *)
Definition usual_hz : list Z := [100; 250; 300; 1000].

Definition default_token (n : Z) : Z := if 2 <? n then 3000 + (n - 2) * 650 else 3000.

(** The derived timeouts of a cluster of [n] nodes fit together. *)
Definition defaults_fit (hz n : Z) : bool :=
  let env := mk_build hz false false 0 0 0 None 0 0 ""%string in
  let token := default_token n in
  match default_retransmit token 4, default_consensus token, MINIMUM_TIMEOUT_HOLD env with
  | Some r, Some k, Some mh =>
      match default_hold env r with
      | Some h => (MINIMUM_TIMEOUT env <=? r) && (u32 mh <=? h) && (0 <=? h) && (h <? r) && (4 * r <? token) && (token <=? k)
                  && (MINIMUM_TIMEOUT env <=? 50) && (k <? 2 ^ 31)
      | None => false
      end
  | _, _, _ => false
  end.

Lemma defaults_fit_all : forallb (fun hz => forallb (fun n => defaults_fit hz (Z.of_nat n)) (seq 0 (S PROCESSOR_COUNT_MAX))) usual_hz = true.
Proof. vm_compute. reflexivity. Qed.

Lemma defaults_fit_at hz n : hz ∈ usual_hz -> 0 <= n <= Z.of_nat PROCESSOR_COUNT_MAX -> defaults_fit hz n = true.
Proof.
  intros Hz Hn. pose proof defaults_fit_all as H. rewrite forallb_forall in H. specialize (H hz ltac:(now apply list_elem_of_In)). cbn beta in H.
  rewrite forallb_forall in H. specialize (H (Z.to_nat n) ltac:(apply in_seq; lia)). cbn beta in H. now rewrite Z2Nat.id in H by lia.
Qed.

(** The derived defaults and how they compare. *)
Record derived (env : build_env) (n r h k mh : Z) : Prop := {
  dv_retransmit : default_retransmit (default_token n) 4 = Some r;
  dv_hold : default_hold env r = Some h;
  dv_consensus : default_consensus (default_token n) = Some k;
  dv_min_hold : MINIMUM_TIMEOUT_HOLD env = Some mh;
  dv_order : 0 <= MINIMUM_TIMEOUT env <= 50 /\ MINIMUM_TIMEOUT env <= r /\ u32 mh <= h /\ 0 <= h < r /\ 4 * r < default_token n /\
             3000 <= default_token n <= k /\ k < 2 ^ 31
}.

Lemma derived_exist env n : HZ env ∈ usual_hz -> 0 <= n <= Z.of_nat PROCESSOR_COUNT_MAX -> exists r h k mh, derived env n r h k mh.
Proof.
  intros Hz Hr. pose proof (defaults_fit_at _ _ Hz Hr) as F. unfold defaults_fit in F.
  change (MINIMUM_TIMEOUT (mk_build (HZ env) false false 0 0 0 None 0 0 "")) with (MINIMUM_TIMEOUT env) in F.
  change (MINIMUM_TIMEOUT_HOLD (mk_build (HZ env) false false 0 0 0 None 0 0 "")) with (MINIMUM_TIMEOUT_HOLD env) in F.
  destruct (default_retransmit (default_token n) 4) as [r|] eqn:Er; [|discriminate].
  destruct (default_consensus (default_token n)) as [k|] eqn:Ek; [|discriminate].
  destruct (MINIMUM_TIMEOUT_HOLD env) as [mh|] eqn:Emh; [|discriminate].
  change (default_hold (mk_build (HZ env) false false 0 0 0 None 0 0 "") r) with (default_hold env r) in F.
  destruct (default_hold env r) as [h|] eqn:Eh; [|discriminate].
  assert (Hp : 0 <= MINIMUM_TIMEOUT env) by (apply minimum_range; revert Hz; generalize (HZ env); apply Forall_forall; by_compute).
  assert (3000 <= default_token n) by (unfold default_token; destruct (Z.ltb_spec 2 n); lia).
  repeat (apply andb_true_iff in F as [F ?]). rewrite ?Z.leb_le, ?Z.ltb_lt in *.
  exists r, h, k, mh. constructor; [assumption..|lia].
Qed.

Section Defaults.
Context {M : Type} `{QB : qb_map M} `{QL : !qb_map_laws M}.
Context (env : build_env) (map : Z) (s : tconf M) (n : Z).
Context (hz : HZ env ∈ usual_hz) (ok : icmap_ok (t_map s)) (valid_map : is_Some (map_at map (t_map s))).
Context (absent : forall k, k ∈ timeout_keys -> lookup_item map k (t_map s) = None).
Context (members : first_member_count (t_cfg s) = Some n) (size : 0 <= n <= Z.of_nat PROCESSOR_COUNT_MAX).

Let u (k : string) : option Z := uint32_of map k (t_map s).
Let str (k : string) : option string := string_of map k (t_map s).
Let i (k : string) : option Z := int32_of map k (t_map s).

Lemma uint_absent k d z : k ∈ timeout_keys -> uint_value u None k d z = u32 d.
Proof.
  intros Hi. unfold uint_value, u, uint32_of, icmap_get_uint32_r, get_unsigned, icmap_get_int_r.
  now rewrite get_r_lookup, (absent k Hi) by exact valid_map.
Qed.

Lemma model_absent : model_value str None = "none"%string.
Proof.
  unfold model_value, str, string_of, icmap_get_string_r.
  now rewrite get_r_lookup, (absent "totem.knet_compression_model"%string ltac:(by_compute)) by exact valid_map.
Qed.

Lemma token_absent : token_value u None n = default_token n.
Proof.
  unfold token_value. rewrite uint_absent by by_compute.
  assert (u "totem.token_coefficient"%string = None) as ->.
  { unfold u, uint32_of, icmap_get_uint32_r, get_unsigned, icmap_get_int_r.
    now rewrite get_r_lookup, (absent "totem.token_coefficient"%string ltac:(by_compute)) by exact valid_map. }
  unfold default_token. destruct (Z.ltb_spec 2 n); [|reflexivity]. apply u32_small. unfold PROCESSOR_COUNT_MAX in *.
  change (u32 3000) with 3000. cbn [default]. lia.
Qed.

(** The defaults of all parameters are taken. *)
Lemma read_defaults r h k mh : derived env n r h k mh ->
  exists s', totem_volatile_config_read env map None s = Some (inr tt, s') /\ t_cfg s' = volatile_values u i str None n r h k (t_cfg s).
Proof.
  intros [Er Eh Ek _ D]. rewrite default_retransmit_spec in Er. rewrite default_hold_spec in Eh. rewrite default_consensus_spec in Ek.
  pose proof (volatile_read_spec env map None s n ok valid_map members) as H.
  assert (Hc : c_str (model_of map None s)) by (change (c_str (model_value str None)); rewrite model_absent; unfold c_str; by_compute).
  specialize (H Hc). cbv zeta in H. unfold reference, volatile_config in H. fold u str i in H.
  rewrite token_absent in H. change (retransmits_value u None) with (uint_value u None "totem.token_retransmits_before_loss_const" 4 false) in H.
  rewrite !uint_absent in H by by_compute. change (u32 4) with 4 in H. rewrite Er in H. cbn [mbind option_bind] in H.
  rewrite uint_absent in H by by_compute. rewrite (u32_small r), Eh in H by lia. cbn [mbind option_bind] in H. rewrite Ek, model_absent in H. cbn [mbind option_bind] in H.
  destruct H as (s' & E & Ec & _). now exists s'.
Qed.

(** The value of a field that is read from [key]. *)
Lemma default_field c (get : totem_config -> Z) key d z v : get c = uint_value u None key d z -> key ∈ timeout_keys -> u32 d = v -> get c = v.
Proof. intros -> Hi <-. now apply uint_absent. Qed.

End Defaults.

(** A configuration that sets no timeout is read and has valid timeouts, for every
    size of the cluster up to the maximum: they are above the minimum, the token is
    retransmitted four times before it is lost, held for less than a retransmission,
    and consensus waits at least as long as the token. *)
Theorem default_timeouts_valid {M : Type} `{QB : qb_map M} `{QL : !qb_map_laws M} (env : build_env) (map : Z) (s : tconf M) n :
  HZ env ∈ usual_hz -> icmap_ok (t_map s) -> is_Some (map_at map (t_map s)) ->
  (forall k, k ∈ timeout_keys -> lookup_item map k (t_map s) = None) ->
  first_member_count (t_cfg s) = Some n -> 0 <= n <= Z.of_nat PROCESSOR_COUNT_MAX ->
  exists s', totem_volatile_config_read env map None s = Some (inr tt, s') /\
    let c := t_cfg s' in
    valid_timeouts env c /\ token_timeout c = default_token n /\
    4 * token_retransmit_timeout c < token_timeout c /\ token_hold_timeout c < token_retransmit_timeout c /\
    token_timeout c <= consensus_timeout c.
Proof.
  intros Hz Ok Hm Hk Hn Hr. destruct (derived_exist env n Hz Hr) as (r & h & k & mh & D).
  destruct (read_defaults env map s n Ok Hm Hk Hn Hr r h k mh D) as (s' & E & Ec). destruct D as [_ _ _ Emh D].
  exists s'. split; [exact E|]. cbv zeta. pose proof (default_field map s Hm Hk (t_cfg s')) as F.
  assert (Ft : token_timeout (t_cfg s') = default_token n) by (rewrite Ec, <- (token_absent map s n Hm Hk Hr); reflexivity).
  assert (Fr := F token_retransmit_timeout "totem.token_retransmit"%string r false r ltac:(now rewrite Ec) ltac:(by_compute) ltac:(apply u32_small; lia)).
  assert (Fh := F token_hold_timeout "totem.hold"%string h false h ltac:(now rewrite Ec) ltac:(by_compute) ltac:(apply u32_small; lia)).
  assert (Fk := F consensus_timeout "totem.consensus"%string k false k ltac:(now rewrite Ec) ltac:(by_compute) ltac:(apply u32_small; lia)).
  assert (Fd := F max_network_delay "totem.max_network_delay"%string 50 false 50 ltac:(now rewrite Ec) ltac:(by_compute) eq_refl).
  assert (Fj := F join_timeout "totem.join"%string 50 false 50 ltac:(now rewrite Ec) ltac:(by_compute) eq_refl).
  assert (Fm := F merge_timeout "totem.merge"%string 200 false 200 ltac:(now rewrite Ec) ltac:(by_compute) eq_refl).
  assert (Fw := F downcheck_timeout "totem.downcheck"%string 1000 false 1000 ltac:(now rewrite Ec) ltac:(by_compute) eq_refl).
  assert (Fn := F token_warning "totem.token_warning"%string 75 true 75 ltac:(now rewrite Ec) ltac:(by_compute) eq_refl).
  split; [|rewrite Ft, Fr, Fh, Fk; repeat split; lia].
  constructor; rewrite ?Ft, ?Fr, ?Fh, ?Fk, ?Fd, ?Fj, ?Fm, ?Fw, ?Fn; [repeat constructor; lia | exists mh; split; [exact Emh | lia] | lia | lia].
Qed.

(** ** Accepted configurations *)

(** C26: a configuration that passes validation is consistent: every timeout is at least
    the minimum and consensus waits at least for a join; there is a link, links have
    the same number of members of one address family each, and ports, ttl and
    priorities fit the transport; without knet there is one link and no encryption; the
    local node is known and the size of packets is set.  Validation changes nothing
    else. *)
Theorem accepted_config_valid {M : Type} `{QB : qb_map M} env net (s s' : tconf M) u :
  0 < HZ env -> KNET_MAX_PACKET_SIZE env <> 0 -> totem_config_validate env net s = Some (inr u, s') ->
  valid_config env (t_cfg s') /\ net_mtu (t_cfg s') <> 0 /\
  (exists err pos, icmap_get_uint32 "nodelist.local_node_pos" (t_map s') = Some (err, Some pos)) /\
  t_map s' = t_map s /\ t_calls s' = t_calls s /\ t_cfg s' = (t_cfg s) <| net_mtu := net_mtu (t_cfg s') |>.
Proof.
  intros Hz Hk H. destruct (validate_ok env net s s' u Hz H) as (V & -> & L & _). destruct s as [c m l w]. cbn in *.
  destruct (Z.eqb_spec (net_mtu c) 0) as [E|N].
  - split; [exact (valid_config_mtu env c _ V)|]. split; [cbn; destruct (knet _); [exact Hk | discriminate]|]. repeat split. exact L.
  - split; [exact V|]. split; [exact N|]. split; [exact L|]. repeat split. now destruct c.
Qed.

(** ** Node ids *)

(** With at most ten nodes, all with an explicit id, the check for duplicate node ids
    fails exactly when two nodes share an id, whatever other keys the nodes have. *)
Theorem duplicate_nodeids_found {M : Type} `{QB : qb_map M} `{QL : !qb_map_laws M} `{QO : !qb_map_ordered M} net (s : tconf M) m ids :
  map_at (icmap_global_map (t_map s)) (t_map s) = Some m ->
  (forall k, k ∈ qb_map_pref_iter m "nodelist.node." -> exists p name, 0 <= p < 10 /\ no_space name /\ k = digit_key p name) ->
  (forall p, is_node m p -> icmap_get_uint32 (node_key p "nodeid") (t_map s) = Some (CS_OK, Some (ids p))) ->
  exists r, check_for_duplicate_nodeids net s = Some (r, s) /\
    (r = inr tt <-> forall p q, is_node m p -> is_node m q -> ids p = ids q -> p = q).
Proof. exact (duplicates_exact net s m ids). Qed.

(** ** The local node *)

(** When no node of the list is the local host, the search still gives the position
    of the node whose key comes last, as if it were the local one; only the map is
    left without a local position. *)
Theorem unknown_host_is_last_node {M : Type} `{QB : qb_map M} net map (s : tconf M) node ifa_list keys k p x :
  uname net = Some node -> getifaddrs net = Some ifa_list ->
  icmap_iter_init_r map (Some "nodelist.node."%string) (t_map s) = Some (keys ++ [k]) -> fst (scan_node_key k) = Some p ->
  search_local_node net map (t_map s) = Some (x, false) ->
  find_local_node net map false s = Some (inr (s32 p), s).
Proof.
  intros Hu Hi Hk Hp H. destruct (search_fails net map (t_map s) _ _ _ _ Hu Hi Hk H) as (d & ->).
  unfold find_local_node. rewrite (bind_run global_map _ s (icmap_global_map (t_map s)) s eq_refl), (bind_run (ret None) _ s None s eq_refl).
  rewrite (bind_run get_state _ s s s eq_refl), (bind_run (lift _) _ s (last_pos (keys ++ [k]) d, false) s) by (unfold lift; now rewrite H).
  rewrite (bind_run (when false _) _ s tt s eq_refl). unfold last_pos. rewrite foldl_app. cbn. now rewrite Hp.
Qed.

(** ** A cluster *)

Local Open Scope string_scope.
Local Open Scope Z_scope.

(** A build with knet only. *)
Definition demo_build : build_env := mk_build 100 false true 65536 65536 1 (Some 2) 128 4096 "/etc/corosync".

(** Node [i] has the address 10.0.0.i; the host is [name] with the address 10.0.0.[a]. *)
Definition demo_host (name : string) : option Z :=
  l ← strip_prefix (chars "10.0.0.") (chars name); '(v, _) ← read_number l; Some v.
Definition demo_net (name : string) (a : Z) : net_env :=
  mk_net_env (fun n f => v ← demo_host n; if f =? AF_INET6 then None else Some [mk_sockaddr AF_INET 0 [10; 0; 0; v] 0])
    (fun _ _ => Some "address") (fun _ _ => None) (Some [mk_ifaddrs "eth0" true (Some (mk_sockaddr AF_INET 0 [10; 0; 0; a] 0)) None])
    (fun _ => 1) (fun _ _ _ => None) (Some name).

Definition or_same {A} (r : option (Z * A)) (d : A) : A := match r with Some (_, x) => x | None => d end.

(** Node [i] of the list, with an id. *)
Definition demo_node (ids : Z -> Z) (i : nat) (m : demo_map) : demo_map :=
  let p := Z.of_nat i in
  let m := or_same (icmap_set_string (digit_key p "name") (Some ("node" +:+ pretty p)) m) m in
  let m := or_same (icmap_set_string (digit_key p "ring0_addr") (Some ("10.0.0." +:+ pretty p)) m) m in
  or_same (icmap_set_uint32 (digit_key p "nodeid") (ids p) m) m.

Definition demo_conf (ids : Z -> Z) (n : nat) : demo_map :=
  let m := foldr (demo_node ids) demo_zero (seq 0 n) in or_same (icmap_set_uint32 "totem.version" 2 m) m.

Definition demo_tconf (ids : Z -> Z) (n : nat) : tconf (gmap string icmap_item) := mk_tconf (zero_totem_config 4096) (demo_conf ids n) [] 0.

(** The configuration is read and validated on the host "node1". *)
Definition demo_accept (ids : Z -> Z) (n : nat) : option ((string + unit) * tconf (gmap string icmap_item)) :=
  let net := demo_net "node1.example.org" 1 in
  (totem_config_read demo_build net (fun _ => KeyOpenError 2) (fun _ => "error") 7;! totem_config_validate demo_build net) (demo_tconf ids n).

Definition outcome {S A} (r : option ((string + A) * S)) : option (string + A) := match r with Some (x, _) => Some x | None => None end.

Example three_nodes_accepted : outcome (demo_accept (fun p => p + 1) 3) = Some (inr tt).
Proof. vm_compute. reflexivity. Qed.

Example two_equal_ids_refused :
  outcome (demo_accept (fun p => if p =? 2 then 1 else p + 1) 3) = Some (inl "Nodeid 1 appears twice in corosync.conf").
Proof. vm_compute. reflexivity. Qed.

(** With eleven nodes a duplicate id can pass: the keys come in the order of their names,
    in which node 10 comes before node 2, so that neither is compared with the
    other.  Here nodes 2 and 10 both have the id 3 and the configuration is accepted. *)
Theorem duplicate_nodeid_missed :
  let ids p := if p =? 10 then 3 else p + 1 in
  icmap_get_uint32 (node_key 2 "nodeid") (demo_conf ids 11) = Some (CS_OK, Some 3) /\
  icmap_get_uint32 (node_key 10 "nodeid") (demo_conf ids 11) = Some (CS_OK, Some 3) /\
  outcome (demo_accept ids 11) = Some (inr tt).
Proof. vm_compute. repeat split; reflexivity. Qed.

(** ** Witnesses *)

Lemma or_same_ok key v n t (m : demo_map) : icmap_ok m -> icmap_ok (or_same (icmap_set_r (icmap_global_map m) key v n t m) m).
Proof.
  intros Ok. destruct (icmap_set_r (icmap_global_map m) key v n t m) as [[e m']|] eqn:E; [|exact Ok].
  exact (changes_ok _ _ (set_changes _ _ _ _ _ _ _ _ Ok E) Ok).
Qed.

Lemma demo_totem_ok ids n : icmap_ok (demo_conf ids n).
Proof.
  unfold demo_conf. apply or_same_ok. induction (seq 0 n) as [|i l IH]; cbn [foldr]; [apply demo_zero_ok|].
  unfold demo_node. do 3 apply or_same_ok. exact IH.
Qed.

Definition demo_ids (p : Z) : Z := p + 1.
Definition demo_three : tconf (gmap string icmap_item) := demo_tconf demo_ids 3.
Definition demo_items : gmap string icmap_item := default ∅ (map_at 1 (t_map demo_three)).


Lemma default_timeouts_valid_witness : exists s', totem_volatile_config_read demo_build 1 None demo_three = Some (inr tt, s') /\ valid_timeouts demo_build (t_cfg s').
Proof.
  destruct (default_timeouts_valid demo_build 1 demo_three 0 ltac:(by_compute) (demo_totem_ok _ _) ltac:(by_compute)
    ltac:(apply Forall_forall; by_compute) eq_refl ltac:(by_compute)) as (s' & E & V & _).
  exists s'. split; [exact E | exact V].
Defined.

(** The configuration of three nodes as it is read. *)
Definition demo_read : tconf (gmap string icmap_item) :=
  default demo_three (snd <$> totem_config_read demo_build (demo_net "node1.example.org" 1) (fun _ => KeyOpenError 2) (fun _ => "error") 7 demo_three).
Definition demo_validated : (string + unit) * tconf (gmap string icmap_item) :=
  default (inl "", demo_read) (totem_config_validate demo_build (demo_net "node1.example.org" 1) demo_read).

Lemma accepted_config_valid_witness : valid_config demo_build (t_cfg (snd demo_validated)).
Proof.
  refine (proj1 (accepted_config_valid demo_build (demo_net "node1.example.org" 1) demo_read (snd demo_validated) tt _ _ _)); [by_compute | by_compute|].
  transitivity (Some demo_validated); [refine (some_default _ _ _); vm_compute; reflexivity|].
  rewrite (surjective_pairing demo_validated) at 1. f_equal.
Defined.

Lemma demo_keys k : k ∈ qb_map_pref_iter demo_items "nodelist.node." -> exists p name, 0 <= p < 3 /\ no_space name /\ k = digit_key p name.
Proof.
  intros H. exists (fst (node_of k)), (snd (node_of k)). unfold no_space. revert k H. apply Forall_forall. by_compute.
Qed.

Lemma duplicate_nodeids_found_witness : exists r, check_for_duplicate_nodeids (demo_net "node1" 1) demo_three = Some (r, demo_three) /\
  (r = inr tt <-> forall p q, is_node demo_items p -> is_node demo_items q -> demo_ids p = demo_ids q -> p = q).
Proof.
  apply (duplicate_nodeids_found (demo_net "node1" 1) demo_three demo_items demo_ids).
  - refine (some_default _ _ _). vm_compute. reflexivity.
  - intros k (p & name & Hp & H)%demo_keys. exists p, name. split; [lia | exact H].
  - intros p [Hp [name Hn]]. apply demo_keys in Hn as (q & name' & Hq & _ & E). apply digit_key_inj in E as ->; [|lia..].
    assert (q = 0 \/ q = 1 \/ q = 2) as [-> | [-> | ->]] by lia; vm_compute; reflexivity.
Defined.

Definition demo_first_keys : list string := take 8 (qb_map_pref_iter demo_items "nodelist.node.").

Lemma unknown_host_is_last_node_witness : find_local_node (demo_net "stranger" 9) 1 false demo_three = Some (inr 2, demo_three).
Proof.
  exact (unknown_host_is_last_node (QB:=gmap_qb_map) (demo_net "stranger" 9) 1 demo_three "stranger" [mk_ifaddrs "eth0" true (Some (mk_sockaddr AF_INET 0 [10; 0; 0; 9] 0)) None]
    demo_first_keys "nodelist.node.2.ring0_addr" 2 2 eq_refl eq_refl
    ltac:(vm_compute; reflexivity) ltac:(vm_compute; reflexivity) ltac:(vm_compute; reflexivity)).
Defined.

(** A reload from three nodes to two of them and a new one. *)
Definition members_check (f : totem_interface) : bool :=
  match members f with
  | Some l => bool_decide (NoDup l) && bool_decide (empty_ip_address ∉ l) && (configured f || bool_decide (l = []))
  | None => false
  end.

Lemma members_checked fs : forallb members_check fs = true -> Forall2 if_members_ok fs (List.map (fun f => default [] (members f)) fs).
Proof.
  induction fs as [|f fs IH]; [constructor|]. cbn [forallb List.map]. intros [Hf H]%andb_true_iff. constructor; [|exact (IH H)].
  unfold members_check in Hf. destruct (members f) as [l|] eqn:E; [|discriminate]. cbn [default].
  apply andb_true_iff in Hf as [[A%bool_decide_eq_true B%bool_decide_eq_true]%andb_true_iff C].
  constructor; [exact E | exact A | exact B|]. intros F. rewrite F in C. now apply bool_decide_eq_true in C.
Qed.

Definition demo_reload : tconf (gmap string icmap_item) :=
  demo_read <| t_cfg ::= fun c => c <| orig_interfaces := interfaces c |>
    <| interfaces ::= alter (fun f => f <| member_list ::= <[0%nat := mk_ip 9 AF_INET (10 :: 0 :: 0 :: 9 :: repeat 0 12)]> |>) 0%nat |> |>.
Definition member_lists (fs : list totem_interface) : list (list totem_ip_address) := List.map (fun f => default [] (members f)) fs.

Lemma reload_changes_exact_witness :
  exists s', totemconfig_commit_new_params (fun _ _ => 0) demo_reload = Some (inr 0, s') /\
    t_calls s' = (link_calls (t_cfg demo_reload) ++
      [TotempgMemberRemove (mk_ip 1 AF_INET (10 :: 0 :: 0 :: 0 :: repeat 0 12)) 0; TotempgMemberAdd (mk_ip 9 AF_INET (10 :: 0 :: 0 :: 9 :: repeat 0 12)) 0;
       TotempgReconfigure])%list.
Proof.
  destruct (reload_changes_exact (fun _ _ => 0) demo_reload (member_lists (orig_interfaces (t_cfg demo_reload))) (member_lists (interfaces (t_cfg demo_reload))))
    as (s' & E & C & _); [vm_compute; reflexivity | vm_compute; reflexivity | apply members_checked; vm_compute; reflexivity | apply members_checked; vm_compute; reflexivity|].
  exists s'. split; [rewrite E; do 3 f_equal; vm_compute; reflexivity|]. rewrite C. vm_compute. reflexivity.
Defined.
