(* ===== verification/Cfg.v ===== *)
(** * The configuration service (exec/cfg.c)

    The shutdown of a node: a client asks for it, the clients that track shutdowns
    are asked for their opinion, and the node goes down when they agree, when the
    request is forced, or not at all.  Killing a node, the status requests and the
    phases of a change of the encryption; the reload of the configuration is in
    [CfgReload].

    The private data of a connection is an entry of [cfg_infos]: access to that of a
    closed connection is [None].  A connection is linked in [trackers_list] exactly
    when it is an element of the list. *)
From stdpp Require Import pretty.
From S2P Require Import Prelude CString VoteQuorumExec Cpg Icmap Util Endian TotemIp TotemConfig TotemConfigLinks.
Open Scope Z_scope.

Definition DEFAULT_SHUTDOWN_TIMEOUT : Z := 5000.
Definition CFG_SHUTDOWN_FLAG_REQUEST : Z := 0.
Definition CFG_SHUTDOWN_FLAG_REGARDLESS : Z := 1.
Definition CFG_SHUTDOWN_FLAG_IMMEDIATE : Z := 2.
Definition CRYPTO_RECONFIG_PHASE_ACTIVATE : Z := 1.
Definition CRYPTO_RECONFIG_PHASE_CLEANUP : Z := 2.
Definition CFG_INTERFACE_NAME_MAX_LEN : Z := 128.
Definition CFG_INTERFACE_STATUS_MAX_LEN : Z := 512.
Definition CFG_MAX_INTERFACES : nat := 16.
Definition CFG_NODE_STATUS_V1 : Z := 1.
Definition QB_TIME_NS_IN_MSEC : Z := 1000000.

Inductive shutdown_reply_t := SHUTDOWN_REPLY_UNKNOWN | SHUTDOWN_REPLY_YES | SHUTDOWN_REPLY_NO.
#[export] Instance shutdown_reply_eq : EqDecision shutdown_reply_t.
Proof. solve_decision. Defined.

(** [ci_conn], [ci_tracker_conn]: 0 for [NULL]. *)
Record cfg_info := mk_cfg_info { ci_conn : Z; ci_tracker_conn : Z; ci_shutdown_reply : shutdown_reply_t }.
#[export] Instance cfg_info_eta : Etable cfg_info := fun c => mk_cfg_info (ci_conn c) (ci_tracker_conn c) (ci_shutdown_reply c).

(** The messages to the other nodes; [source]: the connection of the sender. *)
Inductive cfg_msg :=
| EXEC_CFG_RINGREENABLE
| EXEC_CFG_KILLNODE (nodeid : Z) (reason : cs_name_t)
| EXEC_CFG_SHUTDOWN
| EXEC_CFG_RELOAD_CONFIG (source : Z)
| EXEC_CFG_CRYPTO_RECONFIG (phase : Z).

(** [struct knet_link_status] and [struct totem_node_status]. *)
Record link_status_t := mk_link_status { ls_enabled : Z; ls_connected : Z; ls_dynconnected : Z; ls_mtu : Z; ls_src : list Z; ls_dst : list Z }.
Record totem_node_status := mk_node_status {
  ns_version : Z; ns_nodeid : Z; ns_reachable : Z; ns_remote : Z; ns_external : Z;
  ns_onwire_min : Z; ns_onwire_max : Z; ns_onwire_ver : Z; ns_link_status : list link_status_t
}.

Inductive cfg_effect :=
| CfgMcast (m : cfg_msg)
| TestShutdown (conn error flags : Z)
| ResTryshutdown (conn error : Z)
| ResReplytoshutdown (conn error : Z)
| ResCfgTrackstart (conn error : Z)
| ResCfgTrackstop (conn error : Z)
| ShutdownTimerAdd (ns : Z)
| ShutdownTimerDelete
| FatalErrorExit
| ShutdownRequest
| CryptoReconfigurePhase (phase : Z)
| ResRingreenable (conn error : Z)
| ResKillnode (conn error : Z)
| ResRingstatusget (conn error interface_count : Z) (ifs : list (string * string))
| ResNodestatusVersion (conn error : Z)
| ResNodestatusV1 (conn error : Z) (s : totem_node_status)
| ResGetNodeAddrs (conn size error family num_addrs : Z) (addrs : list (list Z))
| ResLocalGet (conn error nodeid : Z)
| ResReloadConfig (conn error : Z)
| ResReopenLogFiles (conn error : Z)
| IpcRefcntInc (conn : Z)
| IpcRefcntDec (conn : Z).

Record cfg := mk_cfg {
  trackers_list : list Z;
  cfg_infos : gmap Z cfg_info;
  shutdown_con : option Z;
  shutdown_flags : Z;
  shutdown_yes : Z;
  shutdown_no : Z;
  shutdown_expected : Z;
  cfg_out : list cfg_effect
}.
#[export] Instance cfg_eta : Etable cfg := fun s =>
  mk_cfg (trackers_list s) (cfg_infos s) (shutdown_con s) (shutdown_flags s) (shutdown_yes s) (shutdown_no s) (shutdown_expected s) (cfg_out s).

Definition cfg_zero : cfg := mk_cfg [] ∅ None 0 0 0 0 [].
Definition cfg_emit (e : cfg_effect) (s : cfg) : cfg := s <| cfg_out ::= fun o => o ++ [e] |>.
Definition set_reply (r : shutdown_reply_t) (conn : Z) (s : cfg) : cfg := s <| cfg_infos ::= alter (fun ci => ci <| ci_shutdown_reply := r |>) conn |>.

(** [cfg_exec_init_fn]: the list is empty, the other variables keep their values. *)
Definition cfg_exec_init_fn (s : cfg) : cfg := s <| trackers_list := [] |>.
(** A new connection has private data of zeros. *)
Definition cfg_lib_init_fn (conn : Z) (s : cfg) : cfg := s <| cfg_infos ::= <[conn := mk_cfg_info 0 0 SHUTDOWN_REPLY_UNKNOWN]> |>.

Section Service.
(** The own node id, and whether a message could be queued. *)
Context (totem_nodeid_get : Z) (totem_mcast : cfg_msg -> Z).

(** [assert (api->totem_mcast (...) == 0)] *)
Definition mcast_assert (m : cfg_msg) (s : cfg) : option cfg :=
  if totem_mcast m =? 0 then Some (cfg_emit (CfgMcast m) s) else None.

(** ** Shutdown *)

Definition send_shutdown (s : cfg) : option cfg := mcast_assert EXEC_CFG_SHUTDOWN s.

(** The connections that are asked: those of the trackers but [exclude_conn]. *)
Definition asked (exclude_conn : Z) (s : cfg) : option (list Z) :=
  infos ← mapM (fun c => cfg_infos s !! c) (trackers_list s);
  Some (map ci_tracker_conn (List.filter (fun ci => negb (ci_conn ci =? exclude_conn)) infos)).

(** [only_conn], [exclude_conn]: 0 for [NULL]. *)
Definition send_test_shutdown (only_conn exclude_conn status : Z) (s : cfg) : option cfg :=
  if c_true only_conn then Some (cfg_emit (TestShutdown only_conn status (shutdown_flags s)) s)
  else
    conns ← asked exclude_conn s;
    Some (s <| cfg_out ::= fun o => o ++ map (fun c => TestShutdown c status (shutdown_flags s)) conns |>).

Definition check_shutdown_status (s : cfg) : option cfg :=
  match shutdown_con s with
  | None => Some s
  | Some con =>
      if shutdown_expected s <=? shutdown_yes s + shutdown_no s then
        let s := cfg_emit ShutdownTimerDelete s in
        ci ← cfg_infos s !! con;
        if (shutdown_expected s <=? shutdown_yes s) || (shutdown_flags s =? CFG_SHUTDOWN_FLAG_REGARDLESS)
        then send_shutdown (cfg_emit (ResTryshutdown (ci_conn ci) CS_OK) s <| shutdown_con := None |>)
        else Some (cfg_emit (ResTryshutdown (ci_conn ci) CS_ERR_BUSY) s <| shutdown_con := None |>)
      else Some s
  end.

Definition shutdown_timer_fn (s : cfg) : option cfg :=
  s ← check_shutdown_status (s <| shutdown_no := shutdown_expected s |>);
  send_test_shutdown 0 0 CS_ERR_TIMEOUT s.

Definition remove_ci_from_shutdown (conn : Z) (s : cfg) : option cfg :=
  let s := if bool_decide (shutdown_con s = Some conn)
           then cfg_emit ShutdownTimerDelete (s <| shutdown_con := None |>) else s in
  if bool_decide (conn ∈ trackers_list s) then
    let s := s <| trackers_list ::= List.filter (fun c => negb (c =? conn)) |> in
    ci ← cfg_infos s !! conn;
    let s := if bool_decide (is_Some (shutdown_con s)) then
               match ci_shutdown_reply ci with
               | SHUTDOWN_REPLY_YES => s <| shutdown_yes ::= fun n => n - 1 |>
               | SHUTDOWN_REPLY_NO => s <| shutdown_no ::= fun n => n - 1 |>
               | SHUTDOWN_REPLY_UNKNOWN => s
               end
             else s in
    check_shutdown_status (set_reply SHUTDOWN_REPLY_YES conn s <| shutdown_yes ::= fun n => n + 1 |>)
  else Some s.

(** The private data goes with the connection. *)
Definition cfg_lib_exit_fn (conn : Z) (s : cfg) : option cfg :=
  cfg_infos s !! conn ≫= fun _ =>
  s ← remove_ci_from_shutdown conn s; Some (s <| cfg_infos ::= delete conn |>).

Definition message_handler_req_lib_cfg_trackstart (conn : Z) (s : cfg) : option cfg :=
  cfg_infos s !! conn ≫= fun _ =>
  s ← (if bool_decide (conn ∈ trackers_list s) then Some s
       else
         let s := s <| trackers_list ::= cons conn |> <| cfg_infos ::= alter (fun ci => ci <| ci_tracker_conn := conn |>) conn |> in
         if bool_decide (is_Some (shutdown_con s))
         then send_test_shutdown conn 0 CS_OK (set_reply SHUTDOWN_REPLY_UNKNOWN conn s <| shutdown_expected ::= fun n => n + 1 |>)
         else Some s);
  Some (cfg_emit (ResCfgTrackstart conn CS_OK) s).

Definition message_handler_req_lib_cfg_trackstop (conn : Z) (s : cfg) : option cfg :=
  cfg_infos s !! conn ≫= fun _ =>
  s ← remove_ci_from_shutdown conn s; Some (cfg_emit (ResCfgTrackstop conn CS_OK) s).

(** [shutdown_timeout]: the key cfg.shutdown_timeout of the configuration map. *)
Definition message_handler_req_lib_cfg_tryshutdown (conn flags : Z) (shutdown_timeout : option Z) (s : cfg) : option cfg :=
  cfg_infos s !! conn ≫= fun _ =>
  if flags =? CFG_SHUTDOWN_FLAG_IMMEDIATE then s ← send_shutdown s; Some (cfg_emit (ResTryshutdown conn CS_OK) s)
  else if bool_decide (is_Some (shutdown_con s)) then Some (cfg_emit (ResTryshutdown conn CS_ERR_EXIST) s)
  else
    let s := s <| cfg_infos ::= alter (fun ci => ci <| ci_conn := conn |>) conn |>
               <| shutdown_con := Some conn |> <| shutdown_flags := flags |> <| shutdown_yes := 0 |> <| shutdown_no := 0 |> in
    let others := List.filter (fun c => negb (c =? conn)) (trackers_list s) in
    let s := foldl (fun s c => set_reply SHUTDOWN_REPLY_UNKNOWN c s) s others <| shutdown_expected := Z.of_nat (length others) |> in
    if shutdown_expected s =? 0 then send_shutdown (cfg_emit (ResTryshutdown conn CS_OK) s)
    else send_test_shutdown 0 conn CS_OK
           (cfg_emit (ShutdownTimerAdd (u64 (default DEFAULT_SHUTDOWN_TIMEOUT shutdown_timeout * QB_TIME_NS_IN_MSEC))) s).

Definition message_handler_req_lib_cfg_replytoshutdown (conn response : Z) (s : cfg) : option cfg :=
  cfg_infos s !! conn ≫= fun _ =>
  match shutdown_con s with
  | None => Some (cfg_emit (ResReplytoshutdown conn CS_ERR_ACCESS) s)
  | Some _ =>
      s ← check_shutdown_status
            (if c_true response then set_reply SHUTDOWN_REPLY_YES conn (s <| shutdown_yes ::= fun n => n + 1 |>)
             else set_reply SHUTDOWN_REPLY_NO conn (s <| shutdown_no ::= fun n => n + 1 |>));
      Some (cfg_emit (ResReplytoshutdown conn CS_OK) s)
  end.

(** ** Messages of the nodes *)

Definition message_handler_req_exec_cfg_ringreenable (nodeid : Z) (s : cfg) : cfg := s.

(** Only the length of the reason is converted. *)
Definition exec_cfg_killnode_endian_convert (m : cfg_msg) : cfg_msg :=
  match m with
  | EXEC_CFG_KILLNODE id reason => EXEC_CFG_KILLNODE id (mk_cs_name (Z.to_nat (swab16 (Z.of_nat (cn_length reason)))) (cn_value reason))
  | m => m
  end.

(** The reason is only logged. *)
Definition message_handler_req_exec_cfg_killnode (nodeid : Z) (s : cfg) : cfg :=
  if nodeid =? totem_nodeid_get then cfg_emit FatalErrorExit s else s.

(** [nodeid]: the sender. *)
Definition message_handler_req_exec_cfg_shutdown (nodeid : Z) (s : cfg) : cfg :=
  if nodeid =? totem_nodeid_get then cfg_emit ShutdownRequest s else s.

Definition message_handler_req_exec_cfg_reconfig_crypto (phase nodeid : Z) (s : cfg) : option cfg :=
  if nodeid =? totem_nodeid_get then
    let s := cfg_emit (CryptoReconfigurePhase phase) s in
    if phase <? CRYPTO_RECONFIG_PHASE_CLEANUP then mcast_assert (EXEC_CFG_CRYPTO_RECONFIG CRYPTO_RECONFIG_PHASE_CLEANUP) s
    else Some s
  else Some s.

(** ** Killing a node *)

(** [sscanf (key, "runtime.members.%u.%s", ...)]: both, or nothing that is used. *)
Definition scan_member_key (key : string) : option (Z * string) :=
  l ← strip_prefix (chars "runtime.members.") (chars key);
  '(id, l) ← scan_u l;
  l ← strip_prefix (chars ".") l;
  name ← scan_s l; Some (id, name).

Definition member_status_key (nodeid : Z) : string :=
  snprintf ICMAP_KEYNAME_MAXLEN ("runtime.members." +:+ pretty nodeid +:+ ".status").

(** The error of the request; the keys are visited until the status of the node is found. *)
Fixpoint killnode_error {M} `{qb_map M} (nodeid : Z) (keys : list string) (m : icmap M) : option Z :=
  match keys with
  | [] => Some CS_ERR_NOT_EXIST
  | key :: keys =>
      match scan_member_key key with
      | Some (id, name) =>
          if strcmp_eq name "status" && (id =? nodeid) then
            '(err, status) ← icmap_get_string_r (icmap_global_map m) (member_status_key nodeid) m;
            Some (if negb (err =? CS_OK) then CS_ERR_LIBRARY
                  else if strcmp_eq (default ""%string status) "joined" then CS_OK else CS_ERR_NOT_EXIST)
          else killnode_error nodeid keys m
      | None => killnode_error nodeid keys m
      end
  end.

(** The result of the multicast is not looked at. *)
Definition message_handler_req_lib_cfg_killnode {M} `{qb_map M} (conn nodeid : Z) (reason : cs_name_t) (m : icmap M) (s : cfg) : option cfg :=
  keys ← icmap_iter_init_r (icmap_global_map m) (Some "runtime.members."%string) m;
  error ← killnode_error nodeid keys m;
  let s := if (error =? CS_OK) && (totem_mcast (EXEC_CFG_KILLNODE nodeid reason) =? 0)
           then cfg_emit (CfgMcast (EXEC_CFG_KILLNODE nodeid reason)) s else s in
  Some (cfg_emit (ResKillnode conn error) s).

(** ** Status requests *)

(** [totemsrp_ifaces_get]: the addresses of a node with their links, and the result.  The
    arrays have [size] places; the test for a full array comes after the store. *)
Fixpoint ifaces_of (nodeid : Z) (link : nat) (ifs : list totem_interface) : option (list (nat * totem_ip_address)) :=
  match ifs with
  | [] => Some []
  | f :: ifs =>
      l ← (if configured f then members f else Some []);
      r ← ifaces_of nodeid (S link) ifs;
      Some (map (fun a => (link, a)) (List.filter (fun a => ip_nodeid a =? nodeid) l) ++ r)
  end.

Definition totemsrp_ifaces_get (nodeid : Z) (size : nat) (c : totem_config) : option (Z * list (nat * totem_ip_address)) :=
  l ← ifaces_of nodeid 0 (interfaces c);
  if Nat.leb (length l) size then Some (0, l) else None.

(** The names and states that were stored before an error; [status] is the array of the transport. *)
Fixpoint ring_status (ip_print : totem_ip_address -> string) (l : list (nat * totem_ip_address)) (status : list string)
    : option (Z * list (string * string)) :=
  match l with
  | [] => Some (CS_OK, [])
  | (id, a) :: l =>
      if CFG_INTERFACE_NAME_MAX_LEN - 3 <=? strlen (ip_print a) then Some (CS_ERR_NAME_TOO_LONG, [])
      else match status with
           | [] => None
           | st :: status =>
               if CFG_INTERFACE_STATUS_MAX_LEN <=? strlen st then Some (CS_ERR_NAME_TOO_LONG, [])
               else '(res, r) ← ring_status ip_print l status;
                    Some (res, (snprintf (Z.to_nat CFG_INTERFACE_NAME_MAX_LEN) (pretty (Z.of_nat id) +:+ " " +:+ ip_print a), st) :: r)
           end
  end.

Definition message_handler_req_lib_cfg_ringstatusget (ip_print : totem_ip_address -> string) (status : list string) (c : totem_config)
    (conn : Z) (s : cfg) : option cfg :=
  '(_, l) ← totemsrp_ifaces_get totem_nodeid_get INTERFACE_MAX c;
  if Nat.leb (length l) CFG_MAX_INTERFACES then
    '(res, ifs) ← ring_status ip_print l status;
    Some (cfg_emit (ResRingstatusget conn res (Z.of_nat (length l)) ifs) s)
  else None.

(** [status]: the result of [totempg_nodestatus_get]. *)
Definition message_handler_req_lib_cfg_nodestatusget (status : option totem_node_status) (conn nodeid version : Z) (s : cfg) : cfg :=
  match status with
  | None => cfg_emit (ResNodestatusVersion conn CS_ERR_FAILED_OPERATION) s
  | Some st =>
      if version =? CFG_NODE_STATUS_V1
      then cfg_emit (ResNodestatusV1 conn CS_OK
             (mk_node_status CFG_NODE_STATUS_V1 nodeid (ns_reachable st) (ns_remote st) (ns_external st) (ns_onwire_min st)
                (ns_onwire_max st) (ns_onwire_ver st) (ns_link_status st))) s
      else cfg_emit (ResNodestatusVersion conn CS_ERR_NOT_SUPPORTED) s
  end.

(** [header_size]: the size of the answer without addresses. *)
Definition message_handler_req_lib_cfg_get_node_addrs (header_size : Z) (c : totem_config) (conn nodeid : Z) (s : cfg) : option cfg :=
  let nodeid := if nodeid =? 0 then totem_nodeid_get else nodeid in
  '(res, l) ← totemsrp_ifaces_get nodeid INTERFACE_MAX c;
  let '(ret, l) := if c_true res then (CS_ERR_EXIST, []) else (CS_OK, l) in
  let size := header_size + Z.of_nat (length l) * Z.of_nat TOTEMIP_ADDRLEN in
  Some (match l with
        | [] => cfg_emit (ResGetNodeAddrs conn size CS_ERR_NOT_EXIST 0 0 []) s
        | (_, first) :: _ =>
            let live := List.filter (fun a => c_true (ip_family (snd a))) l in
            cfg_emit (ResGetNodeAddrs conn size ret (ip_family first) (Z.of_nat (length live)) (map (fun a => ip_addr (snd a)) live)) s
        end).

Definition message_handler_req_lib_cfg_local_get (conn : Z) (s : cfg) : cfg := cfg_emit (ResLocalGet conn CS_OK totem_nodeid_get) s.
Definition message_handler_req_lib_cfg_ringreenable (conn : Z) (s : cfg) : cfg := cfg_emit (ResRingreenable conn CS_ERR_NOT_SUPPORTED) s.

Definition message_handler_req_lib_cfg_reload_config (conn : Z) (s : cfg) : option cfg :=
  mcast_assert (EXEC_CFG_RELOAD_CONFIG conn) (cfg_emit (IpcRefcntInc conn) s).

(** [res]: the result of [logsys_reopen_log_files]. *)
Definition message_handler_req_lib_cfg_reopen_log_files (conn res : Z) (s : cfg) : cfg := cfg_emit (ResReopenLogFiles conn res) s.

End Service.
