(* ===== verification/CfgShutdown.v ===== *)
(** * The configuration service: a shutdown is a vote

    [ballot] is what a shutdown request means: the clients that track shutdowns
    vote, a client that leaves consents, and the request is settled when nobody is
    undecided.  The service keeps three counters instead of the votes; the relation
    [counts] says what they count, and every step of the service is one of the
    ballot, with the same questions and answers. *)
From S2P Require Import Prelude VoteQuorumExec Cpg Icmap Cfg.
Open Scope Z_scope.

Inductive cfg_event :=
| CfgOpen (conn : Z)
| CfgClose (conn : Z)
| CfgTrackstart (conn : Z)
| CfgTrackstop (conn : Z)
| CfgTryshutdown (conn flags : Z) (timeout : option Z)
| CfgReplytoshutdown (conn response : Z)
| CfgTimer.

(** ** The reference *)

Record ballot := mk_ballot { b_trackers : list Z; b_request : option (Z * Z); b_votes : gmap Z bool }.
#[export] Instance ballot_eta : Etable ballot := fun b => mk_ballot (b_trackers b) (b_request b) (b_votes b).

Definition but (c : Z) (l : list Z) : list Z := List.filter (fun x => negb (x =? c)) l.
Arguments but : simpl never.
Definition has_voted (b : ballot) (c : Z) : bool := bool_decide (is_Some (b_votes b !! c)).
Definition consents (b : ballot) (c : Z) : bool := bool_decide (b_votes b !! c = Some true).

(** The result of the request, when nobody is undecided. *)
Definition verdict (con flags : Z) (b : ballot) : option Z :=
  let voters := but con (b_trackers b) in
  if forallb (has_voted b) voters
  then Some (if forallb (consents b) voters || (flags =? CFG_SHUTDOWN_FLAG_REGARDLESS) then CS_OK else CS_ERR_BUSY)
  else None.

Definition settle (b : ballot) : ballot * list cfg_effect :=
  match b_request b with
  | None => (b, [])
  | Some (con, flags) =>
      match verdict con flags b with
      | None => (b, [])
      | Some r => (b <| b_request := None |>, ResTryshutdown con r :: (if r =? CS_OK then [CfgMcast EXEC_CFG_SHUTDOWN] else []))
      end
  end.

Definition ballot_leave (c : Z) (b : ballot) : ballot * list cfg_effect :=
  let b := if bool_decide (fst <$> b_request b = Some c) then b <| b_request := None |> else b in
  if bool_decide (c ∈ b_trackers b) then settle (b <| b_trackers ::= but c |> <| b_votes ::= delete c |>) else (b, []).

Definition ballot_step (e : cfg_event) (b : ballot) : ballot * list cfg_effect :=
  match e with
  | CfgOpen _ => (b, [])
  | CfgClose c | CfgTrackstop c => ballot_leave c b
  | CfgTrackstart c =>
      if bool_decide (c ∈ b_trackers b) then (b, [])
      else (b <| b_trackers ::= cons c |> <| b_votes ::= delete c |>,
            match b_request b with Some (_, flags) => [TestShutdown c CS_OK flags] | None => [] end)
  | CfgTryshutdown c flags _ =>
      if flags =? CFG_SHUTDOWN_FLAG_IMMEDIATE then (b, [CfgMcast EXEC_CFG_SHUTDOWN; ResTryshutdown c CS_OK])
      else if bool_decide (is_Some (b_request b)) then (b, [ResTryshutdown c CS_ERR_EXIST])
      else
        let '(b, out) := settle (b <| b_request := Some (c, flags) |> <| b_votes := ∅ |>) in
        (b, match b_request b with Some _ => map (fun x => TestShutdown x CS_OK flags) (but c (b_trackers b)) | None => out end)
  | CfgReplytoshutdown c response =>
      if bool_decide (is_Some (b_request b)) then settle (b <| b_votes ::= <[c := c_true response]> |>) else (b, [])
  | CfgTimer =>
      settle (b <| b_votes := foldr (fun c v => if bool_decide (is_Some (v !! c)) then v else <[c := false]> v) (b_votes b)
                (b_trackers b) |>)
  end.

(** ** Runs of the service *)

Section Runs.
Context (self : Z) (totem_mcast : cfg_msg -> Z).

Definition cfg_step (e : cfg_event) (s : cfg) : option cfg :=
  match e with
  | CfgOpen c => Some (cfg_lib_init_fn c s)
  | CfgClose c => cfg_lib_exit_fn totem_mcast c s
  | CfgTrackstart c => message_handler_req_lib_cfg_trackstart c s
  | CfgTrackstop c => message_handler_req_lib_cfg_trackstop totem_mcast c s
  | CfgTryshutdown c flags t => message_handler_req_lib_cfg_tryshutdown totem_mcast c flags t s
  | CfgReplytoshutdown c r => message_handler_req_lib_cfg_replytoshutdown totem_mcast c r s
  | CfgTimer => shutdown_timer_fn totem_mcast s
  end.

(** The clients and the IPC server behave: requests come from open connections, a client
    is a tracker and has not voted when it replies, the client of the request waits for
    the answer, the timer is running when it expires; and the node has not been told to
    go down yet. *)
Definition cfg_event_ok (e : cfg_event) (s : cfg) : Prop :=
  CfgMcast EXEC_CFG_SHUTDOWN ∉ cfg_out s /\
  match e with
  | CfgOpen c => c <> 0 /\ cfg_infos s !! c = None
  | CfgClose c | CfgTrackstop c | CfgTryshutdown c _ _ => is_Some (cfg_infos s !! c)
  | CfgTrackstart c => is_Some (cfg_infos s !! c) /\ shutdown_con s <> Some c
  | CfgReplytoshutdown c _ =>
      exists ci, cfg_infos s !! c = Some ci /\
        (is_Some (shutdown_con s) -> c ∈ trackers_list s /\ shutdown_con s <> Some c /\ ci_shutdown_reply ci = SHUTDOWN_REPLY_UNKNOWN)
  | CfgTimer => is_Some (shutdown_con s)
  end.

Fixpoint cfg_run (es : list cfg_event) (s : cfg) : option cfg :=
  match es with [] => Some s | e :: es => s ← cfg_step e s; cfg_run es s end.
Fixpoint cfg_events_ok (es : list cfg_event) (s : cfg) : Prop :=
  match es with
  | [] => True
  | e :: es => cfg_event_ok e s /\ match cfg_step e s with Some s' => cfg_events_ok es s' | None => True end
  end.
Fixpoint ballot_run (es : list cfg_event) (b : ballot) : ballot * list cfg_effect :=
  match es with
  | [] => (b, [])
  | e :: es => let '(b, o) := ballot_step e b in let '(b, o') := ballot_run es b in (b, o ++ o')
  end.
End Runs.

(** The effects of a request: its answers, the questions to the trackers and the shutdown. *)
Definition is_vote (e : cfg_effect) : bool :=
  match e with
  | CfgMcast _ | ResTryshutdown _ _ => true
  | TestShutdown _ error _ => error =? CS_OK
  | _ => false
  end.

(** ** Counting replies *)

Definition reply_of (v : option bool) : shutdown_reply_t :=
  match v with None => SHUTDOWN_REPLY_UNKNOWN | Some true => SHUTDOWN_REPLY_YES | Some false => SHUTDOWN_REPLY_NO end.

Definition tally (v : gmap Z bool) (r : shutdown_reply_t) (l : list Z) : Z :=
  Z.of_nat (length (List.filter (fun c => bool_decide (reply_of (v !! c) = r)) l)).
Arguments tally : simpl never.

Definition one (b : bool) : Z := if b then 1 else 0.

(** Comparisons of concrete replies. *)
Ltac replies :=
  cbn [reply_of] in *;
  repeat match goal with
  | |- context [bool_decide (?a = ?b)] =>
      let v := eval vm_compute in (bool_decide (a = b)) in match v with true => idtac | false => idtac end; change (bool_decide (a = b)) with v
  | H : context [bool_decide (?a = ?b)] |- _ =>
      let v := eval vm_compute in (bool_decide (a = b)) in match v with true => idtac | false => idtac end; change (bool_decide (a = b)) with v in H
  end; cbn [one] in *.

Lemma tally_cons v r c l : tally v r (c :: l) = one (bool_decide (reply_of (v !! c) = r)) + tally v r l.
Proof. unfold tally. cbn. destruct (bool_decide _); cbn [length one]; lia. Qed.

Lemma tally_nonneg v r l : 0 <= tally v r l.
Proof. unfold tally. lia. Qed.

Lemma tally_ext v v' r l : (forall c, c ∈ l -> v !! c = v' !! c) -> tally v r l = tally v' r l.
Proof.
  induction l as [|c l IH]; intros H; [reflexivity|]. rewrite !tally_cons, (H c) by left.
  rewrite IH; [reflexivity|]. intros x Hx. apply H. now right.
Qed.

Lemma tally_empty r l : tally ∅ r l = if bool_decide (r = SHUTDOWN_REPLY_UNKNOWN) then Z.of_nat (length l) else 0.
Proof.
  induction l as [|c l IH]; [now destruct (bool_decide _)|]. rewrite tally_cons, IH, lookup_empty. cbn [reply_of length].
  rewrite (bool_decide_ext (SHUTDOWN_REPLY_UNKNOWN = r) (r = SHUTDOWN_REPLY_UNKNOWN)) by (split; congruence).
  destruct (bool_decide _); cbn [one]; lia.
Qed.

(** Every voter has one of the three replies. *)
Lemma tally_all v l :
  tally v SHUTDOWN_REPLY_UNKNOWN l + tally v SHUTDOWN_REPLY_YES l + tally v SHUTDOWN_REPLY_NO l = Z.of_nat (length l).
Proof.
  induction l as [|c l IH]; [reflexivity|]. rewrite !tally_cons. cbn [length].
  destruct (v !! c) as [[]|]; replies; lia.
Qed.

Lemma tally_none v r l : tally v r l = 0 <-> forall c, c ∈ l -> reply_of (v !! c) <> r.
Proof.
  induction l as [|c l IH]; [split; [intros _ c Hc; now apply elem_of_nil in Hc | reflexivity]|].
  rewrite tally_cons. pose proof (tally_nonneg v r l). destruct (bool_decide_reflect (reply_of (v !! c) = r)) as [E|E]; cbn [one].
  - split; [lia|]. intros F. destruct (F c ltac:(left) E).
  - rewrite Z.add_0_l, IH. split; intros F x Hx; [apply elem_of_cons in Hx as [->|Hx]; auto|]. apply F. now right.
Qed.

Lemma elem_but c x l : x ∈ but c l <-> x ∈ l /\ x <> c.
Proof. unfold but. rewrite list_elem_of_In, filter_In, <- list_elem_of_In, negb_true_iff, Z.eqb_neq. tauto. Qed.

Lemma but_cons c x l : but c (x :: l) = if x =? c then but c l else x :: but c l.
Proof. unfold but. cbn. now destruct (x =? c). Qed.

Lemma but_absent c l : c ∉ l -> but c l = l.
Proof.
  induction l as [|x l IH]; intros H; [reflexivity|]. apply not_elem_of_cons in H as [Hx H]. rewrite but_cons.
  destruct (x =? c) eqn:E; [now apply Z.eqb_eq in E as ->|]. now rewrite IH.
Qed.

Lemma but_comm c d l : but c (but d l) = but d (but c l).
Proof.
  induction l as [|x l IH]; [reflexivity|]. rewrite !but_cons.
  destruct (x =? d) eqn:D, (x =? c) eqn:C; rewrite ?but_cons, ?C, ?D; congruence.
Qed.

(** Taking one voter out. *)
Lemma tally_but v r c l : NoDup l -> c ∈ l -> tally v r (but c l) = tally v r l - one (bool_decide (reply_of (v !! c) = r)).
Proof.
  induction l as [|x l IH]; intros N H; [now apply elem_of_nil in H|]. apply NoDup_cons in N as [Nx N].
  rewrite but_cons. apply elem_of_cons in H as [<-|H].
  - rewrite Z.eqb_refl, tally_cons, but_absent by exact Nx. lia.
  - rewrite (proj2 (Z.eqb_neq x c)) by (intros ->; contradiction). rewrite !tally_cons, IH by assumption. lia.
Qed.

Lemma length_but c l : NoDup l -> c ∈ l -> Z.of_nat (length (but c l)) = Z.of_nat (length l) - 1.
Proof.
  intros N H. pose proof (tally_all ∅ (but c l)). pose proof (tally_all ∅ l). rewrite !tally_but in * by assumption.
  rewrite lookup_empty in *. replies. lia.
Qed.

(** Changing one vote. *)
Lemma tally_vote v r c b l : NoDup l -> c ∈ l ->
  tally (<[c := b]> v) r l = tally v r l - one (bool_decide (reply_of (v !! c) = r)) + one (bool_decide (reply_of (Some b) = r)).
Proof.
  intros N H. pose proof (tally_but v r c l N H) as E1. pose proof (tally_but (<[c := b]> v) r c l N H) as E2.
  rewrite lookup_insert_eq in E2. rewrite (tally_ext _ v) in E2; [lia|].
  intros x (_ & Hx)%elem_but. now rewrite lookup_insert_ne by congruence.
Qed.

Lemma all_voted b l : forallb (has_voted b) l = true <-> tally (b_votes b) SHUTDOWN_REPLY_UNKNOWN l = 0.
Proof.
  rewrite tally_none, forallb_forall. unfold has_voted. split; intros H c Hc.
  - apply list_elem_of_In, H, bool_decide_eq_true in Hc as [[] ->]; discriminate.
  - apply list_elem_of_In, H in Hc. destruct (b_votes b !! c) as [[]|]; [reflexivity.. | now destruct Hc].
Qed.

Lemma all_consent b l :
  forallb (consents b) l = true <-> tally (b_votes b) SHUTDOWN_REPLY_UNKNOWN l = 0 /\ tally (b_votes b) SHUTDOWN_REPLY_NO l = 0.
Proof.
  rewrite !tally_none, forallb_forall. unfold consents. split.
  - intros H. split; intros c Hc; apply list_elem_of_In, H, bool_decide_eq_true in Hc as ->; discriminate.
  - intros [H1 H2] c Hc%list_elem_of_In. specialize (H1 c Hc). specialize (H2 c Hc).
    destruct (b_votes b !! c) as [[]|]; [reflexivity | now destruct H2 | now destruct H1].
Qed.

(** ** What the counters count *)

(** The trackers are open connections. *)
Record linked (s : cfg) (l : list Z) : Prop := {
  lk_trackers : trackers_list s = l;
  lk_nodup : NoDup l;
  lk_conns : forall c ci, cfg_infos s !! c = Some ci -> c <> 0 /\ (ci_conn ci = 0 \/ ci_conn ci = c);
  lk_infos : forall c, c ∈ l -> exists ci, cfg_infos s !! c = Some ci /\ ci_tracker_conn ci = c
}.

(** [left]: the clients that left since the request. *)
Record counted (con flags : Z) (s : cfg) (b : ballot) (left : Z) : Prop := {
  cd_con : shutdown_con s = Some con;
  cd_flags : shutdown_flags s = flags;
  cd_info : ci_conn <$> cfg_infos s !! con = Some con;
  cd_replies : forall c, c ∈ but con (b_trackers b) -> ci_shutdown_reply <$> cfg_infos s !! c = Some (reply_of (b_votes b !! c));
  cd_left : 0 <= left;
  cd_expected : shutdown_expected s = Z.of_nat (length (but con (b_trackers b))) + left;
  cd_yes : shutdown_yes s = tally (b_votes b) SHUTDOWN_REPLY_YES (but con (b_trackers b)) + left;
  cd_no : shutdown_no s = tally (b_votes b) SHUTDOWN_REPLY_NO (but con (b_trackers b))
}.

Definition counts (s : cfg) (b : ballot) : Prop :=
  linked s (b_trackers b) /\
  match b_request b with None => shutdown_con s = None | Some (con, flags) => exists left, counted con flags s b left end.

(** A request that is pending has a voter that has not voted. *)
Definition undecided (b : ballot) : Prop :=
  forall con flags, b_request b = Some (con, flags) -> 0 < tally (b_votes b) SHUTDOWN_REPLY_UNKNOWN (but con (b_trackers b)).

(** The service went from [s] to [s'] with the effects [o] of the ballot, and still counts
    unless the node goes down. *)
Definition follows (s s' : cfg) (b' : ballot) (o : list cfg_effect) : Prop :=
  exists l, cfg_out s' = cfg_out s ++ l /\ List.filter is_vote l = o /\
    (CfgMcast EXEC_CFG_SHUTDOWN ∈ l \/ counts s' b' /\ undecided b').

(** The effects are not counted. *)
Lemma linked_out s l f : linked s l -> linked (s <| cfg_out ::= f |>) l.
Proof. now intros [T N C I]. Qed.

Lemma counts_out s b f : counts s b -> counts (s <| cfg_out ::= f |>) b.
Proof. intros [L R]. split; [now apply linked_out|]. destruct (b_request b) as [[]|]; [|exact R]. destruct R as [left []]. exists left. now constructor. Qed.

Lemma undecided_idle b : b_request b = None -> undecided b.
Proof. intros H con flags E. congruence. Qed.

Lemma follows_here s b : counts s b -> undecided b -> follows s s b [].
Proof. intros K U. exists []. rewrite app_nil_r. split; [reflexivity|]. split; [reflexivity|]. now right. Qed.

(** Effects before and after that are not those of a vote. *)
Lemma follows_emit e s s' b o : is_vote e = false -> follows s s' b o -> follows s (cfg_emit e s') b o.
Proof.
  intros E (l & H1 & H2 & H3). exists (l ++ [e]). cbn. rewrite H1, app_assoc. split; [reflexivity|].
  rewrite List.filter_app, H2. cbn. rewrite E, app_nil_r. split; [reflexivity|].
  destruct H3 as [H3|[K U]]; [left; apply elem_of_app; now left | right]. split; [now apply counts_out | exact U].
Qed.

Lemma follows_trans s s1 s' b' l1 o : cfg_out s1 = cfg_out s ++ l1 -> follows s1 s' b' o -> follows s s' b' (List.filter is_vote l1 ++ o).
Proof.
  intros E (l & H1 & H2 & H3). exists (l1 ++ l). rewrite H1, E, app_assoc, List.filter_app, H2. repeat split.
  destruct H3 as [H3|H3]; [left; apply elem_of_app; now right | now right].
Qed.

(** A change of the private data of one connection that is not its address. *)
Lemma linked_alter f c s l : (forall ci, ci_conn (f ci) = ci_conn ci \/ ci_conn (f ci) = c) ->
  (forall ci, ci_tracker_conn ci = c -> ci_tracker_conn (f ci) = c) -> linked s l -> linked (s <| cfg_infos ::= alter f c |>) l.
Proof.
  intros F1 F2 [T N C I]. constructor; [exact T | exact N | |].
  - cbn. intros k ci. rewrite lookup_alter_Some. intros [(-> & ci' & E & ->)|(_ & E)]; [|exact (C k ci E)].
    destruct (C _ _ E) as [Hc Hi]. split; [exact Hc|]. destruct (F1 ci') as [-> | ->]; auto.
  - cbn. intros k Hk. destruct (I k Hk) as (ci & E & H). destruct (decide (k = c)) as [->|Hne].
    + exists (f ci). rewrite lookup_alter_eq, E. split; [reflexivity | now apply F2].
    + exists ci. now rewrite lookup_alter_ne by congruence.
Qed.

Lemma fmap_alter {A} (g : cfg_info -> A) f c k (m : gmap Z cfg_info) : (k = c -> forall ci, g (f ci) = g ci) -> g <$> alter f c m !! k = g <$> m !! k.
Proof.
  intros H. destruct (decide (k = c)) as [->|Hne]; [|now rewrite lookup_alter_ne by congruence].
  rewrite lookup_alter_eq. destruct (m !! c) as [ci|]; [|reflexivity]. cbn. now rewrite H.
Qed.

(** A tracker is taken off the list; when a request is pending it counts as a client that left. *)
Lemma linked_but c s l : linked s l -> linked (s <| trackers_list ::= but c |>) (but c l).
Proof.
  intros [T N C I]. constructor; [cbn; now rewrite T | now apply filter_nodup | exact C |]. intros k (Hk & _)%elem_but. exact (I k Hk).
Qed.

Section Simulation.
Context (totem_mcast : cfg_msg -> Z) (mcast_ok : totem_mcast EXEC_CFG_SHUTDOWN = 0).

Lemma send_shutdown_ok s : send_shutdown totem_mcast s = Some (cfg_emit (CfgMcast EXEC_CFG_SHUTDOWN) s).
Proof. unfold send_shutdown, mcast_assert. now rewrite mcast_ok. Qed.

(** The service settles a request as the ballot does. *)
Lemma check_settles s b : counts s b ->
  exists s', check_shutdown_status totem_mcast s = Some s' /\ follows s s' (fst (settle b)) (snd (settle b)) /\
    trackers_list s' = trackers_list s /\ cfg_infos s' = cfg_infos s.
Proof.
  intros K. pose proof K as [L R]. unfold check_shutdown_status, settle. destruct (b_request b) as [[con flags]|] eqn:Eb.
  2:{ rewrite R. exists s. split; [reflexivity|]. split; [|split; reflexivity]. apply follows_here; [exact K | now apply undecided_idle]. }
  destruct R as [left [Rc Rf Hi _ Rl Re Ry Rn]]. rewrite Rc, Re, Ry, Rn. unfold verdict.
  set (voters := but con (b_trackers b)) in *.
  pose proof (tally_all (b_votes b) voters) as A. pose proof (tally_nonneg (b_votes b) SHUTDOWN_REPLY_UNKNOWN voters).
  pose proof (tally_nonneg (b_votes b) SHUTDOWN_REPLY_NO voters).
  assert (V : (Z.of_nat (length voters) + left <=? tally (b_votes b) SHUTDOWN_REPLY_YES voters + left + tally (b_votes b) SHUTDOWN_REPLY_NO voters)
              = forallb (has_voted b) voters) by (apply Bool.eq_iff_eq_true; rewrite all_voted, Z.leb_le; lia).
  assert (Y : (Z.of_nat (length voters) + left <=? tally (b_votes b) SHUTDOWN_REPLY_YES voters + left) = forallb (consents b) voters)
    by (apply Bool.eq_iff_eq_true; rewrite all_consent, Z.leb_le; lia).
  rewrite V. destruct (forallb (has_voted b) voters) eqn:V'.
  - cbn -[verdict send_shutdown Z.leb forallb]. destruct (cfg_infos s !! con) as [ci|]; [|discriminate]. injection Hi as Hc.
    cbn -[send_shutdown Z.leb forallb]. rewrite Re, Ry, Y, Rf, Hc. destruct (_ || _).
    + rewrite send_shutdown_ok. eexists. split; [reflexivity|]. split; [|split; reflexivity].
      exists [ShutdownTimerDelete; ResTryshutdown con CS_OK; CfgMcast EXEC_CFG_SHUTDOWN]. cbn. rewrite <- !app_assoc. repeat split.
      left. right. right. left.
    + eexists. split; [reflexivity|]. split; [|split; reflexivity].
      exists [ShutdownTimerDelete; ResTryshutdown con CS_ERR_BUSY]. cbn. rewrite <- !app_assoc. repeat split. right.
      split; [split; [|reflexivity] | now apply undecided_idle]. destruct L. now constructor.
  - exists s. split; [reflexivity|]. split; [|split; reflexivity]. apply follows_here; [exact K|]. intros c f E.
    cbn in E. rewrite Eb in E. injection E as <- <-. cbn. fold voters. destruct (Z.eq_dec (tally (b_votes b) SHUTDOWN_REPLY_UNKNOWN voters) 0) as [Z|Z]; [|lia].
    apply all_voted in Z. congruence.
Qed.

Lemma leave_counts s b c : counts s b -> fst <$> b_request b <> Some c -> c ∈ b_trackers b ->
  exists ci s1, cfg_infos s !! c = Some ci /\
    counts s1 (b <| b_trackers ::= but c |> <| b_votes ::= delete c |>) /\ cfg_out s1 = cfg_out s /\
    s1 = set_reply SHUTDOWN_REPLY_YES c
           (if bool_decide (is_Some (shutdown_con s)) then
              match ci_shutdown_reply ci with
              | SHUTDOWN_REPLY_YES => s <| trackers_list ::= but c |> <| shutdown_yes ::= fun n => n - 1 |>
              | SHUTDOWN_REPLY_NO => s <| trackers_list ::= but c |> <| shutdown_no ::= fun n => n - 1 |>
              | SHUTDOWN_REPLY_UNKNOWN => s <| trackers_list ::= but c |>
              end
            else s <| trackers_list ::= but c |>) <| shutdown_yes ::= fun n => n + 1 |>.
Proof.
  intros [L R] Hq Hc. destruct (lk_infos _ _ L c Hc) as (ci & Hi & _). exists ci. eexists. split; [exact Hi|]. split; [|split; [|reflexivity]].
  2: now destruct (bool_decide _), (ci_shutdown_reply ci).
  pose proof (linked_alter (fun ci => ci <| ci_shutdown_reply := SHUTDOWN_REPLY_YES |>) c _ _ ltac:(now left) ltac:(auto) (linked_but c s _ L)) as [T N C I].
  destruct (b_request b) as [[con flags]|] eqn:Eb.
  - destruct R as [left [Rc Rf Ri Rr Rl Re Ry Rn]]. cbn in Hq.
    assert (Hne : c <> con) by congruence. assert (Hv : c ∈ but con (b_trackers b)) by now apply elem_but.
    rewrite Rc, bool_decide_true by eauto. specialize (Rr c Hv) as Hr. rewrite Hi in Hr. injection Hr as Hr.
    pose proof (lk_nodup _ _ L) as N0. assert (N1 : NoDup (but con (b_trackers b))) by now apply filter_nodup.
    assert (X : forall r, tally (delete c (b_votes b)) r (but con (but c (b_trackers b)))
                = tally (b_votes b) r (but con (b_trackers b)) - one (bool_decide (reply_of (b_votes b !! c) = r))).
    { intros r. rewrite but_comm, <- tally_but by assumption. apply tally_ext. intros x (_ & Hx)%elem_but. now rewrite lookup_delete_ne by congruence. }
    split; [destruct (ci_shutdown_reply ci); now constructor|]. cbn. rewrite Eb. exists (left + 1).
    constructor; cbn; rewrite ?X; try (destruct (ci_shutdown_reply ci); assumption).
    + rewrite fmap_alter by (intros; congruence). destruct (ci_shutdown_reply ci); exact Ri.
    + intros x Hx. rewrite but_comm in Hx. apply elem_but in Hx as [Hx Hxc].
      rewrite fmap_alter by congruence. rewrite lookup_delete_ne by congruence. specialize (Rr x Hx). destruct (ci_shutdown_reply ci); exact Rr.
    + lia.
    + rewrite but_comm, length_but by assumption. destruct (ci_shutdown_reply ci); cbn; lia.
    + rewrite Hr. destruct (reply_of _); replies; cbn; lia.
    + rewrite Hr. destruct (reply_of _); replies; cbn; lia.
  - rewrite R, bool_decide_false by (intros [? [=]]). split; [now constructor|]. cbn. now rewrite Eb.
Qed.

(** The request of the client that leaves is dropped. *)
Lemma drop_request s b c : counts s b -> undecided b ->
  let s1 := if bool_decide (shutdown_con s = Some c) then cfg_emit ShutdownTimerDelete (s <| shutdown_con := None |>) else s in
  let b1 := if bool_decide (fst <$> b_request b = Some c) then b <| b_request := None |> else b in
  counts s1 b1 /\ undecided b1 /\ fst <$> b_request b1 <> Some c /\ b_trackers b1 = b_trackers b /\
  exists l, cfg_out s1 = cfg_out s ++ l /\ List.filter is_vote l = [].
Proof.
  intros K U. pose proof K as [L R]. cbn zeta. assert (Q : shutdown_con s = fst <$> b_request b).
  { destruct (b_request b) as [[con flags]|]; [destruct R as [left []]|]; assumption. }
  rewrite Q. destruct (bool_decide_reflect (fst <$> b_request b = Some c)) as [E|E].
  - split; [|repeat split; try (now apply undecided_idle || discriminate)].
    + split; [|reflexivity]. destruct L. now constructor.
    + now exists [ShutdownTimerDelete].
  - split; [exact K|]. split; [exact U|]. split; [exact E|]. split; [reflexivity|]. exists []. now rewrite app_nil_r.
Qed.

Lemma remove_follows s b c : counts s b -> undecided b ->
  exists s', remove_ci_from_shutdown totem_mcast c s = Some s' /\ follows s s' (fst (ballot_leave c b)) (snd (ballot_leave c b)).
Proof.
  intros K U. unfold remove_ci_from_shutdown, ballot_leave. pose proof (drop_request s b c K U) as (K1 & U1 & Q & _ & l & O & F).
  cbn zeta in *. set (s1 := if bool_decide (shutdown_con s = Some c) then _ else s) in *.
  set (b1 := if bool_decide (fst <$> b_request b = Some c) then _ else b) in *. clearbody s1 b1.
  rewrite (lk_trackers _ _ (proj1 K1)). destruct (bool_decide_reflect (c ∈ b_trackers b1)) as [Hc|Hc].
  - destruct (leave_counts s1 b1 c K1 Q Hc) as (ci & s2 & Hi & K2 & O2 & E2). cbn -[check_shutdown_status].
    rewrite Hi. cbn -[check_shutdown_status].
    destruct (check_settles s2 _ K2) as (s' & E & W & _). exists s'. split; [rewrite <- E, E2; reflexivity|].
    rewrite <- O2 in O. exact (eq_rect _ (fun o => follows s s' _ (o ++ _)) (follows_trans _ _ _ _ _ _ O W) _ F).
  - exists s1. split; [reflexivity|]. exact (eq_rect _ (fun o => follows s s1 _ (o ++ [])) (follows_trans _ _ _ _ _ _ O (follows_here _ _ K1 U1)) _ F).
Qed.

Lemma settle_kept b : b_trackers (fst (settle b)) = b_trackers b /\ (b_request (fst (settle b)) = b_request b \/ b_request (fst (settle b)) = None).
Proof. unfold settle. destruct (b_request b) as [[con flags]|] eqn:E; [destruct (verdict con flags b)|]; cbn; auto. Qed.

Lemma leave_gone c b : c ∉ b_trackers (fst (ballot_leave c b)) /\ fst <$> b_request (fst (ballot_leave c b)) <> Some c.
Proof.
  unfold ballot_leave. set (b1 := if bool_decide (fst <$> b_request b = Some c) then _ else b).
  assert (Q : fst <$> b_request b1 <> Some c).
  { unfold b1. now destruct (bool_decide_reflect (fst <$> b_request b = Some c)). }
  clearbody b1. destruct (bool_decide_reflect (c ∈ b_trackers b1)) as [Hc|Hc]; [|now split].
  destruct (settle_kept (b1 <| b_trackers ::= but c |> <| b_votes ::= delete c |>)) as [-> H]. split.
  - cbn. rewrite elem_but. tauto.
  - destruct H as [-> | ->]; [exact Q | discriminate].
Qed.

Lemma follows_close c s s' b o : follows s s' b o -> c ∉ b_trackers b -> fst <$> b_request b <> Some c ->
  follows s (s' <| cfg_infos ::= delete c |>) b o.
Proof.
  intros (l & O & F & H) Ht Hr. exists l. repeat split; [exact O | exact F |]. destruct H as [H|[[[T N C I] R] U]]; [now left | right].
  split; [|exact U]. split.
  - constructor; [exact T | exact N | |]; cbn.
    + intros k ci [_ E]%lookup_delete_Some. exact (C k ci E).
    + intros k Hk. rewrite lookup_delete_ne by (intros ->; contradiction). exact (I k Hk).
  - destruct (b_request b) as [[con flags]|]; [|exact R]. destruct R as [left [R1 R2 R3 R4 R5 R6 R7 R8]].
    exists left. constructor; try assumption; cbn.
    + rewrite lookup_delete_ne by (intros ->; now apply Hr). exact R3.
    + intros k Hk. rewrite lookup_delete_ne; [now apply R4|]. intros ->. apply elem_but in Hk. tauto.
Qed.

Lemma trackstart_follows s b c : counts s b -> undecided b -> is_Some (cfg_infos s !! c) -> shutdown_con s <> Some c ->
  exists s', message_handler_req_lib_cfg_trackstart c s = Some s' /\
    follows s s' (fst (ballot_step (CfgTrackstart c) b)) (snd (ballot_step (CfgTrackstart c) b)).
Proof.
  intros K U [ci Hi] Hq. pose proof K as [L R]. unfold message_handler_req_lib_cfg_trackstart. rewrite Hi. cbn -[send_test_shutdown].
  rewrite (lk_trackers _ _ L). destruct (bool_decide_reflect (c ∈ b_trackers b)) as [Hc|Hc].
  - eexists. split; [reflexivity|]. apply follows_emit; [reflexivity|]. now apply follows_here.
  - destruct (lk_conns _ _ L c ci Hi) as [H0 _].
    assert (L1 : linked (s <| trackers_list ::= cons c |> <| cfg_infos ::= alter (fun ci => ci <| ci_tracker_conn := c |>) c |>) (c :: b_trackers b)).
    { destruct L as [T N C I]. constructor; cbn; [now rewrite T | now constructor | |].
      - intros k cj. rewrite lookup_alter_Some. intros [(-> & cj' & E & ->)|(_ & E)]; [exact (C _ _ E) | exact (C k cj E)].
      - intros k Hk. destruct (decide (k = c)) as [->|Hne]; [exists (ci <| ci_tracker_conn := c |>); now rewrite lookup_alter_eq, Hi|].
        apply elem_of_cons in Hk as [->|Hk]; [contradiction|]. rewrite lookup_alter_ne by congruence. exact (I k Hk). }
    destruct (b_request b) as [[con flags]|] eqn:Eb.
    + destruct R as [left [R1 R2 R3 R4 R5 R6 R7 R8]]. rewrite R1, bool_decide_true by eauto. unfold send_test_shutdown.
      replace (c_true c) with true by (symmetry; apply negb_true_iff, Z.eqb_neq; exact H0). cbn. rewrite R2.
      eexists. split; [reflexivity|]. apply follows_emit; [reflexivity|]. exists [TestShutdown c CS_OK flags].
      split; [reflexivity|]. split; [reflexivity|]. right.
      assert (Hne : c <> con) by congruence. apply (linked_alter (fun ci => ci <| ci_shutdown_reply := SHUTDOWN_REPLY_UNKNOWN |>) c) in L1;
        [|now left | auto].
      assert (B : but con (c :: b_trackers b) = c :: but con (b_trackers b)) by (rewrite but_cons, (proj2 (Z.eqb_neq c con)); [reflexivity | exact Hne]).
      assert (X : forall r, tally (delete c (b_votes b)) r (but con (c :: b_trackers b))
                  = one (bool_decide (SHUTDOWN_REPLY_UNKNOWN = r)) + tally (b_votes b) r (but con (b_trackers b))).
      { intros r. rewrite B, tally_cons, lookup_delete_eq. f_equal. apply tally_ext. intros x (Hx & _)%elem_but.
        rewrite lookup_delete_ne by (intros ->; contradiction). reflexivity. }
      split; [split|].
      * destruct L1. now constructor.
      * cbn. rewrite Eb. exists left. constructor; cbn; rewrite ?X; try assumption; replies; try lia.
        -- rewrite !fmap_alter by (intros; congruence). exact R3.
        -- intros x Hx. rewrite B in Hx. apply elem_of_cons in Hx as [->|Hx]; [now rewrite !lookup_alter_eq, lookup_delete_eq, Hi|].
           assert (x <> c) by (intros ->; apply elem_but in Hx; tauto).
           rewrite !lookup_alter_ne, lookup_delete_ne by congruence. exact (R4 x Hx).
        -- rewrite B. cbn [length]. lia.
      * intros con' flags' E. cbn in E. rewrite Eb in E. injection E as <- <-. cbn. rewrite X. replies.
        specialize (U con flags Eb). lia.
    + rewrite R, bool_decide_false by (intros [? [=]]). eexists. split; [reflexivity|]. apply follows_emit; [reflexivity|].
      exists []. rewrite app_nil_r. split; [reflexivity|]. split; [reflexivity|]. right. split; [split|].
      * exact L1.
      * cbn. now rewrite Eb.
      * now apply undecided_idle.
Qed.

Lemma reply_follows s b c r : counts s b -> undecided b -> cfg_event_ok (CfgReplytoshutdown c r) s ->
  exists s', message_handler_req_lib_cfg_replytoshutdown totem_mcast c r s = Some s' /\
    follows s s' (fst (ballot_step (CfgReplytoshutdown c r) b)) (snd (ballot_step (CfgReplytoshutdown c r) b)).
Proof.
  intros K U (_ & ci & Hi & Hq). pose proof K as [L R]. unfold message_handler_req_lib_cfg_replytoshutdown. rewrite Hi. cbn -[check_shutdown_status].
  destruct (b_request b) as [[con flags]|] eqn:Eb.
  2:{ rewrite R, bool_decide_false by (intros [? [=]]). eexists. split; [reflexivity|]. apply follows_emit; [reflexivity|]. now apply follows_here. }
  rewrite bool_decide_true by eauto. destruct R as [left [R1 R2 R3 R4 R5 R6 R7 R8]]. rewrite R1 in *.
  destruct Hq as (Hc & Hne & Hu); [eauto|]. rewrite (lk_trackers _ _ L) in Hc.
  assert (Hv : c ∈ but con (b_trackers b)) by (apply elem_but; split; congruence).
  assert (N : NoDup (but con (b_trackers b))) by (apply filter_nodup, L). pose proof (R4 c Hv) as Hr. rewrite Hi in Hr. injection Hr as Hr.
  set (s1 := if c_true r then _ else _).
  assert (K1 : counts s1 (b <| b_votes ::= <[c := c_true r]> |>) /\ cfg_out s1 = cfg_out s).
  { unfold s1. split; [|now destruct (c_true r)]. split.
    - pose proof (fun f H1 H2 => linked_alter f c s _ H1 H2 L) as A.
      destruct (c_true r); [specialize (A (fun ci => ci <| ci_shutdown_reply := SHUTDOWN_REPLY_YES |>)) | specialize (A (fun ci => ci <| ci_shutdown_reply := SHUTDOWN_REPLY_NO |>))];
        (destruct A; [now left | auto | now constructor]).
    - cbn. rewrite Eb. exists left. constructor; cbn; rewrite ?tally_vote by assumption; try (destruct (c_true r); assumption).
      + destruct (c_true r); cbn; (rewrite fmap_alter by (intros; congruence)); exact R3.
      + intros x Hx. destruct (decide (x = c)) as [->|Hx'].
        * rewrite lookup_insert_eq. destruct (c_true r); cbn; now rewrite lookup_alter_eq, Hi.
        * rewrite lookup_insert_ne by congruence. destruct (c_true r); cbn; (rewrite lookup_alter_ne by congruence); exact (R4 x Hx).
      + rewrite <- Hr, Hu. destruct (c_true r); cbn; replies; lia.
      + rewrite <- Hr, Hu. destruct (c_true r); cbn; replies; lia. }
  destruct K1 as [K1 O1]. destruct (check_settles s1 _ K1) as (s' & E & W & _). rewrite E. cbn. eexists. split; [reflexivity|].
  apply follows_emit; [reflexivity|]. apply (follows_trans s s1 s' _ [] _); [now rewrite app_nil_r | exact W].
Qed.

(** The voters that are asked are those of the ballot. *)
Lemma asked_voters s l con : linked s l -> ci_conn <$> cfg_infos s !! con = Some con -> asked con s = Some (but con l).
Proof.
  intros [T N C I] Hc. unfold asked. rewrite T. clear T. assert (con <> 0).
  { destruct (cfg_infos s !! con) as [ci|] eqn:E; [exact (proj1 (C _ _ E)) | discriminate]. }
  induction l as [|c l IH]; [reflexivity|]. apply NoDup_cons in N as [_ N].
  destruct (I c ltac:(left)) as (ci & Hi & Ht). cbn. rewrite Hi. cbn.
  specialize (IH N (fun k Hk => I k ltac:(now right))). apply bind_Some in IH as (infos & -> & [= IH]). cbn.
  rewrite but_cons. assert (Q : (ci_conn ci =? con) = (c =? con)).
  { destruct (C c ci Hi) as [_ [E|E]]; rewrite E; [|reflexivity]. destruct (Z.eqb_spec c con) as [->|]; [|now apply Z.eqb_neq].
    rewrite Hi in Hc. injection Hc as Hc. congruence. }
  rewrite Q. destruct (c =? con); cbn; rewrite IH; [reflexivity | now rewrite Ht].
Qed.

Lemma reset_replies l s :
  let s' := foldl (fun s c => set_reply SHUTDOWN_REPLY_UNKNOWN c s) s l in
  s' = s <| cfg_infos := cfg_infos s' |> /\
  (forall c, c ∈ l -> ci_shutdown_reply <$> cfg_infos s' !! c = (fun _ => SHUTDOWN_REPLY_UNKNOWN) <$> cfg_infos s !! c) /\
  (forall c, ci_conn <$> cfg_infos s' !! c = ci_conn <$> cfg_infos s !! c) /\
  (forall c, ci_tracker_conn <$> cfg_infos s' !! c = ci_tracker_conn <$> cfg_infos s !! c).
Proof.
  cbn zeta. induction l as [|x l IH] using rev_ind; [destruct s; cbn; repeat split; intros c Hc; now apply elem_of_nil in Hc|].
  rewrite foldl_app. cbn. destruct IH as (I1 & I2 & I3 & I4). set (s1 := foldl _ s l) in *. repeat split.
  - rewrite I1. reflexivity.
  - intros c Hc. destruct (decide (c = x)) as [->|Hne].
    + rewrite lookup_alter_eq. specialize (I3 x). destruct (cfg_infos s1 !! x), (cfg_infos s !! x); try discriminate; reflexivity.
    + rewrite lookup_alter_ne by congruence. apply I2. apply elem_of_app in Hc as [Hc|Hc]; [exact Hc|]. now apply list_elem_of_singleton in Hc.
  - intros c. rewrite fmap_alter by (intros; reflexivity). apply I3.
  - intros c. rewrite fmap_alter by (intros; reflexivity). apply I4.
Qed.

Lemma asked_total s l x : linked s l -> exists conns, asked x s = Some conns.
Proof.
  intros [T N C I]. unfold asked. rewrite T. assert (H : is_Some (mapM (fun c => cfg_infos s !! c) l)).
  { apply mapM_is_Some, Forall_forall. intros c Hc. destruct (I c Hc) as (ci & E & _). eauto. }
  destruct H as [infos ->]. cbn. eauto.
Qed.

Lemma new_request s b c flags : counts s b -> is_Some (cfg_infos s !! c) ->
  exists s', s' = foldl (fun s x => set_reply SHUTDOWN_REPLY_UNKNOWN x s)
      (s <| cfg_infos ::= alter (fun ci => ci <| ci_conn := c |>) c |> <| shutdown_con := Some c |> <| shutdown_flags := flags |>
         <| shutdown_yes := 0 |> <| shutdown_no := 0 |>) (but c (b_trackers b))
      <| shutdown_expected := Z.of_nat (length (but c (b_trackers b))) |> /\
    counts s' (b <| b_request := Some (c, flags) |> <| b_votes := ∅ |>) /\ cfg_out s' = cfg_out s.
Proof.
  intros [L _] [ci Hi]. eexists. split; [reflexivity|].
  set (s1 := s <| cfg_infos ::= alter (fun ci => ci <| ci_conn := c |>) c |> <| shutdown_con := Some c |> <| shutdown_flags := flags |>
         <| shutdown_yes := 0 |> <| shutdown_no := 0 |>).
  assert (L1 : linked s1 (b_trackers b)).
  { apply (linked_alter (fun ci => ci <| ci_conn := c |>) c) in L; [|now right | auto]. destruct L. now constructor. }
  pose proof (reset_replies (but c (b_trackers b)) s1) as (E & H1 & H2 & H3). cbn zeta in *.
  set (s2 := foldl _ s1 _) in *. rewrite E. clearbody s2. destruct L1 as [T N C I]. split; [split|reflexivity].
  - constructor; [exact T | exact N | |]; cbn.
    + intros k cj Hk. specialize (H2 k). rewrite Hk in H2. destruct (cfg_infos s1 !! k) as [cj'|] eqn:E'; [|discriminate].
      injection H2 as H2. rewrite H2. exact (C k cj' E').
    + intros k Hk. destruct (I k Hk) as (cj & E' & Ht). specialize (H3 k). rewrite E' in H3.
      destruct (cfg_infos s2 !! k) as [cj'|]; [|discriminate]. injection H3 as H3. exists cj'. split; congruence.
  - cbn. exists 0. constructor; cbn; rewrite ?tally_empty; replies; try reflexivity; try lia.
    + rewrite H2. unfold s1. cbn. rewrite lookup_alter_eq, Hi. reflexivity.
    + intros k Hk. rewrite H1, lookup_empty by exact Hk. apply elem_but in Hk as [Hk _]. destruct (I k Hk) as (cj & -> & _). reflexivity.
Qed.

Lemma filter_questions flags l : List.filter is_vote (map (fun c => TestShutdown c CS_OK flags) l) = map (fun c => TestShutdown c CS_OK flags) l.
Proof. induction l as [|c l IH]; [reflexivity|]. cbn. now rewrite IH. Qed.

Lemma filter_timeouts flags l : List.filter is_vote (map (fun c => TestShutdown c CS_ERR_TIMEOUT flags) l) = [].
Proof. induction l as [|c l IH]; [reflexivity|]. cbn. now rewrite IH. Qed.

Lemma try_follows s b c flags t : counts s b -> undecided b -> is_Some (cfg_infos s !! c) ->
  exists s', message_handler_req_lib_cfg_tryshutdown totem_mcast c flags t s = Some s' /\
    follows s s' (fst (ballot_step (CfgTryshutdown c flags t) b)) (snd (ballot_step (CfgTryshutdown c flags t) b)).
Proof.
  intros K U Hi. pose proof K as [L R]. unfold message_handler_req_lib_cfg_tryshutdown, ballot_step.
  destruct Hi as [ci Hi]. rewrite Hi. cbn -[send_shutdown send_test_shutdown settle]. rewrite send_shutdown_ok.
  destruct (flags =? CFG_SHUTDOWN_FLAG_IMMEDIATE).
  { eexists. split; [reflexivity|]. exists [CfgMcast EXEC_CFG_SHUTDOWN; ResTryshutdown c CS_OK]. cbn. rewrite <- app_assoc. repeat split. left. left. }
  destruct (b_request b) as [[con fl]|] eqn:Eb.
  { destruct R as [left D]. rewrite (cd_con _ _ _ _ _ D), !bool_decide_true by eauto. eexists. split; [reflexivity|].
    exists [ResTryshutdown c CS_ERR_EXIST]. repeat split; try reflexivity. right. split; [now apply counts_out | exact U]. }
  rewrite R, !bool_decide_false by (intros [? [=]]). rewrite (lk_trackers _ _ L).
  change (List.filter (fun x => negb (x =? c)) (b_trackers b)) with (but c (b_trackers b)).
  destruct (new_request s b c flags K (ex_intro _ ci Hi)) as (s1 & E1 & K1 & O1). cbn -[send_shutdown send_test_shutdown settle] in E1.
  rewrite <- E1. set (b1 := b <| b_request := Some (c, flags) |> <| b_votes := ∅ |>) in *. pose proof K1 as [L1 [left D]].
  pose proof (all_voted b1 (but c (b_trackers b))) as V. cbn [b_votes b1] in V. rewrite tally_empty in V. replies.
  unfold settle, verdict. change (b_request b1) with (Some (c, flags)). change (b_trackers b1) with (b_trackers b). cbn -[send_shutdown send_test_shutdown forallb].
  destruct (Z.eqb_spec (Z.of_nat (length (but c (b_trackers b)))) 0) as [Z|Z].
  - rewrite (proj2 V Z). assert (but c (b_trackers b) = []) as -> by (apply nil_length_inv; lia). cbn -[send_shutdown].
    rewrite send_shutdown_ok. eexists. split; [reflexivity|]. exists [ResTryshutdown c CS_OK; CfgMcast EXEC_CFG_SHUTDOWN].
    cbn. rewrite O1, <- app_assoc. repeat split. left. right. left.
  - assert (forallb (has_voted b1) (but c (b_trackers b)) = false) as -> by (apply not_true_iff_false; tauto).
    unfold send_test_shutdown. cbn -[asked]. rewrite (asked_voters _ (b_trackers b) c); [| exact (linked_out s1 _ _ L1) | exact (cd_info _ _ _ _ _ D)].
    cbn. rewrite (cd_flags _ _ _ _ _ D). eexists. split; [reflexivity|].
    exists (ShutdownTimerAdd (u64 (default DEFAULT_SHUTDOWN_TIMEOUT t * QB_TIME_NS_IN_MSEC)) :: map (fun x => TestShutdown x CS_OK flags) (but c (b_trackers b))).
    cbn. rewrite O1, <- app_assoc, filter_questions. repeat split; try reflexivity. right. split.
    + now apply (counts_out (cfg_emit _ s1)), (counts_out s1).
    + intros con' flags' E. cbn in E. injection E as <- <-. cbn. rewrite tally_empty. replies. lia.
Qed.

(** When the timer expires everybody has voted, and somebody against. *)
Lemma vote_no l (v : gmap Z bool) c : (foldr (fun c v => if bool_decide (is_Some (v !! c)) then v else <[c := false]> v) v l) !! c
  = match v !! c with Some x => Some x | None => if bool_decide (c ∈ l) then Some false else None end.
Proof.
  induction l as [|x l IH]; [cbn; destruct (v !! c); [reflexivity|]; now rewrite bool_decide_false by apply not_elem_of_nil|].
  cbn. set (v' := foldr _ v l) in *. destruct (decide (x = c)) as [->|Hne].
  - destruct (bool_decide_reflect (is_Some (v' !! c))) as [[y Hy]|Hn].
    + rewrite Hy in *. destruct (v !! c); [exact IH|]. rewrite bool_decide_true by left. destruct (bool_decide (c ∈ l)); congruence.
    + rewrite lookup_insert_eq. destruct (v !! c); [destruct Hn; eauto|]. now rewrite bool_decide_true by left.
  - rewrite (bool_decide_ext (c ∈ x :: l) (c ∈ l)) by (rewrite elem_of_cons; split; [intros [E|H]; [congruence | exact H] | now right]). rewrite <- IH.
    destruct (bool_decide (is_Some (v' !! x))); [reflexivity|]. now rewrite lookup_insert_ne by congruence.
Qed.

Lemma timer_follows s b : counts s b -> undecided b -> is_Some (shutdown_con s) ->
  exists s', shutdown_timer_fn totem_mcast s = Some s' /\ follows s s' (fst (ballot_step CfgTimer b)) (snd (ballot_step CfgTimer b)).
Proof.
  intros [L R] U [x Hx]. destruct (b_request b) as [[con flags]|] eqn:Eb; [|congruence].
  destruct R as [left [R1 R2 R3 R4 R5 R6 R7 R8]]. specialize (U con flags Eb).
  unfold shutdown_timer_fn, check_shutdown_status, ballot_step, settle, verdict. cbn -[send_shutdown send_test_shutdown forallb foldr Z.leb].
  rewrite Eb, R1, R2, R6, R7. set (voters := but con (b_trackers b)) in *. set (b1 := b <| b_votes := _ |>).
  pose proof (tally_all (b_votes b) voters) as A. pose proof (tally_nonneg (b_votes b) SHUTDOWN_REPLY_YES voters).
  pose proof (tally_nonneg (b_votes b) SHUTDOWN_REPLY_NO voters).
  assert (V : forall c, c ∈ voters -> b_votes b1 !! c = match b_votes b !! c with Some x => Some x | None => Some false end).
  { intros c Hc. unfold b1. cbn -[foldr]. rewrite vote_no. apply elem_but in Hc as [Hc _]. now rewrite bool_decide_true. }
  assert (forallb (has_voted b1) voters = true) as ->.
  { apply forallb_forall. intros c Hc%list_elem_of_In. unfold has_voted. rewrite V by exact Hc. now destruct (b_votes b !! c). }
  assert (forallb (consents b1) voters = false) as ->.
  { apply not_true_iff_false. intros F. rewrite forallb_forall in F. apply Z.lt_neq in U. apply U. symmetry. apply tally_none.
    intros c Hc E. apply list_elem_of_In in Hc as Hc'. apply F, bool_decide_eq_true in Hc'. rewrite V in Hc' by exact Hc.
    destruct (b_votes b !! c) as [[]|]; discriminate. }
  rewrite (proj2 (Z.leb_le _ _)) by lia. cbn -[send_shutdown send_test_shutdown Z.leb].
  destruct (cfg_infos s !! con) as [ci|] eqn:Ei; [|discriminate]. injection R3 as R3. cbn -[send_shutdown send_test_shutdown Z.leb].
  rewrite R3, (proj2 (Z.leb_gt _ _)) by lia. cbn -[send_shutdown send_test_shutdown].
  assert (T : forall s1, trackers_list s1 = trackers_list s -> cfg_infos s1 = cfg_infos s -> exists l,
    send_test_shutdown 0 0 CS_ERR_TIMEOUT s1 = Some (s1 <| cfg_out ::= fun o => o ++ map (fun c => TestShutdown c CS_ERR_TIMEOUT (shutdown_flags s1)) l |>)).
  { intros s1 E1 E2. assert (L1 : linked s1 (b_trackers b)) by (destruct L; constructor; rewrite ?E1, ?E2; assumption).
    destruct (asked_total s1 _ 0 L1) as [l El]. exists l. unfold send_test_shutdown. cbn -[asked]. now rewrite El. }
  destruct (flags =? CFG_SHUTDOWN_FLAG_REGARDLESS).
  - rewrite send_shutdown_ok. cbn -[send_test_shutdown]. edestruct T as [l ->]; [reflexivity | reflexivity|]. eexists. split; [reflexivity|].
    eexists. cbn. rewrite <- !app_assoc. split; [reflexivity|]. cbn. rewrite filter_timeouts. split; [reflexivity|]. left. right. right. left.
  - cbn -[send_test_shutdown]. edestruct T as [l ->]; [reflexivity | reflexivity|]. eexists. split; [reflexivity|].
    eexists. cbn. rewrite <- !app_assoc. split; [reflexivity|]. cbn. rewrite filter_timeouts. split; [reflexivity|]. right.
    split; [|now apply undecided_idle]. split; [|reflexivity]. destruct L. now constructor.
Qed.

(** One step of the service is one of the ballot. *)
Lemma step_follows e s b : counts s b -> undecided b -> cfg_event_ok e s ->
  exists s', cfg_step totem_mcast e s = Some s' /\ follows s s' (fst (ballot_step e b)) (snd (ballot_step e b)).
Proof.
  intros K U Ok. destruct e as [c|c|c|c|c flags t|c r|]; cbn [cfg_step].
  - destruct Ok as (_ & H0 & Hn). eexists. split; [reflexivity|]. exists []. cbn. rewrite app_nil_r. repeat split. right. split; [|exact U].
    destruct K as [L R]. assert (Hc : c ∉ b_trackers b). { intros Hc. destruct (lk_infos _ _ L c Hc) as (ci & E & _). congruence. }
    split.
    + destruct L as [T N C I]. constructor; [exact T | exact N | |]; cbn.
      * intros k ci. rewrite lookup_insert_Some. intros [(<- & <-)|(_ & E)]; [split; [exact H0 | now left] | exact (C k ci E)].
      * intros k Hk. rewrite lookup_insert_ne by (intros ->; contradiction). exact (I k Hk).
    + destruct (b_request b) as [[con flags]|]; [|exact R]. destruct R as [left [R1 R2 R3 R4 R5 R6 R7 R8]]. exists left.
      constructor; try assumption; cbn.
      * rewrite lookup_insert_ne; [exact R3|]. intros ->. rewrite Hn in R3. discriminate.
      * intros k Hk. rewrite lookup_insert_ne; [exact (R4 k Hk)|]. intros ->. apply elem_but in Hk. tauto.
  - destruct Ok as (_ & ci & Hi). unfold cfg_lib_exit_fn. rewrite Hi. cbn -[remove_ci_from_shutdown].
    destruct (remove_follows s b c K U) as (s' & -> & W). eexists. split; [reflexivity|].
    destruct (leave_gone c b) as [G1 G2]. now apply follows_close.
  - destruct Ok as (_ & Hi & Hq). now apply trackstart_follows.
  - destruct Ok as (_ & ci & Hi). unfold message_handler_req_lib_cfg_trackstop. rewrite Hi. cbn -[remove_ci_from_shutdown].
    destruct (remove_follows s b c K U) as (s' & -> & W). eexists. split; [reflexivity|]. now apply follows_emit.
  - destruct Ok as (_ & Hi). now apply try_follows.
  - now apply reply_follows.
  - destruct Ok as (_ & Hi). now apply timer_follows.
Qed.

End Simulation.
