(* ===== verification/CfgProps.v ===== *)
(** * The configuration service: theorems on shutdowns *)
From S2P Require Import Prelude VoteQuorumExec Cpg Icmap Cfg CfgShutdown.
Open Scope Z_scope.

Definition cfg_start : cfg := cfg_exec_init_fn cfg_zero.
Definition no_ballot : ballot := mk_ballot [] None ∅.

Lemma start_counts : counts cfg_start no_ballot /\ undecided no_ballot.
Proof.
  split; [split; [constructor; cbn | reflexivity] | now apply undecided_idle]; [reflexivity | constructor | |].
  - intros c ci E. now rewrite lookup_empty in E.
  - intros c Hc. now apply elem_of_nil in Hc.
Qed.

(** C31: a shutdown request is decided by a vote, in every run of clients that connect,
    track, leave, ask and reply (each once for a request), until the node goes down, when
    the shutdown can be multicast.  The service never fails, and its questions, answers and announcements are those of the ballot: everybody who
    tracks is asked, the request is confirmed when all of them consent or have left (or
    when it is forced and nobody is undecided), refused when somebody objects or does not
    answer in time, and dropped when its client leaves. *)
Theorem shutdown_is_a_vote (totem_mcast : cfg_msg -> Z) (es : list cfg_event) :
  totem_mcast EXEC_CFG_SHUTDOWN = 0 -> cfg_events_ok totem_mcast es cfg_start ->
  exists s, cfg_run totem_mcast es cfg_start = Some s /\ List.filter is_vote (cfg_out s) = snd (ballot_run es no_ballot).
Proof.
  intros M. assert (H : forall es s b, counts s b /\ undecided b \/ CfgMcast EXEC_CFG_SHUTDOWN ∈ cfg_out s -> cfg_events_ok totem_mcast es s ->
    exists s', cfg_run totem_mcast es s = Some s' /\ List.filter is_vote (cfg_out s') = List.filter is_vote (cfg_out s) ++ snd (ballot_run es b)).
  { clear es. induction es as [|e es IH]; intros s b K Ok; [exists s; split; [reflexivity | now rewrite app_nil_r]|].
    destruct Ok as [Oe Ok]. destruct K as [[K U]|K]; [|destruct (proj1 Oe K)].
    destruct (step_follows totem_mcast M e s b K U Oe) as (s1 & E & l & O & F & W). cbn. rewrite E in *. cbn.
    destruct (ballot_step e b) as [b1 o]. cbn in *. destruct (IH s1 b1) as (s' & R & G).
    - destruct W as [W|W]; [right | now left]. rewrite O. apply elem_of_app. now right.
    - exact Ok.
    - exists s'. split; [exact R|]. rewrite G, O, List.filter_app, F. destruct (ballot_run es b1). cbn. now rewrite <- app_assoc. }
  intros Ok. destruct (H es cfg_start no_ballot (or_introl start_counts) Ok) as (s & R & G). exists s. now split.
Qed.

(** ** What the votes do not say *)

Section Replies.
Context (totem_mcast : cfg_msg -> Z).

(** One more YES while [k] replies are missing. *)
Lemma reply_counted con c k s ci ci' : totem_mcast EXEC_CFG_SHUTDOWN = 0 ->
  shutdown_con s = Some con -> cfg_infos s !! con = Some ci' -> cfg_infos s !! c = Some ci ->
  shutdown_no s = 0 -> shutdown_yes s + Z.of_nat (S k) = shutdown_expected s ->
  exists s', message_handler_req_lib_cfg_replytoshutdown totem_mcast c 1 s = Some s' /\
    (k = 0%nat -> CfgMcast EXEC_CFG_SHUTDOWN ∈ cfg_out s' /\ ResTryshutdown (ci_conn (if con =? c then ci else ci')) CS_OK ∈ cfg_out s') /\
    (k <> 0%nat -> shutdown_con s' = Some con /\ is_Some (cfg_infos s' !! con) /\ is_Some (cfg_infos s' !! c) /\
       shutdown_no s' = 0 /\ shutdown_yes s' + Z.of_nat k = shutdown_expected s').
Proof.
  intros M Hc Hi' Hi Hn Hy. unfold message_handler_req_lib_cfg_replytoshutdown. rewrite Hi, Hc. cbn -[check_shutdown_status].
  unfold check_shutdown_status. cbn -[send_shutdown Z.leb]. rewrite Hc, Hn, Z.add_0_r. destruct k as [|k].
  - rewrite !(proj2 (Z.leb_le _ _)) by lia. assert (Hl : exists cj, alter (fun ci => ci <| ci_shutdown_reply := SHUTDOWN_REPLY_YES |>) c (cfg_infos s) !! con = Some cj
      /\ ci_conn cj = ci_conn (if con =? c then ci else ci')).
    { destruct (Z.eqb_spec con c) as [->|Hne]; [rewrite lookup_alter_eq, Hi; now eexists | rewrite lookup_alter_ne by congruence; eauto]. }
    destruct Hl as (cj & -> & Hj). cbn -[send_shutdown]. unfold send_shutdown, mcast_assert. rewrite M. cbn. eexists. split; [reflexivity|].
    split; [|intros H; now destruct H]. intros _. cbn. rewrite Hj. split; rewrite !elem_of_app; [left; right | left; left; right]; left.
  - rewrite (proj2 (Z.leb_gt _ _)) by lia. eexists. split; [reflexivity|]. split; [discriminate|]. intros _. cbn. repeat split; [exact Hc | | |exact Hn | lia].
    + apply fmap_is_Some with (f := ci_conn). rewrite fmap_alter by reflexivity. now rewrite Hi'.
    + rewrite lookup_alter_eq, Hi. eauto.
Qed.

(** The service does not notice that a client replies more than once: a single client
    that says yes as often as there are clients to ask confirms the shutdown, whatever
    the others would have said. *)
Theorem one_client_decides con c k s :
  totem_mcast EXEC_CFG_SHUTDOWN = 0 ->
  shutdown_con s = Some con -> is_Some (cfg_infos s !! con) -> is_Some (cfg_infos s !! c) ->
  shutdown_no s = 0 -> shutdown_yes s = 0 -> shutdown_expected s = Z.of_nat (S k) ->
  exists s', cfg_run totem_mcast (repeat (CfgReplytoshutdown c 1) (S k)) s = Some s' /\ CfgMcast EXEC_CFG_SHUTDOWN ∈ cfg_out s'.
Proof.
  intros M Hc Hi' Hi Hn Hy He. assert (E : shutdown_yes s + Z.of_nat (S k) = shutdown_expected s) by lia. clear Hy He.
  revert s Hc Hi' Hi Hn E. induction k as [|k IH]; intros s Hc [ci' Hi'] [ci Hi] Hn E;
    destruct (reply_counted con c _ s ci ci' M Hc Hi' Hi Hn E) as (s' & R & D & P).
  - exists s'. cbn [repeat cfg_run cfg_step]. rewrite R. split; [reflexivity|]. now apply D.
  - destruct (P ltac:(discriminate)) as (P1 & P2 & P3 & P4 & P5). destruct (IH s' P1 P2 P3 P4 P5) as (s2 & R2 & W).
    exists s2. split; [|exact W]. change (repeat _ (S (S k))) with (CfgReplytoshutdown c 1 :: repeat (CfgReplytoshutdown c 1) (S k)).
    cbn [cfg_run cfg_step]. rewrite R. exact R2.
Qed.

(** Of a request that was not answered in time only those trackers are told that
    have asked for a shutdown themselves; the clients the request was put to never learn
    that it is over. *)
Theorem timeout_not_announced s s' c flags :
  shutdown_timer_fn totem_mcast s = Some s' -> TestShutdown c CS_ERR_TIMEOUT flags ∈ cfg_out s' ->
  TestShutdown c CS_ERR_TIMEOUT flags ∈ cfg_out s \/
  exists x ci, x ∈ trackers_list s /\ cfg_infos s !! x = Some ci /\ ci_tracker_conn ci = c /\ ci_conn ci <> 0.
Proof.
  unfold shutdown_timer_fn. intros (s1 & C & T)%bind_Some H.
  assert (K : trackers_list s1 = trackers_list s /\ cfg_infos s1 = cfg_infos s /\
    (TestShutdown c CS_ERR_TIMEOUT flags ∈ cfg_out s1 -> TestShutdown c CS_ERR_TIMEOUT flags ∈ cfg_out s)).
  { revert C. unfold check_shutdown_status. cbn -[send_shutdown Z.leb]. destruct (shutdown_con s) as [con|]; [|now intros [= <-]].
    destruct (_ <=? _); [|now intros [= <-]]. intros (ci & _ & C)%bind_Some. revert C. cbn -[send_shutdown Z.leb].
    destruct (_ || _); [unfold send_shutdown, mcast_assert; destruct (_ =? 0); [|discriminate]|]; intros [= <-]; cbn;
      (split; [reflexivity|]); (split; [reflexivity|]); rewrite !elem_of_app, !list_elem_of_singleton; naive_solver. }
  destruct K as (K1 & K2 & K3). unfold send_test_shutdown in T. cbn -[asked] in T. apply bind_Some in T as (conns & A & [= <-]).
  cbn in H. apply elem_of_app in H as [H|H]; [left; now apply K3 | right].
  apply list_elem_of_fmap in H as (x & [= <- _] & Hx). unfold asked in A. rewrite K1, K2 in A. apply bind_Some in A as (infos & A & [= <-]).
  apply list_elem_of_fmap in Hx as (ci & -> & Hf). apply list_elem_of_In, filter_In in Hf as [Hf Hn].
  apply list_elem_of_In, list_elem_of_lookup in Hf as [i Hf]. apply mapM_Some in A. destruct (Forall2_lookup_r _ _ _ _ _ A Hf) as (y & Hy & E).
  exists y, ci. split; [now apply list_elem_of_lookup_2 in Hy|]. split; [exact E|]. split; [reflexivity|]. now apply negb_true_iff, Z.eqb_neq in Hn.
Qed.

End Replies.

(** ** Witnesses *)

Definition sent (_ : cfg_msg) : Z := 0.

(** Three clients; the first asks, the others object and leave. *)
Definition demo_vote : list cfg_event :=
  [CfgOpen 1; CfgOpen 2; CfgOpen 3; CfgTrackstart 2; CfgTrackstart 3; CfgTryshutdown 1 CFG_SHUTDOWN_FLAG_REQUEST None;
   CfgReplytoshutdown 2 1; CfgReplytoshutdown 3 0; CfgTryshutdown 1 CFG_SHUTDOWN_FLAG_REQUEST None; CfgTimer;
   CfgTryshutdown 1 CFG_SHUTDOWN_FLAG_REQUEST None; CfgReplytoshutdown 3 1; CfgClose 2].

Lemma events_ok_cons m e es s s' : cfg_event_ok e s -> cfg_step m e s = Some s' -> cfg_events_ok m es s' -> cfg_events_ok m (e :: es) s.
Proof. intros H E K. split; [exact H | now rewrite E]. Qed.

Ltac event_ok :=
  split; [cbn; rewrite ?not_elem_of_cons; repeat split; (discriminate || apply not_elem_of_nil)|];
  first [now eexists | split; [discriminate | reflexivity] | split; [now eexists | discriminate]
        | eexists; split; [reflexivity|]; intros _; split; [cbn; rewrite ?elem_of_cons; tauto | split; [discriminate | reflexivity]]].

Lemma shutdown_is_a_vote_witness :
  exists s, cfg_run sent demo_vote cfg_start = Some s /\
    List.filter is_vote (cfg_out s) = snd (ballot_run demo_vote no_ballot) /\
    snd (ballot_run demo_vote no_ballot) =
      [TestShutdown 3 CS_OK 0; TestShutdown 2 CS_OK 0; ResTryshutdown 1 CS_ERR_BUSY;
       TestShutdown 3 CS_OK 0; TestShutdown 2 CS_OK 0; ResTryshutdown 1 CS_ERR_BUSY;
       TestShutdown 3 CS_OK 0; TestShutdown 2 CS_OK 0; ResTryshutdown 1 CS_OK; CfgMcast EXEC_CFG_SHUTDOWN].
Proof.
  destruct (shutdown_is_a_vote sent demo_vote eq_refl) as (s & R & F).
  - unfold demo_vote. repeat (eapply events_ok_cons; [event_ok | vm_compute; reflexivity|]). exact I.
  - exists s. split; [exact R|]. split; [exact F | reflexivity].
Defined.

(** Two clients to ask, of which one replies twice. *)
Definition demo_two : cfg :=
  default cfg_zero (cfg_run sent [CfgOpen 1; CfgOpen 2; CfgOpen 3; CfgTrackstart 2; CfgTrackstart 3;
    CfgTryshutdown 1 CFG_SHUTDOWN_FLAG_REQUEST None] cfg_start).

Lemma one_client_decides_witness :
  exists s', cfg_run sent [CfgReplytoshutdown 2 1; CfgReplytoshutdown 2 1] demo_two = Some s' /\ CfgMcast EXEC_CFG_SHUTDOWN ∈ cfg_out s'.
Proof.
  refine (one_client_decides sent 1 2 1 demo_two eq_refl _ _ _ _ _ _); try (vm_compute; reflexivity); eexists; vm_compute; reflexivity.
Defined.

(** The third client has asked before, and is the only one that is told. *)
Definition demo_asked : cfg :=
  default cfg_zero (cfg_run sent [CfgOpen 1; CfgOpen 2; CfgOpen 3; CfgTrackstart 2; CfgTrackstart 3;
    CfgTryshutdown 3 CFG_SHUTDOWN_FLAG_REQUEST None; CfgReplytoshutdown 2 0; CfgTryshutdown 1 CFG_SHUTDOWN_FLAG_REQUEST None] cfg_start).
Definition demo_expired : cfg := default cfg_zero (shutdown_timer_fn sent demo_asked).

Lemma timeout_not_announced_witness :
  TestShutdown 3 CS_ERR_TIMEOUT 0 ∈ cfg_out demo_expired /\ TestShutdown 2 CS_ERR_TIMEOUT 0 ∉ cfg_out demo_expired /\
  (TestShutdown 3 CS_ERR_TIMEOUT 0 ∈ cfg_out demo_asked \/
   exists x ci, x ∈ trackers_list demo_asked /\ cfg_infos demo_asked !! x = Some ci /\ ci_tracker_conn ci = 3 /\ ci_conn ci <> 0).
Proof.
  assert (H : TestShutdown 3 CS_ERR_TIMEOUT 0 ∈ cfg_out demo_expired).
  { let t := eval vm_compute in (cfg_out demo_expired) in change (cfg_out demo_expired) with t. rewrite ?elem_of_cons. tauto. }
  split; [exact H|]. split.
  - let t := eval vm_compute in (cfg_out demo_expired) in change (cfg_out demo_expired) with t. rewrite ?not_elem_of_cons.
    repeat split; (discriminate || apply not_elem_of_nil).
  - refine (timeout_not_announced sent demo_asked demo_expired 3 0 _ H). vm_compute. reflexivity.
Defined.
