(* ===== verification/CfgReload.v ===== *)
(** * The configuration service: reload (exec/cfg.c, and the configuration of exec/totempg.c)

    The file is parsed into a temporary map; keys that are gone from it are deleted
    from the global map; keys that cannot change at run time are dropped from the
    temporary map; the new configuration of totem is computed and validated; and then
    the temporary map is copied into the global one and the members are changed.

    The parser, the map and the configuration of totem are the models of the other
    files.  The callbacks of the map are its log; what they do is not run here. *)
From S2P Require Import Prelude ErrMonad CString VoteQuorumExec Cpg Icmap Util Coroparse CoroparseMain TotemIp TotemConfig TotemConfigLinks TotemConfigRead Cfg.

Local Open Scope string_scope.
Local Open Scope Z_scope.

(** [strcmp]: the bytes are compared as unsigned numbers. *)
Definition strcmp (a b : string) : Z := match (a ?= b)%string with Lt => -1 | Eq => 0 | Gt => 1 end.

(** [NULL] comes first. *)
Definition nullcheck_strcmp (left right : option string) : Z :=
  match left, right with
  | None, Some _ => -1
  | Some _, None => 1
  | None, None => 0
  | Some l, Some r => strcmp l r
  end.

Section Reload.
Context {M : Type} `{QB : qb_map M}.

(** ** Keys that are gone *)

(** The inner loop: keys are deleted until the next one is not before [new_key].  The
    result: the last comparison and the keys that are left. *)
Fixpoint delete_before (old : list string) (new_key : option string) (m : icmap M) : option (Z * list string * icmap M) :=
  match old with
  | [] => None
  | key :: old =>
      '(_, m) ← icmap_delete (Some key) m;
      let ret := nullcheck_strcmp (head old) new_key in
      if (ret <? 0) && bool_decide (is_Some (head old)) then delete_before old new_key m else Some (ret, old, m)
  end.

(** The other inner loop: new keys are passed over. *)
Fixpoint skip_before (old_key : option string) (new : list string) : Z * list string :=
  match new with
  | [] => (nullcheck_strcmp old_key None, [])
  | _ :: new =>
      let ret := nullcheck_strcmp old_key (head new) in
      if (0 <? ret) && bool_decide (is_Some (head new)) then skip_before old_key new else (ret, new)
  end.

(** [None] for the fuel: see [remove_deleted_entries]. *)
Fixpoint merge_keys (fuel : nat) (old new : list string) (m : icmap M) : option (icmap M) :=
  match old, new with
  | [], [] => Some m
  | _, _ =>
      match fuel with
      | O => None
      | S fuel =>
          let ret := nullcheck_strcmp (head old) (head new) in
          '(ret, old, new, m) ←
            (if (ret <? 0) && bool_decide (is_Some (head old)) || bool_decide (head new = None) then
               '(ret, old, m) ← delete_before old (head new) m; Some (ret, old, new, m)
             else if (0 <? ret) && bool_decide (is_Some (head new)) || bool_decide (head old = None) then
               let '(ret, new) := skip_before (head old) new in Some (ret, old, new, m)
             else Some (ret, old, new, m));
          if ret =? 0 then merge_keys fuel (tail old) (tail new) m else merge_keys fuel old new m
      end
  end.

(** Every round passes a key. *)
Definition remove_deleted_entries (temp_map : Z) (prefix : string) (m : icmap M) : option (icmap M) :=
  old ← icmap_iter_init (Some prefix) m;
  new ← icmap_iter_init_r temp_map (Some prefix) m;
  merge_keys (length old + length new) old new m.

Definition reload_prefixes : list string := ["logging."; "totem."; "nodelist."; "quorum."; "uidgid.config."; "nozzle."].

Fixpoint remove_all_deleted (temp_map : Z) (prefixes : list string) (m : icmap M) : option (icmap M) :=
  match prefixes with
  | [] => Some m
  | p :: ps => m ← remove_deleted_entries temp_map p m; remove_all_deleted temp_map ps m
  end.

(** ** Keys that cannot change *)

Definition delete_and_notify_if_changed (temp_map : Z) (key_name : string) (m : icmap M) : option (icmap M) :=
  eq ← icmap_key_value_eq temp_map key_name (icmap_global_map m) key_name m;
  if eq : bool then Some m else '(_, m) ← icmap_delete_r temp_map (Some key_name) m; Some m.

(** [have_knet_crypto_reconf]: HAVE_KNET_CRYPTO_RECONF. *)
Context (have_knet_crypto_reconf : bool).

Definition ro_entries : list string :=
  ((if have_knet_crypto_reconf then []
    else ["totem.secauth"; "totem.crypto_hash"; "totem.crypto_cipher"; "totem.keyfile"; "totem.key"])
  ++ ["totem.version"; "totem.threads"; "totem.ip_version"; "totem.ip_dscp"; "totem.netmtu"; "totem.interface.bindnetaddr";
      "totem.interface.mcastaddr"; "totem.interface.broadcast"; "totem.interface.mcastport"; "totem.interface.ttl";
      "totem.transport"; "totem.cluster_name"; "quorum.provider"; "system.move_to_root_cgroup";
      "system.allow_knet_handle_fallback"; "system.sched_rr"; "system.priority"; "system.qb_ipc_type"; "system.state_dir"])%list.

Fixpoint delete_changed (temp_map : Z) (keys : list string) (m : icmap M) : option (icmap M) :=
  match keys with
  | [] => Some m
  | k :: keys => m ← delete_and_notify_if_changed temp_map k m; delete_changed temp_map keys m
  end.

Definition remove_ro_entries (temp_map : Z) (m : icmap M) : option (icmap M) := delete_changed temp_map ro_entries m.

(** ** The configuration of totem in use (exec/totempg.c) *)

(** The copy of the configuration in use; its interfaces become those before the change. *)
Definition totempg_get_config (live : totem_config) : totem_config :=
  live <| orig_interfaces := take INTERFACE_MAX (interfaces live) |> <| interfaces := [] |>.

(** The array of the interfaces that were before is freed after the reload. *)
Definition totempg_put_config (config live : totem_config) : totem_config :=
  config <| interfaces := take INTERFACE_MAX (interfaces config) |> <| orig_interfaces := [] |>.

(** ** The reload *)

(** The map, the configuration in use, what was called in totempg, and the messages. *)
Record reload := mk_reload { rl_map : icmap M; rl_live : totem_config; rl_calls : list totem_call; rl_out : list cfg_effect }.
#[export] Instance reload_eta : Etable reload := fun s => mk_reload (rl_map s) (rl_live s) (rl_calls s) (rl_out s).

Context (env : build_env) (net : net_env) (knet : knet_env).
Context (totempg_member_add : totem_ip_address -> nat -> Z) (key_file_of : string -> key_file) (strerror : Z -> string).
Context (getpwnam getgrnam : string -> Z + option Z).
(** corosync.conf and the directory uidgid.d *)
Context (filename dirname : string) (file : Z + list ascii) (entries : option (list dir_entry)).
Context (totem_nodeid_get : Z) (totem_mcast : cfg_msg -> Z).

(** The new configuration before it is filled in: for UDP and UDPU link 0 is kept. *)
Definition new_config (live : totem_config) : option totem_config :=
  let c := totempg_get_config live <| crypto_changed := false |> <| interfaces := repeat zero_interface INTERFACE_MAX |> in
  if udp env (transport_number c) || udpu env (transport_number c)
  then f ← orig_interfaces c !! 0%nat; Some (c <| interfaces ::= <[0%nat := f]> |>)
  else Some c.

(** The new configuration is computed in the temporary map and validated: the error when
    it is refused. *)
Definition reload_check (temp_map : Z) : tprog (M:=M) (option Z) :=
  r <-! catch (totemconfig_configure_new_params env net temp_map);!
  match r with
  | inl _ => ret (Some CS_ERR_INVALID_PARAM)
  | inr _ =>
      totem_volatile_config_read env temp_map None;!
      r <-! catch (totem_reread_crypto_config env key_file_of strerror temp_map);!
      match r with
      | inl _ => ret (Some CS_ERR_INVALID_PARAM)
      | inr _ =>
          totem_calc_knet_ping_timers temp_map;!
          r <-! catch (totem_volatile_config_validate env net temp_map);!
          match r with
          | inl _ => ret (Some CS_ERR_INVALID_PARAM)
          | inr _ =>
              c <-! get_cfg;!
              if crypto_changed c && negb have_knet_crypto_reconf then
                upd_cfg (fun c => c <| crypto_changed := false |>);! ret (Some CS_ERR_INVALID_PARAM)
              else ret None
          end
      end
  end.

(** The copy into the global map: the result, and the configuration that was put in use. *)
Definition reload_commit (temp_map : Z) : tprog (M:=M) (Z * option totem_config) :=
  g <-! global_map;!
  s <-! get_state;!
  r <-! lift (icmap_copy_map g temp_map (t_map s));!
  let '(res, m) := r in
  upd_state (fun s => s <| t_map := m |>);!
  if negb (res =? CS_OK) then ret (res, None)
  else c <-! get_cfg;! totemconfig_commit_new_params totempg_member_add;! ret (CS_OK, Some c).

Definition reload_config (temp_map : Z) : tprog (M:=M) (Z * option totem_config) :=
  r <-! reload_check temp_map;!
  match r with Some res => ret (res, None) | None => reload_commit temp_map end.

Definition set_uint8 (key : string) (v : Z) (m : icmap M) : option (icmap M) := '(_, m) ← icmap_set_uint8 key v m; Some m.

(** What is left to do when the new configuration is in the temporary map or was refused. *)
Definition reload_fini (res : Z) (m : icmap M) : option (icmap M) :=
  '(_, m) ← icmap_set_int32 "config.reload_status" res m;
  m ← set_uint8 "config.totemconfig_reload_in_progress" 0 m;
  set_uint8 "config.reload_in_progress" 0 m.

(** The file is parsed into a new map: the result of the parser. *)
Definition parse_file (temp_map : Z) (m : icmap M) : option (Z * icmap M) :=
  '(_, m) ← icmap_delete (Some "config.reload_error_message") m;
  m ← set_uint8 "config.totemconfig_reload_in_progress" 1 m;
  let '(_, m) := icmap_init_r temp_map m in
  '(res, _, e) ← coroparse_configparse temp_map knet getpwnam getgrnam strerror filename dirname file entries
                   (mk_cp_env m zero_cp_data "");
  Some (res, cp_map e).

(** The keys that are gone or cannot change. *)
Definition reload_prepare (temp_map : Z) (m : icmap M) : option (icmap M) :=
  m ← set_uint8 "config.reload_in_progress" 1 m;
  m ← remove_all_deleted temp_map reload_prefixes m;
  remove_ro_entries temp_map m.

(** The part between parsing and [reload_fini_nofree]: the result, whether the encryption
    changes, and the state. *)
Definition reload_parsed (temp_map : Z) (m : icmap M) (s : reload) : option (Z * bool * reload) :=
  m ← reload_prepare temp_map m;
  c ← new_config (rl_live s);
  '(r, t) ← reload_config temp_map (mk_tconf c m (rl_calls s) 0);
  match r with
  | inl _ => None
  | inr (res, put) =>
      m ← reload_fini res (t_map t);
      Some (res, crypto_changed (t_cfg t),
            mk_reload m (match put with Some c => totempg_put_config c (rl_live s) | None => rl_live s end) (t_calls t) (rl_out s))
  end.

(** [temp_map]: the address of the map that [icmap_init_r] allocates; [source]: the
    connection of the request; [nodeid]: the sender of the message. *)
Definition message_handler_req_exec_cfg_reload_config (temp_map source nodeid : Z) (s : reload) : option reload :=
  '(res, m) ← parse_file temp_map (rl_map s);
  '(res, changed, s) ← (if res =? -1 then Some (CS_ERR_INVALID_PARAM, false, s <| rl_map := m |>) else reload_parsed temp_map m s);
  let s := s <| rl_map ::= icmap_fini_r temp_map |> in
  s ← (if changed : bool then
         if totem_mcast (EXEC_CFG_CRYPTO_RECONFIG CRYPTO_RECONFIG_PHASE_ACTIVATE) =? 0
         then Some (s <| rl_out ::= fun o => o ++ [CfgMcast (EXEC_CFG_CRYPTO_RECONFIG CRYPTO_RECONFIG_PHASE_ACTIVATE)] |>) else None
       else Some s)%list;
  Some (if nodeid =? totem_nodeid_get
        then s <| rl_out ::= fun o => o ++ [ResReloadConfig source res; IpcRefcntDec source] |> else s)%list.

End Reload.
Arguments reload : clear implicits.
Arguments mk_reload {M}.
Arguments rl_map {M}.
Arguments rl_live {M}.
Arguments rl_calls {M}.
Arguments rl_out {M}.
