(* ===== verification/CfgReloadKeys.v ===== *)
(** * The configuration service: the keys of a reload

    Deleting what is gone from the file by walking through two sorted lists of keys is
    deleting the difference of the two sets, and this is all that happens to the map. *)
From stdpp Require Import sorting.
From S2P Require Import Prelude ErrMonad CString VoteQuorumExec Cpg Icmap IcmapTheory IcmapProps Util CfgReload.
Local Open Scope Z_scope.

(** ** The order of keys *)

Lemma strcmp_eq_0 a b : strcmp a b = 0 <-> a = b.
Proof.
  unfold strcmp. split; [|intros ->; pose proof (String.compare_antisym b b); destruct (b ?= b)%string; (reflexivity || discriminate)].
  destruct (a ?= b)%string eqn:E; try discriminate. intros _. now apply String.compare_eq_iff.
Qed.

Lemma strcmp_antisym a b : strcmp b a = - strcmp a b.
Proof. unfold strcmp. rewrite String.compare_antisym. now destruct (a ?= b)%string. Qed.

Lemma strcmp_le a b : String.le a b <-> strcmp a b <= 0.
Proof. unfold String.le, String.leb, strcmp. destruct (a ?= b)%string; cbn; split; intros H; try done; lia. Qed.

Lemma strcmp_trans a b c : strcmp a b < 0 -> strcmp b c < 0 -> strcmp a c < 0.
Proof.
  intros H1 H2. assert (H : strcmp a c <= 0) by (apply strcmp_le; transitivity b; apply strcmp_le; lia).
  destruct (Z.eq_dec (strcmp a c) 0) as [E|E]; [|lia]. apply strcmp_eq_0 in E as ->. rewrite strcmp_antisym in H2. lia.
Qed.

Definition ascending : list string -> Prop := StronglySorted (fun a b => strcmp a b < 0).

Lemma sorted_ascending l : StronglySorted String.le l -> NoDup l -> ascending l.
Proof.
  induction 1 as [|a l _ IH H]; intros N; [constructor|]. apply NoDup_cons in N as [Na N]. constructor; [now apply IH|].
  rewrite Forall_forall in *. intros b Hb. specialize (H b Hb). apply strcmp_le in H. destruct (Z.eq_dec (strcmp a b) 0) as [E|E]; [|lia].
  apply strcmp_eq_0 in E as ->. contradiction.
Qed.

Lemma ascending_head a l b : ascending (a :: l) -> b ∈ l -> strcmp a b < 0.
Proof. intros H Hb. apply StronglySorted_inv in H as [_ H]. rewrite Forall_forall in H. now apply H. Qed.

Lemma ascending_tail a l : ascending (a :: l) -> ascending l.
Proof. intros H. now apply StronglySorted_inv in H as [H _]. Qed.

Lemma ascending_app l k : ascending (l ++ k) -> ascending k.
Proof. induction l as [|a l IH]; [auto|]. intros H%ascending_tail. auto. Qed.

Lemma ascending_rest l a pre r : l = a :: pre ++ r -> ascending l -> ascending r.
Proof. intros ->. apply (ascending_app (a :: pre)). Qed.

(** The keys of [old] that are not in [new]. *)
Definition gone (new old : list string) : list string := List.filter (fun k => negb (bool_decide (k ∈ new))) old.

Lemma gone_app new l k : gone new (l ++ k) = gone new l ++ gone new k.
Proof. apply List.filter_app. Qed.

Lemma gone_all new l : (forall k, k ∈ l -> k ∉ new) -> gone new l = l.
Proof.
  induction l as [|a l IH]; intros H; [reflexivity|]. unfold gone in *. cbn. rewrite bool_decide_false by (apply H; left).
  cbn. f_equal. apply IH. intros k Hk. apply H. now right.
Qed.

Lemma gone_ext new new' l : (forall k, k ∈ l -> k ∈ new <-> k ∈ new') -> gone new l = gone new' l.
Proof.
  induction l as [|a l IH]; intros H; [reflexivity|]. unfold gone in *. cbn.
  rewrite (bool_decide_ext (a ∈ new) (a ∈ new') (H a ltac:(left))), IH; [reflexivity|]. intros k Hk. apply H. now right.
Qed.

Section Keys.
Context {M : Type} `{QB : qb_map M}.

Fixpoint delete_all (keys : list string) (m : icmap M) : option (icmap M) :=
  match keys with [] => Some m | k :: keys => '(_, m) ← icmap_delete (Some k) m; delete_all keys m end.

Lemma delete_all_app l k m : delete_all (l ++ k) m = (m ← delete_all l m; delete_all k m).
Proof. revert m. induction l as [|a l IH]; intros m; [reflexivity|]. cbn -[icmap_delete]. destruct (icmap_delete (Some a) m) as [[e m']|]; [apply IH | reflexivity]. Qed.

(** ** The loops *)

Lemma delete_before_spec old nk (m : icmap M) : old <> [] ->
  exists a pre rest, old = a :: pre ++ rest /\
    delete_before old nk m = (m ← delete_all (a :: pre) m; Some (nullcheck_strcmp (head rest) nk, rest, m)) /\
    (forall k, k ∈ pre -> nullcheck_strcmp (Some k) nk < 0) /\ (nullcheck_strcmp (head rest) nk < 0 -> rest = []).
Proof.
  revert m. induction old as [|a old IH]; intros m H; [now destruct H|]. cbn [delete_before].
  destruct ((nullcheck_strcmp (head old) nk <? 0) && bool_decide (is_Some (head old))) eqn:E.
  - apply andb_true_iff in E as [E1%Z.ltb_lt E2%bool_decide_eq_true]. destruct old as [|b old]; [now destruct E2|].
    destruct (icmap_delete (Some a) m) as [[e m']|] eqn:D.
    + destruct (IH m' ltac:(discriminate)) as (b' & pre & rest & [= <- ->] & R & P & Q). exists a, (b :: pre), rest.
      cbn [delete_all] in *. rewrite D. cbn. split; [reflexivity|]. split; [exact R|]. split; [|exact Q].
      intros k [->|Hk]%elem_of_cons; [exact E1 | now apply P].
    + destruct (IH m ltac:(discriminate)) as (b' & pre & rest & [= <- ->] & R & P & Q). exists a, (b :: pre), rest.
      cbn [delete_all]. rewrite D. cbn. split; [reflexivity|]. split; [reflexivity|]. split; [|exact Q].
      intros k [->|Hk]%elem_of_cons; [exact E1 | now apply P].
  - exists a, [], old. split; [reflexivity|]. split; [cbn -[icmap_delete]; now destruct (icmap_delete (Some a) m) as [[e m']|]|].
    split; [intros k Hk; now apply elem_of_nil in Hk|]. intros H'. destruct old as [|b old]; [reflexivity|].
    apply Z.ltb_lt in H'. rewrite H' in E. discriminate.
Qed.

Lemma skip_before_spec ok new : new <> [] ->
  exists a pre rest, new = a :: pre ++ rest /\ skip_before ok new = (nullcheck_strcmp ok (head rest), rest) /\
    (forall k, k ∈ pre -> 0 < nullcheck_strcmp ok (Some k)) /\ (0 < nullcheck_strcmp ok (head rest) -> rest = []).
Proof.
  induction new as [|a new IH]; intros H; [now destruct H|]. cbn [skip_before].
  destruct ((0 <? nullcheck_strcmp ok (head new)) && bool_decide (is_Some (head new))) eqn:E.
  - apply andb_true_iff in E as [E1%Z.ltb_lt E2%bool_decide_eq_true]. destruct new as [|b new]; [now destruct E2|].
    destruct (IH ltac:(discriminate)) as (b' & pre & rest & [= <- ->] & R & P & Q). exists a, (b :: pre), rest.
    split; [reflexivity|]. split; [exact R|]. split; [|exact Q]. intros k [->|Hk]%elem_of_cons; [exact E1 | now apply P].
  - exists a, [], new. split; [reflexivity|]. split; [reflexivity|]. split; [intros k Hk; now apply elem_of_nil in Hk|].
    intros H'. destruct new as [|b new]; [reflexivity|]. apply Z.ltb_lt in H'. rewrite H' in E. discriminate.
Qed.

(** Walking on with equal heads. *)
Lemma gone_equal a old new : ascending (a :: old) -> gone (a :: new) (a :: old) = gone new old.
Proof.
  intros A. unfold gone at 1. cbn. rewrite bool_decide_true by left. cbn. apply gone_ext. intros k Hk. rewrite elem_of_cons.
  split; [|auto]. intros [->|H]; [|exact H]. pose proof (ascending_head _ _ _ A Hk) as L. rewrite (proj2 (strcmp_eq_0 a a)) in L by reflexivity. lia.
Qed.

Lemma merge_exact fuel old new (m : icmap M) : ascending old -> ascending new -> (length old + length new <= fuel)%nat ->
  merge_keys fuel old new m = delete_all (gone new old) m.
Proof.
  revert old new m. induction fuel as [|fuel IH]; intros old new m Ao An Hf.
  { destruct old, new; cbn in Hf; try lia. reflexivity. }
  assert (step : merge_keys (S fuel) old new m = match old, new with [], [] => Some m | _, _ =>
    let ret := nullcheck_strcmp (head old) (head new) in
    '(ret, old, new, m) ←
      (if (ret <? 0) && bool_decide (is_Some (head old)) || bool_decide (head new = None) then
         '(ret, old, m) ← delete_before old (head new) m; Some (ret, old, new, m)
       else if (0 <? ret) && bool_decide (is_Some (head new)) || bool_decide (head old = None) then
         let '(ret, new) := skip_before (head old) new in Some (ret, old, new, m)
       else Some (ret, old, new, m));
    if ret =? 0 then merge_keys fuel (tail old) (tail new) m else merge_keys fuel old new m end) by reflexivity.
  rewrite step. clear step. cbn zeta.
  (* the rest of a round, once the two lists have been advanced *)
  assert (rest : forall old new m, ascending old -> ascending new -> (length old + length new <= fuel)%nat ->
    (if nullcheck_strcmp (head old) (head new) =? 0 then merge_keys fuel (tail old) (tail new) m else merge_keys fuel old new m)
    = delete_all (gone new old) m).
  { clear old new m Ao An Hf. intros old new m Ao An Hf. destruct (Z.eqb_spec (nullcheck_strcmp (head old) (head new)) 0) as [E|E]; [|now apply IH].
    destruct old as [|a old], new as [|b new]; cbn in E; try discriminate; [destruct fuel; reflexivity|].
    apply strcmp_eq_0 in E as <-. rewrite gone_equal by exact Ao. cbn in *. apply IH; [exact (ascending_tail _ _ Ao) | exact (ascending_tail _ _ An) | lia]. }
  destruct old as [|o old].
  { destruct new as [|n new]; [reflexivity|]. cbn -[skip_before merge_keys nullcheck_strcmp Z.eqb].
    destruct (skip_before_spec None (n :: new) ltac:(discriminate)) as (a & pre & r & E & R & _). cbn -[skip_before merge_keys nullcheck_strcmp Z.eqb] in R.
    cbn [nullcheck_strcmp Z.ltb Z.compare andb orb]. rewrite R, E in *. cbn [mbind option_bind].
    apply (rest [] r m); [constructor | |].
    - apply (ascending_app (a :: pre)). exact An.
    - cbn in Hf. rewrite length_app in Hf. cbn. lia. }
  assert (passed : forall a pre r, o :: old = a :: pre ++ r -> (forall k, k ∈ a :: pre -> k ∉ new) ->
    (m ← delete_all (a :: pre) m; delete_all (gone new r) m) = delete_all (gone new (o :: old)) m).
  { intros a pre r E P. rewrite E. change (a :: pre ++ r) with ((a :: pre) ++ r). rewrite gone_app, (gone_all new (a :: pre)) by exact P.
    symmetry. apply delete_all_app. }
  destruct new as [|n new].
  - rewrite (bool_decide_true (head (@nil string) = None)), orb_true_r by reflexivity.
    destruct (delete_before_spec (o :: old) (head []) m ltac:(discriminate)) as (a & pre & r & E & -> & _).
    rewrite <- (passed a pre r E) by (intros; apply not_elem_of_nil). destruct (delete_all (a :: pre) m) as [m'|]; [|reflexivity].
    cbn [mbind option_bind]. apply (rest r []); [exact (ascending_rest _ _ _ _ E ltac:(assumption)) | constructor |].
    rewrite E in Hf. cbn in *. rewrite length_app in Hf. lia.
  - rewrite (bool_decide_false (head (n :: new) = None)), (bool_decide_false (head (o :: old) = None)),
      (bool_decide_true (is_Some (head (o :: old)))), (bool_decide_true (is_Some (head (n :: new)))), !andb_true_r, !orb_false_r by (discriminate || now eexists).
    change (nullcheck_strcmp (head (o :: old)) (head (n :: new))) with (strcmp o n). destruct (Z.ltb_spec (strcmp o n) 0) as [L|L].
    + destruct (delete_before_spec (o :: old) (head (n :: new)) m ltac:(discriminate)) as (a & pre & r & E & -> & P & _).
      rewrite <- (passed a pre r E).
      * destruct (delete_all (a :: pre) m) as [m'|]; [|reflexivity]. cbn [mbind option_bind].
        apply (rest r (n :: new)); [exact (ascending_rest _ _ _ _ E ltac:(assumption)) | exact An |]. rewrite E in Hf. cbn in *. rewrite length_app in Hf. lia.
      * injection E as <- _. intros k Hk. assert (Hl : strcmp k n < 0) by (apply elem_of_cons in Hk as [->|Hk]; [exact L | exact (P k Hk)]).
        intros [->|Hn]%elem_of_cons; [rewrite (proj2 (strcmp_eq_0 n n) eq_refl) in Hl; lia|].
        pose proof (ascending_head _ _ _ An Hn). rewrite strcmp_antisym in Hl. lia.
    + destruct (Z.ltb_spec 0 (strcmp o n)) as [G|G].
      * destruct (skip_before_spec (Some o) (n :: new) ltac:(discriminate)) as (a & pre & r & E & R & P & _).
        change (head (o :: old)) with (Some o) at 1. rewrite R. cbn [mbind option_bind].
        etransitivity; [apply (rest (o :: old) r m); [exact Ao | exact (ascending_rest _ _ _ _ E ltac:(assumption))|]|].
        { rewrite E in Hf. cbn in *. rewrite length_app in Hf. lia. }
        f_equal. rewrite E. injection E as <- _. change (n :: pre ++ r) with ((n :: pre) ++ r). apply gone_ext. intros k Hk. rewrite elem_of_app.
        split; [auto|]. intros [H|H]; [|exact H]. assert (Hl : 0 < strcmp o k) by (apply elem_of_cons in H as [->|H]; [exact G | exact (P k H)]).
        apply elem_of_cons in Hk as [->|Hk]; [rewrite (proj2 (strcmp_eq_0 o o) eq_refl) in Hl; lia|]. pose proof (ascending_head _ _ _ Ao Hk). lia.
      * assert (E : strcmp o n = 0) by lia. cbn [mbind option_bind]. rewrite E. cbn [Z.eqb tail]. apply strcmp_eq_0 in E as <-.
        rewrite gone_equal by exact Ao. apply IH; [exact (ascending_tail _ _ Ao) | exact (ascending_tail _ _ An) | cbn in Hf; lia].
Qed.

(** ** The map after the deletions *)

Context `{!qb_map_laws M}.

(** The part of the map that a reload does not touch. *)
Record same_frame (m m' : icmap M) : Prop := {
  sf_maps : forall map, is_Some (map_at map m') <-> is_Some (map_at map m);
  sf_global : icmap_global_map m' = icmap_global_map m;
  sf_tracks : icmap_track_list m' = icmap_track_list m;
  sf_notifiers : ic_notifiers m' = ic_notifiers m
}.

Lemma same_frame_refl m : same_frame m m.
Proof. now constructor. Qed.

Lemma same_frame_trans m1 m2 m3 : same_frame m1 m2 -> same_frame m2 m3 -> same_frame m1 m3.
Proof. intros [A1 A2 A3 A4] [B1 B2 B3 B4]. constructor; [intros map; now rewrite B1, A1 | congruence..]. Qed.

Lemma change_frame map k old new same m m' : change map k old new same m m' -> same_frame m m'.
Proof. intros C. constructor; apply C. Qed.

Lemma calls_frame m m' k old new same : same_frame m m' -> calls k old new same m' = calls k old new same m.
Proof. intros F. unfold calls. now rewrite (sf_tracks _ _ F), (sf_notifiers _ _ F). Qed.

Definition map_lookup_after (map : Z) (del : string -> bool) (m m' : icmap M) : Prop :=
  forall map' k, lookup_item map' k m' = if (map' =? map) && del k then None else lookup_item map' k m.

Lemma delete_all_spec keys m : is_Some (map_at (icmap_global_map m) m) -> NoDup keys ->
  (forall k, k ∈ keys -> is_Some (lookup_item (icmap_global_map m) k m)) ->
  exists m', delete_all keys m = Some m' /\ same_frame m m' /\
    map_lookup_after (icmap_global_map m) (fun k => bool_decide (k ∈ keys)) m m' /\
    ic_out m' = ic_out m ++ List.concat (List.map (fun k => calls k (lookup_item (icmap_global_map m) k m) None false m) keys).
Proof.
  revert m. induction keys as [|a keys IH]; intros m Hg N H.
  { exists m. split; [reflexivity|]. split; [apply same_frame_refl|]. split; [|cbn; now rewrite app_nil_r].
    intros map' k. now rewrite bool_decide_false, andb_false_r by apply not_elem_of_nil. }
  apply NoDup_cons in N as [Na N]. destruct (H a ltac:(left)) as [i Hi]. cbn -[icmap_delete].
  destruct (icmap_delete (Some a) m) as [[e m1]|] eqn:D.
  2:{ unfold icmap_delete, icmap_delete_r in D. destruct Hg as [gm Hg]. rewrite Hg in D. cbn in D. now destruct (qb_map_get gm a). }
  destruct (delete_change _ _ _ _ _ D) as [[E ->]|[_ [old C]]].
  { unfold icmap_delete, icmap_delete_r in D. destruct Hg as [gm Hg]. unfold lookup_item in Hi. rewrite Hg in D, Hi. cbn in D, Hi.
    rewrite Hi in D. injection D as D _. congruence. }
  pose proof (change_frame _ _ _ _ _ _ _ C) as F. pose proof (ch_lookup _ _ _ _ _ _ _ C) as L. cbn [mbind option_bind].
  destruct (IH m1) as (m' & E & F' & L' & O).
  - rewrite (sf_global _ _ F). now apply (sf_maps _ _ F).
  - exact N.
  - intros k Hk. rewrite (sf_global _ _ F), L, Z.eqb_refl. destruct (String.eqb_spec a k) as [->|]; [contradiction|]. apply H. now right.
  - exists m'. split; [exact E|]. split; [exact (same_frame_trans _ _ _ F F')|]. rewrite (sf_global _ _ F) in *. split.
    + intros map' k. rewrite (L' map' k), L. rewrite (bool_decide_ext (k ∈ a :: keys) (k = a \/ k ∈ keys)) by apply elem_of_cons.
      destruct (Z.eqb_spec map' (icmap_global_map m)) as [->|]; [|reflexivity]. cbn.
      destruct (String.eqb_spec a k) as [->|Hne].
      * rewrite (bool_decide_true (k = k \/ k ∈ keys)) by now left. now destruct (bool_decide _).
      * rewrite (bool_decide_ext (k = a \/ k ∈ keys) (k ∈ keys)); [reflexivity|]. split; [intros [->|]; [now destruct Hne | assumption] | now right].
    + rewrite O, (ch_out _ _ _ _ _ _ _ C), Z.eqb_refl, <- app_assoc. do 2 f_equal; [now rewrite (ch_old _ _ _ _ _ _ _ C)|].
      f_equal. apply map_ext_in. intros k Hk%list_elem_of_In. rewrite (calls_frame m m1) by exact F. f_equal.
      rewrite L, Z.eqb_refl. destruct (String.eqb_spec a k) as [->|]; [contradiction | reflexivity].
Qed.

Context `{!qb_map_ordered M}.

Lemma iter_ascending (m : M) p : ascending (qb_map_pref_iter m p).
Proof. apply sorted_ascending; [apply qb_iter_sorted | apply qb_iter_nodup]. Qed.

(** The keys that go: those with the prefix that the temporary map does not have. *)
Definition dropped (temp_map : Z) (prefix : string) (m : icmap M) (k : string) : bool :=
  is_prefix prefix k && bool_decide (lookup_item temp_map k m = None).

Lemma lookup_at map k m gm : map_at map m = Some gm -> lookup_item map k m = qb_map_get gm k.
Proof. intros E. unfold lookup_item. now rewrite E. Qed.

Lemma remove_deleted_spec temp_map prefix m gm tm :
  map_at (icmap_global_map m) m = Some gm -> map_at temp_map m = Some tm ->
  let keys := gone (qb_map_pref_iter tm prefix) (qb_map_pref_iter gm prefix) in
  exists m', remove_deleted_entries temp_map prefix m = Some m' /\ same_frame m m' /\
    map_lookup_after (icmap_global_map m) (dropped temp_map prefix m) m m' /\
    ic_out m' = ic_out m ++ List.concat (List.map (fun k => calls k (lookup_item (icmap_global_map m) k m) None false m) keys).
Proof.
  intros Hg Ht keys. unfold remove_deleted_entries, icmap_iter_init, icmap_iter_init_r. rewrite Hg, Ht. cbn [mbind option_bind default].
  rewrite merge_exact by (apply iter_ascending || reflexivity). fold keys.
  assert (K : forall k, k ∈ keys <-> is_prefix prefix k = true /\ qb_map_get gm k <> None /\ qb_map_get tm k = None).
  { intros k. unfold keys, gone. rewrite list_elem_of_In, filter_In, <- list_elem_of_In, negb_true_iff, bool_decide_eq_false, !qb_iter_keys.
    destruct (qb_map_get tm k); split; [intros [[H1 H2] H3]; exfalso; apply H3; now split | now intros (_ & _ & [=]) | tauto |].
    intros (H1 & H2 & _). split; [tauto|]. intros [_ H]. now apply H. }
  destruct (delete_all_spec keys m) as (m' & E & F & L & O).
  - eauto.
  - apply filter_nodup, qb_iter_nodup.
  - intros k (_ & H & _)%K. rewrite (lookup_at _ _ _ _ Hg). now destruct (qb_map_get gm k).
  - exists m'. split; [exact E|]. split; [exact F|]. split; [|exact O]. intros map' k. rewrite (L map' k). unfold dropped. rewrite (lookup_at temp_map _ _ _ Ht).
    destruct (Z.eqb_spec map' (icmap_global_map m)) as [->|]; [|reflexivity]. cbn. rewrite (lookup_at _ _ _ _ Hg).
    destruct (bool_decide_reflect (k ∈ keys)) as [H|H]; rewrite K in H.
    + destruct H as (-> & _ & ->). now rewrite bool_decide_true.
    + destruct (is_prefix prefix k) eqn:P; [|reflexivity]. cbn. destruct (bool_decide_reflect (qb_map_get tm k = None)) as [H'|]; [|reflexivity].
      destruct (qb_map_get gm k); [|reflexivity]. exfalso. apply H. now repeat split.
Qed.

(** All the prefixes of a reload. *)
Lemma remove_all_spec temp_map ps m : is_Some (map_at (icmap_global_map m) m) -> is_Some (map_at temp_map m) -> temp_map <> icmap_global_map m ->
  exists m', remove_all_deleted temp_map ps m = Some m' /\ same_frame m m' /\
    map_lookup_after (icmap_global_map m) (fun k => existsb (fun p => is_prefix p k) ps && bool_decide (lookup_item temp_map k m = None)) m m'.
Proof.
  revert m. induction ps as [|p ps IH]; intros m Hg Ht Hne.
  { exists m. split; [reflexivity|]. split; [apply same_frame_refl|]. intros map' k. cbn. now rewrite andb_false_r. }
  destruct Hg as [gm Hg], Ht as [tm Ht]. destruct (remove_deleted_spec temp_map p m gm tm Hg Ht) as (m1 & E1 & F1 & L1 & _).
  destruct (IH m1) as (m2 & E2 & F2 & L2); rewrite ?(sf_global _ _ F1); [apply (sf_maps _ _ F1); eauto.. | exact Hne|].
  exists m2. cbn. rewrite E1. split; [exact E2|]. split; [exact (same_frame_trans _ _ _ F1 F2)|]. rewrite (sf_global _ _ F1) in L2. intros map' k.
  rewrite (L2 map' k), (L1 map' k), (L1 temp_map k), (proj2 (Z.eqb_neq _ _) Hne). unfold dropped. cbn.
  destruct (map' =? icmap_global_map m), (is_prefix p k), (existsb _ ps), (bool_decide _); reflexivity.
Qed.

(** ** Keys that cannot change *)

Lemma stored_len_item j : item_ok j -> stored_len (ii_value j) (ii_value_len j) (ii_type j) = Some (ii_value_len j).
Proof.
  intros Ok. unfold stored_len, item_ok, ii_value_len in *. destruct (ii_type j); try reflexivity.
  destruct Ok as (l & -> & Hl & _). rewrite (mem_strlen_app l [] Hl). cbn. f_equal. rewrite length_app. cbn. lia.
Qed.

(** Two stored items compare equal exactly when they are. *)
Lemma item_eq_items i j : item_ok j -> icmap_item_eq i (ii_value j) (ii_value_len j) (ii_type j) = Some (bool_decide (i = j)).
Proof.
  intros Ok. unfold icmap_item_eq. destruct i as [ti vi], j as [tj vj]. cbn [ii_type ii_value]. destruct (type_eqb ti tj) eqn:Et.
  - apply type_eqb_true in Et as ->. cbn [ii_type negb] in *. pose proof (stored_len_item _ Ok) as S. cbn [ii_type ii_value] in *. rewrite S.
    cbn [mbind option_bind]. unfold ii_value_len in *. cbn [ii_value] in *. destruct (Nat.eqb_spec (length vi) (length vj)) as [E|E].
    + rewrite !mem_read_some by lia. cbn [mbind option_bind]. rewrite !take_ge by lia. f_equal. apply bool_decide_ext. split; [intros -> | intros [= ->]]; reflexivity.
    + symmetry. f_equal. apply bool_decide_eq_false. intros [= ->]. now destruct E.
  - symmetry. cbn [negb]. f_equal. apply bool_decide_eq_false. intros [= -> _]. rewrite (proj2 (type_eqb_true tj tj) eq_refl) in Et. discriminate.
Qed.

Lemma delete_if_changed_spec temp_map a m : icmap_ok m -> is_Some (map_at (icmap_global_map m) m) -> is_Some (map_at temp_map m) ->
  temp_map <> icmap_global_map m ->
  exists m', delete_and_notify_if_changed temp_map a m = Some m' /\ same_frame m m' /\ ic_out m' = ic_out m /\
    map_lookup_after temp_map (fun k => String.eqb a k && negb (bool_decide (lookup_item temp_map k m = lookup_item (icmap_global_map m) k m))) m m'.
Proof.
  intros Ok [gm Hg] [tm Ht] Hne. unfold delete_and_notify_if_changed, icmap_key_value_eq. rewrite Hg, Ht. cbn [mbind option_bind].
  pose proof (lookup_at temp_map a m tm Ht) as Lt. pose proof (lookup_at (icmap_global_map m) a m gm Hg) as Lg.
  assert (Q : match qb_map_get tm a, qb_map_get gm a with
              | Some i1, Some i2 => icmap_item_eq i1 (ii_value i2) (ii_value_len i2) (ii_type i2) | _, _ => Some false end
      = Some (bool_decide (is_Some (qb_map_get tm a)) && bool_decide (lookup_item temp_map a m = lookup_item (icmap_global_map m) a m))).
  { rewrite Lt, Lg. destruct (qb_map_get tm a) as [i|], (qb_map_get gm a) as [j|] eqn:Ej; rewrite ?item_eq_items; try reflexivity.
    - f_equal. cbn. apply bool_decide_ext. split; congruence.
    - exact (proj1 (Ok _ _ _ Lg)). }
  rewrite Q. cbn [mbind option_bind]. clear Q. destruct (bool_decide_reflect (lookup_item temp_map a m = lookup_item (icmap_global_map m) a m)) as [E|E].
  - assert (N : (if bool_decide (is_Some (qb_map_get tm a)) && true then Some m else '(_, m0) ← icmap_delete_r temp_map (Some a) m; Some m0) = Some m).
    { destruct (qb_map_get tm a) eqn:T; cbn -[icmap_delete_r]; [reflexivity|]. unfold icmap_delete_r. rewrite Ht. cbn. now rewrite T. }
    exists m. split; [exact N|]. split; [apply same_frame_refl|]. split; [reflexivity|]. intros map' k.
    destruct (String.eqb_spec a k) as [<-|]; [|now rewrite andb_false_r]. rewrite bool_decide_true by exact E. now rewrite andb_false_r.
  - rewrite andb_false_r. destruct (icmap_delete_r temp_map (Some a) m) as [[e m']|] eqn:D.
    2:{ unfold icmap_delete_r in D. rewrite Ht in D. cbn in D. now destruct (qb_map_get tm a). }
    cbn [mbind option_bind]. exists m'. split; [reflexivity|]. destruct (delete_change _ _ _ _ _ D) as [[Er ->]|[_ [old C]]].
    + split; [apply same_frame_refl|]. split; [reflexivity|]. intros map' k. destruct (Z.eqb_spec map' temp_map) as [->|]; [|reflexivity].
      destruct (String.eqb_spec a k) as [<-|]; [|reflexivity]. unfold icmap_delete_r in D. rewrite Ht in D. cbn in D.
      destruct (qb_map_get tm a); [injection D as D _; congruence|]. rewrite Lt. now destruct (_ && _).
    + split; [exact (change_frame _ _ _ _ _ _ _ C)|]. split.
      * rewrite (ch_out _ _ _ _ _ _ _ C), (proj2 (Z.eqb_neq _ _) Hne). apply app_nil_r.
      * intros map' k. rewrite (ch_lookup _ _ _ _ _ _ _ C map' k). destruct (Z.eqb_spec map' temp_map) as [->|]; [|reflexivity]. cbn.
        destruct (String.eqb_spec a k) as [<-|]; [|reflexivity]. now rewrite bool_decide_false.
Qed.

Lemma lookup_after_ok map del m m' : map_lookup_after map del m m' -> icmap_ok m -> icmap_ok m'.
Proof. intros L Ok map' k i. rewrite (L map' k). destruct (_ && _); [discriminate | apply Ok]. Qed.

Lemma delete_changed_spec temp_map keys m : icmap_ok m -> is_Some (map_at (icmap_global_map m) m) -> is_Some (map_at temp_map m) ->
  temp_map <> icmap_global_map m ->
  exists m', delete_changed temp_map keys m = Some m' /\ same_frame m m' /\ ic_out m' = ic_out m /\
    map_lookup_after temp_map (fun k => bool_decide (k ∈ keys) && negb (bool_decide (lookup_item temp_map k m = lookup_item (icmap_global_map m) k m))) m m'.
Proof.
  revert m. induction keys as [|a keys IH]; intros m Ok Hg Ht Hne.
  { exists m. split; [reflexivity|]. split; [apply same_frame_refl|]. split; [reflexivity|]. intros map' k.
    now rewrite bool_decide_false, andb_false_r by apply not_elem_of_nil. }
  destruct (delete_if_changed_spec temp_map a m Ok Hg Ht Hne) as (m1 & E1 & F1 & O1 & L1).
  destruct (IH m1) as (m2 & E2 & F2 & O2 & L2); rewrite ?(sf_global _ _ F1);
    [exact (lookup_after_ok _ _ _ _ L1 Ok) | apply (sf_maps _ _ F1); assumption.. | exact Hne|].
  exists m2. cbn [delete_changed]. rewrite E1. split; [exact E2|]. split; [exact (same_frame_trans _ _ _ F1 F2)|]. split; [congruence|].
  rewrite (sf_global _ _ F1) in L2. intros map' k. rewrite (L2 map' k), !(L1 _ k), Z.eqb_refl.
  assert (Hne' : (icmap_global_map m =? temp_map) = false) by (apply Z.eqb_neq; congruence). rewrite Hne'. cbn [andb].
  destruct (map' =? temp_map); [|reflexivity]. cbn [andb].
  rewrite (bool_decide_ext (k ∈ a :: keys) (a = k \/ k ∈ keys)) by (rewrite elem_of_cons; split; intros []; auto).
  destruct (String.eqb_spec a k) as [->|N].
  - rewrite (bool_decide_true (k = k \/ k ∈ keys)) by now left. cbn [andb].
    destruct (bool_decide (lookup_item temp_map k m = lookup_item (icmap_global_map m) k m)) eqn:Q; cbn [negb]; [|now destruct (_ && _)].
    rewrite Q. now rewrite andb_false_r.
  - cbn [andb]. rewrite (bool_decide_ext (a = k \/ k ∈ keys) (k ∈ keys)); [reflexivity | split; [intros []; [contradiction | assumption] | now right]].
Qed.

End Keys.
