(* ===== verification/CfgReloadFrame.v ===== *)
(** * The configuration service: what a reload does not touch

    Parsing the file and computing the new configuration only write to the temporary
    map: the global map, the callbacks and what was called in totempg stay as they
    are until the configuration is accepted. *)
From stdpp Require Import pretty.
From S2P Require Import Prelude ErrMonad CString VoteQuorumExec Cpg Icmap IcmapTheory IcmapProps Util Coroparse CoroparseMain TotemIp TotemConfig TotemConfigLinks TotemConfigRead TotemConfigTheory Cfg CfgReload CfgReloadKeys.
Local Open Scope Z_scope.

Section Frame.
Context {M : Type} `{QB : qb_map M} `{QL : !qb_map_laws M} (temp_map : Z).

(** Only the temporary map differs. *)
Record only_temp (m m' : icmap M) : Prop := {
  ot_frame : same_frame m m';
  ot_lookup : forall map k, map <> temp_map -> lookup_item map k m' = lookup_item map k m;
  ot_out : ic_out m' = ic_out m;
  ot_ok : icmap_ok m -> icmap_ok m'
}.

#[export] Instance only_temp_preorder : PreOrder only_temp.
Proof.
  split.
  - intros m. constructor; [apply same_frame_refl | reflexivity..| auto].
  - intros m1 m2 m3 [A1 A2 A3 A4] [B1 B2 B3 B4]. constructor; [exact (same_frame_trans _ _ _ A1 B1) | | congruence | auto].
    intros map k H. now rewrite B2, A2.
Qed.

(** The invariant of the map and that the maps differ are needed for a store. *)
Definition temp_only (m m' : icmap M) : Prop := icmap_ok m -> temp_map <> icmap_global_map m -> only_temp m m'.

#[export] Instance temp_only_preorder : PreOrder temp_only.
Proof.
  split; [intros m _ _; reflexivity|]. intros m1 m2 m3 A B Ok Hne. transitivity m2; [now apply A|].
  pose proof (A Ok Hne) as [F _ _ K]. apply B; [now apply K|]. now rewrite (sf_global _ _ F).
Qed.

Lemma change_temp_only k old new same m m' : change temp_map k old new same m m' -> temp_only m m'.
Proof.
  intros C Ok Hne. constructor.
  - exact (change_frame _ _ _ _ _ _ _ C).
  - intros map k' H. rewrite (ch_lookup _ _ _ _ _ _ _ C), (proj2 (Z.eqb_neq _ _) H). reflexivity.
  - rewrite (ch_out _ _ _ _ _ _ _ C), (proj2 (Z.eqb_neq _ _) Hne). apply app_nil_r.
  - intros _. exact (change_ok _ _ _ _ _ _ _ C Ok).
Qed.

Lemma set_temp_only k v n t m e m' : icmap_set_r temp_map k v n t m = Some (e, m') -> temp_only m m'.
Proof.
  intros E Ok Hne. destruct k as [k|], v as [v|]; try (injection E as <- <-; reflexivity).
  destruct (set_change _ _ _ _ _ _ _ _ Ok E) as [[_ ->]|[_ (i & _ & [[-> _]|[old C]])]]; [reflexivity.. | now apply (change_temp_only _ _ _ _ _ _ C)].
Qed.

(** ** Programs on the configuration of totem *)

(** ... and nothing is called. *)
Definition temp_conf (s s' : tconf M) : Prop := temp_only (t_map s) (t_map s') /\ t_calls s' = t_calls s.

#[export] Instance temp_conf_preorder : PreOrder temp_conf.
Proof. split; [intros s; split; reflexivity|]. intros s1 s2 s3 [A1 A2] [B1 B2]. split; [now transitivity (t_map s2) | congruence]. Qed.

Lemma stays_upd_cfg f : stays temp_conf (upd_cfg (M:=M) f).
Proof. apply stays_upd. intros s. split; reflexivity. Qed.
Lemma stays_upd_if i f : stays temp_conf (upd_if (M:=M) i f).
Proof. unfold upd_if. apply stays_bind; [exact _ | apply stays_silent; [exact _ | apply silent_get_if] | intros _; apply stays_upd_cfg]. Qed.
Lemma stays_warn w : stays temp_conf (warn (M:=M) w).
Proof. apply stays_upd. intros s. split; reflexivity. Qed.

Lemma stays_write_map (f : icmap M -> option (Z * icmap M)) : (forall m e m', f m = Some (e, m') -> temp_only m m') -> stays temp_conf (write_map f).
Proof. intros H s r s' E. unfold write_map in E. apply bind_Some in E as ([e m] & E & [= _ <-]). split; [exact (H _ _ _ E) | reflexivity]. Qed.
Lemma stays_set_uint32 k v : stays temp_conf (write_map (icmap_set_uint32_r (M:=M) temp_map k v)).
Proof. apply stays_write_map. intros m e m'. apply set_temp_only. Qed.
Lemma stays_set_int32 k v : stays temp_conf (write_map (icmap_set_int32_r (M:=M) temp_map k v)).
Proof. apply stays_write_map. intros m e m'. apply set_temp_only. Qed.
Lemma stays_set_string k v : stays temp_conf (write_map (icmap_set_string_r (M:=M) temp_map k v)).
Proof. apply stays_write_map. intros m e m' E. destruct v as [v|]; [exact (set_temp_only _ _ _ _ _ _ _ E)|]. injection E as <- <-. reflexivity. Qed.
Hint Resolve stays_upd_cfg stays_upd_if stays_warn stays_set_uint32 stays_set_int32 stays_set_string : stays.

Context (env : build_env) (net : net_env).

Lemma stays_set_uint32_value k d v z : stays temp_conf (totem_volatile_config_set_uint32_value (M:=M) temp_map k d v z).
Proof. unfold totem_volatile_config_set_uint32_value, int_param, store_runtime. stays_solve. Qed.
Lemma stays_set_int32_value k d v z : stays temp_conf (totem_volatile_config_set_int32_value (M:=M) temp_map k d v z).
Proof. unfold totem_volatile_config_set_int32_value, int_param, store_runtime. stays_solve. Qed.
Lemma stays_set_string_value k d v : stays temp_conf (totem_volatile_config_set_string_value (M:=M) temp_map k d v).
Proof. unfold totem_volatile_config_set_string_value, store_runtime. stays_solve. Qed.
Lemma stays_set_boolean_value k d v : stays temp_conf (totem_volatile_config_set_boolean_value (M:=M) temp_map k d v).
Proof. unfold totem_volatile_config_set_boolean_value, int_param. stays_solve. Qed.
Lemma stays_scale_token : stays temp_conf (scale_token (M:=M) temp_map).
Proof. unfold scale_token. stays_solve. Qed.
Hint Resolve stays_set_uint32_value stays_set_int32_value stays_set_string_value stays_set_boolean_value stays_scale_token : stays.

Lemma stays_volatile_read d : stays temp_conf (totem_volatile_config_read (M:=M) env temp_map d).
Proof. unfold totem_volatile_config_read. stays_solve. Qed.

Lemma stays_get_crypto : stays temp_conf (totem_get_crypto (M:=M) env temp_map).
Proof. unfold totem_get_crypto. stays_solve. Qed.
Lemma stays_read_keyfile file strerror l : stays temp_conf (read_keyfile (M:=M) env file strerror l).
Proof. unfold read_keyfile. stays_solve. Qed.
Lemma silent_key_length map : silent (key_length (M:=M) map).
Proof. intros s r s' H. unfold key_length in H. apply bind_Some in H as ([e g] & _ & [= _ <-]). reflexivity. Qed.
Lemma silent_key_bytes map n : silent (key_bytes (M:=M) map n).
Proof. intros s r s' H. unfold key_bytes in H. apply bind_Some in H as ([e g] & _ & [= _ <-]). reflexivity. Qed.
Hint Resolve silent_key_length silent_key_bytes : silent.
Lemma stays_read_map_key : stays temp_conf (read_map_key (M:=M) env temp_map).
Proof. unfold read_map_key. stays_solve. Qed.
Hint Resolve stays_get_crypto stays_read_keyfile stays_read_map_key : stays.
Lemma stays_reread_crypto file strerror : stays temp_conf (totem_reread_crypto_config (M:=M) env file strerror temp_map).
Proof. unfold totem_reread_crypto_config, totem_config_keyread. stays_solve. Qed.

Lemma stays_calc_timers : stays temp_conf (totem_calc_knet_ping_timers (M:=M) temp_map).
Proof. unfold totem_calc_knet_ping_timers, when_configured. stays_solve. Qed.

(** ** The links and the nodes *)

Lemma stays_find_local_node b : stays temp_conf (find_local_node (M:=M) net temp_map b).
Proof. unfold find_local_node. stays_solve. Qed.
Hint Resolve stays_find_local_node : stays.
Lemma stays_configure_link_params : stays temp_conf (configure_link_params (M:=M) env net temp_map).
Proof. unfold configure_link_params, when_configured. stays_solve. Qed.
Lemma stays_node_id pos id addr : stays temp_conf (node_id_or_generate (M:=M) env net temp_map pos id addr).
Proof. unfold node_id_or_generate. stays_solve. Qed.
Lemma stays_add_member link addr id : stays temp_conf (add_member (M:=M) net link addr id).
Proof. unfold add_member. stays_solve. Qed.
Hint Resolve stays_configure_link_params stays_node_id stays_add_member : stays.
Lemma stays_put_ring_addr pos key : stays temp_conf (put_ring_addr (M:=M) env net temp_map pos key).
Proof. unfold put_ring_addr. stays_solve. Qed.
Hint Resolve stays_put_ring_addr : stays.
Lemma stays_put_node key p : stays temp_conf (put_node (M:=M) env net temp_map key p).
Proof. unfold put_node. stays_solve. Qed.
Hint Resolve stays_put_node : stays.
Lemma stays_put_nodelist b : stays temp_conf (put_nodelist_members_to_config (M:=M) env net temp_map b).
Proof. unfold put_nodelist_members_to_config, check_things_have_not_changed. stays_solve. Qed.

Lemma stays_parse_if_addr w a o : stays temp_conf (parse_if_addr (M:=M) net w a o).
Proof. unfold parse_if_addr. stays_solve. Qed.
Hint Resolve stays_parse_if_addr : stays.
Lemma stays_read_members link keys n : stays temp_conf (read_members (M:=M) net temp_map link keys n).
Proof. revert n. induction keys as [|k keys IH]; intros n; cbn [read_members]; stays_solve; apply IH. Qed.
Lemma stays_read_link_addresses link c : stays temp_conf (read_link_addresses (M:=M) env net temp_map link c).
Proof. unfold read_link_addresses, link_string. stays_solve. Qed.
Lemma stays_read_link_transport link : stays temp_conf (read_link_transport (M:=M) env temp_map link).
Proof. unfold read_link_transport, link_string. stays_solve. Qed.
Lemma stays_read_link_params link : stays temp_conf (read_link_params (M:=M) temp_map link).
Proof. unfold read_link_params, link_uint32. stays_solve. Qed.
Hint Resolve stays_read_members stays_read_link_addresses stays_read_link_transport stays_read_link_params : stays.
Lemma stays_read_interface_key b c key : stays temp_conf (read_interface_key (M:=M) env net temp_map b c key).
Proof. unfold read_interface_key. stays_solve. Qed.
Hint Resolve stays_read_interface_key stays_put_nodelist stays_volatile_read stays_reread_crypto stays_calc_timers : stays.
Lemma stays_configure_new_params : stays temp_conf (totemconfig_configure_new_params (M:=M) env net temp_map).
Proof. unfold totemconfig_configure_new_params, get_interface_params. stays_solve. Qed.

End Frame.

