(* ===== verification/CfgReloadProps.v ===== *)
(** * The configuration service: theorems on reloads *)
From stdpp Require Import pretty sorting gmap.
From S2P Require Import Prelude ErrMonad CString VoteQuorumExec Cpg Icmap IcmapTheory IcmapProps Util Coroparse CoroparseMain CoroparseProps CoroparseFrame TotemIp TotemConfig TotemConfigLinks TotemConfigRead TotemConfigTheory TotemConfigProps Cfg CfgReload CfgReloadKeys CfgReloadFrame.
Local Open Scope string_scope.
Local Open Scope Z_scope.

Section Maps.
Context {M : Type} `{QB : qb_map M} `{QL : !qb_map_laws M}.

(** C30: for the keys with a prefix, the walk through the sorted keys of the global and
    of the temporary map is the difference of sets: exactly the keys that only the
    global map has are deleted, in order, each with the callbacks of its trackers, and
    no other key of any map changes.  It always comes to an end. *)
Theorem removed_keys_exact `{QO : !qb_map_ordered M} temp_map prefix (m : icmap M) gm tm :
  map_at (icmap_global_map m) m = Some gm -> map_at temp_map m = Some tm ->
  exists m', remove_deleted_entries temp_map prefix m = Some m' /\
    (forall map k, lookup_item map k m' =
       if (map =? icmap_global_map m) && is_prefix prefix k && bool_decide (lookup_item temp_map k m = None) then None else lookup_item map k m) /\
    ic_out m' = (ic_out m ++ List.concat (List.map (fun k => calls k (lookup_item (icmap_global_map m) k m) None false m)
                  (gone (qb_map_pref_iter tm prefix) (qb_map_pref_iter gm prefix))))%list.
Proof.
  intros Hg Ht. destruct (remove_deleted_spec temp_map prefix m gm tm Hg Ht) as (m' & E & F & L & O). exists m'. split; [exact E|].
  split; [|exact O]. intros map k. rewrite (L map k). unfold dropped. now rewrite andb_assoc.
Qed.

(** ** Stores into the global map *)

Record wrote (key : string) (i : icmap_item) (m m' : icmap M) : Prop := {
  wr_frame : same_frame m m';
  wr_ok : icmap_ok m';
  wr_lookup : forall map k, lookup_item map k m' = if (map =? icmap_global_map m) && String.eqb key k then Some i else lookup_item map k m
}.

Lemma set_int_wrote t key v (m : icmap M) : icmap_ok m -> is_Some (map_at (icmap_global_map m) m) -> icmap_check_key_name key = true ->
  t <> ICMAP_VALUETYPE_STRING -> t <> ICMAP_VALUETYPE_BINARY ->
  exists m', set_int t (icmap_global_map m) key v m = Some (CS_OK, m') /\ wrote key (mk_item t (le_bytes (icmap_get_valuetype_len t) v)) m m'.
Proof.
  intros Ok Hg Hk N1 N2. destruct (set_int_stored t _ key v m Ok Hg N1 N2 Hk) as (m' & E & S). exists m'. split; [exact E|].
  pose proof (set_change _ _ _ _ _ _ _ _ Ok E) as [[H _]|[_ (i & Ci & H)]]; [easy|]. destruct H as [[-> L]|[old C]].
  - constructor; [apply same_frame_refl | exact Ok|]. intros map k. destruct (Z.eqb_spec map (icmap_global_map m)) as [->|]; [|reflexivity].
    cbn. apply (st_lookup _ _ _ _ _ S).
  - constructor; [exact (change_frame _ _ _ _ _ _ _ C) | exact (change_ok _ _ _ _ _ _ _ C Ok)|]. intros map k.
    destruct (Z.eqb_spec map (icmap_global_map m)) as [->|N]; [cbn; apply (st_lookup _ _ _ _ _ S)|].
    rewrite (ch_lookup _ _ _ _ _ _ _ C). now rewrite (proj2 (Z.eqb_neq _ _) N).
Qed.

Lemma set_uint8_wrote key v (m : icmap M) : icmap_ok m -> is_Some (map_at (icmap_global_map m) m) -> icmap_check_key_name key = true ->
  exists m', set_uint8 key v m = Some m' /\ wrote key (mk_item ICMAP_VALUETYPE_UINT8 (le_bytes 1 v)) m m'.
Proof.
  intros Ok Hg Hk. destruct (set_int_wrote ICMAP_VALUETYPE_UINT8 key v m Ok Hg Hk) as (m' & E & W); [discriminate..|].
  exists m'. split; [|exact W]. unfold set_uint8, icmap_set_uint8, icmap_set_uint8_r. now rewrite E.
Qed.

(** A map that a store left behind is fit for the next one. *)
Lemma wrote_global key i m m' : wrote key i m m' -> is_Some (map_at (icmap_global_map m) m) -> is_Some (map_at (icmap_global_map m') m').
Proof. intros [F _ _] H. rewrite (sf_global _ _ F). now apply (sf_maps _ _ F). Qed.

Lemma reload_fini_spec res (m : icmap M) : icmap_ok m -> is_Some (map_at (icmap_global_map m) m) ->
  exists m', reload_fini res m = Some m' /\ same_frame m m' /\
    (forall map k, map <> icmap_global_map m -> lookup_item map k m' = lookup_item map k m) /\
    (forall k, lookup_item (icmap_global_map m) k m' =
       if String.eqb "config.reload_in_progress" k || String.eqb "config.totemconfig_reload_in_progress" k
       then Some (mk_item ICMAP_VALUETYPE_UINT8 (le_bytes 1 0))
       else if String.eqb "config.reload_status" k then Some (mk_item ICMAP_VALUETYPE_INT32 (le_bytes 4 res))
       else lookup_item (icmap_global_map m) k m).
Proof.
  intros Ok Hg. unfold reload_fini. destruct (set_int_wrote ICMAP_VALUETYPE_INT32 "config.reload_status" res m Ok Hg eq_refl) as (m1 & E1 & W1); [discriminate..|].
  unfold icmap_set_int32, icmap_set_int32_r. rewrite E1. cbn [mbind option_bind].
  destruct (set_uint8_wrote "config.totemconfig_reload_in_progress" 0 m1 (wr_ok _ _ _ _ W1) (wrote_global _ _ _ _ W1 Hg) eq_refl) as (m2 & E2 & W2).
  rewrite E2. cbn [mbind option_bind].
  destruct (set_uint8_wrote "config.reload_in_progress" 0 m2 (wr_ok _ _ _ _ W2) (wrote_global _ _ _ _ W2 (wrote_global _ _ _ _ W1 Hg)) eq_refl) as (m3 & E3 & W3).
  exists m3. split; [exact E3|].
  pose proof (wr_frame _ _ _ _ W1) as F1. pose proof (wr_frame _ _ _ _ W2) as F2. pose proof (wr_frame _ _ _ _ W3) as F3.
  pose proof (sf_global _ _ F1) as G1. pose proof (sf_global _ _ F2) as G2. rewrite G1 in G2.
  split; [exact (same_frame_trans _ _ _ F1 (same_frame_trans _ _ _ F2 F3))|]. split.
  - intros map k N. rewrite (wr_lookup _ _ _ _ W3), (wr_lookup _ _ _ _ W2), (wr_lookup _ _ _ _ W1), G1, G2, (proj2 (Z.eqb_neq _ _) N). reflexivity.
  - intros k. rewrite (wr_lookup _ _ _ _ W3), (wr_lookup _ _ _ _ W2), (wr_lookup _ _ _ _ W1), G1, G2, Z.eqb_refl. cbn [andb].
    destruct (String.eqb "config.reload_in_progress" k), (String.eqb "config.totemconfig_reload_in_progress" k); reflexivity.
Qed.

(** ** The phases of a reload *)

Context `{QO : !qb_map_ordered M}.
Context (have_knet_crypto_reconf : bool) (env : build_env) (net : net_env) (knet : knet_env).
Context (totempg_member_add : totem_ip_address -> nat -> Z) (key_file_of : string -> key_file) (strerror : Z -> string).
Context (getpwnam getgrnam : string -> Z + option Z) (filename dirname : string) (file : Z + list ascii) (entries : option (list dir_entry)).
Context (totem_nodeid_get : Z) (totem_mcast : cfg_msg -> Z) (temp_map : Z).

Notation parse_file := (parse_file knet strerror getpwnam getgrnam filename dirname file entries temp_map).
Notation reload_check := (reload_check have_knet_crypto_reconf env net key_file_of strerror temp_map).
Notation reload_config := (reload_config have_knet_crypto_reconf env net totempg_member_add key_file_of strerror temp_map).
Notation reload_prepare := (reload_prepare have_knet_crypto_reconf temp_map).
Notation handler := (message_handler_req_exec_cfg_reload_config have_knet_crypto_reconf env net knet totempg_member_add key_file_of strerror
  getpwnam getgrnam filename dirname file entries totem_nodeid_get totem_mcast temp_map).

Definition flag (v : Z) : option icmap_item := Some (mk_item ICMAP_VALUETYPE_UINT8 (le_bytes 1 v)).

(** Both maps are there and are two. *)
Record two_maps (m : icmap M) : Prop := {
  tw_ok : icmap_ok m;
  tw_global : is_Some (map_at (icmap_global_map m) m);
  tw_temp : is_Some (map_at temp_map m);
  tw_differ : temp_map <> icmap_global_map m
}.

Lemma two_maps_frame m m' : two_maps m -> same_frame m m' -> icmap_ok m' -> two_maps m'.
Proof.
  intros [Ok Hg Ht Hd] F Ok'. constructor; [exact Ok' | rewrite (sf_global _ _ F); now apply (sf_maps _ _ F) | now apply (sf_maps _ _ F) |].
  now rewrite (sf_global _ _ F).
Qed.

Lemma delete_key_spec k (m : icmap M) : is_Some (map_at (icmap_global_map m) m) ->
  exists e m', icmap_delete (Some k) m = Some (e, m') /\ same_frame m m' /\ map_lookup_after (icmap_global_map m) (String.eqb k) m m'.
Proof.
  intros [gm Hg]. destruct (icmap_delete (Some k) m) as [[e m']|] eqn:D.
  2:{ unfold icmap_delete, icmap_delete_r in D. rewrite Hg in D. cbn in D. now destruct (qb_map_get gm k). }
  exists e, m'. split; [reflexivity|]. destruct (delete_change _ _ _ _ _ D) as [[E ->]|[_ [old C]]].
  - split; [apply same_frame_refl|]. intros map' k'. destruct (Z.eqb_spec map' (icmap_global_map m)) as [->|]; [|reflexivity].
    destruct (String.eqb_spec k k') as [<-|]; [|reflexivity]. cbn. rewrite (lookup_at _ _ _ _ Hg).
    unfold icmap_delete, icmap_delete_r in D. rewrite Hg in D. cbn in D. destruct (qb_map_get gm k); [injection D as D; congruence | reflexivity].
  - split; [exact (change_frame _ _ _ _ _ _ _ C)|]. intros map' k'. apply (ch_lookup _ _ _ _ _ _ _ C).
Qed.

(** After parsing, the global map has lost the message of the last reload and has the
    mark of this one; the file is in the temporary map. *)
Lemma parse_file_spec m res m' : icmap_ok m -> is_Some (map_at (icmap_global_map m) m) -> temp_map <> icmap_global_map m ->
  parse_file m = Some (res, m') ->
  two_maps m' /\ icmap_global_map m' = icmap_global_map m /\
  (forall map, map <> temp_map -> is_Some (map_at map m') <-> is_Some (map_at map m)) /\
  forall map k, map <> temp_map -> lookup_item map k m' =
    if map =? icmap_global_map m then
      if String.eqb "config.totemconfig_reload_in_progress" k then flag 1
      else if String.eqb "config.reload_error_message" k then None else lookup_item map k m
    else lookup_item map k m.
Proof.
  intros Ok Hg Hne E. unfold CfgReload.parse_file in E.
  destruct (delete_key_spec "config.reload_error_message" m Hg) as (e & m1 & E1 & F1 & L1). rewrite E1 in E. cbn [mbind option_bind] in E.
  pose proof (lookup_after_ok _ _ _ _ L1 Ok) as Ok1. pose proof (sf_global _ _ F1) as G1.
  assert (Hg1 : is_Some (map_at (icmap_global_map m1) m1)) by (rewrite G1; now apply (sf_maps _ _ F1)).
  destruct (set_uint8_wrote "config.totemconfig_reload_in_progress" 1 m1 Ok1 Hg1 eq_refl) as (m2 & E2 & W). rewrite E2 in E. cbn [mbind option_bind] in E.
  pose proof (wr_frame _ _ _ _ W) as F2. pose proof (sf_global _ _ F2) as G2. rewrite G1 in G2.
  unfold icmap_init_r in E. set (m3 := m2 <| ic_maps ::= <[temp_map := qb_trie_create]> |>) in E.
  apply bind_Some in E as ([[r err] e3] & E3 & [= -> <-]).
  assert (L3 : forall map k, lookup_item map k m3 = if map =? temp_map then None else lookup_item map k m2).
  { intros map k. unfold m3. rewrite lookup_insert_map. destruct (map =? temp_map); [apply qb_create_get | reflexivity]. }
  assert (Ok3 : icmap_ok m3) by (intros map k i; rewrite L3; destruct (map =? temp_map); [discriminate | apply (wr_ok _ _ _ _ W)]).
  pose proof (configparse_stays (temp_only temp_map) temp_map (set_temp_only temp_map) _ _ _ _ _ _ _ _ _ _ _ _ E3 Ok3) as P. cbn [cp_map] in P.
  destruct P as [F4 L4 O4 K4]; [change (temp_map <> icmap_global_map m2); congruence|].
  assert (G3 : icmap_global_map m3 = icmap_global_map m) by exact G2.
  assert (At3 : forall map, map <> temp_map -> is_Some (map_at map m3) <-> is_Some (map_at map m)).
  { intros map Hm. unfold m3, map_at. cbn. rewrite lookup_insert_ne by congruence. etransitivity; [apply (sf_maps _ _ F2) | apply (sf_maps _ _ F1)]. }
  split; [|split; [now rewrite (sf_global _ _ F4) | split]].
  - apply (two_maps_frame m3); [|exact F4 | exact (K4 Ok3)]. constructor; [exact Ok3 | | | congruence].
    + rewrite G3. apply At3; [congruence | exact Hg].
    + unfold m3, map_at. cbn. rewrite lookup_insert_eq. now eexists.
  - intros map Hm. rewrite (sf_maps _ _ F4). now apply At3.
  - intros map k Hm. rewrite L4, L3, (proj2 (Z.eqb_neq _ _) Hm), (wr_lookup _ _ _ _ W), (L1 map k), G1 by exact Hm.
    destruct (map =? icmap_global_map m); reflexivity.
Qed.

(** The keys of the configuration file that are not in it any more. *)
Definition gone_key (m : icmap M) (k : string) : bool :=
  existsb (fun p => is_prefix p k) reload_prefixes && bool_decide (lookup_item temp_map k m = None).

Lemma prepare_spec m : two_maps m ->
  exists m', reload_prepare m = Some m' /\ two_maps m' /\ same_frame m m' /\
    forall map k, map <> temp_map -> lookup_item map k m' =
      if map =? icmap_global_map m then
        if gone_key m k then None else if String.eqb "config.reload_in_progress" k then flag 1 else lookup_item map k m
      else lookup_item map k m.
Proof.
  intros T. unfold CfgReload.reload_prepare. destruct (set_uint8_wrote "config.reload_in_progress" 1 m (tw_ok _ T) (tw_global _ T) eq_refl) as (m1 & E1 & W).
  rewrite E1. cbn [mbind option_bind]. pose proof (wr_frame _ _ _ _ W) as F1. pose proof (two_maps_frame _ _ T F1 (wr_ok _ _ _ _ W)) as T1.
  destruct (remove_all_spec temp_map reload_prefixes m1 (tw_global _ T1) (tw_temp _ T1) (tw_differ _ T1)) as (m2 & E2 & F2 & L2).
  rewrite E2. cbn [mbind option_bind]. pose proof (two_maps_frame _ _ T1 F2 (lookup_after_ok _ _ _ _ L2 (tw_ok _ T1))) as T2.
  destruct (delete_changed_spec temp_map (ro_entries have_knet_crypto_reconf) m2 (tw_ok _ T2) (tw_global _ T2) (tw_temp _ T2) (tw_differ _ T2)) as (m3 & E3 & F3 & _ & L3).
  exists m3. split; [exact E3|]. split; [exact (two_maps_frame _ _ T2 F3 (lookup_after_ok _ _ _ _ L3 (tw_ok _ T2)))|].
  split; [exact (same_frame_trans _ _ _ F1 (same_frame_trans _ _ _ F2 F3))|]. intros map k Hm.
  rewrite (L3 map k), (L2 map k), !(wr_lookup _ _ _ _ W), (sf_global _ _ F1), (proj2 (Z.eqb_neq _ _) Hm). cbn [andb].
  rewrite (proj2 (Z.eqb_neq _ _) (tw_differ _ T)). cbn [andb]. destruct (map =? icmap_global_map m); [|reflexivity]. cbn [andb].
  unfold gone_key. now destruct (_ && _).
Qed.

Lemma check_stays : stays (S:=tconf M) (temp_conf temp_map) reload_check.
Proof.
  pose proof (stays_configure_new_params (M:=M) temp_map env net). pose proof (stays_volatile_read (M:=M) temp_map env None).
  pose proof (stays_reread_crypto (M:=M) temp_map env key_file_of strerror). pose proof (stays_calc_timers (M:=M) temp_map).
  pose proof (stays_upd_cfg (M:=M) temp_map). unfold CfgReload.reload_check. repeat (assumption || stays_step); auto.
Qed.

(** ** The copy into the global map *)

Lemma changes_frame m m' : changes m m' -> same_frame m m'.
Proof.
  induction 1 as [m|m1 m2 m3 (map & k & old & new & same & C) _ IH]; [apply same_frame_refl|].
  exact (same_frame_trans _ _ _ (change_frame _ _ _ _ _ _ _ C) IH).
Qed.

Lemma copy_keys_ok dst src keys (m : icmap M) m' : icmap_ok m -> dst <> src -> copy_keys dst src keys m = Some (CS_OK, m') ->
  forall map k, lookup_item map k m' = if (map =? dst) && bool_decide (k ∈ keys) then lookup_item src k m else lookup_item map k m.
Proof.
  revert m. induction keys as [|a keys IH]; intros m Ok Hne E map k; cbn [copy_keys] in E.
  { injection E as <-. now rewrite bool_decide_false, andb_false_r by apply not_elem_of_nil. }
  destruct (lookup_item src a m) as [i|] eqn:Ei.
  2:{ unfold icmap_get_ref_r in E. apply bind_Some in E as ([e o] & E1 & E). apply bind_Some in E1 as (sm & Es & E1).
      rewrite (lookup_at _ _ _ _ Es) in Ei. rewrite Ei in E1. injection E1 as <- <-. discriminate. }
  rewrite (get_ref_item _ _ _ _ Ei) in E. cbn [mbind option_bind] in E. apply bind_Some in E as ([e m1] & E1 & E).
  destruct (Z.eqb_spec e CS_OK) as [->|Ne]; [|injection E as E _; contradiction].
  destruct (set_lookup _ _ _ _ _ _ _ _ Ok E1 eq_refl) as (j & Hj & L).
  assert (j = i) as -> by exact (canonical_unique _ _ _ _ _ Hj (item_canonical i (proj1 (Ok _ _ _ Ei)))).
  rewrite (IH m1 (changes_ok _ _ (set_changes _ _ _ _ _ _ _ _ Ok E1) Ok) Hne E map k), !L, (proj2 (Z.eqb_neq src dst)) by congruence. cbn [andb].
  rewrite (bool_decide_ext (k ∈ a :: keys) (a = k \/ k ∈ keys)) by (rewrite elem_of_cons; split; intros []; auto).
  destruct (map =? dst); [|reflexivity]. cbn [andb]. destruct (String.eqb_spec a k) as [<-|N].
  - rewrite (bool_decide_true (a = a \/ a ∈ keys)) by now left. rewrite Ei. now destruct (bool_decide _).
  - now rewrite (bool_decide_ext (a = k \/ k ∈ keys) (k ∈ keys)) by (split; [intros []; [contradiction | assumption] | now right]).
Qed.

Lemma copy_map_ok dst src (m : icmap M) m' : icmap_ok m -> dst <> src -> icmap_copy_map dst src m = Some (CS_OK, m') ->
  changes m m' /\ forall map k, lookup_item map k m' =
    if map =? dst then match lookup_item src k m with Some i => Some i | None => lookup_item map k m end else lookup_item map k m.
Proof.
  intros Ok Hne E. unfold icmap_copy_map, icmap_iter_init_r in E. apply bind_Some in E as (keys & E1 & E). apply bind_Some in E1 as (sm & Es & [= <-]).
  split; [exact (copy_changes _ _ _ _ _ _ Ok E)|]. intros map k. rewrite (copy_keys_ok _ _ _ _ _ Ok Hne E map k).
  destruct (map =? dst); [|reflexivity]. cbn [andb default]. rewrite (lookup_at _ _ _ _ Es). case_bool_decide as D; rewrite qb_iter_keys in D.
  - now destruct (qb_map_get sm k).
  - destruct (qb_map_get sm k) eqn:G; [|reflexivity]. exfalso. apply D. split; [now destruct k | discriminate].
Qed.

(** An accepted configuration: what was checked is what is put in use, and the keys of
    the temporary map are in the global one. *)
Lemma commit_keeps_map : stays (S:=tconf M) (fun s s' => t_map s' = t_map s) (totemconfig_commit_new_params totempg_member_add).
Proof.
  unfold totemconfig_commit_new_params, configure_totem_links, when_configured, upd_cfg.
  assert (PreOrder (fun s s' : tconf M => t_map s' = t_map s)) by (split; [now intros ? | intros ? ? ? ? ?; congruence]).
  assert (U : forall f : tconf M -> tconf M, (forall s, t_map (f s) = t_map s) -> stays (fun s s' => t_map s' = t_map s) (upd_state f)) by (intros f Hf; now apply stays_upd).
  stays_solve; apply U; reflexivity.
Qed.

Lemma reload_config_ok s t c' : temp_map <> icmap_global_map (t_map s) -> icmap_ok (t_map s) -> reload_config s = Some (inr (CS_OK, Some c'), t) ->
  exists t0, reload_check s = Some (inr None, t0) /\ c' = t_cfg t0 /\ changes (t_map t0) (t_map t) /\
    forall map k, lookup_item map k (t_map t) =
      if map =? icmap_global_map (t_map s) then match lookup_item temp_map k (t_map t0) with Some i => Some i | None => lookup_item map k (t_map t0) end
      else lookup_item map k (t_map t0).
Proof.
  intros Hne Ok E. unfold CfgReload.reload_config in E. apply bind_ok in E as (r & t0 & E0 & E). exists t0.
  pose proof (check_stays _ _ _ E0) as [S _]. specialize (S Ok Hne). pose proof (ot_ok _ _ _ S Ok) as Ok0. pose proof (sf_global _ _ (ot_frame _ _ _ S)) as G.
  destruct r as [res|]; [injection E as _ E; discriminate|]. split; [exact E0|]. unfold reload_commit in E.
  run_step E g Eg. injection Eg as <-. run_step E s1 Es. injection Es as <-. run_step E x Ex. destruct x as [res m].
  unfold lift in Ex. apply bind_Some in Ex as ([? ?] & Ex & [= -> ->]).
  apply bind_ok in E as (u & t1 & E1 & E). injection E1 as _ <-. destruct (Z.eqb_spec res CS_OK) as [->|Nr]; cbn [negb] in E.
  2:{ injection E as E. congruence. }
  run_step E c Ec. injection Ec as <-. apply bind_ok in E as (z & t2 & E2 & [= <- <-]). pose proof (commit_keeps_map _ _ _ E2) as K. cbn in K. rewrite K.
  split; [reflexivity|]. rewrite G in Ex. apply (copy_map_ok _ _ _ _ Ok0) in Ex as [C L]; [|congruence]. split; [exact C|]. exact L.
Qed.

(** ** Reloads *)

Definition reload_answer (source nodeid res : Z) : list cfg_effect :=
  if nodeid =? totem_nodeid_get then [ResReloadConfig source res; IpcRefcntDec source] else [].
Definition activate : cfg_msg := EXEC_CFG_CRYPTO_RECONFIG CRYPTO_RECONFIG_PHASE_ACTIVATE.

Lemma fini_lookup (m : icmap M) map k : lookup_item map k (icmap_fini_r temp_map m) = if map =? temp_map then None else lookup_item map k m.
Proof.
  unfold lookup_item, map_at, icmap_fini_r. cbn. destruct (Z.eqb_spec map temp_map) as [->|N]; [now rewrite lookup_delete_eq | now rewrite lookup_delete_ne by congruence].
Qed.

Lemma unused_map (m : icmap M) k : map_at temp_map m = None -> lookup_item temp_map k m = None.
Proof. intros H. unfold lookup_item. now rewrite H. Qed.

Lemma unused_differs (m : icmap M) : is_Some (map_at (icmap_global_map m) m) -> map_at temp_map m = None -> temp_map <> icmap_global_map m.
Proof. intros [gm Hg] H ->. congruence. Qed.

(** When the file cannot be parsed, the configuration in use stays, the requester is
    told so, and no key of the global map changes but two: the message of the last
    reload is gone, and the mark that a reload of totem is in progress, which every
    other outcome clears, stays. *)
Theorem failed_parse_leaves_mark source nodeid (s : reload M) m :
  icmap_ok (rl_map s) -> is_Some (map_at (icmap_global_map (rl_map s)) (rl_map s)) -> map_at temp_map (rl_map s) = None ->
  parse_file (rl_map s) = Some (-1, m) ->
  exists s', handler source nodeid s = Some s' /\ rl_live s' = rl_live s /\ rl_calls s' = rl_calls s /\
    rl_out s' = (rl_out s ++ reload_answer source nodeid CS_ERR_INVALID_PARAM)%list /\
    forall map k, lookup_item map k (rl_map s') =
      if map =? icmap_global_map (rl_map s) then
        if String.eqb "config.totemconfig_reload_in_progress" k then flag 1
        else if String.eqb "config.reload_error_message" k then None else lookup_item map k (rl_map s)
      else lookup_item map k (rl_map s).
Proof.
  intros Ok Hg Hn E. pose proof (unused_differs _ Hg Hn) as Hne. destruct (parse_file_spec _ _ _ Ok Hg Hne E) as (T & G & _ & L).
  unfold message_handler_req_exec_cfg_reload_config. rewrite E. cbn [mbind option_bind Z.eqb]. change (-1 =? -1) with true. cbv iota. cbn [mbind option_bind].
  eexists. split; [reflexivity|]. unfold reload_answer. destruct (nodeid =? totem_nodeid_get); cbn [rl_live rl_calls rl_out rl_map]; rewrite ?app_nil_r;
    (do 3 (split; [reflexivity|])); intros map k; cbn -[icmap_fini_r lookup_item flag];
    (rewrite fini_lookup; destruct (Z.eqb_spec map temp_map) as [->|N]; [rewrite (proj2 (Z.eqb_neq _ _) Hne); symmetry; now apply unused_map | now apply L]).
Qed.

(** The keys after a reload that came to its end: [new] is what was copied. *)
Definition reloaded (res : Z) (old : icmap M) (m : icmap M) (new : string -> option icmap_item) (k : string) : option icmap_item :=
  if String.eqb "config.reload_in_progress" k || String.eqb "config.totemconfig_reload_in_progress" k then flag 0
  else if String.eqb "config.reload_status" k then Some (mk_item ICMAP_VALUETYPE_INT32 (le_bytes 4 res))
  else match new k with
       | Some i => Some i
       | None => if gone_key m k || String.eqb "config.reload_error_message" k then None else lookup_item (icmap_global_map old) k old
       end.

Lemma handler_finish source nodeid (s : reload M) m m1 c res put t new :
  icmap_ok (rl_map s) -> is_Some (map_at (icmap_global_map (rl_map s)) (rl_map s)) -> map_at temp_map (rl_map s) = None ->
  parse_file (rl_map s) = Some (0, m) -> reload_prepare m = Some m1 -> new_config env (rl_live s) = Some c ->
  reload_config (mk_tconf c m1 (rl_calls s) 0) = Some (inr (res, put), t) ->
  (crypto_changed (t_cfg t) = true -> totem_mcast activate = 0) ->
  icmap_ok (t_map t) -> same_frame m1 (t_map t) ->
  (forall map k, map <> temp_map -> lookup_item map k (t_map t) =
     if map =? icmap_global_map m1 then match new k with Some i => Some i | None => lookup_item map k m1 end else lookup_item map k m1) ->
  exists s', handler source nodeid s = Some s' /\
    rl_live s' = match put with Some c => totempg_put_config c (rl_live s) | None => rl_live s end /\ rl_calls s' = t_calls t /\
    rl_out s' = (rl_out s ++ (if crypto_changed (t_cfg t) then [CfgMcast activate] else []) ++ reload_answer source nodeid res)%list /\
    forall map k, lookup_item map k (rl_map s') =
      if map =? icmap_global_map (rl_map s) then reloaded res (rl_map s) m new k else lookup_item map k (rl_map s).
Proof.
  intros Ok Hg Hn Ep Er Ec E Hc Okt F Lt. pose proof (unused_differs _ Hg Hn) as Hne. destruct (parse_file_spec _ _ _ Ok Hg Hne Ep) as (T & G & _ & L).
  destruct (prepare_spec m T) as (m1' & Er' & T1 & F1 & L1). rewrite Er in Er'. injection Er' as <-.
  pose proof (two_maps_frame _ _ T1 F Okt) as T2. destruct (reload_fini_spec res (t_map t) Okt (tw_global _ T2)) as (m3 & Ef & F3 & Lo & Lg).
  unfold message_handler_req_exec_cfg_reload_config, reload_parsed. rewrite Ep. cbn [mbind option_bind]. change (0 =? -1) with false. cbv iota.
  rewrite Er, Ec. cbn [mbind option_bind]. rewrite E. cbn [mbind option_bind]. rewrite Ef. cbn [mbind option_bind].
  pose proof (sf_global _ _ F1) as G1. rewrite G in G1. pose proof (sf_global _ _ F) as G2. rewrite G1 in *. rewrite G2 in *. rewrite G in *.
  assert (Keys : forall map k, lookup_item map k (icmap_fini_r temp_map m3) =
    if map =? icmap_global_map (rl_map s) then reloaded res (rl_map s) m new k else lookup_item map k (rl_map s)).
  { intros map k. rewrite fini_lookup. destruct (Z.eqb_spec map temp_map) as [->|N]; [rewrite (proj2 (Z.eqb_neq _ _) Hne); symmetry; now apply unused_map|].
    destruct (Z.eqb_spec map (icmap_global_map (rl_map s))) as [->|N'].
    - rewrite Lg, Lt, L1, L, Z.eqb_refl by exact N. unfold reloaded. destruct (String.eqb "config.reload_in_progress" k) eqn:E1; [reflexivity|].
      destruct (String.eqb "config.totemconfig_reload_in_progress" k) eqn:E2; [reflexivity|]. cbn [orb].
      destruct (String.eqb "config.reload_status" k); [reflexivity|]. destruct (new k); [reflexivity|]. now destruct (gone_key m k).
    - rewrite Lo, Lt, L1, L, (proj2 (Z.eqb_neq _ _) N') by assumption. reflexivity. }
  fold activate. unfold reload_answer.
  destruct (crypto_changed (t_cfg t)); [rewrite Hc by reflexivity; change (0 =? 0) with true; cbv iota|]; cbn [mbind option_bind];
    (eexists; split; [reflexivity|]; destruct (nodeid =? totem_nodeid_get); rewrite ?app_nil_r; cbn [app]; cbn -[icmap_fini_r lookup_item activate totempg_put_config];
     rewrite <- ?app_assoc; do 3 (split; [reflexivity|]); exact Keys).
Qed.

(** C29: a configuration that is refused (the links, the encryption or a timeout do not
    fit) never reaches totem and none of its values is stored, but the reload is not
    without effect: every key of the sections of the file that the refused file lacks
    is gone from the map; and when the refused file changes the encryption, the other
    nodes are told to activate it. *)
Theorem refused_reload_deletes source nodeid (s : reload M) m m1 c res t :
  icmap_ok (rl_map s) -> is_Some (map_at (icmap_global_map (rl_map s)) (rl_map s)) -> map_at temp_map (rl_map s) = None ->
  parse_file (rl_map s) = Some (0, m) -> reload_prepare m = Some m1 -> new_config env (rl_live s) = Some c ->
  reload_check (mk_tconf c m1 (rl_calls s) 0) = Some (inr (Some res), t) ->
  (crypto_changed (t_cfg t) = true -> totem_mcast activate = 0) ->
  exists s', handler source nodeid s = Some s' /\ rl_live s' = rl_live s /\ rl_calls s' = rl_calls s /\
    rl_out s' = (rl_out s ++ (if crypto_changed (t_cfg t) then [CfgMcast activate] else []) ++ reload_answer source nodeid res)%list /\
    forall map k, lookup_item map k (rl_map s') =
      if map =? icmap_global_map (rl_map s) then reloaded res (rl_map s) m (fun _ => None) k else lookup_item map k (rl_map s).
Proof.
  intros Ok Hg Hn Ep Er Ec E Hc. pose proof (unused_differs _ Hg Hn) as Hne. destruct (parse_file_spec _ _ _ Ok Hg Hne Ep) as (T & _).
  destruct (prepare_spec m T) as (m1' & Er' & T1 & _). rewrite Er in Er'. injection Er' as <-.
  destruct (check_stays _ _ _ E) as [S C]. specialize (S (tw_ok _ T1) (tw_differ _ T1)). cbn [t_map t_calls] in *.
  destruct (handler_finish source nodeid s m m1 c res None t (fun _ => None)) as (s' & H & H1 & H2 & H3 & H4); try assumption.
  - unfold CfgReload.reload_config. unfold act_bind. rewrite E. reflexivity.
  - exact (ot_ok _ _ _ S (tw_ok _ T1)).
  - exact (ot_frame _ _ _ S).
  - intros map k N. rewrite (ot_lookup _ _ _ S) by exact N. now destruct (map =? _).
  - exists s'. rewrite <- C. auto.
Qed.

(** C28: an accepted configuration is the one that was checked: it is put in use as a
    whole, totem is told of the changed links and members, every key of the temporary
    map has its value in the global one, every key of the sections of the file that the
    file lacks is gone, and every other key keeps its value. *)
Theorem accepted_reload_exact source nodeid (s : reload M) m m1 c c' t :
  icmap_ok (rl_map s) -> is_Some (map_at (icmap_global_map (rl_map s)) (rl_map s)) -> map_at temp_map (rl_map s) = None ->
  parse_file (rl_map s) = Some (0, m) -> reload_prepare m = Some m1 -> new_config env (rl_live s) = Some c ->
  reload_config (mk_tconf c m1 (rl_calls s) 0) = Some (inr (CS_OK, Some c'), t) ->
  (crypto_changed (t_cfg t) = true -> totem_mcast activate = 0) ->
  exists s' t0, handler source nodeid s = Some s' /\
    reload_check (mk_tconf c m1 (rl_calls s) 0) = Some (inr None, t0) /\ rl_live s' = totempg_put_config (t_cfg t0) (rl_live s) /\
    rl_calls s' = t_calls t /\
    rl_out s' = (rl_out s ++ (if crypto_changed (t_cfg t) then [CfgMcast activate] else []) ++ reload_answer source nodeid CS_OK)%list /\
    forall map k, lookup_item map k (rl_map s') =
      if map =? icmap_global_map (rl_map s) then reloaded CS_OK (rl_map s) m (fun k => lookup_item temp_map k (t_map t0)) k else lookup_item map k (rl_map s).
Proof.
  intros Ok Hg Hn Ep Er Ec E Hc. pose proof (unused_differs _ Hg Hn) as Hne. destruct (parse_file_spec _ _ _ Ok Hg Hne Ep) as (T & _).
  destruct (prepare_spec m T) as (m1' & Er' & T1 & _). rewrite Er in Er'. injection Er' as <-.
  destruct (reload_config_ok (mk_tconf c m1 (rl_calls s) 0) t c' (tw_differ _ T1) (tw_ok _ T1) E) as (t0 & E0 & -> & C & L).
  destruct (check_stays _ _ _ E0) as [S _]. specialize (S (tw_ok _ T1) (tw_differ _ T1)). cbn [t_map t_calls] in *.
  destruct (handler_finish source nodeid s m m1 c CS_OK (Some (t_cfg t0)) t (fun k => lookup_item temp_map k (t_map t0)))
    as (s' & H & H1 & H2 & H3 & H4); try assumption.
  - exact (changes_ok _ _ C (ot_ok _ _ _ S (tw_ok _ T1))).
  - exact (same_frame_trans _ _ _ (ot_frame _ _ _ S) (changes_frame _ _ C)).
  - intros map k N. rewrite L, (ot_lookup _ _ _ S map k N). reflexivity.
  - exists s', t0. auto 10.
Qed.

End Maps.

(** ** Witnesses *)

(** A running cluster of three nodes, and files that list some of its nodes. *)
Definition file_node (i : Z) : conf :=
  CSection "node" [CItem "nodeid" (pretty (i + 1)); CItem "name" ("node" +:+ pretty i); CItem "ring0_addr" ("10.0.0." +:+ pretty i)].
Definition conf_file (token : string) (nodes : list Z) : list ascii :=
  print_file [CSection "totem" [CItem "version" "2"; CItem "token" token]; CSection "nodelist" (List.map file_node nodes)].

Definition demo_name : net_env := demo_net "node1.example.org" 1.
Definition demo_running : reload (gmap string icmap_item) := mk_reload (TotemConfigProps.demo_conf demo_ids 3) (t_cfg demo_read) [] [].
Definition demo_strerror (e : Z) : string := "error".
Definition demo_id (name : string) : Z + option Z := inr None.

Definition demo_parse (file : Z + list ascii) : Z * icmap (gmap string icmap_item) :=
  default (0, rl_map demo_running) (parse_file demo_knet demo_strerror demo_id demo_id "corosync.conf" "uidgid.d" file None 3 (rl_map demo_running)).
Definition demo_prepared (file : Z + list ascii) : icmap (gmap string icmap_item) :=
  default (rl_map demo_running) (reload_prepare true 3 (snd (demo_parse file))).
Definition demo_new : totem_config := default (rl_live demo_running) (new_config demo_build (rl_live demo_running)).
Definition demo_start_conf (file : Z + list ascii) : tconf (gmap string icmap_item) := mk_tconf demo_new (demo_prepared file) [] 0.
Definition demo_check (file : Z + list ascii) : (string + option Z) * tconf (gmap string icmap_item) :=
  default (inr None, demo_start_conf file) (reload_check true demo_build demo_name (fun _ => KeyOpenError 2) demo_strerror 3 (demo_start_conf file)).
Definition demo_reload_config (file : Z + list ascii) : (string + Z * option totem_config) * tconf (gmap string icmap_item) :=
  default (inr (0, None), demo_start_conf file)
    (reload_config true demo_build demo_name (fun _ _ => 0) (fun _ => KeyOpenError 2) demo_strerror 3 (demo_start_conf file)).
Definition demo_handler (file : Z + list ascii) : option (reload (gmap string icmap_item)) :=
  message_handler_req_exec_cfg_reload_config true demo_build demo_name demo_knet (fun _ _ => 0) (fun _ => KeyOpenError 2) demo_strerror
    demo_id demo_id "corosync.conf" "uidgid.d" file None 1 (fun _ => 0) 3 8 1 demo_running.

(** A fourth node; a token that is too short and one node less. *)
Definition demo_larger : Z + list ascii := inr (conf_file "5000" [0; 1; 2; 3]).
Definition demo_short : Z + list ascii := inr (conf_file "5" [0; 1]).

Lemma removed_keys_exact_witness : exists m', remove_deleted_entries 3 "nodelist." (snd (demo_parse demo_short)) = Some m' /\
  lookup_item 1 "nodelist.node.2.nodeid" m' = None /\ lookup_item 1 "nodelist.node.1.nodeid" m' <> None.
Proof.
  destruct (removed_keys_exact (QB:=gmap_qb_map) 3 "nodelist." (snd (demo_parse demo_short)) (default ∅ (map_at 1 (snd (demo_parse demo_short))))
    (default ∅ (map_at 3 (snd (demo_parse demo_short))))) as (m' & E & L & _).
  - refine (some_default _ _ _). vm_compute. reflexivity.
  - refine (some_default _ _ _). vm_compute. reflexivity.
  - exists m'. split; [exact E|]. rewrite !L. split; vm_compute; [reflexivity | discriminate].
Defined.

Lemma failed_parse_leaves_mark_witness : exists s', demo_handler (inl 2) = Some s' /\ rl_out s' = [ResReloadConfig 8 CS_ERR_INVALID_PARAM; IpcRefcntDec 8] /\
  lookup_item 1 "config.totemconfig_reload_in_progress" (rl_map s') = flag 1.
Proof.
  destruct (failed_parse_leaves_mark (QB:=gmap_qb_map) true demo_build demo_name demo_knet (fun _ _ => 0) (fun _ => KeyOpenError 2) demo_strerror
    demo_id demo_id "corosync.conf" "uidgid.d" (inl 2) None 1 (fun _ => 0) 3 8 1 demo_running (snd (demo_parse (inl 2))))
    as (s' & E & _ & _ & O & L).
  - apply demo_totem_ok.
  - apply some_is. vm_compute. reflexivity.
  - vm_compute. reflexivity.
  - refine (some_pair _ _ _ _). vm_compute. reflexivity.
  - exists s'. split; [exact E|]. split; [exact O|]. exact (L 1 "config.totemconfig_reload_in_progress").
Defined.

Lemma refused_reload_deletes_witness : exists s', demo_handler demo_short = Some s' /\ rl_live s' = rl_live demo_running /\
  lookup_item 1 "nodelist.node.2.nodeid" (rl_map s') = None.
Proof.
  destruct (refused_reload_deletes (QB:=gmap_qb_map) true demo_build demo_name demo_knet (fun _ _ => 0) (fun _ => KeyOpenError 2) demo_strerror
    demo_id demo_id "corosync.conf" "uidgid.d" demo_short None 1 (fun _ => 0) 3 8 1 demo_running (snd (demo_parse demo_short)) (demo_prepared demo_short)
    demo_new CS_ERR_INVALID_PARAM (snd (demo_check demo_short))) as (s' & E & Lv & _ & _ & L).
  - apply demo_totem_ok.
  - apply some_is. vm_compute. reflexivity.
  - vm_compute. reflexivity.
  - refine (some_pair _ _ _ _). vm_compute. reflexivity.
  - refine (some_default _ _ _). vm_compute. reflexivity.
  - refine (some_default _ _ _). vm_compute. reflexivity.
  - refine (some_pair _ _ _ _). vm_compute. reflexivity.
  - reflexivity.
  - exists s'. split; [exact E|]. split; [exact Lv|]. rewrite (L 1 "nodelist.node.2.nodeid"). vm_compute. reflexivity.
Defined.

Lemma accepted_reload_exact_witness : exists s' (t0 : tconf (gmap string icmap_item)), demo_handler demo_larger = Some s' /\ rl_live s' = totempg_put_config (t_cfg t0) (rl_live demo_running) /\
  token_timeout (t_cfg t0) = 6300 /\ lookup_item 1 "nodelist.node.3.nodeid" (rl_map s') = Some (mk_item ICMAP_VALUETYPE_UINT32 [4; 0; 0; 0]).
Proof.
  destruct (accepted_reload_exact (QB:=gmap_qb_map) true demo_build demo_name demo_knet (fun _ _ => 0) (fun _ => KeyOpenError 2) demo_strerror
    demo_id demo_id "corosync.conf" "uidgid.d" demo_larger None 1 (fun _ => 0) 3 8 1 demo_running (snd (demo_parse demo_larger)) (demo_prepared demo_larger)
    demo_new (t_cfg (snd (demo_check demo_larger))) (snd (demo_reload_config demo_larger))) as (s' & t0 & E & E0 & Lv & _ & _ & L).
  - apply demo_totem_ok.
  - apply some_is. vm_compute. reflexivity.
  - vm_compute. reflexivity.
  - refine (some_pair _ _ _ _). vm_compute. reflexivity.
  - refine (some_default _ _ _). vm_compute. reflexivity.
  - refine (some_default _ _ _). vm_compute. reflexivity.
  - refine (some_pair _ _ _ _). vm_compute. reflexivity.
  - reflexivity.
  - exists s', t0. split; [exact E|]. split; [exact Lv|].
    assert (t0 = snd (demo_check demo_larger)) as -> by (unfold demo_check, demo_start_conf; change [] with (rl_calls demo_running); now rewrite E0).
    rewrite (L 1 "nodelist.node.3.nodeid"). split; vm_compute; reflexivity.
Defined.
