(* ===== verification/Stats.v ===== *)
(** * Statistics (exec/stats.c)

    The second map of the configuration map service: its keys are names of counters
    that live elsewhere, in totempg, in knet, in the connections of clients and in the
    list of scheduling pauses, and reading a key reads the counter.

    The counters of the other components are arguments ([stats_env]); a structure is
    known by the bytes that begin at each of its fields.  A write into a buffer that is
    too small is [None]. *)
From stdpp Require Import pretty.
From Stdlib Require Import HexString.
From S2P Require Import Prelude CString VoteQuorumExec Cpg Icmap Util Coroparse.

Local Open Scope string_scope.
Local Open Scope Z_scope.

Definition MAX_SCHEDMISS_EVENTS : nat := 10.
Definition SCHEDMISS_PREFIX : string := "stats.schedmiss".
Definition STATS_CLEAR : string := "stats.clear.".
Definition STATS_CLEAR_KNET : string := "stats.clear.knet".
Definition STATS_CLEAR_IPC : string := "stats.clear.ipc".
Definition STATS_CLEAR_TOTEM : string := "stats.clear.totem".
Definition STATS_CLEAR_ALL : string := "stats.clear.all".
Definition STATS_CLEAR_SCHEDMISS : string := "stats.clear.schedmiss".
Definition TOTEMPG_STATS_CLEAR_TOTEM : Z := 1.
Definition TOTEMPG_STATS_CLEAR_TRANSPORT : Z := 2.

Inductive stat_type := STAT_PG | STAT_SRP | STAT_KNET | STAT_KNET_HANDLE | STAT_IPCSC | STAT_IPCSG | STAT_SCHEDMISS.

(** [offset]: the field of the structure. *)
Record cs_stats_conv := mk_conv { cv_type : stat_type; cv_name : string; cv_offset : string; cv_value_type : icmap_value_types_t }.

Definition convs (t : stat_type) (l : list (string * string * icmap_value_types_t)) : list cs_stats_conv :=
  map (fun '(n, o, v) => mk_conv t n o v) l.

Definition cs_pg_stats : list cs_stats_conv := convs STAT_PG
  [("msg_queue_avail", "msg_queue_avail", ICMAP_VALUETYPE_UINT32); ("msg_reserved", "msg_reserved", ICMAP_VALUETYPE_UINT32)].
Definition cs_srp_stats : list cs_stats_conv := convs STAT_SRP
  [("orf_token_tx", "orf_token_tx", ICMAP_VALUETYPE_UINT64); ("orf_token_rx", "orf_token_rx", ICMAP_VALUETYPE_UINT64);
   ("memb_merge_detect_tx", "memb_merge_detect_tx", ICMAP_VALUETYPE_UINT64);
   ("memb_merge_detect_rx", "memb_merge_detect_rx", ICMAP_VALUETYPE_UINT64); ("memb_join_tx", "memb_join_tx", ICMAP_VALUETYPE_UINT64);
   ("memb_join_rx", "memb_join_rx", ICMAP_VALUETYPE_UINT64); ("mcast_tx", "mcast_tx", ICMAP_VALUETYPE_UINT64);
   ("mcast_retx", "mcast_retx", ICMAP_VALUETYPE_UINT64); ("mcast_rx", "mcast_rx", ICMAP_VALUETYPE_UINT64);
   ("memb_commit_token_tx", "memb_commit_token_tx", ICMAP_VALUETYPE_UINT64);
   ("memb_commit_token_rx", "memb_commit_token_rx", ICMAP_VALUETYPE_UINT64);
   ("token_hold_cancel_tx", "token_hold_cancel_tx", ICMAP_VALUETYPE_UINT64);
   ("token_hold_cancel_rx", "token_hold_cancel_rx", ICMAP_VALUETYPE_UINT64);
   ("operational_entered", "operational_entered", ICMAP_VALUETYPE_UINT64);
   ("operational_token_lost", "operational_token_lost", ICMAP_VALUETYPE_UINT64); ("gather_entered", "gather_entered", ICMAP_VALUETYPE_UINT64);
   ("gather_token_lost", "gather_token_lost", ICMAP_VALUETYPE_UINT64); ("commit_entered", "commit_entered", ICMAP_VALUETYPE_UINT64);
   ("commit_token_lost", "commit_token_lost", ICMAP_VALUETYPE_UINT64); ("recovery_entered", "recovery_entered", ICMAP_VALUETYPE_UINT64);
   ("recovery_token_lost", "recovery_token_lost", ICMAP_VALUETYPE_UINT64); ("consensus_timeouts", "consensus_timeouts", ICMAP_VALUETYPE_UINT64);
   ("rx_msg_dropped", "rx_msg_dropped", ICMAP_VALUETYPE_UINT64);
   ("time_since_token_last_received", "time_since_token_last_received", ICMAP_VALUETYPE_UINT64);
   ("continuous_gather", "continuous_gather", ICMAP_VALUETYPE_UINT32);
   ("continuous_sendmsg_failures", "continuous_sendmsg_failures", ICMAP_VALUETYPE_UINT32);
   ("firewall_enabled_or_nic_failure", "firewall_enabled_or_nic_failure", ICMAP_VALUETYPE_UINT8);
   ("mtt_rx_token", "mtt_rx_token", ICMAP_VALUETYPE_UINT32); ("avg_token_workload", "avg_token_workload", ICMAP_VALUETYPE_UINT32);
   ("avg_backlog_calc", "avg_backlog_calc", ICMAP_VALUETYPE_UINT32)].
Definition cs_knet_stats : list cs_stats_conv := convs STAT_KNET
  [("enabled", "enabled", ICMAP_VALUETYPE_UINT8); ("connected", "connected", ICMAP_VALUETYPE_UINT8); ("mtu", "mtu", ICMAP_VALUETYPE_UINT32);
   ("tx_data_packets", "stats.tx_data_packets", ICMAP_VALUETYPE_UINT64); ("rx_data_packets", "stats.rx_data_packets", ICMAP_VALUETYPE_UINT64);
   ("tx_data_bytes", "stats.tx_data_bytes", ICMAP_VALUETYPE_UINT64); ("rx_data_bytes", "stats.rx_data_bytes", ICMAP_VALUETYPE_UINT64);
   ("tx_ping_packets", "stats.tx_ping_packets", ICMAP_VALUETYPE_UINT64); ("rx_ping_packets", "stats.rx_ping_packets", ICMAP_VALUETYPE_UINT64);
   ("tx_ping_bytes", "stats.tx_ping_bytes", ICMAP_VALUETYPE_UINT64); ("rx_ping_bytes", "stats.rx_ping_bytes", ICMAP_VALUETYPE_UINT64);
   ("tx_pong_packets", "stats.tx_pong_packets", ICMAP_VALUETYPE_UINT64); ("rx_pong_packets", "stats.rx_pong_packets", ICMAP_VALUETYPE_UINT64);
   ("tx_pong_bytes", "stats.tx_pong_bytes", ICMAP_VALUETYPE_UINT64); ("rx_pong_bytes", "stats.rx_pong_bytes", ICMAP_VALUETYPE_UINT64);
   ("tx_pmtu_packets", "stats.tx_pmtu_packets", ICMAP_VALUETYPE_UINT64); ("rx_pmtu_packets", "stats.rx_pmtu_packets", ICMAP_VALUETYPE_UINT64);
   ("tx_pmtu_bytes", "stats.tx_pmtu_bytes", ICMAP_VALUETYPE_UINT64); ("rx_pmtu_bytes", "stats.rx_pmtu_bytes", ICMAP_VALUETYPE_UINT64);
   ("tx_total_packets", "stats.tx_total_packets", ICMAP_VALUETYPE_UINT64);
   ("rx_total_packets", "stats.rx_total_packets", ICMAP_VALUETYPE_UINT64); ("tx_total_bytes", "stats.tx_total_bytes", ICMAP_VALUETYPE_UINT64);
   ("rx_total_bytes", "stats.rx_total_bytes", ICMAP_VALUETYPE_UINT64); ("tx_total_errors", "stats.tx_total_errors", ICMAP_VALUETYPE_UINT64);
   ("rx_total_retries", "stats.tx_total_retries", ICMAP_VALUETYPE_UINT64); ("tx_pmtu_errors", "stats.tx_pmtu_errors", ICMAP_VALUETYPE_UINT32);
   ("tx_pmtu_retries", "stats.tx_pmtu_retries", ICMAP_VALUETYPE_UINT32); ("tx_ping_errors", "stats.tx_ping_errors", ICMAP_VALUETYPE_UINT32);
   ("tx_ping_retries", "stats.tx_ping_retries", ICMAP_VALUETYPE_UINT32); ("tx_pong_errors", "stats.tx_pong_errors", ICMAP_VALUETYPE_UINT32);
   ("tx_pong_retries", "stats.tx_pong_retries", ICMAP_VALUETYPE_UINT32); ("tx_data_errors", "stats.tx_data_errors", ICMAP_VALUETYPE_UINT32);
   ("tx_data_retries", "stats.tx_data_retries", ICMAP_VALUETYPE_UINT32); ("latency_min", "stats.latency_min", ICMAP_VALUETYPE_UINT32);
   ("latency_max", "stats.latency_max", ICMAP_VALUETYPE_UINT32); ("latency_ave", "stats.latency_ave", ICMAP_VALUETYPE_UINT32);
   ("latency_samples", "stats.latency_samples", ICMAP_VALUETYPE_UINT32); ("down_count", "stats.down_count", ICMAP_VALUETYPE_UINT32);
   ("up_count", "stats.up_count", ICMAP_VALUETYPE_UINT32)].
Definition cs_knet_handle_stats : list cs_stats_conv := convs STAT_KNET_HANDLE
  [("tx_uncompressed_packets", "tx_uncompressed_packets", ICMAP_VALUETYPE_UINT64);
   ("tx_compressed_packets", "tx_compressed_packets", ICMAP_VALUETYPE_UINT64);
   ("tx_compressed_original_bytes", "tx_compressed_original_bytes", ICMAP_VALUETYPE_UINT64);
   ("tx_compressed_size_bytes", "tx_compressed_size_bytes", ICMAP_VALUETYPE_UINT64);
   ("tx_compress_time_min", "tx_compress_time_min", ICMAP_VALUETYPE_UINT64);
   ("tx_compress_time_max", "tx_compress_time_max", ICMAP_VALUETYPE_UINT64);
   ("tx_compress_time_ave", "tx_compress_time_ave", ICMAP_VALUETYPE_UINT64);
   ("rx_compressed_packets", "rx_compressed_packets", ICMAP_VALUETYPE_UINT64);
   ("rx_compressed_original_bytes", "rx_compressed_original_bytes", ICMAP_VALUETYPE_UINT64);
   ("rx_compressed_size_bytes", "rx_compressed_size_bytes", ICMAP_VALUETYPE_UINT64);
   ("rx_compress_time_min", "rx_compress_time_min", ICMAP_VALUETYPE_UINT64);
   ("rx_compress_time_max", "rx_compress_time_max", ICMAP_VALUETYPE_UINT64);
   ("rx_compress_time_ave", "rx_compress_time_ave", ICMAP_VALUETYPE_UINT64); ("tx_crypt_time_min", "tx_crypt_time_min", ICMAP_VALUETYPE_UINT64);
   ("tx_crypt_time_max", "tx_crypt_time_max", ICMAP_VALUETYPE_UINT64); ("tx_crypt_time_ave", "tx_crypt_time_ave", ICMAP_VALUETYPE_UINT64);
   ("tx_crypt_byte_overhead", "tx_crypt_byte_overhead", ICMAP_VALUETYPE_UINT64);
   ("tx_crypt_packets", "tx_crypt_packets", ICMAP_VALUETYPE_UINT64); ("rx_crypt_time_min", "rx_crypt_time_min", ICMAP_VALUETYPE_UINT64);
   ("rx_crypt_time_max", "rx_crypt_time_max", ICMAP_VALUETYPE_UINT64); ("rx_crypt_time_ave", "rx_crypt_time_ave", ICMAP_VALUETYPE_UINT64);
   ("rx_crypt_packets", "rx_crypt_packets", ICMAP_VALUETYPE_UINT64)].
Definition cs_ipcs_conn_stats : list cs_stats_conv := convs STAT_IPCSC
  [("queueing", "cnx.queuing", ICMAP_VALUETYPE_INT32); ("queued", "cnx.queued", ICMAP_VALUETYPE_UINT32);
   ("invalid_request", "cnx.invalid_request", ICMAP_VALUETYPE_UINT64); ("overload", "cnx.overload", ICMAP_VALUETYPE_UINT64);
   ("sent", "cnx.sent", ICMAP_VALUETYPE_UINT32); ("procname", "cnx.proc_name", ICMAP_VALUETYPE_STRING);
   ("requests", "conn.requests", ICMAP_VALUETYPE_UINT64); ("responses", "conn.responses", ICMAP_VALUETYPE_UINT64);
   ("dispatched", "conn.events", ICMAP_VALUETYPE_UINT64); ("send_retries", "conn.send_retries", ICMAP_VALUETYPE_UINT64);
   ("recv_retries", "conn.recv_retries", ICMAP_VALUETYPE_UINT64); ("flow_control", "conn.flow_control_state", ICMAP_VALUETYPE_UINT32);
   ("flow_control_count", "conn.flow_control_count", ICMAP_VALUETYPE_UINT64)].
Definition cs_ipcs_global_stats : list cs_stats_conv := convs STAT_IPCSG
  [("global.active", "active", ICMAP_VALUETYPE_UINT64); ("global.closed", "closed", ICMAP_VALUETYPE_UINT64)].
Definition cs_schedmiss_stats : list cs_stats_conv := convs STAT_SCHEDMISS
  [("timestamp", "timestamp", ICMAP_VALUETYPE_UINT64); ("delay", "delay", ICMAP_VALUETYPE_FLOAT)].

(** [delay]: the bits of the float. *)
Record schedmiss_entry := mk_schedmiss { sm_timestamp : Z; sm_delay : Z }.
Definition no_schedmiss : schedmiss_entry := mk_schedmiss 0 0.

(** [st_old_value]: eight bytes. *)
Record stats_tracker := mk_stats_tracker { st_key_name : option string; st_user_data : Z; st_events : Z; st_old_value : list Z }.
#[export] Instance stats_tracker_eta : Etable stats_tracker := fun t =>
  mk_stats_tracker (st_key_name t) (st_user_data t) (st_events t) (st_old_value t).

Inductive stats_effect :=
| StatsNotify (event : Z) (key : string) (new_value old_value : get_result) (user_data : Z)
| TotempgStatsClear (flags : Z)
| IpcsClearStats.

Record stats := mk_stats {
  stats_map : gmap string cs_stats_conv;
  stats_notifiers : list qb_notifier;
  stats_tracker_list : list (Z * stats_tracker);
  schedmiss_event : list schedmiss_entry;
  highest_schedmiss_event : nat;
  st_out : list stats_effect
}.
#[export] Instance stats_eta : Etable stats := fun s =>
  mk_stats (stats_map s) (stats_notifiers s) (stats_tracker_list s) (schedmiss_event s) (highest_schedmiss_event s) (st_out s).

Definition stats_zero : stats := mk_stats ∅ [] [] (repeat no_schedmiss MAX_SCHEDMISS_EVENTS) 0 [].

(** The bytes from a field on. *)
Definition area : Type := string -> list Z.

Record stats_env := mk_stats_env {
  se_pg : area;
  se_srp : area;
  (** [totemknet_handle_get_stats], [totemknet_link_get_status] and
      [cs_ipcs_get_conn_stats]: an error, or the structure *)
  se_knet_handle : Z + area;
  se_knet_link : Z -> Z -> Z + area;
  se_ipcs_conn : Z -> Z -> Z -> Z + area;
  se_ipcs_global : area;
  se_max_host : Z;
  se_max_link : Z
}.

(** ** Keys *)

(** The [%d] conversion: [strtol] to a 64-bit value, stored in an [int]. *)
Definition scan_d (l : list ascii) : option (Z * list ascii) :=
  '(v, rest) ← read_number l; Some (s32 (Z.max (- 2 ^ 63) (Z.min (2 ^ 63 - 1) v)), rest).

(** The [%p] conversions. *)
Definition print_p (p : Z) : string := if p =? 0 then "(nil)" else HexString.of_Z p.
Definition scan_p (l : list ascii) : option (Z * list ascii) :=
  match strip_prefix (chars "(nil)") l with
  | Some l => Some (0, l)
  | None =>
      l ← strip_prefix (chars "0x") l;
      match l with
      | c :: _ => if bool_decide (is_Some (digit_in 16 c)) then Some (read_base 16 0 l) else None
      | [] => None
      end
  end.

(** [sscanf (key_name, "stats.knet.node%d.link%d", ...) == 2] *)
Definition scan_knet_key (key : string) : option (Z * Z) :=
  l ← strip_prefix (chars "stats.knet.node") (chars key);
  '(nodeid, l) ← scan_d l; l ← strip_prefix (chars ".link") l; '(link, _) ← scan_d l; Some (nodeid, link).

(** [sscanf (key_name, "stats.ipcs.service%d.%d.%p", ...) == 3] *)
Definition scan_ipcs_key (key : string) : option (Z * Z * Z) :=
  l ← strip_prefix (chars "stats.ipcs.service") (chars key);
  '(service, l) ← scan_d l; l ← strip_prefix (chars ".") l; '(pid, l) ← scan_d l; l ← strip_prefix (chars ".") l;
  '(ptr, _) ← scan_p l; Some (service, u32 pid, ptr).

(** [sscanf (key_name, "stats.schedmiss.%d", ...) == 1] *)
Definition scan_schedmiss_key (key : string) : option Z :=
  l ← strip_prefix (chars (SCHEDMISS_PREFIX +:+ ".")) (chars key); '(i, _) ← scan_d l; Some (u32 i).

(** What is behind the last dot. *)
Fixpoint after_last_dot (l : list ascii) : option (list ascii) :=
  match l with
  | [] => None
  | c :: l => match after_last_dot l with Some r => Some r | None => if is_code 46 c then Some l else None end
  end.

Definition starts_with (key prefix : string) : bool := strncmp_eq (length (chars prefix)) key prefix.

(** ** Reading *)

(** [stat_array]: [None] for [NULL]; [value]: a buffer is given. *)
Definition stats_map_set_value (conv : cs_stats_conv) (stat_array : option area) (value : bool) : option get_result :=
  len ← (match cv_value_type conv, stat_array with
         | ICMAP_VALUETYPE_STRING, Some a => n ← mem_strlen (a (cv_offset conv)); Some (S n)
         | t, _ => Some (icmap_get_valuetype_len t)
         end);
  bytes ← (if value then a ← stat_array; b ← mem_read (a (cv_offset conv)) len; Some (Some b) else Some None);
  Some (mk_get bytes (Some len) (Some (cv_value_type conv))).

(** A pause: without a buffer the copy is to [NULL]. *)
Definition schedmiss_get (key : string) (value : bool) (s : stats) : option (Z * get_result) :=
  match scan_schedmiss_key key, after_last_dot (chars key) with
  | Some i, Some t =>
      let field n v ty := if value : bool then Some (CS_OK, mk_get (Some (le_bytes n v)) (Some n) (Some ty)) else None in
      if strcmp_eq (str t) "timestamp" then e ← schedmiss_event s !! Z.to_nat i; field 8%nat (sm_timestamp e) ICMAP_VALUETYPE_UINT64
      else if strcmp_eq (str t) "delay" then e ← schedmiss_event s !! Z.to_nat i; field 4%nat (sm_delay e) ICMAP_VALUETYPE_FLOAT
      else Some (CS_OK, mk_get None None None)
  | _, _ => Some (CS_ERR_NOT_EXIST, mk_get None None None)
  end.

Definition stats_map_get (env : stats_env) (key_name : string) (value : bool) (s : stats) : option (Z * get_result) :=
  let none res := Some (res, mk_get None None None) in
  match stats_map s !! key_name with
  | None => none CS_ERR_NOT_EXIST
  | Some conv =>
      let from a := g ← stats_map_set_value conv (Some a) value; Some (CS_OK, g) in
      match cv_type conv with
      | STAT_PG => from (se_pg env)
      | STAT_SRP => from (se_srp env)
      | STAT_KNET_HANDLE => match se_knet_handle env with inl res => none res | inr a => from a end
      | STAT_KNET =>
          match scan_knet_key key_name with
          | None => none CS_ERR_NOT_EXIST
          | Some (nodeid, link) =>
              if (nodeid <=? 0) || (se_max_host env <? nodeid) || (link <? 0) || (se_max_link env <? link) then none CS_ERR_NOT_EXIST
              else match se_knet_link env (u16 nodeid) (u8 link) with inl _ => none CS_ERR_LIBRARY | inr a => from a end
          end
      | STAT_IPCSC =>
          match scan_ipcs_key key_name with
          | None => none CS_ERR_NOT_EXIST
          | Some (service, pid, ptr) => match se_ipcs_conn env service pid ptr with inl res => none res | inr a => from a end
          end
      | STAT_IPCSG => from (se_ipcs_global env)
      | STAT_SCHEDMISS => schedmiss_get key_name value s
      end
  end.

(** A result in a buffer of [n] bytes. *)
Definition in_buffer (n : nat) (r : option (Z * get_result)) : option (Z * get_result) :=
  '(res, g) ← r; if Nat.leb (length (default [] (g_value g))) n then Some (res, g) else None.

Section Stats.
Context {M : Type} `{QB : qb_map M}.
(** The keys that an iteration with a prefix visits, and whether a key that is removed
    is still found by the callbacks of its removal. *)
Context (stats_pref_iter : gmap string cs_stats_conv -> string -> list string) (found_in_removal : bool).
Context (env : stats_env).

(** ** Trackers *)

(** The callback of a key that comes or goes; [seen]: the map that it reads. *)
Definition stats_map_notify_fn (event : qb_event) (key : string) (tracker : stats_tracker) (seen : stats) : option (list stats_effect) :=
  if starts_with key SCHEDMISS_PREFIX then Some []
  else
    '(res, g) ← in_buffer 64 (stats_map_get env key true seen);
    Some (if res =? CS_OK then [StatsNotify (icmap_qbtt_to_tt event) key g g (st_user_data tracker)] else []).

Fixpoint stats_callbacks (event : qb_event) (key : string) (ns : list qb_notifier) (seen : stats) : option (list stats_effect) :=
  match ns with
  | [] => Some []
  | n :: ns =>
      '(_, (_, tr)) ← list_find (fun x => fst x = no_data n) (stats_tracker_list seen);
      o ← stats_map_notify_fn event key tr seen;
      o' ← stats_callbacks event key ns seen; Some (o ++ o')%list
  end.

(** The trackers that libqb calls for an event. *)
Definition stats_notify (event : qb_event) (key : string) (seen s : stats) : option stats :=
  o ← stats_callbacks event key (qb_map_notified (M:=M) (stats_notifiers s) key event) seen;
  Some (s <| st_out ::= fun l => l ++ o |>)%list.

Definition stats_add_entry (key : string) (cs_conv : cs_stats_conv) (s : stats) : option stats :=
  let s' := s <| stats_map ::= <[key := cs_conv]> |> in
  stats_notify (match stats_map s !! key with None => QbInserted | Some _ => QbReplaced end) key s' s'.

Definition stats_rm_entry (key : string) (s : stats) : option stats :=
  match stats_map s !! key with
  | None => Some s
  | Some _ => let s' := s <| stats_map ::= delete key |> in stats_notify QbDeleted key (if found_in_removal then s else s') s'
  end.

Fixpoint add_entries (prefix : string) (l : list cs_stats_conv) (s : stats) : option stats :=
  match l with [] => Some s | c :: l => s ← stats_add_entry (prefix +:+ cv_name c) c s; add_entries prefix l s end.
Fixpoint rm_entries (prefix : string) (l : list cs_stats_conv) (s : stats) : option stats :=
  match l with [] => Some s | c :: l => s ← stats_rm_entry (prefix +:+ cv_name c) s; rm_entries prefix l s end.

(** [err]: the result of [qb_map_notify_add]. *)
Definition stats_map_init (err : Z) (s : stats) : option (Z * stats) :=
  s ← add_entries "stats.pg." cs_pg_stats (s <| stats_map := ∅ |> <| stats_notifiers := [] |>);
  s ← add_entries "stats.srp." cs_srp_stats s;
  s ← add_entries "stats.ipcs." cs_ipcs_global_stats s;
  Some (qb_to_cs_error err, s).

(** ** Pauses *)

Definition schedmiss_key (i : nat) (name : string) : string := SCHEDMISS_PREFIX +:+ "." +:+ pretty (Z.of_nat i) +:+ "." +:+ name.

Fixpoint schedmiss_rm (l : list nat) (s : stats) : option stats :=
  match l with
  | [] => Some s
  | i :: l => s ← stats_rm_entry (schedmiss_key i "timestamp") s; s ← stats_rm_entry (schedmiss_key i "delay") s; schedmiss_rm l s
  end.

Definition schedmiss_clear_stats (s : stats) : option stats :=
  s ← schedmiss_rm (seq 0 (Nat.min MAX_SCHEDMISS_EVENTS (highest_schedmiss_event s))) s;
  Some (s <| schedmiss_event := repeat no_schedmiss MAX_SCHEDMISS_EVENTS |> <| highest_schedmiss_event := 0%nat |>).

Definition stats_add_schedmiss_event (timestamp delay : Z) (s : stats) : option stats :=
  let s := s <| schedmiss_event ::= fun l => take MAX_SCHEDMISS_EVENTS (mk_schedmiss timestamp delay :: l) |> in
  let n := highest_schedmiss_event s in
  if Nat.ltb n MAX_SCHEDMISS_EVENTS then
    s ← stats_add_entry (schedmiss_key n "timestamp") (nth 0 cs_schedmiss_stats (mk_conv STAT_SCHEDMISS "" "" ICMAP_VALUETYPE_UINT64)) s;
    s ← stats_add_entry (schedmiss_key n "delay") (nth 1 cs_schedmiss_stats (mk_conv STAT_SCHEDMISS "" "" ICMAP_VALUETYPE_UINT64)) s;
    Some (s <| highest_schedmiss_event := S n |>)
  else Some s.

(** ** The operations of the map *)

Definition stats_emit (e : stats_effect) (s : stats) : stats := s <| st_out ::= fun o => o ++ [e] |>%list.

(** A value only clears counters: those of the part that the key names. *)
Definition stats_map_set (key_name : string) (s : stats) : option (Z * stats) :=
  let names p := starts_with key_name p in
  let s := if names STATS_CLEAR_KNET then stats_emit (TotempgStatsClear TOTEMPG_STATS_CLEAR_TRANSPORT) s else s in
  let s := if names STATS_CLEAR_IPC then stats_emit IpcsClearStats s else s in
  let s := if names STATS_CLEAR_TOTEM then stats_emit (TotempgStatsClear TOTEMPG_STATS_CLEAR_TOTEM) s else s in
  s ← (if names STATS_CLEAR_SCHEDMISS then schedmiss_clear_stats s else Some s);
  s ← (if names STATS_CLEAR_ALL
       then schedmiss_clear_stats (stats_emit IpcsClearStats
              (stats_emit (TotempgStatsClear (Z.lor TOTEMPG_STATS_CLEAR_TRANSPORT TOTEMPG_STATS_CLEAR_TOTEM)) s))
       else Some s);
  Some (if names STATS_CLEAR_KNET || names STATS_CLEAR_IPC || names STATS_CLEAR_TOTEM || names STATS_CLEAR_SCHEDMISS || names STATS_CLEAR_ALL
        then CS_OK else CS_ERR_NOT_SUPPORTED, s).

Definition stats_map_adjust_int (key_name : string) (step : Z) : Z := CS_ERR_NOT_SUPPORTED.
Definition stats_map_delete (key_name : string) : Z := CS_ERR_NOT_SUPPORTED.
Definition stats_map_is_key_ro (key_name : string) : bool := negb (starts_with key_name STATS_CLEAR).

Definition stats_map_iter_init (prefix : option string) (s : stats) : list string := stats_pref_iter (stats_map s) (default "" prefix).
(** The next key with the length and type of its value, and the rest. *)
Definition stats_map_iter_next (iter : list string) (s : stats) : option (string * nat * icmap_value_types_t * list string) :=
  match iter with
  | [] => None
  | k :: iter =>
      c ← stats_map s !! k; g ← stats_map_set_value c None false;
      len ← g_value_len g; type ← g_type g; Some (k, len, type, iter)
  end.

(** The first [n] bytes of [old] become those of [new]. *)
Definition overwrite (new old : list Z) : list Z := (new ++ drop (length new) old)%list.

(** One tracker: it is told when the value it last saw has changed; both values of the
    callback are the new one. *)
Definition trigger_tracker (tracker : stats_tracker) (s : stats) : option (stats_tracker * list stats_effect) :=
  match st_key_name tracker with
  | Some key =>
      if has_flag (st_events tracker) ICMAP_TRACK_PREFIX then Some (tracker, [])
      else
        '(res, g) ← in_buffer 8 (stats_map_get env key true s);
        let v := default [] (g_value g) in
        if (res =? CS_OK) && negb (bool_decide (v = take (length v) (st_old_value tracker)))
        then Some (tracker <| st_old_value ::= overwrite v |>, [StatsNotify ICMAP_TRACK_MODIFY key g g (st_user_data tracker)])
        else Some (tracker, [])
  | None => Some (tracker, [])
  end.

Fixpoint trigger_trackers (l : list (Z * stats_tracker)) (s : stats) : option (list (Z * stats_tracker) * list stats_effect) :=
  match l with
  | [] => Some ([], [])
  | (a, t) :: l => '(t, o) ← trigger_tracker t s; '(l, o') ← trigger_trackers l s; Some ((a, t) :: l, o ++ o')%list
  end.

Definition stats_trigger_trackers (s : stats) : option stats :=
  '(l, o) ← trigger_trackers (stats_tracker_list s) s;
  Some (s <| stats_tracker_list := l |> <| st_out ::= fun out => out ++ o |>)%list.

(** [addr]: the allocated tracker; [memory]: the bytes that [old_value] has then; [err]:
    the result of [qb_map_notify_add]. *)
Definition stats_map_track_add (key_name : option string) (track_type user_data addr : Z) (memory : list Z) (err : Z) (s : stats)
    : option (Z * stats) :=
  if has_flag track_type ICMAP_TRACK_PREFIX && (negb (has_flag track_type ICMAP_TRACK_DELETE) || negb (has_flag track_type ICMAP_TRACK_ADD))
  then Some (CS_ERR_NOT_SUPPORTED, s)
  else
    old ← (match key_name with
           | Some key =>
               '(res, g) ← in_buffer 8 (stats_map_get env key true s);
               Some (if res =? CS_OK then overwrite (default [] (g_value g)) memory else repeat 0 8)
           | None => Some (repeat 0 8)
           end);
    let notified := has_flag track_type ICMAP_TRACK_ADD || has_flag track_type ICMAP_TRACK_DELETE in
    if notified && negb (err =? 0) then Some (qb_to_cs_error err, s)
    else
      let s := if notified then s <| stats_notifiers ::= fun l => (l ++ [mk_notifier key_name (icmap_tt_to_qbtt track_type) addr])%list |> else s in
      Some (CS_OK, s <| stats_tracker_list ::= cons (addr, mk_stats_tracker key_name user_data track_type old) |>).

(** [err]: the result of [qb_map_notify_del_2]; an error is only logged. *)
Definition stats_map_track_delete (track err : Z) (s : stats) : option (Z * stats) :=
  '(_, (_, tr)) ← list_find (fun x => fst x = track) (stats_tracker_list s);
  let s := if (has_flag (st_events tr) ICMAP_TRACK_ADD || has_flag (st_events tr) ICMAP_TRACK_DELETE) && (err =? 0)
           then s <| stats_notifiers ::= List.filter (fun n =>
                  negb (bool_decide (n = mk_notifier (st_key_name tr) (icmap_tt_to_qbtt (st_events tr)) track))) |>
           else s in
  Some (CS_OK, s <| stats_tracker_list ::= List.filter (fun x => negb (fst x =? track)) |>).

Definition stats_map_track_get_user_data (track : Z) (s : stats) : option Z :=
  '(_, (_, tr)) ← list_find (fun x => fst x = track) (stats_tracker_list s); Some (st_user_data tr).

(** ** The keys of nodes and connections *)

Definition knet_prefix (nodeid link_no : Z) : string := "stats.knet.node" +:+ pretty nodeid +:+ ".link" +:+ pretty link_no +:+ ".".
Definition stats_knet_add_member (nodeid link_no : Z) (s : stats) : option stats := add_entries (knet_prefix nodeid link_no) cs_knet_stats s.
Definition stats_knet_del_member (nodeid link_no : Z) (s : stats) : option stats := rm_entries (knet_prefix nodeid link_no) cs_knet_stats s.
Definition stats_knet_add_handle (s : stats) : option stats := add_entries "stats.knet.handle." cs_knet_handle_stats s.

Definition ipcs_prefix (service_id pid ptr : Z) : string :=
  "stats.ipcs.service" +:+ pretty service_id +:+ "." +:+ pretty (s32 pid) +:+ "." +:+ print_p ptr +:+ ".".
Definition stats_ipcs_add_connection (service_id pid ptr : Z) (s : stats) : option stats :=
  add_entries (ipcs_prefix service_id pid ptr) cs_ipcs_conn_stats s.
Definition stats_ipcs_del_connection (service_id pid ptr : Z) (s : stats) : option stats :=
  rm_entries (ipcs_prefix service_id pid ptr) cs_ipcs_conn_stats s.

End Stats.
