(* ===== verification/Cmap.v ===== *)
(** * The configuration map service (exec/cmap.c)

    Clients read and change one of two maps, the configuration map or the statistics,
    iterate through it and track its keys; the nodes tell each other the version of
    their configuration, and a node that joins with an older one than the others goes
    down.

    The messages between nodes are bytes.  The private data of a connection is an entry
    of [cm_conns], the data of a tracker one of [cm_user_data]: access to what was freed
    is [None].  The databases of handles are maps; the handle or error that creating one
    returns is an argument, as are the addresses of what is allocated. *)
From S2P Require Import Prelude CString VoteQuorumExec Cpg Icmap Util Stats.
From stdpp Require Import pretty.

Local Open Scope Z_scope.

Definition MAX_REQ_EXEC_CMAP_MCAST_ITEMS : nat := 32.
Definition ICMAP_VALUETYPE_NOT_EXIST : Z := 0.
Definition CMAP_MCAST_REASON_SYNC : Z := 0.
Definition CMAP_MCAST_REASON_NEW_CONFIG_VERSION : Z := 1.
Definition CMAP_SETMAP_DEFAULT : Z := 0.
Definition CMAP_SETMAP_STATS : Z := 1.
Definition CS_ERR_TOO_MANY_GROUPS : Z := 30.
Definition CONFIG_VERSION : string := "totem.config_version".

(** The numbers of the types. *)
Definition type_code (t : icmap_value_types_t) : Z :=
  match t with
  | ICMAP_VALUETYPE_INT8 => 1 | ICMAP_VALUETYPE_UINT8 => 2 | ICMAP_VALUETYPE_INT16 => 3 | ICMAP_VALUETYPE_UINT16 => 4
  | ICMAP_VALUETYPE_INT32 => 5 | ICMAP_VALUETYPE_UINT32 => 6 | ICMAP_VALUETYPE_INT64 => 7 | ICMAP_VALUETYPE_UINT64 => 8
  | ICMAP_VALUETYPE_FLOAT => 9 | ICMAP_VALUETYPE_DOUBLE => 10 | ICMAP_VALUETYPE_STRING => 11 | ICMAP_VALUETYPE_BINARY => 12
  end.

(** ** Messages *)

(** [struct req_exec_cmap_mcast_item]: the length of the key at 0 and its bytes at 8,
    the type at 264, the length of the value at 272 and the value at 280. *)
Definition KEY_AT : nat := 8.
Definition TYPE_AT : nat := 264.
Definition LEN_AT : nat := 272.
Definition ITEM_SIZE : nat := 280.

(** The next multiple; [size] is a power of two. *)
Definition MAR_ALIGN_UP (n size : nat) : nat := ((n + (size - 1)) / size * size)%nat.

Definition pad (n : nat) (l : list Z) : list Z := l ++ repeat 0 (n - length l).

(** An item as [cmap_mcast_send] fills it in. *)
Definition mcast_item (key : string) (type value_len : Z) (value : list Z) : list Z :=
  pad KEY_AT (le_bytes 2 (strlen key)) ++ pad CS_MAX_NAME_LENGTH (bytes_of_string key) ++ pad 8 [type] ++ le_bytes 8 value_len
  ++ pad (MAR_ALIGN_UP (ITEM_SIZE + Z.to_nat value_len) 8 - ITEM_SIZE) value.

(** [mm_items]: the items one behind the other. *)
Record req_exec_cmap_mcast := mk_cmap_mcast { mm_reason : Z; mm_no_items : Z; mm_items : list Z }.

Definition item_key_length (p : list Z) : Z := le_value (take 2 p).
Definition item_type (p : list Z) : Z := default 0 (p !! TYPE_AT).
Definition item_value_len (p : list Z) : Z := le_value (take 8 (drop LEN_AT p)).
Definition item_size (p : list Z) : nat := MAR_ALIGN_UP (ITEM_SIZE + Z.to_nat (item_value_len p)) 8.

(** Both lengths are compared before the bytes up to the terminator. *)
Definition item_is (key : string) (p : list Z) : bool :=
  (strlen key =? item_key_length p) && bool_decide (take (S (length (chars key))) (drop KEY_AT p) = bytes_of_string key ++ [0]).

(** [None]: an item that the message does not have is read. *)
Fixpoint item_find (n : nat) (key : string) (p : list Z) : option (option (list Z)) :=
  match n with
  | O => Some None
  | S n => if Nat.ltb (length p) ITEM_SIZE then None
           else if item_is key p then Some (Some p) else item_find n key (drop (item_size p) p)
  end.
Definition cmap_mcast_item_find (m : req_exec_cmap_mcast) (key : string) : option (option (list Z)) :=
  item_find (Z.to_nat (mm_no_items m)) key (mm_items m).

(** The [n] bytes at [i] in the other order. *)
Definition swab_at (i n : nat) (p : list Z) : list Z := take i p ++ rev (take n (drop i p)) ++ drop (i + n) p.

(** How many bytes of a value change their order. *)
Definition swab_width (type : Z) : nat :=
  if (type =? 3) || (type =? 4) then 2
  else if (type =? 5) || (type =? 6) then 4
  else if (type =? 7) || (type =? 8) then 8
  else if type =? 9 then 4 else if type =? 10 then 8 else 0.

Fixpoint items_convert (n : nat) (p : list Z) : option (list Z) :=
  match n with
  | O => Some p
  | S n =>
      if Nat.ltb (length p) ITEM_SIZE then None
      else
        let p := swab_at LEN_AT 8 (swab_at 0 2 p) in
        let w := swab_width (item_type p) in
        if Nat.ltb (length p) (ITEM_SIZE + w) then None
        else
          let p := swab_at ITEM_SIZE w p in
          rest ← items_convert n (drop (item_size p) p); Some (take (item_size p) p ++ rest)
  end.
(** The header is converted too; its id and size are not part of the model. *)
Definition exec_cmap_mcast_endian_convert (m : req_exec_cmap_mcast) : option req_exec_cmap_mcast :=
  items ← items_convert (Z.to_nat (mm_no_items m)) (mm_items m); Some (mk_cmap_mcast (mm_reason m) (mm_no_items m) items).

(** ** State *)

(** The tables of functions of the two maps are known by their names. *)
Inductive cmap_map := icmap_map | stats_map_fns.
#[export] Instance cmap_map_eq : EqDecision cmap_map.
Proof. solve_decision. Defined.

(** An iterator: its prefix and the last key it visited. *)
Record cmap_iter := mk_iter { it_prefix : string; it_passed : option string }.

Record cmap_conn_info := mk_conn_info { iter_db : gmap Z cmap_iter; track_db : gmap Z Z; map_fns : cmap_map }.
#[export] Instance cmap_conn_info_eta : Etable cmap_conn_info := fun c => mk_conn_info (iter_db c) (track_db c) (map_fns c).

Record cmap_track_user_data := mk_user_data { ud_conn : Z; ud_track_handle : Z; ud_track_inst_handle : Z }.

Inductive cmap_effect :=
| ResCmapSet (conn error : Z)
| ResCmapDelete (conn error : Z)
| ResCmapGet (conn error : Z) (g : option get_result)
| ResCmapAdjustInt (conn error : Z)
| ResCmapIterInit (conn error handle : Z)
| ResCmapIterNext (conn error : Z) (key : option (string * nat * icmap_value_types_t))
| ResCmapIterFinalize (conn error : Z)
| ResCmapTrackAdd (conn error handle : Z)
| ResCmapTrackDelete (conn error inst : Z)
| ResCmapSetCurrentMap (conn error : Z)
(** to the client, with the values after and before *)
| CmapNotifyCallback (conn inst event : Z) (key : string) (new_value old_value : option icmap_notify_value)
| CmapMcast (m : req_exec_cmap_mcast)
| CmapShutdownRequest
| CmapRefcntInc (conn : Z)
| CmapRefcntDec (conn : Z).

Record cmap (M : Type) := mk_cmap {
  cm_icmap : icmap M;
  cm_stats : stats;
  cm_conns : gmap Z cmap_conn_info;
  (** what [cmap_track_user_data] points to, and the trackers that call [cmap_notify_fn] *)
  cm_user_data : gmap Z cmap_track_user_data;
  cm_tracks : list Z;
  cmap_sync_trans_list_entries : Z;
  cmap_sync_member_list_entries : Z;
  cmap_highest_config_version_received : Z;
  cmap_my_config_version : Z;
  cmap_first_sync : Z;
  cmap_config_version_track : Z;
  cm_out : list cmap_effect
}.
Arguments mk_cmap {M}.
Arguments cm_icmap {M}.
Arguments cm_stats {M}.
Arguments cm_conns {M}.
Arguments cm_user_data {M}.
Arguments cm_tracks {M}.
Arguments cmap_sync_trans_list_entries {M}.
Arguments cmap_sync_member_list_entries {M}.
Arguments cmap_highest_config_version_received {M}.
Arguments cmap_my_config_version {M}.
Arguments cmap_first_sync {M}.
Arguments cmap_config_version_track {M}.
Arguments cm_out {M}.
#[export] Instance cmap_eta {M} : Etable (cmap M) := fun s =>
  mk_cmap (cm_icmap s) (cm_stats s) (cm_conns s) (cm_user_data s) (cm_tracks s) (cmap_sync_trans_list_entries s)
    (cmap_sync_member_list_entries s) (cmap_highest_config_version_received s) (cmap_my_config_version s) (cmap_first_sync s)
    (cmap_config_version_track s) (cm_out s).

Definition cmap_zero {M} (m : icmap M) (st : stats) : cmap M := mk_cmap m st ∅ ∅ [] 0 0 0 0 1 0 [].
Definition cmap_emit {M} (e : cmap_effect) (s : cmap M) : cmap M := s <| cm_out ::= fun o => o ++ [e] |>.

Section Service.
Context {M : Type} `{QB : qb_map M}.
Context (stats_pref_iter : gmap string cs_stats_conv -> string -> list string) (found_in_removal : bool) (env : stats_env).
(** The own node id, whether a message could be queued, and the results of
    [qb_map_notify_del_2] by tracker. *)
Context (totem_nodeid_get : Z) (totem_mcast : req_exec_cmap_mcast -> Z) (notify_del : Z -> Z).

(** ** Messages to the nodes *)

(** The items of some keys of the map, or an error. *)
Fixpoint mcast_items (argv : list string) (m : icmap M) : option (Z + list Z) :=
  match argv with
  | [] => Some (inr [])
  | key :: argv =>
      '(err, g) ← icmap_get (Some key) false (Some 0%nat) m;
      if negb (err =? CS_OK) && negb (err =? CS_ERR_NOT_EXIST) then Some (inl err)
      else if Nat.leb CS_MAX_NAME_LENGTH (length (chars key)) then None
      else
        item ← (if err =? CS_ERR_NOT_EXIST then Some (inr (mcast_item key ICMAP_VALUETYPE_NOT_EXIST 0 []))
                else
                  t ← g_type g; n ← g_value_len g;
                  '(err, g) ← icmap_get (Some key) true (Some n) m;
                  if negb (err =? CS_OK) then Some (inl err)
                  else v ← g_value g; Some (inr (mcast_item key (type_code t) (Z.of_nat n) v)));
        match item with
        | inl err => Some (inl err)
        | inr item =>
            rest ← mcast_items argv m;
            Some (match rest with inl err => inl err | inr rest => inr (item ++ rest) end)
        end
  end.

(** [seen]: the map as it is read. *)
Definition cmap_mcast_send (reason : Z) (argv : list string) (seen : icmap M) (s : cmap M) : option (Z * cmap M) :=
  if Nat.ltb MAX_REQ_EXEC_CMAP_MCAST_ITEMS (length argv) then Some (CS_ERR_TOO_MANY_GROUPS, s)
  else
    items ← mcast_items argv seen;
    match items with
    | inl err => Some (err, s)
    | inr items =>
        let m := mk_cmap_mcast reason (Z.of_nat (length argv)) items in
        Some (if totem_mcast m =? 0 then (CS_OK, cmap_emit (CmapMcast m) s) else (CS_ERR_MESSAGE_ERROR, s))
    end.

Definition read_config_version (m : icmap M) : option Z :=
  '(err, v) ← icmap_get_uint64 CONFIG_VERSION m; Some (if err =? CS_OK then default 0 v else 0).

(** ** Callbacks of the maps *)

Definition cmap_config_version_track_cb (seen : icmap M) (s : cmap M) : option (cmap M) :=
  v ← read_config_version seen;
  '(_, s) ← cmap_mcast_send CMAP_MCAST_REASON_NEW_CONFIG_VERSION [CONFIG_VERSION] seen (s <| cmap_my_config_version := v |>);
  Some s.

Definition cmap_notify_fn (event : Z) (key_name : string) (new_val old_val : option icmap_notify_value) (user_data : Z) (s : cmap M) : option (cmap M) :=
  d ← cm_user_data s !! user_data;
  if Nat.leb (length (chars key_name)) CS_MAX_NAME_LENGTH
  then Some (cmap_emit (CmapNotifyCallback (ud_conn d) (ud_track_inst_handle d) event key_name new_val old_val) s) else None.

(** The callbacks of other components do not change this one. *)
Definition icmap_callback (seen : icmap M) (e : icmap_effect) (s : cmap M) : option (cmap M) :=
  let '(IcmapNotify track event key new_val old_val user_data) := e in
  if track =? cmap_config_version_track s then cmap_config_version_track_cb seen s
  else if bool_decide (track ∈ cm_tracks s) then cmap_notify_fn event key new_val old_val user_data s
  else Some s.

Fixpoint icmap_callbacks (seen : icmap M) (l : list icmap_effect) (s : cmap M) : option (cmap M) :=
  match l with [] => Some s | e :: l => s ← icmap_callback seen e s; icmap_callbacks seen l s end.

(** The map is changed and its callbacks are run; [seen]: the map that they read. *)
Definition icmap_changed (seen m' : icmap M) (s : cmap M) : option (cmap M) :=
  icmap_callbacks seen (drop (length (ic_out (cm_icmap s))) (ic_out m')) (s <| cm_icmap := m' |>).

Definition stats_value (g : get_result) : option icmap_notify_value :=
  t ← g_type g; v ← g_value g; Some (mk_notify_value t v).

Definition stats_callback (e : stats_effect) (s : cmap M) : option (cmap M) :=
  match e with
  | StatsNotify event key new_val old_val user_data => cmap_notify_fn event key (stats_value new_val) (stats_value old_val) user_data s
  | _ => Some s
  end.

Fixpoint stats_callbacks_run (l : list stats_effect) (s : cmap M) : option (cmap M) :=
  match l with [] => Some s | e :: l => s ← stats_callback e s; stats_callbacks_run l s end.

Definition stats_changed (st' : stats) (s : cmap M) : option (cmap M) :=
  stats_callbacks_run (drop (length (st_out (cm_stats s))) (st_out st')) (s <| cm_stats := st' |>).

(** ** Start and connections *)

(** [addr], [err]: the tracker and the result of [qb_map_notify_add]. *)
Definition cmap_exec_init_fn (addr err : Z) (s : cmap M) : bool * cmap M :=
  let '(ret, m) := icmap_track_add (Some CONFIG_VERSION) (Z.lor (Z.lor ICMAP_TRACK_ADD ICMAP_TRACK_DELETE) ICMAP_TRACK_MODIFY) 0 addr err (cm_icmap s) in
  let s := s <| cm_icmap := m |> in
  if ret =? CS_OK then (true, s <| cmap_config_version_track := addr |>) else (false, s).

Definition cmap_exec_exit_fn (s : cmap M) : option (cmap M) :=
  '(_, m) ← icmap_track_delete (cmap_config_version_track s) (notify_del (cmap_config_version_track s)) (cm_icmap s);
  Some (s <| cm_icmap := m |>).

Definition cmap_lib_init_fn (conn : Z) (s : cmap M) : cmap M :=
  cmap_emit (CmapRefcntInc conn) s <| cm_conns ::= <[conn := mk_conn_info ∅ ∅ icmap_map]> |>.

Definition free_user_data (u : Z) (s : cmap M) : cmap M := s <| cm_user_data ::= delete u |>.

Definition map_track_get_user_data (fns : cmap_map) (track : Z) (s : cmap M) : option Z :=
  match fns with icmap_map => icmap_track_get_user_data track (cm_icmap s) | stats_map_fns => stats_map_track_get_user_data track (cm_stats s) end.

Definition map_track_delete (fns : cmap_map) (track : Z) (s : cmap M) : option (Z * cmap M) :=
  match fns with
  | icmap_map => '(ret, m) ← icmap_track_delete track (notify_del track) (cm_icmap s);
                 Some (ret, s <| cm_icmap := m |> <| cm_tracks ::= if ret =? CS_OK then List.filter (fun t => negb (t =? track)) else id |>)
  | stats_map_fns => '(ret, st) ← stats_map_track_delete track (notify_del track) (cm_stats s); Some (ret, s <| cm_stats := st |>)
  end.

(** The trackers of a connection with their data. *)
Fixpoint delete_tracks (fns : cmap_map) (l : list (Z * Z)) (s : cmap M) : option (cmap M) :=
  match l with
  | [] => Some s
  | (_, track) :: l =>
      u ← map_track_get_user_data fns track s;
      '(_, s) ← map_track_delete fns track (free_user_data u s);
      delete_tracks fns l s
  end.

Definition cmap_lib_exit_fn (conn : Z) (s : cmap M) : option (cmap M) :=
  c ← cm_conns s !! conn;
  s ← delete_tracks (map_fns c) (map_to_list (track_db c)) s;
  Some (cmap_emit (CmapRefcntDec conn) s <| cm_conns ::= delete conn |>).

(** ** Versions of the configuration *)

Definition cmap_sync_init (trans_list_entries member_list_entries : Z) (s : cmap M) : option (cmap M) :=
  v ← read_config_version (cm_icmap s);
  Some (s <| cmap_sync_trans_list_entries := trans_list_entries |> <| cmap_sync_member_list_entries := member_list_entries |>
          <| cmap_my_config_version := v |> <| cmap_highest_config_version_received := v |>).

Definition cmap_sync_process (s : cmap M) : option (Z * cmap M) :=
  '(ret, s) ← cmap_mcast_send CMAP_MCAST_REASON_SYNC [CONFIG_VERSION] (cm_icmap s) s;
  Some (if ret =? CS_OK then 0 else -1, s).

Definition cmap_sync_activate (s : cmap M) : cmap M :=
  if cmap_sync_trans_list_entries s =? 0 then s
  else if negb (cmap_first_sync s =? 1) then s
  else
    let s := s <| cmap_first_sync := 0 |> in
    if cmap_my_config_version s =? 0 then s
    else if negb (cmap_highest_config_version_received s =? cmap_my_config_version s) then cmap_emit CmapShutdownRequest s
    else s.

Definition cmap_sync_abort (s : cmap M) : cmap M := s.

(** The version that a message carries; a value of more than eight bytes overruns it. *)
Definition message_config_version (m : req_exec_cmap_mcast) : option Z :=
  item ← cmap_mcast_item_find m CONFIG_VERSION;
  match item with
  | None => Some 0
  | Some p =>
      if item_type p =? type_code ICMAP_VALUETYPE_UINT64 then
        let n := Z.to_nat (item_value_len p) in
        if Nat.leb n 8 then v ← mem_read (drop ITEM_SIZE p) n; Some (le_value v) else None
      else Some 0
  end.

Definition member_version_key (nodeid : Z) : string :=
  snprintf ICMAP_KEYNAME_MAXLEN ("runtime.members." +:+ pretty nodeid +:+ ".config_version").

Definition message_handler_req_exec_cmap_mcast_reason_sync_nv (m : req_exec_cmap_mcast) (nodeid : Z) (s : cmap M) : option (cmap M) :=
  v ← message_config_version m;
  let s := if negb (nodeid =? totem_nodeid_get) && (cmap_highest_config_version_received s <? v)
           then s <| cmap_highest_config_version_received := v |> else s in
  '(_, m') ← icmap_set_uint64 (member_version_key nodeid) v (cm_icmap s);
  icmap_changed m' m' s.

Definition message_handler_req_exec_cmap_mcast (m : req_exec_cmap_mcast) (nodeid : Z) (s : cmap M) : option (cmap M) :=
  if (mm_reason m =? CMAP_MCAST_REASON_SYNC) || (mm_reason m =? CMAP_MCAST_REASON_NEW_CONFIG_VERSION)
  then message_handler_req_exec_cmap_mcast_reason_sync_nv m nodeid s else Some s.

(** ** Requests of clients *)

Definition map_is_key_ro (fns : cmap_map) (key : string) (s : cmap M) : bool :=
  match fns with icmap_map => icmap_is_key_ro key (cm_icmap s) | stats_map_fns => stats_map_is_key_ro key end.

(** [value]: the bytes of the request from the value on. *)
Definition map_set (fns : cmap_map) (key : string) (value : list Z) (value_len : nat) (type : icmap_value_types_t) (s : cmap M) : option (Z * cmap M) :=
  match fns with
  | icmap_map => '(ret, m') ← icmap_set (Some key) (Some value) value_len type (cm_icmap s); s ← icmap_changed m' m' s; Some (ret, s)
  | stats_map_fns => '(ret, st) ← stats_map_set (M:=M) found_in_removal env key (cm_stats s); s ← stats_changed st s; Some (ret, s)
  end.

Definition map_delete (fns : cmap_map) (key : string) (s : cmap M) : option (Z * cmap M) :=
  match fns with
  | icmap_map => '(ret, m') ← icmap_delete (Some key) (cm_icmap s);
                 s ← icmap_changed (if found_in_removal then cm_icmap s else m') m' s; Some (ret, s)
  | stats_map_fns => Some (stats_map_delete key, s)
  end.

Definition map_adjust_int (fns : cmap_map) (key : string) (step : Z) (s : cmap M) : option (Z * cmap M) :=
  match fns with
  | icmap_map => '(ret, m') ← icmap_adjust_int (Some key) step (cm_icmap s); s ← icmap_changed m' m' s; Some (ret, s)
  | stats_map_fns => Some (stats_map_adjust_int key step, s)
  end.

Definition message_handler_req_lib_cmap_set (conn : Z) (key : string) (value : list Z) (value_len : nat) (type : icmap_value_types_t) (s : cmap M) : option (cmap M) :=
  c ← cm_conns s !! conn;
  '(ret, s) ← (if map_is_key_ro (map_fns c) key s then Some (CS_ERR_ACCESS, s) else map_set (map_fns c) key value value_len type s);
  Some (cmap_emit (ResCmapSet conn ret) s).

Definition message_handler_req_lib_cmap_delete (conn : Z) (key : string) (s : cmap M) : option (cmap M) :=
  c ← cm_conns s !! conn;
  '(ret, s) ← (if map_is_key_ro (map_fns c) key s then Some (CS_ERR_ACCESS, s) else map_delete (map_fns c) key s);
  Some (cmap_emit (ResCmapDelete conn ret) s).

(** The buffer of the answer has the length that the client asks for. *)
Definition message_handler_req_lib_cmap_get (conn : Z) (key : string) (value_len : nat) (s : cmap M) : option (cmap M) :=
  c ← cm_conns s !! conn;
  let value := Nat.ltb 0 value_len in
  '(ret, g) ← in_buffer value_len (match map_fns c with
                              | icmap_map => icmap_get (Some key) value (Some value_len) (cm_icmap s)
                              | stats_map_fns => stats_map_get env key value (cm_stats s)
                              end);
  Some (cmap_emit (ResCmapGet conn ret (if ret =? CS_OK then Some g else None)) s).

Definition message_handler_req_lib_cmap_adjust_int (conn : Z) (key : string) (step : Z) (s : cmap M) : option (cmap M) :=
  c ← cm_conns s !! conn;
  '(ret, s) ← (if map_is_key_ro (map_fns c) key s then Some (CS_ERR_ACCESS, s) else map_adjust_int (map_fns c) key step s);
  Some (cmap_emit (ResCmapAdjustInt conn ret) s).

Definition upd_conn (conn : Z) (f : cmap_conn_info -> cmap_conn_info) (s : cmap M) : cmap M := s <| cm_conns ::= alter f conn |>.

(** [prefix]: the empty one when its length is 0; [created]: the result of [hdb_handle_create]. *)
Definition message_handler_req_lib_cmap_iter_init (conn : Z) (prefix : string) (created : Z + Z) (s : cmap M) : option (cmap M) :=
  cm_conns s !! conn ≫= fun _ =>
  Some (match created with
        | inl res => cmap_emit (ResCmapIterInit conn (hdb_error_to_cs res) 0) s
        | inr handle =>
            cmap_emit (ResCmapIterInit conn CS_OK handle) (upd_conn conn (fun c => c <| iter_db ::= <[handle := mk_iter prefix None]> |>) s)
        end).

(** The first key of the prefix behind the last one that was visited. *)
Definition next_key (it : cmap_iter) (keys : list string) : option string :=
  match it_passed it with
  | None => head keys
  | Some k => snd <$> list_find (fun k' => String.ltb k k' = true) keys
  end.

Definition map_iter_next (fns : cmap_map) (it : cmap_iter) (s : cmap M) : option (option (string * nat * icmap_value_types_t)) :=
  match fns with
  | icmap_map =>
      keys ← icmap_iter_init (Some (it_prefix it)) (cm_icmap s);
      match next_key it keys with
      | None => Some None
      | Some k => '(k, n, t, _) ← icmap_iter_next (icmap_global_map (cm_icmap s)) [k] (cm_icmap s); Some (Some (k, n, t))
      end
  | stats_map_fns =>
      match next_key it (stats_map_iter_init stats_pref_iter (Some (it_prefix it)) (cm_stats s)) with
      | None => Some None
      | Some k => '(k, n, t, _) ← stats_map_iter_next [k] (cm_stats s); Some (Some (k, n, t))
      end
  end.

Definition message_handler_req_lib_cmap_iter_next (conn handle : Z) (s : cmap M) : option (cmap M) :=
  c ← cm_conns s !! conn;
  match iter_db c !! handle with
  | None => Some (cmap_emit (ResCmapIterNext conn (hdb_error_to_cs (- EBADF)) None) s)
  | Some it =>
      r ← map_iter_next (map_fns c) it s;
      match r with
      | None => Some (cmap_emit (ResCmapIterNext conn CS_ERR_NO_SECTIONS None) s)
      | Some (k, n, t) =>
          if Nat.leb (length (chars k)) CS_MAX_NAME_LENGTH
          then Some (cmap_emit (ResCmapIterNext conn CS_OK (Some (k, n, t)))
                 (upd_conn conn (fun c => c <| iter_db ::= <[handle := mk_iter (it_prefix it) (Some k)]> |>) s))
          else None
      end
  end.

Definition message_handler_req_lib_cmap_iter_finalize (conn handle : Z) (s : cmap M) : option (cmap M) :=
  c ← cm_conns s !! conn;
  Some (match iter_db c !! handle with
        | None => cmap_emit (ResCmapIterFinalize conn (hdb_error_to_cs (- EBADF))) s
        | Some _ => cmap_emit (ResCmapIterFinalize conn CS_OK) (upd_conn conn (fun c => c <| iter_db ::= delete handle |>) s)
        end).

(** [u], [addr], [memory]: what is allocated for the data and for the tracker; [err]: the
    result of [qb_map_notify_add]. *)
Definition map_track_add (fns : cmap_map) (key_name : option string) (track_type u addr : Z) (memory : list Z) (err : Z) (s : cmap M) : option (Z * cmap M) :=
  match fns with
  | icmap_map => let '(ret, m) := icmap_track_add key_name track_type u addr err (cm_icmap s) in
                 Some (ret, s <| cm_icmap := m |> <| cm_tracks ::= if ret =? CS_OK then cons addr else id |>)
  | stats_map_fns => '(ret, st) ← stats_map_track_add env key_name track_type u addr memory err (cm_stats s); Some (ret, s <| cm_stats := st |>)
  end.

Definition message_handler_req_lib_cmap_track_add (conn : Z) (key_name : option string) (track_type inst u addr : Z) (memory : list Z)
    (err : Z) (created : Z + Z) (s : cmap M) : option (cmap M) :=
  c ← cm_conns s !! conn;
  '(ret, s) ← map_track_add (map_fns c) key_name track_type u addr memory err (s <| cm_user_data ::= <[u := mk_user_data 0 0 0]> |>);
  Some (if negb (ret =? CS_OK) then cmap_emit (ResCmapTrackAdd conn ret 0) (free_user_data u s)
        else match created with
             | inl res => cmap_emit (ResCmapTrackAdd conn (hdb_error_to_cs res) 0) (free_user_data u s)
             | inr handle =>
                 cmap_emit (ResCmapTrackAdd conn CS_OK handle)
                   (upd_conn conn (fun c => c <| track_db ::= <[handle := addr]> |>) (s <| cm_user_data ::= <[u := mk_user_data conn handle inst]> |>))
             end).

Definition message_handler_req_lib_cmap_track_delete (conn handle : Z) (s : cmap M) : option (cmap M) :=
  c ← cm_conns s !! conn;
  match track_db c !! handle with
  | None => Some (cmap_emit (ResCmapTrackDelete conn (hdb_error_to_cs (- EBADF)) 0) s)
  | Some track =>
      u ← map_track_get_user_data (map_fns c) track s;
      d ← cm_user_data s !! u;
      '(ret, s) ← map_track_delete (map_fns c) track (free_user_data u s);
      Some (cmap_emit (ResCmapTrackDelete conn ret (ud_track_inst_handle d)) (upd_conn conn (fun c => c <| track_db ::= delete handle |>) s))
  end.

Definition message_handler_req_lib_cmap_set_current_map (conn map : Z) (s : cmap M) : option (cmap M) :=
  c ← cm_conns s !! conn;
  Some (if negb (Nat.eqb (size (iter_db c) + size (track_db c)) 0) then cmap_emit (ResCmapSetCurrentMap conn CS_ERR_BUSY) s
        else if map =? CMAP_SETMAP_DEFAULT then cmap_emit (ResCmapSetCurrentMap conn CS_OK) (upd_conn conn (fun c => c <| map_fns := icmap_map |>) s)
        else if map =? CMAP_SETMAP_STATS then cmap_emit (ResCmapSetCurrentMap conn CS_OK) (upd_conn conn (fun c => c <| map_fns := stats_map_fns |>) s)
        else cmap_emit (ResCmapSetCurrentMap conn CS_ERR_NOT_EXIST) s).

End Service.
