(* ===== verification/StatsProps.v ===== *)
(** * Statistics: theorems *)
From stdpp Require Import gmap pretty.
From Stdlib Require Import Strings.HexString.
From S2P Require Import Prelude CString VoteQuorumExec Cpg Icmap IcmapTheory IcmapProps Util Coroparse CoroparseProps Stats Cmap.
Local Open Scope Z_scope.

(** ** The keys of the pauses *)

Inductive pause_field := PauseTimestamp | PauseDelay.
#[export] Instance pause_field_eq : EqDecision pause_field.
Proof. solve_decision. Defined.

Definition pause_name (f : pause_field) : string := match f with PauseTimestamp => "timestamp" | PauseDelay => "delay" end.
Definition pause_conv (f : pause_field) : cs_stats_conv :=
  match f with PauseTimestamp => mk_conv STAT_SCHEDMISS "timestamp" "timestamp" ICMAP_VALUETYPE_UINT64 | PauseDelay => mk_conv STAT_SCHEDMISS "delay" "delay" ICMAP_VALUETYPE_FLOAT end.
Definition pause_key (i : nat) (f : pause_field) : string := schedmiss_key i (pause_name f).

Definition pause_slots : list (nat * pause_field) := List.concat (List.map (fun i => [(i, PauseTimestamp); (i, PauseDelay)]) (seq 0 MAX_SCHEDMISS_EVENTS)).

Lemma pause_slot i f : (i < MAX_SCHEDMISS_EVENTS)%nat -> (i, f) ∈ pause_slots.
Proof.
  intros H. apply list_elem_of_In, in_concat. exists [(i, PauseTimestamp); (i, PauseDelay)]. split; [|destruct f; [left | right; left]; reflexivity].
  apply in_map_iff. exists i. split; [reflexivity|]. apply in_seq. lia.
Qed.

(** What the code computes of a key of a pause. *)
Definition pause_key_ok (p : nat * pause_field) : bool :=
  let key := pause_key (fst p) (snd p) in
  starts_with key SCHEDMISS_PREFIX && bool_decide (scan_schedmiss_key key = Some (Z.of_nat (fst p)))
  && bool_decide (after_last_dot (chars key) = Some (chars (pause_name (snd p)))).

Lemma pause_keys_ok : forallb pause_key_ok pause_slots = true.
Proof. vm_compute. reflexivity. Qed.

Lemma pause_key_spec i f : (i < MAX_SCHEDMISS_EVENTS)%nat ->
  starts_with (pause_key i f) SCHEDMISS_PREFIX = true /\ scan_schedmiss_key (pause_key i f) = Some (Z.of_nat i) /\
  after_last_dot (chars (pause_key i f)) = Some (chars (pause_name f)).
Proof.
  intros H. pose proof pause_keys_ok as K. rewrite forallb_forall in K. specialize (K (i, f) (proj1 (list_elem_of_In _ _) (pause_slot i f H))).
  unfold pause_key_ok in K. cbn [fst snd] in K. apply andb_true_iff in K as [[K1 K2]%andb_true_iff K3].
  split; [exact K1|]. split; [now apply bool_decide_eq_true in K2 | now apply bool_decide_eq_true in K3].
Qed.

Lemma pause_key_inj i f j g : (i < MAX_SCHEDMISS_EVENTS)%nat -> (j < MAX_SCHEDMISS_EVENTS)%nat -> pause_key i f = pause_key j g -> i = j /\ f = g.
Proof.
  intros Hi Hj E. destruct (pause_key_spec i f Hi) as (_ & S1 & A1). destruct (pause_key_spec j g Hj) as (_ & S2 & A2). rewrite E in S1, A1.
  split; [rewrite S1 in S2; injection S2; lia|]. rewrite A1 in A2. destruct f, g; try reflexivity; discriminate.
Qed.

Section Pauses.
Context {M : Type} `{QB : qb_map M} `{QL : !qb_map_laws M}.
Context (found_in_removal : bool) (env : stats_env).

Inductive pause_op := PauseAdd (timestamp delay : Z) | PauseClear.

Definition pause_step (o : pause_op) (s : stats) : option stats :=
  match o with
  | PauseAdd t d => stats_add_schedmiss_event (M:=M) env t d s
  | PauseClear => schedmiss_clear_stats (M:=M) found_in_removal env s
  end.
Fixpoint pause_run (os : list pause_op) (s : stats) : option stats :=
  match os with [] => Some s | o :: os => s ← pause_step o s; pause_run os s end.

(** The abstract state: all pauses since the last clearing, the newest first. *)
Definition pause_spec (h : list schedmiss_entry) (o : pause_op) : list schedmiss_entry :=
  match o with PauseAdd t d => mk_schedmiss t d :: h | PauseClear => [] end.

(** [s] shows the history [h]: ten places, and a key for each place that is used. *)
Record shows (h : list schedmiss_entry) (s : stats) : Prop := {
  sh_events : schedmiss_event s = take MAX_SCHEDMISS_EVENTS (h ++ repeat no_schedmiss MAX_SCHEDMISS_EVENTS);
  sh_highest : highest_schedmiss_event s = Nat.min MAX_SCHEDMISS_EVENTS (length h);
  sh_keys : forall i f, (i < MAX_SCHEDMISS_EVENTS)%nat -> stats_map s !! pause_key i f = if Nat.ltb i (length h) then Some (pause_conv f) else None
}.

(** Every subscription of the map has its tracker. *)
Definition subscribed (s : stats) : Prop := forall n, n ∈ stats_notifiers s -> exists i x, list_find (fun x => fst x = no_data n) (stats_tracker_list s) = Some (i, x).

(** What changes besides the pauses: nothing. *)
Record pauses_only (s s' : stats) : Prop := {
  po_notifiers : stats_notifiers s' = stats_notifiers s;
  po_trackers : stats_tracker_list s' = stats_tracker_list s;
  po_out : st_out s' = st_out s;
  po_keys : forall k, starts_with k SCHEDMISS_PREFIX = false -> stats_map s' !! k = stats_map s !! k
}.

Lemma pauses_only_refl s : pauses_only s s.
Proof. now constructor. Qed.

Lemma pauses_only_trans s1 s2 s3 : pauses_only s1 s2 -> pauses_only s2 s3 -> pauses_only s1 s3.
Proof. intros [A B C D] [A' B' C' D']. constructor; [congruence.. |]. intros k H. now rewrite D', D. Qed.

Lemma subscribed_same s s' : pauses_only s s' -> subscribed s -> subscribed s'.
Proof. intros [A B _ _] H n. rewrite A, B. apply H. Qed.

(** Trackers are not called for the keys of pauses. *)
Lemma pause_quiet ev key ns seen : starts_with key SCHEDMISS_PREFIX = true ->
  (forall n, n ∈ ns -> exists i x, list_find (fun x => fst x = no_data n) (stats_tracker_list seen) = Some (i, x)) -> stats_callbacks env ev key ns seen = Some [].
Proof.
  intros K. induction ns as [|n ns IH]; intros H; [reflexivity|]. cbn [stats_callbacks]. destruct (H n) as (i & [a t] & ->); [left|]. cbn [mbind option_bind].
  unfold stats_map_notify_fn. rewrite K. cbn [mbind option_bind]. rewrite IH; [reflexivity|]. intros n' X. apply H. now right.
Qed.

Lemma pause_notify ev key seen s : starts_with key SCHEDMISS_PREFIX = true -> stats_tracker_list seen = stats_tracker_list s -> subscribed s ->
  stats_notify (M:=M) env ev key seen s = Some s.
Proof.
  intros K E Sub. unfold stats_notify. rewrite (pause_quiet ev key _ seen K).
  - cbn [mbind option_bind]. destruct s. unfold upd. cbn. now rewrite app_nil_r.
  - intros n H. rewrite qb_notified_perm in H. apply list_elem_of_In, filter_In in H as [H _]. rewrite E. apply Sub. now apply list_elem_of_In.
Qed.

Lemma pause_added key c s : starts_with key SCHEDMISS_PREFIX = true -> subscribed s ->
  stats_add_entry (M:=M) env key c s = Some (s <| stats_map ::= <[key := c]> |>).
Proof. intros K Sub. unfold stats_add_entry. now apply pause_notify. Qed.

Lemma pause_removed key s : starts_with key SCHEDMISS_PREFIX = true -> subscribed s ->
  stats_rm_entry (M:=M) found_in_removal env key s = Some (s <| stats_map ::= delete key |>).
Proof.
  intros K Sub. unfold stats_rm_entry. destruct (stats_map s !! key) as [c|] eqn:E.
  - apply pause_notify; [exact K | now destruct found_in_removal | exact Sub].
  - destruct s as [m a b c d e]. cbn in E. unfold upd. cbn. now rewrite delete_id.
Qed.

Lemma add_shows t d h s : shows h s -> subscribed s -> exists s', stats_add_schedmiss_event (M:=M) env t d s = Some s' /\ shows (mk_schedmiss t d :: h) s' /\ pauses_only s s'.
Proof.
  intros [E H K] Sub. unfold stats_add_schedmiss_event. set (s1 := s <| schedmiss_event ::= _ |>).
  assert (E1 : schedmiss_event s1 = take MAX_SCHEDMISS_EVENTS ((mk_schedmiss t d :: h) ++ repeat no_schedmiss MAX_SCHEDMISS_EVENTS)).
  { change (schedmiss_event s1) with (take MAX_SCHEDMISS_EVENTS (mk_schedmiss t d :: schedmiss_event s)). rewrite E. unfold MAX_SCHEDMISS_EVENTS.
    cbn [app take firstn]. now rewrite take_take. }
  change (highest_schedmiss_event s1) with (highest_schedmiss_event s). rewrite H.
  destruct (Nat.ltb_spec (Nat.min MAX_SCHEDMISS_EVENTS (length h)) MAX_SCHEDMISS_EVENTS) as [L|L].
  - rewrite Nat.min_r in * by lia. destruct (pause_key_spec _ PauseTimestamp L) as (Kt & _). destruct (pause_key_spec _ PauseDelay L) as (Kd & _).
    change (schedmiss_key (length h) "timestamp") with (pause_key (length h) PauseTimestamp). change (schedmiss_key (length h) "delay") with (pause_key (length h) PauseDelay).
    rewrite (pause_added _ _ s1 Kt Sub). cbn [mbind option_bind]. rewrite pause_added by (exact Kd || exact Sub). cbn [mbind option_bind].
    eexists. split; [reflexivity|]. split.
    + constructor; [exact E1 | change (S (length h) = Nat.min MAX_SCHEDMISS_EVENTS (S (length h))); lia |]. intros i f Hi. cbn -[pause_key Nat.ltb]. cbn [length].
      destruct (Nat.eq_dec i (length h)) as [->|N].
      * rewrite (proj2 (Nat.ltb_lt _ _)) by lia. destruct f; [|apply lookup_insert_eq].
        rewrite lookup_insert_ne; [apply lookup_insert_eq|]. intros X. now apply pause_key_inj in X.
      * rewrite !lookup_insert_ne by (intros X; apply pause_key_inj in X as [X _]; [congruence | assumption | assumption]). rewrite (K i f Hi).
        destruct (Nat.ltb_spec i (length h)), (Nat.ltb_spec i (S (length h))); reflexivity || lia.
    + constructor; [reflexivity.. |]. intros k Hk. cbn. rewrite !lookup_insert_ne; [reflexivity | intros <-; congruence..].
  - eexists. split; [reflexivity|]. split; [|now constructor]. constructor; [exact E1 | change (highest_schedmiss_event s1) with (highest_schedmiss_event s); rewrite H; cbn [length]; lia |].
    intros i f Hi. change (stats_map s1) with (stats_map s). rewrite (K i f Hi). cbn [length].
    destruct (Nat.ltb_spec i (length h)), (Nat.ltb_spec i (S (length h))); reflexivity || lia.
Qed.

Lemma rm_shows l s : Forall (fun i => i < MAX_SCHEDMISS_EVENTS)%nat l -> subscribed s ->
  exists s', schedmiss_rm (M:=M) found_in_removal env l s = Some s' /\ pauses_only s s' /\
    forall i f, (i < MAX_SCHEDMISS_EVENTS)%nat -> stats_map s' !! pause_key i f = if bool_decide (i ∈ l) then None else stats_map s !! pause_key i f.
Proof.
  revert s. induction l as [|j l IH]; intros s F Sub; [exists s; split; [reflexivity|]; split; [apply pauses_only_refl | reflexivity]|].
  apply Forall_cons in F as [Hj F]. destruct (pause_key_spec j PauseTimestamp Hj) as (Kt & _). destruct (pause_key_spec j PauseDelay Hj) as (Kd & _).
  cbn [schedmiss_rm]. change (schedmiss_key j "timestamp") with (pause_key j PauseTimestamp). change (schedmiss_key j "delay") with (pause_key j PauseDelay).
  rewrite (pause_removed _ s Kt Sub). cbn [mbind option_bind]. rewrite pause_removed by (exact Kd || exact Sub). cbn [mbind option_bind].
  set (s1 := _ <| stats_map ::= delete (pause_key j PauseDelay) |>).
  assert (P1 : pauses_only s s1) by (constructor; [reflexivity.. |]; intros k Hk; cbn; rewrite !lookup_delete_ne; [reflexivity | intros <-; congruence..]).
  destruct (IH s1 F (subscribed_same _ _ P1 Sub)) as (s' & -> & P & R). exists s'. split; [reflexivity|]. split; [exact (pauses_only_trans _ _ _ P1 P)|].
  intros i f Hi. rewrite (R i f Hi). destruct (decide (i = j)) as [->|N].
  - rewrite (bool_decide_true (j ∈ j :: l)) by left. destruct (bool_decide (j ∈ l)); [reflexivity|].
    change (delete (pause_key j PauseDelay) (delete (pause_key j PauseTimestamp) (stats_map s)) !! pause_key j f = None).
    destruct f; [|apply lookup_delete_eq]. rewrite lookup_delete_ne; [apply lookup_delete_eq|]. intros X. now apply pause_key_inj in X.
  - rewrite (bool_decide_ext (i ∈ j :: l) (i ∈ l)) by (rewrite elem_of_cons; tauto). destruct (bool_decide (i ∈ l)); [reflexivity|].
    change (delete (pause_key j PauseDelay) (delete (pause_key j PauseTimestamp) (stats_map s)) !! pause_key i f = stats_map s !! pause_key i f).
    rewrite !lookup_delete_ne; [reflexivity | intros X; apply pause_key_inj in X as [X _]; congruence..].
Qed.

Lemma clear_shows h s : shows h s -> subscribed s -> exists s', schedmiss_clear_stats (M:=M) found_in_removal env s = Some s' /\ shows [] s' /\ pauses_only s s'.
Proof.
  intros [E H K] Sub. unfold schedmiss_clear_stats. rewrite H. set (n := Nat.min MAX_SCHEDMISS_EVENTS _).
  destruct (rm_shows (seq 0 n) s) as (s1 & -> & P & R); [apply Forall_forall; intros i X; apply list_elem_of_In, in_seq in X; unfold n in X; lia | exact Sub|].
  cbn [mbind option_bind]. eexists. split; [reflexivity|]. split; [|now constructor; destruct P].
  constructor; [reflexivity.. |]. intros i f Hi. change (stats_map s1 !! pause_key i f = None). rewrite (R i f Hi).
  destruct (bool_decide_reflect (i ∈ seq 0 n)) as [X|X]; [reflexivity|]. rewrite (K i f Hi). destruct (Nat.ltb_spec i (length h)); [|reflexivity].
  destruct X. apply list_elem_of_In, in_seq. unfold n. lia.
Qed.

Lemma run_shows os h s : shows h s -> subscribed s -> exists s', pause_run os s = Some s' /\ shows (fold_left pause_spec os h) s' /\ pauses_only s s'.
Proof.
  revert h s. induction os as [|o os IH]; intros h s H Sub; [exists s; split; [reflexivity|]; split; [exact H | apply pauses_only_refl]|].
  assert (exists s1, pause_step o s = Some s1 /\ shows (pause_spec h o) s1 /\ pauses_only s s1) as (s1 & E & H1 & P1)
    by (destruct o; [now apply add_shows | now apply (clear_shows h)]).
  cbn [pause_run fold_left]. rewrite E. cbn [mbind option_bind]. destruct (IH _ s1 H1 (subscribed_same _ _ P1 Sub)) as (s' & -> & H' & P').
  exists s'. split; [reflexivity|]. split; [exact H' | exact (pauses_only_trans _ _ _ P1 P')].
Qed.

(** The bytes and the type of a field. *)
Definition pause_value (f : pause_field) (e : schedmiss_entry) : get_result :=
  match f with
  | PauseTimestamp => mk_get (Some (le_bytes 8 (sm_timestamp e))) (Some 8%nat) (Some ICMAP_VALUETYPE_UINT64)
  | PauseDelay => mk_get (Some (le_bytes 4 (sm_delay e))) (Some 4%nat) (Some ICMAP_VALUETYPE_FLOAT)
  end.

Lemma shown_get h s i f : shows h s -> (i < MAX_SCHEDMISS_EVENTS)%nat ->
  stats_map_get env (pause_key i f) true s = Some (match h !! i with Some e => (CS_OK, pause_value f e) | None => (CS_ERR_NOT_EXIST, mk_get None None None) end).
Proof.
  intros [E H K] Hi. unfold stats_map_get. rewrite (K i f Hi). destruct (Nat.ltb_spec i (length h)) as [L|L].
  - destruct (lookup_lt_is_Some_2 h i L) as [e He]. rewrite He. replace (cv_type (pause_conv f)) with STAT_SCHEDMISS by now destruct f.
    destruct (pause_key_spec i f Hi) as (_ & S & A). unfold schedmiss_get. rewrite S, A, str_chars, Nat2Z.id, E.
    assert (X : take MAX_SCHEDMISS_EVENTS (h ++ repeat no_schedmiss MAX_SCHEDMISS_EVENTS) !! i = Some e) by (rewrite lookup_take_lt by exact Hi; now apply lookup_app_l_Some).
    destruct f; cbn [pause_name]; rewrite X; reflexivity.
  - now rewrite (lookup_ge_None_2 h i L).
Qed.

(** C36: The statistics show the last ten pauses of the scheduler, the newest first.
    After any sequence of pauses and clearings, with [h] all the pauses since the last
    clearing, reading the key of place [i < 10] gives the timestamp and the delay of the
    [i]th newest pause if there were so many, and no such key exists otherwise; no
    other key comes or goes, and no tracker is called. *)
Theorem schedmiss_newest_first os h s : shows h s -> subscribed s ->
  exists s', pause_run os s = Some s' /\ shows (fold_left pause_spec os h) s' /\
    (forall i f, (i < MAX_SCHEDMISS_EVENTS)%nat -> stats_map_get env (pause_key i f) true s' =
      Some (match fold_left pause_spec os h !! i with Some e => (CS_OK, pause_value f e) | None => (CS_ERR_NOT_EXIST, mk_get None None None) end)) /\
    (forall k, starts_with k SCHEDMISS_PREFIX = false -> stats_map s' !! k = stats_map s !! k) /\ st_out s' = st_out s.
Proof.
  intros H Sub. destruct (run_shows os h s H Sub) as (s' & R & H' & P). exists s'. split; [exact R|]. split; [exact H'|].
  split; [intros i f Hi; now apply shown_get|]. split; [exact (po_keys _ _ P) | exact (po_out _ _ P)].
Qed.

End Pauses.

(** ** The keys of links and connections *)

Lemma strip_prefix_app p l : strip_prefix p (p ++ l) = Some l.
Proof. induction p as [|a p IH]; [done|]. cbn. now rewrite Ascii.eqb_refl. Qed.

(** A text that does not go on with a digit. *)
Definition no_digit (l : list ascii) : Prop := match l with a :: _ => isdigit a = false | [] => True end.

Lemma read_digits_app acc l v rest : read_digits acc l = (v, []) -> no_digit rest -> read_digits acc (l ++ rest) = (v, rest).
Proof.
  revert acc. induction l as [|a l IH]; intros acc H Hr; cbn in *.
  - injection H as <-. destruct rest as [|a rest]; [done|]. cbn in *. now rewrite Hr.
  - destruct (isdigit a); [auto|discriminate].
Qed.

Lemma read_number_app (v : Z) rest : no_digit rest -> read_number (chars (pretty v) ++ rest) = Some (v, rest).
Proof.
  intros Hr. destruct v as [|p|p].
  - change (chars (pretty 0)) with ["0"%char]. cbn [app]. destruct (read_number_digits _ "0"%char rest eq_refl eq_refl) as [-> _].
    f_equal. exact (read_digits_app 0 ["0"%char] 0 rest eq_refl Hr).
  - change (pretty (Z.pos p)) with (pretty (N.pos p)). destruct (pretty_digits (N.pos p)) as (c & l & E & H).
    destruct (read_number_digits (chars (pretty (N.pos p)) ++ rest) c (l ++ rest) ltac:(now rewrite E) H) as [-> _].
    now rewrite (read_digits_app _ _ _ _ (read_digits_pretty _) Hr).
  - change (chars (pretty (Z.neg p))) with ("-"%char :: chars (pretty (N.pos p))). destruct (pretty_digits (N.pos p)) as (c & l & E & H).
    destruct (read_number_digits (chars (pretty (N.pos p)) ++ rest) c (l ++ rest) ltac:(now rewrite E) H) as [_ H2].
    cbn [app]. rewrite H2. now rewrite (read_digits_app _ _ _ _ (read_digits_pretty _) Hr).
Qed.

Lemma scan_d_app v rest : - 2 ^ 31 <= v < 2 ^ 31 -> no_digit rest -> scan_d (chars (pretty v) ++ rest) = Some (v, rest).
Proof. intros Hv Hr. unfold scan_d. rewrite read_number_app by exact Hr. cbn [mbind option_bind]. rewrite s32_small by lia. do 2 f_equal. lia. Qed.

Lemma scan_knet_prefix node link name : 0 <= node < 2 ^ 31 -> 0 <= link < 2 ^ 31 ->
  scan_knet_key (knet_prefix node link +:+ name) = Some (node, link).
Proof.
  intros Hn Hl. unfold scan_knet_key, knet_prefix. rewrite !chars_app, <- !app_assoc, strip_prefix_app. cbn [mbind option_bind].
  rewrite scan_d_app by (done || lia). cbn [mbind option_bind]. rewrite strip_prefix_app. cbn [mbind option_bind].
  rewrite scan_d_app by (done || lia). reflexivity.
Qed.

(** Hexadecimal digits are read as they are written. *)
Lemma read_hex p s : read_base 16 0 (chars (Raw.of_pos p s)) = read_base 16 (Zpos p) (chars s).
Proof.
  revert s. induction (Wf_nat.well_founded_ltof _ Pos.to_nat p) as [p _ IH]. unfold Wf_nat.ltof in IH. intros s.
  assert (G : forall q d c, Raw.of_pos p s = Raw.of_pos q (String c s) -> (q < p)%positive -> digit_in 16 c = Some d -> Zpos p = 16 * Zpos q + d ->
    read_base 16 0 (chars (Raw.of_pos p s)) = read_base 16 (Zpos p) (chars s)).
  { intros q d c E L D V. rewrite E, (IH q (proj1 (Pos2Nat.inj_lt _ _) L)), V. cbn [chars read_base]. rewrite D. reflexivity. }
  destruct p as [ [ [ [p|p|]|[p|p|]|]|[ [p|p|]|[p|p|]|]|]|[ [ [p|p|]|[p|p|]|]|[ [p|p|]|[p|p|]|]|]|]; try reflexivity;
    (eapply (G p); [reflexivity|lia|vm_compute; reflexivity|lia]).
Qed.

Lemma scan_p_app p rest : 0 <= p -> (match rest with a :: _ => digit_in 16 a = None | [] => True end) ->
  scan_p (chars (print_p p) ++ rest) = Some (p, rest).
Proof.
  intros Hp Hr. unfold print_p. destruct (Z.eqb_spec p 0) as [->|Hn]; [unfold scan_p; now rewrite strip_prefix_app|].
  destruct p as [|p|p]; [done| |lia]. change (HexString.of_Z (Zpos p)) with ("0x" +:+ Raw.of_pos p "").
  rewrite chars_app, <- app_assoc. unfold scan_p. change (strip_prefix (chars "(nil)") (chars "0x" ++ _)) with (@None (list ascii)).
  rewrite strip_prefix_app. cbn [mbind option_bind].
  assert (E : read_base 16 0 (chars (Raw.of_pos p "") ++ rest) = (Zpos p, rest)).
  { assert (R : forall l acc v, read_base 16 acc l = (v, []) -> read_base 16 acc (l ++ rest) = (v, rest)).
    { induction l as [|a l IH]; intros acc v H; cbn in *; [injection H as <-; destruct rest; [done|]; cbn; now rewrite Hr|].
      destruct (digit_in 16 a); [auto|discriminate]. }
    apply R. rewrite read_hex. reflexivity. }
  destruct (chars (Raw.of_pos p "")) as [|c l] eqn:Ec.
  - cbn in E. destruct rest as [|a rest]; cbn in E; [discriminate|]. rewrite Hr in E. discriminate.
  - cbn [app] in *. rewrite bool_decide_true; [now rewrite E|]. cbn in E. destruct (digit_in 16 c); [eauto|discriminate].
Qed.

Lemma scan_ipcs_prefix service pid ptr name : - 2 ^ 31 <= service < 2 ^ 31 -> 0 <= pid < 2 ^ 32 -> 0 <= ptr ->
  scan_ipcs_key (ipcs_prefix service pid ptr +:+ name) = Some (service, pid, ptr).
Proof.
  intros Hs Hp Ht. unfold scan_ipcs_key, ipcs_prefix. rewrite !chars_app, <- !app_assoc, strip_prefix_app. cbn [mbind option_bind].
  rewrite scan_d_app by done. cbn [mbind option_bind]. rewrite strip_prefix_app. cbn [mbind option_bind].
  rewrite scan_d_app by (done || apply s32_range). cbn [mbind option_bind]. rewrite strip_prefix_app. cbn [mbind option_bind].
  rewrite scan_p_app by done. cbn [mbind option_bind]. now rewrite u32_s32, u32_small.
Qed.

(** ** Reading a counter *)

(** Where the counter of a key lives: the structure that its owner gives out, or the
    error of the owner. *)
Inductive counter_source (env : stats_env) : string -> stat_type -> Z + area -> Prop :=
| source_pg key : counter_source env key STAT_PG (inr (se_pg env))
| source_srp key : counter_source env key STAT_SRP (inr (se_srp env))
| source_ipcs_global key : counter_source env key STAT_IPCSG (inr (se_ipcs_global env))
| source_knet_handle key : counter_source env key STAT_KNET_HANDLE (se_knet_handle env)
| source_knet_link node link name :
    0 < node <= se_max_host env -> 0 <= link <= se_max_link env -> node < 2 ^ 16 -> link < 2 ^ 8 ->
    counter_source env (knet_prefix node link +:+ name) STAT_KNET
      (match se_knet_link env node link with inl _ => inl CS_ERR_LIBRARY | inr a => inr a end)
| source_ipcs_conn service pid ptr name :
    - 2 ^ 31 <= service < 2 ^ 31 -> 0 <= pid < 2 ^ 32 -> 0 <= ptr ->
    counter_source env (ipcs_prefix service pid ptr +:+ name) STAT_IPCSC (se_ipcs_conn env service pid ptr).

(** The bytes of a counter of type [t] at the beginning of [mem]: a text with its
    terminator, or as many bytes as the type has. *)
Inductive counter_value : icmap_value_types_t -> list Z -> list Z -> Prop :=
| value_text l rest : 0 ∉ l -> counter_value ICMAP_VALUETYPE_STRING (l ++ 0 :: rest) (l ++ [0])
| value_number t v rest : t <> ICMAP_VALUETYPE_STRING -> length v = icmap_get_valuetype_len t -> counter_value t (v ++ rest) v.

Lemma mem_strlen_text l rest : 0 ∉ l -> mem_strlen (l ++ 0 :: rest) = Some (length l).
Proof.
  induction l as [|c l IH]; intros H; [done|]. apply not_elem_of_cons in H as [H1 H2]. cbn.
  destruct (Z.eqb_spec c 0); [congruence|]. now rewrite IH.
Qed.

Lemma set_value_spec conv a v b : counter_value (cv_value_type conv) (a (cv_offset conv)) v ->
  stats_map_set_value conv (Some a) b = Some (mk_get (if b then Some v else None) (Some (length v)) (Some (cv_value_type conv))).
Proof.
  unfold stats_map_set_value. cbn [mbind option_bind]. generalize (cv_value_type conv) (a (cv_offset conv)). intros t mem H. destruct H as [l rest Hl|t v rest Ht Hv].
  - rewrite mem_strlen_text by exact Hl. cbn [mbind option_bind].
    replace (S (length l)) with (length (l ++ [0])) by (rewrite length_app; cbn; lia). destruct b; [|reflexivity]. cbn [mbind option_bind].
    replace (l ++ 0 :: rest) with ((l ++ [0]) ++ rest) by now rewrite <- app_assoc.
    rewrite mem_read_some by (rewrite !length_app; cbn; lia). cbn [mbind option_bind]. now rewrite take_app_length.
  - replace (match t with ICMAP_VALUETYPE_STRING => _ | _ => _ end) with (Some (length v)) by (rewrite Hv; now destruct t).
    cbn [mbind option_bind]. destruct b; [|reflexivity]. cbn [mbind option_bind]. rewrite mem_read_some by (rewrite length_app; lia).
    cbn [mbind option_bind]. now rewrite take_app_length.
Qed.

(** What the statistics give for a counter with a source. *)
Lemma get_source env key conv src b (s : stats) : stats_map s !! key = Some conv -> counter_source env key (cv_type conv) src ->
  stats_map_get env key b s =
    match src with
    | inl res => Some (res, mk_get None None None)
    | inr a => g ← stats_map_set_value conv (Some a) b; Some (CS_OK, g)
    end.
Proof.
  intros Hk. unfold stats_map_get. rewrite Hk. generalize (cv_type conv). intros t H. clear Hk.
  destruct H as [| | | |node link name Hn Hl Hn' Hl'|service pid ptr name Hs Hp Ht]; try reflexivity.
  - rewrite scan_knet_prefix by lia.
    rewrite (proj2 (Z.leb_gt _ _)), (proj2 (Z.ltb_ge _ _)), (proj2 (Z.ltb_ge link _)), (proj2 (Z.ltb_ge _ link)) by lia. cbn [orb].
    unfold u16, u8. rewrite !Z.mod_small by lia. now destruct (se_knet_link env node link).
  - now rewrite scan_ipcs_prefix.
Qed.

Section Reading.
Context {M : Type} `{QB : qb_map M}.
Context (env : stats_env).

Definition stats_answer (conn : Z) (bytes : option (list Z)) (len : nat) (t : icmap_value_types_t) : cmap_effect :=
  ResCmapGet conn CS_OK (Some (mk_get bytes (Some len) (Some t))).

(** C37: Reading a statistic through the service, for every kind of key.  A key that does
    not exist is refused, and so is a counter whose owner reports an error.  For a counter
    of the group layer, the ring protocol, libknet (its handle or a link) or the IPC (all
    connections or one), number or text: a client that asks with length 0 learns length
    and type; one that asks with a length that is enough gets the bytes of the counter;
    one that asks with a shorter length makes the service write beyond the buffer that it
    allocated for the answer, because the length of the request is not looked at.  For a
    pause of the scheduler the last also holds of length 0, where there is no buffer. *)
Theorem stats_get_exact conn c key n (s : cmap M) :
  cm_conns s !! conn = Some c -> map_fns c = stats_map_fns ->
  let get := message_handler_req_lib_cmap_get env conn key n s in
  (stats_map (cm_stats s) !! key = None -> get = Some (cmap_emit (ResCmapGet conn CS_ERR_NOT_EXIST None) s))
  /\ (forall conv res, stats_map (cm_stats s) !! key = Some conv -> counter_source env key (cv_type conv) (inl res) -> res <> CS_OK ->
      get = Some (cmap_emit (ResCmapGet conn res None) s))
  /\ (forall conv a v, stats_map (cm_stats s) !! key = Some conv -> counter_source env key (cv_type conv) (inr a) ->
      counter_value (cv_value_type conv) (a (cv_offset conv)) v ->
      get = if Nat.eqb n 0 then Some (cmap_emit (stats_answer conn None (length v) (cv_value_type conv)) s)
            else if Nat.ltb n (length v) then None
            else Some (cmap_emit (stats_answer conn (Some v) (length v) (cv_value_type conv)) s))
  /\ (forall h i f e, shows h (cm_stats s) -> key = pause_key i f -> (i < MAX_SCHEDMISS_EVENTS)%nat -> h !! i = Some e ->
      get = if Nat.ltb n (match f with PauseTimestamp => 8 | PauseDelay => 4 end) then None
            else Some (cmap_emit (ResCmapGet conn CS_OK (Some (pause_value f e))) s)).
Proof.
  intros Hc Hf. cbn zeta. unfold message_handler_req_lib_cmap_get. rewrite Hc. cbn [mbind option_bind]. rewrite Hf.
  split_and!.
  - intros Hk. unfold stats_map_get. rewrite Hk. reflexivity.
  - intros conv res Hk Hs Hr. rewrite (get_source _ _ _ _ _ _ Hk Hs). unfold in_buffer. cbn [mbind option_bind g_value].
    cbn [default from_option length Nat.leb]. cbn [mbind option_bind]. now rewrite (proj2 (Z.eqb_neq _ _) Hr).
  - intros conv a v Hk Hs Hv. rewrite (get_source _ _ _ _ _ _ Hk Hs), (set_value_spec _ _ _ _ Hv). cbn [mbind option_bind]. unfold in_buffer.
    cbn [mbind option_bind g_value]. destruct n as [|n]; [reflexivity|]. change (Nat.ltb 0 (S n)) with true. cbv iota. cbn [default from_option Nat.eqb]. unfold id.
    destruct (Nat.ltb_spec (S n) (length v)) as [X|X]; [now rewrite (proj2 (Nat.leb_gt _ _)) by lia|now rewrite (proj2 (Nat.leb_le _ _)) by lia].
  - intros h i f e Hh -> Hi He. destruct n as [|n].
    + change (Nat.ltb 0 0) with false. destruct Hh as [E H K]. unfold stats_map_get. rewrite (K i f Hi).
      rewrite (proj2 (Nat.ltb_lt _ _)) by (now apply lookup_lt_Some in He). replace (cv_type (pause_conv f)) with STAT_SCHEDMISS by now destruct f.
      destruct (pause_key_spec i f Hi) as (_ & S & A). unfold schedmiss_get. rewrite S, A, str_chars, Nat2Z.id, E.
      assert (X : take MAX_SCHEDMISS_EVENTS (h ++ repeat no_schedmiss MAX_SCHEDMISS_EVENTS) !! i = Some e) by (rewrite lookup_take_lt by exact Hi; now apply lookup_app_l_Some).
      destruct f; cbn [pause_name]; rewrite X; reflexivity.
    + change (Nat.ltb 0 (S n)) with true. rewrite (shown_get _ _ _ _ _ Hh Hi), He. unfold in_buffer. cbn [mbind option_bind].
      assert (L : length (default [] (g_value (pause_value f e))) = match f with PauseTimestamp => 8 | PauseDelay => 4 end%nat) by (destruct f; apply length_le_bytes).
      rewrite L. destruct (Nat.ltb_spec (S n) (match f with PauseTimestamp => 8 | PauseDelay => 4 end)) as [X|X];
        [now rewrite (proj2 (Nat.leb_gt _ _)) by lia|now rewrite (proj2 (Nat.leb_le _ _)) by lia].
Qed.

End Reading.

(** ** Witnesses *)

Definition demo_area : area := fun _ => repeat 7 64.
Definition demo_counters : stats_env := mk_stats_env demo_area demo_area (inr demo_area) (fun _ _ => inr demo_area) (fun _ _ _ => inr demo_area) demo_area 255 8.
Definition demo_pauses : list pause_op := List.map (fun i => PauseAdd (Z.of_nat i) 5) (seq 0 12) ++ [PauseClear; PauseAdd 40 6; PauseAdd 50 7].
Definition demo_stats : stats := default stats_zero (snd <$> stats_map_init (M:=gmap string icmap_item) demo_counters 0 stats_zero).

Lemma demo_stats_keys : map_Forall (fun k _ => starts_with k SCHEDMISS_PREFIX = false) (stats_map demo_stats).
Proof. by_compute. Qed.

Lemma demo_shows : shows [] demo_stats.
Proof.
  constructor; [vm_compute; reflexivity | vm_compute; reflexivity |]. intros i f Hi. cbn [length]. destruct (Nat.ltb_spec i 0); [lia|].
  destruct (stats_map demo_stats !! pause_key i f) as [c|] eqn:E; [|reflexivity]. apply demo_stats_keys in E. destruct (pause_key_spec i f Hi) as (K & _). congruence.
Qed.

Lemma demo_subscribed : subscribed demo_stats.
Proof. intros n H. change (n ∈ []) in H. now apply elem_of_nil in H. Qed.

Lemma schedmiss_newest_first_witness : exists s', pause_run (M:=gmap string icmap_item) true demo_counters demo_pauses demo_stats = Some s' /\
  stats_map_get demo_counters "stats.schedmiss.0.timestamp" true s' = Some (CS_OK, mk_get (Some (le_bytes 8 50)) (Some 8%nat) (Some ICMAP_VALUETYPE_UINT64)) /\
  stats_map_get demo_counters "stats.schedmiss.1.timestamp" true s' = Some (CS_OK, mk_get (Some (le_bytes 8 40)) (Some 8%nat) (Some ICMAP_VALUETYPE_UINT64)) /\
  stats_map_get demo_counters "stats.schedmiss.2.timestamp" true s' = Some (CS_ERR_NOT_EXIST, mk_get None None None).
Proof.
  destruct (schedmiss_newest_first (M:=gmap string icmap_item) true demo_counters demo_pauses [] demo_stats demo_shows demo_subscribed) as (s' & R & _ & G & _).
  exists s'. split; [exact R|]. assert (B : forall i, (i < 3)%nat -> (i < MAX_SCHEDMISS_EVENTS)%nat) by (intros i H; unfold MAX_SCHEDMISS_EVENTS; lia).
  split; [exact (G 0%nat PauseTimestamp (B 0%nat ltac:(lia)))|]. split; [exact (G 1%nat PauseTimestamp (B 1%nat ltac:(lia))) | exact (G 2%nat PauseTimestamp (B 2%nat ltac:(lia)))].
Defined.

(** A client of the statistics. *)
Definition demo_reading (st : stats) : cmap (gmap string icmap_item) :=
  cmap_zero demo_zero st <| cm_conns := {[5 := mk_conn_info ∅ ∅ stats_map_fns]} |>.

(** A counter of four bytes is not protected against a buffer of two; the length of a
    pause cannot be asked for. *)
Lemma stats_get_exact_witness :
  message_handler_req_lib_cmap_get demo_counters 5 "stats.srp.mtt_rx_token" 2 (demo_reading demo_stats) = None /\
  message_handler_req_lib_cmap_get demo_counters 5 "stats.srp.mtt_rx_token" 4 (demo_reading demo_stats)
    = Some (cmap_emit (stats_answer 5 (Some [7; 7; 7; 7]) 4 ICMAP_VALUETYPE_UINT32) (demo_reading demo_stats)) /\
  exists s', pause_run (M:=gmap string icmap_item) true demo_counters [PauseAdd 40 6] demo_stats = Some s' /\
    message_handler_req_lib_cmap_get demo_counters 5 "stats.schedmiss.0.timestamp" 0 (demo_reading s') = None.
Proof.
  assert (C : forall st, cm_conns (demo_reading st) !! 5 = Some (mk_conn_info ∅ ∅ stats_map_fns)) by reflexivity.
  assert (G : forall n, message_handler_req_lib_cmap_get demo_counters 5 "stats.srp.mtt_rx_token" n (demo_reading demo_stats) =
    if Nat.eqb n 0 then Some (cmap_emit (stats_answer 5 None 4 ICMAP_VALUETYPE_UINT32) (demo_reading demo_stats))
    else if Nat.ltb n 4 then None else Some (cmap_emit (stats_answer 5 (Some [7; 7; 7; 7]) 4 ICMAP_VALUETYPE_UINT32) (demo_reading demo_stats))).
  { intros n. destruct (stats_get_exact demo_counters 5 _ "stats.srp.mtt_rx_token" n (demo_reading demo_stats) (C _) eq_refl) as (_ & _ & H & _).
    refine (H (mk_conv STAT_SRP "mtt_rx_token" "mtt_rx_token" ICMAP_VALUETYPE_UINT32) demo_area [7; 7; 7; 7] _ _ _).
    - vm_compute. reflexivity.
    - apply (source_srp demo_counters).
    - apply (value_number ICMAP_VALUETYPE_UINT32 [7; 7; 7; 7] (repeat 7 60)); [discriminate|reflexivity]. }
  split; [exact (G 2%nat)|]. split; [exact (G 4%nat)|]. clear G.
  destruct (run_shows (M:=gmap string icmap_item) true demo_counters [PauseAdd 40 6] [] demo_stats demo_shows demo_subscribed) as (s' & R & H & _).
  exists s'. split; [exact R|].
  destruct (stats_get_exact demo_counters 5 _ (pause_key 0 PauseTimestamp) 0 (demo_reading s') (C _) eq_refl) as (_ & _ & _ & P).
  refine (P [mk_schedmiss 40 6] 0%nat PauseTimestamp (mk_schedmiss 40 6) H eq_refl _ eq_refl). unfold MAX_SCHEDMISS_EVENTS. lia.
Defined.
