(* ===== verification/CmapMessages.v ===== *)
(** * The configuration map service: messages

    What a node announces is read back by every node, whatever its byte order. *)
From S2P Require Import Prelude CString VoteQuorumExec Cpg Icmap IcmapTheory IcmapProps Util Stats Cmap.
Local Open Scope Z_scope.

(** ** Items *)

(** How many bytes of a value are one number, by the number of its type: integers of 16,
    32 and 64 bits, and the floating point numbers. *)
Definition number_width (type : Z) : nat :=
  match type with 3 | 4 => 2 | 5 | 6 | 9 => 4 | 7 | 8 | 10 => 8 | _ => 0 end.

Lemma swab_width_number type : swab_width type = number_width type.
Proof. destruct type as [|p|p]; try reflexivity. do 4 (destruct p as [p|p|]; try reflexivity). Qed.

(** A value under a key; a number has the bytes that its type says. *)
Record wire_item := mk_wire { wi_key : string; wi_type : Z; wi_value : list Z }.

Record wire_ok (i : wire_item) : Prop := {
  wo_key : c_str (wi_key i);
  wo_key_len : (length (chars (wi_key i)) < CS_MAX_NAME_LENGTH)%nat;
  wo_value_len : Z.of_nat (length (wi_value i)) < 2 ^ 64;
  wo_width : (number_width (wi_type i) <= length (wi_value i))%nat
}.

Definition padding (i : wire_item) : list Z :=
  repeat 0 (MAR_ALIGN_UP (ITEM_SIZE + length (wi_value i)) 8 - ITEM_SIZE - length (wi_value i)).

(** The bytes of an item; [order] arranges the bytes of a number. *)
Definition wire_bytes (order : list Z -> list Z) (i : wire_item) : list Z :=
  let w := number_width (wi_type i) in
  order (le_bytes 2 (strlen (wi_key i))) ++ repeat 0 6 ++ pad CS_MAX_NAME_LENGTH (bytes_of_string (wi_key i)) ++ (wi_type i :: repeat 0 7)
  ++ order (le_bytes 8 (Z.of_nat (length (wi_value i)))) ++ order (take w (wi_value i)) ++ drop w (wi_value i) ++ padding i.

(** As the node itself, and as a node of the other byte order writes it. *)
Definition native : wire_item -> list Z := wire_bytes id.
Definition foreign : wire_item -> list Z := wire_bytes (@rev Z).

Lemma align_bounds n : (n <= MAR_ALIGN_UP n 8 < n + 8)%nat.
Proof. unfold MAR_ALIGN_UP. change (8 - 1)%nat with 7%nat. pose proof (Nat.div_mod (n + 7) 8 ltac:(lia)). pose proof (Nat.mod_upper_bound (n + 7) 8 ltac:(lia)). lia. Qed.

Lemma native_mcast_item i : native i = mcast_item (wi_key i) (wi_type i) (Z.of_nat (length (wi_value i))) (wi_value i).
Proof.
  unfold native, wire_bytes, mcast_item, id, padding, pad. rewrite length_le_bytes, Nat2Z.id. cbn [length].
  rewrite (app_assoc (take _ _)), take_drop, <- !app_assoc. reflexivity.
Qed.

Lemma pad_length n l : (length l <= n)%nat -> length (pad n l) = n.
Proof. intros H. unfold pad. rewrite length_app, repeat_length. lia. Qed.

Lemma swab_at_app i n (a b c : list Z) : length a = i -> length b = n -> swab_at i n (a ++ b ++ c) = a ++ rev b ++ c.
Proof.
  intros <- <-. unfold swab_at. rewrite take_app_length, drop_app_length, take_app_length. do 2 f_equal.
  rewrite <- drop_drop, drop_app_length. apply drop_app_length.
Qed.

Section Item.
Context (i : wire_item) (Ok : wire_ok i) (order : list Z -> list Z).
Context (order_length : forall l, length (order l) = length l).

Lemma key_pad_length : length (pad CS_MAX_NAME_LENGTH (bytes_of_string (wi_key i))) = 256%nat.
Proof. apply pad_length. rewrite length_bytes_of_string. pose proof (wo_key_len _ Ok). unfold CS_MAX_NAME_LENGTH in *. lia. Qed.

Lemma wire_length : length (wire_bytes order i) = MAR_ALIGN_UP (ITEM_SIZE + length (wi_value i)) 8.
Proof.
  unfold wire_bytes, padding. pose proof (align_bounds (ITEM_SIZE + length (wi_value i))) as B. pose proof (wo_width _ Ok) as W.
  rewrite !length_app, !order_length, key_pad_length, !length_le_bytes, !repeat_length, length_take, length_drop. cbn [length].
  rewrite repeat_length. unfold ITEM_SIZE in *. lia.
Qed.

(** The front of an item, up to the length of the value. *)
Lemma wire_at rest : exists a b, wire_bytes order i ++ rest = a ++ order (le_bytes 8 (Z.of_nat (length (wi_value i)))) ++ b /\
  length a = LEN_AT /\ a !! TYPE_AT = Some (wi_type i).
Proof.
  unfold wire_bytes. set (key := pad _ _). set (n := order (le_bytes 8 _)).
  exists (order (le_bytes 2 (strlen (wi_key i))) ++ repeat 0 6 ++ key ++ wi_type i :: repeat 0 7), (order (take (number_width (wi_type i)) (wi_value i)) ++ drop (number_width (wi_type i)) (wi_value i) ++ padding i ++ rest).
  pose proof key_pad_length as K. fold key in K. split; [|split].
  - rewrite <- !app_assoc. reflexivity.
  - rewrite !length_app, order_length, length_le_bytes, K, repeat_length. reflexivity.
  - rewrite !lookup_app_r; rewrite ?order_length, ?length_le_bytes, ?repeat_length, ?K; unfold TYPE_AT; try lia. reflexivity.
Qed.

Lemma wire_type rest : item_type (wire_bytes order i ++ rest) = wi_type i.
Proof.
  destruct (wire_at rest) as (a & b & -> & La & Ht). unfold item_type. rewrite lookup_app_l by (apply lookup_lt_Some in Ht; exact Ht). now rewrite Ht.
Qed.

End Item.

Lemma native_value_len i rest : wire_ok i -> item_value_len (native i ++ rest) = Z.of_nat (length (wi_value i)).
Proof.
  intros Ok. destruct (wire_at i Ok id (fun _ => eq_refl) rest) as (a & b & E & La & _). unfold native, item_value_len. rewrite E, <- La, drop_app_length.
  unfold id. rewrite take_app_le, take_ge by (rewrite length_le_bytes; lia). rewrite le_value_bytes. apply Z.mod_small. pose proof (wo_value_len _ Ok). cbn. lia.
Qed.

Lemma native_size i rest : wire_ok i -> item_size (native i ++ rest) = length (native i).
Proof. intros Ok. unfold item_size. rewrite native_value_len, Nat2Z.id by exact Ok. symmetry. now apply wire_length. Qed.

Lemma native_at_least i : wire_ok i -> (ITEM_SIZE + length (wi_value i) <= length (native i))%nat.
Proof. intros Ok. unfold native. rewrite wire_length by (exact Ok || reflexivity). apply align_bounds. Qed.

Lemma native_value i rest : wire_ok i -> mem_read (drop ITEM_SIZE (native i ++ rest)) (length (wi_value i)) = Some (wi_value i).
Proof.
  intros Ok. rewrite native_mcast_item. unfold mcast_item. pose proof (key_pad_length i Ok) as K. set (key := pad _ _) in K |- *.
  set (front := pad KEY_AT (le_bytes 2 (strlen (wi_key i))) ++ key ++ pad 8 [wi_type i] ++ le_bytes 8 (Z.of_nat (length (wi_value i)))).
  assert (L : length front = ITEM_SIZE).
  { unfold front. rewrite !length_app, K, length_le_bytes, !pad_length by (rewrite ?length_le_bytes; unfold KEY_AT; cbn; lia). reflexivity. }
  set (value := pad _ (wi_value i)).
  replace (drop ITEM_SIZE _) with (value ++ rest) by (rewrite <- L, <- (drop_app_length front (value ++ rest)); unfold front; now rewrite <- !app_assoc).
  unfold value, pad. rewrite <- app_assoc, mem_read_some by (rewrite length_app; lia). now rewrite take_app_length.
Qed.

Lemma take_next (l k : list Z) a : take (S (length l)) (l ++ a :: k) = l ++ [a].
Proof. induction l as [|b l IH]; cbn; [reflexivity | now rewrite <- IH]. Qed.

(** An item has its own key and no other. *)
Lemma native_is key i rest : wire_ok i -> c_str key -> item_is key (native i ++ rest) = bool_decide (key = wi_key i).
Proof.
  intros Ok Hc. rewrite native_mcast_item. unfold item_is, item_key_length, mcast_item. rewrite <- !app_assoc.
  unfold pad at 1. rewrite <- app_assoc, take_app_le, take_ge by (rewrite length_le_bytes; lia). rewrite le_value_bytes, Z.mod_small.
  2:{ pose proof (wo_key_len _ Ok). unfold strlen, CS_MAX_NAME_LENGTH in *. cbn. lia. }
  rewrite drop_app_length' by (symmetry; apply pad_length; rewrite length_le_bytes; unfold KEY_AT; lia).
  destruct (bool_decide_reflect (key = wi_key i)) as [->|N].
  - rewrite Z.eqb_refl. cbn [andb]. apply bool_decide_eq_true. unfold pad. rewrite <- app_assoc. pose proof (wo_key_len _ Ok) as L.
    replace (CS_MAX_NAME_LENGTH - length (bytes_of_string (wi_key i)))%nat with (S (CS_MAX_NAME_LENGTH - 1 - length (bytes_of_string (wi_key i))))
      by (rewrite length_bytes_of_string; lia).
    cbn [repeat]. rewrite <- length_bytes_of_string. apply take_next.
  - apply andb_false_iff. destruct (Z.eqb_spec (strlen key) (strlen (wi_key i))) as [E|]; [|now left]. right.
    apply bool_decide_eq_false. intros H. apply N. unfold strlen in E. apply Nat2Z.inj in E.
    unfold pad in H. rewrite <- app_assoc in H. apply (f_equal (take (length (bytes_of_string (wi_key i))))) in H.
    rewrite take_take, Nat.min_l, take_app_length in H by (rewrite length_bytes_of_string; lia).
    rewrite length_bytes_of_string, <- E, <- length_bytes_of_string, take_app_length in H.
    pose proof (string_bytes_roundtrip key [] Hc) as R1. pose proof (string_bytes_roundtrip (wi_key i) [] (wo_key _ Ok)) as R2. congruence.
Qed.

(** ** Messages *)

Definition wire_all (f : wire_item -> list Z) (l : list wire_item) : list Z := List.concat (List.map f l).

(** A search finds the first item of a key. *)
Lemma item_find_spec key l rest : c_str key -> Forall wire_ok l ->
  item_find (length l) key (wire_all native l ++ rest) =
  Some (match list_find (fun i => key = wi_key i) l with
        | Some (n, i) => Some (wire_all native (drop n l) ++ rest)
        | None => None
        end).
Proof.
  intros Hc. induction l as [|i l IH]; intros Ok; [reflexivity|]. apply Forall_cons in Ok as [Oi Ok]. cbn [length item_find].
  unfold wire_all. cbn [List.map List.concat]. fold (wire_all native l). rewrite <- app_assoc.
  pose proof (native_at_least i Oi) as L. rewrite (proj2 (Nat.ltb_ge _ _)) by (rewrite length_app; lia).
  rewrite native_is by assumption. cbn [list_find]. destruct (decide (key = wi_key i)) as [E|E].
  - rewrite bool_decide_true by exact E. cbn [drop]. unfold wire_all. cbn [List.map List.concat]. now rewrite <- app_assoc.
  - rewrite bool_decide_false, native_size, drop_app_length by assumption. rewrite (IH Ok). cbn.
    destruct (list_find (fun i0 => key = wi_key i0) l) as [[n j]|]; reflexivity.
Qed.

Ltac app_eq := repeat (progress (rewrite <- ?app_assoc; cbn [app])); reflexivity.

Lemma convert_item i rest : wire_ok i -> swab_at ITEM_SIZE (number_width (wi_type i)) (swab_at LEN_AT 8 (swab_at 0 2 (foreign i ++ rest))) = native i ++ rest /\
  item_type (swab_at LEN_AT 8 (swab_at 0 2 (foreign i ++ rest))) = wi_type i.
Proof.
  intros Ok. pose proof (key_pad_length i Ok) as K. pose proof (wo_width _ Ok) as W. set (w := number_width (wi_type i)) in *. set (key := pad _ _) in K.
  set (n := le_bytes 8 (Z.of_nat (length (wi_value i)))). set (v := take w (wi_value i)). set (tail := drop w (wi_value i) ++ padding i ++ rest).
  assert (Lw : length v = w) by (unfold v; rewrite length_take; lia).
  set (front := repeat 0 6 ++ key ++ wi_type i :: repeat 0 7).
  assert (Lf : length front = 270%nat) by (unfold front; rewrite !length_app, K, repeat_length; reflexivity).
  assert (S1 : swab_at LEN_AT 8 (swab_at 0 2 (foreign i ++ rest)) = (le_bytes 2 (strlen (wi_key i)) ++ front ++ n) ++ rev v ++ tail).
  { replace (foreign i ++ rest) with ([] ++ rev (le_bytes 2 (strlen (wi_key i))) ++ (front ++ rev n ++ rev v ++ tail))
      by (unfold foreign, wire_bytes, front, tail, key, v, n, w; app_eq).
    rewrite swab_at_app by (rewrite ?length_rev, ?length_le_bytes; reflexivity). rewrite rev_involutive. cbn [app].
    rewrite (app_assoc _ front), swab_at_app by (rewrite ?length_app, ?length_rev, ?length_le_bytes, ?Lf; reflexivity).
    rewrite rev_involutive. app_eq. }
  rewrite S1. split.
  - rewrite swab_at_app by (rewrite ?length_rev, ?length_app, ?length_le_bytes, ?Lf; (exact Lw || reflexivity)). rewrite rev_involutive.
    unfold native, wire_bytes, id, front, tail, key, v, n, w. app_eq.
  - unfold item_type, front. rewrite <- !app_assoc.
    rewrite (lookup_app_r (le_bytes _ _)), (lookup_app_r (repeat _ _)), (lookup_app_r key) by (rewrite ?length_le_bytes, ?repeat_length, ?K; unfold TYPE_AT; lia).
    rewrite length_le_bytes, repeat_length, K. reflexivity.
Qed.

(** Every item of a message of the other byte order is converted into the same item. *)
Lemma items_convert_exact l rest : Forall wire_ok l -> items_convert (length l) (wire_all foreign l ++ rest) = Some (wire_all native l ++ rest).
Proof.
  induction l as [|i l IH]; intros Ok; [reflexivity|]. apply Forall_cons in Ok as [Oi Ok]. cbn [length items_convert].
  unfold wire_all. cbn [List.map List.concat]. fold (wire_all foreign l) (wire_all native l). rewrite <- !app_assoc.
  destruct (convert_item i (wire_all foreign l ++ rest) Oi) as [E T].
  assert (L : length (foreign i) = length (native i)) by (unfold foreign, native; rewrite !wire_length by (exact Oi || reflexivity || apply length_rev); reflexivity).
  pose proof (native_at_least i Oi) as B. pose proof (wo_width _ Oi) as W.
  rewrite (proj2 (Nat.ltb_ge _ _)) by (rewrite length_app; lia). rewrite T, swab_width_number, E.
  assert (Ls : length (swab_at LEN_AT 8 (swab_at 0 2 (foreign i ++ wire_all foreign l ++ rest))) = length (foreign i ++ wire_all foreign l ++ rest)).
  { assert (H : forall a n (p : list Z), (a + n <= length p)%nat -> length (swab_at a n p) = length p)
      by (intros a n p H; unfold swab_at; rewrite !length_app, length_rev, !length_take, !length_drop; lia).
    assert (B' : (ITEM_SIZE <= length (foreign i ++ wire_all foreign l ++ rest))%nat) by (rewrite length_app; lia). unfold LEN_AT, ITEM_SIZE in *.
    rewrite H; rewrite H; lia. }
  rewrite Ls, (proj2 (Nat.ltb_ge _ _)) by (rewrite length_app; lia). cbn zeta.
  rewrite native_size, drop_app_length, take_app_length by exact Oi. rewrite (IH Ok). reflexivity.
Qed.

(** ** What is announced *)

Section Announce.
Context {M : Type} `{QB : qb_map M} `{QL : !qb_map_laws M}.

Definition wire_of (m : icmap M) (key : string) : wire_item :=
  match lookup_item (icmap_global_map m) key m with
  | Some i => mk_wire key (type_code (ii_type i)) (ii_value i)
  | None => mk_wire key ICMAP_VALUETYPE_NOT_EXIST []
  end.

Lemma wire_of_key m key : wi_key (wire_of m key) = key.
Proof. unfold wire_of. now destruct (lookup_item _ key m). Qed.

Lemma item_ok_len i : item_ok i -> (length (ii_value i) <= S ICMAP_MAX_VALUE_LEN)%nat.
Proof.
  unfold item_ok, ii_value_len. destruct i as [t v]. cbn [ii_type ii_value].
  destruct t; try (intros ->; cbn; unfold ICMAP_MAX_VALUE_LEN; lia).
  intros (l & -> & _ & H). rewrite length_app. cbn [length]. lia.
Qed.

Lemma wire_of_ok m key : icmap_ok m -> c_str key -> (length (chars key) < CS_MAX_NAME_LENGTH)%nat -> wire_ok (wire_of m key).
Proof.
  intros Ok Hc Hl. unfold wire_of. destruct (lookup_item (icmap_global_map m) key m) as [i|] eqn:L.
  - destruct (Ok _ _ _ L) as [Io _]. pose proof (item_ok_len i Io) as B. unfold ICMAP_MAX_VALUE_LEN in B. constructor; cbn [wi_key wi_type wi_value]; [assumption.. | |].
    + lia.
    + unfold item_ok, ii_value_len in Io. destruct i as [t v]. cbn [ii_type ii_value] in *. destruct t; cbn in *; lia.
  - constructor; cbn; [assumption.. | lia | lia].
Qed.

Lemma mcast_items_spec argv (m : icmap M) : icmap_ok m -> is_Some (map_at (icmap_global_map m) m) ->
  Forall (fun key => length (chars key) < CS_MAX_NAME_LENGTH)%nat argv ->
  mcast_items argv m = Some (inr (wire_all native (List.map (wire_of m) argv))).
Proof.
  intros Ok Hg. induction argv as [|key argv IH]; intros F; [reflexivity|]. apply Forall_cons in F as [Fk F]. cbn [mcast_items List.map].
  unfold icmap_get. rewrite !get_r_lookup by exact Hg. cbn [mbind option_bind]. unfold wire_all. cbn [List.map List.concat]. fold (wire_all native (List.map (wire_of m) argv)).
  rewrite (IH F), native_mcast_item, wire_of_key. set (rest := wire_all native _). unfold wire_of.
  destruct (lookup_item (icmap_global_map m) key m) as [i|] eqn:L; cbn [mbind option_bind negb g_type g_value_len].
  - change (CS_OK =? CS_OK) with true. change (CS_OK =? CS_ERR_NOT_EXIST) with false. cbn [negb andb]. rewrite (proj2 (Nat.leb_gt _ _) Fk).
    rewrite get_r_lookup, L by exact Hg. cbn [negb]. rewrite Nat.ltb_irrefl. reflexivity.
  - change (CS_ERR_NOT_EXIST =? CS_OK) with false. change (CS_ERR_NOT_EXIST =? CS_ERR_NOT_EXIST) with true. cbn [negb andb]. rewrite (proj2 (Nat.leb_gt _ _) Fk). reflexivity.
Qed.

Definition version_message (reason : Z) (m : icmap M) : req_exec_cmap_mcast := mk_cmap_mcast reason 1 (native (wire_of m CONFIG_VERSION)).

Lemma config_version_key : c_str CONFIG_VERSION /\ (length (chars CONFIG_VERSION) < CS_MAX_NAME_LENGTH)%nat.
Proof. split; [unfold c_str|]; by_compute. Qed.

Lemma version_items m : icmap_ok m -> is_Some (map_at (icmap_global_map m) m) ->
  mcast_items [CONFIG_VERSION] m = Some (inr (native (wire_of m CONFIG_VERSION))).
Proof.
  intros Ok Hg. rewrite mcast_items_spec by (try assumption; repeat constructor; apply config_version_key).
  unfold wire_all. cbn [List.map List.concat]. now rewrite app_nil_r.
Qed.

(** The version of the configuration: 0 unless it is a number of 64 bits. *)
Definition config_version (m : icmap M) : Z :=
  match lookup_item (icmap_global_map m) CONFIG_VERSION m with
  | Some i => if type_eqb (ii_type i) ICMAP_VALUETYPE_UINT64 then le_value (ii_value i) else 0
  | None => 0
  end.

Lemma read_config_version_spec m : icmap_ok m -> is_Some (map_at (icmap_global_map m) m) -> read_config_version m = Some (config_version m).
Proof.
  intros Ok Hg. unfold read_config_version, icmap_get_uint64, icmap_get_uint64_r, get_unsigned, icmap_get_int_r, config_version. rewrite get_r_lookup by exact Hg.
  cbn [mbind option_bind]. destruct (lookup_item (icmap_global_map m) CONFIG_VERSION m) as [i|] eqn:L; [|reflexivity]. cbn [negb].
  destruct (type_eqb (ii_type i) ICMAP_VALUETYPE_UINT64) eqn:T.
  - destruct (Ok _ _ _ L) as [Io _]. unfold item_ok in Io. apply type_eqb_true in T. rewrite T in *. cbn in Io. rewrite Io. cbn. rewrite take_ge; [reflexivity|].
    unfold ii_value_len in Io. lia.
  - destruct (Nat.ltb 16 (ii_value_len i)); cbn [mbind option_bind]; [reflexivity|]. change (negb (CS_OK =? CS_OK)) with false. cbn [g_type g_value].
    rewrite T. reflexivity.
Qed.

(** Every node reads the version that was announced. *)
Lemma version_read reason m : icmap_ok m -> message_config_version (version_message reason m) = Some (config_version m).
Proof.
  intros Ok. destruct config_version_key as [Hc Hl]. pose proof (wire_of_ok m CONFIG_VERSION Ok Hc Hl) as W.
  unfold message_config_version, cmap_mcast_item_find, version_message. cbn [mm_no_items mm_items]. change (Z.to_nat 1) with 1%nat.
  pose proof (item_find_spec CONFIG_VERSION [wire_of m CONFIG_VERSION] [] Hc (Forall_cons_2 _ _ _ W (Forall_nil_2 _))) as F.
  unfold wire_all in F. cbn [length List.map List.concat list_find] in F. rewrite !app_nil_r in F. rewrite F.
  rewrite decide_True by (symmetry; apply wire_of_key). cbn [mbind option_bind drop List.map List.concat]. rewrite !app_nil_r.
  pose proof (wire_type _ W id (fun _ => eq_refl) []) as T. pose proof (native_value_len _ [] W) as N. pose proof (native_value _ [] W) as V.
  unfold native in *. rewrite !app_nil_r in T, N, V. rewrite T, N, Nat2Z.id. unfold config_version, wire_of in *.
  destruct (lookup_item (icmap_global_map m) CONFIG_VERSION m) as [i|] eqn:L; [|reflexivity]. cbn [wi_type wi_value] in *.
  destruct (Ok _ _ _ L) as [Io _]. unfold item_ok, ii_value_len in Io. destruct i as [t v]. cbn [ii_type ii_value] in *.
  destruct t; cbn [type_code] in *; try reflexivity. change (8 =? 8) with true. cbv iota. cbn in Io. rewrite Io in V |- *. change (Nat.leb 8 8) with true. cbv iota. now rewrite V.
Qed.

End Announce.

(** ** Between machines of different byte order *)

(** C35: Messages of a machine of the other byte order are understood.  A message with
    any short keys of the map, as [cmap_mcast_send] lays it out on a machine of the other
    byte order, is converted into exactly the message that a machine of the own order
    would have sent for the same keys: their names, types and lengths, and values of
    every type. *)
Theorem mcast_endian_exact {M : Type} `{QB : qb_map M} `{QL : !qb_map_laws M} (reason : Z) (argv : list string) (m : icmap M) :
  icmap_ok m -> is_Some (map_at (icmap_global_map m) m) -> Forall (fun key => c_str key /\ (length (chars key) < CS_MAX_NAME_LENGTH)%nat) argv ->
  exists items, mcast_items argv m = Some (inr items) /\
    exec_cmap_mcast_endian_convert (mk_cmap_mcast reason (Z.of_nat (length argv)) (wire_all foreign (List.map (wire_of m) argv))) =
      Some (mk_cmap_mcast reason (Z.of_nat (length argv)) items).
Proof.
  intros Ok Hg F. exists (wire_all native (List.map (wire_of m) argv)). split.
  - apply mcast_items_spec; [assumption.. |]. eapply Forall_impl; [exact F|]. now intros k [_ H].
  - unfold exec_cmap_mcast_endian_convert. cbn [mm_no_items mm_items mm_reason]. rewrite Nat2Z.id.
    pose proof (items_convert_exact (List.map (wire_of m) argv) []) as E. rewrite length_map, !app_nil_r in E. rewrite E; [reflexivity|].
    apply Forall_forall. intros i H. apply list_elem_of_In, in_map_iff in H as (k & <- & H). rewrite Forall_forall in F.
    destruct (F k (proj2 (list_elem_of_In _ _) H)). now apply wire_of_ok.
Qed.

Lemma mcast_endian_exact_witness :
  exists items, mcast_items ["quorum.votes"%string; CONFIG_VERSION] demo_src = Some (inr items) /\
    exec_cmap_mcast_endian_convert (mk_cmap_mcast CMAP_MCAST_REASON_SYNC 2 (wire_all foreign (List.map (wire_of demo_src) ["quorum.votes"%string; CONFIG_VERSION]))) =
      Some (mk_cmap_mcast CMAP_MCAST_REASON_SYNC 2 items).
Proof.
  refine (mcast_endian_exact CMAP_MCAST_REASON_SYNC ["quorum.votes"%string; CONFIG_VERSION] demo_src demo_src_ok _ _); [eexists; vm_compute; reflexivity|].
  repeat constructor; (unfold c_str; by_compute).
Defined.
