(* ===== verification/CmapTheory.v ===== *)
(** * The configuration map service: who owns the trackers

    Every tracker of a client has the data of the handle that the client holds, and
    every handle of a client has a tracker: the callbacks of the map never use data that
    was freed, and go to connections that are open. *)
From S2P Require Import Prelude CString VoteQuorumExec Cpg Icmap IcmapTheory IcmapProps Util Stats Cmap CmapMessages.
Local Open Scope Z_scope.

(** ** Ownership *)

(** Of the trackers [l], those in [T] belong to clients: the data [U] of a tracker names
    the connection and the handle, and the connections [C] the trackers of their handles. *)
Record owning (l : list (Z * icmap_track)) (T : list Z) (U : gmap Z cmap_track_user_data) (C : gmap Z cmap_conn_info) : Prop := {
  ow_nodup : NoDup (List.map fst l);
  ow_listed : forall t, t ∈ T -> t ∈ List.map fst l;
  ow_tracker : forall t tr, (t, tr) ∈ l -> t ∈ T ->
    exists d c, U !! tr_user_data tr = Some d /\ C !! ud_conn d = Some c /\ track_db c !! ud_track_handle d = Some t;
  ow_handle : forall conn c h t, C !! conn = Some c -> track_db c !! h = Some t ->
    t ∈ T /\ exists tr d, (t, tr) ∈ l /\ U !! tr_user_data tr = Some d /\ ud_conn d = conn /\ ud_track_handle d = h
}.

Lemma pair_in {A} (l : list (Z * A)) t a : (t, a) ∈ l -> t ∈ List.map fst l.
Proof. intros H. apply list_elem_of_In, in_map_iff. exists (t, a). split; [reflexivity | now apply list_elem_of_In]. Qed.

Lemma pair_unique {A} (l : list (Z * A)) t a b : NoDup (List.map fst l) -> (t, a) ∈ l -> (t, b) ∈ l -> a = b.
Proof.
  induction l as [|[t' x] l IH]; intros N Ha Hb; [now apply elem_of_nil in Ha|]. apply NoDup_cons in N as [N1 N].
  apply elem_of_cons in Ha as [Ha|Ha]; apply elem_of_cons in Hb as [Hb|Hb]; [congruence | | |now apply IH].
  - injection Ha as -> _. destruct N1. exact (pair_in _ _ _ Hb).
  - injection Hb as -> _. destruct N1. exact (pair_in _ _ _ Ha).
Qed.

Lemma find_unique {A} (l : list (Z * A)) t a : NoDup (List.map fst l) -> (t, a) ∈ l -> exists i, list_find (fun x => fst x = t) l = Some (i, (t, a)).
Proof.
  intros N H. destruct (list_find (fun x => fst x = t) l) as [[i [t' b]]|] eqn:F.
  - apply list_find_Some in F as (Hi & <- & _). exists i. cbn. do 3 f_equal. apply list_elem_of_lookup_2 in Hi. cbn in *. exact (pair_unique _ _ _ _ N Hi H).
  - apply list_find_None in F. rewrite Forall_forall in F. exfalso. exact (F (t, a) H eq_refl).
Qed.

Lemma owning_handles l T U C conn c h conn' c' h' t : owning l T U C ->
  C !! conn = Some c -> track_db c !! h = Some t -> C !! conn' = Some c' -> track_db c' !! h' = Some t -> conn = conn' /\ h = h'.
Proof.
  intros O H1 H2 H3 H4. destruct (ow_handle _ _ _ _ O _ _ _ _ H1 H2) as (_ & tr & d & Ht & Hd & <- & <-).
  destruct (ow_handle _ _ _ _ O _ _ _ _ H3 H4) as (_ & tr' & d' & Ht' & Hd' & <- & <-).
  rewrite (pair_unique _ _ _ _ (ow_nodup _ _ _ _ O) Ht' Ht) in Hd'. rewrite Hd in Hd'. now injection Hd' as ->.
Qed.

(** The data of a tracker is its own. *)
Lemma owning_data l T U C t tr t' tr' : owning l T U C -> (t, tr) ∈ l -> t ∈ T -> (t', tr') ∈ l -> t' ∈ T -> tr_user_data tr = tr_user_data tr' -> t = t'.
Proof.
  intros O H1 H2 H3 H4 E. destruct (ow_tracker _ _ _ _ O _ _ H1 H2) as (d & c & D & Cc & K). destruct (ow_tracker _ _ _ _ O _ _ H3 H4) as (d' & c' & D' & Cc' & K').
  rewrite E in D. rewrite D in D'. injection D' as <-. rewrite Cc in Cc'. injection Cc' as <-. congruence.
Qed.

Lemma owning_add l T U C conn c h t tr inst : owning l T U C -> C !! conn = Some c -> track_db c !! h = None ->
  t ∉ List.map fst l -> U !! tr_user_data tr = None ->
  owning ((t, tr) :: l) (t :: T) (<[tr_user_data tr := mk_user_data conn h inst]> U) (alter (fun c => c <| track_db ::= <[h := t]> |>) conn C).
Proof.
  intros O Hc Hh Ht Hu.
  assert (NT : forall x y, (x, y) ∈ l -> x <> t) by (intros x y H ->; exact (Ht (pair_in _ _ _ H))).
  constructor.
  - cbn. apply NoDup_cons. split; [exact Ht | exact (ow_nodup _ _ _ _ O)].
  - cbn. intros x [->|H]%elem_of_cons; [left | right; exact (ow_listed _ _ _ _ O x H)].
  - intros t' tr' [[= -> ->]|H]%elem_of_cons H'.
    + exists (mk_user_data conn h inst), (c <| track_db ::= <[h := t]> |>). rewrite lookup_insert_eq. cbn [ud_conn ud_track_handle].
      rewrite lookup_alter_eq, Hc. cbn. now rewrite lookup_insert_eq.
    + apply elem_of_cons in H' as [->|H']; [destruct (NT _ _ H eq_refl)|]. destruct (ow_tracker _ _ _ _ O _ _ H H') as (d & c' & D & Cc & K).
      exists d. assert (tr_user_data tr <> tr_user_data tr') by (intros E; rewrite E in Hu; congruence). rewrite lookup_insert_ne by assumption.
      destruct (decide (ud_conn d = conn)) as [<-|N].
      * exists (c' <| track_db ::= <[h := t]> |>). rewrite lookup_alter_eq, Cc. split; [exact D|]. split; [reflexivity|]. cbn.
        rewrite Cc in Hc. injection Hc as ->. rewrite lookup_insert_ne by congruence. exact K.
      * exists c'. rewrite lookup_alter_ne by congruence. now split.
  - intros conn' c' h' t' Hc' Hh'.
    assert (Old : forall c0, C !! conn' = Some c0 -> track_db c0 !! h' = Some t' ->
      t' ∈ t :: T /\ exists tr' d, (t', tr') ∈ (t, tr) :: l /\ <[tr_user_data tr:=mk_user_data conn h inst]> U !! tr_user_data tr' = Some d /\ ud_conn d = conn' /\ ud_track_handle d = h').
    { intros c0 H0 K0. destruct (ow_handle _ _ _ _ O _ _ _ _ H0 K0) as (HT & tr' & d & Hl & D & E1 & E2). split; [now right|].
      exists tr', d. split; [now right|]. rewrite lookup_insert_ne; [now split|]. intros E. rewrite E in Hu. congruence. }
    destruct (decide (conn' = conn)) as [->|N].
    + rewrite lookup_alter_eq, Hc in Hc'. injection Hc' as <-. cbn in Hh'. destruct (decide (h' = h)) as [->|Nh].
      * rewrite lookup_insert_eq in Hh'. injection Hh' as <-. split; [left|]. exists tr, (mk_user_data conn h inst). rewrite lookup_insert_eq. split; [left | now split].
      * rewrite lookup_insert_ne in Hh' by congruence. exact (Old _ Hc Hh').
    + rewrite lookup_alter_ne in Hc' by congruence. exact (Old _ Hc' Hh').
Qed.

Lemma filter_fst_nodup {A} (p : Z * A -> bool) (l : list (Z * A)) : NoDup (List.map fst l) -> NoDup (List.map fst (List.filter p l)).
Proof.
  induction l as [|[x y] l IH]; intros N; [constructor|]. apply NoDup_cons in N as [N1 N]. cbn. destruct (p (x, y)); [|exact (IH N)].
  cbn. apply NoDup_cons. split; [|exact (IH N)]. intros H. apply N1. apply list_elem_of_In, in_map_iff in H as ([x' y'] & <- & H).
  apply filter_In in H as [H _]. apply (pair_in _ _ y'). now apply list_elem_of_In.
Qed.

Lemma owning_remove l T U C conn c h t tr : owning l T U C -> C !! conn = Some c -> track_db c !! h = Some t -> (t, tr) ∈ l ->
  owning (List.filter (fun x => negb (fst x =? t)) l) (List.filter (fun x => negb (x =? t)) T) (delete (tr_user_data tr) U)
    (alter (fun c => c <| track_db ::= delete h |>) conn C).
Proof.
  intros O Hc Hh Ht. pose proof (ow_nodup _ _ _ _ O) as N.
  assert (HT : t ∈ T) by (apply (ow_handle _ _ _ _ O _ _ _ _ Hc Hh)).
  assert (Hd : exists d, U !! tr_user_data tr = Some d /\ ud_conn d = conn /\ ud_track_handle d = h).
  { destruct (ow_handle _ _ _ _ O _ _ _ _ Hc Hh) as (_ & tr' & d & Hl & D & E). rewrite (pair_unique _ _ _ _ N Ht Hl). now exists d. }
  destruct Hd as (d & D & Ec & Eh).
  assert (Left : forall x y, (x, y) ∈ List.filter (fun x => negb (fst x =? t)) l <-> (x, y) ∈ l /\ x <> t).
  { intros x y. rewrite !list_elem_of_In, filter_In. cbn. rewrite negb_true_iff, Z.eqb_neq. reflexivity. }
  assert (LeftT : forall x, x ∈ List.filter (fun x => negb (x =? t)) T <-> x ∈ T /\ x <> t).
  { intros x. rewrite !list_elem_of_In, filter_In. cbn. rewrite negb_true_iff, Z.eqb_neq. reflexivity. }
  assert (Data : forall x y, (x, y) ∈ l -> x ∈ T -> x <> t -> tr_user_data y <> tr_user_data tr).
  { intros x y H1 H2 H3 E. apply H3. exact (owning_data _ _ _ _ _ _ _ _ O H1 H2 Ht HT E). }
  constructor.
  - now apply filter_fst_nodup.
  - intros x [H1 H2]%LeftT. apply (ow_listed _ _ _ _ O) in H1. apply list_elem_of_In, in_map_iff in H1 as ([x' y] & <- & H1).
    apply (pair_in _ _ y). apply Left. cbn in *. split; [now apply list_elem_of_In | exact H2].
  - intros t' tr' [H1 H2]%Left [H3 _]%LeftT. destruct (ow_tracker _ _ _ _ O _ _ H1 H3) as (d' & c' & D' & Cc & K). exists d'.
    rewrite lookup_delete_ne by (pose proof (Data _ _ H1 H3 H2); congruence).
    destruct (decide (ud_conn d' = conn)) as [E|Nc].
    + exists (c' <| track_db ::= delete h |>). rewrite E in *. rewrite lookup_alter_eq, Cc. split; [exact D'|]. split; [reflexivity|]. cbn.
      rewrite lookup_delete_ne; [exact K|]. rewrite Hc in Cc. injection Cc as <-. intros ->. congruence.
    + exists c'. rewrite lookup_alter_ne by congruence. now split.
  - intros conn' c' h' t' Hc' Hh'.
    assert (Old : exists c0, C !! conn' = Some c0 /\ track_db c0 !! h' = Some t' /\ t' <> t).
    { destruct (decide (conn' = conn)) as [->|Nc].
      - rewrite lookup_alter_eq, Hc in Hc'. injection Hc' as <-. cbn in Hh'. apply lookup_delete_Some in Hh' as [Nh Hh']. exists c. split; [exact Hc|]. split; [exact Hh'|].
        intros ->. destruct (owning_handles _ _ _ _ _ _ _ _ _ _ _ O Hc Hh Hc Hh'). congruence.
      - rewrite lookup_alter_ne in Hc' by congruence. exists c'. split; [exact Hc'|]. split; [exact Hh'|]. intros ->.
        destruct (owning_handles _ _ _ _ _ _ _ _ _ _ _ O Hc Hh Hc' Hh'). congruence. }
    destruct Old as (c0 & H0 & K0 & Nt). destruct (ow_handle _ _ _ _ O _ _ _ _ H0 K0) as (HT' & tr' & d' & Hl & D' & E1 & E2).
    split; [apply LeftT; now split|]. exists tr', d'. split; [apply Left; now split|]. split; [|now split].
    rewrite lookup_delete_ne; [exact D'|]. pose proof (Data _ _ Hl HT' Nt). congruence.
Qed.

(** Connections may come, go without handles, and change in other ways. *)
Lemma owning_conns l T U C C' : owning l T U C ->
  (forall conn h t, (exists c, C !! conn = Some c /\ track_db c !! h = Some t) <-> (exists c, C' !! conn = Some c /\ track_db c !! h = Some t)) -> owning l T U C'.
Proof.
  intros O E. constructor; [apply O | apply O | |].
  - intros t tr H1 H2. destruct (ow_tracker _ _ _ _ O _ _ H1 H2) as (d & c & D & Cc & K).
    destruct (proj1 (E (ud_conn d) (ud_track_handle d) t)) as (c' & Cc' & K'); [now exists c|]. now exists d, c'.
  - intros conn c h t Hc Hh. destruct (proj2 (E conn h t)) as (c' & Hc' & Hh'); [now exists c|]. exact (ow_handle _ _ _ _ O _ _ _ _ Hc' Hh').
Qed.

Section Theory.
Context {M : Type} `{QB : qb_map M} `{QL : !qb_map_laws M}.
Context (stats_pref_iter : gmap string cs_stats_conv -> string -> list string) (found_in_removal : bool) (env : stats_env).
Context (totem_nodeid_get : Z) (totem_mcast : req_exec_cmap_mcast -> Z) (notify_del : Z -> Z).

(** ** The invariant *)

(** All clients use the configuration map; the tracker of the version watches its key only. *)
Record cmap_inv (s : cmap M) : Prop := {
  iv_ok : icmap_ok (cm_icmap s);
  iv_global : is_Some (map_at (icmap_global_map (cm_icmap s)) (cm_icmap s));
  iv_own : owning (icmap_track_list (cm_icmap s)) (cm_tracks s) (cm_user_data s) (cm_conns s);
  iv_icmap : forall conn c, cm_conns s !! conn = Some c -> map_fns c = icmap_map;
  iv_version : cmap_config_version_track s ∉ cm_tracks s;
  iv_watch : forall n, n ∈ ic_notifiers (cm_icmap s) -> no_data n = cmap_config_version_track s ->
    no_key n = Some CONFIG_VERSION /\ QB_RECURSIVE (no_events n) = false
}.

(** ** Callbacks *)

(** Nothing stops the node, and notifications go to connections of [C]. *)
Definition quiet (C : gmap Z cmap_conn_info) (e : cmap_effect) : Prop :=
  match e with CmapShutdownRequest => False | CmapNotifyCallback conn _ _ _ _ _ => is_Some (C !! conn) | _ => True end.

(** Callbacks only send messages, and may read the version anew. *)
Definition called_back (v : Z) (l : list cmap_effect) (s : cmap M) : cmap M :=
  mk_cmap (cm_icmap s) (cm_stats s) (cm_conns s) (cm_user_data s) (cm_tracks s) (cmap_sync_trans_list_entries s)
    (cmap_sync_member_list_entries s) (cmap_highest_config_version_received s) v (cmap_first_sync s) (cmap_config_version_track s) (cm_out s ++ l).

Record calls_back (s s' : cmap M) : Prop := { cb_state : exists v l, s' = called_back v l s /\ Forall (quiet (cm_conns s)) l }.

Lemma calls_back_refl s : calls_back s s.
Proof. constructor. exists (cmap_my_config_version s), []. split; [destruct s; unfold called_back; cbn; now rewrite app_nil_r | constructor]. Qed.

Lemma calls_back_trans s1 s2 s3 : calls_back s1 s2 -> calls_back s2 s3 -> calls_back s1 s3.
Proof.
  intros [(v & l & -> & Q)] [(v' & l' & -> & Q')]. constructor. exists v', (l ++ l').
  split; [unfold called_back; cbn; now rewrite app_assoc | now apply Forall_app].
Qed.

Lemma calls_back_emit e s : quiet (cm_conns s) e -> calls_back s (cmap_emit e s).
Proof. intros Q. constructor. exists (cmap_my_config_version s), [e]. split; [now destruct s | now repeat constructor]. Qed.

Lemma calls_back_inv s s' : calls_back s s' -> cmap_inv s -> cmap_inv s'.
Proof. intros [(v & l & -> & _)] [I1 I2 I3 I4 I5 I6]. now constructor. Qed.

Lemma calls_back_version v s : calls_back s (s <| cmap_my_config_version := v |>).
Proof. constructor. exists v, []. split; [destruct s; unfold called_back; cbn; now rewrite app_nil_r | constructor]. Qed.

Lemma mcast_version reason m (s : cmap M) : icmap_ok m -> is_Some (map_at (icmap_global_map m) m) ->
  cmap_mcast_send totem_mcast reason [CONFIG_VERSION] m s =
  Some (if totem_mcast (version_message reason m) =? 0 then (CS_OK, cmap_emit (CmapMcast (version_message reason m)) s) else (CS_ERR_MESSAGE_ERROR, s)).
Proof. intros Ok Hg. unfold cmap_mcast_send. cbn [length]. change (Nat.ltb _ 1) with false. now rewrite version_items by assumption. Qed.

Lemma version_cb_runs seen (s : cmap M) : icmap_ok seen -> is_Some (map_at (icmap_global_map seen) seen) ->
  exists s', cmap_config_version_track_cb totem_mcast seen s = Some s' /\ calls_back s s'.
Proof.
  intros Ok Hg. unfold cmap_config_version_track_cb. rewrite read_config_version_spec by assumption. cbn [mbind option_bind]. rewrite mcast_version by assumption.
  cbn [mbind option_bind]. destruct (_ =? 0); (eexists; split; [reflexivity|]); [eapply calls_back_trans; [apply calls_back_version | now apply calls_back_emit] | apply calls_back_version].
Qed.

(** A callback whose data is there and whose key fits the message. *)
Definition call_ok (s : cmap M) (e : icmap_effect) : Prop :=
  let '(IcmapNotify t _ k _ _ u) := e in (t ∈ cm_tracks s -> exists d, cm_user_data s !! u = Some d /\ is_Some (cm_conns s !! ud_conn d)) /\ (length (chars k) <= CS_MAX_NAME_LENGTH)%nat.

Lemma callbacks_run seen l (s : cmap M) : icmap_ok seen -> is_Some (map_at (icmap_global_map seen) seen) -> Forall (call_ok s) l ->
  exists s', icmap_callbacks totem_mcast seen l s = Some s' /\ calls_back s s' /\
    ((forall t ev k n o u, IcmapNotify t ev k n o u ∈ l -> t <> cmap_config_version_track s) -> cmap_my_config_version s' = cmap_my_config_version s).
Proof.
  intros Ok Hg. revert s. induction l as [|[t ev k n o u] l IH]; intros s F.
  { exists s. split; [reflexivity|]. split; [apply calls_back_refl | reflexivity]. }
  apply Forall_cons in F as [[Fu Fk] F]. cbn [icmap_callbacks].
  assert (S : exists s1, icmap_callback totem_mcast seen (IcmapNotify t ev k n o u) s = Some s1 /\ calls_back s s1 /\
    (t <> cmap_config_version_track s -> cmap_my_config_version s1 = cmap_my_config_version s)).
  { unfold icmap_callback. destruct (Z.eqb_spec t (cmap_config_version_track s)) as [E|E].
    - destruct (version_cb_runs seen s Ok Hg) as (s1 & -> & C). exists s1. split; [reflexivity|]. split; [exact C | contradiction].
    - destruct (bool_decide_reflect (t ∈ cm_tracks s)) as [HT|HT]; [|exists s; split; [reflexivity|]; split; [apply calls_back_refl | reflexivity]].
      destruct (Fu HT) as (d & Hd & Hc). unfold cmap_notify_fn. rewrite Hd. cbn [mbind option_bind]. rewrite (proj2 (Nat.leb_le _ _) Fk).
      eexists. split; [reflexivity|]. split; [now apply calls_back_emit | reflexivity]. }
  destruct S as (s1 & -> & C & V). cbn [mbind option_bind].
  destruct (IH s1) as (s' & R & C' & V').
  { destruct C as [(v & l1 & -> & _)]. eapply Forall_impl; [exact F|]. intros [? ? ? ? ? ?] H. exact H. }
  exists s'. split; [exact R|]. split; [exact (calls_back_trans _ _ _ C C')|]. intros H. rewrite V'.
  - apply V. eapply H. left.
  - intros t' ev' k' n' o' u' Hin. destruct C as [(v & l1 & -> & _)]. cbn. eapply H. right. exact Hin.
Qed.

(** The callbacks of a change are those of trackers that are listed. *)
Lemma calls_listed k old new same (m : icmap M) t ev k' n o u : IcmapNotify t ev k' n o u ∈ calls k old new same m ->
  k' = k /\ exists tr x, (t, tr) ∈ icmap_track_list m /\ u = tr_user_data tr /\ x ∈ ic_notifiers m /\ no_data x = t /\ qb_meant k (event_of old new) x = true.
Proof.
  unfold calls. intros H. apply list_elem_of_In, in_concat in H as (l & Hl & H). apply in_map_iff in Hl as (x & <- & Hx).
  destruct (list_find (fun y => fst y = no_data x) (icmap_track_list m)) as [[i [t' tr]]|] eqn:F; [|destruct H].
  apply list_find_Some in F as (Hi & Ft & _). cbn in Ft. apply list_elem_of_lookup_2 in Hi.
  assert (X : IcmapNotify t ev k' n o u = IcmapNotify t' (icmap_qbtt_to_tt (event_of old new)) k (notify_value new) (if same then None else notify_value old) (tr_user_data tr)).
  { unfold icmap_notify_fn in H. destruct new, old; cbn in H; [destruct H as [H|[]]; symmetry; exact H.. | destruct H]. }
  injection X as -> _ -> _ _ ->. split; [reflexivity|]. exists tr, x. split; [exact Hi|]. split; [reflexivity|].
  apply list_elem_of_In in Hx. rewrite qb_notified_perm in Hx. apply list_elem_of_In, filter_In in Hx as [Hx Q]. apply list_elem_of_In in Hx. now rewrite Ft.
Qed.

Lemma key_fits k : icmap_check_key_name k = true -> (length (chars k) <= CS_MAX_NAME_LENGTH)%nat.
Proof.
  unfold icmap_check_key_name. intros [[_ H]%andb_true_iff _]%andb_true_iff. apply Nat.leb_le in H. unfold ICMAP_KEYNAME_MAXLEN, CS_MAX_NAME_LENGTH in *. lia.
Qed.

(** A change of one key of the configuration map, or none. *)
Definition one_key (k : string) (m m' : icmap M) : Prop :=
  m' = m \/ exists old new same, change (icmap_global_map m) k old new same m m'.

Lemma one_key_inv k (s : cmap M) m' : cmap_inv s -> one_key k (cm_icmap s) m' -> cmap_inv (s <| cm_icmap := m' |>).
Proof.
  intros [I1 I2 I3 I4 I5 I6] [->|(old & new & same & C)]; [now constructor|]. constructor; cbn.
  - exact (change_ok _ _ _ _ _ _ _ C I1).
  - rewrite (ch_global _ _ _ _ _ _ _ C). now apply (ch_maps _ _ _ _ _ _ _ C).
  - rewrite (ch_tracks _ _ _ _ _ _ _ C). exact I3.
  - exact I4.
  - exact I5.
  - rewrite (ch_notifiers _ _ _ _ _ _ _ C). exact I6.
Qed.

Lemma one_key_runs k seen (s : cmap M) m' : cmap_inv s -> one_key k (cm_icmap s) m' -> icmap_ok seen -> is_Some (map_at (icmap_global_map seen) seen) ->
  exists s', icmap_changed totem_mcast seen m' s = Some s' /\ calls_back (s <| cm_icmap := m' |>) s' /\ cmap_inv s' /\
    (k <> CONFIG_VERSION -> cmap_my_config_version s' = cmap_my_config_version s).
Proof.
  intros I O Ok Hg. pose proof (one_key_inv _ _ _ I O) as I'. unfold icmap_changed. destruct O as [->|(old & new & same & C)].
  { rewrite drop_all. cbn [icmap_callbacks]. eexists. split; [reflexivity|]. split; [apply calls_back_refl|]. now split. }
  rewrite (ch_out _ _ _ _ _ _ _ C), Z.eqb_refl, drop_app_length.
  destruct (callbacks_run seen (calls k old new same (cm_icmap s)) (s <| cm_icmap := m' |>) Ok Hg) as (s' & R & B & V).
  { apply Forall_forall. intros [t ev k' n o u] H. apply calls_listed in H as (-> & tr & x & Ht & -> & _). split.
    - intros HT. destruct (ow_tracker _ _ _ _ (iv_own _ I) _ _ Ht HT) as (d & c & D & Hc & _). exists d. split; [exact D | now exists c].
    - apply key_fits. destruct old as [i|] eqn:Eo.
      + exact (proj2 (iv_ok _ I _ _ _ (ch_old _ _ _ _ _ _ _ C))).
      + destruct new as [i|] eqn:En; [|destruct (ch_some _ _ _ _ _ _ _ C); congruence]. now apply (proj1 (ch_new_ok _ _ _ _ _ _ _ C i eq_refl)). }
  exists s'. split; [exact R|]. split; [exact B|]. split; [exact (calls_back_inv _ _ B I')|]. intros E. rewrite V; [reflexivity|].
  intros t ev k' n o u H ->. apply calls_listed in H as (-> & tr & x & _ & _ & Hx & Dx & Q).
  destruct (iv_watch _ I x Hx Dx) as [K R']. unfold qb_meant in Q. rewrite K, R' in Q. apply andb_true_iff in Q as [W Q]. rewrite orb_false_r in Q.
  apply String.eqb_eq in Q as <-. now apply E.
Qed.

(** ** Requests on the map *)

(** The bytes of a value are in the request; a string is terminated. *)
Definition value_given (value : list Z) (value_len : nat) (type : icmap_value_types_t) : Prop :=
  match type with ICMAP_VALUETYPE_STRING => is_Some (mem_strlen value) | _ => (value_len <= length value)%nat end.

Lemma stored_fits v n t b : icmap_check_value_len v n t = Some b -> b = true -> value_given v n t ->
  (n <= length v)%nat /\ exists k, stored_len v n t = Some k /\ new_value_len v n t = Some k /\ (n <= k <= length v)%nat.
Proof.
  intros E Hb G. destruct (check_value_len_spec _ _ _ _ E Hb) as [_ B]. unfold value_given in G.
  destruct t; try (cbn in B; split; [lia|]; exists n; cbn; split; [reflexivity|]; split; [congruence | lia]).
  destruct B as (k & Hk & B). destruct (mem_strlen_spec _ _ Hk) as (l & r & -> & _ & <-). cbn. rewrite Hk. rewrite length_app. cbn.
  split; [lia|]. exists (S (Nat.min (length l) n)). repeat split; lia.
Qed.

Lemma set_total map k v n t (m : icmap M) : is_Some (map_at map m) -> value_given v n t ->
  exists e m', icmap_set_r map (Some k) (Some v) n t m = Some (e, m').
Proof.
  intros [mm Hm] G. unfold icmap_set_r.
  assert (exists b, icmap_check_value_len v n t = Some b) as [b Eb].
  { unfold icmap_check_value_len. destruct (Nat.ltb _ n); [eauto|]. destruct t; eauto. destruct G as [k' G]. rewrite G. cbn. eauto. }
  rewrite Eb. cbn [mbind option_bind]. destruct b; cbn [negb]; [|eauto]. destruct (stored_fits _ _ _ _ Eb eq_refl G) as (Hn & j & S1 & S2 & Hj).
  rewrite Hm. cbn [mbind option_bind].
  assert (exists b, match qb_map_get mm k with Some i => icmap_item_eq i v n t | None => Some false end = Some b) as [b ->].
  { destruct (qb_map_get mm k) as [i|]; [|eauto]. unfold icmap_item_eq. destruct (negb _); [eauto|]. rewrite S1. cbn [mbind option_bind].
    destruct (Nat.eqb_spec (ii_value_len i) j) as [E|]; [|eauto]. unfold ii_value_len in E. rewrite !mem_read_some by lia. cbn. eauto. }
  cbn [mbind option_bind]. destruct b; [eauto|]. destruct (_ && _); [eauto|]. rewrite S2. cbn [mbind option_bind]. unfold item_value. rewrite mem_read_some by lia.
  cbn [mbind option_bind]. unfold put. rewrite Hm. cbn. eauto.
Qed.

Lemma set_one_key k v n t (m m' : icmap M) e : icmap_ok m -> icmap_set (Some k) (Some v) n t m = Some (e, m') -> one_key k m m'.
Proof.
  intros Ok E. destruct (set_change _ _ _ _ _ _ _ _ Ok E) as [[_ ->]|[_ (i & _ & [[-> _]|[old C]])]]; [now left.. |]. right. eauto.
Qed.

Lemma delete_one_key k (m m' : icmap M) e : icmap_delete (Some k) m = Some (e, m') -> one_key k m m'.
Proof. intros E. destruct (delete_change _ _ _ _ _ E) as [[_ ->]|[_ [old C]]]; [now left | right; eauto]. Qed.

Lemma delete_total k (m : icmap M) : is_Some (map_at (icmap_global_map m) m) -> exists e m', icmap_delete (Some k) m = Some (e, m').
Proof. intros [gm Hg]. unfold icmap_delete, icmap_delete_r. rewrite Hg. cbn. destruct (qb_map_get gm k); eauto. Qed.

Lemma adjust_one_key k step (m m' : icmap M) e : icmap_ok m -> icmap_adjust_int (Some k) step m = Some (e, m') -> one_key k m m'.
Proof.
  intros Ok E. destruct (adjust_is_set _ _ _ _ _ _ E) as [[_ ->]|(i & v & _ & _ & Es)]; [now left|]. exact (set_one_key _ _ _ _ _ _ _ Ok Es).
Qed.

Lemma adjust_total k step (m : icmap M) : icmap_ok m -> is_Some (map_at (icmap_global_map m) m) -> exists e m', icmap_adjust_int (Some k) step m = Some (e, m').
Proof.
  intros Ok Hg. unfold icmap_adjust_int, icmap_adjust_int_r. destruct Hg as [gm Hg]. rewrite Hg. cbn [mbind option_bind].
  destruct (qb_map_get gm k) as [i|] eqn:G; [|eauto]. destruct (adjusted i step) as [v|] eqn:A; [|eauto].
  apply set_total; [eauto|]. unfold adjusted in A. unfold value_given. destruct (ii_type i); try discriminate; injection A as <-; lia.
Qed.

(** ** Connections *)

Lemma conns_inv (s : cmap M) C' : cmap_inv s ->
  (forall conn h t, (exists c, cm_conns s !! conn = Some c /\ track_db c !! h = Some t) <-> (exists c, C' !! conn = Some c /\ track_db c !! h = Some t)) ->
  (forall conn c, C' !! conn = Some c -> map_fns c = icmap_map) -> cmap_inv (s <| cm_conns := C' |>).
Proof. intros [I1 I2 I3 I4 I5 I6] E F. constructor; try assumption. exact (owning_conns _ _ _ _ _ I3 E). Qed.

(** A change of a connection that keeps its trackers. *)
Lemma upd_conn_inv conn f (s : cmap M) : cmap_inv s -> (forall c, track_db (f c) = track_db c) -> (forall c, map_fns c = icmap_map -> map_fns (f c) = icmap_map) ->
  cmap_inv (upd_conn conn f s).
Proof.
  intros I Ht Hf. apply (conns_inv s (alter f conn (cm_conns s)) I).
  - intros conn' h t. destruct (decide (conn = conn')) as [<-|N]; [|now rewrite lookup_alter_ne].
    rewrite lookup_alter_eq. destruct (cm_conns s !! conn) as [c|]; cbn; [|split; intros (c & H & _); discriminate].
    split; intros (c' & [= <-] & H); [exists (f c) | exists c]; (split; [reflexivity|]); now rewrite ?Ht in *.
  - intros conn' c' H. apply lookup_alter_Some in H as [(<- & c & Hc & ->)|[_ H]]; [apply Hf; exact (iv_icmap _ I _ _ Hc) | exact (iv_icmap _ I _ _ H)].
Qed.

Lemma emit_inv e (s : cmap M) : cmap_inv s -> cmap_inv (cmap_emit e s).
Proof. intros [I1 I2 I3 I4 I5 I6]. now constructor. Qed.

Context (notify_del_ok : forall t, notify_del t = 0).

Lemma track_delete_runs t tr (m : icmap M) : NoDup (List.map fst (icmap_track_list m)) -> (t, tr) ∈ icmap_track_list m ->
  icmap_track_get_user_data t m = Some (tr_user_data tr) /\
  icmap_track_delete t (notify_del t) m = Some (CS_OK,
    m <| ic_notifiers ::= List.filter (fun n => negb (bool_decide (n = mk_notifier (tr_key_name tr) (icmap_tt_to_qbtt (tr_track_type tr)) t))) |>
      <| icmap_track_list ::= List.filter (fun x => negb (fst x =? t)) |>).
Proof.
  intros N H. destruct (find_unique _ _ _ N H) as [i F]. unfold icmap_track_get_user_data, icmap_track_delete. rewrite F, notify_del_ok. cbn. now split.
Qed.

(** Freeing the data of a tracker and deleting it, with its handle. *)
Lemma handle_deleted conn c h t (s : cmap M) : cmap_inv s -> cm_conns s !! conn = Some c -> track_db c !! h = Some t ->
  exists u d s', map_track_get_user_data icmap_map t s = Some u /\ cm_user_data s !! u = Some d /\
    map_track_delete notify_del icmap_map t (free_user_data u s) = Some (CS_OK, s') /\
    cm_conns s' = cm_conns s /\ cm_out s' = cm_out s /\ cmap_inv (upd_conn conn (fun c => c <| track_db ::= delete h |>) s').
Proof.
  intros I Hc Hh. destruct (ow_handle _ _ _ _ (iv_own _ I) _ _ _ _ Hc Hh) as (HT & tr & d & Ht & Hd & _ & _).
  destruct (track_delete_runs t tr (cm_icmap s) (ow_nodup _ _ _ _ (iv_own _ I)) Ht) as [E1 E2]. exists (tr_user_data tr), d.
  unfold map_track_get_user_data, map_track_delete. cbn [cm_icmap]. rewrite E1.
  change (cm_icmap (free_user_data (tr_user_data tr) s)) with (cm_icmap s). rewrite E2. cbn [mbind option_bind]. change (CS_OK =? CS_OK) with true. cbv iota.
  eexists. split; [reflexivity|]. split; [exact Hd|]. split; [reflexivity|]. split; [reflexivity|]. split; [reflexivity|].
  destruct I as [I1 I2 I3 I4 I5 I6]. constructor; cbn.
  - intros map k i L. exact (I1 map k i L).
  - exact I2.
  - exact (owning_remove _ _ _ _ _ _ _ _ _ I3 Hc Hh Ht).
  - intros conn' c' H. apply lookup_alter_Some in H as [(<- & c0 & H0 & ->)|[_ H]]; [exact (I4 _ _ H0) | exact (I4 _ _ H)].
  - intros H. apply list_elem_of_In, filter_In in H as [H _]. apply I5. now apply list_elem_of_In.
  - intros n H. apply list_elem_of_In, filter_In in H as [H _]. apply I6. now apply list_elem_of_In.
Qed.

(** All handles of a connection. *)
Definition with_db (conn : Z) (db : gmap Z Z) (s : cmap M) : cmap M := upd_conn conn (fun c => c <| track_db := db |>) s.

Lemma handles_deleted conn c l (s : cmap M) : NoDup l.*1 -> cm_conns s !! conn = Some c -> cmap_inv (with_db conn (list_to_map l) s) ->
  exists s', delete_tracks notify_del icmap_map l s = Some s' /\ cm_conns s' = cm_conns s /\ cm_out s' = cm_out s /\ cmap_inv (with_db conn ∅ s').
Proof.
  revert s. induction l as [|[h t] l IH]; intros s N Hc I; [exists s; now split|].
  cbn [list_to_map foldr delete_tracks] in *. apply NoDup_cons in N as [Nh N].
  destruct (handle_deleted conn (c <| track_db := <[h := t]> (list_to_map l) |>) h t (with_db conn (<[h := t]> (list_to_map l)) s) I)
    as (u & d & s1 & E1 & E2 & E3 & E4 & E5 & I1); [cbn; now rewrite lookup_alter_eq, Hc | cbn; now rewrite lookup_insert_eq|].
  change (map_track_get_user_data icmap_map t (with_db conn (<[h := t]> (list_to_map l)) s)) with (map_track_get_user_data icmap_map t s) in E1.
  rewrite E1. cbn [mbind option_bind].
  assert (E3' : exists s2, map_track_delete notify_del icmap_map t (free_user_data u s) = Some (CS_OK, s2) /\ s1 = s2 <| cm_conns := cm_conns (with_db conn (<[h := t]> (list_to_map l)) s) |> /\ cm_conns s2 = cm_conns s /\ cm_out s2 = cm_out s).
  { unfold map_track_delete in *. change (cm_icmap (free_user_data u (with_db conn (<[h := t]> (list_to_map l)) s))) with (cm_icmap (free_user_data u s)) in E3.
    destruct (icmap_track_delete t (notify_del t) (cm_icmap (free_user_data u s))) as [[r m]|]; [|discriminate]. cbn [mbind option_bind] in *.
    injection E3 as -> <-. eexists. split; [reflexivity|]. now destruct s. }
  destruct E3' as (s2 & E3' & -> & C2 & O2). rewrite E3'. cbn [mbind option_bind].
  destruct (IH s2 N) as (s' & R & C' & O' & I'); [now rewrite C2 | |].
  - assert (Q : upd_conn conn (fun c => c <| track_db ::= delete h |>) (s2 <| cm_conns := cm_conns (with_db conn (<[h := t]> (list_to_map l)) s) |>) = with_db conn (list_to_map l) s2).
    { change (cm_conns (with_db conn (<[h := t]> (list_to_map l)) s)) with (alter (fun c => c <| track_db := <[h := t]> (list_to_map l) |>) conn (cm_conns s)).
      rewrite <- C2. unfold with_db, upd_conn. destruct s2 as [m st C U T a1 a2 a3 a4 a5 a6 o]. change (cm_conns (mk_cmap m st C U T a1 a2 a3 a4 a5 a6 o)) with C.
      change (mk_cmap m st (alter (fun c => c <| track_db ::= delete h |>) conn (alter (fun c => c <| track_db := <[h := t]> (list_to_map l) |>) conn C))
                U T a1 a2 a3 a4 a5 a6 o = mk_cmap m st (alter (fun c => c <| track_db := list_to_map l |>) conn C) U T a1 a2 a3 a4 a5 a6 o).
      f_equal.
      apply map_eq. intros conn'. destruct (decide (conn = conn')) as [<-|Nc]; [rewrite !lookup_alter_eq | now rewrite !lookup_alter_ne by congruence].
      destruct (C !! conn) as [c0|]; [|reflexivity]. 
      change (Some (mk_conn_info (iter_db c0) (delete h (<[h := t]> (list_to_map l))) (map_fns c0)) = Some (mk_conn_info (iter_db c0) (list_to_map l) (map_fns c0))).
      rewrite delete_insert_id; [reflexivity | now apply not_elem_of_list_to_map]. }
    now rewrite <- Q.
  - exists s'. split; [exact R|]. split; [congruence|]. split; [congruence | exact I'].
Qed.
End Theory.
