(* ===== verification/CmapProps.v ===== *)
(** * The configuration map service: theorems *)
From stdpp Require Import gmap pretty.
From S2P Require Import Prelude CString VoteQuorumExec Cpg Icmap IcmapTheory IcmapProps Util Stats StatsProps Cmap CmapMessages CmapTheory.
Local Open Scope Z_scope.

(** What happens to the service: requests of clients, messages of nodes, and the
    synchronisation. *)
Inductive cmap_event :=
| CmConnect (conn : Z)
| CmClose (conn : Z)
| CmSet (conn : Z) (key : string) (value : list Z) (value_len : nat) (type : icmap_value_types_t)
| CmDelete (conn : Z) (key : string)
| CmGet (conn : Z) (key : string) (value_len : nat)
| CmAdjust (conn : Z) (key : string) (step : Z)
| CmIterInit (conn : Z) (prefix : string) (created : Z + Z)
| CmIterNext (conn handle : Z)
| CmIterFinalize (conn handle : Z)
| CmTrackAdd (conn : Z) (key_name : option string) (track_type inst u addr : Z) (memory : list Z) (err : Z) (created : Z + Z)
| CmTrackDelete (conn handle : Z)
| CmSetMap (conn map : Z)
| CmSyncInit (trans_list_entries member_list_entries : Z)
| CmSyncProcess
| CmSyncActivate
| CmMcast (m : req_exec_cmap_mcast) (nodeid : Z).

Section Service.
Context {M : Type} `{QB : qb_map M} `{QL : !qb_map_laws M}.
Context (stats_pref_iter : gmap string cs_stats_conv -> string -> list string) (found_in_removal : bool) (env : stats_env).
Context (totem_nodeid_get : Z) (totem_mcast : req_exec_cmap_mcast -> Z) (notify_del : Z -> Z).

Definition cmap_step (e : cmap_event) (s : cmap M) : option (cmap M) :=
  match e with
  | CmConnect conn => Some (cmap_lib_init_fn conn s)
  | CmClose conn => cmap_lib_exit_fn notify_del conn s
  | CmSet conn key value n type => message_handler_req_lib_cmap_set found_in_removal env totem_mcast conn key value n type s
  | CmDelete conn key => message_handler_req_lib_cmap_delete found_in_removal totem_mcast conn key s
  | CmGet conn key n => message_handler_req_lib_cmap_get env conn key n s
  | CmAdjust conn key step => message_handler_req_lib_cmap_adjust_int totem_mcast conn key step s
  | CmIterInit conn prefix created => message_handler_req_lib_cmap_iter_init conn prefix created s
  | CmIterNext conn handle => message_handler_req_lib_cmap_iter_next stats_pref_iter conn handle s
  | CmIterFinalize conn handle => message_handler_req_lib_cmap_iter_finalize conn handle s
  | CmTrackAdd conn key type inst u addr memory err created => message_handler_req_lib_cmap_track_add env conn key type inst u addr memory err created s
  | CmTrackDelete conn handle => message_handler_req_lib_cmap_track_delete notify_del conn handle s
  | CmSetMap conn map => message_handler_req_lib_cmap_set_current_map conn map s
  | CmSyncInit t n => cmap_sync_init t n s
  | CmSyncProcess => '(_, s) ← cmap_sync_process totem_mcast s; Some s
  | CmSyncActivate => Some (cmap_sync_activate s)
  | CmMcast m nodeid => message_handler_req_exec_cmap_mcast totem_nodeid_get totem_mcast m nodeid s
  end.

Fixpoint cmap_run (es : list cmap_event) (s : cmap M) : option (cmap M) :=
  match es with [] => Some s | e :: es => s ← cmap_step e s; cmap_run es s end.

(** Requests come from open connections and carry their values; what is allocated is
    new; clients stay with the configuration map; messages are complete. *)
Definition cmap_event_ok (e : cmap_event) (s : cmap M) : Prop :=
  match e with
  | CmConnect conn => cm_conns s !! conn = None
  | CmSet conn _ value n type => is_Some (cm_conns s !! conn) /\ value_given value n type
  | CmClose conn | CmDelete conn _ | CmGet conn _ _ | CmAdjust conn _ _ | CmIterInit conn _ _ | CmIterNext conn _ | CmIterFinalize conn _
  | CmTrackDelete conn _ => is_Some (cm_conns s !! conn)
  | CmTrackAdd conn _ _ _ u addr _ err created =>
      err <= 0 /\ cm_user_data s !! u = None /\ addr ∉ List.map fst (icmap_track_list (cm_icmap s)) /\ addr <> cmap_config_version_track s /\
      exists c h, cm_conns s !! conn = Some c /\ created = inr h /\ track_db c !! h = None
  | CmSetMap conn map => is_Some (cm_conns s !! conn) /\ map <> CMAP_SETMAP_STATS
  | CmMcast m _ => is_Some (message_config_version m)
  | CmSyncInit _ _ | CmSyncProcess | CmSyncActivate => True
  end.

Fixpoint cmap_events_ok (es : list cmap_event) (s : cmap M) : Prop :=
  match es with
  | [] => True
  | e :: es => cmap_event_ok e s /\ match cmap_step e s with Some s => cmap_events_ok es s | None => True end
  end.

(** ** One event *)

(** Whom the new messages may go to: the connections that are open. *)
Definition tells (s : cmap M) (e : cmap_effect) : Prop :=
  match e with CmapNotifyCallback conn _ _ _ _ _ => is_Some (cm_conns s !! conn) | _ => True end.

(** [N]: the connections that may have been opened; [K]: the keys of the configuration
    map that may have changed. *)
Record stepped (N : Z -> Prop) (K : string -> Prop) (s s' : cmap M) : Prop := {
  sd_inv : cmap_inv s';
  sd_global : icmap_global_map (cm_icmap s') = icmap_global_map (cm_icmap s);
  sd_ro : icmap_ro_access_item_list (cm_icmap s') = icmap_ro_access_item_list (cm_icmap s);
  sd_keys : forall k, ~ K k -> lookup_item (icmap_global_map (cm_icmap s)) k (cm_icmap s') = lookup_item (icmap_global_map (cm_icmap s)) k (cm_icmap s);
  sd_conns : forall c, ~ N c -> cm_conns s !! c = None -> cm_conns s' !! c = None;
  sd_out : exists l, cm_out s' = cm_out s ++ l /\ Forall (tells s) l
}.

Lemma stepped_same_map N K s s' l : cmap_inv s' -> cm_icmap s' = cm_icmap s -> (forall c, ~ N c -> cm_conns s !! c = None -> cm_conns s' !! c = None) -> cm_out s' = cm_out s ++ l -> Forall (tells s) l -> stepped N K s s'.
Proof. intros I E C O F. constructor; rewrite ?E; [exact I | reflexivity.. | exact C |]. now exists l. Qed.

Lemma quiet_tells s e : quiet (cm_conns s) e -> tells s e.
Proof. now destruct e. Qed.

Lemma stepped_emit N K s s' e : stepped N K s s' -> tells s e -> stepped N K s (cmap_emit e s').
Proof.
  intros [I G R L C (l & O & F)] T. constructor; [exact (emit_inv _ _ I) | exact G | exact R | exact L | exact C |].
  exists (l ++ [e]). split; [cbn; now rewrite O, app_assoc | apply Forall_app; split; [exact F | now repeat constructor]].
Qed.

(** A change of one key, with its callbacks. *)
Lemma stepped_key N k seen s m' : cmap_inv s -> one_key k (cm_icmap s) m' -> icmap_ok seen -> is_Some (map_at (icmap_global_map seen) seen) ->
  exists s', icmap_changed totem_mcast seen m' s = Some s' /\ stepped N (eq k) s s' /\ calls_back (s <| cm_icmap := m' |>) s' /\
    (k <> CONFIG_VERSION -> cmap_my_config_version s' = cmap_my_config_version s).
Proof.
  intros I O Ok Hg. destruct (one_key_runs totem_mcast k seen s m' I O Ok Hg) as (s' & R & B & I' & V). exists s'. split; [exact R|]. split; [|split; [exact B | exact V]].
  destruct B as [(v & l & -> & Q)]. constructor; [exact I' | | | | |].
  - destruct O as [->|(old & new & same & C)]; [reflexivity | exact (ch_global _ _ _ _ _ _ _ C)].
  - destruct O as [->|(old & new & same & C)]; [reflexivity | exact (ch_ro _ _ _ _ _ _ _ C)].
  - intros k' Nk. destruct O as [->|(old & new & same & C)]; [reflexivity|]. cbn. rewrite (ch_lookup _ _ _ _ _ _ _ C), Z.eqb_refl. cbn.
    destruct (String.eqb_spec k k'); [contradiction | reflexivity].
  - intros c _ H. exact H.
  - exists l. split; [reflexivity|]. eapply Forall_impl; [exact Q|]. intros e. apply quiet_tells.
Qed.

Lemma stepped_mono N (K K' : string -> Prop) s s' : (forall k, K k -> K' k) -> stepped N K s s' -> stepped N K' s s'.
Proof. intros H [I G R L C O]. constructor; [exact I | exact G | exact R | | exact C | exact O]. intros k Nk. apply L. auto. Qed.

(** The keys that an event may change: those that clients may write, and the versions of the nodes. *)
Definition may_change (e : cmap_event) (s : cmap M) (k : string) : Prop :=
  match e with
  | CmSet _ key _ _ _ | CmDelete _ key | CmAdjust _ key _ => key = k /\ icmap_is_key_ro key (cm_icmap s) = false
  | CmMcast _ nodeid => member_version_key nodeid = k
  | _ => False
  end.

Lemma stays_in s N (K : string -> Prop) : cmap_inv s -> stepped N K s s.
Proof. intros I. apply (stepped_same_map N K s s []); [exact I | reflexivity | auto | now rewrite app_nil_r | constructor]. Qed.

Lemma alter_closed (N : Z -> Prop) (f : cmap_conn_info -> cmap_conn_info) conn (C : gmap Z cmap_conn_info) c : ~ N c -> C !! c = None -> alter f conn C !! c = None.
Proof. intros _ H. now apply lookup_alter_None. Qed.

Lemma upd_conn_stepped N K conn f s : cmap_inv s -> (forall c, track_db (f c) = track_db c) -> (forall c, map_fns c = icmap_map -> map_fns (f c) = icmap_map) ->
  stepped N K s (upd_conn conn f s).
Proof.
  intros I Ht Hf. apply (stepped_same_map N K s _ []); [now apply upd_conn_inv | reflexivity | now apply alter_closed | cbn; now rewrite app_nil_r | constructor].
Qed.

(** A request that writes a key: refused, or one key changes. *)
Lemma write_stepped N conn key (answer : Z -> cmap_effect) (f : cmap_map -> cmap M -> option (Z * cmap M)) s :
  cmap_inv s -> (forall r, tells s (answer r)) -> (exists r s', f icmap_map s = Some (r, s') /\ stepped N (eq key) s s') -> is_Some (cm_conns s !! conn) ->
  exists s', (c ← cm_conns s !! conn;
    '(ret, s) ← (if map_is_key_ro (map_fns c) key s then Some (CS_ERR_ACCESS, s) else f (map_fns c) s); Some (cmap_emit (answer ret) s)) = Some s' /\
    stepped N (fun k => key = k /\ icmap_is_key_ro key (cm_icmap s) = false) s s'.
Proof.
  intros I T (r & s' & F & S) [c Hc]. rewrite Hc. cbn [mbind option_bind]. rewrite (iv_icmap _ I _ _ Hc). cbn [map_is_key_ro].
  destruct (icmap_is_key_ro key (cm_icmap s)) eqn:R.
  - cbn [mbind option_bind]. eexists. split; [reflexivity|]. apply stepped_emit; [now apply stays_in | apply T].
  - rewrite F. cbn [mbind option_bind]. eexists. split; [reflexivity|]. apply stepped_emit; [|apply T]. eapply stepped_mono; [|exact S]. now intros k <-.
Qed.

Lemma set_stepped N conn key value n type s : cmap_inv s -> is_Some (cm_conns s !! conn) -> value_given value n type ->
  exists s', cmap_step (CmSet conn key value n type) s = Some s' /\ stepped N (may_change (CmSet conn key value n type) s) s s'.
Proof.
  intros I Hc G. apply (write_stepped N conn key (ResCmapSet conn) (fun fns s => map_set found_in_removal env totem_mcast fns key value n type s) s I); [easy | | exact Hc].
  destruct (set_total (icmap_global_map (cm_icmap s)) key value n type (cm_icmap s) (iv_global _ I) G) as (e & m' & E). unfold map_set, icmap_set. rewrite E. cbn [mbind option_bind].
  pose proof (set_one_key _ _ _ _ _ _ _ (iv_ok _ I) E) as O. pose proof (one_key_inv key s m' I O) as I'.
  destruct (stepped_key N key m' s m' I O (iv_ok _ I') (iv_global _ I')) as (s' & -> & S & _). cbn [mbind option_bind]. eauto.
Qed.

Lemma delete_stepped N conn key s : cmap_inv s -> is_Some (cm_conns s !! conn) ->
  exists s', cmap_step (CmDelete conn key) s = Some s' /\ stepped N (may_change (CmDelete conn key) s) s s'.
Proof.
  intros I Hc. apply (write_stepped N conn key (ResCmapDelete conn) (fun fns s => map_delete found_in_removal totem_mcast fns key s) s I); [easy | | exact Hc].
  destruct (delete_total key (cm_icmap s) (iv_global _ I)) as (e & m' & E). unfold map_delete. rewrite E. cbn [mbind option_bind].
  pose proof (delete_one_key _ _ _ _ E) as O. pose proof (one_key_inv key s m' I O) as I'.
  destruct (stepped_key N key (if found_in_removal then cm_icmap s else m') s m' I O) as (s' & -> & S & _).
  - destruct found_in_removal; [exact (iv_ok _ I) | exact (iv_ok _ I')].
  - destruct found_in_removal; [exact (iv_global _ I) | exact (iv_global _ I')].
  - cbn [mbind option_bind]. eauto.
Qed.

Lemma adjust_stepped N conn key step s : cmap_inv s -> is_Some (cm_conns s !! conn) ->
  exists s', cmap_step (CmAdjust conn key step) s = Some s' /\ stepped N (may_change (CmAdjust conn key step) s) s s'.
Proof.
  intros I Hc. apply (write_stepped N conn key (ResCmapAdjustInt conn) (fun fns s => map_adjust_int totem_mcast fns key step s) s I); [easy | | exact Hc].
  destruct (adjust_total key step (cm_icmap s) (iv_ok _ I) (iv_global _ I)) as (e & m' & E). unfold map_adjust_int. rewrite E. cbn [mbind option_bind].
  pose proof (adjust_one_key _ _ _ _ _ (iv_ok _ I) E) as O. pose proof (one_key_inv key s m' I O) as I'.
  destruct (stepped_key N key m' s m' I O (iv_ok _ I') (iv_global _ I')) as (s' & -> & S & _). cbn [mbind option_bind]. eauto.
Qed.

Lemma get_stepped N K conn key n s : cmap_inv s -> is_Some (cm_conns s !! conn) -> exists s', cmap_step (CmGet conn key n) s = Some s' /\ stepped N K s s'.
Proof.
  intros I [c Hc]. cbn [cmap_step]. unfold message_handler_req_lib_cmap_get. rewrite Hc. cbn [mbind option_bind]. rewrite (iv_icmap _ I _ _ Hc).
  unfold icmap_get. rewrite get_r_lookup by exact (iv_global _ I). unfold in_buffer. cbn [mbind option_bind].
  destruct (lookup_item _ key _) as [i|]; [destruct (Nat.ltb 0 n) eqn:En; cbn [negb] |].
  - destruct (Nat.ltb_spec n (ii_value_len i)); cbn [g_value default length]; rewrite (proj2 (Nat.leb_le _ _)) by (unfold ii_value_len in *; cbn; lia);
      (eexists; split; [reflexivity|]; apply stepped_emit; [now apply stays_in | exact Logic.I]).
  - eexists; split; [reflexivity|]. apply stepped_emit; [now apply stays_in | exact Logic.I].
  - eexists; split; [reflexivity|]. apply stepped_emit; [now apply stays_in | exact Logic.I].
Qed.

Lemma next_key_in it keys k : next_key it keys = Some k -> k ∈ keys.
Proof.
  unfold next_key. destruct (it_passed it) as [p|].
  - intros H. apply fmap_Some in H as ([i y] & F & ->). apply list_find_Some in F as [F _]. now apply list_elem_of_lookup_2 in F.
  - destruct keys; [discriminate|]. intros [= ->]. left.
Qed.

Lemma iter_next_stepped N K conn handle s : cmap_inv s -> is_Some (cm_conns s !! conn) -> exists s', cmap_step (CmIterNext conn handle) s = Some s' /\ stepped N K s s'.
Proof.
  intros I [c Hc]. cbn [cmap_step]. unfold message_handler_req_lib_cmap_iter_next. rewrite Hc. cbn [mbind option_bind].
  destruct (iter_db c !! handle) as [it|]; [|eexists; split; [reflexivity|]; apply stepped_emit; [now apply stays_in | exact Logic.I]].
  rewrite (iv_icmap _ I _ _ Hc). cbn [map_iter_next]. unfold icmap_iter_init, icmap_iter_init_r. destruct (iv_global _ I) as [gm Hg]. rewrite Hg. cbn [mbind option_bind default from_option]. unfold id.
  destruct (next_key it (qb_map_pref_iter gm (it_prefix it))) as [k|] eqn:Ek.
  2:{ cbn [mbind option_bind]. eexists; split; [reflexivity|]. apply stepped_emit; [now apply stays_in | exact Logic.I]. }
  apply next_key_in, qb_iter_keys in Ek as [_ Ek]. cbn [icmap_iter_next]. rewrite Hg. cbn [mbind option_bind].
  destruct (qb_map_get gm k) as [i|] eqn:Ei; [|contradiction]. cbn [mbind option_bind].
  assert (L : (length (chars k) <= CS_MAX_NAME_LENGTH)%nat).
  { apply key_fits. apply (iv_ok _ I (icmap_global_map (cm_icmap s)) k i). unfold lookup_item. now rewrite Hg. }
  rewrite (proj2 (Nat.leb_le _ _) L). eexists; split; [reflexivity|]. apply stepped_emit; [now apply upd_conn_stepped | exact Logic.I].
Qed.

Context (notify_del_ok : forall t, notify_del t = 0).

Lemma track_add_stepped N K e s : cmap_inv s -> cmap_event_ok e s -> match e with CmTrackAdd _ _ _ _ _ _ _ _ _ => True | _ => False end ->
  exists s', cmap_step e s = Some s' /\ stepped N K s s'.
Proof.
  intros I Ok. destruct e as [| | | | | | | | |conn key type inst u addr memory err created| | | | | |]; try easy. intros _. destruct Ok as (He & Hu & Ha & Hv & c & h & Hc & -> & Hh).
  cbn [cmap_step]. unfold message_handler_req_lib_cmap_track_add. rewrite Hc. cbn [mbind option_bind]. rewrite (iv_icmap _ I _ _ Hc). cbn [map_track_add].
  destruct (icmap_track_add key type u addr err (cm_icmap (s <| cm_user_data ::= <[u:=mk_user_data 0 0 0]> |>))) as [ret m] eqn:E. cbn [mbind option_bind].
  unfold icmap_track_add in E. change (cm_icmap (s <| cm_user_data ::= <[u:=mk_user_data 0 0 0]> |>)) with (cm_icmap s) in E.
  assert (D : ret <> CS_OK /\ m = cm_icmap s \/ ret = CS_OK /\
    m = cm_icmap s <| ic_notifiers ::= fun l => l ++ [mk_notifier key (icmap_tt_to_qbtt type) addr] |> <| icmap_track_list ::= cons (addr, mk_track key type u) |>).
  { destruct (c_true _); [injection E as <- <-; now left|]. destruct (Z.eqb_spec err 0) as [->|Ne]; cbn [negb] in E; injection E as <- <-; [now right|].
    left. split; [|reflexivity]. unfold qb_to_cs_error. rewrite (proj2 (Z.leb_gt _ _)) by lia.
    repeat match goal with |- context [if ?b then _ else _] => destruct b end; discriminate. }
  destruct D as [[Nr ->]|[-> ->]].
  - rewrite (proj2 (Z.eqb_neq _ _) Nr). cbn [negb]. eexists. split; [reflexivity|]. apply stepped_emit; [|exact Logic.I].
    apply (stepped_same_map N K s _ []); [|reflexivity | now intros c' _ H | cbn; now rewrite app_nil_r | constructor]. destruct I as [I1 I2 I3 I4 I5 I6].
    constructor; try assumption. cbn. unfold id. rewrite delete_insert_id by exact Hu. exact I3.
  - change (CS_OK =? CS_OK) with true. cbn [negb]. eexists. split; [reflexivity|]. apply stepped_emit; [|exact Logic.I].
    constructor; [|reflexivity.. | now apply alter_closed | exists []; split; [cbn; now rewrite app_nil_r | constructor]]. destruct I as [I1 I2 I3 I4 I5 I6]. constructor; cbn.
    + intros map k i L. exact (I1 map k i L).
    + exact I2.
    + rewrite insert_insert_eq. exact (owning_add _ _ _ _ conn c h addr (mk_track key type u) inst I3 Hc Hh Ha Hu).
    + intros conn' c' H. apply lookup_alter_Some in H as [(<- & c0 & H0 & ->)|[_ H]]; [exact (I4 _ _ H0) | exact (I4 _ _ H)].
    + intros [H|H]%elem_of_cons; [congruence | exact (I5 H)].
    + intros n H Hd. apply elem_of_app in H as [H|H]; [exact (I6 n H Hd)|]. apply list_elem_of_singleton in H as ->. cbn in Hd. congruence.
Qed.

(** Deleting trackers leaves the keys alone. *)
Lemma track_deleted_map t (s : cmap M) r s' : map_track_delete notify_del icmap_map t s = Some (r, s') ->
  icmap_global_map (cm_icmap s') = icmap_global_map (cm_icmap s) /\ icmap_ro_access_item_list (cm_icmap s') = icmap_ro_access_item_list (cm_icmap s) /\
  ic_maps (cm_icmap s') = ic_maps (cm_icmap s).
Proof.
  unfold map_track_delete, icmap_track_delete. destruct (list_find _ _) as [[i [x y]]|]; [|discriminate]. cbn [mbind option_bind].
  destruct (negb _); intros [= _ <-]; repeat split; reflexivity.
Qed.

Lemma tracks_deleted_map l (s : cmap M) s' : delete_tracks notify_del icmap_map l s = Some s' ->
  icmap_global_map (cm_icmap s') = icmap_global_map (cm_icmap s) /\ icmap_ro_access_item_list (cm_icmap s') = icmap_ro_access_item_list (cm_icmap s) /\
  ic_maps (cm_icmap s') = ic_maps (cm_icmap s).
Proof.
  revert s. induction l as [|[h t] l IH]; intros s; cbn [delete_tracks]; [intros [= <-]; now repeat split|].
  intros (u & _ & H)%bind_Some. apply bind_Some in H as ([r s1] & E & H). apply track_deleted_map in E as (G & R & Mp). apply IH in H as (G' & R' & Mp').
  change (cm_icmap (free_user_data u s)) with (cm_icmap s) in *. repeat split; congruence.
Qed.

Lemma track_delete_stepped N K conn handle s : cmap_inv s -> is_Some (cm_conns s !! conn) -> exists s', cmap_step (CmTrackDelete conn handle) s = Some s' /\ stepped N K s s'.
Proof.
  intros I [c Hc]. cbn [cmap_step]. unfold message_handler_req_lib_cmap_track_delete. rewrite Hc. cbn [mbind option_bind].
  destruct (track_db c !! handle) as [t|] eqn:Hh; [|eexists; split; [reflexivity|]; apply stepped_emit; [now apply stays_in | exact Logic.I]].
  rewrite (iv_icmap _ I _ _ Hc). destruct (handle_deleted notify_del notify_del_ok conn c handle t s I Hc Hh) as (u & d & s' & -> & E2 & E3 & E4 & E5 & I').
  cbn [mbind option_bind]. rewrite E2. cbn [mbind option_bind]. rewrite E3. cbn [mbind option_bind]. eexists. split; [reflexivity|]. apply stepped_emit; [|exact Logic.I].
  pose proof (track_deleted_map _ _ _ _ E3) as (G & R & Mp). constructor; [exact I' | exact G | exact R | | |].
  - intros k _. unfold lookup_item, map_at. cbn. now rewrite Mp.
  - intros c' _ H. apply lookup_alter_None. now rewrite E4.
  - exists []. split; [cbn; now rewrite E5, app_nil_r | constructor].
Qed.

Lemma connect_stepped K conn s : cmap_inv s -> cm_conns s !! conn = None -> exists s', cmap_step (CmConnect conn) s = Some s' /\ stepped (eq conn) K s s'.
Proof.
  intros I Hc. eexists. split; [reflexivity|]. apply (stepped_same_map _ K s _ [CmapRefcntInc conn]); [|reflexivity | | reflexivity | now repeat constructor].
  2:{ intros c' Nc H. cbn. now rewrite lookup_insert_ne. }
  change (cmap_inv (cmap_emit (CmapRefcntInc conn) s <| cm_conns := <[conn := mk_conn_info ∅ ∅ icmap_map]> (cm_conns s) |>)).
  apply (conns_inv _ _ (emit_inv _ _ I)).
  - intros conn' h t. change (cm_conns (cmap_emit (CmapRefcntInc conn) s)) with (cm_conns s). destruct (decide (conn = conn')) as [<-|N]; [|now rewrite lookup_insert_ne].
    rewrite Hc, lookup_insert_eq. split; [now intros (c & [=] & _)|]. intros (c & [= <-] & H). cbn in H. now rewrite lookup_empty in H.
  - intros conn' c H. apply lookup_insert_Some in H as [[_ <-]|[_ H]]; [reflexivity | exact (iv_icmap _ I _ _ H)].
Qed.

(** A connection that is closed takes its trackers with it. *)
Lemma close_stepped N K conn s : cmap_inv s -> is_Some (cm_conns s !! conn) -> exists s', cmap_step (CmClose conn) s = Some s' /\ stepped N K s s'.
Proof.
  intros I [c Hc]. cbn [cmap_step]. unfold cmap_lib_exit_fn. rewrite Hc. cbn [mbind option_bind]. rewrite (iv_icmap _ I _ _ Hc).
  assert (Same : cmap_inv (with_db conn (list_to_map (map_to_list (track_db c))) s)).
  { rewrite list_to_map_to_list. apply (conns_inv s (alter (fun c0 => c0 <| track_db := track_db c |>) conn (cm_conns s)) I).
    - intros conn' h t. destruct (decide (conn = conn')) as [<-|Nc]; [|now rewrite lookup_alter_ne]. rewrite lookup_alter_eq, Hc. cbn.
      split; intros (c' & [= <-] & H); (eexists; split; [reflexivity | exact H]).
    - intros conn' c' H. apply lookup_alter_Some in H as [(<- & c0 & H0 & ->)|[_ H]]; [exact (iv_icmap _ I _ _ H0) | exact (iv_icmap _ I _ _ H)]. }
  destruct (handles_deleted notify_del notify_del_ok conn c _ s (NoDup_fst_map_to_list _) Hc Same) as (s' & R & C' & O' & I').
  pose proof (tracks_deleted_map _ _ _ R) as (G & Ro & Mp). rewrite R. cbn [mbind option_bind]. eexists. split; [reflexivity|].
  constructor; [|exact G | exact Ro | | |].
  - change (cmap_inv (cmap_emit (CmapRefcntDec conn) s' <| cm_conns := delete conn (cm_conns s') |>)).
    change (cmap_inv (cmap_emit (CmapRefcntDec conn) (with_db conn ∅ s') <| cm_conns := delete conn (cm_conns s') |>)). apply (conns_inv _ _ (emit_inv _ _ I')).
    + intros conn' h t. change (cm_conns (cmap_emit (CmapRefcntDec conn) (with_db conn ∅ s'))) with (alter (fun c0 => c0 <| track_db := ∅ |>) conn (cm_conns s')).
      destruct (decide (conn = conn')) as [<-|Nc]; [|now rewrite lookup_alter_ne, lookup_delete_ne]. rewrite lookup_alter_eq, lookup_delete_eq, C', Hc. cbn.
      split; [intros (c' & [= <-] & H); cbn in H; now rewrite lookup_empty in H | now intros (c' & [=] & _)].
    + intros conn' c' H. apply lookup_delete_Some in H as [_ H]. rewrite C' in H. exact (iv_icmap _ I _ _ H).
  - intros k _. unfold lookup_item, map_at. cbn. now rewrite Mp.
  - intros c' _ H. cbn. rewrite C'. apply lookup_delete_None. now right.
  - exists [CmapRefcntDec conn]. split; [cbn; now rewrite O' | now repeat constructor].
Qed.

(** ** Messages of the nodes *)

Lemma version_key_differs nodeid : member_version_key nodeid <> CONFIG_VERSION.
Proof. unfold member_version_key, snprintf. intros E. apply (f_equal (fun s => head (chars s))) in E. discriminate. Qed.

(** The highest version that was received, after a message. *)
Definition higher (nodeid v highest : Z) : Z := if negb (nodeid =? totem_nodeid_get) && (highest <? v) then v else highest.

(** What a message leaves of the synchronisation, if it is one of its messages. *)
Record heard (nodeid v : Z) (s s' : cmap M) : Prop := {
  hd_my : cmap_my_config_version s' = cmap_my_config_version s;
  hd_highest : cmap_highest_config_version_received s' = higher nodeid v (cmap_highest_config_version_received s);
  hd_first : cmap_first_sync s' = cmap_first_sync s;
  hd_trans : cmap_sync_trans_list_entries s' = cmap_sync_trans_list_entries s;
  hd_out : exists l, cm_out s' = cm_out s ++ l /\ CmapShutdownRequest ∉ l
}.

Lemma mcast_runs N m nodeid v s : cmap_inv s -> message_config_version m = Some v ->
  exists s', cmap_step (CmMcast m nodeid) s = Some s' /\ stepped N (eq (member_version_key nodeid)) s s' /\
    (mm_reason m = CMAP_MCAST_REASON_SYNC -> heard nodeid v s s').
Proof.
  intros I Hv. cbn [cmap_step]. unfold message_handler_req_exec_cmap_mcast.
  destruct (_ || _) eqn:Rs; [|eexists; split; [reflexivity|]; split; [now apply stays_in|]; intros E; rewrite E in Rs; discriminate].
  unfold message_handler_req_exec_cmap_mcast_reason_sync_nv. rewrite Hv. cbn [mbind option_bind].
  match goal with |- context [if ?b then s <| cmap_highest_config_version_received := v |> else s] => set (s1 := if b then s <| cmap_highest_config_version_received := v |> else s) end.
  assert (I1 : cmap_inv s1 /\ cm_icmap s1 = cm_icmap s /\ cm_out s1 = cm_out s /\ cm_conns s1 = cm_conns s)
    by (unfold s1; destruct (_ && _); (split; [destruct I; now constructor | repeat split; reflexivity])).
  assert (H1 : cmap_my_config_version s1 = cmap_my_config_version s /\ cmap_highest_config_version_received s1 = higher nodeid v (cmap_highest_config_version_received s) /\
    cmap_first_sync s1 = cmap_first_sync s /\ cmap_sync_trans_list_entries s1 = cmap_sync_trans_list_entries s)
    by (unfold s1, higher; destruct (_ && _); repeat split; reflexivity).
  destruct I1 as (I1 & Em & Eo & Ec). destruct (set_total (icmap_global_map (cm_icmap s1)) (member_version_key nodeid) (le_bytes 8 v) 8 ICMAP_VALUETYPE_UINT64 (cm_icmap s1) (iv_global _ I1))
    as (e & m' & E); [cbn; lia|]. unfold icmap_set_uint64, icmap_set_uint64_r, set_int. change (icmap_get_valuetype_len ICMAP_VALUETYPE_UINT64) with 8%nat. rewrite E. cbn [mbind option_bind].
  pose proof (set_one_key _ _ _ _ _ _ _ (iv_ok _ I1) E) as O. pose proof (one_key_inv _ s1 m' I1 O) as I'.
  destruct (stepped_key N _ m' s1 m' I1 O (iv_ok _ I') (iv_global _ I')) as (s' & R & S & B & V). exists s'. split; [exact R|]. split.
  - destruct S as [J G Ro L C (l & Out & F)]. rewrite Em in *. constructor; [exact J | exact G | exact Ro | exact L | now rewrite <- Ec |]. exists l. split; [now rewrite Out, Eo|].
    eapply Forall_impl; [exact F|]. intros [] H; try exact H. unfold tells in *. now rewrite <- Ec.
  - intros _. destruct H1 as (M1 & M2 & M3 & M4). specialize (V (version_key_differs nodeid)). destruct B as [(v' & l & -> & Q)].
    constructor; [now rewrite V | exact M2 | exact M3 | exact M4 |]. exists l. split; [cbn; now rewrite Eo|]. intros Hin. rewrite Forall_forall in Q. exact (Q _ Hin).
Qed.

(** ** Runs *)

Definition opens (e : cmap_event) (conn : Z) : Prop := e = CmConnect conn.

Lemma step_stepped e s : cmap_inv s -> cmap_event_ok e s -> exists s', cmap_step e s = Some s' /\ stepped (opens e) (may_change e s) s s'.
Proof.
  intros I Ok. destruct e; cbn [cmap_event_ok] in Ok.
  - destruct (connect_stepped (may_change (CmConnect conn) s) conn s I Ok) as (s' & E & S). exists s'. split; [exact E|].
    destruct S as [J G R L C O]. constructor; [exact J | exact G | exact R | exact L | | exact O]. intros c Nc. apply C. intros <-. now apply Nc.
  - now apply close_stepped.
  - now apply set_stepped.
  - now apply delete_stepped.
  - now apply get_stepped.
  - now apply adjust_stepped.
  - destruct Ok as [c Hc]. cbn [cmap_step]. unfold message_handler_req_lib_cmap_iter_init. rewrite Hc. cbn [mbind option_bind].
    destruct created; (eexists; split; [reflexivity|]; apply stepped_emit; [|exact Logic.I]); [now apply stays_in | now apply upd_conn_stepped].
  - now apply iter_next_stepped.
  - destruct Ok as [c Hc]. cbn [cmap_step]. unfold message_handler_req_lib_cmap_iter_finalize. rewrite Hc. cbn [mbind option_bind].
    destruct (iter_db c !! handle); (eexists; split; [reflexivity|]; apply stepped_emit; [|exact Logic.I]); [now apply upd_conn_stepped | now apply stays_in].
  - now apply (track_add_stepped _ _ (CmTrackAdd conn key_name track_type inst u addr memory err created)).
  - now apply track_delete_stepped.
  - destruct Ok as [[c Hc] Hm]. cbn [cmap_step]. unfold message_handler_req_lib_cmap_set_current_map. rewrite Hc. cbn [mbind option_bind]. eexists. split; [reflexivity|].
    destruct (negb _); [apply stepped_emit; [now apply stays_in | exact Logic.I]|].
    destruct (map =? CMAP_SETMAP_DEFAULT); [apply stepped_emit; [now apply upd_conn_stepped | exact Logic.I]|].
    rewrite (proj2 (Z.eqb_neq _ _) Hm). apply stepped_emit; [now apply stays_in | exact Logic.I].
  - cbn [cmap_step]. unfold cmap_sync_init. rewrite read_config_version_spec by apply I. cbn [mbind option_bind]. eexists. split; [reflexivity|].
    apply (stepped_same_map _ _ s _ []); [destruct I; now constructor | reflexivity | now intros c' _ H | cbn; now rewrite app_nil_r | constructor].
  - cbn [cmap_step]. unfold cmap_sync_process. rewrite (mcast_version totem_mcast) by apply I. cbn [mbind option_bind].
    destruct (_ =? 0); cbn [mbind option_bind]; (eexists; split; [reflexivity|]); [apply stepped_emit; [now apply stays_in | exact Logic.I] | now apply stays_in].
  - cbn [cmap_step]. eexists. split; [reflexivity|]. unfold cmap_sync_activate.
    assert (F : stepped (opens CmSyncActivate) (fun _ => False) s (s <| cmap_first_sync := 0 |>)) by (apply (stepped_same_map _ _ s _ []); [destruct I; now constructor | reflexivity | now intros c' _ H | cbn; now rewrite app_nil_r | constructor]).
    destruct (_ =? 0); [now apply stays_in|]. destruct (negb _); [now apply stays_in|]. cbn zeta. destruct (_ =? 0); [exact F|]. destruct (negb _); [|exact F]. now apply stepped_emit.
  - destruct Ok as [v Hv]. destruct (mcast_runs (opens (CmMcast m nodeid)) m nodeid v s I Hv) as (s' & E & S & _). now exists s'.
Qed.
(** What a run keeps: nothing is told to a connection that was neither open nor opened,
    and the keys outside of [K] stay as they were. *)
Record went (es : list cmap_event) (s s' : cmap M) : Prop := {
  wt_inv : cmap_inv s';
  wt_global : icmap_global_map (cm_icmap s') = icmap_global_map (cm_icmap s);
  wt_ro : icmap_ro_access_item_list (cm_icmap s') = icmap_ro_access_item_list (cm_icmap s);
  wt_keys : forall k, icmap_is_key_ro k (cm_icmap s) = true -> (forall m nodeid, CmMcast m nodeid ∈ es -> member_version_key nodeid <> k) ->
    lookup_item (icmap_global_map (cm_icmap s)) k (cm_icmap s') = lookup_item (icmap_global_map (cm_icmap s)) k (cm_icmap s);
  wt_conns : forall c, CmConnect c ∉ es -> cm_conns s !! c = None -> cm_conns s' !! c = None;
  wt_out : exists l, cm_out s' = cm_out s ++ l /\
    forall conn inst event key new old, CmapNotifyCallback conn inst event key new old ∈ l -> is_Some (cm_conns s !! conn) \/ CmConnect conn ∈ es
}.

Lemma key_ro_list k (m m' : icmap M) : icmap_ro_access_item_list m' = icmap_ro_access_item_list m -> icmap_is_key_ro k m' = icmap_is_key_ro k m.
Proof. unfold icmap_is_key_ro. now intros ->. Qed.

Lemma may_change_rw e s k : may_change e s k -> icmap_is_key_ro k (cm_icmap s) = false \/ exists m nodeid, e = CmMcast m nodeid /\ member_version_key nodeid = k.
Proof. destruct e; cbn; try contradiction; [intros [<- H]; now left..|]. right. eauto. Qed.

Lemma run_went es s : cmap_inv s -> cmap_events_ok es s -> exists s', cmap_run es s = Some s' /\ went es s s'.
Proof.
  revert s. induction es as [|e es IH]; intros s I Ok.
  { exists s. split; [reflexivity|]. constructor; try easy. exists []. split; [now rewrite app_nil_r|]. intros * H. now apply elem_of_nil in H. }
  cbn [cmap_events_ok cmap_run] in *. destruct Ok as [Oe Ok]. destruct (step_stepped e s I Oe) as (s1 & E & S). rewrite E in Ok |- *. cbn [mbind option_bind].
  destruct S as [I1 G1 R1 K1 C1 (l1 & O1 & F1)]. destruct (IH s1 I1 Ok) as (s' & -> & [I2 G2 R2 K2 C2 (l2 & O2 & F2)]). exists s'. split; [reflexivity|].
  constructor; [exact I2 | congruence | congruence | | |].
  - intros k Hk Hm. rewrite G1 in K2. rewrite K2.
    + apply K1. intros [H|(m & nodeid & -> & H)]%may_change_rw; [congruence|]. apply (Hm m nodeid); [left | exact H].
    + now rewrite (key_ro_list k (cm_icmap s)).
    + intros m nodeid H. apply (Hm m). now right.
  - intros c Hc H. apply C2; [intros X; apply Hc; now right|]. apply C1; [|exact H]. unfold opens. intros ->. apply Hc. left.
  - exists (l1 ++ l2). split; [now rewrite O2, O1, app_assoc|]. intros conn inst event key new old [H|H]%elem_of_app.
    + left. rewrite Forall_forall in F1. exact (F1 _ H).
    + destruct (F2 _ _ _ _ _ _ H) as [[c Hc]|Hc]; [|right; now right].
      assert (e = CmConnect conn \/ e <> CmConnect conn) as [->|Ne] by (destruct e; try (right; discriminate); destruct (Z.eq_dec conn0 conn) as [->|]; [now left | right; congruence]); [right; left|].
      destruct (cm_conns s !! conn) eqn:X; [left; eauto|]. rewrite (C1 conn Ne X) in Hc. discriminate.
Qed.

(** ** The first synchronisation *)

(** The version of a message that is complete. *)
Definition said (p : req_exec_cmap_mcast * Z) : Z := default 0 (message_config_version (fst p)).

Lemma messages_heard (ms : list (req_exec_cmap_mcast * Z)) s :
  cmap_inv s -> (forall m id, (m, id) ∈ ms -> mm_reason m = CMAP_MCAST_REASON_SYNC /\ is_Some (message_config_version m)) ->
  exists s', cmap_run (List.map (fun p => CmMcast (fst p) (snd p)) ms) s = Some s' /\ cmap_inv s' /\
    cmap_my_config_version s' = cmap_my_config_version s /\ cmap_first_sync s' = cmap_first_sync s /\
    cmap_sync_trans_list_entries s' = cmap_sync_trans_list_entries s /\
    cmap_highest_config_version_received s' = fold_left (fun h p => higher (snd p) (said p) h) ms (cmap_highest_config_version_received s) /\
    exists l, cm_out s' = cm_out s ++ l /\ CmapShutdownRequest ∉ l.
Proof.
  revert s. induction ms as [|[m id] ms IH]; intros s I H.
  { exists s. do 6 (split; [easy|]). exists []. split; [now rewrite app_nil_r | apply not_elem_of_nil]. }
  cbn [List.map cmap_run fst snd fold_left]. destruct (H m id) as [Hr [v Hv]]; [left|].
  assert (Hs : said (m, id) = v) by (unfold said; cbn [fst]; now rewrite Hv). rewrite Hs.
  destruct (mcast_runs (fun _ => False) m id v s I Hv) as (s1 & -> & S & Hd). cbn [mbind option_bind].
  destruct (Hd Hr) as [M1 M2 M3 M4 (l1 & O1 & F1)]. destruct (IH s1 (sd_inv _ _ _ _ S)) as (s' & -> & I' & N1 & N2 & N3 & N4 & l2 & O2 & F2); [intros m' id' X; apply (H m' id'); now right|].
  exists s'. split; [reflexivity|]. rewrite <- M1, <- M2, <- M3, <- M4. do 5 (split; [assumption|]). exists (l1 ++ l2). split; [now rewrite O2, O1, app_assoc|]. intros [X|X]%elem_of_app; auto.
Qed.

Lemma highest_spec {A} (ms : list A) (id version : A -> Z) v : v <= fold_left (fun h p => higher (id p) (version p) h) ms v /\
  (v < fold_left (fun h p => higher (id p) (version p) h) ms v <-> exists p, p ∈ ms /\ id p <> totem_nodeid_get /\ v < version p).
Proof.
  revert v. induction ms as [|p ms IH]; intros v; cbn [fold_left].
  { split; [lia|]. split; [lia|]. intros (p & H & _). now apply elem_of_nil in H. }
  destruct (IH (higher (id p) (version p) v)) as [L X].
  assert (Hh : v <= higher (id p) (version p) v /\ (v < higher (id p) (version p) v <-> id p <> totem_nodeid_get /\ v < version p)).
  { unfold higher. destruct (Z.eqb_spec (id p) totem_nodeid_get); cbn [negb andb]; [split; [lia | split; [lia | easy]]|].
    destruct (Z.ltb_spec v (version p)); split; try lia; split; try lia; now intros []. }
  destruct Hh as [L1 X1]. split; [lia|]. split.
  - intros H. destruct (Z.eq_dec v (higher (id p) (version p) v)) as [E|Ne].
    + rewrite <- E in X at 1. destruct (proj1 X H) as (q & Hq & R). exists q. split; [now right|]. rewrite <- E in R. exact R.
    + exists p. split; [left | apply X1; lia].
  - intros (q & [->|Hq]%elem_of_cons & N & V); [pose proof (proj2 X1 (conj N V)); lia|].
    destruct (Z_lt_dec (higher (id p) (version p) v) (version q)) as [Y|Y]; [|lia]. enough (higher (id p) (version p) v < fold_left (fun h p0 => higher (id p0) (version p0) h) ms (higher (id p) (version p) v)) by lia.
    apply X. eauto.
Qed.

(** C32: Clients of the configuration map are served safely.  Whatever requests open
    connections make on the configuration map, and whatever messages and
    synchronisations come in between, no data of a tracker is used after it was freed
    (every step has a result), the trackers and the handles of the clients keep
    belonging to each other, and a notification goes only to a connection that was open
    at the start or was opened since: closing a connection ends its trackers. *)
Theorem cmap_clients_safe es s : cmap_inv s -> cmap_events_ok es s ->
  exists s' l, cmap_run es s = Some s' /\ cmap_inv s' /\ cm_out s' = cm_out s ++ l /\
    (forall conn inst event key new old, CmapNotifyCallback conn inst event key new old ∈ l -> is_Some (cm_conns s !! conn) \/ CmConnect conn ∈ es) /\
    (forall conn, cm_conns s !! conn = None -> CmConnect conn ∉ es -> cm_conns s' !! conn = None).
Proof.
  intros I Ok. destruct (run_went es s I Ok) as (s' & R & [I' _ _ _ C (l & O & F)]). exists s', l.
  split; [exact R|]. split; [exact I'|]. split; [exact O|]. split; [exact F|]. intros conn H N. exact (C conn N H).
Qed.

(** C33: Clients cannot change what is read-only.  Over any sequence of requests,
    messages and synchronisations the list of read-only keys stays, and so does the
    value of every read-only key, except for the configuration versions of the nodes
    that send messages, which the service itself writes. *)
Theorem read_only_kept es s k : cmap_inv s -> cmap_events_ok es s ->
  icmap_is_key_ro k (cm_icmap s) = true -> (forall m nodeid, CmMcast m nodeid ∈ es -> member_version_key nodeid <> k) ->
  exists s', cmap_run es s = Some s' /\ icmap_is_key_ro k (cm_icmap s') = true /\
    lookup_item (icmap_global_map (cm_icmap s')) k (cm_icmap s') = lookup_item (icmap_global_map (cm_icmap s)) k (cm_icmap s).
Proof.
  intros I Ok Hk Hm. destruct (run_went es s I Ok) as (s' & R & W). exists s'. split; [exact R|]. split.
  - rewrite <- Hk. apply key_ro_list. apply W.
  - rewrite (wt_global _ _ _ W). exact (wt_keys _ _ _ W k Hk Hm).
Qed.

(** ** The start of the service *)

Lemma start_inv (m : icmap M) st addr : icmap_ok m -> is_Some (map_at (icmap_global_map m) m) -> NoDup (List.map fst (icmap_track_list m)) ->
  addr ∉ List.map fst (icmap_track_list m) -> (forall n, n ∈ ic_notifiers m -> no_data n <> addr) ->
  fst (cmap_exec_init_fn addr 0 (cmap_zero m st)) = true /\ cmap_inv (snd (cmap_exec_init_fn addr 0 (cmap_zero m st))).
Proof.
  intros Ok Hg N Ha Hn. split; [reflexivity|]. constructor; cbn.
  - intros map k i L. exact (Ok map k i L).
  - exact Hg.
  - constructor; cbn.
    + apply NoDup_cons. now split.
    + intros t H. now apply elem_of_nil in H.
    + intros t tr _ H. now apply elem_of_nil in H.
    + intros conn c h t H. change ((∅ : gmap Z cmap_conn_info) !! conn = Some c) in H. now rewrite lookup_empty in H.
  - intros conn c H. change ((∅ : gmap Z cmap_conn_info) !! conn = Some c) in H. now rewrite lookup_empty in H.
  - apply not_elem_of_nil.
  - intros n [H|H]%elem_of_app E; [destruct (Hn n H E)|]. apply list_elem_of_singleton in H as ->. split; reflexivity.
Qed.
End Service.

(** ** Versions of the configuration in the cluster *)

Section Cluster.
Context {M : Type} `{QB : qb_map M} `{QL : !qb_map_laws M}.
Context (stats_pref_iter : gmap string cs_stats_conv -> string -> list string) (found_in_removal : bool) (env : stats_env).
Context (totem_mcast : req_exec_cmap_mcast -> Z) (notify_del : Z -> Z).
Context (notify_del_ok : forall t, notify_del t = 0).
(** Every message of the synchronisation is sent. *)
Context (mcast_ok : forall m, totem_mcast m = 0).

Definition cmap_run_at (id : Z) := cmap_run stats_pref_iter found_in_removal env id totem_mcast notify_del.

(** What the nodes send in the synchronisation. *)
Definition cmap_announced (nodes : list (Z * cmap M)) : list (req_exec_cmap_mcast * Z) :=
  List.map (fun p => (version_message CMAP_MCAST_REASON_SYNC (cm_icmap (snd p)), fst p)) nodes.

Lemma cmap_announced_in nodes m id : (m, id) ∈ cmap_announced nodes <-> exists s, (id, s) ∈ nodes /\ m = version_message CMAP_MCAST_REASON_SYNC (cm_icmap s).
Proof.
  unfold cmap_announced. rewrite list_elem_of_In, in_map_iff. split.
  - intros ([id' s] & [= <- <-] & H). exists s. split; [now apply list_elem_of_In | reflexivity].
  - intros (s & H & ->). exists (id, s). split; [reflexivity | now apply list_elem_of_In].
Qed.

(** The own announcement. *)
Lemma announces id t n s : cmap_inv s -> exists s1, cmap_run_at id [CmSyncInit t n; CmSyncProcess] s = Some s1 /\ cmap_inv s1 /\
  cm_out s1 = cm_out s ++ [CmapMcast (version_message CMAP_MCAST_REASON_SYNC (cm_icmap s))] /\ cmap_first_sync s1 = cmap_first_sync s /\
  cmap_sync_trans_list_entries s1 = t /\ cmap_my_config_version s1 = config_version (cm_icmap s) /\ cmap_highest_config_version_received s1 = config_version (cm_icmap s).
Proof.
  intros I. unfold cmap_run_at. cbn [cmap_run cmap_step]. unfold cmap_sync_init. rewrite read_config_version_spec by apply I. cbn [mbind option_bind].
  unfold cmap_sync_process. rewrite mcast_version by apply I. rewrite mcast_ok. change (0 =? 0) with true. cbn [mbind option_bind].
  eexists. split; [reflexivity|]. split; [apply emit_inv; destruct I; now constructor|]. repeat split; reflexivity.
Qed.

(** C34: A first synchronisation separates the nodes by the version of their
    configuration.  When every node of [nodes] sends its version and every node receives
    all these messages, in whatever order and however often, a node asks for its
    shutdown exactly when it has a version and another node has a higher one.  So the
    nodes with a version that go on all have the same version, the highest. *)
Theorem config_versions_agree nodes ms id s t n :
  (forall id s, (id, s) ∈ nodes -> cmap_inv s) -> NoDup (List.map fst nodes) -> (id, s) ∈ nodes -> cmap_first_sync s = 1 -> t <> 0 ->
  (forall p, p ∈ ms <-> p ∈ cmap_announced nodes) ->
  exists s1 s2, cmap_run_at id [CmSyncInit t n; CmSyncProcess] s = Some s1 /\
    cm_out s1 = cm_out s ++ [CmapMcast (version_message CMAP_MCAST_REASON_SYNC (cm_icmap s))] /\
    cmap_run_at id (List.map (fun p => CmMcast (fst p) (snd p)) ms) s1 = Some s2 /\
    (CmapShutdownRequest ∈ drop (length (cm_out s)) (cm_out (cmap_sync_activate s2)) <->
     config_version (cm_icmap s) <> 0 /\ exists id' s', (id', s') ∈ nodes /\ config_version (cm_icmap s) < config_version (cm_icmap s')).
Proof.
  intros I N Hs Fs Ht Hms. destruct (announces id t n s (I _ _ Hs)) as (s1 & R1 & I1 & O1 & F1 & T1 & V1 & H1).
  assert (Say : forall m id', (m, id') ∈ ms -> exists s', (id', s') ∈ nodes /\ m = version_message CMAP_MCAST_REASON_SYNC (cm_icmap s') /\ message_config_version m = Some (config_version (cm_icmap s'))).
  { intros m id' H. apply Hms, cmap_announced_in in H as (s' & H & ->). exists s'. split; [exact H|]. split; [reflexivity|]. apply version_read. exact (iv_ok _ (I _ _ H)). }
  destruct (messages_heard stats_pref_iter found_in_removal env id totem_mcast notify_del ms s1 I1) as (s2 & R2 & _ & M2 & F2 & T2 & H2 & l & O2 & Q2).
  { intros m id' H. destruct (Say m id' H) as (s' & _ & -> & ->). split; [reflexivity | eauto]. }
  exists s1, s2. split; [exact R1|]. split; [exact O1|]. split; [exact R2|]. rewrite H1 in H2.
  destruct (highest_spec id ms snd said (config_version (cm_icmap s))) as [L X]. rewrite <- H2 in L, X.
  assert (Hi : config_version (cm_icmap s) < cmap_highest_config_version_received s2 <->
    exists id' s', (id', s') ∈ nodes /\ config_version (cm_icmap s) < config_version (cm_icmap s')).
  { rewrite X. split.
    - intros ([m id'] & Hp & _ & V). destruct (Say m id' Hp) as (s' & Hn & _ & Hv). unfold said in V. cbn [fst] in V. rewrite Hv in V. eauto.
    - intros (id' & s' & Hn & V). exists (version_message CMAP_MCAST_REASON_SYNC (cm_icmap s'), id'). split; [apply Hms, cmap_announced_in; eauto|]. split.
      + cbn [snd]. intros ->. pose proof (pair_unique _ _ _ _ N Hn Hs). subst. lia.
      + unfold said. cbn [fst]. rewrite version_read by exact (iv_ok _ (I _ _ Hn)). exact V. }
  rewrite <- Hi. unfold cmap_sync_activate. rewrite T2, T1, (proj2 (Z.eqb_neq _ _) Ht), F2, F1, Fs. change (1 =? 1) with true. cbn [negb].
  set (s3 := s2 <| cmap_first_sync := 0 |>). change (cmap_my_config_version s3) with (cmap_my_config_version s2).
  change (cmap_highest_config_version_received s3) with (cmap_highest_config_version_received s2). rewrite M2, V1.
  assert (No : CmapShutdownRequest ∉ drop (length (cm_out s)) (cm_out s3)).
  { change (cm_out s3) with (cm_out s2). rewrite O2, O1, <- app_assoc, drop_app_length. intros [H|H]%elem_of_app; [|exact (Q2 H)]. apply list_elem_of_singleton in H. discriminate. }
  destruct (Z.eqb_spec (config_version (cm_icmap s)) 0) as [E|E]; [tauto|].
  destruct (Z.eqb_spec (cmap_highest_config_version_received s2) (config_version (cm_icmap s))) as [E'|E']; cbn [negb]; [split; [tauto | lia]|].
  split; [intros _; split; [exact E | lia]|]. intros _. change (cm_out (cmap_emit CmapShutdownRequest s3)) with (cm_out s2 ++ [CmapShutdownRequest]).
  rewrite O2, O1, <- !app_assoc, drop_app_length. apply elem_of_app. right. apply elem_of_app. right. left.
Qed.
End Cluster.

(** ** Witnesses *)

Definition demo_version (v : Z) : demo_map := snd (default (0, demo_zero) (icmap_set_uint64 CONFIG_VERSION v demo_zero)) <| icmap_ro_access_item_list := [mk_ro "totem." true] |>.

Lemma demo_version_ok v : icmap_set (Some CONFIG_VERSION) (Some (le_bytes 8 v)) 8 ICMAP_VALUETYPE_UINT64 demo_zero =
  Some (CS_OK, snd (default (0, demo_zero) (icmap_set_uint64 CONFIG_VERSION v demo_zero))) -> icmap_ok (demo_version v).
Proof. intros E map k i L. exact (changes_ok demo_zero _ (set_changes _ _ _ _ _ _ _ _ demo_zero_ok E) demo_zero_ok map k i L). Qed.

Definition demo_node (v : Z) : cmap (gmap string icmap_item) := snd (cmap_exec_init_fn 70 0 (cmap_zero (demo_version v) stats_zero)).

Lemma demo_node_inv v : icmap_set (Some CONFIG_VERSION) (Some (le_bytes 8 v)) 8 ICMAP_VALUETYPE_UINT64 demo_zero =
  Some (CS_OK, snd (default (0, demo_zero) (icmap_set_uint64 CONFIG_VERSION v demo_zero))) -> is_Some (map_at (icmap_global_map (demo_version v)) (demo_version v)) ->
  icmap_track_list (demo_version v) = [] -> ic_notifiers (demo_version v) = [] -> cmap_inv (demo_node v).
Proof.
  intros E G T N. apply start_inv; [exact (demo_version_ok v E) | exact G | | |]; rewrite ?T, ?N.
  - constructor.
  - apply not_elem_of_nil.
  - intros n H. now apply elem_of_nil in H.
Qed.

Lemma demo_nodes_inv : cmap_inv (demo_node 3) /\ cmap_inv (demo_node 5).
Proof. split; (apply demo_node_inv; [vm_compute; reflexivity | eexists; vm_compute; reflexivity | vm_compute; reflexivity | vm_compute; reflexivity]). Qed.

Definition demo_iter : gmap string cs_stats_conv -> string -> list string := fun m p => List.filter (is_prefix p) (List.map fst (map_to_list m)).
Definition demo_sent : req_exec_cmap_mcast -> Z := fun _ => 0.

(** A client tracks the version, changes another key and leaves; a node tells its version. *)
Definition demo_events : list cmap_event :=
  [CmConnect 5; CmTrackAdd 5 (Some "nodelist."%string) 15 900 71 72 [] 0 (inr 1);
   CmSet 5 "nodelist.version" (le_bytes 4 8) 4 ICMAP_VALUETYPE_UINT32; CmSet 5 CONFIG_VERSION (le_bytes 8 9) 8 ICMAP_VALUETYPE_UINT64;
   CmClose 5; CmMcast (version_message CMAP_MCAST_REASON_SYNC (demo_version 5)) 2].

Definition demo_at (n : nat) : cmap (gmap string icmap_item) :=
  default (demo_node 3) (cmap_run demo_iter true demo_counters 1 demo_sent (fun _ => 0) (take n demo_events) (demo_node 3)).

Lemma demo_step n e : demo_events !! n = Some e -> (n < 5)%nat ->
  cmap_step demo_iter true demo_counters 1 demo_sent (fun _ => 0) e (demo_at n) = Some (demo_at (S n)).
Proof.
  intros E L. do 5 (destruct n as [|n]; [injection E as <-; vm_compute; reflexivity|]). lia.
Qed.

Lemma demo_events_ok : cmap_events_ok demo_iter true demo_counters 1 demo_sent (fun _ => 0) demo_events (demo_node 3).
Proof.
  change (demo_node 3) with (demo_at 0). unfold demo_events. cbn [cmap_events_ok].
  rewrite (demo_step 0 _ eq_refl ltac:(lia)), (demo_step 1 _ eq_refl ltac:(lia)), (demo_step 2 _ eq_refl ltac:(lia)), (demo_step 3 _ eq_refl ltac:(lia)), (demo_step 4 _ eq_refl ltac:(lia)).
  split; [vm_compute; reflexivity|]. split.
  { split; [lia|]. split; [vm_compute; reflexivity|]. split; [by_compute|]. split; [by_compute|]. exists (mk_conn_info ∅ ∅ icmap_map), 1. split; [vm_compute; reflexivity|]. split; reflexivity. }
  split; [split; [eexists; vm_compute; reflexivity | cbn; lia]|]. split; [split; [eexists; vm_compute; reflexivity | cbn; lia]|].
  split; [eexists; vm_compute; reflexivity|]. split; [eexists; vm_compute; reflexivity|]. destruct (cmap_step _ _ _ _ _ _ _ _); exact I.
Qed.

Lemma cmap_clients_safe_witness : exists s' l, cmap_run demo_iter true demo_counters 1 demo_sent (fun _ => 0) demo_events (demo_node 3) = Some s' /\
  cm_out s' = cm_out (demo_node 3) ++ l.
Proof.
  destruct (cmap_clients_safe demo_iter true demo_counters 1 demo_sent (fun _ => 0) (fun _ => eq_refl) demo_events (demo_node 3) (proj1 demo_nodes_inv) demo_events_ok)
    as (s' & l & R & _ & O & _).
  exists s', l. split; [exact R | exact O].
Defined.

Lemma read_only_kept_witness : exists s', cmap_run demo_iter true demo_counters 1 demo_sent (fun _ => 0) demo_events (demo_node 3) = Some s' /\
  lookup_item (icmap_global_map (cm_icmap s')) CONFIG_VERSION (cm_icmap s') = Some (mk_item ICMAP_VALUETYPE_UINT64 (le_bytes 8 3)).
Proof.
  destruct (read_only_kept demo_iter true demo_counters 1 demo_sent (fun _ => 0) (fun _ => eq_refl) demo_events (demo_node 3) CONFIG_VERSION (proj1 demo_nodes_inv) demo_events_ok)
    as (s' & R & _ & L).
  - vm_compute. reflexivity.
  - intros m nodeid _. apply version_key_differs.
  - exists s'. split; [exact R|]. rewrite L. vm_compute. reflexivity.
Defined.

(** The node with version 3 meets one with version 5. *)
Lemma config_versions_agree_witness : exists s1 s2,
  cmap_run_at demo_iter true demo_counters demo_sent (fun _ => 0) 1 [CmSyncInit 1 2; CmSyncProcess] (demo_node 3) = Some s1 /\
  cmap_run_at demo_iter true demo_counters demo_sent (fun _ => 0) 1 (List.map (fun p => CmMcast (fst p) (snd p)) (cmap_announced [(1, demo_node 3); (2, demo_node 5)])) s1 = Some s2 /\
  CmapShutdownRequest ∈ drop (length (cm_out (demo_node 3))) (cm_out (cmap_sync_activate s2)).
Proof.
  destruct (config_versions_agree demo_iter true demo_counters demo_sent (fun _ => 0) (fun _ => eq_refl) [(1, demo_node 3); (2, demo_node 5)]
    (cmap_announced [(1, demo_node 3); (2, demo_node 5)]) 1 (demo_node 3) 1 2) as (s1 & s2 & R1 & _ & R2 & X).
  - intros id s [[= -> ->]|[[= -> ->]|H]%elem_of_cons]%elem_of_cons; [apply demo_nodes_inv | apply demo_nodes_inv | now apply elem_of_nil in H].
  - apply (bool_decide_unpack _). vm_compute. exact I.
  - left.
  - vm_compute. reflexivity.
  - discriminate.
  - reflexivity.
  - exists s1, s2. split; [exact R1|]. split; [exact R2|]. apply X. split; [vm_compute; discriminate|]. exists 2, (demo_node 5). split; [right; left|]. vm_compute. reflexivity.
Defined.
