(* ===== verification/Ipc.v ===== *)
(** * The front end for clients (exec/ipc_glue.c, and the admission of requests of exec/main.c)

    Connections are accepted by user and group, requests of clients are admitted by
    quorum, synchronisation and room in the queue of totem, and messages to clients are
    queued while the client does not read them.

    The server is part of libqb: the results of its functions are arguments, and what it
    is told is a log.  [corosync_service] is the table of services; the jobs of the loop
    that flush queues are [ipc_jobs]; a context that was freed or never set is no entry
    of [ipc_contexts]. *)
From stdpp Require Import pretty.
From S2P Require Import Prelude CString VoteQuorumExec Icmap Sync TotemPg Util.

Local Open Scope Z_scope.

Definition EHOSTUNREACH : Z := 113.
Definition EINPROGRESS : Z := 115.
Definition CMAP_SERVICE : Z := 0.
Definition CFG_SERVICE : Z := 1.
Definition CPG_SERVICE : Z := 2.
Definition QUORUM_SERVICE : Z := 3.
Definition PLOAD_SERVICE : Z := 4.
Definition VOTEQUORUM_SERVICE : Z := 5.
Definition MON_SERVICE : Z := 6.
Definition WD_SERVICE : Z := 7.
Definition CS_IPCS_MAPPER_SERV_NAME : nat := 256.
Definition PROC_NAME_SIZE : nat := 32.

Inductive cs_lib_flow_control := CS_LIB_FLOW_CONTROL_REQUIRED | CS_LIB_FLOW_CONTROL_NOT_REQUIRED.
#[export] Instance cs_lib_flow_control_eq : EqDecision cs_lib_flow_control.
Proof. solve_decision. Defined.

(** [CS_LIB_ALLOW_INQUORATE] is [true]; [lib_engine]: the flow control of every request. *)
Record service_engine := mk_engine { allow_inquorate : bool; lib_engine : list cs_lib_flow_control }.

Inductive rate_limit := QB_IPCS_RATE_FAST | QB_IPCS_RATE_NORMAL | QB_IPCS_RATE_SLOW | QB_IPCS_RATE_OFF | QB_IPCS_RATE_OFF_2.
Inductive ipc_type := QB_IPC_NATIVE | QB_IPC_SHM | QB_IPC_SOCKET.

Record cs_ipcs_conn_context := mk_context {
  outq_head : list (list Z);
  queuing : bool;
  queued : Z;
  invalid_request : Z;
  overload : Z;
  sent : Z;
  proc_name : string
}.
#[export] Instance context_eta : Etable cs_ipcs_conn_context := fun c =>
  mk_context (outq_head c) (queuing c) (queued c) (invalid_request c) (overload c) (sent c) (proc_name c).

Inductive ipc_effect :=
(** a message of the service that libqb took *)
| IpcEvent (conn : Z) (msg : list Z)
| IpcEventFailed (conn : Z) (rc : Z)
| IpcResponse (conn error : Z)
| IpcHandler (conn service id : Z)
| IpcReserved (n : Z)
| IpcReleased (n : Z)
| IpcLibInit (conn : Z)
| IpcLibExit (conn : Z)
| IpcDisconnect (conn : Z)
| IpcStatsAdd (service pid conn : Z)
| IpcStatsDel (service pid conn : Z)
| IpcStatsCleared (conn : Z)
| IpcRateLimit (service : Z) (rate : rate_limit)
| IpcRecheckTimer
| IpcCheckQLevel
| IpcCreate (service : Z) (name : string) (type : ipc_type)
| IpcDestroy (service : Z).

Record ipc := mk_ipc {
  ipc_not_enough_fds_left : Z;
  ipc_fc_is_quorate : Z;
  ipc_fc_totem_queue_level : Z;
  ipc_fc_sync_in_process : Z;
  ipc_allow_connections : Z;
  (** the services that have an instance, with their names *)
  ipcs_mapper : gmap Z string;
  gs_active : Z;
  gs_closed : Z;
  ipc_contexts : gmap Z cs_ipcs_conn_context;
  ipc_jobs : list Z;
  ipc_out : list ipc_effect
}.
#[export] Instance ipc_eta : Etable ipc := fun s =>
  mk_ipc (ipc_not_enough_fds_left s) (ipc_fc_is_quorate s) (ipc_fc_totem_queue_level s) (ipc_fc_sync_in_process s) (ipc_allow_connections s)
    (ipcs_mapper s) (gs_active s) (gs_closed s) (ipc_contexts s) (ipc_jobs s) (ipc_out s).

Definition ipc_zero : ipc := mk_ipc 0 0 0 0 0 ∅ 0 0 ∅ [] [].
Definition ipc_emit (e : ipc_effect) (s : ipc) : ipc := s <| ipc_out ::= fun o => o ++ [e] |>.
Definition upd_context (conn : Z) (f : cs_ipcs_conn_context -> cs_ipcs_conn_context) (s : ipc) : ipc := s <| ipc_contexts ::= alter f conn |>.

(** [NULL] for an unknown service. *)
Definition cs_ipcs_serv_short_name (service_id : Z) : option string :=
  if service_id =? CFG_SERVICE then Some "cfg"%string
  else if service_id =? CPG_SERVICE then Some "cpg"%string
  else if service_id =? QUORUM_SERVICE then Some "quorum"%string
  else if service_id =? PLOAD_SERVICE then Some "pload"%string
  else if service_id =? VOTEQUORUM_SERVICE then Some "votequorum"%string
  else if service_id =? MON_SERVICE then Some "mon"%string
  else if service_id =? WD_SERVICE then Some "wd"%string
  else if service_id =? CMAP_SERVICE then Some "cmap"%string
  else None.

Definition cs_ipc_allow_connections (allow : Z) (s : ipc) : ipc := s <| ipc_allow_connections := allow |>.

Definition cs_ipcs_service_destroy (service_id : Z) (s : ipc) : ipc :=
  match ipcs_mapper s !! service_id with
  | Some _ => ipc_emit (IpcDestroy service_id) s <| ipcs_mapper ::= delete service_id |>
  | None => s
  end.

(** What is before and behind the last character of a code. *)
Fixpoint split_last (code : nat) (l : list ascii) : option (list ascii * list ascii) :=
  match l with
  | [] => None
  | c :: l =>
      match split_last code l with
      | Some (a, b) => Some (c :: a, b)
      | None => if Nat.eqb (nat_of_ascii c) code then Some ([], l) else None
      end
  end.

(** [line]: what is read of /proc/<pid>/stat, if it can be read. *)
Definition pid_to_name (line : option string) : option string :=
  l ← line; '(_, name) ← split_last 40 (chars l); '(_, rest) ← split_last 41 (chars l);
  match rest with
  | c :: _ =>
      if Nat.eqb (nat_of_ascii c) 32
      then Some (str (take (PROC_NAME_SIZE - 1) (match split_last 41 name with Some (n, _) => n | None => name end)))
      else None
  | [] => None
  end.

Section Ipc.
Context {M : Type} `{QB : qb_map M}.
Context (corosync_service : Z -> option service_engine) (service_of pid_of : Z -> Z).

(** ** Connections *)

Definition key_allows (key : string) (m : icmap M) : option bool :=
  '(err, v) ← icmap_get_uint8 key m; Some ((err =? CS_OK) && (default 0 v =? 1)).

Definition cs_ipcs_connection_accept (c euid egid : Z) (m : icmap M) (s : ipc) : option Z :=
  if ipc_allow_connections s =? 0 then Some (- EAGAIN)
  else
    match corosync_service (service_of c), ipcs_mapper s !! service_of c with
    | Some _, Some _ =>
        if negb (ipc_not_enough_fds_left s =? 0) then Some (- EMFILE)
        else if (euid =? 0) || (egid =? 0) then Some 0
        else
          a ← key_allows (snprintf ICMAP_KEYNAME_MAXLEN ("uidgid.uid." +:+ pretty euid)) m;
          if a : bool then Some 0 else
          a ← key_allows (snprintf ICMAP_KEYNAME_MAXLEN ("uidgid.config.uid." +:+ pretty euid)) m;
          if a : bool then Some 0 else
          a ← key_allows (snprintf ICMAP_KEYNAME_MAXLEN ("uidgid.gid." +:+ pretty egid)) m;
          if a : bool then Some 0 else
          a ← key_allows (snprintf ICMAP_KEYNAME_MAXLEN ("uidgid.config.gid." +:+ pretty egid)) m;
          if a : bool then Some 0 else Some (- EACCES)
    | _, _ => Some (- ENOSYS)
    end.

(** [lib_init]: the result of the function of the service. *)
Definition cs_ipcs_connection_created (c lib_init : Z) (line : option string) (s : ipc) : option ipc :=
  let service := service_of c in
  corosync_service service ≫= fun _ =>
  let s := ipc_emit (IpcLibInit c) (s <| ipc_contexts ::= <[c := mk_context [] false 0 0 0 0 ""]> |>) in
  Some (if negb (lib_init =? 0) then ipc_emit (IpcDisconnect c) s
        else
          let s := upd_context c (fun x => x <| proc_name := default ""%string (pid_to_name line) |>) s in
          ipc_emit (IpcStatsAdd service (pid_of c) c) s <| gs_active ::= fun n => u64 (n + 1) |>).

Definition cs_ipcs_connection_destroyed (c : Z) (s : ipc) : ipc := s <| ipc_contexts ::= delete c |>.

(** [qb_loop_job_del] takes one job out of the loop. *)
Fixpoint remove_job (c : Z) (l : list Z) : list Z :=
  match l with [] => [] | x :: l => if x =? c then l else x :: remove_job c l end.

Definition cs_ipcs_connection_closed (c lib_exit : Z) (s : ipc) : option (Z * ipc) :=
  let service := service_of c in
  corosync_service service ≫= fun _ =>
  let s := ipc_emit (IpcLibExit c) s in
  Some (if negb (lib_exit =? 0) then (lib_exit, s)
        else (0, ipc_emit (IpcStatsDel service (pid_of c) c) (s <| ipc_jobs ::= remove_job c |>)
                   <| gs_active ::= fun n => u64 (n - 1) |> <| gs_closed ::= fun n => u64 (n + 1) |>)).

(** [rc]: the result of [qb_ipcs_response_send]. *)
Definition cs_ipcs_response_send (rc : Z) : Z := if 0 <=? rc then 0 else rc.
Definition cs_ipcs_response_iov_send (rc : Z) : Z := if 0 <=? rc then 0 else rc.

(** ** Messages to clients *)

Inductive flush_end := FlushFailed (rc : Z) | FlushDone.

(** [send i]: the result of [qb_ipcs_event_send] for the [i]th message; what was taken,
    what is left and how it ended. *)
Fixpoint flush_items (send : nat -> Z) (i : nat) (q : list (list Z)) : option (list (list Z) * list (list Z) * flush_end) :=
  match q with
  | [] => Some ([], [], FlushDone)
  | m :: q =>
      let rc := send i in
      if (rc <? 0) && negb (rc =? - EAGAIN) then Some ([], m :: q, FlushFailed rc)
      else if rc =? - EAGAIN then Some ([], m :: q, FlushDone)
      else if negb (rc =? Z.of_nat (length m)) then None
      else '(done, rest, e) ← flush_items send (S i) q; Some (m :: done, rest, e)
  end.

Definition outq_flush (send : nat -> Z) (conn : Z) (s : ipc) : option ipc :=
  c ← ipc_contexts s !! conn;
  '(done, rest, e) ← flush_items send 0 (outq_head c);
  let n := Z.of_nat (length done) in
  let s := s <| ipc_out ::= fun o => o ++ List.map (IpcEvent conn) done |> in
  let s := upd_context conn (fun c => c <| outq_head := rest |> <| sent ::= fun x => u32 (x + n) |> <| queued ::= fun x => u32 (x - n) |>) s in
  Some (match e with
        | FlushFailed rc => ipc_emit (IpcEventFailed conn rc) s
        | FlushDone =>
            if bool_decide (rest = [])
            then upd_context conn (fun c => c <| queuing := false |> <| queued := 0 |> <| sent := 0 |>) s
            else s <| ipc_jobs ::= fun l => l ++ [conn] |>
        end).

(** A message of several parts; [rc]: the result of [qb_ipcs_event_sendv]. *)
Definition msg_send_or_queue (rc : Z) (conn : Z) (iov : list (list Z)) (s : ipc) : option ipc :=
  c ← ipc_contexts s !! conn;
  let msg := concat iov in
  let enqueue s := upd_context conn (fun c => c <| outq_head ::= fun q => q ++ [msg] |> <| queued ::= fun x => u32 (x + 1) |>) s in
  if queuing c then Some (enqueue s)
  else if negb (bool_decide (outq_head c = [])) then None
  else if rc =? Z.of_nat (length msg)
  then Some (upd_context conn (fun c => c <| sent ::= fun x => u32 (x + 1) |>) (ipc_emit (IpcEvent conn msg) s))
  else if rc =? - EAGAIN
  then Some (enqueue (upd_context conn (fun c => c <| queued := 0 |> <| sent := 0 |> <| queuing := true |>) s <| ipc_jobs ::= fun l => l ++ [conn] |>))
  else Some (ipc_emit (IpcEventFailed conn rc) s).

Definition cs_ipcs_dispatch_send (rc conn : Z) (msg : list Z) (s : ipc) : option (Z * ipc) := s ← msg_send_or_queue rc conn [msg] s; Some (0, s).
Definition cs_ipcs_dispatch_iov_send (rc conn : Z) (iov : list (list Z)) (s : ipc) : option (Z * ipc) := s ← msg_send_or_queue rc conn iov s; Some (0, s).

(** ** Requests of clients *)

(** [reserved]: the result of [totempg_groups_joined_reserve]. *)
Definition corosync_sending_allowed (service id reserved quorate sync_in_process : Z) : option Z :=
  if reserved =? -1 then Some (- EINVAL)
  else
    e ← corosync_service service;
    if Z.of_nat (length (lib_engine e)) <=? id then Some (- EINVAL)
    else if (quorate =? 1) || allow_inquorate e then
      fc ← lib_engine e !! Z.to_nat id;
      Some (match fc with
            | CS_LIB_FLOW_CONTROL_NOT_REQUIRED => 1
            | CS_LIB_FLOW_CONTROL_REQUIRED =>
                if negb (reserved =? 0) && (sync_in_process =? 0) then 1
                else if reserved =? 0 then - ENOBUFS else - EINPROGRESS
            end)
    else Some (- EHOSTUNREACH).

Definition corosync_sending_allowed_release (reserved : Z) (s : ipc) : ipc := if reserved =? -1 then s else ipc_emit (IpcReleased reserved) s.

(** [id]: an unsigned number in the comparison with the number of requests. *)
Definition cs_ipcs_msg_process (c id reserved quorate sync_in_process : Z) (s : ipc) : option (Z * ipc) :=
  let service := service_of c in
  let s := if reserved =? -1 then s else ipc_emit (IpcReserved reserved) s in
  send_ok ← corosync_sending_allowed service id reserved quorate sync_in_process;
  let is_async_call := (service =? CPG_SERVICE) && (id =? 2) in
  let answer error s := if is_async_call then s else ipc_emit (IpcResponse c error) s in
  let '(res, s) :=
    if send_ok =? - EINVAL then (- EINVAL, answer CS_ERR_INVALID_PARAM (upd_context c (fun x => x <| invalid_request ::= fun n => u64 (n + 1) |>) s))
    else if send_ok <? 0 then (- ENOBUFS, answer CS_ERR_TRY_AGAIN (upd_context c (fun x => x <| overload ::= fun n => u64 (n + 1) |>) s))
    else (0, ipc_emit (IpcHandler c service id) s) in
  Some (res, corosync_sending_allowed_release reserved s).

(** ** Flow control *)

Definition cs_ipcs_low_fds_event (not_enough : Z) (s : ipc) : ipc := s <| ipc_not_enough_fds_left := not_enough |>.
Definition cs_ipcs_q_level_get (s : ipc) : Z := ipc_fc_totem_queue_level s.

(** [None]: requests are taken. *)
Definition fc_enabled (i : Z) (e : service_engine) (s : ipc) : option rate_limit :=
  if (ipc_fc_is_quorate s =? 1) || allow_inquorate e then
    if negb (ipc_fc_totem_queue_level s =? TOTEM_Q_LEVEL_CRITICAL) && (ipc_fc_sync_in_process s =? 0) then None
    else if negb (ipc_fc_totem_queue_level s =? TOTEM_Q_LEVEL_CRITICAL) && (i =? VOTEQUORUM_SERVICE) then None
    else Some QB_IPCS_RATE_OFF_2
  else Some QB_IPCS_RATE_OFF.

Definition check_service (i : Z) (s : ipc) : ipc :=
  match corosync_service i, ipcs_mapper s !! i with
  | Some e, Some _ =>
      match fc_enabled i e s with
      | Some rate => ipc_emit IpcRecheckTimer (ipc_emit (IpcRateLimit i rate) s)
      | None =>
          if ipc_fc_totem_queue_level s =? TOTEM_Q_LEVEL_LOW then ipc_emit (IpcRateLimit i QB_IPCS_RATE_FAST) s
          else if ipc_fc_totem_queue_level s =? TOTEM_Q_LEVEL_GOOD then ipc_emit (IpcRateLimit i QB_IPCS_RATE_NORMAL) s
          else if ipc_fc_totem_queue_level s =? TOTEM_Q_LEVEL_HIGH then ipc_emit (IpcRateLimit i QB_IPCS_RATE_SLOW) s
          else s
      end
  | _, _ => s
  end.
Definition cs_ipcs_check_for_flow_control (s : ipc) : ipc := fold_left (fun s i => check_service i s) service_ids s.

Definition cs_ipcs_fc_quorum_changed (quorate : Z) (s : ipc) : ipc := cs_ipcs_check_for_flow_control (s <| ipc_fc_is_quorate := quorate |>).
Definition cs_ipcs_totem_queue_level_changed (level : Z) (s : ipc) : ipc := cs_ipcs_check_for_flow_control (s <| ipc_fc_totem_queue_level := level |>).
Definition cs_ipcs_sync_state_changed (sync_in_process : Z) (s : ipc) : ipc := cs_ipcs_check_for_flow_control (s <| ipc_fc_sync_in_process := sync_in_process |>).

Definition corosync_recheck_the_q_level (s : ipc) : ipc :=
  let s := ipc_emit IpcCheckQLevel s in
  if cs_ipcs_q_level_get s =? TOTEM_Q_LEVEL_CRITICAL then ipc_emit IpcRecheckTimer s else s.

(** ** Statistics *)

Definition cs_ipcs_get_global_stats (s : ipc) : Z * Z := (gs_active s, gs_closed s).

(** [connections]: those of the service; the statistics of libqb are left out. *)
Definition cs_ipcs_get_conn_stats (connections : list Z) (service_id pid conn_ptr : Z) (s : ipc) : Z + cs_ipcs_conn_context :=
  match corosync_service service_id, ipcs_mapper s !! service_id with
  | Some _, Some _ =>
      match list_find (fun c => c = conn_ptr) connections, ipc_contexts s !! conn_ptr with
      | Some _, Some x => if pid_of conn_ptr =? pid then inr x else inl CS_ERR_NOT_EXIST
      | _, _ => inl CS_ERR_NOT_EXIST
      end
  | _, _ => inl CS_ERR_NOT_EXIST
  end.

Definition clear_context (c : Z) (s : ipc) : ipc :=
  upd_context c (fun x => x <| invalid_request := 0 |> <| overload := 0 |> <| sent := 0 |>) (ipc_emit (IpcStatsCleared c) s).

(** [connections]: those of a service. *)
Definition cs_ipcs_clear_stats (connections : Z -> list Z) (s : ipc) : ipc :=
  fold_left (fun s i => match ipcs_mapper s !! i with Some _ => fold_left (fun s c => clear_context c s) (connections i) s | None => s end)
    service_ids (s <| gs_active := 0 |> <| gs_closed := 0 |>).

(** ** Start *)

Definition cs_get_ipc_type (m : icmap M) : option ipc_type :=
  '(err, v) ← icmap_get_string "system.qb_ipc_type" m;
  if negb (err =? CS_OK) then Some QB_IPC_NATIVE
  else
    str ← v;
    Some (if strcmp_eq str "shm" then QB_IPC_SHM else if strcmp_eq str "socket" then QB_IPC_SOCKET else QB_IPC_NATIVE).

(** [created]: whether [qb_ipcs_create] succeeded, [run]: the result of [qb_ipcs_run];
    the answer is an error string. *)
Definition cs_ipcs_service_init (id : Z) (created : bool) (run : Z) (m : icmap M) (s : ipc) : option (option string * ipc) :=
  e ← corosync_service id;
  if Nat.eqb (length (lib_engine e)) 0 then Some (None, s)
  else
    name ← cs_ipcs_serv_short_name id;
    if Nat.leb CS_IPCS_MAPPER_SERV_NAME (length (chars name)) then Some (Some "qb_ipcs_run error"%string, s)
    else
      type ← cs_get_ipc_type m;
      if negb created then None
      else
        let s := ipc_emit (IpcCreate id name type) s <| ipcs_mapper ::= <[id := name]> |> in
        Some (if negb (run =? 0) then Some "qb_ipcs_run error"%string else None, s).

Definition cs_ipcs_init (s : ipc) : ipc := s <| gs_active := 0 |> <| gs_closed := 0 |>.

End Ipc.
