(* ===== verification/IpcProps.v ===== *)
(** * The front end for clients: theorems

    Messages reach a client in the order in which they were sent, a request reaches its
    service only when it may, and the rates of requests follow the state of the node. *)
From stdpp Require Import gmap pretty.
From S2P Require Import Prelude CString VoteQuorumExec Icmap IcmapTheory IcmapProps Sync SyncSystem TotemPg Util Ipc.
Local Open Scope Z_scope.

(** ** Events *)

Inductive ipc_event :=
| IeConnect (c lib_init : Z) (line : option string)
| IeClose (c lib_exit : Z)
| IeDestroy (c : Z)
| IeSend (c rc : Z) (iov : list (list Z))
| IeFlush (c : Z) (send : nat -> Z)
| IeRequest (c id reserved quorate sync_in_process : Z)
| IeQuorum (quorate : Z)
| IeLevel (level : Z)
| IeSync (sync_in_process : Z)
| IeLowFds (not_enough : Z)
| IeAllow (allow : Z)
| IeRecheck
| IeClear (connections : Z -> list Z).

Section Props.
Context (corosync_service : Z -> option service_engine) (service_of pid_of : Z -> Z).

(** The loop runs a job once. *)
Definition ipc_step (e : ipc_event) (s : ipc) : option ipc :=
  match e with
  | IeConnect c lib_init line => cs_ipcs_connection_created corosync_service service_of pid_of c lib_init line s
  | IeClose c lib_exit => snd <$> cs_ipcs_connection_closed corosync_service service_of pid_of c lib_exit s
  | IeDestroy c => Some (cs_ipcs_connection_destroyed c s)
  | IeSend c rc iov => snd <$> cs_ipcs_dispatch_iov_send rc c iov s
  | IeFlush c send => if bool_decide (c ∈ ipc_jobs s) then outq_flush send c (s <| ipc_jobs ::= remove_job c |>) else Some s
  | IeRequest c id reserved quorate sync => snd <$> cs_ipcs_msg_process corosync_service service_of c id reserved quorate sync s
  | IeQuorum quorate => Some (cs_ipcs_fc_quorum_changed corosync_service quorate s)
  | IeLevel level => Some (cs_ipcs_totem_queue_level_changed corosync_service level s)
  | IeSync sync => Some (cs_ipcs_sync_state_changed corosync_service sync s)
  | IeLowFds n => Some (cs_ipcs_low_fds_event n s)
  | IeAllow a => Some (cs_ipc_allow_connections a s)
  | IeRecheck => Some (corosync_recheck_the_q_level s)
  | IeClear connections => Some (cs_ipcs_clear_stats connections s)
  end.

Fixpoint ipc_run (es : list ipc_event) (s : ipc) : option ipc :=
  match es with [] => Some s | e :: es => s ← ipc_step e s; ipc_run es s end.

(** Messages go to connections that have a context; libqb takes a message as a whole or
    not at all; it frees a context only when its queue is not scheduled any more.
    Requests name their number, and those of a service that exists. *)
Definition ipc_event_ok (e : ipc_event) (s : ipc) : Prop :=
  match e with
  | IeConnect c _ _ => ipc_contexts s !! c = None /\ is_Some (corosync_service (service_of c))
  | IeClose c _ => is_Some (corosync_service (service_of c))
  | IeDestroy c => c ∉ ipc_jobs s
  | IeSend c _ _ => is_Some (ipc_contexts s !! c)
  | IeFlush c send => forall x i m, ipc_contexts s !! c = Some x -> outq_head x !! i = Some m -> send i < 0 \/ send i = Z.of_nat (length m)
  | IeRequest c id _ _ _ => 0 <= id /\ is_Some (corosync_service (service_of c))
  | _ => True
  end.

Fixpoint ipc_events_ok (es : list ipc_event) (s : ipc) : Prop :=
  match es with
  | [] => True
  | e :: es => ipc_event_ok e s /\ match ipc_step e s with Some s => ipc_events_ok es s | None => True end
  end.

(** ** Queues *)

(** The queue of a connection and whether it is in use. *)
Definition queue (s : ipc) (c : Z) : option (list (list Z) * bool) := (fun x => (outq_head x, queuing x)) <$> ipc_contexts s !! c.

Record ipc_inv (s : ipc) : Prop := {
  ii_empty : forall c q, queue s c = Some (q, false) -> q = [];
  ii_nodup : NoDup (ipc_jobs s);
  ii_jobs : forall c, c ∈ ipc_jobs s -> exists q, queue s c = Some (q, true)
}.

Definition is_event (e : ipc_effect) : bool := match e with IpcEvent _ _ => true | _ => false end.

(** The messages that libqb took for a connection. *)
Definition delivered (c : Z) (l : list ipc_effect) : list (list Z) :=
  List.concat (List.map (fun e => match e with IpcEvent c' m => if c' =? c then [m] else [] | _ => [] end) l).

Lemma delivered_app c l l' : delivered c (l ++ l') = delivered c l ++ delivered c l'.
Proof. unfold delivered. now rewrite map_app, concat_app. Qed.

Lemma delivered_none c l : Forall (fun e => is_event e = false) l -> delivered c l = [].
Proof. induction 1 as [|e l H _ IH]; [reflexivity|]. unfold delivered in *. cbn. rewrite IH. now destruct e. Qed.

Lemma delivered_events c c' l : delivered c (List.map (IpcEvent c') l) = if c' =? c then l else [].
Proof.
  unfold delivered. rewrite map_map. destruct (c' =? c).
  - induction l as [|m l IH]; [reflexivity|]. cbn. now rewrite IH.
  - induction l as [|m l IH]; [reflexivity|]. cbn. now rewrite IH.
Qed.

(** Steps that leave the queues alone. *)
Record quiet (s s' : ipc) : Prop := {
  qu_queue : forall c, queue s' c = queue s c;
  qu_jobs : ipc_jobs s' = ipc_jobs s;
  qu_out : exists l, ipc_out s' = ipc_out s ++ l /\ Forall (fun e => is_event e = false) l
}.

Lemma quiet_refl s : quiet s s.
Proof. constructor; [reflexivity.. |]. exists []. now rewrite app_nil_r. Qed.

Lemma quiet_trans s1 s2 s3 : quiet s1 s2 -> quiet s2 s3 -> quiet s1 s3.
Proof.
  intros [Q J (l & O & F)] [Q' J' (l' & O' & F')]. constructor; [intros c; now rewrite Q' | congruence |]. exists (l ++ l').
  split; [now rewrite O', O, app_assoc | now apply Forall_app].
Qed.

Lemma quiet_emit e s : is_event e = false -> quiet s (ipc_emit e s).
Proof. intros H. constructor; [reflexivity.. |]. exists [e]. split; [reflexivity | now repeat constructor]. Qed.

Lemma quiet_context c f s : (forall x, outq_head (f x) = outq_head x) -> (forall x, queuing (f x) = queuing x) -> quiet s (upd_context c f s).
Proof.
  intros H1 H2. constructor; [|reflexivity|].
  - intros c'. unfold queue, upd_context. cbn. destruct (decide (c = c')) as [<-|N]; [rewrite lookup_alter_eq | now rewrite lookup_alter_ne].
    destruct (ipc_contexts s !! c) as [x|]; [|reflexivity]. cbn. now rewrite H1, H2.
  - exists []. split; [cbn; now rewrite app_nil_r | constructor].
Qed.

Lemma quiet_fold {A} (f : ipc -> A -> ipc) (l : list A) s : (forall s a, quiet s (f s a)) -> quiet s (fold_left f l s).
Proof.
  intros H. revert s. induction l as [|a l IH]; intros s; [apply quiet_refl|]. cbn. eapply quiet_trans; [apply H | apply IH].
Qed.

Lemma quiet_inv s s' : quiet s s' -> ipc_inv s -> ipc_inv s'.
Proof.
  intros [Q J _] [E N Jb]. constructor.
  - intros c q H. rewrite Q in H. exact (E c q H).
  - now rewrite J.
  - intros c H. rewrite J in H. rewrite Q. now apply Jb.
Qed.

(** The three variables of flow control do not touch the queues. *)
Lemma quiet_check s : quiet s (cs_ipcs_check_for_flow_control corosync_service s).
Proof.
  unfold cs_ipcs_check_for_flow_control. apply quiet_fold. intros s' i. unfold check_service.
  destruct (corosync_service i) as [e|]; [|apply quiet_refl]. destruct (ipcs_mapper s' !! i); [|apply quiet_refl].
  destruct (fc_enabled i e s'); [eapply quiet_trans; now apply quiet_emit|].
  repeat match goal with |- context [if ?b then _ else _] => destruct b end; (now apply quiet_emit) || apply quiet_refl.
Qed.

(** The request has a number of the service and its size is possible. *)
Definition well_formed (e : service_engine) (id reserved : Z) : Prop := reserved <> -1 /\ id < Z.of_nat (length (lib_engine e)).

(** It may be served now: there is quorum or the service does without, and a request that
    sends messages has room in the queue of totem and meets no synchronisation. *)
Definition may_serve (e : service_engine) (id reserved quorate sync : Z) : Prop :=
  (quorate = 1 \/ allow_inquorate e = true) /\
  (lib_engine e !! Z.to_nat id = Some CS_LIB_FLOW_CONTROL_NOT_REQUIRED \/ (reserved <> 0 /\ sync = 0)).

Lemma allowed_cases e c id reserved quorate sync : corosync_service (service_of c) = Some e -> 0 <= id ->
  exists ok, corosync_sending_allowed corosync_service (service_of c) id reserved quorate sync = Some ok /\
    (~ well_formed e id reserved /\ ok = - EINVAL \/
     well_formed e id reserved /\ may_serve e id reserved quorate sync /\ ok = 1 \/
     well_formed e id reserved /\ ~ may_serve e id reserved quorate sync /\ ok < 0 /\ ok <> - EINVAL).
Proof.
  clear pid_of. intros He Hid. unfold corosync_sending_allowed, well_formed, may_serve. rewrite He. cbn [mbind option_bind].
  destruct (Z.eqb_spec reserved (-1)) as [->|Nr]; [eexists; split; [reflexivity|]; left; split; [tauto | reflexivity]|].
  destruct (Z.leb_spec (Z.of_nat (length (lib_engine e))) id) as [L|L]; [eexists; split; [reflexivity|]; left; split; [lia | reflexivity]|].
  destruct (lookup_lt_is_Some_2 (lib_engine e) (Z.to_nat id)) as [fc Hf]; [lia|]. rewrite Hf. cbn [mbind option_bind].
  destruct (Z.eqb_spec quorate 1) as [Q|Q]; [|destruct (allow_inquorate e) eqn:A]; cbn [orb].
  3:{ eexists. split; [reflexivity|]. right. right. split; [now split|]. split; [intros [[|] _]; congruence | split; discriminate || (unfold EHOSTUNREACH; lia)]. }
  all: eexists; (split; [reflexivity|]); right; destruct fc;
    [destruct (Z.eqb_spec reserved 0) as [R|R]; cbn [negb andb]; [|destruct (Z.eqb_spec sync 0) as [S|S]] | left; split; [now split|]; split; [split; auto | reflexivity]].
  all: try (left; split; [now split|]; split; [split; auto | reflexivity]).
  all: right; (split; [now split|]); (split; [intros [_ [|[? ?]]]; congruence|]); split; discriminate || (unfold ENOBUFS, EINPROGRESS; lia).
Qed.

(** A request leaves the queues alone. *)
Lemma request_quiet c id reserved quorate sync s : ipc_event_ok (IeRequest c id reserved quorate sync) s ->
  exists s', ipc_step (IeRequest c id reserved quorate sync) s = Some s' /\ quiet s s'.
Proof.
  intros [Hid [e He]]. cbn [ipc_step]. unfold cs_ipcs_msg_process. destruct (allowed_cases e c id reserved quorate sync He Hid) as (ok & -> & _).
  cbn [mbind option_bind]. set (s1 := if reserved =? -1 then s else _).
  assert (Q1 : quiet s s1) by (unfold s1; destruct (reserved =? -1); [apply quiet_refl | now apply quiet_emit]).
  assert (R : forall s2, quiet s s2 -> quiet s (corosync_sending_allowed_release reserved s2))
    by (intros s2 Q; unfold corosync_sending_allowed_release; destruct (reserved =? -1); [exact Q | eapply quiet_trans; [exact Q | now apply quiet_emit]]).
  assert (A : forall err s2, quiet s s2 -> quiet s (if (service_of c =? CPG_SERVICE) && (id =? 2) then s2 else ipc_emit (IpcResponse c err) s2))
    by (intros err s2 Q; destruct (_ && _); [exact Q | eapply quiet_trans; [exact Q | now apply quiet_emit]]).
  destruct (ok =? - EINVAL); [|destruct (ok <? 0)]; (eexists; split; [reflexivity|]; cbn [snd]; apply R).
  - apply A. eapply quiet_trans; [exact Q1 | now apply quiet_context].
  - apply A. eapply quiet_trans; [exact Q1 | now apply quiet_context].
  - eapply quiet_trans; [exact Q1 | now apply quiet_emit].
Qed.

(** ** Messages *)

(** The connection is neither opened nor closed. *)
Definition stays_open (conn : Z) (e : ipc_event) : Prop :=
  match e with IeConnect c _ _ | IeClose c _ | IeDestroy c => c <> conn | _ => True end.

(** How often libqb refused a message of the connection for good. *)
Definition refused (c : Z) (l : list ipc_effect) : nat :=
  length (List.filter (fun e => match e with IpcEventFailed c' _ => c' =? c | _ => false end) l).

Lemma refused_app c l l' : refused c (l ++ l') = (refused c l + refused c l')%nat.
Proof. unfold refused. now rewrite List.filter_app, length_app. Qed.

Definition message_of (conn : Z) (e : ipc_event) : list (list Z) :=
  match e with IeSend c _ iov => if c =? conn then [concat iov] else [] | _ => [] end.

(** The messages that were taken and those that wait are those that were sent, less at
    most one for each that libqb refused. *)
Record advances (conn : Z) (msgs : list (list Z)) (q q' : list (list Z)) (b b' : bool) (s s' : ipc) (kept : list (list Z)) : Prop := {
  ad_queue : queue s' conn = Some (q', b');
  ad_order : delivered conn (ipc_out s') ++ q' = delivered conn (ipc_out s) ++ q ++ kept;
  ad_kept : kept `sublist_of` msgs;
  ad_lost : (length msgs + refused conn (ipc_out s) <= length kept + refused conn (ipc_out s'))%nat;
  ad_flush : refused conn (ipc_out s') = refused conn (ipc_out s) -> (b = true -> conn ∈ ipc_jobs s) -> b' = true -> conn ∈ ipc_jobs s'
}.

Definition advance (conn : Z) (msgs : list (list Z)) (s s' : ipc) : Prop :=
  forall q b, queue s conn = Some (q, b) -> exists q' b' kept, advances conn msgs q q' b b' s s' kept.

Lemma sublist_whole {A} (l k : list A) : l `sublist_of` k -> (length k <= length l)%nat -> l = k.
Proof.
  induction 1 as [|x l k _ IH|x l k H _]; cbn; intros L; [reflexivity | f_equal; apply IH; lia |]. apply sublist_length in H. lia.
Qed.

Lemma advance_trans conn m1 m2 s1 s2 s3 : advance conn m1 s1 s2 -> advance conn m2 s2 s3 -> advance conn (m1 ++ m2) s1 s3.
Proof.
  intros A1 A2 q b Hq. destruct (A1 q b Hq) as (q1 & b1 & k1 & [Q1 O1 K1 L1 F1]). destruct (A2 q1 b1 Q1) as (q2 & b2 & k2 & [Q2 O2 K2 L2 F2]).
  exists q2, b2, (k1 ++ k2). pose proof (sublist_length _ _ K1). pose proof (sublist_length _ _ K2). constructor.
  - exact Q2.
  - now rewrite O2, app_assoc, O1, <- !app_assoc.
  - now apply sublist_app.
  - rewrite !length_app. lia.
  - intros E Hb. apply F2; [lia|]. apply F1; [lia | exact Hb].
Qed.

(** Nothing was sent to the connection, and its queue is as it was. *)
Lemma same_advance conn s s' l : queue s' conn = queue s conn -> (conn ∈ ipc_jobs s -> conn ∈ ipc_jobs s') ->
  ipc_out s' = ipc_out s ++ l -> delivered conn l = [] -> advance conn [] s s'.
Proof.
  intros Q J O D q b H. exists q, b, []. constructor; [now rewrite Q | now rewrite O, delivered_app, D, !app_nil_r | constructor | rewrite O, refused_app; cbn; lia | auto].
Qed.

Lemma quiet_advance conn s s' : quiet s s' -> advance conn [] s s'.
Proof. intros [Q J (l & O & F)]. apply (same_advance conn s s' l); [apply Q | now rewrite J | exact O | now apply delivered_none]. Qed.

Lemma remove_job_in c c' l : NoDup l -> c' ∈ remove_job c l <-> c' ∈ l /\ c' <> c.
Proof.
  induction l as [|x l IH]; intros N; cbn [remove_job]; [split; [intros H; now apply elem_of_nil in H | intros [H _]; now apply elem_of_nil in H]|].
  apply NoDup_cons in N as [Nx N]. destruct (Z.eqb_spec x c) as [->|Nc].
  - rewrite elem_of_cons. split; [intros H; split; [now right | intros ->; contradiction] | intros [[->|H] X]; [contradiction | exact H]].
  - rewrite !elem_of_cons, (IH N). split; [intros [->|[H X]]; auto | intros [[->|H] X]; auto].
Qed.

Lemma remove_job_nodup c l : NoDup l -> NoDup (remove_job c l).
Proof.
  induction l as [|x l IH]; intros N; [constructor|]. cbn. apply NoDup_cons in N as [Nx N]. destruct (x =? c); [exact N|].
  apply NoDup_cons. split; [|now apply IH]. intros H. apply Nx. now apply remove_job_in in H as [H _].
Qed.

(** A flush takes a first part of the queue. *)
Lemma flush_spec send k q : (forall i m, q !! i = Some m -> send (k + i)%nat < 0 \/ send (k + i)%nat = Z.of_nat (length m)) ->
  exists done rest e, flush_items send k q = Some (done, rest, e) /\ q = done ++ rest /\
    match e with FlushFailed rc => exists i, send i = rc /\ rc < 0 /\ rc <> - EAGAIN | FlushDone => True end.
Proof.
  revert k. induction q as [|m q IH]; intros k H; [exists [], [], FlushDone; now repeat split|]. cbn [flush_items].
  pose proof (H 0%nat m eq_refl) as H0. rewrite Nat.add_0_r in H0. destruct (Z.ltb_spec (send k) 0) as [L|L]; cbn [andb].
  - destruct (Z.eqb_spec (send k) (- EAGAIN)) as [E|E]; cbn [negb].
    + exists [], (m :: q), FlushDone. now repeat split.
    + exists [], (m :: q), (FlushFailed (send k)). split; [reflexivity|]. split; [reflexivity|]. exists k. now repeat split.
  - destruct H0 as [|H0]; [lia|]. rewrite H0, Z.eqb_refl. destruct (Z.eqb_spec (Z.of_nat (length m)) (- EAGAIN)) as [E|E]; [unfold EAGAIN in E; lia|]. cbn [negb].
    destruct (IH (S k)) as (done & rest & e & -> & -> & He); [intros i m' Hi; specialize (H (S i) m' Hi); now rewrite Nat.add_succ_r in H|].
    cbn [mbind option_bind]. exists (m :: done), rest, e. now repeat split.
Qed.

Lemma queue_upd c f s c' : queue (upd_context c f s) c' = if bool_decide (c = c') then (fun x => (outq_head (f x), queuing (f x))) <$> ipc_contexts s !! c else queue s c'.
Proof.
  unfold queue, upd_context. cbn. destruct (bool_decide_reflect (c = c')) as [<-|N]; [|now rewrite lookup_alter_ne].
  rewrite lookup_alter_eq. now destruct (ipc_contexts s !! c).
Qed.

(** The invariant when one queue changes. *)
Lemma queue_inv c (v : option (list (list Z) * bool)) s s' : ipc_inv s -> (forall c', queue s' c' = if bool_decide (c = c') then v else queue s c') ->
  (forall q, v = Some (q, false) -> q = []) -> NoDup (ipc_jobs s') -> (forall c', c' <> c -> c' ∈ ipc_jobs s' -> c' ∈ ipc_jobs s) ->
  (c ∈ ipc_jobs s' -> exists q, v = Some (q, true)) -> ipc_inv s'.
Proof.
  intros [E N J] Q V N' Jo Jc. constructor.
  - intros c' q. rewrite Q. destruct (bool_decide_reflect (c = c')); [apply V | apply E].
  - exact N'.
  - intros c' H. rewrite Q. destruct (bool_decide_reflect (c = c')) as [->|X]; [now apply Jc | apply J, Jo; congruence].
Qed.

(** A first part [done] of the queue was taken; libqb refused the next message if [l] says so. *)
Lemma taken_advance c x done s s' l v conn : ipc_contexts s !! c = Some x -> NoDup (ipc_jobs s) -> outq_head x = done ++ fst v ->
  (forall c', queue s' c' = if bool_decide (c = c') then Some v else queue s c') -> ipc_out s' = ipc_out s ++ List.map (IpcEvent c) done ++ l ->
  Forall (fun e => is_event e = false) l -> (forall c', c' <> c -> c' ∈ remove_job c (ipc_jobs s) -> c' ∈ ipc_jobs s') ->
  (c = conn -> snd v = true -> refused conn l = 0%nat -> conn ∈ ipc_jobs s') -> advance conn [] s s'.
Proof.
  intros Hx N Ed Q O Fl Jk Hv q b Hq. destruct (Z.eqb_spec c conn) as [<-|X].
  - exists (fst v), (snd v), []. constructor; [rewrite Q, bool_decide_true by reflexivity; now destruct v | | constructor | rewrite O, !refused_app; cbn; lia |].
    + rewrite O, !delivered_app, (delivered_none c l Fl), delivered_events, Z.eqb_refl, !app_nil_r. unfold queue in Hq. rewrite Hx in Hq. injection Hq as <- _. now rewrite Ed, <- app_assoc.
    + intros E _ Hs. apply Hv; [reflexivity | exact Hs | rewrite O, !refused_app in E; lia].
  - apply (same_advance conn s s' (List.map (IpcEvent c) done ++ l)); [now rewrite Q, bool_decide_false by exact X | | exact O | | exact Hq].
    + intros H. apply Jk; [congruence|]. apply remove_job_in; [exact N|]. split; [exact H | congruence].
    + now rewrite delivered_app, (delivered_none conn l Fl), delivered_events, (proj2 (Z.eqb_neq _ _) X).
Qed.

Lemma flush_steps c send s : ipc_inv s -> ipc_event_ok (IeFlush c send) s ->
  exists s', ipc_step (IeFlush c send) s = Some s' /\ ipc_inv s' /\ forall conn, stays_open conn (IeFlush c send) -> advance conn [] s s'.
Proof.
  intros I Ok. cbn [ipc_step]. destruct (bool_decide_reflect (c ∈ ipc_jobs s)) as [Hj|]; [|exists s; split; [reflexivity|]; split; [exact I | intros; apply quiet_advance, quiet_refl]].
  destruct (ii_jobs _ I c Hj) as [q Hq]. unfold queue in Hq. destruct (ipc_contexts s !! c) as [x|] eqn:Hx; [|discriminate]. injection Hq as Eq Eb.
  unfold outq_flush. change (ipc_contexts (s <| ipc_jobs ::= remove_job c |>)) with (ipc_contexts s). rewrite Hx. cbn [mbind option_bind].
  destruct (flush_spec send 0 (outq_head x)) as (done & rest & e & -> & Ed & He); [intros i m Hi; exact (Ok x i m Hx Hi)|]. cbn [mbind option_bind].
  pose proof (ii_nodup _ I) as N. pose proof (remove_job_nodup c _ N) as N'.
  assert (Nc : c ∉ remove_job c (ipc_jobs s)) by (intros H; apply (remove_job_in c c _ N) in H as [_ H]; now apply H).
  set (f1 := fun c0 : cs_ipcs_conn_context => _). set (s0 := s <| ipc_jobs ::= remove_job c |>). set (s1 := s0 <| ipc_out ::= fun o => o ++ map (IpcEvent c) done |>).
  assert (Hs1 : ipc_contexts s1 !! c = Some x) by exact Hx.
  destruct e as [rc|]; [|destruct (bool_decide_reflect (rest = [])) as [->|Nr]]; (eexists; split; [reflexivity|]).
  - assert (Q : forall c', queue (ipc_emit (IpcEventFailed c rc) (upd_context c f1 s1)) c' = if bool_decide (c = c') then Some (rest, queuing x) else queue s c').
    { intros c'. change (queue (upd_context c f1 s1) c' = if bool_decide (c = c') then Some (rest, queuing x) else queue s c'). rewrite queue_upd, Hs1. reflexivity. }
    split.
    + apply (queue_inv c _ s _ I Q); [intros q0 [= _ X]; congruence | exact N' | intros c' X H; now apply (remove_job_in c c' _ N) in H as [H _] | intros H; contradiction (Nc H)].
    + intros conn Hu. apply (taken_advance c x done _ _ [IpcEventFailed c rc] (rest, queuing x) conn Hx N Ed Q); [cbn; now rewrite app_assoc | now repeat constructor | auto |].
      intros <- _ R. unfold refused in R. cbn in R. rewrite Z.eqb_refl in R. discriminate R.
  - assert (Q : forall c', queue (upd_context c (fun c0 => c0 <| queuing := false |> <| queued := 0 |> <| sent := 0 |>) (upd_context c f1 s1)) c' = if bool_decide (c = c') then Some ([], false) else queue s c').
    { intros c'. rewrite queue_upd. destruct (bool_decide_reflect (c = c')) as [<-|X].
      - unfold upd_context at 1. cbn. now rewrite lookup_alter_eq, Hx.
      - rewrite queue_upd, bool_decide_false by exact X. reflexivity. }
    split.
    + apply (queue_inv c _ s _ I Q); [now intros q0 [= <-] | exact N' | intros c' X H; now apply (remove_job_in c c' _ N) in H as [H _] | intros H; contradiction (Nc H)].
    + intros conn Hu. apply (taken_advance c x done _ _ [] ([], false) conn Hx N Ed Q); [cbn; now rewrite app_nil_r | constructor | auto | discriminate].
  - assert (Q : forall c', queue (upd_context c f1 s1 <| ipc_jobs ::= fun l => l ++ [c] |>) c' = if bool_decide (c = c') then Some (rest, queuing x) else queue s c').
    { intros c'. change (queue (upd_context c f1 s1) c' = if bool_decide (c = c') then Some (rest, queuing x) else queue s c'). rewrite queue_upd, Hs1. reflexivity. }
    split.
    + apply (queue_inv c _ s _ I Q); [intros q0 [= _ X]; congruence | | | intros _; exists rest; now rewrite Eb].
      * cbn. apply NoDup_app. split; [exact N'|]. split; [|apply NoDup_singleton]. intros z Hz Hz'. apply list_elem_of_singleton in Hz' as ->. contradiction.
      * intros c' X H. cbn in H. apply elem_of_app in H as [H|H]; [now apply (remove_job_in c c' _ N) in H as [H _] | apply list_elem_of_singleton in H; congruence].
    + intros conn Hu. apply (taken_advance c x done _ _ [] (rest, queuing x) conn Hx N Ed Q); [cbn; now rewrite app_nil_r | constructor | |].
      * intros c' _ H. cbn. apply elem_of_app. now left.
      * intros <- _ _. cbn. apply elem_of_app. right. now apply list_elem_of_singleton.
Qed.

(** A message was taken or put at the end of the queue. *)
Lemma sent_advance c q0 b0 msg s s' (v : list (list Z) * bool) l conn : queue s c = Some (q0, b0) ->
  (forall c', queue s' c' = if bool_decide (c = c') then Some v else queue s c') -> ipc_out s' = ipc_out s ++ l ->
  (forall z, z ∈ ipc_jobs s -> z ∈ ipc_jobs s') -> delivered conn l = (if c =? conn then delivered c l else []) ->
  (c = conn -> delivered c l ++ fst v = q0 ++ [msg] /\ (snd v = true -> (b0 = true -> c ∈ ipc_jobs s) -> c ∈ ipc_jobs s')) ->
  advance conn (if c =? conn then [msg] else []) s s'.
Proof.
  intros Hq Q O J D Hv. destruct (Z.eqb_spec c conn) as [<-|X].
  - intros q b Hqc. rewrite Hq in Hqc. injection Hqc as <- <-. destruct (Hv eq_refl) as [E Jc]. exists (fst v), (snd v), [msg].
    constructor; [rewrite Q, bool_decide_true by reflexivity; now destruct v | now rewrite O, delivered_app, <- app_assoc, E | reflexivity | rewrite O, refused_app; lia | auto].
  - apply (same_advance conn s s' l); [now rewrite Q, bool_decide_false by exact X | apply J | exact O | exact D].
Qed.

(** Or libqb refused it, and it is lost. *)
Lemma lost_advance conn rc msg s : advance conn [msg] s (ipc_emit (IpcEventFailed conn rc) s).
Proof.
  intros q b Hq. exists q, b, []. constructor; [exact Hq | | apply sublist_nil_l | | auto].
  - change (ipc_out (ipc_emit (IpcEventFailed conn rc) s)) with (ipc_out s ++ [IpcEventFailed conn rc]). rewrite delivered_app. cbn [delivered List.concat List.map]. now rewrite !app_nil_r.
  - change (ipc_out (ipc_emit (IpcEventFailed conn rc) s)) with (ipc_out s ++ [IpcEventFailed conn rc]). rewrite refused_app. unfold refused at 3. cbn. rewrite Z.eqb_refl. cbn. lia.
Qed.

Lemma send_steps c rc iov s : ipc_inv s -> ipc_event_ok (IeSend c rc iov) s ->
  exists s', ipc_step (IeSend c rc iov) s = Some s' /\ ipc_inv s' /\ forall conn, stays_open conn (IeSend c rc iov) -> advance conn (message_of conn (IeSend c rc iov)) s s'.
Proof.
  intros I [x Hx]. cbn [ipc_step message_of]. unfold cs_ipcs_dispatch_iov_send, msg_send_or_queue. rewrite Hx. cbn [mbind option_bind]. set (msg := concat iov).
  set (enqueue := fun s0 : ipc => upd_context c (fun c0 => c0 <| outq_head ::= fun q => q ++ [msg] |> <| queued ::= fun x => u32 (x + 1) |>) s0).
  assert (Hq : queue s c = Some (outq_head x, queuing x)) by (unfold queue; now rewrite Hx).
  destruct (queuing x) eqn:Eb.
  { eexists. split; [reflexivity|]. cbn [snd].
    assert (Q : forall c', queue (enqueue s) c' = if bool_decide (c = c') then Some (outq_head x ++ [msg], true) else queue s c').
    { intros c'. unfold enqueue. rewrite queue_upd, Hx. cbn. rewrite Eb. reflexivity. }
    split.
    - apply (queue_inv c _ s _ I Q); [discriminate | exact (ii_nodup _ I) | auto | eauto].
    - intros conn _. apply (sent_advance c _ _ msg _ _ _ [] conn Hq Q); [cbn; now rewrite app_nil_r | auto | now destruct (c =? conn) |]. intros <-. cbn. auto. }
  rewrite (ii_empty _ I c _ Hq), bool_decide_true by reflexivity. cbn [negb]. pose proof (ii_empty _ I c _ Hq) as E0.
  assert (Nj : c ∉ ipc_jobs s) by (intros H; destruct (ii_jobs _ I c H) as [q H']; rewrite Hq in H'; discriminate).
  destruct (Z.eqb_spec rc (Z.of_nat (length msg))) as [Er|Er]; [|destruct (Z.eqb_spec rc (- EAGAIN)) as [Ea|Ea]]; (eexists; split; [reflexivity|]; cbn [snd]).
  - match goal with |- ipc_inv ?t /\ _ => assert (Q : forall c', queue t c' = if bool_decide (c = c') then Some (outq_head x, false) else queue s c') end.
    { intros c'. rewrite queue_upd. change (ipc_contexts (ipc_emit (IpcEvent c msg) s)) with (ipc_contexts s). rewrite Hx. cbn. now rewrite Eb. }
    split.
    + apply (queue_inv c _ s _ I Q); [now intros q [= <-] | exact (ii_nodup _ I) | auto | intros H; contradiction (Nj H)].
    + intros conn _. apply (sent_advance c _ _ msg _ _ _ [IpcEvent c msg] conn Hq Q); [reflexivity | auto | | intros <-; cbn; rewrite Z.eqb_refl, E0; auto].
      unfold delivered. cbn. rewrite Z.eqb_refl. now destruct (c =? conn).
  - match goal with |- ipc_inv ?t /\ _ => assert (Q : forall c', queue t c' = if bool_decide (c = c') then Some (outq_head x ++ [msg], true) else queue s c') end.
    { intros c'. unfold enqueue. rewrite queue_upd. destruct (bool_decide_reflect (c = c')) as [<-|X].
      - cbn. rewrite lookup_alter_eq, Hx. reflexivity.
      - change (queue (upd_context c (fun c0 => c0 <| queued := 0 |> <| sent := 0 |> <| queuing := true |>) s) c' = queue s c'). now rewrite queue_upd, bool_decide_false. }
    split.
    + apply (queue_inv c _ s _ I Q); [discriminate | | intros c' X H; cbn in H; apply elem_of_app in H as [H|H]; [exact H | apply list_elem_of_singleton in H; congruence] | eauto].
      cbn. apply NoDup_app. split; [exact (ii_nodup _ I)|]. split; [|apply NoDup_singleton]. intros z Hz Hz'. apply list_elem_of_singleton in Hz' as ->. contradiction.
    + intros conn _. apply (sent_advance c _ _ msg _ _ _ [] conn Hq Q); [cbn; now rewrite app_nil_r | intros z Hz; cbn; apply elem_of_app; now left | now destruct (c =? conn) |].
      intros <-. split; [reflexivity|]. intros _ _. cbn. apply elem_of_app. right. now apply list_elem_of_singleton.
  - split; [apply (quiet_inv s); [now apply quiet_emit | exact I]|]. intros conn Hu. destruct (Z.eqb_spec c conn) as [<-|X].
    + apply lost_advance.
    + apply quiet_advance. now apply quiet_emit.
Qed.

(** What happens to a connection itself. *)
Lemma connection_steps e s : ipc_inv s -> ipc_event_ok e s -> match e with IeConnect _ _ _ | IeClose _ _ | IeDestroy _ => True | _ => False end ->
  exists s', ipc_step e s = Some s' /\ ipc_inv s' /\ forall conn, stays_open conn e -> advance conn [] s s'.
Proof.
  intros I Ok He. destruct e as [c lib_init line|c lib_exit|c| | | | | | | | | |]; try contradiction; cbn [ipc_event_ok ipc_step] in *.
  - destruct Ok as [Hc [eng Hs]]. unfold cs_ipcs_connection_created. rewrite Hs. cbn [mbind option_bind].
    set (s1 := s <| ipc_contexts ::= <[c := mk_context [] false 0 0 0 0 ""]> |>).
    assert (Q1 : forall c', queue s1 c' = if bool_decide (c = c') then Some ([], false) else queue s c').
    { intros c'. unfold queue, s1. cbn. destruct (bool_decide_reflect (c = c')) as [<-|X]; [now rewrite lookup_insert_eq | now rewrite lookup_insert_ne]. }
    assert (Nj : c ∉ ipc_jobs s) by (intros H; destruct (ii_jobs _ I c H) as [q H']; unfold queue in H'; now rewrite Hc in H').
    assert (I1 : ipc_inv s1) by (apply (queue_inv c _ s _ I Q1); [now intros q [= <-] | exact (ii_nodup _ I) | auto | intros H; contradiction (Nj H)]).
    assert (G : forall s', quiet s1 s' -> ipc_inv s' /\ forall conn, c <> conn -> advance conn [] s s').
    { intros s' Qs. split; [exact (quiet_inv _ _ Qs I1)|]. intros conn X. destruct Qs as [Qq Qj (l & Qo & Fl)]. apply (same_advance conn s s' l); [|now rewrite Qj | exact Qo | now apply delivered_none].
      now rewrite Qq, Q1, bool_decide_false by exact X. }
    destruct (negb (lib_init =? 0)); (eexists; split; [reflexivity|]; apply G).
    + eapply quiet_trans; [apply quiet_emit | apply quiet_emit]; reflexivity.
    + eapply quiet_trans; [apply (quiet_emit (IpcLibInit c)); reflexivity|]. eapply quiet_trans; [apply (quiet_context c (fun x => x <| proc_name := default ""%string (pid_to_name line) |>)); reflexivity|].
      eapply quiet_trans; [apply (quiet_emit (IpcStatsAdd (service_of c) (pid_of c) c)); reflexivity|]. constructor; [reflexivity.. |]. exists []. split; [cbn; now rewrite app_nil_r | constructor].
  - destruct Ok as [eng Hs]. unfold cs_ipcs_connection_closed. rewrite Hs. cbn [mbind option_bind]. destruct (negb (lib_exit =? 0)); (eexists; split; [reflexivity|]; cbn [snd]).
    + split; [apply (quiet_inv s); [now apply quiet_emit | exact I]|]. intros conn _. apply quiet_advance. now apply quiet_emit.
    + pose proof (ii_nodup _ I) as N. split.
      * constructor; [exact (ii_empty _ I) | exact (remove_job_nodup c _ N) |]. intros c' H. change (c' ∈ remove_job c (ipc_jobs s)) in H. apply remove_job_in in H as [H _]; [exact (ii_jobs _ I c' H) | exact N].
      * intros conn X. apply (same_advance conn s _ [IpcLibExit c; IpcStatsDel (service_of c) (pid_of c) c]); [reflexivity | | cbn; now rewrite <- app_assoc | reflexivity].
        intros H. change (conn ∈ remove_job c (ipc_jobs s)). apply remove_job_in; [exact N | split; [exact H | congruence]].
  - eexists. split; [reflexivity|].
    assert (Q : forall c', queue (cs_ipcs_connection_destroyed c s) c' = if bool_decide (c = c') then None else queue s c').
    { intros c'. unfold queue, cs_ipcs_connection_destroyed. cbn. destruct (bool_decide_reflect (c = c')) as [<-|X]; [now rewrite lookup_delete_eq | now rewrite lookup_delete_ne]. }
    split; [apply (queue_inv c _ s _ I Q); [discriminate | exact (ii_nodup _ I) | auto | intros H; contradiction (Ok H)]|].
    intros conn X. apply (same_advance conn s _ []); [now rewrite Q, bool_decide_false by exact X | auto | cbn; now rewrite app_nil_r | reflexivity].
Qed.

Lemma clear_quiet connections s : quiet s (cs_ipcs_clear_stats connections s).
Proof.
  unfold cs_ipcs_clear_stats. eapply quiet_trans; [|apply quiet_fold].
  - constructor; [reflexivity.. |]. exists []. split; [cbn; now rewrite app_nil_r | constructor].
  - intros s' i. destruct (ipcs_mapper s' !! i); [|apply quiet_refl]. apply quiet_fold. intros s2 c. unfold clear_context.
    eapply quiet_trans; [apply (quiet_emit (IpcStatsCleared c)); reflexivity | now apply quiet_context].
Qed.

Lemma quiet_var s s' : ipc_contexts s' = ipc_contexts s -> ipc_jobs s' = ipc_jobs s -> ipc_out s' = ipc_out s -> quiet s s'.
Proof. intros C J O. constructor; [intros c; unfold queue; now rewrite C | exact J |]. exists []. rewrite O, app_nil_r. now split. Qed.

Lemma ipc_steps e s : ipc_inv s -> ipc_event_ok e s ->
  exists s', ipc_step e s = Some s' /\ ipc_inv s' /\ forall conn, stays_open conn e -> advance conn (message_of conn e) s s'.
Proof.
  intros I Ok.
  assert (G : forall s', quiet s s' -> ipc_inv s' /\ forall conn, stays_open conn e -> advance conn [] s s')
    by (intros s' Q; split; [exact (quiet_inv _ _ Q I) | intros conn _; now apply quiet_advance]).
  destruct e; try (now apply connection_steps); try (now apply send_steps); try (now apply flush_steps).
  - destruct (request_quiet _ _ _ _ _ _ Ok) as (s' & E & Q). exists s'. split; [exact E | now apply G].
  - eexists. split; [reflexivity|]. apply G. eapply quiet_trans; [|apply quiet_check]. now apply quiet_var.
  - eexists. split; [reflexivity|]. apply G. eapply quiet_trans; [|apply quiet_check]. now apply quiet_var.
  - eexists. split; [reflexivity|]. apply G. eapply quiet_trans; [|apply quiet_check]. now apply quiet_var.
  - eexists. split; [reflexivity|]. apply G. now apply quiet_var.
  - eexists. split; [reflexivity|]. apply G. now apply quiet_var.
  - eexists. split; [reflexivity|]. apply G. unfold corosync_recheck_the_q_level. destruct (_ =? _); [eapply quiet_trans; now apply quiet_emit | now apply quiet_emit].
  - eexists. split; [reflexivity|]. apply G. apply clear_quiet.
Qed.

Lemma ipc_runs es s : ipc_inv s -> ipc_events_ok es s ->
  exists s', ipc_run es s = Some s' /\ ipc_inv s' /\
    forall conn, Forall (stays_open conn) es -> advance conn (List.concat (List.map (message_of conn) es)) s s'.
Proof.
  revert s. induction es as [|e es IH]; intros s I Ok; [exists s; split; [reflexivity|]; split; [exact I | intros conn _; apply quiet_advance, quiet_refl]|].
  cbn [ipc_events_ok ipc_run List.map List.concat] in *. destruct Ok as [Oe Ok]. destruct (ipc_steps e s I Oe) as (s1 & E & I1 & A1). rewrite E in Ok |- *. cbn [mbind option_bind].
  destruct (IH s1 I1 Ok) as (s' & -> & I' & A'). exists s'. split; [reflexivity|]. split; [exact I'|]. intros conn F. apply Forall_cons in F as [Fe F].
  exact (advance_trans _ _ _ _ _ _ (A1 conn Fe) (A' conn F)).
Qed.

(** C38: Messages reach a client in order, whatever libqb answers.  Over any sequence of
    connections, requests, messages to clients, flushes of queues and changes of the
    state of the node, for a connection that stays open, the messages that libqb took
    followed by those that wait in the queue are those of before followed by the new
    messages that were kept, in the order in which the services sent them: none is
    doubled or overtaken, and for each message that is lost libqb refused one with an
    error other than the one that asks to try again.  When libqb refused none, all
    messages were kept, and as long as messages wait a flush of the queue is scheduled;
    a refusal during a flush leaves the rest in the queue without a flush. *)
Theorem dispatch_in_order es s conn q b : ipc_inv s -> ipc_events_ok es s -> Forall (stays_open conn) es -> queue s conn = Some (q, b) ->
  let sent := List.concat (List.map (message_of conn) es) in
  exists s' q' b' kept, ipc_run es s = Some s' /\ queue s' conn = Some (q', b') /\
    delivered conn (ipc_out s') ++ q' = delivered conn (ipc_out s) ++ q ++ kept /\ kept `sublist_of` sent /\
    (length sent + refused conn (ipc_out s) <= length kept + refused conn (ipc_out s'))%nat /\
    (refused conn (ipc_out s') = refused conn (ipc_out s) -> kept = sent /\ ((b = true -> conn ∈ ipc_jobs s) -> q' <> [] -> conn ∈ ipc_jobs s')).
Proof.
  intros I Ok F Hq sent. destruct (ipc_runs es s I Ok) as (s' & R & I' & A). destruct (A conn F q b Hq) as (q' & b' & kept & [Hq' D K L J]). fold sent in K, L.
  exists s', q', b', kept. split; [exact R|]. split; [exact Hq'|]. split; [exact D|]. split; [exact K|]. split; [exact L|]. intros E. split.
  - apply sublist_whole; [exact K | lia].
  - intros Hb N. apply J; [exact E | exact Hb |]. destruct b'; [reflexivity|]. destruct N. exact (ii_empty _ I' _ _ Hq').
Qed.

(** ** Requests *)

Definition reserves (n : Z) (l : list ipc_effect) : list ipc_effect := if n =? -1 then l else IpcReserved n :: l ++ [IpcReleased n].

(** C39: Requests of clients are admitted exactly when they may be served.  A request
    whose number or size is impossible is answered with an invalid parameter; one that
    cannot be served now, for want of quorum, for want of room in the queue of totem or
    because of a synchronisation, with the order to try again; every other one, and no
    other, reaches the function of its service.  The asynchronous request of cpg gets no
    answer.  In all cases what was reserved in the queue of totem is released. *)
Theorem request_gate_exact e c id reserved quorate sync s : corosync_service (service_of c) = Some e -> 0 <= id ->
  let async := (service_of c =? CPG_SERVICE) && (id =? 2) in
  exists res s' l, cs_ipcs_msg_process corosync_service service_of c id reserved quorate sync s = Some (res, s') /\
    ipc_out s' = ipc_out s ++ reserves reserved l /\
    (~ well_formed e id reserved -> res = - EINVAL /\ l = if async then [] else [IpcResponse c CS_ERR_INVALID_PARAM]) /\
    (well_formed e id reserved -> ~ may_serve e id reserved quorate sync -> res = - ENOBUFS /\ l = if async then [] else [IpcResponse c CS_ERR_TRY_AGAIN]) /\
    (well_formed e id reserved -> may_serve e id reserved quorate sync -> res = 0 /\ l = [IpcHandler c (service_of c) id]).
Proof.
  clear pid_of. intros He Hid async. destruct (allowed_cases e c id reserved quorate sync He Hid) as (ok & E & C). unfold cs_ipcs_msg_process. rewrite E. cbn [mbind option_bind]. fold async.
  assert (Out : forall s1 l, ipc_out s1 = ipc_out (if reserved =? -1 then s else ipc_emit (IpcReserved reserved) s) ++ l ->
    ipc_out (corosync_sending_allowed_release reserved s1) = ipc_out s ++ reserves reserved l).
  { intros s1 l H. unfold corosync_sending_allowed_release, reserves. destruct (reserved =? -1); [exact H|]. cbn. rewrite H. cbn. now rewrite <- !app_assoc. }
  destruct C as [[W ->]|[(W & Y & ->)|(W & Y & L & N)]].
  - rewrite Z.eqb_refl. eexists _, _, (if async then [] else [IpcResponse c CS_ERR_INVALID_PARAM]). split; [reflexivity|].
    split; [apply Out; destruct async; [cbn; now rewrite app_nil_r | reflexivity]|]. split; [auto | split; intros; contradiction].
  - change (1 =? - EINVAL) with false. change (1 <? 0) with false. eexists _, _, [IpcHandler c (service_of c) id]. split; [reflexivity|].
    split; [apply Out; reflexivity|]. split; [intros; contradiction | split; [intros; contradiction | auto]].
  - rewrite (proj2 (Z.eqb_neq _ _) N), (proj2 (Z.ltb_lt _ _) L). eexists _, _, (if async then [] else [IpcResponse c CS_ERR_TRY_AGAIN]). split; [reflexivity|].
    split; [apply Out; destruct async; [cbn; now rewrite app_nil_r | reflexivity]|]. split; [intros; contradiction | split; [auto | intros; contradiction]].
Qed.

(** ** Rates *)

(** The last rate that libqb was told for a service. *)
Fixpoint last_rate (i : Z) (l : list ipc_effect) : option rate_limit :=
  match l with
  | [] => None
  | e :: l => match last_rate i l with
              | Some r => Some r
              | None => match e with IpcRateLimit j r => if j =? i then Some r else None | _ => None end
              end
  end.

Lemma last_rate_app i l l' : last_rate i (l ++ l') = match last_rate i l' with Some r => Some r | None => last_rate i l end.
Proof. induction l as [|e l IH]; cbn; [now destruct (last_rate i l')|]. rewrite IH. now destruct (last_rate i l'). Qed.

(** The rate that the state of the node asks for. *)
Definition rate_for (quorate level sync : Z) (i : Z) (e : service_engine) : rate_limit :=
  if negb ((quorate =? 1) || allow_inquorate e) then QB_IPCS_RATE_OFF
  else if (level =? TOTEM_Q_LEVEL_CRITICAL) || (negb (sync =? 0) && negb (i =? VOTEQUORUM_SERVICE)) then QB_IPCS_RATE_OFF_2
  else if level =? TOTEM_Q_LEVEL_LOW then QB_IPCS_RATE_FAST else if level =? TOTEM_Q_LEVEL_GOOD then QB_IPCS_RATE_NORMAL else QB_IPCS_RATE_SLOW.

Definition is_level (l : Z) : Prop := 0 <= l <= 3.

Definition rates_ok (s : ipc) : Prop := is_level (ipc_fc_totem_queue_level s) /\
  forall i e name, i ∈ service_ids -> corosync_service i = Some e -> ipcs_mapper s !! i = Some name ->
    last_rate i (ipc_out s) = Some (rate_for (ipc_fc_is_quorate s) (ipc_fc_totem_queue_level s) (ipc_fc_sync_in_process s) i e).

(** What a check leaves alone. *)
Record checked (s s' : ipc) : Prop := {
  ck_mapper : ipcs_mapper s' = ipcs_mapper s;
  ck_quorate : ipc_fc_is_quorate s' = ipc_fc_is_quorate s;
  ck_level : ipc_fc_totem_queue_level s' = ipc_fc_totem_queue_level s;
  ck_sync : ipc_fc_sync_in_process s' = ipc_fc_sync_in_process s
}.

Lemma checked_refl s : checked s s.
Proof. now constructor. Qed.
Lemma checked_trans s1 s2 s3 : checked s1 s2 -> checked s2 s3 -> checked s1 s3.
Proof. intros [A B C D] [A' B' C' D']. constructor; congruence. Qed.

Lemma check_service_spec j s : is_level (ipc_fc_totem_queue_level s) -> checked s (check_service corosync_service j s) /\
  forall i, last_rate i (ipc_out (check_service corosync_service j s)) =
    match corosync_service j, ipcs_mapper s !! j with
    | Some e, Some _ => if j =? i then Some (rate_for (ipc_fc_is_quorate s) (ipc_fc_totem_queue_level s) (ipc_fc_sync_in_process s) j e) else last_rate i (ipc_out s)
    | _, _ => last_rate i (ipc_out s)
    end.
Proof.
  clear service_of pid_of. intros L. unfold check_service. destruct (corosync_service j) as [e|]; [|split; [apply checked_refl | reflexivity]].
  destruct (ipcs_mapper s !! j); [|split; [apply checked_refl | reflexivity]].
  assert (One : forall r l', Forall (fun e => match e with IpcRateLimit _ _ => False | _ => True end) l' ->
    forall i s', ipc_out s' = ipc_out s ++ IpcRateLimit j r :: l' -> last_rate i (ipc_out s') = if j =? i then Some r else last_rate i (ipc_out s)).
  { intros r l' F i s' ->. rewrite last_rate_app. cbn.
    assert (Nl : last_rate i l' = None) by (clear -F; induction F as [|e l H _ IH]; [reflexivity|]; cbn; rewrite IH; now destruct e). rewrite Nl. now destruct (j =? i). }
  assert (F : fc_enabled j e s = if negb ((ipc_fc_is_quorate s =? 1) || allow_inquorate e) then Some QB_IPCS_RATE_OFF
    else if (ipc_fc_totem_queue_level s =? TOTEM_Q_LEVEL_CRITICAL) || (negb (ipc_fc_sync_in_process s =? 0) && negb (j =? VOTEQUORUM_SERVICE)) then Some QB_IPCS_RATE_OFF_2 else None).
  { unfold fc_enabled. destruct (_ || allow_inquorate e); [|reflexivity]. cbn [negb]. destruct (ipc_fc_totem_queue_level s =? _); [reflexivity|]. cbn [negb andb orb].
    destruct (ipc_fc_sync_in_process s =? 0); [reflexivity|]. cbn [negb andb]. now destruct (j =? _). }
  rewrite F. unfold rate_for. destruct (negb (_ || allow_inquorate e)).
  { split; [now constructor|]. intros i. apply (One _ [IpcRecheckTimer]); [now repeat constructor | cbn; now rewrite <- app_assoc]. }
  destruct (Z.eqb_spec (ipc_fc_totem_queue_level s) TOTEM_Q_LEVEL_CRITICAL) as [C|C]; cbn [orb].
  { split; [now constructor|]. intros i. apply (One _ [IpcRecheckTimer]); [now repeat constructor | cbn; now rewrite <- app_assoc]. }
  destruct (negb _ && negb _).
  { split; [now constructor|]. intros i. apply (One _ [IpcRecheckTimer]); [now repeat constructor | cbn; now rewrite <- app_assoc]. }
  unfold is_level, TOTEM_Q_LEVEL_CRITICAL, TOTEM_Q_LEVEL_LOW, TOTEM_Q_LEVEL_GOOD, TOTEM_Q_LEVEL_HIGH in *.
  destruct (Z.eqb_spec (ipc_fc_totem_queue_level s) 0); [|destruct (Z.eqb_spec (ipc_fc_totem_queue_level s) 1); [|destruct (Z.eqb_spec (ipc_fc_totem_queue_level s) 2); [|lia]]];
    (split; [now constructor | intros i; now apply (One _ [])]).
Qed.

Lemma check_rates l s : is_level (ipc_fc_totem_queue_level s) -> NoDup l ->
  let s' := fold_left (fun s i => check_service corosync_service i s) l s in
  checked s s' /\ forall i, last_rate i (ipc_out s') =
    match corosync_service i, ipcs_mapper s !! i with
    | Some e, Some _ => if bool_decide (i ∈ l) then Some (rate_for (ipc_fc_is_quorate s) (ipc_fc_totem_queue_level s) (ipc_fc_sync_in_process s) i e) else last_rate i (ipc_out s)
    | _, _ => last_rate i (ipc_out s)
    end.
Proof.
  clear service_of pid_of. revert s. induction l as [|j l IH]; intros s L N; cbn [fold_left].
  { split; [apply checked_refl|]. intros i. rewrite bool_decide_false by apply not_elem_of_nil. destruct (corosync_service i); [|reflexivity]. now destruct (ipcs_mapper s !! i). }
  apply NoDup_cons in N as [Nj N]. destruct (check_service_spec j s L) as [C R]. destruct (IH (check_service corosync_service j s)) as [C' R']; [now rewrite (ck_level _ _ C) | exact N|].
  split; [exact (checked_trans _ _ _ C C')|]. intros i. rewrite R', (ck_mapper _ _ C), (ck_quorate _ _ C), (ck_level _ _ C), (ck_sync _ _ C), R.
  destruct (Z.eqb_spec j i) as [<-|X].
  - rewrite bool_decide_false by exact Nj. rewrite bool_decide_true by left. now destruct (corosync_service j), (ipcs_mapper s !! j).
  - rewrite (bool_decide_ext (i ∈ j :: l) (i ∈ l)) by (rewrite elem_of_cons; firstorder congruence).
    destruct (corosync_service i), (ipcs_mapper s !! i), (corosync_service j), (ipcs_mapper s !! j); reflexivity.
Qed.

(** Steps that neither set a rate nor change what rates depend on. *)
Record steady (s s' : ipc) : Prop := { sy_checked : checked s s'; sy_rates : forall i, last_rate i (ipc_out s') = last_rate i (ipc_out s) }.

Definition is_rate (e : ipc_effect) : bool := match e with IpcRateLimit _ _ => true | _ => false end.

Lemma steady_refl s : steady s s.
Proof. constructor; [apply checked_refl | reflexivity]. Qed.
Lemma steady_trans s1 s2 s3 : steady s1 s2 -> steady s2 s3 -> steady s1 s3.
Proof. intros [C R] [C' R']. constructor; [exact (checked_trans _ _ _ C C') | intros i; now rewrite R']. Qed.

Lemma steady_out s s' l : checked s s' -> ipc_out s' = ipc_out s ++ l -> Forall (fun e => is_rate e = false) l -> steady s s'.
Proof.
  intros C O F. constructor; [exact C|]. intros i. rewrite O, last_rate_app.
  enough (last_rate i l = None) as -> by reflexivity. clear -F. induction F as [|e l' H _ IH]; [reflexivity|]. cbn. rewrite IH. now destruct e.
Qed.

Lemma steady_effect e s : is_rate e = false -> steady s (ipc_emit e s).
Proof. intros H. apply (steady_out _ _ [e]); [now constructor | reflexivity | now repeat constructor]. Qed.

Lemma steady_fold {A} (f : ipc -> A -> ipc) (l : list A) s : (forall s a, steady s (f s a)) -> steady s (fold_left f l s).
Proof. intros H. revert s. induction l as [|a l IH]; intros s; [apply steady_refl|]. cbn. eapply steady_trans; [apply H | apply IH]. Qed.

Definition changes_state (e : ipc_event) : bool := match e with IeQuorum _ | IeLevel _ | IeSync _ => true | _ => false end.

Lemma other_events_steady e s s' : changes_state e = false -> ipc_step e s = Some s' -> steady s s'.
Proof.
  assert (Same : forall s1, steady s s1 -> forall s2, ipcs_mapper s2 = ipcs_mapper s1 -> ipc_fc_is_quorate s2 = ipc_fc_is_quorate s1 ->
    ipc_fc_totem_queue_level s2 = ipc_fc_totem_queue_level s1 -> ipc_fc_sync_in_process s2 = ipc_fc_sync_in_process s1 -> ipc_out s2 = ipc_out s1 -> steady s s2).
  { intros s1 S s2 E1 E2 E3 E4 E5. eapply steady_trans; [exact S|]. constructor; [now constructor | now rewrite E5]. }
  destruct e; try discriminate; intros _; cbn [ipc_step].
  - unfold cs_ipcs_connection_created. destruct (corosync_service _); [|discriminate]. cbn [mbind option_bind]. destruct (negb _); intros [= <-].
    + apply (steady_out _ _ [IpcLibInit c; IpcDisconnect c]); [now constructor | cbn; now rewrite <- app_assoc | now repeat constructor].
    + apply (steady_out _ _ [IpcLibInit c; IpcStatsAdd (service_of c) (pid_of c) c]); [now constructor | cbn; now rewrite <- app_assoc | now repeat constructor].
  - unfold cs_ipcs_connection_closed. destruct (corosync_service _); [|discriminate]. cbn [mbind option_bind fmap option_fmap option_map]. destruct (negb _); intros [= <-].
    + now apply steady_effect.
    + apply (steady_out _ _ [IpcLibExit c; IpcStatsDel (service_of c) (pid_of c) c]); [now constructor | cbn; now rewrite <- app_assoc | now repeat constructor].
  - intros [= <-]. now apply (Same s (steady_refl s)).
  - unfold cs_ipcs_dispatch_iov_send, msg_send_or_queue. destruct (ipc_contexts s !! c) as [x|]; [|discriminate]. cbn [mbind option_bind].
    destruct (queuing x); [intros [= <-]; now apply (Same s (steady_refl s))|]. destruct (negb _); [discriminate|].
    destruct (rc =? _); [|destruct (rc =? _)]; intros [= <-].
    + apply (Same (ipc_emit (IpcEvent c (concat iov)) s)); [now apply steady_effect | reflexivity..].
    + now apply (Same s (steady_refl s)).
    + now apply steady_effect.
  - destruct (bool_decide _); [|intros [= <-]; apply steady_refl]. unfold outq_flush. destruct (ipc_contexts _ !! c) as [x|]; [|discriminate]. cbn [mbind option_bind].
    destruct (flush_items send 0 (outq_head x)) as [[[done rest] e]|]; [|discriminate]. cbn [mbind option_bind].
    assert (S1 : steady s (s <| ipc_jobs ::= remove_job c |> <| ipc_out ::= fun o => o ++ map (IpcEvent c) done |>)).
    { apply (steady_out _ _ (map (IpcEvent c) done)); [now constructor | reflexivity|]. apply Forall_forall. intros y H. apply list_elem_of_In, in_map_iff in H as (m & <- & _). reflexivity. }
    destruct e as [rc|]; [|destruct (bool_decide _)]; intros [= <-].
    + eapply steady_trans; [|now apply steady_effect]. now apply (Same _ S1).
    + now apply (Same _ S1).
    + now apply (Same _ S1).
  - unfold cs_ipcs_msg_process. destruct (corosync_sending_allowed _ _ _ _ _ _) as [ok|]; [|discriminate]. cbn [mbind option_bind].
    set (s1 := if reserved =? -1 then s else _).
    assert (S1 : steady s s1) by (unfold s1; destruct (reserved =? -1); [apply steady_refl | now apply steady_effect]).
    assert (R : forall s2, steady s s2 -> steady s (corosync_sending_allowed_release reserved s2))
      by (intros s2 Q; unfold corosync_sending_allowed_release; destruct (reserved =? -1); [exact Q | eapply steady_trans; [exact Q | now apply steady_effect]]).
    assert (A : forall err s2, steady s s2 -> steady s (if (service_of c =? CPG_SERVICE) && (id =? 2) then s2 else ipc_emit (IpcResponse c err) s2))
      by (intros err s2 Q; destruct (_ && _); [exact Q | eapply steady_trans; [exact Q | now apply steady_effect]]).
    destruct (ok =? - EINVAL); [|destruct (ok <? 0)]; intros [= <-]; apply R; [apply A; now apply (Same _ S1).. |]. eapply steady_trans; [exact S1 | now apply steady_effect].
  - intros [= <-]. now apply (Same s (steady_refl s)).
  - intros [= <-]. now apply (Same s (steady_refl s)).
  - intros [= <-]. unfold corosync_recheck_the_q_level. destruct (_ =? _); [eapply steady_trans; now apply steady_effect | now apply steady_effect].
  - intros [= <-]. unfold cs_ipcs_clear_stats. eapply steady_trans; [|apply steady_fold].
    + now apply (Same s (steady_refl s)).
    + intros s1 i. destruct (ipcs_mapper s1 !! i); [|apply steady_refl]. apply steady_fold. intros s2 c.
      eapply steady_trans; [apply (steady_effect (IpcStatsCleared c)); reflexivity|]. now constructor.
Qed.

(** Every change of the state sets all rates anew. *)
Lemma check_rates_ok s : is_level (ipc_fc_totem_queue_level s) -> rates_ok (cs_ipcs_check_for_flow_control corosync_service s).
Proof.
  clear service_of pid_of. intros L. destruct (check_rates service_ids s L service_ids_nodup) as [C R]. split; [unfold cs_ipcs_check_for_flow_control; now rewrite (ck_level _ _ C)|].
  intros i e name Hi He Hn. unfold cs_ipcs_check_for_flow_control in *. rewrite R, (ck_quorate _ _ C), (ck_level _ _ C), (ck_sync _ _ C), He. rewrite (ck_mapper _ _ C) in Hn.
  rewrite Hn, bool_decide_true by exact Hi. reflexivity.
Qed.

Lemma step_rates_ok e s s' : match e with IeLevel level => is_level level | _ => True end -> rates_ok s -> ipc_step e s = Some s' -> rates_ok s'.
Proof.
  intros Hl [L R] E. destruct (changes_state e) eqn:Ce.
  - destruct e; try discriminate; injection E as <-; apply check_rates_ok; [exact L | exact Hl | exact L].
  - destruct (other_events_steady e s s' Ce E) as [C S]. split; [now rewrite (ck_level _ _ C)|]. intros i eng name Hi He Hn.
    rewrite S, (ck_quorate _ _ C), (ck_level _ _ C), (ck_sync _ _ C). apply (R i eng name Hi He). now rewrite <- (ck_mapper _ _ C).
Qed.

(** C40: The rates of requests follow the state of the node.  Over any sequence of
    events, the last rate that libqb was told for a service is the one that the quorum,
    the queue of totem and the synchronisation ask for: off without quorum (unless the
    service does without it), off while the queue is critical, off during a
    synchronisation for all services but votequorum, and otherwise the faster the
    emptier the queue is. *)
Theorem rates_follow_state es s : ipc_inv s -> ipc_events_ok es s -> Forall (fun e => match e with IeLevel level => is_level level | _ => True end) es -> rates_ok s ->
  exists s', ipc_run es s = Some s' /\ rates_ok s' /\
    (ipc_fc_sync_in_process s' <> 0 -> forall i e name, i ∈ service_ids -> corosync_service i = Some e -> ipcs_mapper s' !! i = Some name -> i <> VOTEQUORUM_SERVICE ->
      last_rate i (ipc_out s') = Some QB_IPCS_RATE_OFF \/ last_rate i (ipc_out s') = Some QB_IPCS_RATE_OFF_2).
Proof.
  intros I Ok F R. assert (exists s', ipc_run es s = Some s' /\ rates_ok s') as (s' & E & R').
  { revert s I Ok R. induction es as [|e es IH]; intros s I Ok R; [now exists s|]. apply Forall_cons in F as [Fe F]. cbn [ipc_events_ok ipc_run] in *. destruct Ok as [Oe Ok].
    destruct (ipc_steps e s I Oe) as (s1 & E & I1 & _). rewrite E in Ok |- *. cbn [mbind option_bind]. apply IH; [exact F | exact I1 | exact Ok | exact (step_rates_ok e s s1 Fe R E)]. }
  exists s'. split; [exact E|]. split; [exact R'|]. intros Hs i e name Hi He Hn Nv. rewrite (proj2 R' i e name Hi He Hn). unfold rate_for.
  destruct (negb (_ || _)); [now left|]. rewrite (proj2 (Z.eqb_neq _ _) Hs), (proj2 (Z.eqb_neq _ _) Nv). cbn [negb andb]. rewrite orb_true_r. now right.
Qed.
End Props.

(** ** Connections *)

(** Which users and groups the configuration lets in. *)
Definition key_set {M} `{QB : qb_map M} (key : string) (m : icmap M) : Prop :=
  exists i, lookup_item (icmap_global_map m) key m = Some i /\ ii_type i = ICMAP_VALUETYPE_UINT8 /\ le_value (ii_value i) = 1.

Lemma key_allows_spec {M} `{QB : qb_map M} `{QL : !qb_map_laws M} key (m : icmap M) : icmap_ok m -> is_Some (map_at (icmap_global_map m) m) ->
  exists b, key_allows key m = Some b /\ (b = true <-> key_set key m).
Proof.
  intros Ok Hg. unfold key_allows, icmap_get_uint8, icmap_get_uint8_r, get_unsigned, icmap_get_int_r, key_set. rewrite get_r_lookup by exact Hg. cbn [mbind option_bind].
  destruct (lookup_item (icmap_global_map m) key m) as [i|] eqn:L; [|exists false; split; [reflexivity|]; split; [discriminate | now intros (i & H & _)]]. cbn [negb].
  destruct (type_eqb (ii_type i) ICMAP_VALUETYPE_UINT8) eqn:T.
  - apply type_eqb_true in T. destruct (Ok _ _ _ L) as [Io _]. unfold item_ok in Io. rewrite T in Io. cbn in Io. rewrite Io. cbn. rewrite T. cbn.
    rewrite take_ge by (unfold ii_value_len in Io; lia). exists (le_value (ii_value i) =? 1). split; [reflexivity|]. rewrite Z.eqb_eq. split; [intros H; now exists i | now intros (j & [= <-] & _ & H)].
  - exists false. split; [|split; [discriminate|]].
    + destruct (Nat.ltb 16 (ii_value_len i)); cbn [mbind option_bind]; [reflexivity|]. change (negb (CS_OK =? CS_OK)) with false. cbn [g_type g_value]. now rewrite T.
    + intros (j & [= <-] & H & _). rewrite H in T. discriminate.
Qed.

(** A connection is accepted exactly when the program is ready, the service exists, there
    are descriptors left, and the user is root or is let in by one of the four keys. *)
Lemma accept_exact {M} `{QB : qb_map M} `{QL : !qb_map_laws M} services service_of c euid egid (m : icmap M) s :
  icmap_ok m -> is_Some (map_at (icmap_global_map m) m) ->
  exists rc, cs_ipcs_connection_accept services service_of c euid egid m s = Some rc /\
    (rc = 0 <-> ipc_allow_connections s <> 0 /\ is_Some (services (service_of c)) /\ is_Some (ipcs_mapper s !! service_of c) /\ ipc_not_enough_fds_left s = 0 /\
      (euid = 0 \/ egid = 0 \/ key_set (snprintf ICMAP_KEYNAME_MAXLEN ("uidgid.uid." +:+ pretty euid)) m \/ key_set (snprintf ICMAP_KEYNAME_MAXLEN ("uidgid.config.uid." +:+ pretty euid)) m \/
       key_set (snprintf ICMAP_KEYNAME_MAXLEN ("uidgid.gid." +:+ pretty egid)) m \/ key_set (snprintf ICMAP_KEYNAME_MAXLEN ("uidgid.config.gid." +:+ pretty egid)) m)).
Proof.
  intros Ok Hg. unfold cs_ipcs_connection_accept.
  destruct (Z.eqb_spec (ipc_allow_connections s) 0) as [A|A]; [eexists; split; [reflexivity|]; split; [discriminate | tauto]|].
  destruct (services (service_of c)); [|eexists; split; [reflexivity|]; split; [discriminate | intros (_ & [x X] & _); discriminate]].
  destruct (ipcs_mapper s !! service_of c); [|eexists; split; [reflexivity|]; split; [discriminate | intros (_ & _ & [x X] & _); discriminate]].
  destruct (Z.eqb_spec (ipc_not_enough_fds_left s) 0) as [Fd|Fd]; cbn [negb]; [|eexists; split; [reflexivity|]; split; [discriminate | tauto]].
  destruct (Z.eqb_spec euid 0) as [U|U]; cbn [orb]; [eexists; split; [reflexivity|]; split; [intros _; repeat split; eauto | reflexivity]|].
  destruct (Z.eqb_spec egid 0) as [G|G]; [eexists; split; [reflexivity|]; split; [intros _; repeat split; eauto | reflexivity]|].
  destruct (key_allows_spec (snprintf ICMAP_KEYNAME_MAXLEN ("uidgid.uid." +:+ pretty euid)) m Ok Hg) as (b1 & -> & B1).
  destruct (key_allows_spec (snprintf ICMAP_KEYNAME_MAXLEN ("uidgid.config.uid." +:+ pretty euid)) m Ok Hg) as (b2 & -> & B2).
  destruct (key_allows_spec (snprintf ICMAP_KEYNAME_MAXLEN ("uidgid.gid." +:+ pretty egid)) m Ok Hg) as (b3 & -> & B3).
  destruct (key_allows_spec (snprintf ICMAP_KEYNAME_MAXLEN ("uidgid.config.gid." +:+ pretty egid)) m Ok Hg) as (b4 & -> & B4).
  cbn [mbind option_bind]. destruct b1, b2, b3, b4; (eexists; split; [reflexivity|]); rewrite <- B1, <- B2, <- B3, <- B4;
    (split; [intros H; (discriminate H || (repeat split; eauto; tauto)) | intros H; (reflexivity || (exfalso; intuition congruence))]).
Qed.

(** ** The number of connections *)

(** Clearing the statistics while connections are open makes the number of active
    connections wrap around when they close. *)
Lemma clear_breaks_active services service_of pid_of connections c s s' s'' :
  s' = cs_ipcs_clear_stats connections s -> cs_ipcs_connection_closed services service_of pid_of c 0 s' = Some (0, s'') -> gs_active s'' = 2 ^ 64 - 1.
Proof.
  intros E1 E. assert (Z0 : gs_active s' = 0).
  { rewrite E1. clear. assert (K : forall (f : ipc -> Z -> ipc) l t, (forall t a, gs_active (f t a) = gs_active t) -> gs_active (fold_left f l t) = gs_active t).
    { intros f l. induction l as [|a l IH]; intros t H; [reflexivity|]. cbn. rewrite IH by exact H. apply H. }
    unfold cs_ipcs_clear_stats. rewrite K; [reflexivity|]. intros t a. destruct (ipcs_mapper t !! a); [|reflexivity]. now apply K. }
  clear E1. unfold cs_ipcs_connection_closed in E. destruct (services (service_of c)); [|discriminate]. cbn [mbind option_bind] in E. injection E as <-.
  change (u64 (gs_active s' - 1) = 2 ^ 64 - 1). now rewrite Z0.
Qed.

(** ** Witnesses *)

Definition demo_services (i : Z) : option service_engine :=
  if i =? CPG_SERVICE then Some (mk_engine false [CS_LIB_FLOW_CONTROL_NOT_REQUIRED; CS_LIB_FLOW_CONTROL_REQUIRED; CS_LIB_FLOW_CONTROL_REQUIRED])
  else if i =? VOTEQUORUM_SERVICE then Some (mk_engine true [CS_LIB_FLOW_CONTROL_NOT_REQUIRED]) else None.
Definition demo_service_of (c : Z) : Z := if c =? 8 then VOTEQUORUM_SERVICE else CPG_SERVICE.

Definition demo_ready : ipc :=
  cs_ipcs_fc_quorum_changed demo_services 1 (ipc_zero <| ipcs_mapper := {[CPG_SERVICE := "cpg"%string; VOTEQUORUM_SERVICE := "votequorum"%string]} |>).
Definition demo_client : ipc := default demo_ready (ipc_step demo_services demo_service_of (fun _ => 100) (IeConnect 7 0 None) demo_ready).

Lemma demo_ready_inv : ipc_inv demo_ready.
Proof.
  constructor.
  - intros c q H. assert (E : ipc_contexts demo_ready = ∅) by (vm_compute; reflexivity). unfold queue in H. now rewrite E, lookup_empty in H.
  - assert (E : ipc_jobs demo_ready = []) by (vm_compute; reflexivity). rewrite E. constructor.
  - intros c H. assert (E : ipc_jobs demo_ready = []) by (vm_compute; reflexivity). rewrite E in H. now apply elem_of_nil in H.
Qed.

Lemma demo_connects : ipc_step demo_services demo_service_of (fun _ => 100) (IeConnect 7 0 None) demo_ready = Some demo_client.
Proof. vm_compute. reflexivity. Qed.

Lemma demo_client_inv : ipc_inv demo_client.
Proof.
  destruct (ipc_steps demo_services demo_service_of (fun _ => 100) (IeConnect 7 0 None) demo_ready demo_ready_inv) as (s' & E & I & _).
  - split; [vm_compute; reflexivity | eexists; reflexivity].
  - rewrite demo_connects in E. injection E as ->. exact I.
Qed.

(** The client does not read at first; one of two messages is taken when the queue is flushed. *)
Definition demo_dispatch : list ipc_event :=
  [IeSend 7 (-11) [[1; 2]; [3]]; IeSync 1; IeSend 7 (-11) [[4]]; IeRequest 7 1 1 1 1; IeFlush 7 (fun i => if Nat.eqb i 0 then 3 else -11)].

(** The steps of a concrete run, and the answers of libqb in its last flush of two messages. *)
Ltac run_events := cbn [ipc_events_ok];
  repeat match goal with |- context [match ipc_step ?a ?b ?d ?e ?s with _ => _ end] =>
    let r := eval vm_compute in (ipc_step a b d e s) in replace (ipc_step a b d e s) with r by (vm_compute; reflexivity); cbv iota end.
Ltac flush_results := intros x i m Hx Hi; vm_compute in Hx; injection Hx as <-;
  do 2 (destruct i as [|i]; [vm_compute in Hi; injection Hi as <-; (right; reflexivity) || (left; reflexivity)|]); now destruct i.

Lemma demo_dispatch_ok : ipc_events_ok demo_services demo_service_of (fun _ => 100) demo_dispatch demo_client.
Proof.
  unfold demo_dispatch. run_events.
  split; [eexists; vm_compute; reflexivity|]. split; [exact I|]. split; [eexists; vm_compute; reflexivity|]. split; [split; [lia | eexists; reflexivity]|].
  split; [|exact I]. flush_results.
Qed.

(** A message is refused with an error before that. *)
Definition demo_refused : list ipc_event := IeSend 7 (-32) [[9]] :: demo_dispatch.

Lemma demo_refused_ok : ipc_events_ok demo_services demo_service_of (fun _ => 100) demo_refused demo_client.
Proof.
  unfold demo_refused, demo_dispatch. run_events.
  split; [eexists; vm_compute; reflexivity|]. split; [eexists; vm_compute; reflexivity|]. split; [exact I|]. split; [eexists; vm_compute; reflexivity|]. split; [split; [lia | eexists; reflexivity]|].
  split; [|exact I]. flush_results.
Qed.

(** The first message is lost, the second one taken, the third one waits. *)
Lemma dispatch_in_order_witness : exists s' q' b' kept, ipc_run demo_services demo_service_of (fun _ => 100) demo_refused demo_client = Some s' /\
  queue s' 7 = Some (q', b') /\ delivered 7 (ipc_out s') ++ q' = kept /\ kept `sublist_of` [[9]; [1; 2; 3]; [4]] /\ (3 <= length kept + refused 7 (ipc_out s'))%nat.
Proof.
  destruct (dispatch_in_order demo_services demo_service_of (fun _ => 100) demo_refused demo_client 7 [] false demo_client_inv demo_refused_ok) as (s' & q' & b' & kept & R & Q & D & K & L & _).
  - unfold demo_refused, demo_dispatch. now repeat constructor.
  - vm_compute. reflexivity.
  - exists s', q', b', kept.
    split; [exact R|]. split; [exact Q|]. split; [rewrite D; vm_compute; reflexivity|]. split; [exact K|].
    assert (Z0 : refused 7 (ipc_out demo_client) = 0%nat) by (vm_compute; reflexivity). rewrite Z0 in L. exact L.
Defined.

Lemma request_gate_exact_witness : exists res s' l, cs_ipcs_msg_process demo_services demo_service_of 7 1 3 1 1 demo_client = Some (res, s') /\
  ipc_out s' = ipc_out demo_client ++ reserves 3 l /\ l = [IpcResponse 7 CS_ERR_TRY_AGAIN].
Proof.
  destruct (request_gate_exact demo_services demo_service_of (mk_engine false [CS_LIB_FLOW_CONTROL_NOT_REQUIRED; CS_LIB_FLOW_CONTROL_REQUIRED; CS_LIB_FLOW_CONTROL_REQUIRED])
    7 1 3 1 1 demo_client eq_refl ltac:(lia)) as (res & s' & l & E & O & _ & T & _).
  exists res, s', l. split; [exact E|]. split; [exact O|]. apply T.
  - split; [discriminate | cbn; lia].
  - intros [_ [H|[_ H]]]; discriminate H.
Defined.

Lemma rates_follow_state_witness : exists s', ipc_run demo_services demo_service_of (fun _ => 100) demo_dispatch demo_client = Some s' /\ rates_ok demo_services s'.
Proof.
  destruct (rates_follow_state demo_services demo_service_of (fun _ => 100) demo_dispatch demo_client demo_client_inv demo_dispatch_ok) as (s' & R & Ok & _).
  - unfold demo_dispatch. now repeat constructor.
  - refine (step_rates_ok demo_services demo_service_of (fun _ => 100) (IeConnect 7 0 None) demo_ready demo_client Logic.I _ demo_connects).
    apply check_rates_ok. split; vm_compute; discriminate.
  - exists s'. split; [exact R | exact Ok].
Defined.
